(* ===== verification/_CoqProject ===== *)
-Q . S2P
Prelude.v
JsStr.v
JsNum.v
JsVal.v
JsList.v
JsBytes.v
JsDate.v
Net.v
PingTask.v
Webhook.v
Settings.v
Report.v
Client.v
Notify.v
RateLimit.v
Totp.v
Admin.v
Mfa.v
Viewer.v
Password.v
LiveAuth.v
LiveAdmin.v
LiveSync.v
LiveReport.v
Budget.v
Website.v
LivePersist.v
LiveViewer.v
Install.v
History.v
Theme.v
Delivery.v
View.v
JsJson.v
Effects.v
AgentHttp.v
RequestBody.v
Trace.v
Access.v
Login.v
LoginLimit.v
LoginSpec.v
Account.v
AccountSpec.v
AgentSpec.v
Outbox.v
Backup.v
BackupSpec.v
AdminHttp.v
AdminNodes.v
AdminConfig.v
AdminBackup.v
RestoreSpec.v
AdminSettings.v
AdminSpec.v
ConfigSpec.v
LiveHttp.v
