(* ===== verification/Prelude.v ===== *)
(** * CF VPS Monitor: a verification development

    The program is a monitoring panel for servers.  A Cloudflare Worker
    ([src/worker]) serves the panel and its API, coordinates live state in
    Durable Objects and runs scheduled checks; Supabase Postgres
    ([src/supabase/migrations]) keeps configuration and history; agents written
    in Go ([src/agent]) report from the servers; the panel itself is a React
    application ([src/frontend]).  This library models the TypeScript of the
    Worker and of the panel, and the stored procedures that the deliveries of
    notifications, the queue of changed nodes and the limits on logins rest on.

    ** The language

    - [Prelude] (this file): tactics, the [result] type of fallible code, generic
      lemmas.
    - [JsStr], [JsNum], [JsVal], [JsJson], [JsList], [JsBytes], [JsDate]: strings as
      UTF-16 code units, binary64 numbers as rationals with rounding, values of type
      [unknown] with objects as ordered property lists, [JSON.stringify] and
      [JSON.parse] with their round trip, stable sorting, base64 and UTF-8, dates.  A
      regular expression of the source is a boolean function over code units next to
      its use.
    - [Effects]: asynchronous handlers as programs over the calls they await, the
      state their isolate shares, the clock, headers and background tasks; their runs
      in an environment, weakest preconditions over every environment, and programs
      that run side by side.  [Trace] adds the order of calls, times, headers and tasks;
      [RequestBody] the limited reading of a body ([utils/request-body.ts]).

    ** The parts and their files

    - [Net]: [utils/request-ip.ts], URL records, IPv4 blocks.
    - Input validation: [PingTask] ([utils/ping-task.ts]), [Website]
      ([utils/website-monitor.ts], with the probes), [Webhook] ([utils/webhook.ts],
      with rendering and retries), [Settings] ([settings/schema.ts]), [Client]
      ([utils/client.ts]), [Theme] ([utils/theme-package.ts]), [Notify]
      ([utils/notification.ts] and the alert decisions of [index.ts]).
    - Reports: [Report] ([utils/monitor-report.ts] and the public projections).
    - Access: [Totp], [Admin], [Mfa], [Viewer], [Password] ([auth/*.ts]),
      [RateLimit] ([do/rate-limit.ts]).
    - The live Durable Object [do/live-data.ts]: [LiveAuth] (credentials),
      [LiveAdmin] (metadata snapshot and tombstones), [LiveSync] (changes queued by
      the database), [LiveReport] (reports in progress, one step per segment
      between two [await]s), [LivePersist] (history and its capacity gate),
      [LiveViewer] (viewer sessions).  [LiveSync] extends the state of [LiveAuth]
      and [LiveAdmin]; [LiveReport] interleaves with its handlers.
    - HTTP: [AgentHttp] ([routes/client.ts], [utils/do-response.ts]) and [LiveHttp]
      ([routes/websocket.ts]), whose handlers call the parts above; [AgentSpec] proves
      what agents can do with them.
    - Signing in: [Access] (what the routes share: [auth/password-service.ts],
      [db/auth-confirmation.ts], the limits on failures and the caches of sessions),
      [Login] (login, second step, logout, session and recovery of [routes/public.ts]),
      [LoginLimit] (the limiter's rows and procedures of [4_rpc_api.sql]) and [Account]
      (second factor, name and password in [routes/admin.ts]); theorems in [LoginSpec]
      and [AccountSpec].
    - The administrator's routes [routes/admin.ts]: [AdminHttp] (what they share),
      [AdminNodes] (nodes, tokens, records), [AdminConfig] (ping tasks, website monitors,
      notification rules), [AdminSettings] (settings and the logo), [AdminBackup]
      (download and restoration); theorems in [AdminSpec], [ConfigSpec], [RestoreSpec].
    - [Outbox]: the queue of changed nodes, from the trigger and the procedures of
      [4_rpc_api.sql] to [utils/client-sync.ts], next to the live object ([LiveSync]).
    - Backups: [Backup] ([utils/backup.ts], [utils/backup-snapshot.ts]), with the
      theorems in [BackupSpec].
    - Scheduled work: [Budget] ([utils/scheduled-budget.ts]), [Delivery]
      ([utils/notification-dispatch.ts], [sendNotification] of [index.ts] and the
      ledger of [4_rpc_api.sql]).
    - The panel: [View] ([contexts/LiveDataContext.tsx],
      [utils/liveDataResponse.ts]), [History] ([utils/publicHistory.ts]),
      [Install] ([utils/agentInstallCommand.ts]).

    A comment of the form [@worker/src/...:first-last name] before a definition
    names the lines it translates, relative to [src/].

    ** What the theorems show

    - State machines and interleavings.  Deliveries: [Delivery.one_sender_per_lease],
      [recorded_delivery_final], [delivery_never_stuck] hold of every interleaving of
      workers that may stop or lose answers between two calls, with rules and nodes
      edited meanwhile.  Changed nodes: [Outbox.unqueued_nodes_in_step] (a node that is
      not queued has in the live object what its row says, whatever runs beside) and
      [retries_drain]; [LiveSync.synchronization_converges], for changes delivered at
      least once in any order.  Reports in progress:
      [LiveReport.removed_reports_leave_nothing] and [reports_complete].  The page:
      [View.viewer_converges], a refinement of the board the server announces.
      Restarts: [LivePersist.capacity_survives_restarts].  The cron:
      [Budget.scheduled_items_fair]; as a lemma, [Notify.offline_runs_alternate].
    - Handlers, for every run in every environment: whom a request acts for
      ([AgentSpec.agent_request_confined], [LiveHttp.live_connections_guarded]); what an
      answer to the administrator promises ([AdminSpec.node_changes_acknowledged],
      [RestoreSpec.restore_truthful], [ConfigSpec.settings_form_stored],
      [settings_form_round_trip], [website_changes_announced]); caches
      ([AgentSpec.agent_caches_bounded], over any interleaving of requests and tasks) and
      repeated reports ([basic_info_settles]).
    - Access: [LoginSpec.session_cookie_earned] and [AccountSpec.account_cookies_earned]
      (a session, its renewal and a step-up exist only with their proof),
      [LoginSpec.guess_rate] (wrong passwords per quarter of an hour, with the handlers,
      the procedures and the removal of old rows composed; of attempts that follow one
      another, not of attempts that overlap),
      [Admin.admin_gate_authorizes], [token_kinds_separate],
      [LiveAuth.agent_credentials_exclusive], [Totp.verifyTotpCode_window],
      [RateLimit.checkRateLimit_fixed_window].
    - What leaves the system: addresses the Worker connects to
      ([PingTask.validatePingTaskInput_host_allowed], [Webhook.buildWebhookRequest_host_safe],
      [Website.website_probe_reports]), what viewers see
      ([LiveAdmin.buildSnapshot_visible], [removed_node_stays_removed]), what a shell reads
      ([Install.install_command_arguments]).
    - Bounds: [Theme.theme_package_bounded], [LiveViewer.viewer_limits]; termination of
      [History.history_pages].
    - Round trips: [BackupSpec.exported_backup_restores] (with
      [validated_backup_consistent] for what a backup may hold), sealed second factors
      ([Mfa.totp_secret_rotation]); as lemmas, JSON and UTF-8 texts, base32, compacted
      reports.
    - The other theorems of the component files stand beside these:
      [Report.normalizeMonitorReport_bounded], [Report.toPublicReport_allowlist],
      [Settings.buildPublicSettings_no_secret], [Viewer.viewer_token_bound],
      [Password.verifyPassword_spec], [Webhook.sendWebhookMessage_requests],
      [AgentSpec.policy_always_answers], [ConfigSpec.notification_form_conceals].

    ** Conventions, parameters and bounds

    Code outside the repository is a parameter: the URL parser, HMAC, SHA, PBKDF2,
    HKDF and AES-GCM, the JWT library, the archive library, [Date.parse] for formats
    other than ISO, Unicode tables, the network, random values, clocks.  What is
    assumed of them is a class or a named hypothesis ([Admin.JwtLaws],
    [Mfa.MfaCrypto], [Backup.BackupCryptoLaws]), each with an instance in the examples.
    The handlers assume nothing of what answers them, except where a theorem composes them
    with the database of [Outbox] or [LoginLimit].  Durable Object code
    runs without interruption from one [await] to the next unless storage calls let
    other requests in; writes issued together commit together.  Fuel: the readers of
    JSON take the length of the text plus one, decimal digits the binary logarithm,
    the history reader its 32 pages, the retry loop of webhooks its attempts; the
    theorems about them are stated for the fuel the definitions pass.  Numbers that
    the code keeps as integers are [Z], with the 32-bit operations written out where
    the code uses them ([Totp]); negative zero is identified with zero.

    ** Not modelled

    - In [routes/admin.ts]: the audit log and health pages, the capacity estimate, the
      maintenance clean-up, the update check and the test message.  In [routes/public.ts]:
      the pages of data (their projections are in [Report], [LiveAdmin] and [Settings]).
      [routes/setup.ts], [routes/theme.ts], edge caches and the rest of [index.ts]:
      request plumbing around the parts above.
    - The database access layer ([db/*.ts]) and the other stored procedures: calls
      over HTTP and SQL; where a part depends on one, its answer is an argument.
    - Formatting of messages with [Intl], SMTP ([email.ts]), Telegram, health events.
    - In [do/live-data.ts]: the queue of website rechecks, GPU snapshots, policies sent
      to agents, the geolocation lookup.
    - React components and pages, the charts and lists of the public page, styles, the Go
      agent, deployment scripts, generated files. *)

From stdpp Require Export prelude gmap list sorting.
From Stdlib Require Export ZArith QArith Qround Qreduction Qabs.
From Stdlib Require Export Lia Lqa.
#[export] Set Warnings "-notation-overridden,-register-all,-clear-no-such-hyp".

(** [->] binders on numbers below are [Z] unless said otherwise. *)
#[global] Open Scope Z_scope.
Declare Scope cfvm_scope.
Delimit Scope cfvm_scope with cfvm.

(** [simpl] keeps the operations on rationals folded. *)
#[global] Arguments Qfloor : simpl never.
#[global] Arguments Qceiling : simpl never.
#[global] Arguments Qle_bool : simpl never.
#[global] Arguments Qeq_bool : simpl never.
#[global] Arguments inject_Z : simpl never.

(** ** Tactics *)

(** Split the conjunctions and existentials of the context. *)
Ltac des :=
  repeat match goal with
  | H : _ ∧ _ |- _ => destruct H
  | H : ∃ _, _ |- _ => destruct H
  | H : (_ && _) = true |- _ => apply andb_true_iff in H
  | H : (_ || _) = false |- _ => apply orb_false_iff in H
  | H : negb _ = true |- _ => apply negb_true_iff in H
  | H : negb _ = false |- _ => apply negb_false_iff in H
  | H : bool_decide _ = true |- _ => apply bool_decide_eq_true in H
  | H : bool_decide _ = false |- _ => apply bool_decide_eq_false in H
  end.

(** Turn boolean comparisons on [Z] into propositions. *)
Ltac zify_bool :=
  repeat match goal with
  | H : (_ <? _) = true |- _ => apply Z.ltb_lt in H
  | H : (_ <? _) = false |- _ => apply Z.ltb_ge in H
  | H : (_ <=? _) = true |- _ => apply Z.leb_le in H
  | H : (_ <=? _) = false |- _ => apply Z.leb_gt in H
  | H : (_ =? _) = true |- _ => apply Z.eqb_eq in H
  | H : (_ =? _) = false |- _ => apply Z.eqb_neq in H
  end.

(** Case analysis on the innermost [match] or [if] of the goal or of a
    hypothesis, keeping the equation. *)
Ltac case_match_eq := case_match; simplify_eq.
Ltac break_in H :=
  repeat (match type of H with context [match ?x with _ => _ end] =>
            let E := fresh "E" in destruct x eqn:E end; simplify_eq).
Ltac break_goal :=
  repeat (match goal with |- context [match ?x with _ => _ end] =>
            let E := fresh "E" in destruct x eqn:E end; simplify_eq).

(** One goal per disjunct of a hypothesis. *)
Ltac decompose_or H := repeat match type of H with _ ∨ _ => destruct H as [H | H] end.

(** One goal per element of a literal list the hypothesis says [x] is in. *)
Ltac list_cases H :=
  rewrite ?elem_of_cons in H; decompose_or H; try (by apply not_elem_of_nil in H); try subst.

(** Membership of a literal in a literal list. *)
Ltac list_elem := first [apply list_elem_of_here | apply list_elem_of_further; list_elem].

(** Close arithmetic goals that carry boolean comparisons. *)
Ltac zlia := des; zify_bool; try lia.

Create HintDb cfvm.
Create Rewrite HintDb cfvm.

(** ** Fallible operations *)

(** The value an operation returns, or what it throws. *)
Inductive result (E A : Type) := Ok (a : A) | Err (e : E).
Arguments Ok {E A} _.
Arguments Err {E A} _.

Definition rbind {E A B} (m : result E A) (f : A → result E B) : result E B :=
  match m with Ok a => f a | Err e => Err e end.
Notation "'let*' x ':=' m 'in' k" := (rbind m (λ x, k))
  (at level 10, x name, m at level 200, k at level 200) : cfvm_scope.
Notation "'let*' ( x , y ) ':=' m 'in' k" := (rbind m (λ p, let (x, y) := p in k))
  (at level 10, x name, y name, m at level 200, k at level 200) : cfvm_scope.
#[global] Open Scope cfvm_scope.

Lemma rbind_Ok {E A B} (m : result E A) (f : A → result E B) b :
  rbind m f = Ok b ↔ ∃ a, m = Ok a ∧ f a = Ok b.
Proof. destruct m; simpl; naive_solver. Qed.

Lemma Ok_inj {E A} (a b : A) : @Ok E A a = Ok b → a = b.
Proof. by intros [= ->]. Qed.

(** ** Lists *)

Section ListFacts.
Context {A B : Type}.

(** [slice(0, n)] of a list. *)
Lemma take_length_le (n : nat) (l : list A) : (length (take n l) ≤ n)%nat.
Proof. rewrite length_take. lia. Qed.

Lemma Forall_filter_weak (P : A → Prop) (Q : A → Prop) `{!∀ x, Decision (Q x)} (l : list A) :
  Forall P l → Forall P (filter Q l).
Proof. rewrite !Forall_forall. intros HP x Hx. apply list_elem_of_filter in Hx as [_ Hx]. auto. Qed.

Lemma fold_left_invariant (P : B → Prop) (f : B → A → B) (l : list A) (b : B) :
  P b → (∀ b a, a ∈ l → P b → P (f b a)) → P (fold_left f l b).
Proof.
  revert b. induction l as [|a l IH]; intros b Hb Hf; [done|]. simpl.
  apply IH; [apply Hf; [left | done] |]. intros; apply Hf; [by right | done].
Qed.

Lemma existsb_false (f : A → bool) (l : list A) :
  existsb f l = false ↔ ∀ x, x ∈ l → f x = false.
Proof.
  induction l as [|a l IH]; simpl; [split; [intros _ x Hx; by apply not_elem_of_nil in Hx | done] |].
  rewrite orb_false_iff, IH. split.
  - intros [Ha Hl] x Hx. apply elem_of_cons in Hx as [->|Hx]; auto.
  - intros H. split; [apply H; left | intros x Hx; apply H; by right].
Qed.

Lemma forallb_true (f : A → bool) (l : list A) :
  forallb f l = true ↔ ∀ x, x ∈ l → f x = true.
Proof.
  rewrite forallb_forall. setoid_rewrite list_elem_of_In. done.
Qed.

Lemma forallb_rev (f : A → bool) (l : list A) : forallb f (rev l) = forallb f l.
Proof.
  induction l as [|a l IH]; simpl; [done |]. rewrite forallb_app, IH. simpl.
  rewrite andb_true_r. apply andb_comm.
Qed.

Lemma forallb_map_comp (f : B → bool) (g : A → B) (l : list A) :
  forallb f (map g l) = forallb (λ x, f (g x)) l.
Proof. induction l as [|a l IH]; simpl; [done | by rewrite IH]. Qed.

Lemma existsb_true (f : A → bool) (l : list A) :
  existsb f l = true ↔ ∃ x, x ∈ l ∧ f x = true.
Proof. rewrite existsb_exists. setoid_rewrite list_elem_of_In. done. Qed.
End ListFacts.

#[export] Hint Rewrite @length_app @length_map @length_take : cfvm.
#[export] Hint Resolve NoDup_nil_2 Forall_nil_2 : cfvm.
