(* ===== verification/JsStr.v ===== *)
(** * JavaScript strings

    A string is its sequence of UTF-16 code units, so that [length], [slice]
    and comparisons are those of the language.  Literals are written in
    [js_scope]: their UTF-8 bytes are decoded to code points and re-encoded to
    UTF-16, so a literal denotes the string the TypeScript source denotes.
    Each regular expression of the source is a boolean function over these
    units, defined next to the code that uses it. *)

From S2P Require Import Prelude.

Record jstr := JS { units : list N }.

#[global] Instance jstr_eq_dec : EqDecision jstr.
Proof. solve_decision. Defined.
#[global] Instance jstr_countable : Countable jstr.
Proof. refine (inj_countable' units JS _). by intros []. Defined.
#[global] Instance jstr_inhabited : Inhabited jstr := populate (JS []).

(** ** Literals *)

(** Code points of a UTF-8 byte sequence (literals are well formed). *)
Fixpoint utf8_points (bs : list N) : list N :=
  match bs with
  | [] => []
  | b0 :: r0 =>
    if (b0 <? 128)%N then b0 :: utf8_points r0
    else match r0 with
    | [] => [65533%N]
    | b1 :: r1 =>
      if (b0 <? 224)%N then ((b0 - 192) * 64 + (b1 - 128))%N :: utf8_points r1
      else match r1 with
      | [] => [65533%N]
      | b2 :: r2 =>
        if (b0 <? 240)%N
        then ((b0 - 224) * 4096 + (b1 - 128) * 64 + (b2 - 128))%N :: utf8_points r2
        else match r2 with
        | [] => [65533%N]
        | b3 :: r3 =>
          ((b0 - 240) * 262144 + (b1 - 128) * 4096 + (b2 - 128) * 64 + (b3 - 128))%N
            :: utf8_points r3
        end
      end
    end
  end.

(** UTF-16 encoding of a code point. *)
Definition utf16_of_point (p : N) : list N :=
  if (p <? 65536)%N then [p]
  else [(55296 + (p - 65536) / 1024)%N; (56320 + (p - 65536) mod 1024)%N].

Definition js_of_bytes (l : list Byte.byte) : jstr :=
  JS (flat_map utf16_of_point (utf8_points (map Byte.to_N l))).
Definition bytes_of_js (s : jstr) : option (list Byte.byte) :=
  mapM (λ u, if (u <? 128)%N then Byte.of_N u else None) (units s).

Declare Scope js_scope.
Delimit Scope js_scope with js.
Bind Scope js_scope with jstr.
String Notation jstr js_of_bytes bytes_of_js : js_scope.
#[global] Open Scope js_scope.

(** ** Basic operations *)

(** [s === t] *)
Definition jeq (s t : jstr) : bool := bool_decide (s = t).
(** [s.length] *)
Definition slen (s : jstr) : Z := Z.of_nat (length (units s)).
Definition app (s t : jstr) : jstr := JS (units s ++ units t).
Notation "s +++ t" := (app s t) (at level 60, right associativity) : js_scope.
(** [Boolean(s)]: every string but the empty one is truthy. *)
Definition nonempty (s : jstr) : bool := negb (jeq s "").
(** [a || b] on strings. *)
Definition or_str (a b : jstr) : jstr := if nonempty a then a else b.
(** [s.slice(0, n)] and [s.slice(n)] for [n >= 0] *)
Definition slice_to (n : nat) (s : jstr) : jstr := JS (take n (units s)).
Definition slice_from (n : nat) (s : jstr) : jstr := JS (drop n (units s)).
(** [s.slice(-n)] for [n > 0] *)
Definition slice_last (n : nat) (s : jstr) : jstr :=
  JS (drop (length (units s) - n) (units s)).
(** [xs.includes(s)] and [set.has(s)] on a literal list of strings. *)
Definition mem (s : jstr) (l : list jstr) : bool := bool_decide (s ∈ l).
Definition repeat_str (n : nat) (s : jstr) : jstr := JS (concat (replicate n (units s))).

(** White space and line terminators removed by [trim]; the class [\s]. *)
Definition is_space (u : N) : bool :=
  ((9 <=? u) && (u <=? 13) || (u =? 32) || (u =? 160) || (u =? 5760)
   || ((8192 <=? u) && (u <=? 8202)) || (u =? 8232) || (u =? 8233)
   || (u =? 8239) || (u =? 8287) || (u =? 12288) || (u =? 65279))%N.

Fixpoint drop_while {A} (f : A → bool) (l : list A) : list A :=
  match l with
  | [] => []
  | x :: r => if f x then drop_while f r else l
  end.
Fixpoint take_while {A} (f : A → bool) (l : list A) : list A :=
  match l with
  | [] => []
  | x :: r => if f x then x :: take_while f r else []
  end.
Definition drop_while_end {A} (f : A → bool) (l : list A) : list A :=
  rev (drop_while f (rev l)).

Definition trim (s : jstr) : jstr := JS (drop_while_end is_space (drop_while is_space (units s))).

(** [toLowerCase]/[toUpperCase].  ASCII letters are mapped, together with
    every non-ASCII code unit whose mapping contains an ASCII letter (the
    Kelvin sign and the dotted capital I; long s, dotless i, sharp s and the
    Latin ligatures); the remaining code units are kept.  The source compares
    the result with ASCII text only, for which this is exact. *)
Definition lower_unit (u : N) : list N :=
  if ((65 <=? u) && (u <=? 90))%N then [(u + 32)%N]
  else if (u =? 8490)%N then [107%N]
  else if (u =? 304)%N then [105%N; 775%N]
  else [u].
Definition upper_unit (u : N) : list N :=
  if ((97 <=? u) && (u <=? 122))%N then [(u - 32)%N]
  else if (u =? 383)%N then [83%N]
  else if (u =? 305)%N then [73%N]
  else if (u =? 223)%N then [83%N; 83%N]
  else if (u =? 64256)%N then [70%N; 70%N]
  else if (u =? 64257)%N then [70%N; 73%N]
  else if (u =? 64258)%N then [70%N; 76%N]
  else if (u =? 64259)%N then [70%N; 70%N; 73%N]
  else if (u =? 64260)%N then [70%N; 70%N; 76%N]
  else if ((u =? 64261) || (u =? 64262))%N then [83%N; 84%N]
  else [u].
Definition lower (s : jstr) : jstr := JS (flat_map lower_unit (units s)).
Definition upper (s : jstr) : jstr := JS (flat_map upper_unit (units s)).

(** ** Searching and splitting *)

Fixpoint is_prefix (p l : list N) : bool :=
  match p, l with
  | [], _ => true
  | a :: p', b :: l' => (a =? b)%N && is_prefix p' l'
  | _ :: _, [] => false
  end.
Fixpoint is_infix (p l : list N) : bool :=
  is_prefix p l || match l with [] => false | _ :: l' => is_infix p l' end.
(** [s.startsWith(p)], [s.endsWith(p)], [s.includes(p)] *)
Definition starts_with (p s : jstr) : bool := is_prefix (units p) (units s).
Definition ends_with (p s : jstr) : bool := is_prefix (rev (units p)) (rev (units s)).
Definition includes (p s : jstr) : bool := is_infix (units p) (units s).

(** [s.split(c)] for a separator class [f] of single code units. *)
Fixpoint split_units (f : N → bool) (cur : list N) (l : list N) : list (list N) :=
  match l with
  | [] => [rev cur]
  | u :: r => if f u then rev cur :: split_units f [] r else split_units f (u :: cur) r
  end.
Definition split_on (f : N → bool) (s : jstr) : list jstr := map JS (split_units f [] (units s)).
Definition chr (u : N) : N → bool := λ v, (v =? u)%N.
(** [xs.join(sep)] *)
Fixpoint join (sep : jstr) (l : list jstr) : jstr :=
  match l with
  | [] => ""
  | [x] => x
  | x :: r => x +++ sep +++ join sep r
  end.

(** ** Character classes and whole-string patterns *)

Definition is_digit (u : N) : bool := ((48 <=? u) && (u <=? 57))%N.
Definition is_upper (u : N) : bool := ((65 <=? u) && (u <=? 90))%N.
Definition is_lower (u : N) : bool := ((97 <=? u) && (u <=? 122))%N.
Definition is_alpha (u : N) : bool := is_upper u || is_lower u.
Definition is_alnum (u : N) : bool := is_alpha u || is_digit u.
(** [[0-9a-f]] and [[0-9a-f]] with the [i] flag *)
Definition is_hex_lower (u : N) : bool := is_digit u || ((97 <=? u) && (u <=? 102))%N.
Definition is_hex (u : N) : bool := is_hex_lower u || ((65 <=? u) && (u <=? 70))%N.
(** [/^[class]+$/] *)
Definition all_units (f : N → bool) (s : jstr) : bool := forallb f (units s).
Definition all_units1 (f : N → bool) (s : jstr) : bool := nonempty s && all_units f s.
(** [/[class]/] *)
Definition any_unit (f : N → bool) (s : jstr) : bool := existsb f (units s).

(** ** Decimal and hexadecimal digits *)

Definition digit_val (u : N) : Z := Z.of_N u - 48.
Definition hex_val (u : N) : Z :=
  if is_digit u then Z.of_N u - 48
  else if ((97 <=? u) && (u <=? 102))%N then Z.of_N u - 87 else Z.of_N u - 55.
Definition digits_val (base : Z) (val : N → Z) (l : list N) : Z :=
  fold_left (λ acc u, base * acc + val u) l 0.

Fixpoint dec_digits (fuel : nat) (n : Z) : list N :=
  match fuel with
  | O => []
  | S k => if n <? 10 then [Z.to_N (48 + n)]
           else dec_digits k (n / 10) ++ [Z.to_N (48 + n mod 10)]
  end.
(** Decimal digits of a natural number, and [String(z)] of an integer. *)
Definition dec_nat (n : Z) : list N := dec_digits (S (Z.to_nat (Z.log2 n))) n.
Definition dec_Z (z : Z) : jstr :=
  JS (if z <? 0 then 45%N :: dec_nat (- z) else dec_nat z).

(** [byte.toString(16).padStart(2, '0')] *)
Definition hex_digit (d : Z) : N := Z.to_N (if d <? 10 then 48 + d else 87 + d).
Definition hex_byte (b : Z) : jstr := JS [hex_digit (b / 16); hex_digit (b mod 16)].

(** ** UTF-8 *)

(** [new TextEncoder().encode(s)]: surrogate pairs are combined, a lone
    surrogate is replaced by U+FFFD. *)
Definition utf8_of_point (p : Z) : list Z :=
  if p <? 128 then [p]
  else if p <? 2048 then [192 + p / 64; 128 + p mod 64]
  else if p <? 65536 then [224 + p / 4096; 128 + (p / 64) mod 64; 128 + p mod 64]
  else [240 + p / 262144; 128 + (p / 4096) mod 64; 128 + (p / 64) mod 64; 128 + p mod 64].
Definition is_high (u : N) : bool := ((55296 <=? u) && (u <? 56320))%N.
Definition is_low (u : N) : bool := ((56320 <=? u) && (u <? 57344))%N.
(** The code points of [for (const character of s)]. *)
Fixpoint js_points (l : list N) : list N :=
  match l with
  | [] => []
  | u :: r =>
    match r with
    | v :: r' =>
      if is_high u && is_low v
      then ((u - 55296) * 1024 + (v - 56320) + 65536)%N :: js_points r'
      else u :: js_points r
    | [] => [u]
    end
  end.
Definition scalar (p : N) : Z := if is_high p || is_low p then 65533 else Z.of_N p.
Definition utf8 (s : jstr) : list Z := flat_map (λ p, utf8_of_point (scalar p)) (js_points (units s)).
Definition byte_length (s : jstr) : Z := Z.of_nat (length (utf8 s)).

(** ** Facts *)

Lemma jeq_true s t : jeq s t = true ↔ s = t.
Proof. unfold jeq. apply bool_decide_eq_true. Qed.
Lemma jeq_false s t : jeq s t = false ↔ s ≠ t.
Proof. unfold jeq. apply bool_decide_eq_false. Qed.
Lemma jeq_refl s : jeq s s = true.
Proof. by apply jeq_true. Qed.
Lemma nonempty_true s : nonempty s = true ↔ s ≠ "".
Proof. unfold nonempty. rewrite negb_true_iff. apply jeq_false. Qed.
Lemma nonempty_false s : nonempty s = false ↔ s = "".
Proof. unfold nonempty. rewrite negb_false_iff. apply jeq_true. Qed.
Lemma mem_spec s l : mem s l = true ↔ s ∈ l.
Proof. unfold mem. apply bool_decide_eq_true. Qed.
Lemma mem_false s l : mem s l = false ↔ s ∉ l.
Proof. unfold mem. apply bool_decide_eq_false. Qed.

(** Every code unit of a string is below 2^16. *)
Definition is_unit (u : N) : Prop := (u < 65536)%N.
#[global] Instance is_unit_dec u : Decision (is_unit u) := decide (u < 65536)%N.

Lemma slice_to_length n s : slen (slice_to n s) ≤ Z.of_nat n.
Proof. unfold slen, slice_to. simpl. rewrite length_take. lia. Qed.
Lemma slice_to_all n s : slen s ≤ Z.of_nat n → slice_to n s = s.
Proof. unfold slen, slice_to. destruct s as [l]. simpl. intros. by rewrite take_ge by lia. Qed.

(** *** Trimming *)

Lemma drop_while_idem {A} (f : A → bool) l : drop_while f (drop_while f l) = drop_while f l.
Proof. induction l as [|x l IH]; simpl; [done |]. destruct (f x) eqn:E; [done |]. simpl. by rewrite E. Qed.
Lemma drop_while_suffix {A} (f : A → bool) l : ∃ p, l = p ++ drop_while f l.
Proof.
  induction l as [|x l [p IH]]; simpl; [by exists [] |]. destruct (f x); [| by exists []].
  exists (x :: p). simpl. by rewrite <- IH.
Qed.
Lemma drop_while_end_prefix {A} (f : A → bool) l : ∃ p, l = drop_while_end f l ++ p.
Proof.
  unfold drop_while_end. destruct (drop_while_suffix f (rev l)) as [p Hp]. exists (rev p).
  rewrite <- rev_app_distr, <- Hp. by rewrite rev_involutive.
Qed.

Lemma trim_trim s : trim (trim s) = trim s.
Proof.
  unfold trim. cbn [units]. f_equal. set (m := drop_while is_space (units s)).
  assert (Hd : drop_while is_space (drop_while_end is_space m) = drop_while_end is_space m).
  { destruct (drop_while_end_prefix is_space m) as [p Hp]. destruct (drop_while_end is_space m) as [|x r]; [done |].
    assert (Hm : drop_while is_space m = m) by apply drop_while_idem.
    rewrite Hp in Hm. cbn [drop_while Datatypes.app] in *. destruct (is_space x) eqn:E; [| done].
    exfalso. destruct (drop_while_suffix is_space (r ++ p)) as [q Hq]. rewrite Hm in Hq.
    apply (f_equal length) in Hq. rewrite !length_app in Hq. simpl in Hq. rewrite ?length_app in Hq. lia. }
  rewrite Hd. unfold drop_while_end. by rewrite rev_involutive, drop_while_idem.
Qed.

Lemma trim_nil_or s : trim s = "" ∨ nonempty (trim s) = true.
Proof. destruct (nonempty (trim s)) eqn:E; [by right | left; by apply nonempty_false]. Qed.

Lemma trim_length s : slen (trim s) ≤ slen s.
Proof.
  assert (H : ∀ f (l : list N), (length (drop_while f l) ≤ length l)%nat) by (intros f l; induction l as [|x l IH]; cbn [drop_while]; [done | destruct (f x); simpl; lia]).
  unfold slen, trim, drop_while_end. cbn [units]. rewrite length_rev. pose proof (H is_space (rev (drop_while is_space (units s)))) as H1.
  pose proof (H is_space (units s)). rewrite length_rev in H1. lia.
Qed.

(** *** Splitting *)

Lemma split_units_app f cur a c b :
  forallb (λ u, negb (f u)) a = true → f c = true →
  split_units f cur (a ++ c :: b) = (rev cur ++ a) :: split_units f [] b.
Proof.
  intros Ha Hc. revert cur. induction a as [|u a IH]; intros cur; cbn [split_units Datatypes.app].
  - by rewrite Hc, app_nil_r.
  - cbn [forallb] in Ha. apply andb_true_iff in Ha as [Hu Ha]. apply negb_true_iff in Hu. rewrite Hu, (IH Ha).
    simpl. by rewrite <- (assoc_L (++)).
Qed.
Lemma split_units_last f cur a :
  forallb (λ u, negb (f u)) a = true → split_units f cur a = [rev cur ++ a].
Proof.
  revert cur. induction a as [|u a IH]; intros cur; cbn [split_units forallb]; [by rewrite app_nil_r |].
  intros [Hu Ha]%andb_true_iff. apply negb_true_iff in Hu. rewrite Hu, (IH _ Ha). simpl. by rewrite <- (assoc_L (++)).
Qed.

(** [xs.join(c).split(/[f]/)] is [xs] when no element has a separator. *)
Lemma split_join f c l :
  f c = true → l ≠ [] → (∀ x, x ∈ l → forallb (λ u, negb (f u)) (units x) = true) →
  split_on f (join (JS [c]) l) = l.
Proof.
  intros Hc. unfold split_on. induction l as [|x l IH]; [done |]. intros _ Hall.
  assert (Hx := Hall x ltac:(left)). destruct l as [|y r].
  - cbn [join]. rewrite split_units_last by done. by destruct x.
  - assert (Hj : units (join (JS [c]) (x :: y :: r)) = units x ++ c :: units (join (JS [c]) (y :: r))) by done.
    rewrite Hj, split_units_app by done. cbn [map rev Datatypes.app]. rewrite IH; [by destruct x | done |].
    intros z Hz. apply Hall. by right.
Qed.

Lemma split_units_none f cur l :
  forallb (λ u, negb (f u)) cur = true →
  Forall (λ p, forallb (λ u, negb (f u)) p = true) (split_units f cur l).
Proof.
  revert cur. induction l as [|u l IH]; intros cur Hc; cbn [split_units].
  - apply Forall_singleton. by rewrite forallb_rev.
  - destruct (f u) eqn:E; [constructor; [by rewrite forallb_rev | by apply IH] |].
    apply IH. cbn [forallb]. by rewrite E, Hc.
Qed.
Lemma split_on_none f s x : x ∈ split_on f s → forallb (λ u, negb (f u)) (units x) = true.
Proof.
  unfold split_on. intros (l & -> & Hl)%list_elem_of_fmap.
  by apply (proj1 (Forall_forall _ _) (split_units_none f [] (units s) eq_refl)).
Qed.

(** What holds of every code unit holds after trimming. *)
Lemma trim_forallb P s : forallb P (units s) = true → forallb P (units (trim s)) = true.
Proof.
  intros H. unfold trim. cbn [units]. destruct (drop_while_suffix is_space (units s)) as [p Hp]. rewrite Hp in H.
  rewrite forallb_app in H. apply andb_true_iff in H as [_ H].
  destruct (drop_while_end_prefix is_space (drop_while is_space (units s))) as [q Hq]. rewrite Hq in H.
  rewrite forallb_app in H. by apply andb_true_iff in H as [H _].
Qed.
