(* ===== verification/JsNum.v ===== *)
(** * JavaScript numbers

    A finite number is the rational it denotes; arithmetic rounds to the
    nearest binary64 value, ties to even, so that every operation returns what
    the language returns.  Negative zero is identified with zero: no operation
    of the modelled code tells them apart. *)

From S2P Require Import Prelude JsStr.
#[local] Open Scope Z_scope.

Inductive num := NaN | Inf (neg : bool) | Fin (q : Q).

#[global] Instance Q_eq_dec : EqDecision Q.
Proof. solve_decision. Defined.
#[global] Instance num_eq_dec : EqDecision num.
Proof. solve_decision. Defined.

Definition of_Z (z : Z) : num := Fin (inject_Z z).
Coercion of_Z : Z >-> num.

(** ** Rounding to binary64 *)

Definition max_safe : Z := 9007199254740991.  (* 2^53 - 1 *)

(** Nearest integer of [n / d], ties to even. *)
Definition round_even (n d : Z) : Z :=
  let q := n / d in
  let r := n mod d in
  if 2 * r <? d then q
  else if d <? 2 * r then q + 1
  else if Z.even q then q else q + 1.

(** Integers up to 2^53 are representable, hence returned unchanged; otherwise
    the significand gets 53 bits (fewer below 2^-1022). *)
Definition f64 (q : Q) : num :=
  let n := Qnum q in
  let d := Zpos (Qden q) in
  if (n mod d =? 0) && (Z.abs (n / d) <=? max_safe + 1) then of_Z (n / d)
  else
    let a := Z.abs n in
    let e0 := Z.log2 a - Z.log2 d in
    let e1 := if (if e0 <? 0 then a * 2 ^ (- e0) <? d else a <? d * 2 ^ e0) then e0 - 1 else e0 in
    let e := Z.max (e1 - 52) (-1074) in
    let m := if e <? 0 then round_even (a * 2 ^ (- e)) d else round_even a (d * 2 ^ e) in
    if (1024 <=? e + 53) && (2 ^ 53 <=? m) || (1024 <? e + 53) then Inf (n <? 0)
    else
      let r := if e <? 0 then Qred (m # Z.to_pos (2 ^ (- e))) else inject_Z (m * 2 ^ e) in
      Fin (if n <? 0 then Qopp r else r).

(** ** Comparisons and predicates *)

Definition Qlt_bool (a b : Q) : bool := negb (Qle_bool b a).
Definition is_finite (a : num) : bool := match a with Fin _ => true | _ => false end.
Definition is_nan (a : num) : bool := match a with NaN => true | _ => false end.
(** [a < b], [a <= b], [a === b] *)
Definition num_lt (a b : num) : bool :=
  match a, b with
  | NaN, _ | _, NaN => false
  | Fin x, Fin y => Qlt_bool x y
  | Inf s, Inf t => s && negb t
  | Inf s, Fin _ => s
  | Fin _, Inf t => negb t
  end.
Definition num_le (a b : num) : bool :=
  match a, b with
  | NaN, _ | _, NaN => false
  | Fin x, Fin y => Qle_bool x y
  | Inf s, Inf t => s || negb t
  | Inf s, Fin _ => s
  | Fin _, Inf t => negb t
  end.
Definition num_eqb (a b : num) : bool :=
  match a, b with
  | Fin x, Fin y => Qeq_bool x y
  | Inf s, Inf t => Bool.eqb s t
  | _, _ => false
  end.

(** The integer a number denotes, when it denotes one. *)
Definition num_Z (a : num) : option Z :=
  match a with
  | Fin q => if Qeq_bool q (inject_Z (Qfloor q)) then Some (Qfloor q) else None
  | _ => None
  end.
(** [Number.isInteger], [Number.isSafeInteger] *)
Definition is_integer (a : num) : bool := match num_Z a with Some _ => true | None => false end.
Definition is_safe_integer (a : num) : bool :=
  match num_Z a with Some z => Z.abs z <=? max_safe | None => false end.
(** [Boolean(n)] *)
Definition num_truthy (a : num) : bool :=
  match a with NaN => false | Inf _ => true | Fin q => negb (Qeq_bool q 0) end.

(** ** Rounding functions and arithmetic *)

Definition num_floor (a : num) : num := match a with Fin q => of_Z (Qfloor q) | _ => a end.
Definition num_ceil (a : num) : num := match a with Fin q => of_Z (Qceiling q) | _ => a end.
Definition Qtrunc (q : Q) : Z := Z.quot (Qnum q) (Zpos (Qden q)).
Definition num_trunc (a : num) : num := match a with Fin q => of_Z (Qtrunc q) | _ => a end.
(** [Math.round]: the nearest integer, ties towards plus infinity. *)
Definition num_round (a : num) : num :=
  match a with Fin q => of_Z (Qfloor (q + (1 # 2))%Q) | _ => a end.
Definition num_neg (a : num) : num :=
  match a with NaN => NaN | Inf s => Inf (negb s) | Fin q => Fin (Qopp q) end.
Definition num_abs (a : num) : num :=
  match a with NaN => NaN | Inf _ => Inf false | Fin q => Fin (Qabs q) end.
Definition num_add (a b : num) : num :=
  match a, b with
  | NaN, _ | _, NaN => NaN
  | Fin x, Fin y => f64 (x + y)%Q
  | Inf s, Inf t => if Bool.eqb s t then Inf s else NaN
  | Inf s, _ => Inf s
  | _, Inf t => Inf t
  end.
Definition num_sub (a b : num) : num := num_add a (num_neg b).
Definition Qneg (q : Q) : bool := Qnum q <? 0.
Definition num_mul (a b : num) : num :=
  match a, b with
  | NaN, _ | _, NaN => NaN
  | Fin x, Fin y => f64 (x * y)%Q
  | Inf s, Inf t => Inf (xorb s t)
  | Inf s, Fin y => if Qeq_bool y 0 then NaN else Inf (xorb s (Qneg y))
  | Fin x, Inf t => if Qeq_bool x 0 then NaN else Inf (xorb (Qneg x) t)
  end.
Definition num_div (a b : num) : num :=
  match a, b with
  | NaN, _ | _, NaN => NaN
  | Fin x, Fin y =>
    if Qeq_bool y 0 then (if Qeq_bool x 0 then NaN else Inf (Qneg x)) else f64 (x / y)%Q
  | Inf _, Inf _ => NaN
  | Inf s, Fin y => Inf (xorb s (Qneg y))
  | Fin _, Inf _ => of_Z 0
  end.
(** [Math.max(a, b)], [Math.min(a, b)] *)
Definition num_max (a b : num) : num :=
  if is_nan a || is_nan b then NaN else if num_lt a b then b else a.
Definition num_min (a b : num) : num :=
  if is_nan a || is_nan b then NaN else if num_lt b a then b else a.

(** ** [String(n)] *)

(** [10^n] for any integer [n]. *)
Definition Qpow10 (n : Z) : Q :=
  if n <? 0 then Qmake 1 (Z.to_pos (10 ^ (- n))) else inject_Z (10 ^ n).
(** The least [n] with [a < 10^n], for [a > 0]. *)
Fixpoint point_pos (fuel : nat) (a : Q) (n : Z) : Z :=
  match fuel with
  | O => n
  | S k => if Qle_bool (Qpow10 n) a then point_pos k a (n + 1)
           else if Qlt_bool a (Qpow10 (n - 1)) then point_pos k a (n - 1)
           else n
  end.
(** The shortest digits [s] of [k] places with [s * 10^(n-k)] rounding to [a]. *)
Fixpoint shortest (fuel : nat) (k : Z) (a : Q) (n : Z) : Z * Z :=
  let sc := (a * Qpow10 (k - n))%Q in
  let s := round_even (Qnum sc) (Zpos (Qden sc)) in
  match fuel with
  | O => (s, k)
  | S f => if num_eqb (f64 (inject_Z s * Qpow10 (n - k))%Q) (Fin a) then (s, k)
           else shortest f (k + 1) a n
  end.
Definition zeros (n : Z) : list N := replicate (Z.to_nat n) 48%N.
Definition pos_str (a : Q) : list N :=
  let n := point_pos 700 a (Z.log2 (Qnum a) * 3 / 10 - Z.log2 (Zpos (Qden a)) * 3 / 10) in
  let '(s0, k) := shortest 17 1 a n in
  (* rounding up to a power of ten moves the decimal point *)
  let '(s, n) := if s0 =? 10 ^ k then (10 ^ (k - 1), n + 1) else (s0, n) in
  let ds := dec_nat s in
  if (k <=? n) && (n <=? 21) then ds ++ zeros (n - k)
  else if (0 <? n) && (n <=? 21) then take (Z.to_nat n) ds ++ [46%N] ++ drop (Z.to_nat n) ds
  else if (-6 <? n) && (n <=? 0) then [48%N; 46%N] ++ zeros (- n) ++ ds
  else
    let e := n - 1 in
    let es := (if e <? 0 then [45%N] else [43%N]) ++ dec_nat (Z.abs e) in
    if k =? 1 then ds ++ [101%N] ++ es
    else take 1 ds ++ [46%N] ++ drop 1 ds ++ [101%N] ++ es.
Definition num_str (a : num) : jstr :=
  match a with
  | NaN => "NaN"
  | Inf s => if s then "-Infinity" else "Infinity"
  | Fin q =>
    match num_Z a with
    | Some z => if Z.abs z <=? max_safe then dec_Z z
                else JS (if z <? 0 then 45%N :: pos_str (Qabs q) else pos_str q)
    | None => JS (if Qneg q then 45%N :: pos_str (Qabs q) else pos_str q)
    end
  end.

(** ** [Number(s)] *)

(** An unsigned decimal literal: digits, optional fraction, optional exponent. *)
Definition parse_exponent (l : list N) : option Z :=
  match l with
  | [] => Some 0
  | e :: r =>
    if ((e =? 101) || (e =? 69))%N then
      let '(neg, ds) := match r with
                        | 43%N :: t => (false, t)
                        | 45%N :: t => (true, t)
                        | _ => (false, r)
                        end in
      if negb (bool_decide (ds = [])) && forallb is_digit ds
      then Some ((if neg : bool then -1 else 1) * digits_val 10 digit_val ds) else None
    else None
  end.
Definition parse_decimal (l : list N) : option Q :=
  let ip := take_while is_digit l in
  let r := drop_while is_digit l in
  let '(fp, r') := match r with
                   | 46%N :: t => (take_while is_digit t, drop_while is_digit t)
                   | _ => ([], r)
                   end in
  if bool_decide (ip ++ fp = []) then None
  else match parse_exponent r' with
       | Some e => Some (inject_Z (digits_val 10 digit_val (ip ++ fp))
                         * Qpow10 (e - Z.of_nat (length fp)))%Q
       | None => None
       end.
Definition parse_radix (base : Z) (ok : N → bool) (l : list N) : num :=
  if negb (bool_decide (l = [])) && forallb ok l
  then f64 (inject_Z (digits_val base hex_val l)) else NaN.
Definition parse_signed (neg : bool) (l : list N) : num :=
  if bool_decide (l = units "Infinity") then Inf neg
  else match parse_decimal l with
       | Some q => f64 (if neg then Qopp q else q)
       | None => NaN
       end.
Definition parse_prefixed (x : N) (r : list N) : option num :=
  if ((x =? 120) || (x =? 88))%N then Some (parse_radix 16 is_hex r)
  else if ((x =? 111) || (x =? 79))%N
  then Some (parse_radix 8 (λ u, (48 <=? u) && (u <=? 55))%N r)
  else if ((x =? 98) || (x =? 66))%N
  then Some (parse_radix 2 (λ u, (48 <=? u) && (u <=? 49))%N r)
  else None.
Definition parse_units (l : list N) : num :=
  match l with
  | [] => of_Z 0
  | c :: r =>
    if (c =? 43)%N then parse_signed false r
    else if (c =? 45)%N then parse_signed true r
    else match (match r with
                | x :: t => if (c =? 48)%N then parse_prefixed x t else None
                | [] => None
                end) with
         | Some n => n
         | None => parse_signed false l
         end
  end.
Definition str_num (s : jstr) : num := parse_units (units (trim s)).

(** ** Facts *)

Lemma Qfloor_Z z : Qfloor (inject_Z z) = z.
Proof. unfold Qfloor, inject_Z. apply Z.div_1_r. Qed.

Lemma num_Z_of_Z z : num_Z (of_Z z) = Some z.
Proof. simpl. rewrite Qfloor_Z. by rewrite (proj2 (Qeq_bool_iff _ _) (Qeq_refl _)). Qed.

Lemma num_Z_Fin a z : num_Z a = Some z ↔ ∃ q, a = Fin q ∧ (q == inject_Z z)%Q.
Proof.
  destruct a as [| |q]; simpl; [naive_solver.. |].
  destruct (Qeq_bool q (inject_Z (Qfloor q))) eqn:E.
  - apply Qeq_bool_iff in E. split.
    + intros [= <-]. eauto.
    + intros (q' & [= <-] & Hq). f_equal.
      rewrite (Qfloor_comp _ _ Hq). apply Qfloor_Z.
  - split; [done |]. intros (q' & [= <-] & Hq). exfalso.
    apply Qeq_bool_neq in E. apply E. rewrite (Qfloor_comp _ _ Hq), Qfloor_Z. done.
Qed.

Lemma Qle_bool_Z a b : Qle_bool (inject_Z a) (inject_Z b) = (a <=? b).
Proof. unfold Qle_bool, inject_Z. simpl. by rewrite !Z.mul_1_r. Qed.

Lemma Qle_bool_comp a a' b b' :
  (a == a')%Q → (b == b')%Q → Qle_bool a b = Qle_bool a' b'.
Proof.
  intros Ha Hb. apply eq_true_iff_eq. rewrite !Qle_bool_iff. by rewrite Ha, Hb.
Qed.

(** Comparisons of integer-valued numbers are those of the integers. *)
Lemma num_lt_Z a b x y : num_Z a = Some x → num_Z b = Some y → num_lt a b = (x <? y).
Proof.
  intros (qa & -> & Ha)%num_Z_Fin (qb & -> & Hb)%num_Z_Fin. simpl. unfold Qlt_bool.
  rewrite (Qle_bool_comp _ _ _ _ Hb Ha), Qle_bool_Z. by rewrite Z.ltb_antisym.
Qed.
Lemma num_le_Z a b x y : num_Z a = Some x → num_Z b = Some y → num_le a b = (x <=? y).
Proof.
  intros (qa & -> & Ha)%num_Z_Fin (qb & -> & Hb)%num_Z_Fin. simpl.
  by rewrite (Qle_bool_comp _ _ _ _ Ha Hb), Qle_bool_Z.
Qed.
Lemma num_lt_of_Z a x c : num_Z a = Some x → num_lt a (of_Z c) = (x <? c).
Proof. intros. by apply num_lt_Z; [| apply num_Z_of_Z]. Qed.
Lemma num_gt_of_Z a x c : num_Z a = Some x → num_lt (of_Z c) a = (c <? x).
Proof. intros. by apply num_lt_Z; [apply num_Z_of_Z |]. Qed.

Lemma is_integer_Z a : is_integer a = true ↔ ∃ z, num_Z a = Some z.
Proof. unfold is_integer. destruct (num_Z a); naive_solver. Qed.
Lemma num_Z_finite a z : num_Z a = Some z → is_finite a = true.
Proof. by intros (q & -> & _)%num_Z_Fin. Qed.

(** An integer test followed by a range test, the shape of every integer
    validator of the source. *)
Lemma integer_between a lo hi :
  is_integer a = true → num_lt a (of_Z lo) = false → num_lt (of_Z hi) a = false →
  ∃ z, num_Z a = Some z ∧ lo ≤ z ≤ hi.
Proof.
  intros [z Hz]%is_integer_Z Hlo Hhi. exists z. split; [done |].
  rewrite (num_lt_of_Z _ _ _ Hz) in Hlo. rewrite (num_gt_of_Z _ _ _ Hz) in Hhi. zlia.
Qed.

Lemma num_Z_floor a : is_finite a = true → ∃ z, num_floor a = of_Z z.
Proof. destruct a; try done. simpl. eauto. Qed.

(** ** Finite comparisons *)

Lemma Qlt_bool_lt a b : Qlt_bool a b = true ↔ (a < b)%Q.
Proof.
  unfold Qlt_bool. rewrite negb_true_iff. split; intros H.
  - apply Qnot_le_lt. intros Hle. apply Qle_bool_iff in Hle. congruence.
  - destruct (Qle_bool b a) eqn:E; [| done]. apply Qle_bool_iff in E.
    exfalso. by apply (Qle_not_lt _ _ E).
Qed.
Lemma Qlt_bool_ge a b : Qlt_bool a b = false ↔ (b <= a)%Q.
Proof. unfold Qlt_bool. rewrite negb_false_iff. apply Qle_bool_iff. Qed.

(** ** Integers survive rounding, printing and parsing *)

Lemma f64_Z z : Z.abs z ≤ max_safe + 1 → f64 (inject_Z z) = of_Z z.
Proof.
  intros H. unfold f64, inject_Z. cbv zeta. simpl Qnum. simpl Qden.
  rewrite Z.mod_1_r, Z.div_1_r. rewrite (proj2 (Z.leb_le _ _) H). done.
Qed.

Lemma Qpow10_0 : Qpow10 0 = 1%Q.
Proof. done. Qed.

Lemma f64_eq_Z q z : (q == inject_Z z)%Q → Z.abs z ≤ max_safe + 1 → f64 q = of_Z z.
Proof.
  intros Hq Hz. unfold f64. cbv zeta.
  assert (Hn : Qnum q = z * Zpos (Qden q)).
  { unfold Qeq, inject_Z in Hq. simpl in Hq. lia. }
  rewrite Hn, Z.mod_mul, Z.div_mul by done.
  by rewrite (proj2 (Z.leb_le _ _) Hz).
Qed.

Lemma num_add_Z a b : Z.abs (a + b) ≤ max_safe + 1 → num_add (of_Z a) (of_Z b) = of_Z (a + b).
Proof. intros H. simpl. apply f64_eq_Z; [| done]. by rewrite inject_Z_plus. Qed.
Lemma num_mul_Z a b : Z.abs (a * b) ≤ max_safe + 1 → num_mul (of_Z a) (of_Z b) = of_Z (a * b).
Proof. intros H. simpl. apply f64_eq_Z; [| done]. by rewrite inject_Z_mult. Qed.

Lemma is_digit_spec u : is_digit u = true ↔ (48 ≤ u ≤ 57)%N.
Proof. unfold is_digit. rewrite andb_true_iff, !N.leb_le. lia. Qed.

Lemma digits_val_app b v l1 l2 :
  digits_val b v (l1 ++ l2) = fold_left (λ acc u, b * acc + v u) l2 (digits_val b v l1).
Proof. unfold digits_val. apply fold_left_app. Qed.

Lemma dec_digits_spec fuel n :
  0 ≤ n < 2 ^ Z.of_nat fuel →
  digits_val 10 digit_val (dec_digits fuel n) = n
  ∧ forallb is_digit (dec_digits fuel n) = true
  ∧ (fuel ≠ O → dec_digits fuel n ≠ []).
Proof.
  revert n. induction fuel as [|k IH]; intros n Hn.
  { replace n with 0 by (simpl in Hn; lia). done. }
  assert (Hd : ∀ d, 0 ≤ d < 10 →
            is_digit (Z.to_N (48 + d)) = true ∧ digit_val (Z.to_N (48 + d)) = d).
  { intros d ?. split; [apply is_digit_spec; lia | unfold digit_val; lia]. }
  simpl. destruct (n <? 10) eqn:E; zify_bool.
  - destruct (Hd n) as [H1 H2]; [lia |]. split; [| split]; [| simpl; by rewrite H1 | done].
    unfold digits_val. simpl. lia.
  - rewrite Nat2Z.inj_succ, Z.pow_succ_r in Hn by lia.
    assert (Hlt : 0 ≤ n / 10 < 2 ^ Z.of_nat k).
    { split; [apply Z.div_pos; lia | apply Z.div_lt_upper_bound; lia]. }
    destruct (IH _ Hlt) as (H1 & H2 & _).
    destruct (Hd (n mod 10)) as [H3 H4]; [apply Z.mod_pos_bound; lia |].
    rewrite digits_val_app, H1, forallb_app, H2. simpl. rewrite H3, H4.
    split; [| split]; [| done | by destruct (dec_digits k (n / 10))].
    pose proof (Z.div_mod n 10). lia.
Qed.

Lemma dec_nat_spec n :
  0 ≤ n → digits_val 10 digit_val (dec_nat n) = n
          ∧ forallb is_digit (dec_nat n) = true ∧ dec_nat n ≠ [].
Proof.
  intros Hn. unfold dec_nat. destruct (dec_digits_spec (S (Z.to_nat (Z.log2 n))) n) as (?&?&?).
  - split; [done |]. destruct (decide (n = 0)) as [-> | Hne]; [done |].
    rewrite Nat2Z.inj_succ, Z2Nat.id by apply Z.log2_nonneg. apply Z.log2_spec. lia.
  - auto.
Qed.

Lemma dec_digits_length fuel n k :
  (1 ≤ k)%nat → 0 ≤ n < 10 ^ Z.of_nat k → (length (dec_digits fuel n) ≤ k)%nat.
Proof.
  revert n k. induction fuel as [|fuel IH]; intros n k Hk Hn; [simpl; lia |]. cbn [dec_digits].
  destruct (n <? 10) eqn:E; zify_bool; [simpl; lia |]. rewrite length_app. cbn [length].
  destruct k as [|[|k]]; [lia | simpl in Hn; lia |].
  assert (H : (length (dec_digits fuel (n / 10)) ≤ S k)%nat); [| lia].
  apply IH; [lia |]. rewrite (Nat2Z.inj_succ (S k)), Z.pow_succ_r in Hn by lia.
  split; [apply Z.div_pos; lia | apply Z.div_lt_upper_bound; lia].
Qed.

Lemma digit_not_space u : is_digit u = true → is_space u = false.
Proof.
  rewrite is_digit_spec. intros H. unfold is_space.
  repeat (apply orb_false_iff; split);
    first [apply N.eqb_neq; lia | apply andb_false_iff; rewrite !N.leb_gt; lia].
Qed.

Lemma drop_while_head {A} (f : A → bool) l :
  (∀ x r, l = x :: r → f x = false) → drop_while f l = l.
Proof. destruct l as [|x r]; simpl; [done |]. intros H. by rewrite (H x r). Qed.

(** [trim] leaves a text with no outer white space unchanged. *)
Lemma trim_id l :
  forallb (λ u, negb (is_space u)) l = true → trim (JS l) = JS l.
Proof.
  intros H. unfold trim, drop_while_end. simpl.
  rewrite forallb_forall in H.
  rewrite (drop_while_head is_space l), (drop_while_head is_space (rev l)), rev_involutive; [done | |].
  - intros x r E. apply negb_true_iff, H. apply in_rev. rewrite E. by left.
  - intros x r ->. apply negb_true_iff, H. by left.
Qed.

Lemma take_drop_while_all {A} (f : A → bool) l :
  forallb f l = true → take_while f l = l ∧ drop_while f l = [].
Proof.
  induction l as [|x l IH]; simpl; [done |]. intros [-> Hl]%andb_true_iff.
  destruct (IH Hl) as [-> ->]. done.
Qed.

Lemma parse_decimal_digits l :
  forallb is_digit l = true → l ≠ [] →
  ∃ q, parse_decimal l = Some q ∧ (q == inject_Z (digits_val 10 digit_val l))%Q.
Proof.
  intros Hd Hne. unfold parse_decimal.
  destruct (take_drop_while_all is_digit l Hd) as [-> ->]. rewrite app_nil_r.
  rewrite bool_decide_eq_false_2 by done. simpl. eexists. split; [done |].
  change (Qpow10 0) with 1%Q. by rewrite Qmult_1_r.
Qed.

Lemma parse_signed_digits (neg : bool) l :
  forallb is_digit l = true → l ≠ [] → digits_val 10 digit_val l ≤ max_safe →
  0 ≤ digits_val 10 digit_val l →
  parse_signed neg l = of_Z (if neg then - digits_val 10 digit_val l else digits_val 10 digit_val l).
Proof.
  intros Hd Hne Hb H0. unfold parse_signed.
  destruct (parse_decimal_digits l Hd Hne) as (q & -> & Hq).
  rewrite bool_decide_eq_false_2.
  - destruct neg; apply f64_eq_Z; try lia; [rewrite Hq |]; [by rewrite inject_Z_opp | done].
  - intros ->. by vm_compute in Hd.
Qed.

Lemma parse_units_digits l :
  forallb is_digit l = true → l ≠ [] → parse_units l = parse_signed false l.
Proof.
  intros Hd Hne. destruct l as [|c r]; [done |]. simpl in Hd. apply andb_true_iff in Hd as [Hc Hr].
  apply is_digit_spec in Hc. unfold parse_units.
  rewrite !(proj2 (N.eqb_neq _ _)) by lia.
  destruct r as [|x t]; [done |]. simpl in Hr. apply andb_true_iff in Hr as [Hx _].
  apply is_digit_spec in Hx. unfold parse_prefixed.
  rewrite !(proj2 (N.eqb_neq x _)) by lia. by destruct (c =? 48)%N.
Qed.

(** [Number(String(z)) === z] for every safe integer. *)
Lemma str_num_dec_Z z : Z.abs z ≤ max_safe → str_num (dec_Z z) = of_Z z.
Proof.
  intros Hz. unfold str_num, dec_Z.
  assert (Hns : ∀ l, forallb is_digit l = true → forallb (λ u, negb (is_space u)) l = true).
  { intros l. rewrite !forallb_forall. intros H x Hx. apply negb_true_iff, digit_not_space; auto. }
  destruct (z <? 0) eqn:E; zify_bool.
  - destruct (dec_nat_spec (- z)) as (Hv & Hd & Hne); [lia |].
    rewrite trim_id by (simpl; by apply Hns). simpl.
    rewrite parse_signed_digits; [| done | done | lia | lia]. rewrite Hv. f_equal. lia.
  - destruct (dec_nat_spec z) as (Hv & Hd & Hne); [lia |].
    rewrite trim_id by (by apply Hns). simpl units.
    rewrite parse_units_digits, parse_signed_digits by (done || lia). by rewrite Hv.
Qed.

Lemma num_str_Z a z : num_Z a = Some z → Z.abs z ≤ max_safe → num_str a = dec_Z z.
Proof.
  intros Hz Hs. pose proof Hz as (q & -> & _)%num_Z_Fin. unfold num_str. rewrite Hz.
  by rewrite (proj2 (Z.leb_le _ _) Hs).
Qed.

(** ** Order on finite numbers *)

Lemma num_lt_false_le a b : is_finite a = true → is_finite b = true → num_lt a b = false → num_le b a = true.
Proof. destruct a, b; try done. intros _ _. simpl. intros H%Qlt_bool_ge. by apply Qle_bool_iff. Qed.
Lemma num_le_refl a : is_finite a = true → num_le a a = true.
Proof. destruct a; try done. intros _. simpl. apply Qle_bool_iff. apply Qle_refl. Qed.
Lemma num_le_not_lt a b : num_le a b = true → num_lt b a = false.
Proof.
  destruct a as [|[]|], b as [|[]|]; try done. simpl. intros H%Qle_bool_iff. by apply Qlt_bool_ge.
Qed.
Lemma num_le_trans a b c : num_le a b = true → num_le b c = true → num_le a c = true.
Proof.
  destruct a as [|[]|], b as [|[]|], c as [|[]|]; try done. simpl.
  rewrite !Qle_bool_iff. apply Qle_trans.
Qed.

Lemma num_trunc_of_Z z : num_trunc (of_Z z) = of_Z z.
Proof. simpl. unfold Qtrunc, inject_Z. simpl. by rewrite Z.quot_1_r. Qed.
(** Truncation of a number between two non-negative integers. *)
Lemma num_trunc_range a (lo hi : Z) :
  0 ≤ lo → is_finite a = true → num_le lo a = true → num_le a hi = true →
  ∃ z, num_trunc a = of_Z z ∧ lo ≤ z ≤ hi.
Proof.
  destruct a as [| |[n d]]; try done. intros Hlo _. simpl. rewrite !Qle_bool_iff. unfold Qle, Qtrunc. simpl.
  intros H1 H2. exists (Z.quot n (Zpos d)). split; [done |].
  rewrite Z.quot_div_nonneg by lia. split; [apply Z.div_le_lower_bound; lia |].
  apply Z.div_le_upper_bound; lia.
Qed.

Lemma num_sub_Z a b : Z.abs (a - b) ≤ max_safe + 1 → num_sub (of_Z a) (of_Z b) = of_Z (a - b).
Proof.
  intros H. unfold num_sub, num_neg. simpl. apply f64_eq_Z; [| done].
  unfold Z.sub. by rewrite inject_Z_plus, inject_Z_opp.
Qed.
Lemma num_max_Z a b : num_max (of_Z a) (of_Z b) = of_Z (Z.max a b).
Proof.
  unfold num_max. cbn [is_nan of_Z orb]. change (Fin (inject_Z a)) with (of_Z a). change (Fin (inject_Z b)) with (of_Z b).
  rewrite (num_lt_Z _ _ a b) by apply num_Z_of_Z. destruct (a <? b) eqn:E; f_equal; zify_bool; lia.
Qed.
Lemma num_min_Z a b : num_min (of_Z a) (of_Z b) = of_Z (Z.min a b).
Proof.
  unfold num_min. cbn [is_nan of_Z orb]. change (Fin (inject_Z a)) with (of_Z a). change (Fin (inject_Z b)) with (of_Z b).
  rewrite (num_lt_Z _ _ b a) by apply num_Z_of_Z. destruct (b <? a) eqn:E; f_equal; zify_bool; lia.
Qed.
Lemma num_le_of_Z a b : num_le (of_Z a) (of_Z b) = (a <=? b).
Proof. apply num_le_Z; apply num_Z_of_Z. Qed.
Lemma num_lt_of_Z_Z a b : num_lt (of_Z a) (of_Z b) = (a <? b).
Proof. apply num_lt_Z; apply num_Z_of_Z. Qed.

(** *** Rounding is monotone at the integers *)

Lemma round_even_ge n d k : 0 < d → k * d ≤ n → k ≤ round_even n d.
Proof.
  intros Hd H. unfold round_even. pose proof (Z.div_le_lower_bound n d k Hd ltac:(lia)).
  destruct (2 * (n mod d) <? d); [done |]. destruct (d <? 2 * (n mod d)); [lia |]. destruct (Z.even _); lia.
Qed.
Lemma round_even_le n d k : 0 < d → n ≤ k * d → round_even n d ≤ k.
Proof.
  intros Hd H. unfold round_even.
  assert (Hq : n / d ≤ k) by (apply Z.div_le_upper_bound; lia).
  assert (Hq1 : 0 < n mod d → n / d + 1 ≤ k).
  { intros Hr. pose proof (Z.div_mod n d ltac:(lia)). nia. }
  pose proof (Z.mod_pos_bound n d Hd).
  destruct (2 * (n mod d) <? d) eqn:E1; zify_bool; [done |].
  destruct (d <? 2 * (n mod d)) eqn:E2; zify_bool; [apply Hq1; lia |]. destruct (Z.even _); [done | apply Hq1; lia].
Qed.

(** The exponent the rounding uses is that of the number when it is large. *)
Lemma f64_exponent a d :
  0 < a → 0 < d →
  let e0 := Z.log2 a - Z.log2 d in
  let e1 := if (if e0 <? 0 then a * 2 ^ (- e0) <? d else a <? d * 2 ^ e0) then e0 - 1 else e0 in
  53 ≤ e1 → d * 2 ^ e1 ≤ a.
Proof.
  intros Ha Hd. cbv zeta. set (e0 := Z.log2 a - Z.log2 d).
  destruct (e0 <? 0) eqn:E0; zify_bool; [destruct (_ <? _); lia |].
  destruct (a <? d * 2 ^ e0) eqn:E1; zify_bool; [| done]. intros He.
  destruct (Z.log2_spec a Ha) as [Hla _]. destruct (Z.log2_spec d Hd) as [_ Hld].
  assert (Hp : 2 ^ Z.log2 a = 2 ^ (e0 - 1) * 2 ^ Z.succ (Z.log2 d)).
  { rewrite <- Z.pow_add_r; [f_equal; unfold e0; lia | lia | pose proof (Z.log2_nonneg d); lia]. }
  assert (0 < 2 ^ (e0 - 1)) by (apply Z.pow_pos_nonneg; lia). nia.
Qed.

Definition f64_rest (q : Q) : num :=
  let n := Qnum q in
  let d := Zpos (Qden q) in
  let a := Z.abs n in
  let e0 := Z.log2 a - Z.log2 d in
  let e1 := if (if e0 <? 0 then a * 2 ^ (- e0) <? d else a <? d * 2 ^ e0) then e0 - 1 else e0 in
  let e := Z.max (e1 - 52) (-1074) in
  let m := if e <? 0 then round_even (a * 2 ^ (- e)) d else round_even a (d * 2 ^ e) in
  if (1024 <=? e + 53) && (2 ^ 53 <=? m) || (1024 <? e + 53) then Inf (n <? 0)
  else
    let r := if e <? 0 then Qred (m # Z.to_pos (2 ^ (- e))) else inject_Z (m * 2 ^ e) in
    Fin (if n <? 0 then Qopp r else r).
Lemma f64_eq q :
  f64 q = if (Qnum q mod Zpos (Qden q) =? 0) && (Z.abs (Qnum q / Zpos (Qden q)) <=? max_safe + 1)
          then of_Z (Qnum q / Zpos (Qden q)) else f64_rest q.
Proof. done. Qed.

(** An integer between zero and 2^53 that is at most [q] is at most [f64 q]. *)
Lemma f64_ge q k : 0 ≤ k ≤ max_safe + 1 → (inject_Z k <= q)%Q → num_le (of_Z k) (f64 q) = true.
Proof.
  intros Hk Hq. destruct q as [n d]. unfold Qle in Hq. simpl in Hq. rewrite Z.mul_1_r in Hq.
  rewrite f64_eq. cbn [Qnum Qden]. destruct ((n mod Zpos d =? 0) && _) eqn:Ei.
  { rewrite num_le_of_Z. apply Z.leb_le, Z.div_le_lower_bound; lia. }
  assert (Hn : 0 < n).
  { destruct (decide (n = 0)) as [-> | ?]; [| nia]. exfalso. by vm_compute in Ei. }
  unfold f64_rest. cbv zeta. cbn [Qnum Qden]. rewrite (Z.abs_eq n) by lia. rewrite (proj2 (Z.ltb_ge n 0)) by lia.
  pose proof (f64_exponent n (Zpos d) Hn ltac:(lia)) as He. cbv zeta in He.
  match goal with |- context [Z.max (?x - 52) (-1074)] => set (e1 := x) in *; clearbody e1 end.
  set (e := Z.max (e1 - 52) (-1074)). destruct (_ || _); [done |].
  destruct (e <? 0) eqn:Ee; zify_bool; cbn [num_le of_Z]; apply Qle_bool_iff.
  - rewrite Qred_correct. assert (Hp : 0 < 2 ^ (- e)) by (apply Z.pow_pos_nonneg; lia).
    unfold Qle. simpl. rewrite Z2Pos.id, Z.mul_1_r by done. apply round_even_ge; [lia | nia].
  - rewrite <- Zle_Qle. assert (Hp : 0 < 2 ^ e) by (apply Z.pow_pos_nonneg; lia).
    destruct (decide (e = 0)) as [He0 | He0].
    + rewrite He0. change (2 ^ 0) with 1. rewrite !Z.mul_1_r. apply round_even_ge; [lia | nia].
    + assert (He1 : 53 ≤ e1) by lia. specialize (He He1).
      assert (Hm : 2 ^ 52 ≤ round_even n (Zpos d * 2 ^ e)).
      { apply round_even_ge; [lia |]. replace e1 with (52 + e) in He by lia. rewrite Z.pow_add_r in He by lia. lia. }
      assert (2 * 1 ≤ 2 * 2 ^ (e - 1)) by (assert (0 < 2 ^ (e - 1)) by (apply Z.pow_pos_nonneg; lia); lia).
      replace (2 ^ e) with (2 * 2 ^ (e - 1)) in * by (rewrite <- Z.pow_succ_r by lia; f_equal; lia).
      unfold max_safe in Hk. change (2 ^ 52) with 4503599627370496 in Hm. nia.
Qed.

(** An integer between zero and 2^53 that is at least [q], itself not negative,
    is at least [f64 q]. *)
Lemma f64_le q k : 0 ≤ k ≤ max_safe + 1 → (0 <= q)%Q → (q <= inject_Z k)%Q → num_le (f64 q) (of_Z k) = true.
Proof.
  intros Hk Hq0 Hq. destruct q as [n d]. unfold Qle in Hq, Hq0. simpl in Hq, Hq0. rewrite Z.mul_1_r in *.
  rewrite f64_eq. cbn [Qnum Qden]. destruct ((n mod Zpos d =? 0) && _) eqn:Ei.
  { rewrite num_le_of_Z. apply Z.leb_le, Z.div_le_upper_bound; lia. }
  assert (Hn : 0 < n).
  { destruct (decide (n = 0)) as [-> | ?]; [| lia]. exfalso. by vm_compute in Ei. }
  unfold f64_rest. cbv zeta. cbn [Qnum Qden]. rewrite (Z.abs_eq n) by lia. rewrite (proj2 (Z.ltb_ge n 0)) by lia.
  pose proof (f64_exponent n (Zpos d) Hn ltac:(lia)) as He. cbv zeta in He.
  match goal with |- context [Z.max (?x - 52) (-1074)] => set (e1 := x) in *; clearbody e1 end.
  set (e := Z.max (e1 - 52) (-1074)).
  assert (Hint : n ≠ (max_safe + 1) * Zpos d).
  { intros ->. rewrite Z.mod_mul, Z.div_mul in Ei by lia. by vm_compute in Ei. }
  assert (He0 : e ≤ 0).
  { destruct (decide (53 ≤ e1)) as [H53 |]; [exfalso | lia]. specialize (He H53).
    assert (2 ^ 53 ≤ 2 ^ e1) by (apply Z.pow_le_mono_r; lia). unfold max_safe in *.
    change (2 ^ 53) with 9007199254740992 in *. nia. }
  replace (1024 <=? e + 53) with false by (symmetry; apply Z.leb_gt; lia).
  replace (1024 <? e + 53) with false by (symmetry; apply Z.ltb_ge; lia). cbn [andb orb].
  destruct (e <? 0) eqn:Ee; zify_bool; cbn [num_le of_Z]; apply Qle_bool_iff.
  - rewrite Qred_correct. assert (Hp : 0 < 2 ^ (- e)) by (apply Z.pow_pos_nonneg; lia).
    unfold Qle. simpl. rewrite Z2Pos.id, Z.mul_1_r by done. apply round_even_le; [lia | nia].
  - rewrite <- Zle_Qle. replace e with 0 by lia. change (2 ^ 0) with 1. rewrite !Z.mul_1_r.
    apply round_even_le; [lia | nia].
Qed.

Lemma f64_not_nan q : f64 q ≠ NaN.
Proof. rewrite f64_eq. destruct (_ && _); [done |]. unfold f64_rest. cbv zeta. by destruct (_ || _). Qed.

(** Clients reason about numbers through the lemmas above. *)
#[global] Arguments num_le : simpl never.
#[global] Arguments num_lt : simpl never.
#[global] Arguments num_eqb : simpl never.
#[global] Arguments num_Z : simpl never.
#[global] Arguments f64 : simpl never.
#[global] Arguments num_str : simpl never.
#[global] Arguments str_num : simpl never.
#[global] Arguments dec_Z : simpl never.
