(* ===== verification/JsVal.v ===== *)
(** * JavaScript values

    The data a request body, a stored row or a JSON text denotes: a value of
    TypeScript type [unknown].  An object is its list of own properties in the
    order [Object.entries] gives, without repeated keys.  [String(v)] and
    [Number(v)] of an object are those of an object that inherits
    [Object.prototype]'s [toString] and [valueOf]. *)

From S2P Require Import Prelude JsStr JsNum.
#[local] Open Scope Z_scope.

Inductive jsval :=
| JUndef
| JNull
| JBool (b : bool)
| JNum (n : num)
| JStr (s : jstr)
| JArr (l : list jsval)
| JObj (fs : list (jstr * jsval)).

Abbreviation fields := (list (jstr * jsval)).

(** ** Reading and writing properties *)

Fixpoint lookup_field {V} (k : jstr) (fs : list (jstr * V)) : option V :=
  match fs with
  | [] => None
  | (k', v) :: r => if decide (k = k') then Some v else lookup_field k r
  end.
(** [obj[k]], [Object.hasOwn(obj, k)] *)
Definition fld (fs : fields) (k : jstr) : jsval := default JUndef (lookup_field k fs).
Definition has_own {V} (fs : list (jstr * V)) (k : jstr) : bool :=
  match lookup_field k fs with Some _ => true | None => false end.
(** [obj[k] = v] and [delete obj[k]] *)
Fixpoint set_field {V} (k : jstr) (v : V) (fs : list (jstr * V)) : list (jstr * V) :=
  match fs with
  | [] => [(k, v)]
  | (k', v') :: r => if decide (k = k') then (k', v) :: r else (k', v') :: set_field k v r
  end.
Definition del_field {V} (k : jstr) (fs : list (jstr * V)) : list (jstr * V) :=
  filter (λ p, p.1 ≠ k) fs.
(** [{ ...a, ...b }] and [Object.assign(a, b)] *)
Definition spread {V} (a b : list (jstr * V)) : list (jstr * V) := fold_left (λ acc p, set_field p.1 p.2 acc) b a.

(** A loop that copies chosen properties to a fresh object: [g key] is the value
    copied for [key], if it is. *)
Definition pick {V} (g : jstr → option V) (keys : list jstr) : list (jstr * V) :=
  fold_left (λ result key, match g key with Some v => set_field key v result | None => result end) keys [].

(** [value && typeof value === 'object' && !Array.isArray(value)] *)
Definition is_object (v : jsval) : bool := match v with JObj _ => true | _ => false end.
(** [isObject(value) ? value : {}] *)
Definition as_object (v : jsval) : fields := match v with JObj fs => fs | _ => [] end.

(** [a ?? b] *)
Definition coalesce (a b : jsval) : jsval :=
  match a with JUndef | JNull => b | _ => a end.
(** [Boolean(v)] *)
Definition truthy (v : jsval) : bool :=
  match v with
  | JUndef | JNull => false
  | JBool b => b
  | JNum n => num_truthy n
  | JStr s => nonempty s
  | JArr _ | JObj _ => true
  end.
(** [a || b] *)
Definition js_or (a b : jsval) : jsval := if truthy a then a else b.
(** [v === 'text'], [v === b], [v === undefined], [v === null] *)
Definition is_str (v : jsval) (s : jstr) : bool := match v with JStr t => jeq t s | _ => false end.
Definition is_bool (v : jsval) (b : bool) : bool :=
  match v with JBool c => Bool.eqb b c | _ => false end.
Definition is_undef (v : jsval) : bool := match v with JUndef => true | _ => false end.
Definition is_null (v : jsval) : bool := match v with JNull => true | _ => false end.
(** [v === '' || v === null || v === undefined] *)
Definition is_blank (v : jsval) : bool := is_undef v || is_null v || is_str v "".

(** ** Conversions *)

Fixpoint to_str (v : jsval) : jstr :=
  match v with
  | JUndef => "undefined"
  | JNull => "null"
  | JBool b => if b then "true" else "false"
  | JNum n => num_str n
  | JStr s => s
  | JArr l => join "," (map (λ x, match x with JUndef | JNull => "" | _ => to_str x end) l)
  | JObj _ => "[object Object]"
  end.
Definition to_num (v : jsval) : num :=
  match v with
  | JUndef => NaN
  | JNull => of_Z 0
  | JBool b => of_Z (if b then 1 else 0)
  | JNum n => n
  | JStr s => str_num s
  | JArr _ | JObj _ => str_num (to_str v)
  end.

(** ** [JSON.stringify] *)

Definition hex4 (u : N) : list N :=
  map (λ k, hex_digit (Z.land (Z.shiftr (Z.of_N u) k) 15)) [12; 8; 4; 0].
Definition quote_unit (u : N) : list N :=
  if (u =? 34)%N then [92; 34]%N
  else if (u =? 92)%N then [92; 92]%N
  else if (u =? 8)%N then [92; 98]%N
  else if (u =? 12)%N then [92; 102]%N
  else if (u =? 10)%N then [92; 110]%N
  else if (u =? 13)%N then [92; 114]%N
  else if (u =? 9)%N then [92; 116]%N
  else if (u <? 32)%N then [92; 117]%N ++ hex4 u
  else [u].
Fixpoint quote_units (l : list N) : list N :=
  match l with
  | [] => []
  | u :: r =>
    match r with
    | v :: r' =>
      if is_high u && is_low v then u :: v :: quote_units r'
      else (if is_high u || is_low u then [92; 117]%N ++ hex4 u else quote_unit u) ++ quote_units r
    | [] => if is_high u || is_low u then [92; 117]%N ++ hex4 u else quote_unit u
    end
  end.
Definition quote (s : jstr) : jstr := JS ([34%N] ++ quote_units (units s) ++ [34%N]).

(** [JSON.stringify(v)], [None] for [undefined]. *)
Fixpoint stringify (v : jsval) : option jstr :=
  match v with
  | JUndef => None
  | JNull => Some "null"
  | JBool b => Some (if b then "true" else "false")
  | JNum n => Some (if is_finite n then num_str n else "null")
  | JStr s => Some (quote s)
  | JArr l => Some ("[" +++ join "," (map (λ x, default "null" (stringify x)) l) +++ "]")
  | JObj fs =>
    Some ("{" +++ join "," (omap (λ p, match stringify p.2 with
                                       | Some t => Some (quote p.1 +++ ":" +++ t)
                                       | None => None
                                       end) fs) +++ "}")
  end.
Definition json (v : jsval) : jstr := default "undefined" (stringify v).

(** ** [JSON.parse] *)

Definition json_space (u : N) : bool := ((u =? 32) || (u =? 9) || (u =? 10) || (u =? 13))%N.
Definition skip_ws (l : list N) : list N := drop_while json_space l.
Definition json_escape (c : N) : option N :=
  if (c =? 34)%N then Some 34%N else if (c =? 92)%N then Some 92%N
  else if (c =? 47)%N then Some 47%N else if (c =? 98)%N then Some 8%N
  else if (c =? 102)%N then Some 12%N else if (c =? 110)%N then Some 10%N
  else if (c =? 114)%N then Some 13%N else if (c =? 116)%N then Some 9%N else None.
Fixpoint json_string (fuel : nat) (l : list N) : option (list N * list N) :=
  match fuel, l with
  | S k, u :: r =>
    if (u =? 34)%N then Some ([], r)
    else if (u <? 32)%N then None
    else if (u =? 92)%N then
      match r with
      | 117%N :: a :: b :: c :: d :: r' =>
        if forallb is_hex [a; b; c; d]
        then match json_string k r' with
             | Some (s, t) => Some (Z.to_N (digits_val 16 hex_val [a; b; c; d]) :: s, t)
             | None => None
             end
        else None
      | e :: r' =>
        match json_escape e, json_string k r' with
        | Some x, Some (s, t) => Some (x :: s, t)
        | _, _ => None
        end
      | [] => None
      end
    else match json_string k r with
         | Some (s, t) => Some (u :: s, t)
         | None => None
         end
  | _, _ => None
  end.
(** The grammar of a JSON number is that of a decimal literal with at least one
    integer digit, no superfluous leading zero and a digit after the point. *)
Definition json_number (l : list N) : option (num * list N) :=
  let '(neg, r) := match l with u :: t => if (u =? 45)%N then (true, t) else (false, l) | [] => (false, []) end in
  let ip := take_while is_digit r in
  let r1 := drop_while is_digit r in
  let '(frac, r2) := match r1 with
                     | u :: t => if (u =? 46)%N then (46%N :: take_while is_digit t, drop_while is_digit t) else ([], r1)
                     | [] => ([], [])
                     end in
  let '(ex, r3) :=
    match r2 with
    | e :: t =>
      if ((e =? 101) || (e =? 69))%N then
        let '(sg, t') := match t with
                         | 43%N :: t' => ([43%N], t')
                         | 45%N :: t' => ([45%N], t')
                         | _ => ([], t)
                         end in
        (e :: sg ++ take_while is_digit t', drop_while is_digit t')
      else ([], r2)
    | [] => ([], r2)
    end in
  match ip with
  | [] => None
  | d :: more =>
    if (d =? 48)%N && negb (bool_decide (more = [])) then None
    else if bool_decide (frac = [46%N]) then None
    else match parse_decimal (ip ++ frac ++ ex) with
         | Some q => Some (f64 (if neg : bool then Qopp q else q), r3)
         | None => None
         end
  end.

Fixpoint json_value (fuel : nat) (l : list N) : option (jsval * list N) :=
  match fuel with
  | O => None
  | S k =>
    let l := skip_ws l in
    if is_prefix (units "null") l then Some (JNull, drop 4 l)
    else if is_prefix (units "true") l then Some (JBool true, drop 4 l)
    else if is_prefix (units "false") l then Some (JBool false, drop 5 l)
    else match l with
    | 34%N :: r =>
      match json_string k r with Some (s, t) => Some (JStr (JS s), t) | None => None end
    | 91%N :: r =>
      match skip_ws r with
      | 93%N :: t => Some (JArr [], t)
      | _ => match json_items k r with Some (vs, t) => Some (JArr vs, t) | None => None end
      end
    | 123%N :: r =>
      match skip_ws r with
      | 125%N :: t => Some (JObj [], t)
      | _ => match json_members k r with
             | Some (fs, t) => Some (JObj (spread [] fs), t)
             | None => None
             end
      end
    | _ => match json_number l with Some (n, t) => Some (JNum n, t) | None => None end
    end
  end
with json_items (fuel : nat) (l : list N) : option (list jsval * list N) :=
  match fuel with
  | O => None
  | S k =>
    match json_value k l with
    | Some (v, t) =>
      match skip_ws t with
      | 44%N :: t' => match json_items k t' with
                      | Some (vs, t'') => Some (v :: vs, t'')
                      | None => None
                      end
      | 93%N :: t' => Some ([v], t')
      | _ => None
      end
    | None => None
    end
  end
with json_members (fuel : nat) (l : list N) : option (fields * list N) :=
  match fuel with
  | O => None
  | S k =>
    match skip_ws l with
    | 34%N :: r =>
      match json_string k r with
      | Some (key, t) =>
        match skip_ws t with
        | 58%N :: t1 =>
          match json_value k t1 with
          | Some (v, t2) =>
            match skip_ws t2 with
            | 44%N :: t3 => match json_members k t3 with
                            | Some (fs, t4) => Some ((JS key, v) :: fs, t4)
                            | None => None
                            end
            | 125%N :: t3 => Some ([(JS key, v)], t3)
            | _ => None
            end
          | None => None
          end
        | _ => None
        end
      | None => None
      end
    | _ => None
    end
  end.

(** [JSON.parse(s)], [None] when it throws a [SyntaxError].  Every recursive
    call consumes at least one code unit, or goes one level down a grammar of
    three levels, so three steps per code unit are enough fuel. *)
Definition json_parse (s : jstr) : option jsval :=
  match json_value (3 * length (units s) + 3) (units s) with
  | Some (v, t) => if bool_decide (skip_ws t = []) then Some v else None
  | None => None
  end.

(** ** Facts *)

Lemma lookup_set_field {V} k k' (v : V) fs :
  lookup_field k (set_field k' v fs) = if decide (k = k') then Some v else lookup_field k fs.
Proof.
  induction fs as [|[k0 v0] r IH]; simpl; [by case_decide |].
  destruct (decide (k' = k0)) as [-> | Hne]; simpl.
  - destruct (decide (k = k0)); done.
  - destruct (decide (k = k0)) as [-> | ]; [| done]. by rewrite decide_False.
Qed.

Lemma lookup_del_field {V} k k' (fs : list (jstr * V)) :
  lookup_field k (del_field k' fs) = if decide (k = k') then None else lookup_field k fs.
Proof.
  unfold del_field. induction fs as [|[k0 v0] r IH]; simpl; [by case_decide |].
  rewrite filter_cons. simpl. destruct (decide (k0 = k')) as [-> | Hne].
  - rewrite decide_False by auto. rewrite IH. destruct (decide (k = k')); done.
  - rewrite decide_True by done. simpl.
    destruct (decide (k = k0)) as [-> | ]; [| done]. by rewrite decide_False.
Qed.

Lemma fld_set_field k k' v fs :
  fld (set_field k' v fs) k = if decide (k = k') then v else fld fs k.
Proof. unfold fld. rewrite lookup_set_field. by case_decide. Qed.
Lemma fld_del_field k k' fs :
  fld (del_field k' fs) k = if decide (k = k') then JUndef else fld fs k.
Proof. unfold fld. rewrite lookup_del_field. by case_decide. Qed.

(** Decide the equalities between literal keys of the goal. *)
Ltac decide_str :=
  repeat match goal with
  | |- context [decide (?a = ?b)] =>
    let He := fresh in let Hn := fresh in
    destruct (decide (a = b)) as [He | Hn]; [try discriminate He | try (exfalso; by apply Hn)]
  end.

#[export] Hint Rewrite @lookup_set_field @lookup_del_field fld_set_field fld_del_field : cfvm.

Lemma lookup_spread {V} k (a b : list (jstr * V)) :
  NoDup (map fst b) →
  lookup_field k (spread a b) = match lookup_field k b with Some v => Some v | None => lookup_field k a end.
Proof.
  unfold spread. revert a. induction b as [|[k0 v0] b IH]; intros a; cbn [fold_left map fst snd lookup_field]; [done |].
  intros [Hk Hnd]%NoDup_cons. rewrite IH by done. rewrite lookup_set_field.
  destruct (decide (k = k0)) as [-> | Hne]; [| done].
  destruct (lookup_field k0 b) as [v|] eqn:E; [| done]. exfalso. apply Hk.
  assert (Hin : (k0, v) ∈ b).
  { clear -E. induction b as [|[k1 v1] b IH]; cbn [lookup_field] in E; [done |]. case_decide; [injection E as ->; subst; left | right; auto]. }
  apply list_elem_of_fmap. by exists (k0, v).
Qed.
Lemma fld_spread k a b :
  NoDup (map fst b) →
  fld (spread a b) k = match lookup_field k b with Some v => v | None => fld a k end.
Proof. intros H. unfold fld. rewrite lookup_spread by done. by destruct (lookup_field k b). Qed.

Lemma set_field_elem {V} k (v : V) fs p : p ∈ set_field k v fs → p = (k, v) ∨ p ∈ fs.
Proof.
  induction fs as [|[k0 v0] r IH]; simpl.
  - intros ->%list_elem_of_singleton. by left.
  - case_decide; subst; rewrite !elem_of_cons; naive_solver.
Qed.

Lemma lookup_field_elem {V} k (v : V) fs : lookup_field k fs = Some v → (k, v) ∈ fs.
Proof.
  induction fs as [|[k0 v0] r IH]; simpl; [done |]. case_decide.
  - intros [= ->]. subst. left.
  - intros Hl%IH. by right.
Qed.

Lemma lookup_pick {V} (g : jstr → option V) keys k :
  lookup_field k (pick g keys) = if decide (k ∈ keys) then g k else None.
Proof.
  unfold pick. assert (H : ∀ acc, lookup_field k (fold_left (λ result key,
      match g key with Some v => set_field key v result | None => result end) keys acc)
    = if decide (k ∈ keys) then match g k with Some v => Some v | None => lookup_field k acc end
      else lookup_field k acc).
  { induction keys as [|a keys IH]; intros acc; cbn [fold_left]; [by rewrite decide_False by set_solver |].
    rewrite IH. destruct (decide (k = a)) as [-> | Hne].
    - rewrite (decide_True (P := a ∈ a :: keys)) by set_solver.
      destruct (g a) eqn:E; [| by destruct (decide (a ∈ keys))].
      rewrite lookup_set_field, (decide_True (P := a = a)) by done. by destruct (decide (a ∈ keys)).
    - assert (Hs : lookup_field k (match g a with Some v => set_field a v acc | None => acc end) = lookup_field k acc).
      { destruct (g a); [| done]. by rewrite lookup_set_field, decide_False. }
      rewrite Hs. destruct (decide (k ∈ keys)), (decide (k ∈ a :: keys)); done || set_solver. }
  rewrite H. destruct (decide _); [by destruct (g k) | done].
Qed.
Lemma pick_elem {V} (g : jstr → option V) keys p :
  p ∈ pick g keys → p.1 ∈ keys ∧ g p.1 = Some p.2.
Proof.
  unfold pick. assert (H : ∀ acc, p ∈ fold_left (λ result key,
      match g key with Some v => set_field key v result | None => result end) keys acc
    → p ∈ acc ∨ p.1 ∈ keys ∧ g p.1 = Some p.2).
  { induction keys as [|a keys IH]; intros acc; cbn [fold_left]; [by left |].
    intros [Hp | [Hp Hg]]%IH; [| right; split; [by right | done]].
    destruct (g a) as [v|] eqn:E; [| by left]. apply set_field_elem in Hp as [-> | Hp]; [| by left].
    right. split; [left | done]. }
  intros [Hp | Hp]%H; [by apply not_elem_of_nil in Hp | done].
Qed.
Lemma spread_elem {V} (a b : list (jstr * V)) p : p ∈ spread a b → p ∈ a ∨ p ∈ b.
Proof.
  unfold spread. revert a. induction b as [|[k v] b IH]; intros a; cbn [fold_left]; [by left |].
  intros [Hp | Hp]%IH; [| right; by right]. apply set_field_elem in Hp as [-> | Hp]; [right; left | by left].
Qed.

(** ** A quoted string reads back as itself *)

Lemma hex_digit_val d : 0 ≤ d < 16 → is_hex (hex_digit d) = true ∧ hex_val (hex_digit d) = d.
Proof.
  intros Hd. assert (Hall : forallb (λ n, is_hex (hex_digit (Z.of_nat n))
      && (hex_val (hex_digit (Z.of_nat n)) =? Z.of_nat n)) (seq 0 16) = true) by (vm_compute; reflexivity).
  rewrite forallb_true in Hall. specialize (Hall (Z.to_nat d)). rewrite Z2Nat.id in Hall by lia.
  assert (Hin : Z.to_nat d ∈ seq 0 16) by (apply elem_of_seq; lia). specialize (Hall Hin). des. by zify_bool.
Qed.

Lemma hex4_val u :
  is_unit u → forallb is_hex (hex4 u) = true ∧ Z.to_N (digits_val 16 hex_val (hex4 u)) = u.
Proof.
  unfold is_unit. intros Hu. set (z := Z.of_N u).
  assert (Hk : ∀ k, 0 ≤ Z.land (Z.shiftr z k) 15 < 16).
  { intros k. change 15 with (Z.ones 4). rewrite Z.land_ones by lia. apply Z.mod_pos_bound. lia. }
  unfold hex4. cbn [map forallb]. fold z. split.
  - by rewrite !(proj1 (hex_digit_val _ (Hk _))).
  - unfold digits_val. cbn [fold_left]. rewrite !(proj2 (hex_digit_val _ (Hk _))).
    change 15 with (Z.ones 4). rewrite !Z.land_ones, !Z.shiftr_div_pow2 by lia.
    change (2 ^ 12) with 4096. change (2 ^ 8) with 256. change (2 ^ 4) with 16. change (2 ^ 0) with 1.
    assert (0 ≤ z < 65536) by lia. replace u with (Z.to_N z) by lia. f_equal.
    Z.to_euclidean_division_equations. lia.
Qed.

Lemma json_string_plain k u l s t :
  (u =? 34)%N = false → (u <? 32)%N = false → (u =? 92)%N = false →
  json_string k l = Some (s, t) → json_string (S k) (u :: l) = Some (u :: s, t).
Proof. intros H1 H2 H3 Hl. cbn [json_string]. by rewrite H1, H2, H3, Hl. Qed.

Lemma json_string_hex k u l s t :
  is_unit u → json_string k l = Some (s, t) →
  json_string (S k) (([92; 117]%N ++ hex4 u) ++ l) = Some (u :: s, t).
Proof.
  intros Hu Hl. destruct (hex4_val u Hu) as [Hf Hv]. unfold hex4 in *. cbn [map] in *.
  cbn [Datatypes.app json_string]. cbn [N.eqb N.ltb N.compare Pos.eqb Pos.compare Pos.compare_cont].
  rewrite Hf, Hl. by rewrite Hv.
Qed.

Lemma json_string_unit k u l s t :
  is_unit u → json_string k l = Some (s, t) → json_string (S k) (quote_unit u ++ l) = Some (u :: s, t).
Proof.
  intros Hu Hl. unfold quote_unit.
  repeat match goal with |- context [if (u =? ?c)%N then _ else _] =>
    destruct (N.eqb_spec u c) as [-> | ?]; [cbn; by rewrite Hl |] end.
  destruct (u <? 32)%N eqn:E; [by apply json_string_hex |].
  apply json_string_plain; [by apply N.eqb_neq | done | by apply N.eqb_neq | done].
Qed.

(** [quote] and the string parser are inverse: the text between the quotes
    reads back as the quoted string, whatever follows the closing quote. *)
Lemma json_string_quote l rest k :
  Forall is_unit l → (length l < k)%nat → json_string k (quote_units l ++ 34%N :: rest) = Some (l, rest).
Proof.
  remember (length l) as m eqn:Hm. revert l k Hm.
  induction m as [m IH] using lt_wf_ind. intros l k -> Hl Hk.
  destruct k as [|k]; [lia |]. destruct l as [|u r]; [done |].
  inversion Hl as [|? ? Hu Hr]; subst. simpl in Hk.
  assert (Hrest : json_string k (quote_units r ++ 34%N :: rest) = Some (r, rest)).
  { apply (IH (length r)); [simpl; lia | done | done | lia]. }
  cbn [quote_units]. destruct r as [|v r'].
  - destruct (is_high u || is_low u); [by apply json_string_hex | by apply json_string_unit].
  - destruct (is_high u && is_low v) eqn:E.
    + unfold is_high, is_low in E. rewrite !andb_true_iff, !N.leb_le, !N.ltb_lt in E.
      inversion Hr as [|? ? Hv Hr']; subst. destruct k as [|k]; [simpl in Hk; lia |].
      cbn [Datatypes.app]. apply json_string_plain; [apply N.eqb_neq; lia | apply N.ltb_ge; lia | apply N.eqb_neq; lia |].
      apply json_string_plain; [apply N.eqb_neq; lia | apply N.ltb_ge; lia | apply N.eqb_neq; lia |].
      apply (IH (length r')); [simpl; lia | done | done | simpl in Hk; lia].
    + rewrite <- (assoc_L (++)). destruct (is_high u || is_low u); [by apply json_string_hex | by apply json_string_unit].
Qed.

Lemma quote_inner s :
  JS (take (length (units (quote s)) - 2) (drop 1 (units (quote s)))) = JS (quote_units (units s)).
Proof.
  unfold quote. cbn [units Datatypes.app length drop]. f_equal. rewrite length_app. simpl.
  replace (S (length (quote_units (units s)) + 1) - 2)%nat with (length (quote_units (units s))) by lia.
  rewrite drop_0. by rewrite take_app_le, take_ge by lia.
Qed.

(** ** A flat object reads back as itself *)

(** Values printed on one level: strings and natural safe integers. *)
Definition flat_value (v : jsval) : Prop :=
  match v with
  | JStr s => Forall is_unit (units s)
  | JNum a => ∃ z, a = of_Z z ∧ 0 ≤ z ≤ max_safe
  | _ => False
  end.
Definition value_text (v : jsval) : list N := units (json v).
Fixpoint members_text (fs : fields) : list N :=
  match fs with
  | [] => []
  | [(k, v)] => units (quote k) ++ 58%N :: value_text v
  | (k, v) :: r => units (quote k) ++ 58%N :: value_text v ++ 44%N :: members_text r
  end.
Definition flat_object (fs : fields) : Prop := Forall (λ p, Forall is_unit (units p.1) ∧ flat_value p.2) fs.

Definition member_str (p : jstr * jsval) : jstr := quote p.1 +++ ":" +++ json p.2.
Lemma join_members fs : units (join "," (map member_str fs)) = members_text fs.
Proof.
  induction fs as [|[k v] r IH]; [done |]. destruct r as [|[k' v'] r]; [done |].
  change (members_text ((k, v) :: (k', v') :: r)) with (units (quote k) ++ 58%N :: value_text v ++ 44%N :: members_text ((k', v') :: r)).
  rewrite <- IH. change (join "," (map member_str ((k, v) :: (k', v') :: r)))
    with (member_str (k, v) +++ "," +++ join "," (map member_str ((k', v') :: r))).
  unfold app at 1 2, member_str at 1, app at 1 2. cbn [units fst snd]. rewrite <- !(assoc_L (++)). done.
Qed.

Lemma flat_json fs : flat_object fs → units (json (JObj fs)) = 123%N :: members_text fs ++ [125%N].
Proof.
  intros Hf. assert (Hj : json (JObj fs) = "{" +++ join "," (map member_str fs) +++ "}").
  { unfold json. cbn [stringify default]. unfold id. do 3 f_equal.
    induction Hf as [|[k v] r [_ Hv] Hr IH]; [done |]. cbn [omap list_omap snd fst map].
    assert (Hs : stringify v = Some (json v)) by (unfold json; destruct v; done). rewrite Hs. f_equal. exact IH. }
  rewrite Hj. unfold app. cbn [units]. rewrite join_members. done.
Qed.

Lemma quote_unit_length u : (1 ≤ length (quote_unit u))%nat.
Proof. unfold quote_unit. repeat (match goal with |- context [if ?b then _ else _] => destruct b end); simpl; lia. Qed.
Lemma quote_units_length l : (length l ≤ length (quote_units l))%nat.
Proof.
  remember (length l) as m eqn:Hm. revert l Hm. induction m as [m IH] using lt_wf_ind. intros l ->.
  destruct l as [|u r]; [done |]. cbn [quote_units]. destruct r as [|v r'].
  - destruct (is_high u || is_low u); [simpl; lia | apply quote_unit_length].
  - destruct (is_high u && is_low v).
    + cbn [length]. specialize (IH (length r') ltac:(simpl; lia) r' eq_refl). lia.
    + rewrite length_app. specialize (IH (length (v :: r')) ltac:(simpl; lia) (v :: r') eq_refl). cbn [length] in *.
      destruct (is_high u || is_low u); [rewrite length_app; change (length [92; 117]%N) with 2%nat; lia |].
      pose proof (quote_unit_length u). lia.
Qed.

Lemma dec_digits_head fuel n d r : 0 < n < 2 ^ Z.of_nat fuel → dec_digits fuel n = d :: r → d ≠ 48%N.
Proof.
  revert n d r. induction fuel as [|k IH]; intros n d r Hn; [simpl in Hn; lia |]. cbn [dec_digits].
  destruct (n <? 10) eqn:E; zify_bool; [intros [= <- _]; lia |].
  rewrite Nat2Z.inj_succ, Z.pow_succ_r in Hn by lia.
  assert (Hlt : 0 < n / 10 < 2 ^ Z.of_nat k) by (split; [apply Z.div_str_pos; lia | apply Z.div_lt_upper_bound; lia]).
  destruct (dec_digits k (n / 10)) as [|d' r'] eqn:Ed.
  - destruct (dec_digits_spec k (n / 10) ltac:(lia)) as (_ & _ & Hne). destruct k; [simpl in Hlt; lia |]. by rewrite Ed in Hne; exfalso; apply Hne.
  - cbn [Datatypes.app]. intros [= <- _]. by apply (IH (n / 10) d' r').
Qed.

Lemma take_drop_digits l u rest :
  forallb is_digit l = true → is_digit u = false →
  take_while is_digit (l ++ u :: rest) = l ∧ drop_while is_digit (l ++ u :: rest) = u :: rest.
Proof.
  intros Hl Hu. induction l as [|x l IH]; cbn [Datatypes.app take_while drop_while]; [by rewrite Hu |].
  cbn [forallb] in Hl. apply andb_true_iff in Hl as [-> Hl]. destruct (IH Hl) as [-> ->]. done.
Qed.

(** A natural number followed by a comma or a closing brace. *)
Lemma json_number_nat z u rest :
  0 ≤ z ≤ max_safe → u = 44%N ∨ u = 125%N → json_number (dec_nat z ++ u :: rest) = Some (of_Z z, u :: rest).
Proof.
  intros Hz Hu. destruct (dec_nat_spec z ltac:(lia)) as (Hv & Hd & Hne).
  assert (Hud : is_digit u = false) by (destruct Hu as [-> | ->]; done).
  destruct (take_drop_digits (dec_nat z) u rest Hd Hud) as [Ht Hr].
  assert (Hneg : match dec_nat z ++ u :: rest with x :: t => if (x =? 45)%N then (true, t) else (false, dec_nat z ++ u :: rest) | [] => (false, []) end
                 = (false, dec_nat z ++ u :: rest)).
  { destruct (dec_nat z) as [|x t] eqn:E; [done |]. cbn [Datatypes.app]. cbn [forallb] in Hd. apply andb_true_iff in Hd as [Hx _].
    apply is_digit_spec in Hx. by rewrite (proj2 (N.eqb_neq x 45)) by lia. }
  unfold json_number. rewrite Hneg, Ht, Hr.
  assert (Hu46 : (u =? 46)%N = false) by (destruct Hu as [-> | ->]; done). rewrite Hu46.
  assert (Hue : ((u =? 101) || (u =? 69))%N = false) by (destruct Hu as [-> | ->]; done). rewrite Hue.
  destruct (parse_decimal_digits (dec_nat z) Hd Hne) as (q & Hq & Hqz). rewrite Hv in Hqz. rewrite !app_nil_r, Hq.
  destruct (dec_nat z) as [|d r] eqn:E; [done |].
  assert (Hlead : (d =? 48)%N && negb (bool_decide (r = [])) = false).
  { destruct (N.eqb_spec d 48) as [-> |]; [| done]. cbn [andb]. destruct (decide (z < 10)) as [Hlt | Hge].
    - unfold dec_nat in E. cbn [dec_digits] in E. rewrite (proj2 (Z.ltb_lt z 10)) in E by done. injection E as _ <-. done.
    - exfalso. unfold dec_nat in E. apply (dec_digits_head _ z 48%N r) in E; [done |]. split; [lia |].
      rewrite Nat2Z.inj_succ, Z2Nat.id by apply Z.log2_nonneg. apply Z.log2_spec. lia. }
  rewrite Hlead. rewrite bool_decide_eq_false_2 by done. do 2 f_equal. apply f64_eq_Z; [done | lia].
Qed.

Lemma digit_cases u : is_digit u = true → u ∈ [48; 49; 50; 51; 52; 53; 54; 55; 56; 57]%N.
Proof. rewrite is_digit_spec. intros H. rewrite !elem_of_cons. lia. Qed.

Lemma json_value_flat v u rest k :
  flat_value v → u = 44%N ∨ u = 125%N → (length (value_text v) ≤ k)%nat →
  json_value (S k) (value_text v ++ u :: rest) = Some (v, u :: rest).
Proof.
  intros Hv Hu Hk. destruct v as [| | |a|s| |]; try done.
  - destruct Hv as (z & -> & Hz). unfold value_text, json in *. cbn [stringify default is_finite of_Z] in *. unfold id in *.
    rewrite (num_str_Z (of_Z z) z) in * by (apply num_Z_of_Z || lia). unfold dec_Z in *.
    rewrite (proj2 (Z.ltb_ge z 0)) in * by lia. cbn [units] in *. pose proof (json_number_nat z u rest Hz Hu) as Hn.
    destruct (dec_nat_spec z ltac:(lia)) as (_ & Hd & Hne). destruct (dec_nat z) as [|d r]; [done |].
    cbn [forallb] in Hd. apply andb_true_iff in Hd as [Hd _]. apply digit_cases in Hd. cbn [Datatypes.app] in *.
    list_cases Hd; cbn [json_value]; change (skip_ws (?x :: ?y)) with (x :: y); cbn [skip_ws drop_while json_space N.eqb Pos.eqb orb is_prefix andb units];
      rewrite Hn; done.
  - unfold value_text, json in *. cbn [stringify default] in *. unfold id, quote in *. cbn [units] in *.
    cbn [Datatypes.app] in *. cbn [json_value]. rewrite <- (assoc_L (++)). cbn [Datatypes.app].
    cbn [skip_ws drop_while json_space N.eqb Pos.eqb orb is_prefix andb units].
    rewrite json_string_quote; [by destruct s | done |]. cbn [length] in Hk. rewrite length_app in Hk.
    pose proof (quote_units_length (units s)). simpl in Hk. lia.
Qed.

Lemma json_members_flat fs rest k :
  fs ≠ [] → flat_object fs → (length (members_text fs) < k)%nat →
  json_members k (members_text fs ++ 125%N :: rest) = Some (fs, rest).
Proof.
  revert k. induction fs as [|[key v] fs IH]; intros k Hne Hf Hk; [done |]. clear Hne.
  apply Forall_cons in Hf as [[Hkey Hv] Hf]. cbn [fst snd] in *. destruct k as [|k]; [lia |].
  assert (Hstring : ∀ r k', (length (units key) < k')%nat → json_string k' (quote_units (units key) ++ 34%N :: r) = Some (units key, r))
    by (intros; by apply json_string_quote).
  pose proof (quote_units_length (units key)) as Hql.
  destruct fs as [|p fs].
  - cbn [members_text] in *. unfold quote in *. cbn [units Datatypes.app] in *. rewrite <- !(assoc_L (++)) in *. cbn [Datatypes.app] in *.
    cbn [json_members skip_ws drop_while json_space N.eqb Pos.eqb orb]. cbn [length] in Hk. rewrite length_app in Hk. cbn [length] in Hk.
    rewrite Hstring by lia. cbn [skip_ws drop_while json_space N.eqb Pos.eqb orb].
    destruct k as [|k]; [lia |]. rewrite json_value_flat by (done || (by right) || lia).
    cbn [skip_ws drop_while json_space N.eqb Pos.eqb orb]. by destruct key.
  - destruct p as [key' v']. change (members_text ((key, v) :: (key', v') :: fs))
      with (units (quote key) ++ 58%N :: value_text v ++ 44%N :: members_text ((key', v') :: fs)) in *.
    unfold quote in *. cbn [units Datatypes.app] in *. rewrite <- !(assoc_L (++)) in *. cbn [Datatypes.app] in *. rewrite <- !(assoc_L (++)) in *. cbn [Datatypes.app] in *.
    cbn [json_members skip_ws drop_while json_space N.eqb Pos.eqb orb]. cbn [length] in Hk. rewrite length_app in Hk. cbn [length] in Hk.
    rewrite length_app in Hk. cbn [length] in Hk.
    rewrite Hstring by lia. cbn [skip_ws drop_while json_space N.eqb Pos.eqb orb].
    destruct k as [|k]; [lia |]. rewrite json_value_flat by (done || (by left) || lia).
    cbn [skip_ws drop_while json_space N.eqb Pos.eqb orb]. rewrite (IH (S k)) by (done || lia). by destruct key.
Qed.

Lemma set_field_append {V} k (v : V) fs : k ∉ map fst fs → set_field k v fs = fs ++ [(k, v)].
Proof.
  intros Hk. induction fs as [|[k' v'] fs IH]; [done |]. cbn [map fst] in Hk. rewrite not_elem_of_cons in Hk. destruct Hk as [Hk Hr].
  cbn [set_field]. rewrite decide_False by done. cbn [Datatypes.app]. by rewrite IH.
Qed.
Lemma lookup_app {V} k (a b : list (jstr * V)) : lookup_field k (a ++ b) = match lookup_field k a with Some v => Some v | None => lookup_field k b end.
Proof. induction a as [|[k' v'] a IH]; [done |]. cbn [Datatypes.app lookup_field]. by case_decide. Qed.
Lemma spread_nil_nodup {V} (fs : list (jstr * V)) : NoDup (map fst fs) → spread [] fs = fs.
Proof.
  unfold spread. assert (H : ∀ acc, NoDup (map fst (acc ++ fs)) → fold_left (λ acc p, set_field p.1 p.2 acc) fs acc = acc ++ fs).
  { induction fs as [|[k v] fs IH]; intros acc Hn; cbn [fold_left]; [by rewrite app_nil_r |].
    assert (Hs : set_field k v acc = acc ++ [(k, v)]).
    { rewrite map_app in Hn. cbn [map fst] in Hn. apply NoDup_app in Hn as (_ & Hn & _). apply set_field_append. intros Hin. destruct (Hn k Hin). left. }
    cbn [fst snd]. rewrite Hs, IH; rewrite <- (assoc_L (++)); done. }
  intros Hn. by apply (H []).
Qed.

(** [JSON.parse(JSON.stringify(fs))] of a flat object. *)
Lemma json_parse_flat fs :
  fs ≠ [] → flat_object fs → NoDup (map fst fs) → json_parse (json (JObj fs)) = Some (JObj fs).
Proof.
  intros Hne Hf Hnd. unfold json_parse. rewrite (flat_json fs Hf). cbn [length]. rewrite length_app. cbn [length].
  replace (3 * S (length (members_text fs) + 1) + 3)%nat with (S (S (3 * length (members_text fs) + 7)))%nat by lia.
  set (k := (3 * length (members_text fs) + 7)%nat).
  assert (Hm : json_members (S k) (members_text fs ++ [125%N]) = Some (fs, [])) by (apply json_members_flat; [done | done | lia]).
  assert (Hhead : ∃ r, members_text fs ++ [125%N] = 34%N :: r).
  { destruct fs as [|[k1 v1] [|[k2 v2] fs]]; [done | |]; cbn [members_text]; unfold quote; cbn [units Datatypes.app]; eauto. }
  destruct Hhead as [r Hr]. rewrite Hr in *.
  assert (Hval : json_value (S (S k)) (123%N :: 34%N :: r) = Some (JObj (spread [] fs), [])).
  { cbn [json_value skip_ws drop_while json_space N.eqb Pos.eqb orb is_prefix andb units]. by rewrite Hm. }
  rewrite Hval. rewrite spread_nil_nodup by done. done.
Qed.
