(* ===== verification/JsList.v ===== *)
(** * Lists and maps the way JavaScript sorts and updates them

    [Array.prototype.sort] is stable; a [Map] keeps the place of a key that is set
    again.  A comparator is given by the sign of the number it returns. *)

From S2P Require Import Prelude JsStr JsVal.
#[local] Open Scope Z_scope.

Section Sort.
Context {A : Type} (cmp : A → A → Z).

(** [x] goes before the elements it compares equal to: it came first. *)
Fixpoint insert_stable (x : A) (l : list A) : list A :=
  match l with [] => [x] | y :: r => if cmp x y <=? 0 then x :: l else y :: insert_stable x r end.
(** [[...l].sort(cmp)] *)
Definition stable_sort (l : list A) : list A := foldr insert_stable [] l.

Lemma insert_stable_perm x l : insert_stable x l ≡ₚ x :: l.
Proof.
  induction l as [|y l IH]; [done |]. cbn [insert_stable]. destruct (cmp x y <=? 0); [done |]. rewrite IH. constructor.
Qed.
Lemma stable_sort_perm l : stable_sort l ≡ₚ l.
Proof. induction l as [|x l IH]; [done |]. cbn. by rewrite insert_stable_perm, IH. Qed.

Context (Hanti : ∀ x y, 0 < cmp x y → cmp y x ≤ 0) (Htrans : ∀ x y z, cmp x y ≤ 0 → cmp y z ≤ 0 → cmp x z ≤ 0).
Definition in_order (x y : A) : Prop := cmp x y ≤ 0.
Lemma insert_stable_sorted x l : StronglySorted in_order l → StronglySorted in_order (insert_stable x l).
Proof.
  induction 1 as [|y l Hs IH Hall]; cbn [insert_stable]; [repeat constructor |].
  destruct (cmp x y <=? 0) eqn:E; [apply Z.leb_le in E | apply Z.leb_gt in E].
  - constructor; [by constructor |]. constructor; [done |].
    apply Forall_forall. intros z Hz. rewrite Forall_forall in Hall. by apply (Htrans x y z), Hall.
  - constructor; [done |]. rewrite insert_stable_perm. constructor; [by apply Hanti | done].
Qed.
Lemma stable_sort_sorted l : StronglySorted in_order (stable_sort l).
Proof. induction l as [|x l IH]; [constructor |]. by apply insert_stable_sorted. Qed.
End Sort.

(** ** Maps in insertion order *)

Section Keyed.
Context {A : Type} (key : A → jstr).

(** [map.set(key(x), x)] *)
Definition set_by (m : list (jstr * A)) (x : A) : list (jstr * A) := set_field (key x) x m.

Lemma set_field_keys {V} k (v : V) fs : map fst (set_field k v fs) = if mem k (map fst fs) then map fst fs else map fst fs ++ [k].
Proof.
  induction fs as [|[k' v'] fs IH]; [reflexivity |]. cbn [set_field map fst]. destruct (decide (k = k')) as [<- | E].
  - cbn [map fst]. assert (Hm : mem k (k :: map fst fs) = true) by (apply mem_spec; left). by rewrite Hm.
  - cbn [map fst]. rewrite IH.
    assert (Hm : mem k (k' :: map fst fs) = mem k (map fst fs)).
    { destruct (mem k (map fst fs)) eqn:E'; [apply mem_spec in E'; apply mem_spec; by right |]. apply mem_false in E'. apply mem_false.
      rewrite elem_of_cons. naive_solver. }
    rewrite Hm. by destruct (mem k (map fst fs)).
Qed.
Lemma set_field_nodup {V} k (v : V) fs : NoDup (map fst fs) → NoDup (map fst (set_field k v fs)).
Proof.
  intros H. rewrite set_field_keys. destruct (mem k (map fst fs)) eqn:E; [done |]. apply mem_false in E.
  apply NoDup_app. split; [done |]. split; [| apply NoDup_singleton]. intros x Hx ->%list_elem_of_singleton. done.
Qed.

(** What a map built by setting elements holds. *)
Definition well_keyed (m : list (jstr * A)) : Prop := NoDup (map fst m) ∧ ∀ p, p ∈ m → p.1 = key p.2.
Lemma set_by_well_keyed m x : well_keyed m → well_keyed (set_by m x).
Proof.
  intros [H1 H2]. split; [by apply set_field_nodup |]. intros p Hp. apply set_field_elem in Hp as [-> | Hp]; [done | by apply H2].
Qed.
Lemma well_keyed_nodup m : well_keyed m → NoDup (map key (map snd m)).
Proof.
  intros [H1 H2]. assert (Heq : map key (map snd m) = map fst m).
  { rewrite map_map. apply map_ext_in. intros p Hp. symmetry. apply H2. by apply list_elem_of_In. }
  by rewrite Heq.
Qed.
End Keyed.
