(* ===== verification/JsBytes.v ===== *)
(** * Bytes: base64, UTF-8 decoding and constant-time comparison

    A byte array is a list of integers between 0 and 255.  [btoa] and [atob]
    work on binary strings, [TextDecoder] is the decoder of the Encoding
    standard with its replacement character, and the comparison loop is the one
    the authentication modules repeat. *)

From Stdlib Require Import ZifyBool.
From S2P Require Import Prelude JsStr.
#[local] Open Scope Z_scope.

#[local] Ltac euclid := Z.to_euclidean_division_equations; lia.
#[local] Ltac neuclid := zify; Z.to_euclidean_division_equations; lia.

Definition is_byte (b : Z) : Prop := 0 ≤ b < 256.
#[global] Instance is_byte_dec b : Decision (is_byte b).
Proof. unfold is_byte. apply _. Defined.

(** ** Base64 *)

(** [btoa] of a binary string given by its bytes. *)
Definition b64_char (i : Z) : N :=
  Z.to_N (if i <? 26 then 65 + i else if i <? 52 then 71 + i else if i <? 62 then i - 4
          else if i =? 62 then 43 else 47).
Fixpoint btoa (bytes : list Z) : list N :=
  match bytes with
  | a :: b :: c :: r =>
    b64_char (a / 4) :: b64_char (a mod 4 * 16 + b / 16)
    :: b64_char (b mod 16 * 4 + c / 64) :: b64_char (c mod 64) :: btoa r
  | [a; b] => [b64_char (a / 4); b64_char (a mod 4 * 16 + b / 16); b64_char (b mod 16 * 4); 61%N]
  | [a] => [b64_char (a / 4); b64_char (a mod 4 * 16); 61%N; 61%N]
  | [] => []
  end.

Definition b64_val (u : N) : option Z :=
  if is_upper u then Some (Z.of_N u - 65)
  else if is_lower u then Some (Z.of_N u - 71)
  else if is_digit u then Some (Z.of_N u + 4)
  else if (u =? 43)%N then Some 62 else if (u =? 47)%N then Some 63 else None.
Fixpoint b64_bytes (l : list Z) : list Z :=
  match l with
  | a :: b :: c :: d :: r => (a * 4 + b / 16) :: (b mod 16 * 16 + c / 4) :: (c mod 4 * 64 + d) :: b64_bytes r
  | [a; b; c] => [a * 4 + b / 16; b mod 16 * 16 + c / 4]
  | [a; b] => [a * 4 + b / 16]
  | _ => []
  end.
(** Drop at most two trailing ['=']. *)
Definition strip_pad (l : list N) : list N :=
  match rev l with
  | u :: r => if chr 61 u then match r with v :: r' => if chr 61 v then rev r' else rev r | [] => [] end else l
  | [] => l
  end.
(** [atob], [None] when it throws: white space is dropped, and up to two padding
    characters when they complete a group of four. *)
Definition atob (l : list N) : option (list Z) :=
  let l := List.filter (λ u, negb ((u =? 9) || (u =? 10) || (u =? 12) || (u =? 13) || (u =? 32))%N) l in
  let l := if (length l mod 4 =? 0)%nat then strip_pad l else l in
  if (length l mod 4 =? 1)%nat then None
  else match mapM b64_val l with Some vs => Some (b64_bytes vs) | None => None end.

(** [btoa(...).replace(/\+/g, '-').replace(/\//g, '_').replace(/=+$/g, '')] and
    the inverse substitution. *)
Definition to_url (u : N) : N := if (u =? 43)%N then 45%N else if (u =? 47)%N then 95%N else u.
Definition of_url (u : N) : N := if (u =? 45)%N then 43%N else if (u =? 95)%N then 47%N else u.
Definition base64url (bytes : list Z) : jstr :=
  JS (drop_while_end (chr 61) (map to_url (btoa bytes))).

(** ** [new TextDecoder().decode(bytes)] *)

(** The bytes still needed, the code point so far and the range the next byte
    must lie in. *)
Record utf8_state := { u_needed : nat; u_cp : Z; u_lo : Z; u_hi : Z }.
Definition utf8_ready : utf8_state := {| u_needed := 0; u_cp := 0; u_lo := 128; u_hi := 191 |}.
Definition utf8_start (b : Z) : list Z * utf8_state :=
  if b <? 128 then ([b], utf8_ready)
  else if (194 <=? b) && (b <=? 223) then ([], {| u_needed := 1; u_cp := b - 192; u_lo := 128; u_hi := 191 |})
  else if (224 <=? b) && (b <=? 239) then
    ([], {| u_needed := 2; u_cp := b - 224; u_lo := if b =? 224 then 160 else 128; u_hi := if b =? 237 then 159 else 191 |})
  else if (240 <=? b) && (b <=? 244) then
    ([], {| u_needed := 3; u_cp := b - 240; u_lo := if b =? 240 then 144 else 128; u_hi := if b =? 244 then 143 else 191 |})
  else ([65533], utf8_ready).
Fixpoint utf8_run (st : utf8_state) (bytes : list Z) : list Z :=
  match bytes with
  | [] => match u_needed st with O => [] | S _ => [65533] end
  | b :: r =>
    match u_needed st with
    | O => let '(out, st') := utf8_start b in out ++ utf8_run st' r
    | S n =>
      if (u_lo st <=? b) && (b <=? u_hi st) then
        let cp := u_cp st * 64 + (b - 128) in
        match n with
        | O => cp :: utf8_run utf8_ready r
        | S _ => utf8_run {| u_needed := n; u_cp := cp; u_lo := 128; u_hi := 191 |} r
        end
      else let '(out, st') := utf8_start b in 65533 :: out ++ utf8_run st' r
    end
  end.
(** The decoder drops one leading byte order mark. *)
Definition utf8_decode (bytes : list Z) : jstr :=
  let points := map Z.to_N (utf8_run utf8_ready bytes) in
  JS (flat_map utf16_of_point (match points with 65279%N :: r => r | _ => points end)).

(** ** Comparison in time independent of the contents

    [diff = a.length ^ b.length], then [diff |= (a[i] ?? 0) ^ (b[i] ?? 0)] for
    every index of the longer sequence; elements and lengths are below [2^31],
    where the 32-bit operations are those of [Z]. *)
Definition ct_diff (a b : list Z) : Z :=
  fold_left (λ diff i, Z.lor diff (Z.lxor (nth i a 0) (nth i b 0)))
    (seq 0 (Nat.max (length a) (length b))) (Z.lxor (Z.of_nat (length a)) (Z.of_nat (length b))).
Definition ct_equal (a b : list Z) : bool := ct_diff a b =? 0.

(** ** Facts *)

Lemma lor_fold_0 (f : nat → Z) l d :
  fold_left (λ d i, Z.lor d (f i)) l d = 0 ↔ d = 0 ∧ ∀ i, i ∈ l → f i = 0.
Proof.
  revert d. induction l as [|x l IH]; intros d; cbn [fold_left].
  - split; [intros ->; split; [done | intros i Hi; by apply not_elem_of_nil in Hi] | by intros [-> _]].
  - rewrite IH, Z.lor_eq_0_iff. split.
    + intros [[Hd Hx] Hl]. split; [done |]. intros i Hi. apply elem_of_cons in Hi as [-> | Hi]; auto.
    + intros [Hd Hl]. split; [split; [done | apply Hl; left] | intros i Hi; apply Hl; by right].
Qed.

(** The loop finds a difference exactly when there is one. *)
Lemma ct_equal_spec a b : ct_equal a b = true ↔ a = b.
Proof.
  unfold ct_equal, ct_diff. rewrite Z.eqb_eq, (lor_fold_0 (λ i, Z.lxor (nth i a 0) (nth i b 0))).
  split; [| intros ->; split; [apply Z.lxor_nilpotent | intros i _; apply Z.lxor_nilpotent]].
  intros [Hl Hi]. apply Z.lxor_eq, Nat2Z.inj in Hl.
  apply (nth_ext a b 0 0); [done |]. intros n Hn. apply Z.lxor_eq, Hi, elem_of_seq. lia.
Qed.

Lemma utf8_ascii s : forallb (λ u, (u <? 128)%N) (units s) = true → utf8 s = map Z.of_N (units s).
Proof.
  unfold utf8. destruct s as [l]. cbn [units]. induction l as [|u l IH]; [done |]. cbn [forallb].
  intros [Hu Hl]%andb_true_iff. specialize (IH Hl). apply N.ltb_lt in Hu.
  assert (Hh : is_high u = false) by (apply andb_false_iff; left; apply N.leb_gt; lia).
  assert (Hw : is_low u = false) by (apply andb_false_iff; left; apply N.leb_gt; lia).
  assert (Hj : js_points (u :: l) = u :: js_points l) by (cbn [js_points]; rewrite Hh; by destruct l).
  rewrite Hj. cbn [flat_map map]. rewrite IH. unfold scalar. rewrite Hh, Hw. simpl orb. cbv iota. unfold utf8_of_point.
  by rewrite (proj2 (Z.ltb_lt (Z.of_N u) 128)) by lia.
Qed.

Lemma utf8_decode_ascii l :
  forallb (λ u, (u <? 128)%N) l = true → utf8_decode (map Z.of_N l) = JS l.
Proof.
  intros Hl. unfold utf8_decode. assert (Hr : map Z.to_N (utf8_run utf8_ready (map Z.of_N l)) = l).
  { induction l as [|u l IH]; [done |]. cbn [forallb] in Hl. apply andb_true_iff in Hl as [Hu Hl]. apply N.ltb_lt in Hu.
    cbn [map utf8_run utf8_ready u_needed]. unfold utf8_start. rewrite (proj2 (Z.ltb_lt (Z.of_N u) 128)) by lia.
    cbn [Datatypes.app map]. by rewrite IH, N2Z.id. }
  rewrite Hr. assert (Hm : match l with 65279%N :: r => r | _ => l end = l).
  { destruct l as [|u r]; [done |]. cbn [forallb] in Hl. apply andb_true_iff in Hl as [Hu _]. apply N.ltb_lt in Hu.
    destruct (N.eq_dec u 65279); [lia |]. break_goal; try done; congruence. }
  rewrite Hm. f_equal. clear Hr Hm. induction l as [|u l IH]; [done |]. cbn [forallb] in Hl.
  apply andb_true_iff in Hl as [Hu Hl]. cbn [flat_map]. rewrite (IH Hl). unfold utf16_of_point. apply N.ltb_lt in Hu.
  by rewrite (proj2 (N.ltb_lt u 65536)) by lia.
Qed.

(** *** The encoding read back *)

(** A code point the encoder writes: no surrogate. *)
Definition is_scalar (p : Z) : Prop := 0 ≤ p < 55296 ∨ 57344 ≤ p < 1114112.
Lemma utf8_last cp lo hi b r :
  lo ≤ b ≤ hi → utf8_run {| u_needed := 1; u_cp := cp; u_lo := lo; u_hi := hi |} (b :: r) = cp * 64 + (b - 128) :: utf8_run utf8_ready r.
Proof.
  intros [H1 H2]. cbn [utf8_run u_needed u_lo u_hi u_cp]. by rewrite (proj2 (Z.leb_le lo b) H1), (proj2 (Z.leb_le b hi) H2).
Qed.
Lemma utf8_more n cp lo hi b r :
  lo ≤ b ≤ hi →
  utf8_run {| u_needed := S (S n); u_cp := cp; u_lo := lo; u_hi := hi |} (b :: r)
  = utf8_run {| u_needed := S n; u_cp := cp * 64 + (b - 128); u_lo := 128; u_hi := 191 |} r.
Proof.
  intros [H1 H2]. cbn [utf8_run u_needed u_lo u_hi u_cp]. by rewrite (proj2 (Z.leb_le lo b) H1), (proj2 (Z.leb_le b hi) H2).
Qed.
Lemma utf8_first b st r : utf8_start b = ([], st) → utf8_run utf8_ready (b :: r) = utf8_run st r.
Proof. intros H. cbn [utf8_run utf8_ready u_needed]. by rewrite H. Qed.
#[local] Ltac decide_if := rewrite ?andb_true_r, ?andb_false_r; match goal with |- context [if ?b then _ else _] =>
  first [replace b with true by (symmetry; euclid) | replace b with false by (symmetry; euclid)] end.
Lemma utf8_run_point p rest : is_scalar p → utf8_run utf8_ready (utf8_of_point p ++ rest) = p :: utf8_run utf8_ready rest.
Proof.
  intros Hp. unfold is_scalar in Hp. unfold utf8_of_point.
  destruct (p <? 128) eqn:E1; [| destruct (p <? 2048) eqn:E2; [| destruct (p <? 65536) eqn:E3]]; cbn [Datatypes.app].
  - cbn [utf8_run utf8_ready u_needed]. unfold utf8_start. by rewrite E1.
  - erewrite utf8_first by (unfold utf8_start; repeat decide_if; reflexivity). rewrite utf8_last by euclid. f_equal. euclid.
  - erewrite utf8_first by (unfold utf8_start; do 3 decide_if; reflexivity).
    rewrite utf8_more by (split; [destruct (_ =? 224) eqn:E | destruct (_ =? 237) eqn:E]; euclid). rewrite utf8_last by euclid. f_equal. euclid.
  - erewrite utf8_first by (unfold utf8_start; do 4 decide_if; reflexivity).
    rewrite utf8_more by (split; [destruct (_ =? 240) eqn:E | destruct (_ =? 244) eqn:E]; euclid).
    rewrite utf8_more, utf8_last by euclid. f_equal. euclid.
Qed.
Lemma utf8_run_points ps : Forall is_scalar ps → utf8_run utf8_ready (flat_map utf8_of_point ps) = ps.
Proof. induction 1 as [|p ps Hp Hps IH]; [done |]. cbn [flat_map]. by rewrite utf8_run_point, IH. Qed.

(** Every surrogate of the text belongs to a pair. *)
Fixpoint paired (l : list N) : bool :=
  match l with
  | [] => true
  | u :: r =>
    match r with
    | v :: r' => if is_high u && is_low v then paired r' else negb (is_high u || is_low u) && paired r
    | [] => negb (is_high u || is_low u)
    end
  end.
Lemma list_pair_ind {A} (P : list A → Prop) : P [] → (∀ a, P [a]) → (∀ a b r, P r → P (b :: r) → P (a :: b :: r)) → ∀ l, P l.
Proof.
  intros H0 H1 H2 l. enough (P l ∧ ∀ a, P (a :: l)) by tauto. induction l as [|b l [IH1 IH2]]; [by split; auto |]. split; [auto |].
  intros a. apply H2; auto.
Qed.
Lemma paired_app a b : paired a = true → paired b = true → paired (a ++ b) = true.
Proof.
  revert a. apply (list_pair_ind (λ a, paired a = true → paired b = true → paired (a ++ b) = true)); [done | |].
  - intros u Hu Hb. cbn [paired] in Hu. apply negb_true_iff in Hu. pose proof Hu as Hu'. apply orb_false_iff in Hu' as [Hh _].
    destruct b as [|v b]; [by cbn; rewrite Hu |]. change (paired ([u] ++ v :: b)) with (if is_high u && is_low v then paired b else negb (is_high u || is_low u) && paired (v :: b)).
    by rewrite Hu, Hh, Hb.
  - intros u v r IH1 IH2 Ha Hb. cbn [Datatypes.app]. change (paired (u :: v :: r ++ b)) with
      (if is_high u && is_low v then paired (r ++ b) else negb (is_high u || is_low u) && paired ((v :: r) ++ b)).
    change (paired (u :: v :: r)) with (if is_high u && is_low v then paired r else negb (is_high u || is_low u) && paired (v :: r)) in Ha.
    destruct (is_high u && is_low v); [by apply IH1 |]. apply andb_true_iff in Ha as [-> Ha]. by apply IH2.
Qed.
Lemma paired_plain l : forallb (λ u, negb (is_high u || is_low u)) l = true → paired l = true.
Proof.
  induction l as [|u l IH]; [done |]. cbn [forallb]. intros [Hu Hl]%andb_true_iff. change (u :: l) with ([u] ++ l). apply paired_app; [exact Hu | by apply IH].
Qed.
Lemma paired_points l :
  paired l = true → Forall is_unit l →
  Forall is_scalar (map scalar (js_points l)) ∧ flat_map utf16_of_point (map Z.to_N (map scalar (js_points l))) = l.
Proof.
  revert l. apply (list_pair_ind (λ l, paired l = true → Forall is_unit l → Forall is_scalar (map scalar (js_points l)) ∧
    flat_map utf16_of_point (map Z.to_N (map scalar (js_points l))) = l)); [done | |].
  - intros u Hu Hl. cbn [paired js_points map flat_map] in *. apply Forall_cons in Hl as [Hl _]. apply negb_true_iff in Hu.
    unfold scalar. rewrite Hu, N2Z.id. unfold utf16_of_point, is_unit, is_high, is_low in *. rewrite (proj2 (N.ltb_lt u 65536)) by lia.
    split; [apply Forall_singleton; unfold is_scalar; zlia | done].
  - intros u v r IH1 IH2 Hp Hl. change (paired (u :: v :: r)) with (if is_high u && is_low v then paired r else negb (is_high u || is_low u) && paired (v :: r)) in Hp.
    change (js_points (u :: v :: r)) with (if is_high u && is_low v then ((u - 55296) * 1024 + (v - 56320) + 65536)%N :: js_points r else u :: js_points (v :: r)).
    apply Forall_cons in Hl as [Hu Hl]. destruct (is_high u && is_low v) eqn:E.
    + apply Forall_cons in Hl as [Hv Hl]. destruct (IH1 Hp Hl) as [H1 H2]. cbn [map flat_map]. rewrite H2. apply andb_true_iff in E as [Eh El].
      unfold is_high, is_low in Eh, El. set (p := ((u - 55296) * 1024 + (v - 56320) + 65536)%N).
      assert (Hs : scalar p = Z.of_N p) by (unfold scalar, is_high, is_low; replace (_ || _) with false; [done |]; subst p; zlia).
      rewrite Hs, N2Z.id. split; [constructor; [unfold is_scalar; subst p; zlia | done] |].
      unfold utf16_of_point. rewrite (proj2 (N.ltb_ge p 65536)) by (subst p; lia). cbn [Datatypes.app]. f_equal; [| f_equal]; subst p; neuclid.
    + apply andb_true_iff in Hp as [Hn Hp]. destruct (IH2 Hp Hl) as [H1 H2]. cbn [map flat_map]. rewrite H2. apply negb_true_iff in Hn.
      unfold scalar at 1 3. rewrite Hn, N2Z.id. unfold utf16_of_point, is_unit, is_high, is_low in *. rewrite (proj2 (N.ltb_lt u 65536)) by done.
      split; [constructor; [unfold is_scalar; zlia | done] | done].
Qed.
Lemma utf8_of_point_bytes p : is_scalar p → Forall is_byte (utf8_of_point p).
Proof.
  unfold is_scalar, utf8_of_point. intros Hp. destruct (p <? 128) eqn:E1; [| destruct (p <? 2048) eqn:E2; [| destruct (p <? 65536) eqn:E3]];
    repeat (apply Forall_cons_2; [unfold is_byte; euclid |]); constructor.
Qed.
Lemma utf8_points_flat l : utf8 (JS l) = flat_map utf8_of_point (map scalar (js_points l)).
Proof. unfold utf8. cbn [units]. generalize (js_points l). intros l0. induction l0 as [|x l0 IH]; cbn; [done | by rewrite IH]. Qed.
Lemma utf8_bytes l : paired l = true → Forall is_unit l → Forall is_byte (utf8 (JS l)).
Proof.
  intros Hp Hu. destruct (paired_points l Hp Hu) as [Hs _]. rewrite utf8_points_flat. clear -Hs.
  induction Hs as [|p ps Hp Hs IH]; [constructor |]. cbn [flat_map]. apply Forall_app. split; [by apply utf8_of_point_bytes | done].
Qed.
(** A text without lone surrogates or leading byte order mark is decoded from its
    encoding. *)
Lemma utf8_decode_utf8 l :
  paired l = true → Forall is_unit l → hd_error l ≠ Some 65279%N → utf8_decode (utf8 (JS l)) = JS l.
Proof.
  intros Hp Hu Hb. destruct (paired_points l Hp Hu) as [Hs Hl]. unfold utf8_decode. rewrite utf8_points_flat.
  rewrite utf8_run_points by done. f_equal. rewrite <- Hl at 2.
  destruct (map Z.to_N _) as [|x xs] eqn:E; [done |]. destruct (decide (x = 65279%N)) as [-> | Hx].
  - exfalso. apply Hb. by rewrite <- Hl.
  - break_goal; try done; congruence.
Qed.

(** *** Base64 *)

Lemma list_ind3 {A} (P : list A → Prop) :
  P [] → (∀ a, P [a]) → (∀ a b, P [a; b]) → (∀ a b c r, P r → P (a :: b :: c :: r)) → ∀ l, P l.
Proof.
  intros H0 H1 H2 H3. fix IH 1. intros [|a [|b [|c r]]]; [done | apply H1 | apply H2 |]. apply H3, IH.
Qed.

(** The six-bit groups [btoa] prints. *)
Fixpoint sextets (bytes : list Z) : list Z :=
  match bytes with
  | a :: b :: c :: r => (a / 4) :: (a mod 4 * 16 + b / 16) :: (b mod 16 * 4 + c / 64) :: (c mod 64) :: sextets r
  | [a; b] => [a / 4; a mod 4 * 16 + b / 16; b mod 16 * 4]
  | [a] => [a / 4; a mod 4 * 16]
  | [] => []
  end.
Definition pad_length (n : nat) : nat := ((4 - n mod 4) mod 4)%nat.
Definition is_sextet (v : Z) : Prop := 0 ≤ v < 64.

Ltac bytes_arith :=
  repeat match goal with H : Forall is_byte (_ :: _) |- _ => apply Forall_cons in H as [? H] end;
  unfold is_byte, is_sextet in *; Z.to_euclidean_division_equations; lia.

Lemma sextets_range bytes : Forall is_byte bytes → Forall is_sextet (sextets bytes).
Proof.
  induction bytes as [|a|a b|a b c r IH] using list_ind3; intros H; cbn [sextets]; [done | | |].
  1,2: repeat constructor; bytes_arith.
  apply Forall_cons in H as [Ha H]. apply Forall_cons in H as [Hb H]. apply Forall_cons in H as [Hc H].
  repeat (apply Forall_cons; split; [bytes_arith |]). by apply IH.
Qed.

Lemma b64_bytes_sextets bytes : Forall is_byte bytes → b64_bytes (sextets bytes) = bytes.
Proof.
  induction bytes as [|a|a b|a b c r IH] using list_ind3; intros H; cbn [sextets b64_bytes]; [done | | |].
  1,2: repeat f_equal; bytes_arith.
  apply Forall_cons in H as [Ha H]. apply Forall_cons in H as [Hb H]. apply Forall_cons in H as [Hc H].
  rewrite (IH H). repeat f_equal; bytes_arith.
Qed.

Lemma btoa_sextets bytes :
  btoa bytes = map b64_char (sextets bytes) ++ replicate (pad_length (length (sextets bytes))) 61%N
  ∧ (length (sextets bytes) mod 4 ≠ 1)%nat.
Proof.
  induction bytes as [|a|a b|a b c r [IH1 IH2]] using list_ind3; cbn [btoa sextets]; [done..|].
  rewrite IH1. cbn [map Datatypes.app length].
  assert (Hm : (S (S (S (S (length (sextets r))))) mod 4 = length (sextets r) mod 4)%nat).
  { replace (S (S (S (S (length (sextets r)))))) with (length (sextets r) + 1 * 4)%nat by lia. apply Nat.Div0.mod_add. }
  unfold pad_length. rewrite Hm. done.
Qed.

Lemma b64_char_facts v :
  is_sextet v →
  b64_val (b64_char v) = Some v ∧ of_url (to_url (b64_char v)) = b64_char v
  ∧ b64_char v ≠ 61%N ∧ to_url (b64_char v) ≠ 61%N
  ∧ ((b64_char v =? 9) || (b64_char v =? 10) || (b64_char v =? 12) || (b64_char v =? 13) || (b64_char v =? 32))%N = false
  ∧ (to_url (b64_char v) <? 128)%N = true
  ∧ (is_alnum (to_url (b64_char v)) || (to_url (b64_char v) =? 45) || (to_url (b64_char v) =? 95))%N = true.
Proof.
  intros Hv. set (P := λ v, bool_decide (b64_val (b64_char v) = Some v) && bool_decide (of_url (to_url (b64_char v)) = b64_char v)
    && bool_decide (b64_char v ≠ 61%N) && bool_decide (to_url (b64_char v) ≠ 61%N)
    && negb ((b64_char v =? 9) || (b64_char v =? 10) || (b64_char v =? 12) || (b64_char v =? 13) || (b64_char v =? 32))%N
    && (to_url (b64_char v) <? 128)%N
    && (is_alnum (to_url (b64_char v)) || (to_url (b64_char v) =? 45) || (to_url (b64_char v) =? 95))%N).
  assert (Hall : forallb (λ n, P (Z.of_nat n)) (seq 0 64) = true) by (vm_compute; reflexivity).
  assert (Hp : P v = true).
  { rewrite forallb_true in Hall. specialize (Hall (Z.to_nat v)). unfold is_sextet in Hv. rewrite Z2Nat.id in Hall by lia.
    apply Hall, elem_of_seq. lia. }
  unfold P in Hp. rewrite !andb_true_iff, !bool_decide_eq_true, negb_true_iff in Hp. naive_solver.
Qed.

Lemma filter_none {A} (f : A → bool) l : (∀ x, x ∈ l → f x = true) → List.filter f l = l.
Proof.
  induction l as [|x l IH]; [done |]. intros H. cbn [List.filter]. rewrite (H x) by left. f_equal. apply IH.
  intros y Hy. apply H. by right.
Qed.

Lemma strip_pad_replicate l k :
  (k = 0 ∨ k = 1 ∨ k = 2)%nat → (∀ u, u ∈ l → chr 61 u = false) → strip_pad (l ++ replicate k 61%N) = l.
Proof.
  intros Hk Hl. unfold strip_pad.
  assert (Hh : ∀ u r, rev l = u :: r → chr 61 u = false).
  { intros u r E. apply Hl, list_elem_of_In, in_rev. rewrite E. by left. }
  assert (Hr : ∀ u r, rev l = u :: r → rev (u :: r) = l) by (intros u r <-; apply rev_involutive).
  destruct Hk as [-> | [-> | ->]]; cbn [replicate]; rewrite ?app_nil_r, ?rev_app_distr; cbn [rev Datatypes.app].
  - destruct (rev l) as [|u r]; [done |]. by rewrite (Hh u r).
  - change (chr 61 61) with true. cbv iota. destruct (rev l) as [|u r] eqn:E.
    + by rewrite <- (rev_involutive l), E.
    + rewrite (Hh u r) by done. by apply Hr.
  - change (chr 61 61) with true. cbv iota. apply rev_involutive.
Qed.

(** Padded to a multiple of four, the characters of sextets decode to them. *)
Lemma atob_sextets vs :
  Forall is_sextet vs → (length vs mod 4 ≠ 1)%nat →
  atob (map b64_char vs ++ replicate (pad_length (length vs)) 61%N) = Some (b64_bytes vs).
Proof.
  intros Hvs Hm. unfold atob. rewrite filter_none.
  2:{ intros x Hx. apply elem_of_app in Hx as [Hx | Hx].
      - apply list_elem_of_fmap in Hx as (v & -> & Hv). rewrite Forall_forall in Hvs.
        destruct (b64_char_facts v (Hvs v Hv)) as (_ & _ & _ & _ & -> & _). done.
      - apply elem_of_replicate in Hx as [-> _]. done. }
  assert (Hl : ((length (map b64_char vs ++ replicate (pad_length (length vs)) 61%N)) mod 4 = 0)%nat).
  { rewrite length_app, length_map, length_replicate. unfold pad_length.
    pose proof (Nat.mod_upper_bound (length vs) 4 ltac:(lia)) as Hb. rewrite (Nat.div_mod_eq (length vs) 4) at 1.
    set (q := (length vs / 4)%nat). set (r := (length vs mod 4)%nat) in *.
    assert (Hr : r = 0%nat ∨ r = 2%nat ∨ r = 3%nat) by lia.
    destruct Hr as [-> | [-> | ->]].
    - replace (4 * q + 0 + (4 - 0) mod 4)%nat with (0 + q * 4)%nat by (simpl; lia). by rewrite Nat.Div0.mod_add.
    - replace (4 * q + 2 + (4 - 2) mod 4)%nat with (0 + (q + 1) * 4)%nat by (simpl; lia). by rewrite Nat.Div0.mod_add.
    - replace (4 * q + 3 + (4 - 3) mod 4)%nat with (0 + (q + 1) * 4)%nat by (simpl; lia). by rewrite Nat.Div0.mod_add. }
  rewrite Hl, Nat.eqb_refl.
  assert (Hstrip : strip_pad (map b64_char vs ++ replicate (pad_length (length vs)) 61%N) = map b64_char vs).
  { assert (Hk : pad_length (length vs) = 0%nat ∨ pad_length (length vs) = 1%nat ∨ pad_length (length vs) = 2%nat).
    { unfold pad_length. pose proof (Nat.mod_upper_bound (length vs) 4 ltac:(lia)).
      destruct (length vs mod 4)%nat as [|[|[|[|k]]]]; simpl; lia. }
    apply strip_pad_replicate; [done |]. intros u Hu. apply list_elem_of_fmap in Hu as (v & -> & Hv).
    rewrite Forall_forall in Hvs. apply N.eqb_neq. apply (b64_char_facts v (Hvs v Hv)). }
  rewrite Hstrip, length_map. rewrite (proj2 (Nat.eqb_neq _ _) Hm).
  assert (Hv : mapM b64_val (map b64_char vs) = Some vs); [| by rewrite Hv].
  clear Hl Hstrip Hm. induction Hvs as [|v vs Hv Hvs IH]; [done |]. cbn [map mapM].
  destruct (b64_char_facts v Hv) as (-> & _). unfold mapM in IH. cbn. unfold mapM. by rewrite IH.
Qed.

Lemma atob_btoa bytes : Forall is_byte bytes → atob (btoa bytes) = Some bytes.
Proof.
  intros Hb. destruct (btoa_sextets bytes) as [-> Hm]. rewrite atob_sextets by (done || by apply sextets_range).
  by rewrite b64_bytes_sextets.
Qed.

Lemma drop_while_app_all {A} (f : A → bool) l1 l2 :
  (∀ x, x ∈ l1 → f x = true) → drop_while f (l1 ++ l2) = drop_while f l2.
Proof.
  induction l1 as [|x l1 IH]; [done |]. intros H. cbn [Datatypes.app drop_while]. rewrite (H x) by left.
  apply IH. intros y Hy. apply H. by right.
Qed.

Lemma base64url_units bytes :
  Forall is_byte bytes → units (base64url bytes) = map (λ v, to_url (b64_char v)) (sextets bytes).
Proof.
  intros Hb. unfold base64url. cbn [units]. destruct (btoa_sextets bytes) as [-> _].
  rewrite map_app, map_map. set (k := pad_length _). unfold drop_while_end. rewrite rev_app_distr.
  rewrite drop_while_app_all.
  2:{ intros x Hx. rewrite <- list_elem_of_In, <- in_rev in Hx || apply list_elem_of_In, in_rev in Hx.
      apply list_elem_of_In, list_elem_of_fmap in Hx as (y & -> & Hy). apply elem_of_replicate in Hy as [-> _]. done. }
  assert (Hd : drop_while (chr 61) (rev (map (λ v, to_url (b64_char v)) (sextets bytes)))
               = rev (map (λ v, to_url (b64_char v)) (sextets bytes))); [| by rewrite Hd, rev_involutive].
  rewrite <- map_rev. pose proof (sextets_range bytes Hb) as Hs. destruct (rev (sextets bytes)) as [|v r] eqn:E; [done |].
  assert (Hin : v ∈ sextets bytes) by (apply list_elem_of_In, in_rev; rewrite E; by left).
  rewrite Forall_forall in Hs. destruct (b64_char_facts v (Hs v Hin)) as (_ & _ & _ & Hn & _).
  cbn [map drop_while]. unfold chr. by rewrite (proj2 (N.eqb_neq _ _) Hn).
Qed.

(** Undoing the substitution and padding again, [atob] reads the bytes back. *)
Lemma atob_base64url bytes :
  Forall is_byte bytes →
  atob (map of_url (units (base64url bytes)) ++ replicate (pad_length (length (units (base64url bytes)))) 61%N) = Some bytes.
Proof.
  intros Hb. rewrite base64url_units by done. rewrite map_map, length_map.
  assert (Hm : map (λ v, of_url (to_url (b64_char v))) (sextets bytes) = map b64_char (sextets bytes)).
  { apply map_ext_in. intros v Hv. apply list_elem_of_In in Hv. pose proof (sextets_range bytes Hb) as Hs.
    rewrite Forall_forall in Hs. apply (b64_char_facts v (Hs v Hv)). }
  rewrite Hm, atob_sextets by (apply btoa_sextets || by apply sextets_range). by rewrite b64_bytes_sextets.
Qed.

Lemma map_of_N_inj a b : map Z.of_N a = map Z.of_N b → a = b.
Proof.
  revert b. induction a as [|x a IH]; intros [|y b] H; try done. cbn [map] in H. injection H as Hx Hr.
  f_equal; [lia | by apply IH].
Qed.

Lemma base64url_nonempty bytes : Forall is_byte bytes → bytes ≠ [] → nonempty (base64url bytes) = true.
Proof.
  intros Hb Hne. apply nonempty_true. intros E. apply (f_equal units) in E. rewrite base64url_units in E by done.
  change (units "") with (@nil N) in E. destruct bytes as [|a [|b [|c r]]]; done.
Qed.

Lemma base64url_no_dot bytes : Forall is_byte bytes → forallb (λ u, negb (chr 46 u)) (units (base64url bytes)) = true.
Proof.
  intros Hb. rewrite base64url_units by done. apply forallb_true. intros x (v & -> & Hv)%list_elem_of_fmap.
  pose proof (sextets_range bytes Hb) as Hs. rewrite Forall_forall in Hs.
  destruct (b64_char_facts v (Hs v Hv)) as (_ & _ & _ & _ & _ & _ & Hc). unfold chr. destruct (N.eqb_spec (to_url (b64_char v)) 46) as [E|]; [| done].
  by rewrite E in Hc.
Qed.

(** *** Hexadecimal text *)

Lemma hex_byte_lower b : is_byte b → forallb is_hex_lower (units (hex_byte b)) = true ∧ length (units (hex_byte b)) = 2%nat.
Proof.
  intros Hb. split; [| done]. assert (Hall : forallb (λ n, forallb is_hex_lower (units (hex_byte (Z.of_nat n)))) (seq 0 256) = true)
    by (vm_compute; reflexivity).
  rewrite forallb_true in Hall. specialize (Hall (Z.to_nat b)). unfold is_byte in Hb. rewrite Z2Nat.id in Hall by lia.
  apply Hall, elem_of_seq. lia.
Qed.

Lemma hex_bytes_lower l :
  Forall is_byte l → forallb is_hex_lower (flat_map (λ b, units (hex_byte b)) l) = true
    ∧ length (flat_map (λ b, units (hex_byte b)) l) = (2 * length l)%nat.
Proof.
  induction 1 as [|b l Hb Hl [IH1 IH2]]; [done |]. destruct (hex_byte_lower b Hb) as [H1 H2]. cbn [flat_map].
  rewrite forallb_app, length_app, H1, IH1, H2, IH2. split; [done | simpl; lia].
Qed.
