(* ===== verification/JsDate.v ===== *)
(** * Dates

    Times are integers of milliseconds since the epoch.  [toISOString] is
    computed; [Date.parse] accepts implementation-defined formats besides ISO
    8601, so it is a parameter [Date_parse : jstr -> option Z] of the
    definitions that call it ([None] is [NaN]). *)

From S2P Require Import Prelude JsStr JsNum.
#[local] Open Scope Z_scope.

Definition pad (n : nat) (z : Z) : jstr :=
  let ds := dec_nat z in JS (replicate (n - length ds) 48%N ++ ds).

(** Year, month and day of a day number (1970-01-01 is day 0), proleptic
    Gregorian calendar: years of 400-year eras counted from March. *)
Definition civil (days : Z) : Z * Z * Z :=
  let z := days + 719468 in
  let era := z / 146097 in
  let doe := z mod 146097 in
  let yoe := (doe - doe / 1460 + doe / 36524 - doe / 146096) / 365 in
  let doy := doe - (365 * yoe + yoe / 4 - yoe / 100) in
  let mp := (5 * doy + 2) / 153 in
  let d := doy - (153 * mp + 2) / 5 + 1 in
  let m := if mp <? 10 then mp + 3 else mp - 9 in
  (yoe + era * 400 + (if m <=? 2 then 1 else 0), m, d).

Definition iso_year (y : Z) : jstr :=
  if (0 <=? y) && (y <=? 9999) then pad 4 y
  else (if y <? 0 then "-" else "+") +++ pad 6 (Z.abs y).

(** [new Date(ms).toISOString()] for a time in the ECMAScript range. *)
Definition iso_string (ms : Z) : jstr :=
  let day := ms / 86400000 in
  let t := ms mod 86400000 in
  let '(y, m, d) := civil day in
  iso_year y +++ "-" +++ pad 2 m +++ "-" +++ pad 2 d +++ "T"
  +++ pad 2 (t / 3600000) +++ ":" +++ pad 2 (t / 60000 mod 60) +++ ":"
  +++ pad 2 (t / 1000 mod 60) +++ "." +++ pad 3 (t mod 1000) +++ "Z".

Example iso_epoch : iso_string 0 = "1970-01-01T00:00:00.000Z".
Proof. vm_compute. reflexivity. Qed.
Example iso_leap : iso_string 1709210096789 = "2024-02-29T12:34:56.789Z".
Proof. vm_compute. reflexivity. Qed.
