(* ===== verification/Net.v ===== *)
(** * Network addresses

    [worker/src/utils/request-ip.ts], the WHATWG [URL] record the validators
    read, and the specification they are checked against: IPv4 addresses as
    32-bit integers and CIDR blocks. *)

From S2P Require Import Prelude JsStr JsNum JsVal.
#[local] Open Scope Z_scope.

(** ** URLs

    The URL parser is the platform's, so it is a parameter [URL] of every
    definition that calls [new URL(s)]; [None] is the thrown [TypeError]. *)
Record url := {
  protocol : jstr; username : jstr; password : jstr; hostname : jstr; port : jstr;
  pathname : jstr; search : jstr; hash : jstr; href : jstr; origin : jstr
}.

(** ** IPv4 addresses and CIDR blocks *)

Definition ipv4_value (o : list Z) : option Z :=
  match o with
  | [a; b; c; d] => Some (a * 16777216 + b * 65536 + c * 256 + d)
  | _ => None
  end.
Definition is_octet (z : Z) : Prop := 0 ≤ z ≤ 255.
(** [(base, len)]: the addresses sharing the first [len] bits of [base]. *)
Definition in_cidr (addr : Z) (block : Z * Z) : bool :=
  Z.shiftr addr (32 - block.2) =? Z.shiftr block.1 (32 - block.2).
Definition cidr (a b c d len : Z) : Z * Z := (a * 16777216 + b * 65536 + c * 256 + d, len).
Definition in_cidrs (addr : Z) (blocks : list (Z * Z)) : bool := existsb (in_cidr addr) blocks.

(** [0.0.0.0/8], private networks, loopback, CGNAT, link local and everything
    from multicast upwards. *)
Definition private_blocks : list (Z * Z) :=
  [cidr 0 0 0 0 8; cidr 10 0 0 0 8; cidr 127 0 0 0 8; cidr 100 64 0 0 10;
   cidr 169 254 0 0 16; cidr 172 16 0 0 12; cidr 192 168 0 0 16; cidr 224 0 0 0 3].
(** IETF protocol assignments, documentation and benchmarking networks. *)
Definition special_blocks : list (Z * Z) :=
  [cidr 192 0 0 0 24; cidr 192 0 2 0 24; cidr 198 18 0 0 15; cidr 198 51 100 0 24;
   cidr 203 0 113 0 24].

(** Membership in a block of each length, as comparisons of octets. *)
Section Cidr.
Context (a b c d v : Z).
Context (Ha : is_octet a) (Hb : is_octet b) (Hc : is_octet c) (Hd : is_octet d).
Context (Hv : ipv4_value [a; b; c; d] = Some v).

Ltac solve_cidr :=
  revert Ha Hb Hc Hd Hv; unfold is_octet; simpl; intros Ha' Hb' Hc' Hd' [= <-];
  unfold in_cidr, cidr; simpl fst; simpl snd;
  rewrite !Z.shiftr_div_pow2 by lia;
  apply eq_true_iff_eq; rewrite ?orb_true_iff, ?andb_true_iff, ?orb_true_iff, ?Z.eqb_eq, ?Z.leb_le;
  repeat match goal with |- context [2 ^ ?n] =>
    let w := eval vm_compute in (2 ^ n) in change (2 ^ n) with w end;
  Z.to_euclidean_division_equations; lia.

Lemma cidr_8 A : is_octet A → in_cidr v (cidr A 0 0 0 8) = (a =? A).
Proof. unfold is_octet at 1. intros HA. solve_cidr. Qed.
Lemma cidr_16 A B : is_octet A → is_octet B → in_cidr v (cidr A B 0 0 16) = ((a =? A) && (b =? B)).
Proof. unfold is_octet at 1 2. intros HA HB. solve_cidr. Qed.
Lemma cidr_24 A B C :
  is_octet A → is_octet B → is_octet C →
  in_cidr v (cidr A B C 0 24) = ((a =? A) && (b =? B) && (c =? C)).
Proof. unfold is_octet at 1 2 3. intros HA HB HC. solve_cidr. Qed.
Lemma cidr_cgnat : in_cidr v (cidr 100 64 0 0 10) = ((a =? 100) && (64 <=? b) && (b <=? 127)).
Proof. solve_cidr. Qed.
Lemma cidr_172 : in_cidr v (cidr 172 16 0 0 12) = ((a =? 172) && (16 <=? b) && (b <=? 31)).
Proof. solve_cidr. Qed.
Lemma cidr_198 : in_cidr v (cidr 198 18 0 0 15) = ((a =? 198) && ((b =? 18) || (b =? 19))).
Proof. solve_cidr. Qed.
Lemma cidr_224 : in_cidr v (cidr 224 0 0 0 3) = (224 <=? a).
Proof. solve_cidr. Qed.
End Cidr.

Ltac pick_or := first [assumption | left; pick_or | right; pick_or].

(** A disjunction of octet comparisons is membership in the listed blocks. *)
Ltac cidr_rewrite Ha Hb Hc Hd Hv :=
  unfold in_cidrs, private_blocks, special_blocks; cbn [existsb Datatypes.app];
  rewrite ?(cidr_cgnat _ _ _ _ _ Ha Hb Hc Hd Hv), ?(cidr_172 _ _ _ _ _ Ha Hb Hc Hd Hv),
    ?(cidr_198 _ _ _ _ _ Ha Hb Hc Hd Hv), ?(cidr_224 _ _ _ _ _ Ha Hb Hc Hd Hv);
  rewrite ?(cidr_8 _ _ _ _ _ Ha Hb Hc Hd Hv), ?(cidr_16 _ _ _ _ _ Ha Hb Hc Hd Hv),
    ?(cidr_24 _ _ _ _ _ Ha Hb Hc Hd Hv) by (unfold is_octet; lia).
Ltac cidr_solve Ha Hb Hc Hd Hv :=
  cidr_rewrite Ha Hb Hc Hd Hv;
  rewrite ?orb_false_r; apply eq_true_iff_eq; rewrite !orb_true_iff;
  let Hx := fresh in split; intros Hx; decompose_or Hx; pick_or.

(** ** [request-ip.ts] *)

(** @worker/src/utils/request-ip.ts:7-10 getCloudflareClientIp -- the argument
    is the value of the [CF-Connecting-IP] header, if present. *)
Definition getCloudflareClientIp (header : option jstr) (fallback : jstr) : jstr :=
  let ip := trim (default "" header) in
  slice_to 128 (or_str ip fallback).

(** @worker/src/utils/request-ip.ts:12-17 parseIpv4 *)
Definition parseIpv4 (ip : jstr) : option (list Z) :=
  let parts := split_on (chr 46) (trim ip) in
  if negb (length parts =? 4)%nat then None
  else
    let nums := map str_num parts in
    if forallb (λ n, is_integer n && num_le 0 n && num_le n 255) nums
    then mapM num_Z nums else None.

(** The address ranges refused by the dotted-quad branch. *)
Definition is_reserved_v4 (a b c : Z) : bool :=
  (a =? 0) || (a =? 10) || (a =? 127) || (224 <=? a)
  || ((a =? 100) && (64 <=? b) && (b <=? 127))
  || ((a =? 169) && (b =? 254))
  || ((a =? 172) && (16 <=? b) && (b <=? 31))
  || ((a =? 192) && (b =? 0))
  || ((a =? 192) && (b =? 168))
  || ((a =? 198) && ((b =? 18) || (b =? 19)))
  || ((a =? 198) && (b =? 51) && (c =? 100))
  || ((a =? 203) && (b =? 0) && (c =? 113)).

(** [s.replace(/^\[|\]$/g, '')] *)
Definition drop_head (c : N) (l : list N) : list N :=
  match l with u :: r => if (u =? c)%N then r else l | [] => [] end.
Definition strip_brackets (s : jstr) : jstr :=
  JS (rev (drop_head 93 (rev (drop_head 91 (units s))))).

(** [/^\d{1,3}(?:\.\d{1,3}){3}$/] *)
Definition is_dotted_digits (s : jstr) : bool :=
  let parts := split_on (chr 46) s in
  (length parts =? 4)%nat && forallb (λ p, all_units1 is_digit p && (slen p <=? 3)) parts.

(** [ip.match(/(?:^|:)ffff:(\d{1,3}(?:\.\d{1,3}){3})$/)?.[1]]: the capture has
    no colon, so the colon before it is the last one of the text. *)
Definition mapped_ipv4 (ip : jstr) : option jstr :=
  match rev (split_on (chr 58) ip) with
  | tail :: seg :: _ => if jeq seg "ffff" && is_dotted_digits tail then Some tail else None
  | _ => None
  end.

(** [Number.parseInt(s, 16)]: white space, a sign and [0x] are skipped, then
    the longest run of hexadecimal digits is read; [None] is [NaN].  A run
    beyond 2^53 is not rounded here. *)
Definition parse_int16 (s : jstr) : option Z :=
  let l := drop_while is_space (units s) in
  let '(neg, l) := match l with 45%N :: r => (true, r) | 43%N :: r => (false, r) | _ => (false, l) end in
  let l := match l with 48%N :: 120%N :: r | 48%N :: 88%N :: r => r | _ => l end in
  let ds := take_while is_hex l in
  if bool_decide (ds = []) then None
  else Some ((if neg : bool then -1 else 1) * digits_val 16 hex_val ds).

(** @worker/src/utils/request-ip.ts:19-54 isPublicIpAddress -- the source calls
    itself on the address embedded in an IPv4-mapped one; an embedded address
    has no colon, so the recursion is at most two deep ([fuel_enough]). *)
Fixpoint is_public (fuel : nat) (value : jstr) : bool :=
  match fuel with
  | O => false
  | S k =>
    let ip := lower (strip_brackets (trim value)) in
    if negb (nonempty ip) then false
    else match parseIpv4 ip with
    | Some v4 => match v4 with [a; b; c; _] => negb (is_reserved_v4 a b c) | _ => false end
    | None =>
      if negb (includes ":" ip) then false
      else match mapped_ipv4 ip with
      | Some mapped => is_public k mapped
      | None =>
        let first := List.find nonempty (split_on (chr 58) ip) in
        match (match first with Some f => parse_int16 f | None => Some 0 end) with
        | None => false
        | Some h =>
          negb (jeq ip "::" || jeq ip "::1"
                || (Z.land h 65024 =? 64512) || (Z.land h 65472 =? 65152)
                || (Z.land h 65280 =? 65280) || starts_with "2001:db8:" ip)
          && (8192 <=? h) && (h <=? 16383)
        end
      end
    end
  end.
Definition isPublicIpAddress (value : jstr) : bool := is_public 2 value.

(** ** Shared patterns of the host validators *)

(** [s.replace(/\.$/, '')] *)
Definition strip_dot (s : jstr) : jstr := JS (rev (drop_head 46 (rev (units s)))).
(** [/^(0|[1-9]\d{0,2})$/] *)
Definition is_dec_octet (part : jstr) : bool :=
  match units part with
  | [u] => is_digit u
  | u :: r => is_digit u && negb (u =? 48)%N && forallb is_digit r && (length r <=? 2)%nat
  | [] => false
  end.
(** [Number(part)] of a part of at most three decimal digits. *)
Definition octet_number (part : jstr) : Z := digits_val 10 digit_val (units part).

(** [/^(0|[1-9]\d{0,2})(\.(0|[1-9]\d{0,2})){3}$/] followed by the range test, the
    [parseIPv4] of two files. *)
Definition parse_dotted_quad (host : jstr) : option (list Z) :=
  let parts := split_on (chr 46) host in
  if (length parts =? 4)%nat && forallb is_dec_octet parts then
    let octets := map octet_number parts in
    if forallb (λ part, (0 <=? part) && (part <=? 255)) octets then Some octets else None
  else None.

(** [/^(0x[0-9a-f]+|\d+)$/i] and [/^0x/i] *)
Definition has_0x (part : jstr) : bool :=
  match units part with
  | u :: v :: _ => (u =? 48)%N && ((v =? 120)%N || (v =? 88)%N)
  | _ => false
  end.
Definition is_numeric_part (part : jstr) : bool :=
  (has_0x part && all_units1 is_hex (slice_from 2 part)) || all_units1 is_digit part.

(** The host is made of one to four numeric parts, but is not a plain dotted
    quad: a form some parser would read as an IPv4 address.  The same text
    appears in three files, each with its own [parseIpv4]. *)
Definition ambiguous_numeric_host (parse : jstr → option (list Z)) (host : jstr) : bool :=
  if includes ":" host then false
  else
    let parts := split_on (chr 46) host in
    if (length parts <? 1)%nat || (4 <? length parts)%nat then false
    else if negb (forallb is_numeric_part parts) then false
    else if negb (length parts =? 4)%nat then true
    else existsb (λ part, has_0x part || ((1 <? slen part) && starts_with "0" part)) parts
         || match parse host with None => true | Some _ => false end.

(** ** Facts *)

(** A comparison chain over the octets is membership in the CIDR blocks. *)
Lemma reserved_v4_cidr a b c d v :
  is_octet a → is_octet b → is_octet c → is_octet d →
  ipv4_value [a; b; c; d] = Some v →
  is_reserved_v4 a b c
  = in_cidrs v (private_blocks ++ [cidr 192 0 0 0 16; cidr 198 18 0 0 15;
                                   cidr 198 51 100 0 24; cidr 203 0 113 0 24]).
Proof. intros Ha Hb Hc Hd Hv. unfold is_reserved_v4. cidr_solve Ha Hb Hc Hd Hv. Qed.

Lemma mapM_num_Z l zs : mapM num_Z l = Some zs → Forall2 (λ n z, num_Z n = Some z) l zs.
Proof. apply mapM_Some. Qed.

Lemma public_ipv4_octets s o :
  parseIpv4 s = Some o → ∃ a b c d, o = [a; b; c; d] ∧ is_octet a ∧ is_octet b ∧ is_octet c ∧ is_octet d.
Proof.
  unfold parseIpv4. intros H. destruct (length _ =? 4)%nat eqn:El; simpl in H; [| done].
  destruct (forallb _ _) eqn:Ef; [| done].
  apply Nat.eqb_eq in El. pose proof (mapM_num_Z _ _ H) as HF.
  assert (Hall : Forall is_octet o).
  { rewrite forallb_forall in Ef. apply Forall_forall. intros z Hz.
    apply list_elem_of_lookup in Hz as [i Hi].
    destruct (Forall2_lookup_r _ _ _ _ _ HF Hi) as (n & Hn & HnZ).
    assert (HIn : In n (map str_num (split_on (chr 46) (trim s)))).
    { apply list_elem_of_In, list_elem_of_lookup. eauto. }
    specialize (Ef _ HIn). rewrite !andb_true_iff in Ef. destruct Ef as [[_ H0] H1].
    rewrite (num_le_Z _ _ 0 z (num_Z_of_Z 0) HnZ) in H0.
    rewrite (num_le_Z _ _ z 255 HnZ (num_Z_of_Z 255)) in H1. unfold is_octet. zlia. }
  apply Forall2_length in HF. rewrite length_map, El in HF.
  destruct o as [|a [|b [|c [|d [|]]]]]; try discriminate HF.
  exists a, b, c, d. by repeat match goal with H : Forall _ (_ :: _) |- _ => inversion_clear H end.
Qed.

(** *** The recursion of [isPublicIpAddress] *)

(** Code units of dotted decimal text. *)
Definition dot_digit (u : N) : bool := is_digit u || (u =? 46)%N.

Lemma split_units_forall (f P : N → bool) cur l :
  forallb (forallb P) (split_units f cur l) = true →
  forallb P cur = true ∧ forallb (λ u, P u || f u) l = true.
Proof.
  revert cur. induction l as [|u r IH]; intros cur; simpl.
  - rewrite andb_true_r, forallb_rev. done.
  - destruct (f u) eqn:E; simpl.
    + rewrite forallb_rev, andb_true_iff. intros [-> H]. destruct (IH [] H) as [_ ->].
      by rewrite orb_true_r.
    + intros H. destruct (IH _ H) as [Hc ->]. simpl in Hc. apply andb_true_iff in Hc as [-> ->]. done.
Qed.

Lemma is_dotted_digits_units s : is_dotted_digits s = true → forallb dot_digit (units s) = true.
Proof.
  unfold is_dotted_digits, split_on. intros [_ H]%andb_true_iff.
  apply (split_units_forall (chr 46) is_digit []).
  rewrite forallb_map_comp in H. rewrite forallb_forall in H |- *.
  intros x Hx. specialize (H x Hx). unfold all_units1, all_units in H. simpl in H. des. done.
Qed.

Lemma dot_digit_fixed u :
  dot_digit u = true → is_space u = false ∧ lower_unit u = [u] ∧ u ≠ 91%N ∧ u ≠ 93%N ∧ u ≠ 58%N.
Proof.
  unfold dot_digit. rewrite orb_true_iff, N.eqb_eq, is_digit_spec. intros H.
  assert (Hu : (46 ≤ u ≤ 57)%N) by lia. split; [| split].
  - unfold is_space. repeat (apply orb_false_iff; split);
      first [apply N.eqb_neq; lia | apply andb_false_iff; rewrite !N.leb_gt; lia].
  - unfold lower_unit. replace ((65 <=? u)%N) with false by (symmetry; apply N.leb_gt; lia). simpl.
    by rewrite !(proj2 (N.eqb_neq u _)) by lia.
  - lia.
Qed.

Lemma drop_head_id c l : (∀ u, u ∈ l → u ≠ c) → drop_head c l = l.
Proof.
  destruct l as [|u r]; [done |]. intros H. simpl.
  by rewrite (proj2 (N.eqb_neq u c)) by (apply H; left).
Qed.

Lemma strip_brackets_id l :
  (∀ u, u ∈ l → u ≠ 91%N ∧ u ≠ 93%N) → strip_brackets (JS l) = JS l.
Proof.
  intros H. unfold strip_brackets. simpl.
  rewrite (drop_head_id 91) by (intros; by apply H).
  rewrite drop_head_id, rev_involutive; [done |].
  intros u Hu. apply H. by apply list_elem_of_In, in_rev, list_elem_of_In.
Qed.

Lemma lower_id l : (∀ u, u ∈ l → lower_unit u = [u]) → lower (JS l) = JS l.
Proof.
  intros H. unfold lower. simpl. f_equal. induction l as [|u r IH]; [done |]. simpl.
  rewrite H by left. simpl. f_equal. apply IH. intros; apply H. by right.
Qed.

(** Dotted decimal text is its own normal form, and has no colon. *)
Lemma dotted_normal s :
  is_dotted_digits s = true →
  lower (strip_brackets (trim s)) = s ∧ includes ":" s = false.
Proof.
  intros H%is_dotted_digits_units. destruct s as [l]. simpl in H.
  rewrite forallb_forall in H.
  assert (Hall : ∀ u, u ∈ l → is_space u = false ∧ lower_unit u = [u]
                             ∧ u ≠ 91%N ∧ u ≠ 93%N ∧ u ≠ 58%N).
  { intros u Hu. apply dot_digit_fixed, H. by apply list_elem_of_In. }
  split.
  - rewrite trim_id by (apply forallb_forall; intros u Hu%list_elem_of_In;
                        apply negb_true_iff; by apply Hall).
    rewrite strip_brackets_id by (intros u Hu; split; by apply Hall).
    apply lower_id. intros u Hu. by apply Hall.
  - unfold includes. simpl. clear H. induction l as [|u r IH]; [done |]. simpl.
    destruct (Hall u) as (_ & _ & _ & _ & Hne); [left |].
    apply orb_false_iff. split; [| apply IH; intros; apply Hall; by right].
    change (match u with 0%N => false | N.pos q => (58 =? q)%positive end) with (58 =? u)%N.
    by rewrite (proj2 (N.eqb_neq 58 u)).
Qed.

Lemma mapped_ipv4_dotted ip t : mapped_ipv4 ip = Some t → is_dotted_digits t = true.
Proof. unfold mapped_ipv4. intros H. break_in H. des. done. Qed.

(** Two levels of recursion are enough: more fuel changes nothing. *)
Lemma is_public_fuel k v : is_public (2 + k) v = isPublicIpAddress v.
Proof.
  assert (Hin : ∀ j t, is_dotted_digits t = true → is_public (S j) t = is_public 1 t).
  { intros j t Ht. cbn [is_public]. destruct (dotted_normal t Ht) as [-> ->]. done. }
  unfold isPublicIpAddress. cbn [Nat.add]. remember (S k) as k1 eqn:Ek. remember 1%nat as k2 eqn:Ek2.
  cbn [is_public]. destruct (negb _); [done |]. destruct (parseIpv4 _); [done |].
  destruct (negb _); [done |]. destruct (mapped_ipv4 _) as [t|] eqn:E; [| done].
  apply mapped_ipv4_dotted in E. subst. by apply Hin.
Qed.

(** The dotted-quad branch, against the CIDR specification. *)
Lemma public_v4_spec ip o v :
  parseIpv4 (lower (strip_brackets (trim ip))) = Some o → ipv4_value o = Some v →
  nonempty (lower (strip_brackets (trim ip))) = true →
  isPublicIpAddress ip
  = negb (in_cidrs v (private_blocks ++ [cidr 192 0 0 0 16; cidr 198 18 0 0 15;
                                         cidr 198 51 100 0 24; cidr 203 0 113 0 24])).
Proof.
  intros Hp Hv Hne. destruct (public_ipv4_octets _ _ Hp) as (a & b & c & d & -> & Ha & Hb & Hc & Hd).
  unfold isPublicIpAddress. cbn [is_public]. rewrite Hne, Hp. cbn [negb].
  by rewrite (reserved_v4_cidr a b c d v).
Qed.

Lemma dec_octet_digits p : is_dec_octet p = true → forallb is_digit (units p) = true.
Proof.
  unfold is_dec_octet. destruct (units p) as [|u [|v r]]; [done | by cbn; intros -> |].
  intros H. apply andb_true_iff in H as [H _]. apply andb_true_iff in H as [H Hr].
  apply andb_true_iff in H as [Hu _]. change (is_digit u && forallb is_digit (v :: r) = true). by rewrite Hu, Hr.
Qed.

Lemma dot_digits_no_colon s : forallb dot_digit (units s) = true → includes ":" s = false.
Proof.
  unfold includes. induction (units s) as [|u r IH]; [done |].
  cbn [forallb]. intros [Hd Hr]%andb_true_iff. apply dot_digit_fixed in Hd as (_ & _ & _ & _ & Hne).
  simpl. apply orb_false_iff. split; [| by apply IH].
  change (match u with 0%N => false | N.pos q => (58 =? q)%positive end) with (58 =? u)%N.
  by rewrite (proj2 (N.eqb_neq 58 u)).
Qed.

(** A plain dotted quad has no colon. *)
Lemma dotted_quad_no_colon s o : parse_dotted_quad s = Some o → includes ":" s = false.
Proof.
  unfold parse_dotted_quad. intros H. destruct (_ && _) eqn:E; [| done]. apply andb_true_iff in E as [_ Hd].
  apply dot_digits_no_colon, (split_units_forall (chr 46) is_digit []).
  unfold split_on in Hd. rewrite forallb_map_comp in Hd. rewrite forallb_true in Hd |- *.
  intros p Hp. by apply (dec_octet_digits (JS p)), Hd.
Qed.

Lemma dotted_quad_octets s o :
  parse_dotted_quad s = Some o →
  ∃ a b c d, o = [a; b; c; d] ∧ is_octet a ∧ is_octet b ∧ is_octet c ∧ is_octet d.
Proof.
  unfold parse_dotted_quad. intros H. destruct (_ && _) eqn:E; [| done].
  destruct (forallb _ (map _ _)) eqn:Ef; [| done]. simplify_eq.
  apply andb_true_iff in E as [El%Nat.eqb_eq _].
  remember (map octet_number (split_on (chr 46) s)) as o eqn:Eo.
  assert (Hlen : length o = 4%nat) by (by rewrite Eo, length_map).
  rewrite forallb_true in Ef. clear Eo.
  destruct o as [|a [|b [|c [|d [|]]]]]; try discriminate Hlen. exists a, b, c, d.
  split; [done |]. unfold is_octet.
  pose proof (Ef a ltac:(left)) as H1. pose proof (Ef b ltac:(right; left)) as H2.
  pose proof (Ef c ltac:(right; right; left)) as H3.
  pose proof (Ef d ltac:(right; right; right; left)) as H4. zlia.
Qed.

(** [Number('')] is zero and [Number] reads hexadecimal, so texts that are no
    IPv4 address are taken for one. *)
Lemma odd_dotted_addresses : isPublicIpAddress "1.2.3." = true ∧ isPublicIpAddress "8.8.8.0x8" = true.
Proof. split; vm_compute; reflexivity. Qed.
