(* ===== verification/PingTask.v ===== *)
(** * Ping tasks: [worker/src/utils/ping-task.ts]

    Validation of a ping task submitted by the administrator: its name, type,
    target, interval and client list.  The target must not reach private,
    loopback or reserved addresses. *)

From S2P Require Import Prelude JsStr JsNum JsVal Net.
#[local] Open Scope Z_scope.

(** @worker/src/utils/ping-task.ts:3-3 PING_TASK_TYPES *)
Definition PING_TASK_TYPES : list jstr := ["icmp"; "tcp"; "http"].
(** @worker/src/utils/ping-task.ts:4-4 MIN_PING_INTERVAL_SEC *)
Definition MIN_PING_INTERVAL_SEC : Z := 60.
(** @worker/src/utils/ping-task.ts:5-5 MAX_PING_INTERVAL_SEC *)
Definition MAX_PING_INTERVAL_SEC : Z := 86400.
(** @worker/src/utils/ping-task.ts:6-6 MAX_PING_TASK_NAME_LENGTH *)
Definition MAX_PING_TASK_NAME_LENGTH : Z := 128.
(** @worker/src/utils/ping-task.ts:7-7 MAX_PING_TARGET_LENGTH *)
Definition MAX_PING_TARGET_LENGTH : Z := 512.
(** @worker/src/utils/ping-task.ts:8-8 MAX_PING_TASK_CLIENTS *)
Definition MAX_PING_TASK_CLIENTS : nat := 500.

(** The fields of the [PingTask] row that a validated input fills in. *)
Record ping_task := {
  pt_name : jstr; pt_clients : list jstr; pt_all_clients : bool;
  pt_type : jstr; pt_target : jstr; pt_interval_sec : num
}.
(** @worker/src/utils/ping-task.ts:12-14 ValidationResult *)
Inductive task_result := TaskOk (task : ping_task) | TaskErr (errors : list jstr).

(** @worker/src/utils/ping-task.ts:16-20 asObject *)
Definition asObject (value : jsval) : fields := as_object value.

(** @worker/src/utils/ping-task.ts:22-24 isPingTaskType *)
Definition isPingTaskType (value : jstr) : bool := mem value PING_TASK_TYPES.

(** @worker/src/utils/ping-task.ts:26-35 readBoolean *)
Definition readBoolean (value : jsval) (fallback : bool) : bool :=
  match value with
  | JBool b => b
  | JNum n => negb (num_eqb n 0)
  | JStr s =>
    let normalized := lower (trim s) in
    if jeq normalized "true" || jeq normalized "1" then true
    else if jeq normalized "false" || jeq normalized "0" then false
    else fallback
  | _ => fallback
  end.

(** @worker/src/utils/ping-task.ts:48-57 readStringArray (loop) -- [seen] holds
    the elements of [result], so one list stands for both. *)
Fixpoint read_strings (limit : nat) (result : list jstr) (source : list jsval) : list jstr :=
  match source with
  | [] => result
  | JStr item :: rest =>
    let text := trim item in
    if negb (nonempty text) || mem text result then read_strings limit result rest
    else
      let result := result ++ [text] in
      if (limit <=? length result)%nat then result else read_strings limit result rest
  | _ :: rest => read_strings limit result rest
  end.

(** @worker/src/utils/ping-task.ts:37-59 readStringArray *)
Definition readStringArray (value : jsval) : list jstr :=
  match (match value with JStr s => json_parse s | _ => Some value end) with
  | Some (JArr source) => read_strings MAX_PING_TASK_CLIENTS [] source
  | _ => []
  end.

(** @worker/src/utils/ping-task.ts:61-68 parseIpv4 *)
Definition parseIpv4 (host : jstr) : option (list Z) :=
  let parts := split_on (chr 46) host in
  if negb (length parts =? 4)%nat then None
  else if existsb (λ part, negb (is_dec_octet part)) parts then None
  else
    let octets := map octet_number parts in
    if existsb (λ octet, (octet <? 0) || (255 <? octet)) octets then None else Some octets.

(** @worker/src/utils/ping-task.ts:70-77 isAmbiguousNumericHost *)
Definition isAmbiguousNumericHost (host : jstr) : bool := ambiguous_numeric_host parseIpv4 host.

(** @worker/src/utils/ping-task.ts:79-93 isBlockedIpv4 *)
Definition isBlockedIpv4 (host : jstr) : bool :=
  match parseIpv4 host with
  | Some (a :: b :: _) =>
    (a =? 0)
    || (a =? 10)
    || (a =? 127)
    || ((a =? 100) && (64 <=? b) && (b <=? 127))
    || ((a =? 169) && (b =? 254))
    || ((a =? 172) && (16 <=? b) && (b <=? 31))
    || ((a =? 192) && (b =? 168))
    || (224 <=? a)
  | _ => false
  end.

(** [/^fe[89ab][0-9a-f]:/] *)
Definition is_fe80_prefix (s : jstr) : bool :=
  match units s with
  | f :: e :: x :: y :: c :: _ =>
    (f =? 102)%N && (e =? 101)%N
    && ((x =? 56)%N || (x =? 57)%N || (x =? 97)%N || (x =? 98)%N) && is_hex_lower y && (c =? 58)%N
  | _ => false
  end.

Section Targets.
Context (URL : jstr → option url).

(** @worker/src/utils/ping-task.ts:95-114 isBlockedIpv6 *)
Definition isBlockedIpv6 (host : jstr) : bool :=
  let normalized := strip_brackets (lower host) in
  if negb (includes ":" normalized) then false
  else match URL ("http://[" +++ normalized +++ "]/") with
  | None => true
  | Some u =>
    (* [hostname.slice(1, -1)] *)
    let h := hostname u in
    let normalized := JS (take (length (units h) - 2) (drop 1 (units h))) in
    jeq normalized "::"
    || jeq normalized "::1"
    || starts_with "::ffff:" normalized
    || starts_with "0:0:0:0:0:ffff:" normalized
    || starts_with "fc" normalized
    || starts_with "fd" normalized
    || is_fe80_prefix normalized
  end.

(** @worker/src/utils/ping-task.ts:116-132 validateNetworkBoundary *)
Definition validateNetworkBoundary (host : jstr) : option jstr :=
  let normalized := strip_brackets (lower (trim host)) in
  if negb (nonempty normalized) then Some "目标必须包含 host"
  else if jeq normalized "localhost" || ends_with ".localhost" normalized
  then Some "Ping 目标不能指向 localhost"
  else if jeq normalized "metadata.google.internal"
  then Some "Ping 目标不能指向云厂商 metadata 地址"
  else if isAmbiguousNumericHost normalized
  then Some "Ping 目标不能使用内网、环回、链路本地或保留 IP"
  else if isBlockedIpv4 normalized || isBlockedIpv6 normalized
  then Some "Ping 目标不能使用内网、环回、链路本地或保留 IP"
  else None.

(** @worker/src/utils/ping-task.ts:134-150 validateTcpTarget *)
Definition validateTcpTarget (target : jstr) : option jstr :=
  if includes "://" target then Some "TCP 目标必须使用 host:port 格式"
  else if any_unit is_space target then Some "TCP 目标不能包含空白字符"
  else match URL ("tcp://" +++ target) with
  | None => Some "TCP 目标必须使用 host:port 格式"
  | Some u =>
    let p := str_num (port u) in
    if negb (nonempty (hostname u)) || negb (is_integer p) || num_lt p 1 || num_lt 65535 p
    then Some "TCP 目标必须包含 1-65535 范围内的端口"
    else validateNetworkBoundary (hostname u)
  end.

(** @worker/src/utils/ping-task.ts:152-166 validateHttpTarget *)
Definition validateHttpTarget (target : jstr) : option jstr :=
  match URL target with
  | None => Some "HTTP 目标必须是有效 URL"
  | Some u =>
    if negb (jeq (protocol u) "http:") && negb (jeq (protocol u) "https:")
    then Some "HTTP 目标必须使用 http:// 或 https://"
    else if negb (nonempty (hostname u)) then Some "HTTP 目标必须包含 host"
    else if nonempty (username u) || nonempty (password u)
    then Some "HTTP 目标不能包含用户名或密码"
    else validateNetworkBoundary (hostname u)
  end.

(** [/^\[[^\]]+\]:.+$/]: no line terminator follows the colon, because the
    target has no white space. *)
Definition is_bracketed_port (target : jstr) : bool :=
  match units target with
  | u :: r =>
    (u =? 91)%N
    && let body := take_while (λ v, negb (v =? 93)%N) r in
       let rest := drop_while (λ v, negb (v =? 93)%N) r in
       negb (bool_decide (body = []))
       && match rest with _ :: c :: _ :: _ => (c =? 58)%N | _ => false end
  | [] => false
  end.
Definition count_unit (c : N) (s : jstr) : nat := length (List.filter (chr c) (units s)).

(** @worker/src/utils/ping-task.ts:168-177 validateIcmpTarget *)
Definition validateIcmpTarget (target : jstr) : option jstr :=
  if any_unit is_space target then Some "ICMP 目标不能包含空白字符"
  else if includes "://" target then Some "ICMP 目标必须是主机名或 IP"
  else if is_bracketed_port target || (count_unit 58 target =? 1)%nat
  then Some "ICMP 目标不能包含端口，请仅填写域名或 IP"
  else validateNetworkBoundary target.

(** @worker/src/utils/ping-task.ts:179-191 validateTarget *)
Definition validateTarget (type target : jstr) : option jstr :=
  if negb (nonempty target) then Some "目标地址不能为空"
  else if MAX_PING_TARGET_LENGTH <? slen target then Some "目标地址不能超过 512 字符"
  else if jeq type "tcp" then validateTcpTarget target
  else if jeq type "http" then validateHttpTarget target
  else validateIcmpTarget target.

(** @worker/src/utils/ping-task.ts:193-252 validatePingTaskInput *)
Definition validatePingTaskInput (input : jsval) (allowedClientIds : option (list jstr)) : task_result :=
  let body := asObject input in
  let name := trim (to_str (coalesce (fld body "name") (JStr ""))) in
  let nameErrors :=
    if negb (nonempty name) then ["任务名称不能为空"]
    else if MAX_PING_TASK_NAME_LENGTH <? slen name then ["任务名称不能超过 128 字符"] else [] in
  let typeValue := lower (trim (to_str (coalesce (fld body "type") (JStr "icmp")))) in
  let typeErrors := if isPingTaskType typeValue then [] else ["Ping 类型必须是 icmp、tcp 或 http"] in
  let type := if isPingTaskType typeValue then typeValue else "icmp" in
  let target := trim (to_str (coalesce (fld body "target") (JStr ""))) in
  let targetErrors := match validateTarget type target with Some e => [e] | None => [] end in
  let intervalValue :=
    to_num (coalesce (fld body "interval_sec") (coalesce (fld body "interval") (JNum 60))) in
  let intervalErrors :=
    if negb (is_integer intervalValue) || num_lt intervalValue MIN_PING_INTERVAL_SEC
       || num_lt MAX_PING_INTERVAL_SEC intervalValue
    then ["检测间隔必须是 60 到 86400 秒之间的整数"] else [] in
  let intervalSec := if is_integer intervalValue then intervalValue else of_Z 60 in
  let allClients := readBoolean (fld body "all_clients") false in
  let clients := if allClients then [] else readStringArray (fld body "clients") in
  let clientErrors :=
    if negb allClients && bool_decide (clients = []) then ["定向任务至少需要绑定一个客户端"] else [] in
  let allowedErrors :=
    match allowedClientIds with
    | Some allowed =>
      if existsb (λ client, negb (mem client allowed)) clients then ["任务包含不存在的客户端"] else []
    | None => []
    end in
  match nameErrors ++ typeErrors ++ targetErrors ++ intervalErrors ++ clientErrors ++ allowedErrors with
  | [] => TaskOk {| pt_name := name; pt_clients := clients; pt_all_clients := allClients;
                    pt_type := type; pt_target := target; pt_interval_sec := intervalSec |}
  | errors => TaskErr errors
  end.
End Targets.

(** ** Facts *)


(** The string lists read from a request have no repetition, no empty text and
    at most [limit] elements, all of them trimmed elements of the source. *)
Lemma read_strings_spec limit source result :
  (0 < limit)%nat → NoDup result → (length result < limit)%nat →
  Forall (λ s, nonempty s = true) result →
  let out := read_strings limit result source in
  NoDup out ∧ (length out ≤ limit)%nat ∧ Forall (λ s, nonempty s = true) out
  ∧ (∀ s, s ∈ out → s ∈ result ∨ ∃ t, JStr t ∈ source ∧ s = trim t).
Proof.
  intros Hl. revert result. induction source as [|v source IH]; intros result Hnd Hlen Hne; simpl.
  { split; [done | split; [lia | split; [done | by left]]]. }
  assert (Hskip : let out := read_strings limit result source in
    NoDup out ∧ (length out ≤ limit)%nat ∧ Forall (λ s, nonempty s = true) out
    ∧ (∀ s, s ∈ out → s ∈ result ∨ ∃ t, JStr t ∈ v :: source ∧ s = trim t)).
  { destruct (IH result Hnd Hlen Hne) as (H1 & H2 & H3 & H4). split; [done | split; [done | split; [done |]]].
    intros s Hs. destruct (H4 s Hs) as [|(t & Ht & ->)]; [by left | right; exists t; split; [by right | done]]. }
  destruct v as [| | | |item| |]; try exact Hskip.
  destruct (negb (nonempty (trim item)) || mem (trim item) result) eqn:E; [exact Hskip |].
  apply orb_false_iff in E as [E1 E2]. apply negb_false_iff in E1.
  assert (Hnin : trim item ∉ result) by (intros Hin%mem_spec; congruence).
  assert (Hnd' : NoDup (result ++ [trim item])).
  { apply NoDup_app. split; [done |]. split; [| apply NoDup_singleton].
    intros x Hx ->%list_elem_of_singleton. done. }
  assert (Hne' : Forall (λ s, nonempty s = true) (result ++ [trim item])).
  { apply Forall_app. by split; [| apply Forall_singleton]. }
  assert (Hout : ∀ s, s ∈ result ++ [trim item] → s ∈ result ∨ ∃ t, JStr t ∈ JStr item :: source ∧ s = trim t).
  { intros s [Hs | ->%list_elem_of_singleton]%elem_of_app; [by left | right; exists item; split; [left | done]]. }
  rewrite length_app. simpl. destruct (limit <=? length result + 1)%nat eqn:El.
  - apply Nat.leb_le in El. rewrite length_app. simpl. split; [done | split; [lia | done]].
  - apply Nat.leb_gt in El. destruct (IH (result ++ [trim item])) as (H1 & H2 & H3 & H4);
      [done | rewrite length_app; simpl; lia | done |].
    split; [done | split; [done | split; [done |]]]. intros s Hs.
    destruct (H4 s Hs) as [Hs' | (t & Ht & ->)]; [by apply Hout | right; exists t; split; [by right | done]].
Qed.

Lemma readStringArray_spec v :
  NoDup (readStringArray v) ∧ (length (readStringArray v) ≤ MAX_PING_TASK_CLIENTS)%nat
  ∧ Forall (λ s, nonempty s = true) (readStringArray v).
Proof.
  unfold readStringArray.
  destruct (match v with JStr s => json_parse s | _ => Some v end) as [[| | | | |source|]|];
    try (split; [apply NoDup_nil_2 | split; [simpl; lia | apply Forall_nil_2]]).
  destruct (read_strings_spec MAX_PING_TASK_CLIENTS source []) as (? & ? & ? & _);
    [unfold MAX_PING_TASK_CLIENTS; lia | apply NoDup_nil_2 | simpl; unfold MAX_PING_TASK_CLIENTS; lia
    | apply Forall_nil_2 | done].
Qed.

Lemma ping_ipv4_octets s o :
  parseIpv4 s = Some o → ∃ a b c d, o = [a; b; c; d] ∧ is_octet a ∧ is_octet b ∧ is_octet c ∧ is_octet d.
Proof.
  unfold parseIpv4. intros H. destruct (length _ =? 4)%nat eqn:El; simpl in H; [| done].
  apply Nat.eqb_eq in El. destruct (existsb _ (split_on _ _)); [done |].
  destruct (existsb _ (map _ _)) eqn:Ef; [done |]. simplify_eq.
  remember (map octet_number (split_on (chr 46) s)) as o eqn:Eo.
  assert (Hlen : length o = 4%nat) by (by rewrite Eo, length_map).
  assert (Hall : Forall is_octet o).
  { apply Forall_forall. intros z Hz. rewrite existsb_false in Ef. specialize (Ef z Hz).
    apply orb_false_iff in Ef. unfold is_octet. zlia. }
  clear Eo Ef. destruct o as [|a [|b [|c [|d [|]]]]]; try discriminate Hlen.
  exists a, b, c, d. by repeat match goal with H : Forall _ (_ :: _) |- _ => inversion_clear H end.
Qed.

(** The comparison chain of [isBlockedIpv4] decides membership in the private
    and reserved CIDR blocks. *)
Lemma isBlockedIpv4_cidr host o v :
  parseIpv4 host = Some o → ipv4_value o = Some v → isBlockedIpv4 host = in_cidrs v private_blocks.
Proof.
  intros Hp Hv. destruct (ping_ipv4_octets _ _ Hp) as (a & b & c & d & -> & Ha & Hb & Hc & Hd).
  unfold isBlockedIpv4. rewrite Hp. cidr_solve Ha Hb Hc Hd Hv.
Qed.

(** ** Properties *)

(** The host a probe of a task contacts: the target itself for ICMP, the host
    of the URL for TCP and HTTP. *)
Definition task_host (URL : jstr → option url) (type target : jstr) : option jstr :=
  if jeq type "tcp" then hostname <$> URL ("tcp://" +++ target)
  else if jeq type "http" then hostname <$> URL target
  else Some target.

(** What the boundary promises of a host: it has a name, which is neither
    [localhost], nor under it, nor a cloud metadata name; a dotted quad is
    outside every private block; an IPv6 address is neither unspecified,
    loopback, IPv4-mapped, unique local nor link local. *)
Definition host_allowed (URL : jstr → option url) (host : jstr) : Prop :=
  let h := strip_brackets (lower (trim host)) in
  h ≠ "" ∧ h ≠ "localhost" ∧ ends_with ".localhost" h = false ∧ h ≠ "metadata.google.internal"
  ∧ (∀ o v, parseIpv4 h = Some o → ipv4_value o = Some v → in_cidrs v private_blocks = false)
  ∧ (includes ":" (strip_brackets (lower h)) = true →
     ∃ u, URL ("http://[" +++ strip_brackets (lower h) +++ "]/") = Some u
          ∧ let a := JS (take (length (units (hostname u)) - 2) (drop 1 (units (hostname u)))) in
            a ≠ "::" ∧ a ≠ "::1" ∧ starts_with "::ffff:" a = false
            ∧ starts_with "fc" a = false ∧ starts_with "fd" a = false
            ∧ is_fe80_prefix a = false).


Lemma validateNetworkBoundary_allowed URL host :
  validateNetworkBoundary URL host = None → host_allowed URL host.
Proof.
  unfold validateNetworkBoundary, host_allowed. cbv zeta.
  set (h := strip_brackets (lower (trim host))). intros H.
  destruct (nonempty h) eqn:E0; simpl in H; [| done].
  destruct (jeq h "localhost" || _) eqn:E1; [done |].
  destruct (jeq h "metadata.google.internal") eqn:E2; [done |].
  destruct (isAmbiguousNumericHost h); [done |].
  destruct (isBlockedIpv4 h || isBlockedIpv6 URL h) eqn:E3; [done |].
  apply orb_false_iff in E1 as [E1 E1'], E3 as [E3 E3'].
  repeat split; [by apply nonempty_true | by apply jeq_false | done | by apply jeq_false | |].
  - intros o v Ho Hv. by rewrite <- (isBlockedIpv4_cidr h o v).
  - intros Hc. unfold isBlockedIpv6 in E3'. rewrite Hc in E3'. simpl in E3'.
    destruct (URL _) as [u|]; [| done]. exists u. split; [done |].
    repeat (apply orb_false_iff in E3' as [E3' ?]).
    repeat split; by first [apply jeq_false | assumption].
Qed.

Lemma validateTarget_host URL type target :
  validateTarget URL type target = None →
  ∃ host, task_host URL type target = Some host ∧ validateNetworkBoundary URL host = None.
Proof.
  unfold validateTarget, task_host. intros H.
  destruct (negb (nonempty target)); [done |]. destruct (_ <? _); [done |].
  destruct (jeq type "tcp"); [| destruct (jeq type "http")].
  - unfold validateTcpTarget in H. break_in H. eauto.
  - unfold validateHttpTarget in H. break_in H. eauto.
  - unfold validateIcmpTarget in H. break_in H. eauto.
Qed.

(** An accepted input has passed every check. *)
Lemma validatePingTaskInput_checks URL input allowed task :
  validatePingTaskInput URL input allowed = TaskOk task →
  pt_name task ≠ "" ∧ slen (pt_name task) ≤ MAX_PING_TASK_NAME_LENGTH
  ∧ pt_type task ∈ PING_TASK_TYPES
  ∧ validateTarget URL (pt_type task) (pt_target task) = None
  ∧ (∃ z, num_Z (pt_interval_sec task) = Some z ∧ MIN_PING_INTERVAL_SEC ≤ z ≤ MAX_PING_INTERVAL_SEC)
  ∧ (pt_all_clients task = true → pt_clients task = [])
  ∧ (pt_all_clients task = false → pt_clients task ≠ [])
  ∧ (∃ v, pt_clients task = [] ∨ pt_clients task = readStringArray v)
  ∧ (∀ ids, allowed = Some ids → ∀ c, c ∈ pt_clients task → c ∈ ids).
Proof.
  unfold validatePingTaskInput. cbv zeta. intros H.
  match type of H with (match ?errs with _ => _ end) = _ => destruct errs eqn:E end; [| done].
  injection H as <-. cbn [pt_name pt_clients pt_all_clients pt_type pt_target pt_interval_sec].
  repeat (apply app_eq_nil in E as [? E]).
  repeat split.
  - apply nonempty_true. by destruct (nonempty _).
  - destruct (negb _); [done |]. destruct (_ <? _) eqn:E'; [done |]. zlia.
  - destruct (isPingTaskType _) eqn:Et; [| done]. by apply mem_spec.
  - by destruct (validateTarget _ _ _).
  - match goal with H : (if negb (is_integer ?x) || _ || _ then _ else _) = [] |- _ =>
      destruct (negb (is_integer x) || _ || _) eqn:Ei; [done |] end.
    repeat (apply orb_false_iff in Ei as [Ei ?]). apply negb_false_iff in Ei. rewrite Ei.
    by apply integer_between.
  - by intros ->.
  - intros Hac. rewrite Hac in *. simpl in *. by case_bool_decide.
  - destruct (readBoolean _ _); [exists JNull; by left | eexists; right; done].
  - intros ids -> c Hc. destruct (existsb _ _) eqn:Ex; [done |].
    rewrite existsb_false in Ex. specialize (Ex c Hc). apply negb_false_iff in Ex. by apply mem_spec.
Qed.

(** *** An accepted task is accepted again *)

Lemma read_strings_again limit l result :
  NoDup (result ++ l) → Forall (λ s, nonempty s = true ∧ trim s = s) l → (length (result ++ l) ≤ limit)%nat →
  read_strings limit result (map JStr l) = result ++ l.
Proof.
  revert result. induction l as [|s l IH]; intros result Hnd Hl Hlen; [by rewrite app_nil_r |].
  apply Forall_cons in Hl as [[Hs Ht] Hl]. cbn [map read_strings]. rewrite Ht, Hs.
  rewrite (proj2 (mem_false s result)) by (apply NoDup_app in Hnd as (_ & Hnd & _); intros Hin; apply (Hnd s Hin); left).
  cbn [negb orb]. rewrite length_app in Hlen. cbn [length] in Hlen. replace (result ++ s :: l) with ((result ++ [s]) ++ l) in * by (by rewrite <- (assoc_L (++))).
  destruct (limit <=? length (result ++ [s]))%nat eqn:E.
  - apply Nat.leb_le in E. rewrite length_app in E. cbn [length] in E. assert (l = []) as -> by (destruct l; [done | simpl in Hlen; lia]). by rewrite app_nil_r.
  - apply IH; [done | done |]. rewrite !length_app. cbn [length]. lia.
Qed.
Lemma readStringArray_again v : readStringArray (JArr (map JStr (readStringArray v))) = readStringArray v.
Proof.
  destruct (readStringArray_spec v) as (Hnd & Hlen & Hne). unfold readStringArray at 1. rewrite read_strings_again; [done | done | | done].
  apply Forall_forall. intros s Hs. split; [by apply (proj1 (Forall_forall _ _) Hne) |]. unfold readStringArray in Hs.
  destruct (match v with JStr s => json_parse s | _ => Some v end) as [[| | | | |source|]|]; try by apply not_elem_of_nil in Hs.
  destruct (read_strings_spec MAX_PING_TASK_CLIENTS source []) as (_ & _ & _ & H);
    [unfold MAX_PING_TASK_CLIENTS; lia | apply NoDup_nil_2 | simpl; unfold MAX_PING_TASK_CLIENTS; lia | apply Forall_nil_2 |].
  destruct (H s Hs) as [?%not_elem_of_nil | (t & _ & ->)]; [done | apply trim_trim].
Qed.
Lemma validatePingTaskInput_trimmed URL input allowed task :
  validatePingTaskInput URL input allowed = TaskOk task →
  trim (pt_name task) = pt_name task ∧ trim (pt_target task) = pt_target task ∧ is_integer (pt_interval_sec task) = true
  ∧ (pt_all_clients task = false → readStringArray (JArr (map JStr (pt_clients task))) = pt_clients task).
Proof.
  intros H. destruct (validatePingTaskInput_checks _ _ _ _ H) as (_ & _ & _ & _ & (z & Hz & _) & _ & _ & (v & Hv) & _).
  split; [| split; [| split; [by apply is_integer_Z; eauto |]]]; [| | intros _; destruct Hv as [-> | ->]; [done | apply readStringArray_again]];
    unfold validatePingTaskInput in H; cbv zeta in H; (match type of H with (match ?errs with _ => _ end) = _ => destruct errs end; [| done]);
    injection H as <-; apply trim_trim.
Qed.
Lemma readStringArray_elem l s : s ∈ readStringArray (JArr l) → ∃ t, JStr t ∈ l ∧ s = trim t.
Proof.
  unfold readStringArray. intros Hs.
  destruct (read_strings_spec MAX_PING_TASK_CLIENTS l []) as (_ & _ & _ & H);
    [unfold MAX_PING_TASK_CLIENTS; lia | apply NoDup_nil_2 | simpl; unfold MAX_PING_TASK_CLIENTS; lia | apply Forall_nil_2 |].
  destruct (H s Hs) as [?%not_elem_of_nil | (t & Ht & ->)]; eauto. done.
Qed.
Lemma validatePingTaskInput_clients URL body allowed task :
  validatePingTaskInput URL (JObj body) allowed = TaskOk task →
  pt_clients task = if pt_all_clients task then [] else readStringArray (fld body "clients").
Proof.
  unfold validatePingTaskInput. cbv zeta. intros H. match type of H with (match ?errs with _ => _ end) = _ => destruct errs; [| done] end. by injection H as <-.
Qed.
(** A body that holds what was accepted. *)
Definition holds_task (body : fields) (task : ping_task) : Prop :=
  fld body "name" = JStr (pt_name task) ∧ fld body "clients" = JArr (map JStr (pt_clients task))
  ∧ fld body "all_clients" = JBool (pt_all_clients task) ∧ fld body "type" = JStr (pt_type task)
  ∧ fld body "target" = JStr (pt_target task) ∧ fld body "interval_sec" = JNum (pt_interval_sec task).
Lemma validatePingTaskInput_again URL input allowed task body :
  validatePingTaskInput URL input allowed = TaskOk task → holds_task body task → validatePingTaskInput URL (JObj body) None = TaskOk task.
Proof.
  intros H (H1 & H2 & H3 & H4 & H5 & H6). destruct (validatePingTaskInput_trimmed _ _ _ _ H) as (Tn & Tt & Hint & Hc).
  destruct (validatePingTaskInput_checks _ _ _ _ H) as (Cn & Cl & Cty & Ctg & (z & Hz & Hzr) & Ca1 & Ca2 & _ & _).
  unfold validatePingTaskInput, asObject. cbv zeta. cbn [as_object]. rewrite H1, H2, H3, H4, H5, H6. cbn [coalesce to_str to_num]. rewrite Tn, Tt.
  assert (Hty : lower (trim (pt_type task)) = pt_type task) by (pose proof Cty as E; unfold PING_TASK_TYPES in E; list_cases E; rewrite E; by vm_compute). rewrite Hty.
  assert (Hty' : isPingTaskType (pt_type task) = true) by (by apply mem_spec). rewrite Hty', Ctg, Hint.
  rewrite (proj2 (nonempty_true _) Cn), (proj2 (Z.ltb_ge _ _) Cl), (num_lt_of_Z _ _ _ Hz), (num_gt_of_Z _ _ _ Hz).
  rewrite (proj2 (Z.ltb_ge z _)), (proj2 (Z.ltb_ge _ z)) by (unfold MIN_PING_INTERVAL_SEC, MAX_PING_INTERVAL_SEC in *; lia). cbn [negb orb readBoolean app].
  destruct task as [n c [] ty tg i]; cbn [pt_name pt_clients pt_all_clients pt_type pt_target pt_interval_sec] in *.
  - by rewrite (Ca1 eq_refl).
  - rewrite (Hc eq_refl). cbn [negb andb]. rewrite bool_decide_eq_false_2 by (by apply Ca2). done.
Qed.

(** A ping task the validator accepts is well formed: a non-empty name of
    at most 128 code units, a known type, a non-empty target of at most 512,
    an integer interval between 60 and 86400 seconds, and a client list that
    is empty exactly for an all-clients task, has no repetition, at most 500
    entries, none empty, all of them known when a set of known ids is given. *)
Theorem validatePingTaskInput_well_formed URL input allowed task :
  validatePingTaskInput URL input allowed = TaskOk task →
  pt_name task ≠ "" ∧ slen (pt_name task) ≤ 128
  ∧ pt_type task ∈ PING_TASK_TYPES
  ∧ pt_target task ≠ "" ∧ slen (pt_target task) ≤ 512
  ∧ (∃ z, num_Z (pt_interval_sec task) = Some z ∧ 60 ≤ z ≤ 86400)
  ∧ (pt_all_clients task = true ↔ pt_clients task = [])
  ∧ NoDup (pt_clients task) ∧ (length (pt_clients task) ≤ 500)%nat
  ∧ Forall (λ c, c ≠ "") (pt_clients task)
  ∧ (∀ ids, allowed = Some ids → ∀ c, c ∈ pt_clients task → c ∈ ids).
Proof.
  intros (Hn & Hnl & Ht & Htgt & Hi & Ha1 & Ha2 & (v & Hv) & Hin)%validatePingTaskInput_checks.
  destruct (readStringArray_spec v) as (Hnd & Hlen & Hne).
  assert (Hcl : NoDup (pt_clients task) ∧ (length (pt_clients task) ≤ 500)%nat
                ∧ Forall (λ c, c ≠ "") (pt_clients task)).
  { destruct Hv as [-> | ->]; [split; [apply NoDup_nil_2 | split; [simpl; lia | apply Forall_nil_2]] |].
    split; [done | split; [exact Hlen |]]. eapply Forall_impl; [exact Hne |]. intros c. apply nonempty_true. }
  destruct Hcl as (? & ? & ?). unfold validateTarget in Htgt.
  destruct (negb (nonempty (pt_target task))) eqn:E1; [done |].
  destruct (MAX_PING_TARGET_LENGTH <? slen (pt_target task)) eqn:E2; [done |].
  unfold MAX_PING_TARGET_LENGTH, MAX_PING_TASK_NAME_LENGTH, MIN_PING_INTERVAL_SEC, MAX_PING_INTERVAL_SEC in *.
  zify_bool. apply negb_false_iff, nonempty_true in E1.
  repeat split; auto. destruct (pt_all_clients task); [done |]. intros Hnil. by destruct (Ha2 eq_refl).
Qed.

(** C24: the probe of an accepted task never contacts a forbidden host: the
    task's host passes [host_allowed], whatever the URL parser. *)
Theorem validatePingTaskInput_host_allowed URL input allowed task :
  validatePingTaskInput URL input allowed = TaskOk task →
  ∃ host, task_host URL (pt_type task) (pt_target task) = Some host ∧ host_allowed URL host.
Proof.
  intros (_ & _ & _ & Htgt & _)%validatePingTaskInput_checks.
  destruct (validateTarget_host _ _ _ Htgt) as (host & Hh & Hb).
  exists host. split; [done |]. by apply validateNetworkBoundary_allowed.
Qed.

(** ** Witnesses *)

(** A URL parser for the witnesses: it knows one address. *)
Definition sample_url (s : jstr) : option url :=
  if jeq s "https://example.com/status"
  then Some {| protocol := "https:"; username := ""; password := ""; hostname := "example.com"; port := "";
               pathname := "/status"; search := ""; hash := ""; href := s; origin := "https://example.com" |}
  else None.
Definition sample_task_input : jsval :=
  JObj [("name", JStr " edge "); ("type", JStr "HTTP"); ("target", JStr "https://example.com/status");
        ("interval_sec", JStr "120"); ("clients", JArr [JStr "a"; JStr " b"; JStr "a"])].
Definition sample_task : ping_task :=
  {| pt_name := "edge"; pt_clients := ["a"; "b"]; pt_all_clients := false; pt_type := "http";
     pt_target := "https://example.com/status"; pt_interval_sec := 120 |}.

Lemma validatePingTaskInput_well_formed_witness :
  validatePingTaskInput sample_url sample_task_input (Some ["b"; "a"]) = TaskOk sample_task
  ∧ NoDup (pt_clients sample_task).
Proof.
  assert (H : validatePingTaskInput sample_url sample_task_input (Some ["b"; "a"]) = TaskOk sample_task)
    by (vm_compute; reflexivity).
  split; [exact H |]. apply (validatePingTaskInput_well_formed _ _ _ _ H).
Defined.

Lemma validatePingTaskInput_host_allowed_witness :
  validatePingTaskInput sample_url sample_task_input None = TaskOk sample_task
  ∧ ∃ host, task_host sample_url "http" "https://example.com/status" = Some host
            ∧ host_allowed sample_url host.
Proof.
  assert (H : validatePingTaskInput sample_url sample_task_input None = TaskOk sample_task)
    by (vm_compute; reflexivity).
  split; [exact H |]. apply (validatePingTaskInput_host_allowed _ _ _ _ H).
Defined.
