(* ===== verification/Webhook.v ===== *)
(** * Webhook delivery: [worker/src/utils/webhook.ts]

    Validation of the receiver's URL, rendering of the request for each
    provider, and the bounded retry loop.  HMAC, the URL parser and its
    [searchParams], the text decoder and the network are parameters. *)

From S2P Require Import Prelude JsStr JsNum JsVal JsBytes JsDate Net.
#[local] Open Scope Z_scope.

(** @worker/src/utils/webhook.ts:4-4 WEBHOOK_MESSAGE_MAX_CHARS *)
Definition WEBHOOK_MESSAGE_MAX_CHARS : nat := 4000.
(** @worker/src/utils/webhook.ts:5-5 WEBHOOK_DISCORD_MAX_CHARS *)
Definition WEBHOOK_DISCORD_MAX_CHARS : nat := 1900.
(** @worker/src/utils/webhook.ts:6-6 WEBHOOK_WECOM_MAX_BYTES *)
Definition WEBHOOK_WECOM_MAX_BYTES : Z := 2048.
(** @worker/src/utils/webhook.ts:7-7 WEBHOOK_RESPONSE_ERROR_MAX_CHARS *)
Definition WEBHOOK_RESPONSE_ERROR_MAX_CHARS : Z := 1024.
(** @worker/src/utils/webhook.ts:9-9 WEBHOOK_PROVIDER_RESPONSE_MAX_BYTES *)
Definition WEBHOOK_PROVIDER_RESPONSE_MAX_BYTES : Z := 16 * 1024.

(** @worker/src/utils/webhook.ts:11-11 WebhookFormat *)
Inductive WebhookFormat := Generic | Slack | Discord | Feishu | Dingtalk | Wecom | Custom.
#[global] Instance WebhookFormat_eq_dec : EqDecision WebhookFormat.
Proof. solve_decision. Defined.
Definition format_name (f : WebhookFormat) : jstr :=
  match f with
  | Generic => "generic" | Slack => "slack" | Discord => "discord" | Feishu => "feishu"
  | Dingtalk => "dingtalk" | Wecom => "wecom" | Custom => "custom"
  end.

(** @worker/src/utils/webhook.ts:13-25 WebhookConfig -- an optional string that
    the code only reads through [||] is the empty string when absent. *)
Record WebhookConfig := {
  wc_url : jstr; wc_format : WebhookFormat; wc_secret : jstr; wc_method : jstr;
  wc_contentType : jstr; wc_headersJson : jstr; wc_bodyTemplate : jstr;
  wc_username : jstr; wc_password : jstr; wc_retryCount : num
}.
(** @worker/src/utils/notification-templates.ts:3-11 NotificationMessage *)
Record NotificationMessage := {
  nm_subject : jstr; nm_body : jstr; nm_event : jstr; nm_clients : jstr;
  nm_message : jstr; nm_time : jstr; nm_emoji : jstr
}.
(** @worker/src/utils/webhook.ts:27-29 WebhookSendResult *)
Inductive WebhookSendResult :=
| SendOk (status : Z) (host : jstr)
| SendFailed (status : option Z) (host : option jstr) (error : jstr).
(** @worker/src/utils/webhook.ts:31-37 WebhookRequest *)
Record WebhookRequest := {
  wr_url : jstr; wr_host : jstr; wr_method : jstr; wr_body : option jstr;
  wr_headers : list (jstr * jstr)
}.

(** [s.replace(/\s+/g, ' ')] *)
Fixpoint collapse_spaces (prev : bool) (l : list N) : list N :=
  match l with
  | [] => []
  | u :: r => if is_space u then (if prev then [] else [32%N]) ++ collapse_spaces true r
              else u :: collapse_spaces false r
  end.
Definition one_line (max : nat) (s : jstr) : jstr :=
  slice_to max (trim (JS (collapse_spaces false (units s)))).
(** @worker/src/utils/webhook.ts:43-46 errorDetail -- of an error's message *)
Definition errorDetail (message : jstr) : jstr := one_line 700 message.

(** ** The receiver's address *)

(** @worker/src/utils/webhook.ts:48-52 parseIPv4 *)
Definition parseIPv4 (host : jstr) : option (list Z) := parse_dotted_quad host.
(** @worker/src/utils/webhook.ts:54-61 isAmbiguousNumericHost *)
Definition isAmbiguousNumericHost (host : jstr) : bool := ambiguous_numeric_host parseIPv4 host.
(** @worker/src/utils/webhook.ts:63-75 isBlockedIPv4 *)
Definition isBlockedIPv4 (parts : list Z) : bool :=
  match parts with
  | a :: b :: _ =>
    (a =? 0)
    || (a =? 10)
    || (a =? 127)
    || ((a =? 100) && (64 <=? b) && (b <=? 127))
    || ((a =? 169) && (b =? 254))
    || ((a =? 172) && (16 <=? b) && (b <=? 31))
    || ((a =? 192) && (b =? 168))
    || ((a =? 198) && ((b =? 18) || (b =? 19)))
  | _ => false
  end.
(** @worker/src/utils/webhook.ts:77-79 isIPv4MappedIPv6 *)
Definition isIPv4MappedIPv6 (host : jstr) : bool :=
  starts_with "::ffff:" host || starts_with "0:0:0:0:0:ffff:" host.
(** @worker/src/utils/webhook.ts:81-93 isUnsafeWebhookHostname *)
Definition isUnsafeWebhookHostname (hostname : jstr) : bool :=
  let host := strip_dot (strip_brackets (lower hostname)) in
  if negb (nonempty host) || jeq host "localhost" || ends_with ".localhost" host then true
  else if jeq host "169.254.169.254" || jeq host "fd00:ec2::254" then true
  else if isAmbiguousNumericHost host then true
  else match parseIPv4 host with
  | Some ipv4 => isBlockedIPv4 ipv4
  | None =>
    if negb (includes ":" host) then false
    else if isIPv4MappedIPv6 host then true
    else if jeq host "::" || jeq host "::1" then true
    else existsb (λ p, starts_with p host) ["fc"; "fd"; "fe8"; "fe9"; "fea"; "feb"]
  end.

(** ** Text *)

(** @worker/src/utils/webhook.ts:121-123 truncateMessage *)
Definition truncateMessage (value : jstr) (max : nat) : jstr :=
  if Z.of_nat max <? slen value then slice_to max value else value.

(** @worker/src/utils/webhook.ts:128-133 truncateUtf8Message (loop) -- the loop
    visits code points; [end_] counts code units. *)
Fixpoint utf8_end (points : list N) (maxBytes bytes : Z) (end_ : nat) : nat :=
  match points with
  | [] => end_
  | p :: r =>
    let size := Z.of_nat (length (utf8_of_point (scalar p))) in
    if maxBytes <? bytes + size then end_
    else utf8_end r maxBytes (bytes + size) (end_ + length (utf16_of_point p))
  end.
(** @worker/src/utils/webhook.ts:125-136 truncateUtf8Message *)
Definition truncateUtf8Message (value : jstr) (maxBytes : Z) : jstr :=
  slice_to (utf8_end (js_points (units value)) maxBytes 0 0) value.

(** @worker/src/utils/webhook.ts:138-140 bytesToHex *)
Definition bytesToHex (bytes : list Z) : jstr := JS (flat_map (λ b, units (hex_byte b)) bytes).

(** @worker/src/utils/webhook.ts:142-146 bytesToBase64 *)
Definition bytesToBase64 (bytes : list Z) : jstr := JS (btoa bytes).

(** @worker/src/utils/webhook.ts:160-170 templateValues -- as the list of its
    properties *)
Definition templateValues (n : NotificationMessage) (nowMs : Z) : list (jstr * jstr) :=
  [("title", nm_subject n); ("message", nm_body n); ("event", nm_event n); ("client", nm_clients n);
   ("time", or_str (nm_time n) (iso_string nowMs)); ("emoji", nm_emoji n); ("source", "cf-vps-monitor")].
(** @worker/src/utils/webhook.ts:172-175 jsonTemplateEscape *)
Definition jsonTemplateEscape (value : jstr) : jstr :=
  let encoded := quote value in JS (take (length (units encoded) - 2) (drop 1 (units encoded))).

(** [encodeURIComponent(s)]: throws a [URIError] on a lone surrogate. *)
Definition uri_unreserved (u : N) : bool :=
  is_alnum u || bool_decide (u ∈ units "-_.!~*'()").
Definition percent (b : Z) : list N :=
  37%N :: map (λ d, Z.to_N (if d <? 10 then 48 + d else 55 + d)) [b / 16; b mod 16].
Definition encodeURIComponent (s : jstr) : result jstr jstr :=
  let points := js_points (units s) in
  if existsb (λ p, is_high p || is_low p) points then Err "URI malformed"
  else Ok (JS (flat_map (λ p, if uri_unreserved p then [p]
                              else flat_map percent (utf8_of_point (Z.of_N p))) points)).

Inductive render_mode := Plain | Json | Url.
Definition TEMPLATE_KEYS : list jstr := ["title"; "message"; "event"; "client"; "time"; "emoji"; "source"].
(** The key of a placeholder at the head of the text. *)
Definition placeholder (l : list N) : option jstr :=
  List.find (λ key, is_prefix (units ("{{" +++ key +++ "}}")) l) TEMPLATE_KEYS.
(** @worker/src/utils/webhook.ts:177-188 renderWebhookTemplate -- [skip] code
    units belong to a placeholder that has been replaced already. *)
Fixpoint render_units (values : list (jstr * jstr)) (mode : render_mode) (skip : nat) (l : list N)
  : result jstr (list N) :=
  match l with
  | [] => Ok []
  | u :: r =>
    match skip with
    | S k => render_units values mode k r
    | O =>
      match placeholder l with
      | Some key =>
        let value := default "" (lookup_field key values) in
        let* text := match mode with
                     | Plain => Ok value
                     | Json => Ok (jsonTemplateEscape value)
                     | Url => encodeURIComponent value
                     end in
        let* rest := render_units values mode (length (units key) + 3) r in
        Ok (units text ++ rest)
      | None => let* rest := render_units values mode 0 r in Ok (u :: rest)
      end
    end
  end.
Definition renderWebhookTemplate (template : jstr) (values : list (jstr * jstr)) (mode : render_mode)
  : result jstr jstr :=
  let* l := render_units values mode 0 (units template) in Ok (JS l).

(** @worker/src/utils/webhook.ts:190-192 isJsonContentType *)
Definition isJsonContentType (value : jstr) : bool := includes "application/json" (lower value).

(** ** Headers *)

Definition FORBIDDEN_HEADERS : list jstr := ["host"; "content-length"; "connection"; "transfer-encoding"].
Definition is_crlf (u : N) : bool := ((u =? 13) || (u =? 10))%N.

(** @worker/src/utils/webhook.ts:209-218 parseWebhookHeaders (loop) -- a plain
    object ignores the assignment of a string to [__proto__]. *)
Fixpoint collect_headers (headers : list (jstr * jstr)) (entries : fields) : result jstr (list (jstr * jstr)) :=
  match entries with
  | [] => Ok headers
  | (key, value) :: rest =>
    match value with
    | JStr value =>
      let normalizedKey := trim key in
      if negb (nonempty normalizedKey) || any_unit (λ u, is_crlf u || (u =? 58)%N) normalizedKey
      then Err "invalid_header_name"
      else
        let lowerKey := lower normalizedKey in
        if mem lowerKey FORBIDDEN_HEADERS then Err ("forbidden_header:" +++ lowerKey)
        else if jeq lowerKey "content-type" then collect_headers headers rest
        else if any_unit is_crlf value then Err "invalid_header_value"
        else collect_headers (if jeq normalizedKey "__proto__" then headers
                              else set_field normalizedKey value headers) rest
    | _ => Err "invalid_header_value"
    end
  end.
(** @worker/src/utils/webhook.ts:194-220 parseWebhookHeaders *)
Definition parseWebhookHeaders (headersJson : jstr) : result jstr (list (jstr * jstr)) :=
  let raw := trim headersJson in
  if negb (nonempty raw) then Ok []
  else match json_parse raw with
  | None => Err "invalid_headers_json"
  | Some (JObj entries) => collect_headers [] entries
  | Some _ => Err "headers_json_must_be_object"
  end.
(** @worker/src/utils/webhook.ts:222-229 addBasicAuthHeader *)
Definition addBasicAuthHeader (headers : list (jstr * jstr)) (username password : jstr)
  : result jstr (list (jstr * jstr)) :=
  if negb (nonempty username) && negb (nonempty password) then Ok headers
  else if negb (nonempty username) || negb (nonempty password) then Err "basic_auth_incomplete"
  else if existsb (λ p, jeq (lower p.1) "authorization") headers then Err "authorization_conflict"
  else Ok (set_field "Authorization" ("Basic " +++ bytesToBase64 (utf8 (username +++ ":" +++ password))) headers).
(** @worker/src/utils/webhook.ts:231-233 normalizedWebhookMethod *)
Definition normalizedWebhookMethod (value : jstr) : jstr :=
  if jeq (upper (or_str value "POST")) "GET" then "GET" else "POST".
(** @worker/src/utils/webhook.ts:235-238 normalizedRetryCount *)
Definition normalizedRetryCount (value : num) : nat :=
  match num_Z value with
  | Some count => if (1 <=? count) && (count <=? 3) then Z.to_nat count else 1
  | None => 1
  end.

(** ** Requests *)

Section Requests.
Context (URL : jstr → option url).
(** [url.searchParams.set(name, value); url.toString()] *)
Context (with_param : url → jstr → jstr → url).
(** [crypto.subtle.sign('HMAC', key(secret), payload)] with SHA-256 *)
Context (hmacSha256 : jstr → jstr → list Z).

(** @worker/src/utils/webhook.ts:100-119 validateWebhookUrl *)
Definition validateWebhookUrl (rawUrl selfHost : jstr) : result jstr (jstr * jstr) :=
  match URL (trim rawUrl) with
  | None => Err "invalid_url"
  | Some url =>
    if negb (jeq (protocol url) "https:") then Err "invalid_protocol"
    else if negb (nonempty (hostname url)) then Err "invalid_host"
    else if nonempty (username url) || nonempty (password url) then Err "url_credentials_not_allowed"
    else if isUnsafeWebhookHostname (hostname url) then Err "unsafe_host"
    else
      let self := lower (trim selfHost) in
      if nonempty self && jeq (lower (hostname url)) self then Err "self_host"
      else Ok (href url, lower (hostname url))
  end.

(** @worker/src/utils/webhook.ts:240-260 buildCustomWebhookRequest *)
Definition buildCustomWebhookRequest (config : WebhookConfig) (n : NotificationMessage) (nowMs : Z)
  : result jstr WebhookRequest :=
  let method := normalizedWebhookMethod (wc_method config) in
  let values := templateValues n nowMs in
  let* headers := parseWebhookHeaders (wc_headersJson config) in
  let* headers := addBasicAuthHeader headers (wc_username config) (wc_password config) in
  if jeq method "GET" then
    let* renderedUrl := renderWebhookTemplate (wc_url config) values Url in
    let* (u, host) := validateWebhookUrl renderedUrl "" in
    Ok {| wr_url := u; wr_host := host; wr_method := method; wr_body := None; wr_headers := headers |}
  else
    let* (u, host) := validateWebhookUrl (wc_url config) "" in
    let contentType := or_str (wc_contentType config) "application/json" in
    let q := JS [34%N] in
    let bodyTemplate := or_str (wc_bodyTemplate config)
      ("{" +++ q +++ "message" +++ q +++ ":" +++ q +++ "{{message}}" +++ q +++ ","
       +++ q +++ "title" +++ q +++ ":" +++ q +++ "{{title}}" +++ q +++ "}") in
    let* body := renderWebhookTemplate bodyTemplate values (if isJsonContentType contentType then Json else Plain) in
    Ok {| wr_url := u; wr_host := host; wr_method := method; wr_body := Some body;
          wr_headers := set_field "Content-Type" contentType headers |}.

Definition text_object (text : jstr) : jsval := JObj [("content", JStr text)].

(** @worker/src/utils/webhook.ts:262-328 buildWebhookRequest -- [discord] and
    [dingtalk] parse the validated URL again: it is a parsed URL's [href]. *)
Definition buildWebhookRequest (config : WebhookConfig) (n : NotificationMessage) (nowMs : Z)
  : result jstr WebhookRequest :=
  if decide (wc_format config = Custom) then buildCustomWebhookRequest config n nowMs
  else
    let* (validated, host) := validateWebhookUrl (wc_url config) "" in
    let timestamp := dec_Z (nowMs / 1000) in
    let secret := wc_secret config in
    let text := match wc_format config with
                | Wecom => truncateUtf8Message (nm_body n) WEBHOOK_WECOM_MAX_BYTES
                | Discord => truncateMessage (nm_body n) WEBHOOK_DISCORD_MAX_CHARS
                | _ => truncateMessage (nm_body n) WEBHOOK_MESSAGE_MAX_CHARS
                end in
    let* (requestUrl, bodyObject) :=
      match wc_format config with
      | Slack => Ok (validated, JObj [("text", JStr text)])
      | Discord =>
        match URL validated with
        | None => Err "Invalid URL"
        | Some u => Ok (href (with_param u "wait" "true"),
                        JObj [("content", JStr text); ("allowed_mentions", JObj [("parse", JArr [])])])
        end
      | Feishu =>
        Ok (validated,
            JObj ([("msg_type", JStr "text"); ("content", JObj [("text", JStr text)])]
                  ++ if nonempty secret
                     then [("timestamp", JStr timestamp);
                           ("sign", JStr (bytesToBase64 (hmacSha256 (timestamp +++ JS [10%N] +++ secret) "")))]
                     else []))
      | Dingtalk =>
        let body := JObj [("msgtype", JStr "text"); ("text", text_object text)] in
        if nonempty secret then
          let milliseconds := dec_Z nowMs in
          match URL validated with
          | None => Err "Invalid URL"
          | Some u =>
            let u := with_param u "timestamp" milliseconds in
            let u := with_param u "sign"
                       (bytesToBase64 (hmacSha256 secret (milliseconds +++ JS [10%N] +++ secret))) in
            Ok (href u, body)
          end
        else Ok (validated, body)
      | Wecom => Ok (validated, JObj [("msgtype", JStr "text"); ("text", text_object text)])
      | Generic | Custom =>
        Ok (validated, JObj [("source", JStr "cf-vps-monitor");
                             ("subject", JStr (truncateMessage (nm_subject n) 240));
                             ("message", JStr text); ("event_time", JStr (iso_string nowMs))])
      end in
    let body := json bodyObject in
    let headers := [("Content-Type" : jstr, "application/json" : jstr)] in
    let headers :=
      if bool_decide (wc_format config = Generic) && nonempty secret
      then set_field "X-CFVM-Signature" ("sha256=" +++ bytesToHex (hmacSha256 secret (timestamp +++ "." +++ body)))
             (set_field "X-CFVM-Timestamp" timestamp headers)
      else headers in
    Ok {| wr_url := requestUrl; wr_host := host; wr_method := "POST"; wr_body := Some body; wr_headers := headers |}.
End Requests.

(** ** Responses *)

(** A response body: the chunks its reader yields, then the end of the stream
    or a failed read. *)
Record stream := { chunks : list (list Z); fails : bool }.
Definition blen (c : list Z) : Z := Z.of_nat (length c).

(** @worker/src/utils/webhook.ts:341-348 readErrorBody (loop) -- [None] when a
    read fails. *)
Fixpoint read_up_to (limit : Z) (cs : list (list Z)) (fail : bool) (acc : list Z) : option (list Z) :=
  if limit <=? blen acc then Some acc
  else match cs with
  | [] => if fail then None else Some acc
  | value :: rest =>
    let remaining := limit - blen acc in
    let chunk := if remaining <? blen value then take (Z.to_nat remaining) value else value in
    read_up_to limit rest fail (acc ++ chunk)
  end.

(** @worker/src/utils/webhook.ts:380-386 readBusinessResponse (loop) *)
Inductive read_result := ReadAll (bytes : list Z) | ReadTooLarge | ReadFailed.
Fixpoint read_all (limit size : Z) (cs : list (list Z)) (fail : bool) (acc : list Z) : read_result :=
  match cs with
  | [] => if fail then ReadFailed else ReadAll acc
  | value :: rest =>
    let size := size + blen value in
    if limit <? size then ReadTooLarge else read_all limit size rest fail (acc ++ value)
  end.

(** @worker/src/utils/webhook.ts:368-368 BusinessResponse *)
Inductive BusinessResponse := BizOk | BizFail (error : jstr) (retryable : bool).

(** @worker/src/utils/webhook.ts:370-372 isBusinessWebhookFormat *)
Definition isBusinessWebhookFormat (format : WebhookFormat) : bool :=
  match format with Feishu | Dingtalk | Wecom | Discord => true | _ => false end.

(** [/^[1-9]\d{0,19}$/] *)
Definition is_snowflake (s : jstr) : bool :=
  all_units1 is_digit s && negb (starts_with "0" s) && (slen s <=? 20).

Section Sending.
Context (URL : jstr → option url) (with_param : url → jstr → jstr → url)
        (hmacSha256 : jstr → jstr → list Z).
(** [new TextDecoder().decode] and its fatal form, which may throw. *)
Context (decode : list Z → jstr) (decode_fatal : list Z → option jstr).

(** @worker/src/utils/webhook.ts:330-332 normalizeErrorBodyText *)
Definition normalizeErrorBodyText (value : jstr) : jstr := one_line 1024 value.

(** @worker/src/utils/webhook.ts:334-365 readErrorBody *)
Definition readErrorBody (body : option stream) : jstr :=
  match body with
  | None => ""
  | Some s =>
    match read_up_to WEBHOOK_RESPONSE_ERROR_MAX_CHARS (chunks s) (fails s) [] with
    | Some bytes => normalizeErrorBodyText (decode bytes)
    | None => ""
    end
  end.

(** The provider's verdict on a parsed response. *)
Definition business_verdict (format : WebhookFormat) (value : option jsval) : BusinessResponse :=
  let invalid := BizFail (format_name format +++ ": invalid response") false in
  match value with
  | Some (JObj message) =>
    if bool_decide (format = Discord) then
      if forallb (λ field, match fld message field with JStr s => is_snowflake s | _ => false end)
           ["id"; "channel_id"] then BizOk else invalid
    else
      let code := fld message (if bool_decide (format = Feishu) then "code" else "errcode") in
      match code with
      | JNum n =>
        if num_eqb n 0 then BizOk
        else if negb (is_safe_integer n) then invalid
        else
          let retryable :=
            match format with
            | Feishu => num_eqb n 11232
            | Dingtalk => num_eqb n (-1)
            | _ => num_eqb n (-1) || num_eqb n 45009
            end in
          BizFail (format_name format +++ ": code=" +++ num_str n) retryable
      | JStr s => if bool_decide (format = Dingtalk) && jeq s "0" then BizOk else invalid
      | _ => invalid
      end
  | _ => invalid
  end.

(** @worker/src/utils/webhook.ts:374-419 readBusinessResponse -- [None] when a
    read throws *)
Definition readBusinessResponse (body : option stream) (format : WebhookFormat) : option BusinessResponse :=
  let invalid := BizFail (format_name format +++ ": invalid response") false in
  match body with
  | None => Some invalid
  | Some s =>
    match read_all WEBHOOK_PROVIDER_RESPONSE_MAX_BYTES 0 (chunks s) (fails s) [] with
    | ReadFailed => None
    | ReadTooLarge => Some invalid
    | ReadAll bytes =>
      match decode_fatal bytes with
      | None => Some invalid
      | Some text => Some (business_verdict format (json_parse text))
      end
    end
  end.

(** What [scheduledFetch] does on one attempt: a response, an error, or the
    end of the scheduled budget. *)
Inductive fetch_outcome :=
| Responded (status : Z) (body : option stream)
| FetchThrew (message : jstr)
| BudgetExceeded.

(** What one attempt decides. *)
Inductive attempt_result := Return (r : WebhookSendResult) | Continue (r : WebhookSendResult) | Throw.

(** @worker/src/utils/webhook.ts:436-474 sendWebhookMessage (loop body) -- the
    message of a failed body read is [read failed]; it only shows for formats
    whose body is not read. *)
Definition attempt (format : WebhookFormat) (host : jstr) (outcome : fetch_outcome) : attempt_result :=
  match outcome with
  | BudgetExceeded => Throw
  | FetchThrew message =>
    Continue (SendFailed None (Some host)
      (if isBusinessWebhookFormat format then format_name format +++ ": request failed" else errorDetail message))
  | Responded status body =>
    if (200 <=? status) && (status <? 300) then
      if isBusinessWebhookFormat format then
        match readBusinessResponse body format with
        | None => Continue (SendFailed None (Some host) (format_name format +++ ": request failed"))
        | Some BizOk => Return (SendOk status host)
        | Some (BizFail error retryable) =>
          let lastResult := SendFailed (Some status) (Some host) error in
          if negb retryable then Return lastResult else Continue lastResult
        end
      else Return (SendOk status host)
    else
      let businessProvider := isBusinessWebhookFormat format in
      let body := if businessProvider then "" else readErrorBody body in
      let lastResult :=
        SendFailed (Some status) (Some host)
          ("HTTP " +++ dec_Z status +++ (if nonempty body then ": " +++ body else "")) in
      if businessProvider && (status <? 500) && negb (status =? 429) && negb (status =? 408)
      then Return lastResult else Continue lastResult
  end.

(** @worker/src/utils/webhook.ts:433-478 sendWebhookMessage (loop) -- [fetch i]
    is the outcome of the [i]-th request; the second component counts the
    requests made.  [None] is a thrown [ScheduledBudgetExceeded]. *)
Fixpoint send_loop (remaining i : nat) (format : WebhookFormat) (host : jstr)
    (fetch : nat → fetch_outcome) (lastResult : WebhookSendResult) : option WebhookSendResult * nat :=
  match remaining with
  | O => (Some lastResult, i)
  | S k =>
    match attempt format host (fetch i) with
    | Return r => (Some r, S i)
    | Continue r => send_loop k (S i) format host fetch r
    | Throw => (None, S i)
    end
  end.

(** @worker/src/utils/webhook.ts:421-479 sendWebhookMessage *)
Definition sendWebhookMessage (config : WebhookConfig) (n : NotificationMessage) (nowMs : Z)
    (fetch : WebhookRequest → nat → fetch_outcome) : option WebhookSendResult * nat :=
  match buildWebhookRequest URL with_param hmacSha256 config n nowMs with
  | Err e => (Some (SendFailed None None (errorDetail e)), O)
  | Ok request =>
    send_loop (normalizedRetryCount (wc_retryCount config)) 0 (wc_format config) (wr_host request)
      (fetch request) (SendFailed None (Some (wr_host request)) "not_sent")
  end.
End Sending.

(** ** Facts *)

(** What the header validator promises of one header. *)
Definition header_safe (p : jstr * jstr) : Prop :=
  p.1 ≠ "" ∧ (lower p.1 ∉ FORBIDDEN_HEADERS) ∧ lower p.1 ≠ "content-type"
  ∧ any_unit (λ u, is_crlf u || (u =? 58)%N) p.1 = false ∧ any_unit is_crlf p.2 = false.

Lemma set_field_Forall {V} (P : jstr * V → Prop) k v fs :
  (∀ v', P (k, v) → P (k, v')) → P (k, v) → Forall P fs → Forall P (set_field k v fs).
Proof.
  intros _ Hp Hfs. apply Forall_forall. intros p [-> | Hin]%set_field_elem; [done |].
  by apply (proj1 (Forall_forall P fs) Hfs).
Qed.

Lemma collect_headers_safe entries headers out :
  Forall header_safe headers → collect_headers headers entries = Ok out → Forall header_safe out.
Proof.
  revert headers. induction entries as [|[key value] rest IH]; intros headers Hh; simpl; [by intros [= <-] |].
  destruct value as [| | | |value| |]; try done.
  destruct (negb (nonempty (trim key)) || _) eqn:E1; [done |].
  destruct (mem _ _) eqn:E2; [done |]. destruct (jeq (lower (trim key)) "content-type") eqn:E3; [by apply IH |].
  destruct (any_unit is_crlf value) eqn:E4; [done |]. apply IH.
  destruct (jeq (trim key) "__proto__"); [done |].
  apply orb_false_iff in E1 as [E0 E1]. apply negb_false_iff in E0.
  apply Forall_forall. intros p [-> | Hp]%set_field_elem; [| by apply (proj1 (Forall_forall _ _) Hh)].
  unfold header_safe. simpl. split; [| split; [| split; [| by split]]].
  - intros Hnil. by rewrite Hnil in E0.
  - unfold mem in E2. by apply bool_decide_eq_false in E2.
  - unfold jeq in E3. by apply bool_decide_eq_false in E3.
Qed.

(** What the address check promises of a host name. *)
Definition webhook_blocks : list (Z * Z) :=
  [cidr 0 0 0 0 8; cidr 10 0 0 0 8; cidr 127 0 0 0 8; cidr 100 64 0 0 10;
   cidr 169 254 0 0 16; cidr 172 16 0 0 12; cidr 192 168 0 0 16; cidr 198 18 0 0 15].
Definition webhook_host_safe (h : jstr) : Prop :=
  let host := strip_dot (strip_brackets (lower h)) in
  host ≠ "" ∧ host ≠ "localhost" ∧ ends_with ".localhost" host = false
  ∧ (∀ o v, parseIPv4 host = Some o → ipv4_value o = Some v → in_cidrs v webhook_blocks = false)
  ∧ (includes ":" host = true → host ≠ "::" ∧ host ≠ "::1" ∧ isIPv4MappedIPv6 host = false
     ∧ starts_with "fc" host = false ∧ starts_with "fd" host = false ∧ starts_with "fe8" host = false).

Lemma isBlockedIPv4_cidr host o v :
  parseIPv4 host = Some o → ipv4_value o = Some v → isBlockedIPv4 o = in_cidrs v webhook_blocks.
Proof.
  intros Hp Hv. destruct (dotted_quad_octets _ _ Hp) as (a & b & c & d & -> & Ha & Hb & Hc & Hd).
  unfold isBlockedIPv4, webhook_blocks. cidr_solve Ha Hb Hc Hd Hv.
Qed.

Lemma isUnsafeWebhookHostname_safe h : isUnsafeWebhookHostname h = false → webhook_host_safe h.
Proof.
  unfold isUnsafeWebhookHostname, webhook_host_safe. cbv zeta.
  set (host := strip_dot (strip_brackets (lower h))). intros H.
  destruct (negb (nonempty host) || _ || _) eqn:E1; [done |].
  apply orb_false_iff in E1 as [[E0 E1]%orb_false_iff E2]. apply negb_false_iff in E0.
  destruct (jeq host "169.254.169.254" || _); [done |].
  destruct (isAmbiguousNumericHost host); [done |].
  split; [intros Hn; by rewrite Hn in E0 |]. split; [by apply jeq_false |]. split; [done |].
  destruct (parseIPv4 host) as [o|] eqn:Ep.
  - split.
    + intros o' v [= <-] Hv. by rewrite <- (isBlockedIPv4_cidr host o v).
    + intros Hc. by rewrite (dotted_quad_no_colon _ _ Ep) in Hc.
  - split; [done |]. intros Hc. rewrite Hc in H. cbn [negb] in H.
    destruct (isIPv4MappedIPv6 host); [done |]. destruct (jeq host "::" || jeq host "::1") eqn:E3; [done |].
    apply orb_false_iff in E3 as [E3 E4]. rewrite existsb_false in H.
    repeat split; try (by apply jeq_false); apply H; repeat (first [left | right]).
Qed.

Lemma validateWebhookUrl_safe URL raw self u host :
  validateWebhookUrl URL raw self = Ok (u, host) →
  ∃ url, URL (trim raw) = Some url ∧ protocol url = "https:" ∧ username url = "" ∧ password url = ""
         ∧ host = lower (hostname url) ∧ webhook_host_safe (hostname url).
Proof.
  unfold validateWebhookUrl. intros H. destruct (URL (trim raw)) as [url|]; [| done].
  destruct (jeq (protocol url) "https:") eqn:E1; simpl in H; [| done].
  destruct (negb _); [done |]. destruct (nonempty (username url) || _) eqn:E2; [done |].
  destruct (isUnsafeWebhookHostname _) eqn:E3; [done |]. destruct (_ && _); [done |]. injection H as <- <-.
  exists url. unfold jeq, nonempty in *. apply orb_false_iff in E2 as [E2 E2'].
  apply negb_false_iff in E2, E2'. unfold jeq in *. des.
  repeat split; try done; by apply isUnsafeWebhookHostname_safe.
Qed.

(** Every request a build returns goes to a URL that passed the check. *)
Lemma buildWebhookRequest_checked URL wp hm config n now r :
  buildWebhookRequest URL wp hm config n now = Ok r →
  ∃ raw u, validateWebhookUrl URL raw "" = Ok (u, wr_host r).
Proof.
  unfold buildWebhookRequest. case_decide.
  - unfold buildCustomWebhookRequest. intros (h1 & _ & H1)%rbind_Ok. apply rbind_Ok in H1 as (h2 & _ & H2).
    destruct (jeq _ "GET").
    + apply rbind_Ok in H2 as (ru & _ & H2). apply rbind_Ok in H2 as ([u host] & Hv & [= <-]). eauto.
    + apply rbind_Ok in H2 as ([u host] & Hv & H2). apply rbind_Ok in H2 as (b & _ & [= <-]). eauto.
  - intros ([u host] & Hv & H1)%rbind_Ok. apply rbind_Ok in H1 as ([ru bo] & _ & [= <-]). eauto.
Qed.

Lemma send_loop_spec df de format host fetch k i last r n :
  send_loop de df k i format host fetch last = (r, n) →
  (i ≤ n ≤ i + k)%nat
  ∧ (∀ status h, r = Some (SendOk status h) → last = SendOk status h
     ∨ (i < n)%nat ∧ attempt de df format host (fetch (n - 1)%nat) = Return (SendOk status h))
  ∧ (∀ j, (i ≤ j < n - 1)%nat → ∃ e, attempt de df format host (fetch j) = Continue e).
Proof.
  revert i last. induction k as [|k IH]; intros i last; cbn [send_loop].
  { intros [= <- <-]. split; [lia | split; [intros ?? [= ->]; by left | lia]]. }
  destruct (attempt de df format host (fetch i)) as [x|x|] eqn:E.
  - intros [= <- <-]. split; [lia | split; [| intros; lia]].
    intros ?? [= ->]. right. split; [lia |]. by replace (S i - 1)%nat with i by lia.
  - intros H. destruct (IH _ _ H) as (H1 & H2 & H3). split; [lia | split].
    + intros st h Hr. right. destruct (H2 st h Hr) as [-> | [Hlt Ha]].
      * exfalso. unfold attempt in E. break_in E; discriminate.
      * split; [lia | done].
    + intros j Hj. destruct (decide (j = i)) as [-> | Hne]; [eauto | apply H3; lia].
  - intros [= <- <-]. split; [lia | split; [done | intros; lia]].
Qed.

Lemma normalizedRetryCount_range v : (1 ≤ normalizedRetryCount v ≤ 3)%nat.
Proof. unfold normalizedRetryCount. break_goal; des; zify_bool; lia. Qed.

Lemma attempt_ok_status de df format host o status h :
  attempt de df format host o = Return (SendOk status h) →
  200 ≤ status < 300 ∧ h = host ∧ ∃ body, o = Responded status body.
Proof.
  unfold attempt. intros H. break_in H; simplify_eq; des; zify_bool; try (split; [lia | eauto]).
Qed.

(** *** Text truncated to a number of UTF-8 bytes *)

Definition points_bytes (ps : list N) : Z :=
  Z.of_nat (length (flat_map (λ p, utf8_of_point (scalar p)) ps)).

Lemma pair_utf16 u v :
  is_high u && is_low v = true →
  utf16_of_point ((u - 55296) * 1024 + (v - 56320) + 65536)%N = [u; v].
Proof.
  unfold is_high, is_low, utf16_of_point.
  rewrite !andb_true_iff, !N.leb_le, !N.ltb_lt. intros [[H1 H2] [H3 H4]].
  set (p := ((u - 55296) * 1024 + (v - 56320) + 65536)%N).
  rewrite (proj2 (N.ltb_ge p 65536)) by lia.
  replace (p - 65536)%N with ((v - 56320) + (u - 55296) * 1024)%N by lia.
  rewrite N.div_add, N.Div0.mod_add, N.div_small, N.mod_small by lia.
  f_equal; [lia | f_equal; lia].
Qed.

(** Every text is cut between two of its code points into the texts of the
    points before and after the cut. *)
Lemma js_points_cut l : Forall is_unit l → ∀ k,
  let n := length (flat_map utf16_of_point (take k (js_points l))) in
  js_points (take n l) = take k (js_points l)
  ∧ (n ≤ length l)%nat ∧ ((length (js_points l) ≤ k)%nat → n = length l).
Proof.
  remember (length l) as m eqn:Hm. revert l Hm.
  induction m as [m IH] using lt_wf_ind. intros l -> Hl k.
  destruct l as [|u r]; [by destruct k |]. destruct k as [|k]; [simpl; split; [done | split; [lia |]] |].
  { destruct r as [|v r']; [simpl; lia |]. simpl. destruct (is_high u && is_low v); simpl; lia. }
  inversion Hl as [|? ? Hu Hr]; subst. destruct r as [|v r'].
  { assert (Hu1 : utf16_of_point u = [u]) by (unfold utf16_of_point; by rewrite (proj2 (N.ltb_lt _ _) Hu)).
    cbn [js_points take flat_map]. rewrite take_nil. simpl. rewrite Hu1. simpl. by destruct k. }
  inversion Hr as [|? ? Hv Hr']; subst.
  cbn [js_points]. destruct (is_high u && is_low v) eqn:E; cbn [take flat_map].
  - rewrite (pair_utf16 _ _ E). cbn [Datatypes.app length take js_points]. rewrite E.
    destruct (IH (length r') ltac:(simpl; lia) r' eq_refl Hr' k) as (-> & Hle & Hall).
    split; [done | split; [lia |]]. simpl. intros. rewrite Hall by lia. done.
  - assert (Hu1 : utf16_of_point u = [u]) by (unfold utf16_of_point; by rewrite (proj2 (N.ltb_lt _ _) Hu)).
    rewrite Hu1. cbn [Datatypes.app length take].
    destruct (IH (length (v :: r')) ltac:(simpl; lia) (v :: r') eq_refl Hr k) as (Hp & Hle & Hall).
    change (match r' with [] => [v] | v' :: r'0 => if is_high v && is_low v' then _ else v :: js_points r' end)
      with (js_points (v :: r')) in *.
    split; [| split; [simpl in *; lia | cbn [length]; intros Hk; f_equal; apply Hall; lia]].
    destruct (length (flat_map utf16_of_point (take k (js_points (v :: r'))))) as [|n]; rewrite <- Hp; [done |].
    cbn [take js_points]. by rewrite E.
Qed.

Lemma utf8_end_spec ps maxBytes bytes e :
  bytes ≤ maxBytes →
  ∃ k, utf8_end ps maxBytes bytes e = (e + length (flat_map utf16_of_point (take k ps)))%nat
       ∧ bytes + points_bytes (take k ps) ≤ maxBytes
       ∧ (drop k ps = [] ∨ ∃ p rest, drop k ps = p :: rest
                                   ∧ maxBytes < bytes + points_bytes (take k ps ++ [p])).
Proof.
  revert bytes e. induction ps as [|p ps IH]; intros bytes e Hb; cbn [utf8_end].
  { exists 0%nat. simpl. split; [lia | split; [unfold points_bytes; simpl; lia | by left]]. }
  cbv zeta. destruct (maxBytes <? _) eqn:E; zify_bool.
  - exists 0%nat. split; [simpl; lia |]. unfold points_bytes. cbn [take drop].
    split; [simpl; lia |]. right. exists p, ps. split; [done |].
    cbn [flat_map Datatypes.app]. rewrite app_nil_r. lia.
  - destruct (IH _ (e + length (utf16_of_point p))%nat E) as (k & -> & Hle & Hd). exists (S k).
    cbn [take drop flat_map]. unfold points_bytes in *.
    split; [rewrite length_app; lia |]. cbn [flat_map Datatypes.app]. rewrite length_app.
    split; [lia |]. destruct Hd as [Hd | (q & rest & Hd & Hlt)]; [by left | right].
    exists q, rest. split; [done |]. rewrite length_app. lia.
Qed.

(** *** Streams *)

Lemma read_up_to_spec limit cs fail acc :
  0 ≤ limit → blen acc ≤ limit →
  read_up_to limit cs fail acc
  = if negb fail || (limit <=? blen (acc ++ concat cs)) then Some (take (Z.to_nat limit) (acc ++ concat cs))
    else None.
Proof.
  intros Hl. revert acc. induction cs as [|c cs IH]; intros acc Hacc; cbn [read_up_to concat].
  - rewrite app_nil_r. unfold blen in *. destruct (limit <=? _) eqn:E; zify_bool.
    + rewrite orb_true_r. by rewrite take_ge by lia.
    + destruct fail; [done |]. simpl. by rewrite take_ge by lia.
  - unfold blen in *. destruct (limit <=? Z.of_nat (length acc)) eqn:E; zify_bool.
    + rewrite length_app. rewrite (proj2 (Z.leb_le _ _)), orb_true_r by lia.
      by rewrite take_app_le, take_ge by lia.
    + cbv zeta. destruct (limit - _ <? _) eqn:E2; zify_bool.
      * rewrite IH by (rewrite length_app, length_take; lia).
        rewrite !length_app, length_take. rewrite !(proj2 (Z.leb_le limit _)), orb_true_r by lia.
        f_equal. rewrite take_app_le by (rewrite length_app, length_take; lia).
        rewrite (take_ge (acc ++ take _ c)) by (rewrite length_app, length_take; lia).
        rewrite (assoc_L (++)), take_app_le by (rewrite length_app; lia).
        rewrite take_app. rewrite (take_ge acc) by lia. f_equal. f_equal. lia.
      * rewrite IH by (rewrite length_app; lia). by rewrite <- !(assoc_L (++)).
Qed.

Lemma read_all_spec limit size cs fail acc :
  size = blen acc → size ≤ limit →
  read_all limit size cs fail acc
  = if limit <? blen (acc ++ concat cs) then ReadTooLarge
    else if fail then ReadFailed else ReadAll (acc ++ concat cs).
Proof.
  revert size acc. induction cs as [|c cs IH]; intros size acc -> Hs; cbn [read_all concat].
  - rewrite app_nil_r. by rewrite (proj2 (Z.ltb_ge _ _)) by lia.
  - unfold blen in *. cbv zeta. destruct (limit <? _) eqn:E; zify_bool.
    + rewrite !length_app. rewrite (proj2 (Z.ltb_lt _ _)); [done | lia].
    + rewrite IH by (rewrite ?length_app; lia). by rewrite <- (assoc_L (++)).
Qed.

(** ** Properties *)

(** The headers a template configures are safe to send: none is empty, one
    of the hop-by-hop names or [content-type] (in any letter case), and no name
    or value can end the header line. *)
Theorem parseWebhookHeaders_safe headersJson headers :
  parseWebhookHeaders headersJson = Ok headers → Forall header_safe headers.
Proof.
  unfold parseWebhookHeaders. destruct (negb _); [by intros [= <-] |].
  destruct (json_parse _) as [[]|]; try done. by apply collect_headers_safe, Forall_nil.
Qed.


(** A delivery makes at most three requests, whatever the network does;
    it reports success only on a 2xx response to the last request it made, and
    every earlier request ended in a failure that may be retried. *)
Theorem sendWebhookMessage_requests URL wp hm de df config n now fetch r sent :
  sendWebhookMessage URL wp hm de df config n now fetch = (r, sent) →
  (sent ≤ 3)%nat
  ∧ (∀ status host, r = Some (SendOk status host) →
     200 ≤ status < 300
     ∧ ∃ request body, buildWebhookRequest URL wp hm config n now = Ok request ∧ host = wr_host request
       ∧ (0 < sent)%nat ∧ fetch request (sent - 1)%nat = Responded status body
       ∧ ∀ j, (j < sent - 1)%nat →
           ∃ e, attempt de df (wc_format config) host (fetch request j) = Continue e).
Proof.
  unfold sendWebhookMessage. destruct (buildWebhookRequest _ _ _ _ _ _) as [request|e]; [| by intros [= <- <-]; split; [lia |]].
  intros H. pose proof (normalizedRetryCount_range (wc_retryCount config)) as Hr.
  destruct (send_loop_spec _ _ _ _ _ _ _ _ _ _ H) as (H1 & H2 & H3). split; [lia |].
  intros status host Hs. destruct (H2 status host Hs) as [? | [Hpos Ha]]; [done |].
  apply attempt_ok_status in Ha as (? & -> & body & Hf). split; [done |].
  exists request, body. repeat split; try done. intros j Hj. apply H3. lia.
Qed.

(** Text truncated for a provider that counts UTF-8 bytes is a prefix of
    the message, cut between code points, has at most the allowed number of
    bytes, and is the longest such prefix. *)
Theorem truncateUtf8Message_longest value maxBytes :
  Forall is_unit (units value) → 0 ≤ maxBytes →
  let out := truncateUtf8Message value maxBytes in
  byte_length out ≤ maxBytes
  ∧ ∃ k, js_points (units out) = take k (js_points (units value))
         ∧ (out = value ∨ maxBytes < points_bytes (take (S k) (js_points (units value)))).
Proof.
  intros Hu Hm. cbv zeta. unfold truncateUtf8Message, slice_to, byte_length, utf8. cbn [units].
  destruct (utf8_end_spec (js_points (units value)) maxBytes 0 0 Hm) as (k & -> & Hle & Hd).
  destruct (js_points_cut _ Hu k) as (Hp & Hlen & Hall). cbn [Nat.add]. rewrite Hp.
  split; [done |]. exists k. split; [done |]. destruct Hd as [Hd | (p & rest & Hd & Hlt)].
  - left. apply (f_equal length) in Hd. rewrite length_drop in Hd. simpl in Hd.
    rewrite Hall by lia. rewrite take_ge by done. by destruct value.
  - right. assert (Hl : js_points (units value) !! k = Some p).
    { rewrite <- (Nat.add_0_r k), <- lookup_drop, Hd. done. }
    by rewrite (take_S_r _ _ _ Hl).
Qed.

(** A value placed between the quotes of a JSON template is read back by
    the receiver's parser as that value, whatever characters it holds: it can
    neither end the string nor add a property. *)
Theorem jsonTemplateEscape_roundtrip value rest :
  Forall is_unit (units value) →
  json_string (S (length (units value))) (units (jsonTemplateEscape value) ++ 34%N :: rest)
  = Some (units value, rest).
Proof.
  intros Hu. unfold jsonTemplateEscape. cbv zeta. rewrite quote_inner. apply json_string_quote; [done | lia].
Qed.

(** ** Witnesses *)

Definition hook_url (s : jstr) : option url :=
  if jeq s "https://hooks.example.com/x"
  then Some {| protocol := "https:"; username := ""; password := ""; hostname := "hooks.example.com"; port := "";
               pathname := "/x"; search := ""; hash := ""; href := s; origin := "https://hooks.example.com" |}
  else None.
Definition keep_url (u : url) (name value : jstr) : url := u.
Definition no_mac (secret payload : jstr) : list Z := [].
Definition hook_config : WebhookConfig :=
  {| wc_url := " https://hooks.example.com/x"; wc_format := Slack; wc_secret := ""; wc_method := "";
     wc_contentType := ""; wc_headersJson := ""; wc_bodyTemplate := ""; wc_username := ""; wc_password := "";
     wc_retryCount := 3 |}.
Definition hook_message : NotificationMessage :=
  {| nm_subject := "offline"; nm_body := "node-1 is offline"; nm_event := "offline"; nm_clients := "node-1";
     nm_message := ""; nm_time := ""; nm_emoji := "" |}.
Definition hook_request : WebhookRequest :=
  match buildWebhookRequest hook_url keep_url no_mac hook_config hook_message 0 with
  | Ok r => r
  | Err _ => {| wr_url := ""; wr_host := ""; wr_method := ""; wr_body := None; wr_headers := [] |}
  end.
(** The network fails once, then accepts. *)
Definition flaky (r : WebhookRequest) (i : nat) : fetch_outcome :=
  match i with O => FetchThrew "reset" | _ => Responded 204 None end.
Definition headers_sample : jstr := JS (units "{" ++ [34%N] ++ units "X-Token" ++ [34%N; 58%N; 34%N] ++ units "a b" ++ [34%N] ++ units "}").

Lemma parseWebhookHeaders_safe_witness :
  parseWebhookHeaders headers_sample = Ok [("X-Token", "a b")] ∧ Forall header_safe [("X-Token", "a b")].
Proof.
  assert (H : parseWebhookHeaders headers_sample = Ok [("X-Token", "a b")]) by (vm_compute; reflexivity).
  split; [exact H | exact (parseWebhookHeaders_safe _ _ H)].
Defined.


Definition hook_sent : option WebhookSendResult * nat :=
  sendWebhookMessage hook_url keep_url no_mac (λ _, "") (λ _, None) hook_config hook_message 0 flaky.
Lemma sendWebhookMessage_requests_witness :
  hook_sent = (Some (SendOk 204 "hooks.example.com"), 2%nat) ∧ 200 ≤ 204 < 300.
Proof.
  assert (H : hook_sent = (Some (SendOk 204 "hooks.example.com"), 2%nat)) by (vm_compute; reflexivity).
  split; [exact H |].
  exact (proj1 (proj2 (sendWebhookMessage_requests _ _ _ _ _ _ _ _ _ _ _ H) _ _ eq_refl)).
Defined.

Lemma truncateUtf8Message_longest_witness :
  byte_length (truncateUtf8Message "时间 ok" 7) ≤ 7 ∧ truncateUtf8Message "时间 ok" 7 = "时间 ".
Proof.
  split; [| vm_compute; reflexivity].
  apply truncateUtf8Message_longest; [apply (bool_decide_eq_true_1 _); vm_compute; reflexivity | lia].
Defined.

Lemma jsonTemplateEscape_roundtrip_witness :
  json_string 4 (units (jsonTemplateEscape (JS [34; 92; 10]%N)) ++ 34%N :: units ",x") = Some ([34; 92; 10]%N, units ",x").
Proof.
  apply (jsonTemplateEscape_roundtrip (JS [34; 92; 10]%N)). apply (bool_decide_eq_true_1 _). vm_compute. reflexivity.
Defined.

(** The host check of webhooks lets multicast and reserved IPv4 addresses pass,
    which those of ping tasks and website monitors refuse. *)
Lemma multicast_host_passes : isUnsafeWebhookHostname "224.0.0.1" = false ∧ isUnsafeWebhookHostname "255.255.255.255" = false.
Proof. split; vm_compute; reflexivity. Qed.
