(* ===== verification/Settings.v ===== *)
(** * Settings: [worker/src/settings/schema.ts] and [utils/smtp-host.ts]

    The table of settings with their types, defaults and bounds, the
    normalizer of each kind of value, and the views of the stored settings the
    administrator and the public get. *)

From S2P Require Import Prelude JsStr JsNum JsVal JsList Net Webhook.
#[local] Open Scope Z_scope.

(** ** The table *)

(** @worker/src/settings/schema.ts:4-4 SettingType *)
Inductive SettingType := TString | TBoolean | TInteger | TEnum.
(** @worker/src/settings/schema.ts:6-16 SettingDefinition -- no entry of the
    table sets [minLengthWhenSet]. *)
Record SettingDefinition := {
  type : SettingType; defaultValue : jstr; public : bool; sensitive : bool;
  min : option Z; max : option Z; maxLength : option Z; values : list jstr
}.
Definition text (d : jstr) (pub : bool) (len : Z) : SettingDefinition :=
  {| type := TString; defaultValue := d; public := pub; sensitive := false; min := None; max := None;
     maxLength := Some len; values := [] |}.
Definition secret (d : jstr) (len : Z) : SettingDefinition :=
  {| type := TString; defaultValue := d; public := false; sensitive := true; min := None; max := None;
     maxLength := Some len; values := [] |}.
Definition int (d : jstr) (pub : bool) (lo hi : Z) : SettingDefinition :=
  {| type := TInteger; defaultValue := d; public := pub; sensitive := false; min := Some lo; max := Some hi;
     maxLength := None; values := [] |}.
Definition flag (d : jstr) : SettingDefinition :=
  {| type := TBoolean; defaultValue := d; public := false; sensitive := false; min := None; max := None;
     maxLength := None; values := [] |}.
Definition choice (d : jstr) (vs : list jstr) : SettingDefinition :=
  {| type := TEnum; defaultValue := d; public := false; sensitive := false; min := None; max := None;
     maxLength := None; values := vs |}.

(** @worker/src/settings/schema.ts:18-31 REMOVED_SETTING_KEYS *)
Definition REMOVED_SETTING_KEYS : list jstr :=
  ["allow_cors"; "private_site"; "private_site_password"; "tempory_share_token";
   "tempory_share_token_expire_at"; "temporary_share_token"; "temporary_share_token_expire_at";
   "custom_head"; "custom_body"; "custom_footer_html"; "agent_auto_discovery_key"; "update_mode"].

Definition dq (s : jstr) : jstr := JS [34%N] +++ s +++ JS [34%N].
Definition DEFAULT_BODY_TEMPLATE : jstr :=
  "{" +++ dq "message" +++ ":" +++ dq "{{message}}" +++ "," +++ dq "title" +++ ":" +++ dq "{{title}}" +++ "}".

(** @worker/src/settings/schema.ts:34-162 SETTING_SCHEMA *)
Definition SETTING_SCHEMA_core : list (jstr * SettingDefinition) :=
  [("site_title", text "CF VPS Monitor" true 128);
   ("site_subtitle", text "" true 128);
   ("site_description", text "服务器监控探针" true 512);
   ("language", text "zh-CN" true 32);
   ("script_domain", text "" true 256);
   ("site_logo_url", text "" true 256);
   ("site_logo_data", secret "" 1500000);
   ("site_logo_type", text "" false 64);
   ("update_repository_url", text "" false 256);
   ("record_enabled", flag "true");
   ("record_preserve_time", int "72" false 1 72);
   ("ping_record_preserve_time", int "72" false 1 72);
   ("record_persist_interval_sec", int "120" false 3 3600);
   ("ping_record_persist_interval_sec", int "120" true 60 3600);
   ("record_high_watermark_rows", int "700000" false 1000 10000000);
   ("record_high_watermark_bytes", int "419430400" false 16777216 549755813888);
   ("database_storage_budget_bytes", int "524288000" false 67108864 549755813888);
   ("theme_storage_quota_bytes", int "33554432" false 1048576 1073741824);
   ("capacity_daily_view_minutes", int "60" false 0 1440)].
(** @worker/src/settings/schema.ts:163-287 SETTING_SCHEMA *)
Definition SETTING_SCHEMA_delivery : list (jstr * SettingDefinition) :=
  [("audit_log_preserve_time", int "2160" false 24 87600);
   ("live_poll_active_interval_sec", int "3" true 3 300);
   ("live_poll_idle_interval_sec", int "120" true 60 3600);
   ("live_poll_active_max_duration_sec", int "120" true 60 3600);
   ("notification_method", choice "telegram" ["telegram"; "email"; "webhook"; "none"]);
   ("telegram_bot_token", secret "" 256);
   ("telegram_chat_id", secret "" 128);
   ("email_smtp_host", text "" false 255);
   ("email_smtp_port", int "587" false 1 65535);
   ("email_smtp_security", choice "starttls" ["starttls"; "tls"]);
   ("email_smtp_username", secret "" 255);
   ("email_smtp_password", secret "" 512);
   ("email_smtp_from_address", text "" false 254);
   ("email_smtp_from_name", text "CF VPS Monitor" false 128);
   ("email_smtp_recipients", text "" false 4000);
   ("email_smtp_auth_method", choice "plain" ["plain"; "login"]);
   ("webhook_url", secret "" 2048);
   ("webhook_format", choice "generic" ["generic"; "slack"; "discord"; "feishu"; "dingtalk"; "wecom"; "custom"]);
   ("webhook_secret", secret "" 512)].
(** @worker/src/settings/schema.ts:288-374 SETTING_SCHEMA *)
Definition SETTING_SCHEMA_display : list (jstr * SettingDefinition) :=
  [("webhook_method", choice "POST" ["GET"; "POST"]);
   ("webhook_content_type", text "application/json" false 128);
   ("webhook_headers_json", secret "" 4000);
   ("webhook_body_template", text DEFAULT_BODY_TEMPLATE false 8000);
   ("webhook_username", text "" false 256);
   ("webhook_password", secret "" 512);
   ("webhook_retry_count", int "1" false 1 3);
   ("enable_ip_change_notification", flag "false");
   ("offline_notify_never_reported", flag "true");
   ("offline_confirm_rounds", int "3" false 1 10);
   ("theme_bg_desktop", text "" true 1024);
   ("theme_bg_mobile", text "" true 1024);
   ("theme_content_width", int "100" true 60 100);
   ("active_theme", text "monitor" true 64)].
(** @worker/src/settings/schema.ts:33-375 SETTING_SCHEMA -- the three parts of
    the table in order. *)
Definition SETTING_SCHEMA : list (jstr * SettingDefinition) :=
  SETTING_SCHEMA_core ++ SETTING_SCHEMA_delivery ++ SETTING_SCHEMA_display.
(** @worker/src/settings/schema.ts:379-379 SETTING_KEYS *)
Definition SETTING_KEYS : list jstr := map fst SETTING_SCHEMA.
(** @worker/src/settings/schema.ts:380-380 PUBLIC_SETTING_KEYS *)
Definition PUBLIC_SETTING_KEYS : list jstr := map fst (List.filter (λ p, public p.2) SETTING_SCHEMA).
(** @worker/src/settings/schema.ts:526-528 isKnownSettingKey *)
Definition isKnownSettingKey (key : jstr) : bool := mem key SETTING_KEYS.

(** ** Normalizers: [None] is the source's [null] *)

(** @worker/src/settings/schema.ts:387-392 settingToString *)
Definition settingToString (value : jsval) : option jstr :=
  match value with
  | JStr s => Some s
  | JNum n => if is_finite n then Some (num_str n) else None
  | JBool b => Some (if b then "true" else "false")
  | _ => None
  end.

(** @worker/src/settings/schema.ts:394-401 normalizeBoolean *)
Definition normalizeBoolean (value : jsval) : option jstr :=
  match value with
  | JBool b => Some (if b then "true" else "false")
  | JStr s =>
    let normalized := lower (trim s) in
    if jeq normalized "true" || jeq normalized "1" then Some "true"
    else if jeq normalized "false" || jeq normalized "0" then Some "false"
    else None
  | _ => None
  end.

(** @worker/src/settings/schema.ts:403-412 normalizeInteger *)
Definition normalizeInteger (value : jsval) (definition : SettingDefinition) : option jstr :=
  if is_blank value then Some (defaultValue definition)
  else
    let numberValue := match value with JNum n => n | _ => str_num (trim (to_str value)) end in
    if negb (is_finite numberValue) || negb (is_integer numberValue) then None
    else if match min definition with Some lo => num_lt numberValue lo | None => false end then None
    else if match max definition with Some hi => num_lt hi numberValue | None => false end then None
    else Some (num_str numberValue).

(** @worker/src/settings/schema.ts:414-417 isLocalHttpHost *)
Definition isLocalHttpHost (hostname : jstr) : bool :=
  let host := lower hostname in
  jeq host "localhost" || jeq host "127.0.0.1" || jeq host "::1" || jeq host "[::1]".

(** [/^https?:\/\//i] *)
Definition has_http_scheme (s : jstr) : bool :=
  starts_with "http://" (lower (slice_to 7 s)) || starts_with "https://" (lower (slice_to 8 s)).

(** [/^\/api\/site-logo(?:\?v=\d+)?$/] *)
Definition is_site_logo_url (s : jstr) : bool :=
  jeq s "/api/site-logo"
  || (starts_with "/api/site-logo?v=" s && all_units1 is_digit (slice_from 17 s)).

(** @worker/src/settings/schema.ts:435-440 normalizeSiteLogoUrl *)
Definition normalizeSiteLogoUrl (value : jsval) : option jstr :=
  if is_blank value then Some ""
  else match value with
  | JStr s => let raw := trim s in if is_site_logo_url raw then Some raw else None
  | _ => None
  end.

(** [/^[^\s@<>]+@[^\s@<>]+\.[^\s@<>]+$/] *)
Definition email_unit (u : N) : bool :=
  negb (is_space u || (u =? 64)%N || (u =? 60)%N || (u =? 62)%N).
(** A dot with a code unit on each side. *)
Definition inner_dot (domain : list N) : bool :=
  match domain with [] => false | _ :: r => existsb (chr 46) (removelast r) end.
Definition is_email (s : jstr) : bool :=
  match split_on (chr 64) s with
  | [local; domain] =>
    all_units1 email_unit local && all_units email_unit domain && inner_dot (units domain)
  | _ => false
  end.

(** @worker/src/settings/schema.ts:465-471 normalizeEmailAddress *)
Definition normalizeEmailAddress (value : jsval) : option jstr :=
  if is_blank value then Some ""
  else match value with
  | JStr s =>
    let email := trim s in
    if negb (nonempty email) || (254 <? slen email) then None
    else if is_email email then Some email else None
  | _ => None
  end.

(** [[...new Set(xs)]] *)
Fixpoint dedupe (seen l : list jstr) : list jstr :=
  match l with
  | [] => []
  | x :: r => if mem x seen then dedupe seen r else x :: dedupe (x :: seen) r
  end.

(** @worker/src/settings/schema.ts:473-483 normalizeEmailRecipients *)
Definition normalizeEmailRecipients (value : jsval) : option jstr :=
  if is_blank value then Some ""
  else match value with
  | JStr s =>
    if 4000 <? slen s then None
    else
      let recipients :=
        List.filter nonempty (map trim (split_on (λ u, (u =? 59) || (u =? 44) || (u =? 10))%N s)) in
      if (length recipients =? 0)%nat || (20 <? length recipients)%nat then None
      else if existsb (λ item, match normalizeEmailAddress (JStr item) with
                               | Some e => negb (nonempty e)
                               | None => true
                               end) recipients then None
      else Some (join "," (dedupe [] recipients))
  | _ => None
  end.

(** @worker/src/settings/schema.ts:503-509 normalizeWebhookContentType *)
Definition normalizeWebhookContentType (value : jsval) : option jstr :=
  if is_blank value then Some "application/json"
  else match value with
  | JStr s =>
    let text := trim s in
    if negb (nonempty text) || any_unit is_crlf text || any_unit (λ u, (u <=? 31) || (u =? 127))%N text then None
    else if includes "/" text then Some text else None
  | _ => None
  end.

(** @worker/src/settings/schema.ts:511-524 normalizeWebhookHeadersJson *)
Definition normalizeWebhookHeadersJson (value : jsval) : option jstr :=
  if is_blank value then Some ""
  else match value with
  | JStr s =>
    let text := trim s in
    if negb (nonempty text) then Some ""
    else match json_parse text with
    | Some (JObj entries) =>
      if existsb (λ p, negb (nonempty p.1) || match p.2 with JStr _ => false | _ => true end) entries
      then None else Some text
    | _ => None
    end
  | _ => None
  end.

Section Normalizers.
Context (URL : jstr → option url).

(** @worker/src/settings/schema.ts:419-433 normalizeScriptDomain *)
Definition normalizeScriptDomain (value : jsval) : option jstr :=
  if is_blank value then Some ""
  else match value with
  | JStr s =>
    let raw := trim s in
    if negb (nonempty raw) then Some ""
    else
      let withScheme := if has_http_scheme raw then raw else "https://" +++ raw in
      match URL withScheme with
      | None => None
      | Some u =>
        if negb (jeq (protocol u) "https:") && negb (jeq (protocol u) "http:" && isLocalHttpHost (hostname u))
        then None
        else if nonempty (username u) || nonempty (password u) || negb (nonempty (hostname u)) then None
        else Some (origin u)
      end
  | _ => None
  end.

(** [/^[A-Za-z0-9_.-]+\/[A-Za-z0-9_.-]+(?:\.git)?$/] *)
Definition repo_unit (u : N) : bool := is_alnum u || (u =? 95)%N || (u =? 46)%N || (u =? 45)%N.
Definition is_owner_repo (s : jstr) : bool :=
  match split_on (chr 47) s with
  | [owner; repo] => all_units1 repo_unit owner && all_units1 repo_unit repo
  | _ => false
  end.
(** [path.replace(/^\/+|\/+$/g, '').replace(/\.git$/i, '')] *)
Definition strip_slashes (s : jstr) : jstr := JS (drop_while_end (chr 47) (drop_while (chr 47) (units s))).
Definition strip_git (s : jstr) : jstr :=
  if jeq (lower (slice_last 4 s)) ".git" then JS (take (length (units s) - 4) (units s)) else s.

(** @worker/src/settings/schema.ts:442-463 normalizeUpdateRepositoryUrl *)
Definition normalizeUpdateRepositoryUrl (value : jsval) : option jstr :=
  if is_blank value then Some ""
  else match value with
  | JStr s =>
    let raw := trim s in
    let withScheme :=
      if has_http_scheme raw then raw
      else if starts_with "github.com/" raw then "https://" +++ raw
      else if is_owner_repo raw then "https://github.com/" +++ raw
      else raw in
    match URL withScheme with
    | None => None
    | Some u =>
      if negb (jeq (protocol u) "https:") || negb (jeq (lower (hostname u)) "github.com") then None
      else if nonempty (username u) || nonempty (password u) || nonempty (search u) || nonempty (hash u) then None
      else match split_on (chr 47) (strip_git (strip_slashes (pathname u))) with
      | [owner; repo] =>
        if nonempty owner && nonempty repo then Some ("https://github.com/" +++ owner +++ "/" +++ repo) else None
      | _ => None
      end
    end
  | _ => None
  end.

(** @worker/src/utils/smtp-host.ts:4-13 normalizeSmtpHost *)
Definition normalizeSmtpHost (value : jsval) : option jstr :=
  if is_blank value then Some ""
  else match value with
  | JStr s =>
    let host := lower (trim s) in
    if negb (nonempty host) || any_unit (λ u, is_space u || bool_decide (u ∈ units "/@:?#\")) host then None
    else match validateWebhookUrl URL ("https://" +++ host +++ "/") "" with
    | Ok (_, validated) => if jeq validated host then Some host else None
    | Err _ => None
    end
  | _ => None
  end.

(** @worker/src/settings/schema.ts:489-501 normalizeWebhookUrlForWrite *)
Definition normalizeWebhookUrlForWrite (value : jsval) (selfHost : jstr) : result jstr jstr :=
  if is_blank value then Ok ""
  else match value with
  | JStr s =>
    match validateWebhookUrl URL s selfHost with
    | Ok (u, _) => Ok u
    | Err e =>
      if jeq e "self_host" then Err "webhook_url 不能填本站地址，否则告警会绕回自己；请填写外部接收方的地址"
      else Err "webhook_url 类型或取值无效"
    end
  | _ => Err "webhook_url 类型或取值无效"
  end.

(** [/^[A-Za-z0-9_-]+$/] *)
Definition is_theme_id (s : jstr) : bool := all_units1 (λ u, is_alnum u || (u =? 95)%N || (u =? 45)%N) s.
(** @worker/src/settings/schema.ts:570-574 normalizeSettingValue (active_theme) *)
Definition normalizeActiveTheme (value : jsval) : option jstr :=
  let text := or_str (match settingToString value with Some s => trim s | None => "" end) "monitor" in
  let activeTheme := if jeq text "default" then "monitor" else text in
  if is_theme_id activeTheme then Some activeTheme else None.

(** @worker/src/settings/schema.ts:554-575 normalizeSettingValue (string) *)
Definition normalizeString (key : jstr) (value : jsval) (selfHost : jstr) : result jstr (option jstr) :=
  if jeq key "script_domain" then Ok (normalizeScriptDomain value)
  else if jeq key "site_logo_url" then Ok (normalizeSiteLogoUrl value)
  else if jeq key "update_repository_url" then Ok (normalizeUpdateRepositoryUrl value)
  else if jeq key "email_smtp_host" then Ok (normalizeSmtpHost value)
  else if jeq key "email_smtp_from_address" then Ok (normalizeEmailAddress value)
  else if jeq key "email_smtp_recipients" then Ok (normalizeEmailRecipients value)
  else if jeq key "webhook_url" then let* u := normalizeWebhookUrlForWrite value selfHost in Ok (Some u)
  else if jeq key "webhook_content_type" then Ok (normalizeWebhookContentType value)
  else if jeq key "webhook_headers_json" then Ok (normalizeWebhookHeadersJson value)
  else if jeq key "active_theme" then Ok (normalizeActiveTheme value)
  else Ok (settingToString value).

(** @worker/src/settings/schema.ts:530-599 normalizeSettingValue *)
Definition normalizeSettingValue (key : jstr) (value : jsval) (selfHost : jstr) : result jstr jstr :=
  match lookup_field key SETTING_SCHEMA with
  | None => Err ("未知设置: " +++ key)
  | Some definition =>
    let* normalized :=
      match type definition with
      | TBoolean => Ok (normalizeBoolean value)
      | TInteger => Ok (normalizeInteger value definition)
      | TEnum =>
        Ok (match settingToString value with
            | Some text => if nonempty text && mem text (values definition) then Some text else None
            | None => None
            end)
      | TString => normalizeString key value selfHost
      end in
    match normalized with
    | None => Err (key +++ " 类型或取值无效")
    | Some normalized =>
      if jeq key "email_smtp_port" && jeq normalized "25" then Err "email_smtp_port 不支持 25 端口"
      else match maxLength definition with
      | Some len =>
        if len <? slen normalized then Err (key +++ " 超过最大长度 " +++ dec_Z len) else Ok normalized
      | None => Ok normalized
      end
    end
  end.

(** ** Storing and reading settings *)

Record sanitized := { sn_ok : bool; sn_settings : list (jstr * jstr); sn_errors : list jstr; sn_ignored : list jstr }.

(** @worker/src/settings/schema.ts:614-625 sanitizeSettingsForStorage (loop) *)
Fixpoint sanitize_loop (ignoreRemoved : bool) (selfHost : jstr) (settings : list (jstr * jstr))
    (errors ignored : list jstr) (entries : fields) : sanitized :=
  match entries with
  | [] => {| sn_ok := bool_decide (errors = []); sn_settings := settings; sn_errors := errors; sn_ignored := ignored |}
  | (key, value) :: rest =>
    if mem key REMOVED_SETTING_KEYS && ignoreRemoved
    then sanitize_loop ignoreRemoved selfHost settings errors (ignored ++ [key]) rest
    else match normalizeSettingValue key value selfHost with
    | Err e => sanitize_loop ignoreRemoved selfHost settings (errors ++ [e]) ignored rest
    | Ok v => sanitize_loop ignoreRemoved selfHost (set_field key v settings) errors ignored rest
    end
  end.
(** @worker/src/settings/schema.ts:601-628 sanitizeSettingsForStorage *)
Definition sanitizeSettingsForStorage (input : jsval) (ignoreRemoved : bool) (selfHost : jstr) : sanitized :=
  match input with
  | JObj entries => sanitize_loop ignoreRemoved selfHost [] [] [] entries
  | _ => {| sn_ok := false; sn_settings := []; sn_errors := ["设置必须是对象"]; sn_ignored := [] |}
  end.

(** @worker/src/settings/schema.ts:633-634 buildAdminSettings (loop body) *)
Definition admin_value (stored : list (jstr * jstr)) (key : jstr) (definition : SettingDefinition) : jstr :=
  match normalizeSettingValue key (JStr (default (defaultValue definition) (lookup_field key stored))) "" with
  | Ok v => v
  | Err _ => defaultValue definition
  end.
(** @worker/src/settings/schema.ts:630-637 buildAdminSettings *)
Definition buildAdminSettings (stored : list (jstr * jstr)) : list (jstr * jstr) :=
  map (λ p, (p.1, admin_value stored p.1 p.2)) SETTING_SCHEMA.

(** @worker/src/settings/schema.ts:639-643 PublicThemeSettings *)
Record PublicThemeSettings := {
  backgroundImageUrlDesktop : jstr; backgroundImageUrlMobile : jstr; mainContentWidth : num
}.
(** @worker/src/settings/schema.ts:645-647 PublicSettings *)
Record PublicSettings := { ps_values : list (jstr * jstr); theme_settings : PublicThemeSettings }.

(** @worker/src/settings/schema.ts:649-665 buildPublicSettings *)
Definition buildPublicSettings (stored : list (jstr * jstr)) : PublicSettings :=
  let adminSettings := buildAdminSettings stored in
  let get key := default "" (lookup_field key adminSettings) in
  {| ps_values := map (λ p, (p.1, get p.1))
       (List.filter (λ p, negb (negb (public p.2) || starts_with "theme_" p.1)) SETTING_SCHEMA);
     theme_settings := {| backgroundImageUrlDesktop := get "theme_bg_desktop";
                          backgroundImageUrlMobile := get "theme_bg_mobile";
                          mainContentWidth := str_num (get "theme_content_width") |} |}.

(** @worker/src/settings/schema.ts:667-673 isRecordPersistenceEnabled -- the
    argument is the text given, or the stored value of [record_enabled]. *)
Definition isRecordPersistenceEnabled (value : option jstr) : bool :=
  match normalizeSettingValue "record_enabled" (JStr (default "true" value)) "" with
  | Ok v => jeq v "true"
  | Err _ => true
  end.
End Normalizers.

(** ** Facts *)

(** What the table promises of a stored value. *)
Definition value_ok (key : jstr) (d : SettingDefinition) (v : jstr) : Prop :=
  match type d with
  | TBoolean => v = "true" ∨ v = "false"
  | TInteger => ∃ z, v = dec_Z z ∧ default 0 (min d) ≤ z ≤ default 0 (max d)
  | TEnum => v ∈ values d
  | TString => True
  end
  ∧ (∀ n, maxLength d = Some n → slen v ≤ n)
  ∧ (key = "email_smtp_port" → v ≠ "25").

(** The entries of the table are well formed: an integer setting has safe
    bounds, and every default is a value of its setting. *)
Definition entry_ok (p : jstr * SettingDefinition) : bool :=
  let '(key, d) := p in
  match type d with
  | TBoolean => jeq (defaultValue d) "true" || jeq (defaultValue d) "false"
  | TInteger =>
    match min d, max d, num_Z (str_num (defaultValue d)) with
    | Some lo, Some hi, Some z =>
      (lo <=? z) && (z <=? hi) && (0 <=? lo) && (hi <=? max_safe) && jeq (defaultValue d) (dec_Z z)
    | _, _, _ => false
    end
  | TEnum => mem (defaultValue d) (values d)
  | TString => true
  end
  && match maxLength d with Some n => slen (defaultValue d) <=? n | None => true end
  && negb (jeq key "email_smtp_port" && jeq (defaultValue d) "25").

Lemma SETTING_SCHEMA_entries : forallb entry_ok SETTING_SCHEMA = true.
Proof. vm_compute. reflexivity. Qed.
Lemma SETTING_KEYS_NoDup : NoDup SETTING_KEYS.
Proof. apply (bool_decide_eq_true_1 _). vm_compute. reflexivity. Qed.

Lemma schema_entry key d : lookup_field key SETTING_SCHEMA = Some d → entry_ok (key, d) = true.
Proof.
  intros H%lookup_field_elem. pose proof SETTING_SCHEMA_entries as Ha. rewrite forallb_true in Ha. by apply Ha.
Qed.

Lemma entry_default_ok key d : entry_ok (key, d) = true → value_ok key d (defaultValue d).
Proof.
  unfold entry_ok, value_ok. intros [[Ht Hlen]%andb_true_iff Hport]%andb_true_iff. split; [| split].
  - destruct (type d).
    + done.
    + apply orb_true_iff in Ht as [H | H]; apply jeq_true in H; auto.
    + destruct (min d) as [lo|], (max d) as [hi|]; try done.
      destruct (num_Z (str_num (defaultValue d))) as [z|]; [| done]. des. zify_bool.
      exists z. split; [by apply jeq_true | done].
    + by apply mem_spec.
  - intros n Hn. rewrite Hn in Hlen. zlia.
  - intros -> Hv. rewrite Hv, jeq_refl in Hport. by vm_compute in Hport.
Qed.

Lemma normalizeBoolean_ok v s : normalizeBoolean v = Some s → s = "true" ∨ s = "false".
Proof.
  unfold normalizeBoolean. intros H. destruct v as [| |b| |t| |]; try done; [destruct b; injection H as <-; auto |].
  break_in H; auto.
Qed.

Lemma normalizeInteger_ok key d v s :
  entry_ok (key, d) = true → type d = TInteger → normalizeInteger v d = Some s →
  s = defaultValue d ∨ ∃ z, s = dec_Z z ∧ default 0 (min d) ≤ z ≤ default 0 (max d) ∧ Z.abs z ≤ max_safe.
Proof.
  unfold entry_ok, normalizeInteger. intros He Ht H. rewrite Ht in He.
  destruct (is_blank v); [left; congruence |]. right. cbv zeta in H.
  set (n := match v with JNum n => n | _ => str_num (trim (to_str v)) end) in H.
  apply andb_true_iff in He as [[He _]%andb_true_iff _].
  destruct (min d) as [lo|], (max d) as [hi|]; try done. destruct (num_Z (str_num (defaultValue d))) as [z0|]; [| done]. des. zify_bool.
  destruct (negb (is_finite n) || negb (is_integer n)) eqn:E1; [done |].
  destruct (num_lt n lo) eqn:E2; [done |]. destruct (num_lt hi n) eqn:E3; [done |]. injection H as <-.
  apply orb_false_iff in E1 as [_ E1]. apply negb_false_iff in E1.
  destruct (integer_between n lo hi E1 E2 E3) as (z & Hz & Hb). exists z. simpl.
  assert (Z.abs z ≤ max_safe) by lia. by rewrite (num_str_Z _ _ Hz).
Qed.

(** Every value the normalizer returns is a value of its setting. *)
Lemma normalizeSettingValue_value_ok URL key value self v d :
  lookup_field key SETTING_SCHEMA = Some d → normalizeSettingValue URL key value self = Ok v → value_ok key d v.
Proof.
  intros Hk. pose proof (schema_entry _ _ Hk) as He. unfold normalizeSettingValue. rewrite Hk.
  intros (o & Ho & H)%rbind_Ok. destruct o as [w|]; [| done].
  destruct (jeq key "email_smtp_port" && jeq w "25") eqn:Ep; [done |].
  assert (Hw : w = v ∧ ∀ n, maxLength d = Some n → slen v ≤ n).
  { destruct (maxLength d) as [n|]; [| by injection H as <-]. destruct (n <? slen w) eqn:E; [done |].
    injection H as <-. split; [done |]. intros ? [= <-]. zlia. }
  destruct Hw as [<- Hlen]. clear H.
  assert (Hport : key = "email_smtp_port" → w ≠ "25").
  { intros -> ->. by rewrite !jeq_refl in Ep. }
  split; [| split; done]. destruct (type d) eqn:Et; [done | | |]; injection Ho as Ho.
  - by apply normalizeBoolean_ok with value.
  - destruct (normalizeInteger_ok _ _ _ _ He Et Ho) as [-> | (z & -> & Hz & _)]; [| eauto].
    pose proof (entry_default_ok _ _ He) as [Hd _]. by rewrite Et in Hd.
  - destruct (settingToString value) as [s|]; [| done]. destruct (nonempty s && mem s (values d)) eqn:E; [| done].
    injection Ho as <-. apply mem_spec. by apply andb_true_iff in E as [_ E].
Qed.

Lemma lookup_field_map {V W} (f : jstr → V → W) k (l : list (jstr * V)) :
  lookup_field k (map (λ p, (p.1, f p.1 p.2)) l) = f k <$> lookup_field k l.
Proof. induction l as [|[k' v] l IH]; simpl; [done |]. case_decide; [by subst | done]. Qed.

Lemma admin_value_ok URL stored key d :
  lookup_field key SETTING_SCHEMA = Some d → value_ok key d (admin_value URL stored key d).
Proof.
  intros Hk. unfold admin_value. destruct (normalizeSettingValue _ _ _ _) eqn:E.
  - by eapply normalizeSettingValue_value_ok.
  - by apply entry_default_ok, schema_entry.
Qed.

Lemma lookup_field_NoDup {V} (l : list (jstr * V)) k v :
  NoDup (map fst l) → (k, v) ∈ l → lookup_field k l = Some v.
Proof.
  induction l as [|[k' v'] l IH]; simpl; [by intros _ ?%not_elem_of_nil |].
  intros [Hn Hnd]%NoDup_cons [[= -> ->] | Hin]%elem_of_cons; [by rewrite decide_True |].
  rewrite decide_False; [by apply IH |]. intros ->. apply Hn. apply list_elem_of_fmap. by exists (k', v).
Qed.

(** *** Reading a normalized value again *)

(** The settings whose value goes through the URL parser. *)
Definition URL_KEYS : list jstr := ["script_domain"; "update_repository_url"; "email_smtp_host"; "webhook_url"].

Lemma is_blank_str s : is_blank (JStr s) = jeq s "".
Proof. done. Qed.

Lemma integer_reread d z :
  min d = Some (default 0 (min d)) → max d = Some (default 0 (max d)) →
  default 0 (min d) ≤ z ≤ default 0 (max d) → Z.abs z ≤ max_safe →
  normalizeInteger (JStr (dec_Z z)) d = Some (dec_Z z).
Proof.
  intros Hlo Hhi Hz Hs. unfold normalizeInteger. rewrite is_blank_str.
  assert (Ht : trim (dec_Z z) = dec_Z z ∧ jeq (dec_Z z) "" = false).
  { assert (Hd : ∀ l, forallb is_digit l = true → forallb (λ u, negb (is_space u)) l = true).
    { intros l. rewrite !forallb_true. intros H x Hx. apply negb_true_iff, digit_not_space; auto. }
    unfold dec_Z. destruct (z <? 0) eqn:E; zify_bool.
    - destruct (dec_nat_spec (- z)) as (_ & Hf & _); [lia |]. split; [apply trim_id; simpl; by apply Hd | by apply jeq_false].
    - destruct (dec_nat_spec z) as (_ & Hf & Hne); [lia |]. split; [apply trim_id; by apply Hd |].
      apply jeq_false. intros [= Hn]. by apply Hne. }
  destruct Ht as [Ht ->]. cbn [to_str]. rewrite Ht, (str_num_dec_Z z Hs).
  unfold is_integer. rewrite num_Z_of_Z. cbn [is_finite negb orb of_Z]. rewrite Hlo, Hhi.
  change (Fin (inject_Z z)) with (of_Z z).
  rewrite (num_lt_of_Z _ z) by apply num_Z_of_Z. rewrite (num_gt_of_Z _ z) by apply num_Z_of_Z.
  rewrite (proj2 (Z.ltb_ge z _)), (proj2 (Z.ltb_ge _ z)) by lia.
  by rewrite (num_str_Z _ z (num_Z_of_Z z) Hs).
Qed.

Lemma email_reread v s : normalizeEmailAddress v = Some s → normalizeEmailAddress (JStr s) = Some s.
Proof.
  unfold normalizeEmailAddress. destruct (is_blank v); [by intros [= <-] |]. destruct v as [| | | |t| |]; try done.
  cbv zeta. rewrite is_blank_str. destruct (negb (nonempty (trim t)) || _) eqn:E; [done |].
  destruct (is_email (trim t)) eqn:Em; [| done]. intros [= <-].
  rewrite trim_trim, E, Em. by destruct (jeq (trim t) "") eqn:Ej; [apply jeq_true in Ej; rewrite Ej in E |].
Qed.

Lemma dedupe_spec seen l :
  NoDup (dedupe seen l) ∧ ∀ x, x ∈ dedupe seen l ↔ x ∈ l ∧ x ∉ seen.
Proof.
  revert seen. induction l as [|a l IH]; intros seen; cbn [dedupe].
  { split; [apply NoDup_nil_2 |]. set_solver. }
  destruct (mem a seen) eqn:E; [apply mem_spec in E | apply mem_false in E].
  - destruct (IH seen) as [H1 H2]. split; [done |]. intros x. rewrite H2. set_solver.
  - destruct (IH (a :: seen)) as [H1 H2]. split; [apply NoDup_cons; split; [rewrite H2; set_solver | done] |].
    intros x. rewrite elem_of_cons, H2. destruct (decide (x = a)); set_solver.
Qed.
Lemma dedupe_id seen l : NoDup l → (∀ x, x ∈ l → x ∉ seen) → dedupe seen l = l.
Proof.
  revert seen. induction l as [|a l IH]; intros seen; cbn [dedupe]; [done |].
  intros [Ha Hl]%NoDup_cons Hs. rewrite (proj2 (mem_false a seen)) by (apply Hs; left).
  f_equal. apply IH; [done |]. intros x Hx. apply not_elem_of_cons. split; [congruence | apply Hs; by right].
Qed.
Lemma dedupe_length seen l : (length (dedupe seen l) ≤ length l)%nat.
Proof. revert seen. induction l as [|a l IH]; intros seen; cbn [dedupe]; [done |]. destruct (mem a seen); simpl; specialize (IH seen) as H1; specialize (IH (a :: seen)); lia. Qed.

Definition is_separator (u : N) : bool := ((u =? 59) || (u =? 44) || (u =? 10))%N.

Lemma recipients_reread v s :
  normalizeEmailRecipients v = Some s → slen s ≤ 4000 → normalizeEmailRecipients (JStr s) = Some s.
Proof.
  unfold normalizeEmailRecipients. destruct (is_blank v); [by intros [= <-] |]. destruct v as [| | | |t| |]; try done.
  destruct (4000 <? slen t); [done |]. cbv zeta. fold is_separator.
  set (items := List.filter nonempty (map trim (split_on is_separator t))).
  destruct ((length items =? 0)%nat || _) eqn:El; [done |]. destruct (existsb _ items) eqn:Ee; [done |].
  intros [= <-]. set (xs := dedupe [] items). intros Hlen.
  destruct (dedupe_spec [] items) as [Hnd Hin]. fold xs in Hnd, Hin.
  assert (Hitem : ∀ x, x ∈ xs → nonempty x = true ∧ trim x = x ∧ forallb (λ u, negb (is_separator u)) (units x) = true).
  { intros x [Hx _]%Hin. unfold items in Hx. apply list_elem_of_In, List.filter_In in Hx as [Hx Hne].
    split; [done |]. apply in_map_iff in Hx as (y & <- & Hy). split; [apply trim_trim |].
    apply trim_forallb, split_on_none with t. by apply list_elem_of_In. }
  assert (Hne : xs ≠ []).
  { destruct items as [|a r] eqn:Ei; [done |]. unfold xs. cbn [dedupe]. done. }
  rewrite is_blank_str. destruct (jeq (join "," xs) "") eqn:Ej; [by apply jeq_true in Ej; rewrite Ej |].
  rewrite (proj2 (Z.ltb_ge _ _) Hlen).
  rewrite (split_join is_separator 44 xs) by (try done; intros x Hx; by apply Hitem).
  assert (Hmap : List.filter nonempty (map trim xs) = xs).
  { clear -Hitem. induction xs as [|x r IH]; [done |]. cbn [map List.filter].
    destruct (Hitem x ltac:(left)) as (H1 & -> & _). rewrite H1. f_equal. apply IH. intros y Hy. apply Hitem. by right. }
  rewrite Hmap. pose proof (dedupe_length [] items) as Hle. fold xs in Hle.
  assert (E0 : ((length xs =? 0)%nat || (20 <? length xs)%nat) = false).
  { apply orb_false_iff in El as [_ El]. apply Nat.ltb_ge in El. apply orb_false_iff.
    split; [by destruct xs | apply Nat.ltb_ge; lia]. }
  rewrite E0. rewrite (proj2 (existsb_false _ xs)).
  - rewrite dedupe_id; [done | done | set_solver].
  - intros x [Hx _]%Hin. rewrite existsb_false in Ee. by apply Ee.
Qed.

Lemma theme_reread v s : normalizeActiveTheme v = Some s → normalizeActiveTheme (JStr s) = Some s.
Proof.
  unfold normalizeActiveTheme. cbv zeta. set (text := or_str _ _). intros H.
  destruct (is_theme_id (if jeq text "default" then "monitor" else text)) eqn:E; [| done]. injection H as Hs.
  rewrite Hs in E. cbn [settingToString].
  assert (Ht : trim s = s).
  { destruct s as [l]. apply trim_id. unfold is_theme_id, all_units1, all_units in E.
    apply andb_true_iff in E as [_ E]. rewrite forallb_true in E |- *. cbn [units] in E.
    intros u Hu. specialize (E u Hu). apply negb_true_iff.
    unfold is_alnum, is_alpha, is_upper, is_lower, is_digit in E.
    rewrite !orb_true_iff, !andb_true_iff, !N.leb_le, !N.eqb_eq in E. unfold is_space.
    repeat (apply orb_false_iff; split);
      first [apply N.eqb_neq; lia | apply andb_false_iff; rewrite !N.leb_gt; lia]. }
  assert (Hd : jeq s "default" = false).
  { destruct (jeq text "default") eqn:Et; [by rewrite <- Hs |]. by rewrite <- Hs. }
  rewrite Ht. unfold or_str. unfold is_theme_id, all_units1 in E |- *. apply andb_true_iff in E as [E0 E].
  by rewrite E0, Hd, E0, E.
Qed.

Lemma trimmed_reread (ok : jstr → bool) (dflt : jstr) v s :
  (if is_blank v then Some dflt else match v with
     | JStr t => if ok (trim t) then Some (trim t) else None | _ => None end) = Some s →
  (dflt = "" ∨ ok dflt = true ∧ trim dflt = dflt) → ok "" = false →
  (if jeq s "" then Some dflt else if ok (trim s) then Some (trim s) else None) = Some s.
Proof.
  intros H Hd Hn. destruct (is_blank v).
  - injection H as <-. destruct Hd as [-> | [Hd Ht]]; [done |]. destruct (jeq dflt "") eqn:E; [done |]. by rewrite Ht, Hd.
  - destruct v as [| | | |t| |]; try done. destruct (ok (trim t)) eqn:E; [| done]. injection H as <-.
    destruct (jeq (trim t) "") eqn:Ej; [apply jeq_true in Ej; rewrite Ej in E; congruence |]. by rewrite trim_trim, E.
Qed.

Lemma content_type_reread v s :
  normalizeWebhookContentType v = Some s → normalizeWebhookContentType (JStr s) = Some s.
Proof.
  unfold normalizeWebhookContentType. destruct (is_blank v); [intros [= <-]; vm_compute; reflexivity |].
  destruct v as [| | | |t| |]; try done. cbv zeta. rewrite is_blank_str.
  destruct (negb (nonempty (trim t)) || any_unit is_crlf (trim t) || _) eqn:E; [done |].
  destruct (includes "/" (trim t)) eqn:Ei; [| done]. intros [= <-]. rewrite trim_trim, E, Ei.
  destruct (jeq (trim t) "") eqn:Ej; [| done]. apply jeq_true in Ej. by rewrite Ej in E.
Qed.

Lemma headers_json_reread v s :
  normalizeWebhookHeadersJson v = Some s → normalizeWebhookHeadersJson (JStr s) = Some s.
Proof.
  unfold normalizeWebhookHeadersJson. destruct (is_blank v); [by intros [= <-] |].
  destruct v as [| | | |t| |]; try done. cbv zeta. rewrite is_blank_str.
  destruct (nonempty (trim t)) eqn:E; cbn [negb]; [| by intros [= <-]].
  destruct (json_parse (trim t)) as [j|] eqn:Ej; [| done]. destruct j; try done.
  destruct (existsb _ fs) eqn:Ee; [done |]. intros [= <-]. rewrite trim_trim, E, Ej. cbn [negb]. rewrite Ee.
  destruct (jeq (trim t) "") eqn:Ex; [| done]. apply jeq_true in Ex. by rewrite Ex.
Qed.

Lemma site_logo_reread v s : normalizeSiteLogoUrl v = Some s → normalizeSiteLogoUrl (JStr s) = Some s.
Proof.
  unfold normalizeSiteLogoUrl. rewrite is_blank_str. cbv zeta. intros H.
  apply (trimmed_reread is_site_logo_url "" v s); [done | by left | by vm_compute].
Qed.

Lemma string_reread URL key value self self' s :
  key ∉ URL_KEYS → normalizeString URL key value self = Ok (Some s) →
  (key = "email_smtp_recipients" → slen s ≤ 4000) → normalizeString URL key (JStr s) self' = Ok (Some s).
Proof.
  intros Hk H Hlen. unfold normalizeString in *. unfold URL_KEYS in Hk.
  rewrite !not_elem_of_cons in Hk. destruct Hk as (K1 & K2 & K3 & K4 & _).
  rewrite (proj2 (jeq_false _ _) K1), (proj2 (jeq_false _ _) K2), (proj2 (jeq_false _ _) K3),
    (proj2 (jeq_false _ _) K4) in *.
  repeat match type of H with (if ?b then _ else _) = _ => destruct b eqn:?E; [injection H as H; f_equal |] end.
  - by eapply site_logo_reread.
  - by eapply email_reread.
  - eapply recipients_reread; [done |]. apply Hlen. by apply jeq_true.
  - by eapply content_type_reread.
  - by eapply headers_json_reread.
  - by eapply theme_reread.
  - done.
Qed.

Lemma typed_reread key d value self s URL self' o :
  entry_ok (key, d) = true →
  match type d with
  | TBoolean => Ok (normalizeBoolean value)
  | TInteger => Ok (normalizeInteger value d)
  | TEnum => Ok (match settingToString value with
                 | Some text => if nonempty text && mem text (values d) then Some text else None
                 | None => None
                 end)
  | TString => normalizeString URL key value self
  end = Ok (Some s) →
  o = JStr s → key ∉ URL_KEYS → (key = "email_smtp_recipients" → slen s ≤ 4000) →
  match type d with
  | TBoolean => Ok (normalizeBoolean o)
  | TInteger => Ok (normalizeInteger o d)
  | TEnum => Ok (match settingToString o with
                 | Some text => if nonempty text && mem text (values d) then Some text else None
                 | None => None
                 end)
  | TString => normalizeString URL key o self'
  end = Ok (Some s).
Proof.
  intros He H -> Hk Hlen. destruct (type d) eqn:Et; [by eapply string_reread | | |]; injection H as H; f_equal.
  - destruct (normalizeBoolean_ok _ _ H) as [-> | ->]; vm_compute; reflexivity.
  - assert (Hz : ∃ z, s = dec_Z z ∧ default 0 (min d) ≤ z ≤ default 0 (max d) ∧ Z.abs z ≤ max_safe
      ∧ min d = Some (default 0 (min d)) ∧ max d = Some (default 0 (max d))).
    { pose proof (normalizeInteger_ok _ _ _ _ He Et H) as Hn. unfold entry_ok in He. rewrite Et in He.
      apply andb_true_iff in He as [[He _]%andb_true_iff _].
      destruct (min d) as [lo|], (max d) as [hi|]; try done.
      destruct (num_Z (str_num (defaultValue d))) as [z0|]; [| done]. des. zify_bool. cbn [default from_option id] in *.
      destruct Hn as [-> | (z & -> & Hz & Hs)]; [exists z0 | exists z; by simpl in Hz].
      split; [by apply jeq_true | split; [lia | split; [lia | done]]]. }
    destruct Hz as (z & -> & Hz & Hs & Hmin & Hmax). by apply integer_reread.
  - destruct (settingToString value) as [x|]; [| done]. destruct (nonempty x && mem x (values d)) eqn:E; [| done].
    injection H as ->. cbn [settingToString]. by rewrite E.
Qed.

(** *** Storing *)

Lemma sanitize_loop_spec URL ign self entries settings errors ignored :
  NoDup (map fst entries) → (∀ k, k ∈ map fst entries → lookup_field k settings = None) →
  let out := sanitize_loop URL ign self settings errors ignored entries in
  let accepted k := match lookup_field k entries with
                    | Some v => if mem k REMOVED_SETTING_KEYS && ign then None
                                else match normalizeSettingValue URL k v self with Ok w => Some w | Err _ => None end
                    | None => None
                    end in
  (∀ k, lookup_field k (sn_settings out) = match accepted k with Some w => Some w | None => lookup_field k settings end)
  ∧ sn_ignored out = ignored ++ List.filter (λ k, mem k REMOVED_SETTING_KEYS && ign) (map fst entries)
  ∧ (sn_ok out = true ↔ errors = [] ∧ ∀ k v, (k, v) ∈ entries → mem k REMOVED_SETTING_KEYS && ign = true
                                          ∨ ∃ w, normalizeSettingValue URL k v self = Ok w).
Proof.
  revert settings errors ignored. induction entries as [|[k0 v0] rest IH]; intros settings errors ignored Hnd Hnone;
    cbn [sanitize_loop map fst List.filter lookup_field].
  { simpl. split; [done | split; [by rewrite app_nil_r |]]. rewrite bool_decide_eq_true.
    split; [intros ->; split; [done | by intros ???%not_elem_of_nil] | by intros [-> _]]. }
  cbn [map fst] in Hnd. apply NoDup_cons in Hnd as [Hk0 Hnd].
  assert (Hl0 : lookup_field k0 rest = None).
  { destruct (lookup_field k0 rest) as [v|] eqn:E; [| done]. apply lookup_field_elem in E. exfalso. apply Hk0.
    apply list_elem_of_fmap. by exists (k0, v). }
  assert (Hnone' : ∀ k, k ∈ map fst rest → lookup_field k settings = None) by (intros k Hk; apply Hnone; by right).
  destruct (mem k0 REMOVED_SETTING_KEYS && ign) eqn:Er.
  - destruct (IH settings errors (ignored ++ [k0]) Hnd Hnone') as (H1 & H2 & H3). split; [| split].
    + intros k. rewrite H1. destruct (decide (k = k0)) as [-> | ?]; [| done]. by rewrite Hl0, Er.
    + rewrite H2. by rewrite <- (assoc_L (++)).
    + rewrite H3. setoid_rewrite elem_of_cons. split; [| intros [-> H]; split; [done | intros k v Hkv; apply H; by right]].
      intros [-> H]. split; [done |]. intros k v [[= -> ->] | Hkv]; [by left | by apply H].
  - destruct (normalizeSettingValue URL k0 v0 self) as [w|e] eqn:En.
    + destruct (IH (set_field k0 w settings) errors ignored Hnd) as (H1 & H2 & H3).
      { intros k Hk. rewrite lookup_set_field, decide_False; [by apply Hnone' | by intros ->]. }
      split; [| split; [done |]].
      * intros k. rewrite H1, lookup_set_field. destruct (decide (k = k0)) as [-> | ?]; [| done]. by rewrite Hl0, Er, En.
      * rewrite H3. setoid_rewrite elem_of_cons. split; [| intros [-> H]; split; [done | intros k v Hkv; apply H; by right]].
        intros [-> H]. split; [done |]. intros k v [[= -> ->] | Hkv]; [right; eauto | by apply H].
    + destruct (IH settings (errors ++ [e]) ignored Hnd Hnone') as (H1 & H2 & H3). split; [| split; [done |]].
      * intros k. rewrite H1. destruct (decide (k = k0)) as [-> | ?]; [| done]. by rewrite Hl0, Er, En.
      * rewrite H3. split; [intros [Hnil _]; by destruct errors |]. intros [-> H].
        destruct (H k0 v0 ltac:(left)) as [? | [w Hw]]; congruence.
Qed.

Lemma sanitize_loop_settings_ok URL ign self entries settings errors ignored :
  Forall (λ p, ∃ d, lookup_field p.1 SETTING_SCHEMA = Some d ∧ value_ok p.1 d p.2) settings →
  Forall (λ p, ∃ d, lookup_field p.1 SETTING_SCHEMA = Some d ∧ value_ok p.1 d p.2)
    (sn_settings (sanitize_loop URL ign self settings errors ignored entries)).
Proof.
  revert settings errors ignored. induction entries as [|[k v] rest IH]; intros settings errors ignored Hs;
    cbn [sanitize_loop]; [done |].
  destruct (mem k REMOVED_SETTING_KEYS && ign); [by apply IH |].
  destruct (normalizeSettingValue URL k v self) as [w|e] eqn:En; [| by apply IH]. apply IH.
  apply Forall_forall. intros p [-> | Hp]%set_field_elem; [| by apply (proj1 (Forall_forall _ _) Hs)]. cbn [fst snd].
  destruct (lookup_field k SETTING_SCHEMA) as [d|] eqn:Hd; [| unfold normalizeSettingValue in En; by rewrite Hd in En].
  exists d. split; [done |]. by eapply normalizeSettingValue_value_ok.
Qed.

(** What a validated settings object holds: each key once, and what was accepted of it. *)
Lemma sanitize_loop_nodup URL ign self entries settings errors ignored :
  NoDup (map fst settings) → NoDup (map fst (sn_settings (sanitize_loop URL ign self settings errors ignored entries))).
Proof.
  revert settings errors ignored. induction entries as [|[k v] rest IH]; intros settings errors ignored Hs; cbn [sanitize_loop]; [done |].
  destruct (mem k REMOVED_SETTING_KEYS && ign); [by apply IH |].
  destruct (normalizeSettingValue URL k v self) as [w|e]; apply IH; [by apply set_field_nodup | done].
Qed.
(** Normalized texts are accepted as they are. *)
Lemma sanitize_loop_texts URL self entries acc :
  NoDup (map fst (acc ++ entries)) →
  Forall (λ p, mem p.1 REMOVED_SETTING_KEYS = false ∧ normalizeSettingValue URL p.1 (JStr p.2) self = Ok p.2) entries →
  sanitize_loop URL true self acc [] [] (map (λ p, (p.1, JStr p.2)) entries)
  = {| sn_ok := true; sn_settings := acc ++ entries; sn_errors := []; sn_ignored := [] |}.
Proof.
  revert acc. induction entries as [|[k v] entries IH]; intros acc Hnd He; cbn [map sanitize_loop fst snd]; [by rewrite app_nil_r |].
  apply Forall_cons in He as [[H1 H2] He]. cbn [fst snd] in *. rewrite H1, H2. cbn [andb]. rewrite set_field_append.
  - rewrite (IH (acc ++ [(k, v)])); rewrite <- ?(assoc_L (++)); done.
  - rewrite map_app in Hnd. apply NoDup_app in Hnd as (_ & Hnd & _). intros Hin. apply (Hnd k Hin). left.
Qed.

(** The administrator's value of a setting. *)
Lemma admin_setting URL stored k d :
  lookup_field k SETTING_SCHEMA = Some d → ∃ v, lookup_field k (buildAdminSettings URL stored) = Some v ∧ value_ok k d v.
Proof.
  intros Hl. exists (admin_value URL stored k d). split; [| by apply admin_value_ok].
  unfold buildAdminSettings. by rewrite (lookup_field_map (admin_value URL stored)), Hl.
Qed.

(** ** Properties *)

(** Whatever is stored, the settings the administrator reads are total and
    valid: every setting of the table is present, in the table's order, with a
    value of its type: a boolean word, an integer between its bounds, a listed
    choice, or a text of at most its length; never the SMTP port 25. *)
Theorem buildAdminSettings_valid URL stored :
  map fst (buildAdminSettings URL stored) = SETTING_KEYS
  ∧ Forall (λ p, ∃ v, lookup_field p.1 (buildAdminSettings URL stored) = Some v ∧ value_ok p.1 p.2 v) SETTING_SCHEMA.
Proof.
  split; [unfold buildAdminSettings, SETTING_KEYS; by rewrite map_map |].
  apply Forall_forall. intros [k d] Hin. cbn [fst snd].
  apply admin_setting, lookup_field_NoDup; [apply SETTING_KEYS_NoDup | done].
Qed.

(** The public view of the settings exposes no secret: each entry is a
    setting marked public, not sensitive and not a theme setting, with the
    value the administrator sees; and the width of the theme is an integer
    between 60 and 100. *)
Theorem buildPublicSettings_no_secret URL stored :
  Forall (λ p, ∃ d, lookup_field p.1 SETTING_SCHEMA = Some d ∧ public d = true ∧ sensitive d = false
                    ∧ starts_with "theme_" p.1 = false
                    ∧ lookup_field p.1 (buildAdminSettings URL stored) = Some p.2)
    (ps_values (buildPublicSettings URL stored))
  ∧ ∃ z, mainContentWidth (theme_settings (buildPublicSettings URL stored)) = of_Z z ∧ 60 ≤ z ≤ 100.
Proof.
  assert (Hget : ∀ k d, lookup_field k SETTING_SCHEMA = Some d →
            lookup_field k (buildAdminSettings URL stored) = Some (admin_value URL stored k d)).
  { intros k d Hl. unfold buildAdminSettings. by rewrite (lookup_field_map (admin_value URL stored)), Hl. }
  split.
  - unfold buildPublicSettings. cbn [ps_values]. apply Forall_forall. intros p Hp.
    apply list_elem_of_In, in_map_iff in Hp as ([k d] & <- & Hp). apply List.filter_In in Hp as [Hin Hc].
    cbn [fst snd] in *. apply list_elem_of_In in Hin.
    assert (Hl : lookup_field k SETTING_SCHEMA = Some d) by (apply lookup_field_NoDup; [apply SETTING_KEYS_NoDup | done]).
    apply negb_true_iff, orb_false_iff in Hc as [Hpub%negb_false_iff Hth]. exists d.
    rewrite (Hget k d Hl). repeat split; try done.
    assert (Ht : forallb (λ p, negb (public p.2 && sensitive p.2)) SETTING_SCHEMA = true) by (vm_compute; reflexivity).
    rewrite forallb_true in Ht. specialize (Ht _ Hin). cbn [snd] in Ht. rewrite Hpub in Ht. by destruct (sensitive d).
  - unfold buildPublicSettings. cbn [theme_settings mainContentWidth].
    destruct (lookup_field "theme_content_width" SETTING_SCHEMA) as [d|] eqn:Hl; [| by vm_compute in Hl].
    rewrite (Hget _ _ Hl). cbn [default]. destruct (admin_value_ok URL stored _ _ Hl) as [Hv _].
    assert (Hd : d = int "100" true 60 100) by (vm_compute in Hl; by injection Hl).
    rewrite Hd in Hv |- *. destruct Hv as (z & -> & Hz). cbn in Hz. exists z. split; [| done].
    apply str_num_dec_Z. unfold max_safe. lia.
Qed.

(** Storing settings accepts exactly the valid ones: an entry is stored
    with its normalized value, which is a value of its setting, unless its key
    was removed from the table; removed keys are reported as ignored, and the
    request as a whole succeeds exactly when every other entry is accepted. *)
Theorem sanitizeSettingsForStorage_spec URL entries self :
  NoDup (map fst entries) →
  let out := sanitizeSettingsForStorage URL (JObj entries) true self in
  (∀ k w, lookup_field k (sn_settings out) = Some w ↔
     (k ∉ REMOVED_SETTING_KEYS) ∧ ∃ v, (k, v) ∈ entries ∧ normalizeSettingValue URL k v self = Ok w)
  ∧ Forall (λ p, ∃ d, lookup_field p.1 SETTING_SCHEMA = Some d ∧ value_ok p.1 d p.2) (sn_settings out)
  ∧ sn_ignored out = List.filter (λ k, mem k REMOVED_SETTING_KEYS) (map fst entries)
  ∧ (sn_ok out = true ↔ ∀ k v, (k, v) ∈ entries → k ∈ REMOVED_SETTING_KEYS ∨ ∃ w, normalizeSettingValue URL k v self = Ok w).
Proof.
  intros Hnd. cbv zeta. cbn [sanitizeSettingsForStorage].
  destruct (sanitize_loop_spec URL true self entries [] [] [] Hnd ltac:(done)) as (H1 & H2 & H3).
  assert (Hs : ∀ k w, lookup_field k (sn_settings (sanitize_loop URL true self [] [] [] entries)) = Some w ↔
     (k ∉ REMOVED_SETTING_KEYS) ∧ ∃ v, (k, v) ∈ entries ∧ normalizeSettingValue URL k v self = Ok w).
  { intros k w. rewrite H1. destruct (lookup_field k entries) as [v|] eqn:E.
    - rewrite andb_true_r. destruct (mem k REMOVED_SETTING_KEYS) eqn:Er; [apply mem_spec in Er | apply mem_false in Er].
      + split; [done | by intros [? _]].
      + destruct (normalizeSettingValue URL k v self) as [w'|e] eqn:En.
        * split; [intros [= <-]; split; [done | exists v; split; [by apply lookup_field_elem | done]] |].
          intros (_ & v' & Hv & Hw). rewrite (lookup_field_NoDup _ _ _ Hnd Hv) in E. congruence.
        * split; [done |]. intros (_ & v' & Hv & Hw). rewrite (lookup_field_NoDup _ _ _ Hnd Hv) in E. congruence.
    - split; [done |]. intros (_ & v' & Hv & Hw). by rewrite (lookup_field_NoDup _ _ _ Hnd Hv) in E. }
  split; [exact Hs | split; [| split]].
  - apply sanitize_loop_settings_ok, Forall_nil_2.
  - rewrite H2. simpl. apply List.filter_ext. intros k. by rewrite andb_true_r.
  - rewrite H3. split.
    + intros [_ H] k v Hkv. destruct (H k v Hkv) as [Hm | Hw]; [left; apply mem_spec; by rewrite andb_true_r in Hm | by right].
    + intros H. split; [done |]. intros k v Hkv. destruct (H k v Hkv) as [Hm | Hw]; [left | by right].
      rewrite andb_true_r. by apply mem_spec.
Qed.

(** Normalization is idempotent: a value the validator accepted is accepted
    again, unchanged, when it is read back (for every setting whose value does
    not go through the platform's URL parser). *)
Theorem normalizeSettingValue_idempotent URL key value self self' s :
  key ∉ URL_KEYS → normalizeSettingValue URL key value self = Ok s →
  normalizeSettingValue URL key (JStr s) self' = Ok s.
Proof.
  intros Hk H. unfold normalizeSettingValue in *. destruct (lookup_field key SETTING_SCHEMA) as [d|] eqn:Hd; [| done].
  pose proof (schema_entry _ _ Hd) as He. apply rbind_Ok in H as (o & Ho & H). destruct o as [w|]; [| done].
  destruct (jeq key "email_smtp_port" && jeq w "25") eqn:Ep; [done |].
  assert (Hw : w = s) by (break_in H; congruence). subst w.
  rewrite (typed_reread key d value self s URL self' (JStr s) He Ho eq_refl Hk).
  - cbn [rbind]. by rewrite Ep.
  - intros ->. vm_compute in Hd. injection Hd as <-. cbn [maxLength] in H.
    destruct (4000 <? slen s) eqn:E; [done | zlia].
Qed.

(** ** Witnesses *)

Definition no_url (s : jstr) : option url := None.
Definition sample_settings : fields :=
  [("site_title", JStr "My probes"); ("record_preserve_time", JNum 24); ("update_mode", JStr "auto")].

Lemma sanitizeSettingsForStorage_spec_witness :
  sanitizeSettingsForStorage no_url (JObj sample_settings) true ""
    = {| sn_ok := true; sn_settings := [("site_title", "My probes"); ("record_preserve_time", "24")];
         sn_errors := []; sn_ignored := ["update_mode"] |}
  ∧ sn_ignored (sanitizeSettingsForStorage no_url (JObj sample_settings) true "")
    = List.filter (λ k, mem k REMOVED_SETTING_KEYS) (map fst sample_settings).
Proof.
  split; [vm_compute; reflexivity |]. apply sanitizeSettingsForStorage_spec.
  apply (bool_decide_eq_true_1 _). vm_compute. reflexivity.
Defined.

Lemma normalizeSettingValue_idempotent_witness :
  normalizeSettingValue no_url "email_smtp_recipients" (JStr " a@b.co; c@d.org,a@b.co ") "" = Ok "a@b.co,c@d.org"
  ∧ normalizeSettingValue no_url "email_smtp_recipients" (JStr "a@b.co,c@d.org") "" = Ok "a@b.co,c@d.org".
Proof.
  assert (H : normalizeSettingValue no_url "email_smtp_recipients" (JStr " a@b.co; c@d.org,a@b.co ") "" = Ok "a@b.co,c@d.org")
    by (vm_compute; reflexivity).
  split; [exact H |]. apply (normalizeSettingValue_idempotent no_url _ _ "" "" _) in H; [exact H |].
  apply (bool_decide_eq_true_1 _). vm_compute. reflexivity.
Defined.
