(* ===== verification/Report.v ===== *)
(** * Agent reports and their public views

    [worker/src/utils/monitor-report.ts], [public-report.ts],
    [report-envelope.ts], [live-report-state.ts], [public-client.ts] and
    [client-metadata.ts]: an agent's report is any JSON value; it is normalized
    to bounded metrics, and every audience gets an allow-listed projection. *)

From S2P Require Import Prelude JsStr JsNum JsVal Net.
#[local] Open Scope Z_scope.

(** ** Bounds *)

(** @worker/src/utils/monitor-report.ts:35-35 MAX_GPU_RECORDS_PER_REPORT *)
Definition MAX_GPU_RECORDS_PER_REPORT : nat := 16.
(** @worker/src/utils/monitor-report.ts:36-36 MAX_GPU_DEVICE_NAME_LENGTH *)
Definition MAX_GPU_DEVICE_NAME_LENGTH : nat := 128.
(** @worker/src/utils/monitor-report.ts:37-37 MAX_PERCENT *)
Definition MAX_PERCENT : Z := 100.
(** @worker/src/utils/monitor-report.ts:38-38 MAX_TEMPERATURE_C *)
Definition MAX_TEMPERATURE_C : Z := 150.
(** @worker/src/utils/monitor-report.ts:39-39 MAX_DEVICE_INDEX *)
Definition MAX_DEVICE_INDEX : Z := 1024.
(** @worker/src/utils/monitor-report.ts:40-40 MAX_COUNT_VALUE *)
Definition MAX_COUNT_VALUE : Z := 10000000.
(** @worker/src/utils/monitor-report.ts:41-41 MAX_LOAD_VALUE *)
Definition MAX_LOAD_VALUE : Z := 10000.
(** @worker/src/utils/monitor-report.ts:42-42 MAX_UPTIME_SECONDS *)
Definition MAX_UPTIME_SECONDS : Z := 315576000.
(** @worker/src/utils/monitor-report.ts:43-43 MAX_COUNTER_VALUE *)
Definition MAX_COUNTER_VALUE : Z := 1000000000000000.

(** ** Reading numbers *)

(** @worker/src/utils/monitor-report.ts:45-47 asObject *)
Definition asObject (value : jsval) : fields := as_object value.

(** @worker/src/utils/monitor-report.ts:49-56 numberFrom *)
Definition numberFrom (value : jsval) : option num :=
  match value with
  | JNum n => if is_finite n then Some n else None
  | JStr s =>
    if negb (jeq (trim s) "") then let parsed := str_num s in if is_finite parsed then Some parsed else None
    else None
  | _ => None
  end.
(** @worker/src/utils/monitor-report.ts:58-64 firstNumber *)
Fixpoint firstNumber (values : list jsval) : num :=
  match values with
  | [] => of_Z 0
  | value :: rest => match numberFrom value with Some parsed => parsed | None => firstNumber rest end
  end.
(** @worker/src/utils/monitor-report.ts:66-71 boundedNumber *)
Definition boundedNumber (min max : Z) (values : list jsval) : num :=
  let value := firstNumber values in
  if num_lt value min then of_Z min else if num_lt max value then of_Z max else value.
(** @worker/src/utils/monitor-report.ts:73-75 boundedInteger *)
Definition boundedInteger (min max : Z) (values : list jsval) : num := num_trunc (boundedNumber min max values).
(** @worker/src/utils/monitor-report.ts:80-83 boundedNullableNumber *)
Definition boundedNullableNumber (min max : Z) (primary : jsval) (fallbacks : list jsval) : jsval :=
  if is_null primary then JNull else JNum (boundedNumber min max (primary :: fallbacks)).

(** @worker/src/utils/monitor-report.ts:94-99 selectMetricAvailability (loop) *)
Fixpoint select_errors (errors : fields) (metrics : list jstr) : fields :=
  match metrics with
  | [] => []
  | metric :: rest =>
    let reason := fld errors metric in
    if is_str reason "collection_failed" || is_str reason "container_scope_unavailable" || is_str reason "warming_up"
    then (metric, reason) :: select_errors errors rest
    else select_errors errors rest
  end.
(** @worker/src/utils/monitor-report.ts:87-102 selectMetricAvailability *)
Definition selectMetricAvailability (report : fields) : fields :=
  let capacity := match fld report "cpu_capacity" with
                  | JNum n => if is_finite n && num_lt 0 n then [("cpu_capacity" : jstr, JNum n)] else []
                  | _ => []
                  end in
  let metricErrors := select_errors (asObject (fld report "metric_errors")) ["cpu"; "ram"; "swap"; "network"] in
  capacity ++ (if bool_decide (metricErrors = []) then [] else [("metric_errors" : jstr, JObj metricErrors)]).

(** @worker/src/utils/monitor-report.ts:104-109 measuredTemperature *)
Definition measuredTemperature (value : jsval) : jsval :=
  match numberFrom value with
  | Some temperature =>
    if num_le (-100) temperature && num_le temperature MAX_TEMPERATURE_C then JNum temperature else JNull
  | None => JNull
  end.
(** @worker/src/utils/monitor-report.ts:111-113 boundedString *)
Definition boundedString (value : jsval) (maxLength : nat) : jstr :=
  slice_to maxLength (trim (to_str (js_or value (JStr "")))).

(** @worker/src/utils/monitor-report.ts:120-132 normalizeGpuList (map) *)
Definition normalizeGpu (index : nat) (item : jsval) : jsval :=
  let gpu := asObject item in
  let memTotal := boundedNumber 0 MAX_COUNTER_VALUE [fld gpu "mem_total"; fld gpu "memory_total"] in
  let mem_used :=
    (* the upper bound of the memory in use is the total, when known *)
    let value := firstNumber [fld gpu "mem_used"; fld gpu "memory_used"] in
    let memUsedMax := if num_lt 0 memTotal then memTotal else of_Z MAX_COUNTER_VALUE in
    if num_lt value 0 then of_Z 0 else if num_lt memUsedMax value then memUsedMax else value in
  JObj [("device_index", JNum (boundedInteger 0 MAX_DEVICE_INDEX
            [fld gpu "device_index"; fld gpu "index"; JNum (of_Z (Z.of_nat index))]));
        ("device_name", JStr (boundedString (js_or (js_or (fld gpu "device_name") (fld gpu "name")) (JStr ""))
                                MAX_GPU_DEVICE_NAME_LENGTH));
        ("mem_total", JNum memTotal);
        ("mem_used", JNum mem_used);
        ("utilization", JNum (boundedNumber 0 MAX_PERCENT [fld gpu "utilization"]));
        ("temperature", JNum (boundedNumber 0 MAX_TEMPERATURE_C [fld gpu "temperature"]))].
(** @worker/src/utils/monitor-report.ts:115-133 normalizeGpuList *)
Definition normalizeGpuList (rawGpu : fields) (rawGpus : jsval) : list jsval :=
  let list := match rawGpus with
              | JArr l => l
              | _ => match fld rawGpu "detailed_info" with JArr l => l | _ => [] end
              end in
  imap normalizeGpu (take MAX_GPU_RECORDS_PER_REPORT list).

(** The object literal of [normalizeMonitorReport], after the spread. *)
Definition normalized_metrics (report : fields) : fields :=
  let cpu := asObject (fld report "cpu") in
  let ram := asObject (fld report "ram") in
  let swap := asObject (fld report "swap") in
  let load := asObject (fld report "load") in
  let disk := asObject (fld report "disk") in
  let network := asObject (fld report "network") in
  let connections := asObject (fld report "connections") in
  let gpuData := asObject (fld report "gpu") in
  let counter k fallback := boundedNullableNumber 0 MAX_COUNTER_VALUE (fld report k) [fallback] in
  [("cpu", boundedNullableNumber 0 MAX_PERCENT (fld report "cpu") [fld cpu "usage"]);
   ("gpu", JNum (boundedNumber 0 MAX_PERCENT [fld report "gpu"; fld gpuData "average_usage"]));
   ("ram", counter "ram" (fld ram "used"));
   ("ram_total", counter "ram_total" (fld ram "total"));
   ("swap", counter "swap" (fld swap "used"));
   ("swap_total", counter "swap_total" (fld swap "total"));
   ("load", boundedNullableNumber 0 MAX_LOAD_VALUE (fld report "load") [fld load "load1"]);
   ("temp", measuredTemperature (fld report "temp"));
   ("disk", counter "disk" (fld disk "used"));
   ("disk_total", counter "disk_total" (fld disk "total"));
   ("net_in", counter "net_in" (fld network "down"));
   ("net_out", counter "net_out" (fld network "up"));
   ("net_total_up", counter "net_total_up" (fld network "totalUp"));
   ("net_total_down", counter "net_total_down" (fld network "totalDown"));
   ("process_count", JNum (boundedInteger 0 MAX_COUNT_VALUE [fld report "process_count"; fld report "process"]));
   ("connections", JNum (boundedInteger 0 MAX_COUNT_VALUE [fld report "connections"; fld connections "tcp"]));
   ("connections_udp", JNum (boundedInteger 0 MAX_COUNT_VALUE [fld report "connections_udp"; fld connections "udp"]));
   ("uptime", boundedNullableNumber 0 MAX_UPTIME_SECONDS (fld report "uptime") []);
   ("version", JStr (boundedString (fld report "version") 64));
   ("gpus", JArr (normalizeGpuList gpuData (fld report "gpus")))].

(** [sampledAt <= 8_640_000_000_000_000], the ECMAScript time range. *)
Definition MAX_TIME : Z := 8640000000000000.

(** The disk measurement of [report] that [disk_sampled_at] dates. *)
Definition disk_sample_ok (report normalized : fields) : bool :=
  let disk := asObject (fld report "disk") in
  let measuredUsed := match numberFrom (fld report "disk") with
                      | Some n => Some n
                      | None => numberFrom (fld disk "used")
                      end in
  is_str (fld report "disk_source") "directory"
  && negb (is_null (fld normalized "disk"))
  && match measuredUsed with Some n => num_le 0 n && num_le n MAX_COUNTER_VALUE | None => false end
  && match fld report "disk_sampled_at" with
     | JNum sampledAt => is_safe_integer sampledAt && num_lt 0 sampledAt && num_le sampledAt MAX_TIME
     | _ => false
     end.

(** @worker/src/utils/monitor-report.ts:136-138 normalizeMonitorReport (envelope) *)
Definition report_of (input : jsval) : fields :=
  let inputObject := asObject input in
  let raw := if is_str (fld inputObject "type") "report" && truthy (fld inputObject "data")
             then fld inputObject "data" else input in
  asObject raw.
(** @worker/src/utils/monitor-report.ts:135-193 normalizeMonitorReport *)
Definition normalizeMonitorReport (input : jsval) : fields :=
  let report := report_of input in
  let normalized := spread report (normalized_metrics report) in
  let availability := selectMetricAvailability normalized in
  let normalized := spread (del_field "metric_errors" (del_field "cpu_capacity" normalized)) availability in
  let normalized := del_field "disk_sampled_at" (del_field "disk_source" normalized) in
  if negb (is_undef (fld report "disk_source")) || negb (is_undef (fld report "disk_sampled_at")) then
    if disk_sample_ok report normalized
    then set_field "disk_sampled_at" (fld report "disk_sampled_at")
           (set_field "disk_source" (JStr "directory") normalized)
    else set_field "disk" JNull normalized
  else normalized.

Record MonitorRecord := {
  mr_client : jstr; mr_time : jstr; mr_cpu : jsval; mr_gpu : jsval; mr_ram : jsval; mr_ram_total : jsval;
  mr_swap : jsval; mr_swap_total : jsval; mr_load : jsval; mr_temp : jsval; mr_disk : jsval;
  mr_disk_total : jsval; mr_net_in : jsval; mr_net_out : jsval; mr_net_total_up : jsval;
  mr_net_total_down : jsval; mr_process_count : jsval; mr_connections : jsval;
  mr_connections_udp : jsval; mr_uptime : jsval
}.
(** @worker/src/utils/monitor-report.ts:195-223 toMonitorRecord *)
Definition toMonitorRecord (client time : jstr) (input : jsval) : MonitorRecord :=
  let report := normalizeMonitorReport input in
  let zero := JNum 0 in
  let diskAvailable := negb (is_null (fld report "disk")) && negb (is_null (fld report "disk_total")) in
  {| mr_client := client; mr_time := time;
     mr_cpu := fld report "cpu"; mr_gpu := js_or (fld report "gpu") zero;
     mr_ram := fld report "ram"; mr_ram_total := fld report "ram_total";
     mr_swap := fld report "swap"; mr_swap_total := fld report "swap_total";
     mr_load := coalesce (fld report "load") JNull; mr_temp := fld report "temp";
     mr_disk := coalesce (fld report "disk") zero;
     mr_disk_total := if diskAvailable then js_or (fld report "disk_total") zero else zero;
     mr_net_in := fld report "net_in"; mr_net_out := fld report "net_out";
     mr_net_total_up := fld report "net_total_up"; mr_net_total_down := fld report "net_total_down";
     mr_process_count := js_or (fld report "process_count") zero;
     mr_connections := js_or (fld report "connections") zero;
     mr_connections_udp := js_or (fld report "connections_udp") zero;
     mr_uptime := js_or (fld report "uptime") zero |}.

(** ** Envelopes: [report-envelope.ts] *)

(** @worker/src/utils/report-envelope.ts:3-5 isJsonObject *)
Definition isJsonObject (value : jsval) : bool := is_object value.
(** @worker/src/utils/report-envelope.ts:7-11 unwrapMonitorReportEnvelope *)
Definition unwrapMonitorReportEnvelope (report : fields) : fields :=
  if is_str (fld report "type") "report" then
    match fld report "data" with JObj data => data | _ => report end
  else report.

(** ** Public reports: [public-report.ts] *)

(** @worker/src/utils/public-report.ts:3-7 METRIC_FIELDS *)
Definition METRIC_FIELDS : list jstr :=
  ["cpu"; "gpu"; "ram"; "ram_total"; "swap"; "swap_total"; "load"; "temp"; "disk"; "disk_total"; "disk_source";
   "disk_sampled_at"; "net_in"; "net_out"; "net_total_up"; "net_total_down"; "process_count"; "connections";
   "connections_udp"; "uptime"; "version"; "timestamp"].
(** @worker/src/utils/public-report.ts:8-11 BASIC_FIELDS *)
Definition BASIC_FIELDS : list jstr :=
  ["cpu_name"; "virtualization"; "arch"; "cpu_cores"; "os"; "kernel_version"; "gpu_name"; "mem_total";
   "swap_total"; "disk_total"; "version"; "region"].
(** @worker/src/utils/public-report.ts:12-12 GPU_FIELDS *)
Definition GPU_FIELDS : list jstr :=
  ["device_index"; "device_name"; "mem_total"; "mem_used"; "utilization"; "temperature"].

(** @worker/src/utils/public-report.ts:20-24 selectScalars (loop body) *)
Definition scalar_of (item : jsval) : option jsval :=
  match item with
  | JNull | JBool _ => Some item
  | JNum n => if is_finite n then Some item else None
  | JStr s => Some (JStr (slice_to 256 s))
  | _ => None
  end.
(** @worker/src/utils/public-report.ts:14-27 selectScalars *)
Definition selectScalars (value : jsval) (names : list jstr) : fields :=
  let record := asObject value in pick (λ field, scalar_of (fld record field)) names.
(** @worker/src/utils/public-report.ts:31-41 toPublicReport *)
Definition toPublicReport (report : fields) : fields :=
  let result := selectScalars (JObj report) METRIC_FIELDS in
  let result := spread result (selectMetricAvailability report) in
  let result := set_field "gpus"
    (JArr (match fld report "gpus" with
           | JArr l => map (λ gpu, JObj (selectScalars gpu GPU_FIELDS)) (take 16 l)
           | _ => []
           end)) result in
  match fld report "basic_info" with
  | JObj _ | JArr _ => set_field "basic_info" (JObj (selectScalars (fld report "basic_info") BASIC_FIELDS)) result
  | _ => result
  end.

(** ** The stored live state: [live-report-state.ts] *)

(** @worker/src/utils/live-report-state.ts:9-11 compactLiveReport (loop body) *)
Definition keep_ip (report : fields) (field : jstr) (compact : fields) : fields :=
  match fld report field with
  | JStr ip => if isPublicIpAddress ip then set_field field (JStr ip) compact else compact
  | _ => compact
  end.
(** @worker/src/utils/live-report-state.ts:7-14 compactLiveReport *)
Definition compactLiveReport (report : fields) : fields :=
  let compact := normalizeMonitorReport (JObj (toPublicReport report)) in
  let compact := keep_ip report "ipv6" (keep_ip report "ipv4" compact) in
  match fld report "region" with
  | JStr region => set_field "region" (JStr (slice_to 256 region)) compact
  | _ => compact
  end.
(** @worker/src/utils/live-report-state.ts:16-18 serializedBytes *)
Definition serializedBytes (value : jsval) : Z := byte_length (json value).

(** ** Public client rows: [public-client.ts] *)

(** @worker/src/utils/public-client.ts:15-21 PUBLIC_CLIENT_FIELDS *)
Definition PUBLIC_CLIENT_FIELDS : list jstr :=
  ["uuid"; "name"; "cpu_name"; "virtualization"; "arch"; "cpu_cores"; "os"; "kernel_version"; "gpu_name"; "region";
   "public_remark"; "mem_total"; "swap_total"; "disk_total"; "version"; "price"; "billing_cycle"; "auto_renewal";
   "currency"; "expired_at"; "group"; "tags"; "hidden"; "traffic_limit"; "traffic_limit_type";
   "traffic_reset_day"; "sort_order"; "created_at"; "updated_at"].
(** @worker/src/utils/public-client.ts:23-30 pickFields *)
Definition pickFields (source : fields) (keys : list jstr) : fields :=
  pick (λ key, if has_own source key && negb (is_undef (fld source key)) then Some (fld source key) else None) keys.

(** [tag.replace(/<\w+>$/, '')] *)
Definition word_unit (u : N) : bool := is_alnum u || (u =? 95)%N.
Definition strip_angle (s : jstr) : jstr :=
  match rev (units s) with
  | u :: r =>
    if (u =? 62)%N then
      match take_while word_unit r, drop_while word_unit r with
      | _ :: _, c :: before => if (c =? 60)%N then JS (rev before) else s
      | _, _ => s
      end
    else s
  | [] => s
  end.
(** @worker/src/utils/public-client.ts:32-35 isPublicTag *)
Definition isPublicTag (tag : jstr) : bool :=
  negb (mem (lower (trim (strip_angle tag))) ["ipv4"; "ipv6"; "ip4"; "ip6"; "v4"; "v6"]).
Definition tag_separator (u : N) : bool := ((u =? 59) || (u =? 44))%N.
(** @worker/src/utils/public-client.ts:37-45 sanitizePublicTags *)
Definition sanitizePublicTags (tags : jsval) : jstr :=
  match tags with
  | JStr s => join ";" (List.filter isPublicTag (List.filter nonempty (map trim (split_on tag_separator s))))
  | _ => ""
  end.
(** @worker/src/utils/public-client.ts:47-56 toPublicClient *)
Definition toPublicClient (client : fields) : fields :=
  let public_ip v := match v with JStr ip => isPublicIpAddress ip | _ => false end in
  let publicClient := pickFields client PUBLIC_CLIENT_FIELDS in
  spread publicClient
    [("has_ipv4", JBool (public_ip (fld client "ipv4")));
     ("has_ipv6", JBool (public_ip (fld client "ipv6")));
     ("tags", JStr (sanitizePublicTags (fld publicClient "tags")))].

(** ** Metadata patches: [client-metadata.ts] *)

(** @worker/src/utils/client-metadata.ts:8-11 projectAgentClientMetadata (fields) *)
Definition AGENT_FIELDS : list jstr :=
  ["cpu_name"; "virtualization"; "arch"; "cpu_cores"; "os"; "kernel_version"; "gpu_name"; "ipv4"; "ipv6"; "region";
   "mem_total"; "swap_total"; "disk_total"; "version"].
Definition is_scalar (v : jsval) : bool :=
  match v with JNull | JStr _ | JNum _ | JBool _ => true | _ => false end.
Definition pick_scalars (client : fields) (names : list jstr) : fields :=
  pick (λ field, if is_scalar (fld client field) then Some (fld client field) else None) names.
(** @worker/src/utils/client-metadata.ts:6-16 projectAgentClientMetadata *)
Definition projectAgentClientMetadata (client : fields) : fields := pick_scalars client AGENT_FIELDS.

Definition project_flag (client : fields) (field : jstr) (result : fields) : fields :=
  let flag := "has_" +++ field in
  if has_own client field
  then set_field flag (JBool (isPublicIpAddress (to_str (js_or (fld client field) (JStr ""))))) result
  else match fld client flag with JBool b => set_field flag (JBool b) result | _ => result end.
(** @worker/src/utils/client-metadata.ts:20-34 projectClientMetadata *)
Definition projectClientMetadata (client : fields) (administrator : bool) : fields :=
  let names := if administrator then PUBLIC_CLIENT_FIELDS ++ ["ipv4"; "ipv6"; "remark"] else PUBLIC_CLIENT_FIELDS in
  let result := pick_scalars client names in
  let result := if has_own client "tags"
                then set_field "tags" (JStr (sanitizePublicTags (fld client "tags"))) result else result in
  project_flag client "ipv6" (project_flag client "ipv4" result).

(** ** Facts *)

(** A metric: unavailable, or a number between two bounds. *)
Definition within (lo hi : Z) (v : jsval) : Prop :=
  v = JNull ∨ ∃ n, v = JNum n ∧ is_finite n = true ∧ num_le lo n = true ∧ num_le n hi = true.

Lemma numberFrom_finite v n : numberFrom v = Some n → is_finite n = true.
Proof. unfold numberFrom. intros H. break_in H; done. Qed.
Lemma firstNumber_finite vs : is_finite (firstNumber vs) = true.
Proof.
  induction vs as [|v vs IH]; [done |]. cbn [firstNumber].
  destruct (numberFrom v) eqn:E; [by eapply numberFrom_finite | done].
Qed.
Lemma bounded_range lo hi v :
  is_finite v = true → is_finite hi = true → num_le (of_Z lo) hi = true →
  let b := if num_lt v lo then of_Z lo else if num_lt hi v then hi else v in
  is_finite b = true ∧ num_le lo b = true ∧ num_le b hi = true.
Proof.
  intros Hv Hh Hle. cbv zeta. destruct (num_lt v lo) eqn:E1; [split; [done | split; [by apply num_le_refl | done]] |].
  destruct (num_lt hi v) eqn:E2; [split; [done | split; [done | by apply num_le_refl]] |].
  split; [done | split; by apply num_lt_false_le].
Qed.
Lemma boundedNumber_range lo hi vs :
  lo ≤ hi → let b := boundedNumber lo hi vs in
  is_finite b = true ∧ num_le lo b = true ∧ num_le b hi = true.
Proof.
  intros H. unfold boundedNumber. apply (bounded_range lo (of_Z hi)); [apply firstNumber_finite | done |].
  rewrite (num_le_Z _ _ lo hi) by apply num_Z_of_Z. by apply Z.leb_le.
Qed.
Lemma boundedInteger_range lo hi vs :
  0 ≤ lo ≤ hi → ∃ z, boundedInteger lo hi vs = of_Z z ∧ lo ≤ z ≤ hi.
Proof.
  intros H. unfold boundedInteger. destruct (boundedNumber_range lo hi vs) as (H1 & H2 & H3); [lia |].
  apply num_trunc_range; [lia | done..].
Qed.
Lemma within_of_Z lo hi z : lo ≤ z ≤ hi → within lo hi (JNum (of_Z z)).
Proof.
  intros H. right. exists (of_Z z). split; [done |]. split; [done |].
  rewrite !(num_le_Z _ _ _ _ (num_Z_of_Z _) (num_Z_of_Z _)). rewrite !Z.leb_le. lia.
Qed.
Lemma boundedNullable_within lo hi v vs : lo ≤ hi → within lo hi (boundedNullableNumber lo hi v vs).
Proof.
  intros H. unfold boundedNullableNumber. destruct (is_null v); [by left |]. right.
  eexists. split; [done |]. by apply boundedNumber_range.
Qed.
Lemma boundedInteger_within lo hi vs : 0 ≤ lo ≤ hi → within lo hi (JNum (boundedInteger lo hi vs)).
Proof. intros H. destruct (boundedInteger_range lo hi vs H) as (z & -> & Hz). by apply within_of_Z. Qed.
Lemma boundedNumber_within lo hi vs : lo ≤ hi → within lo hi (JNum (boundedNumber lo hi vs)).
Proof. intros H. right. eexists. split; [done |]. by apply boundedNumber_range. Qed.
Lemma measuredTemperature_within v : within (-100) 150 (measuredTemperature v).
Proof.
  unfold measuredTemperature. destruct (numberFrom v) as [n|] eqn:E; [| by left].
  destruct (num_le (-100) n && _) eqn:E2; [| by left]. right. exists n. des. split; [done |].
  split; [by eapply numberFrom_finite | done].
Qed.

(** A value within the bounds is unchanged by bounding it again. *)
Lemma numberFrom_JNum n : is_finite n = true → numberFrom (JNum n) = Some n.
Proof. intros H. simpl. by rewrite H. Qed.
Lemma boundedNumber_id (lo hi : Z) n vs :
  is_finite n = true → num_le lo n = true → num_le n hi = true → boundedNumber lo hi (JNum n :: vs) = n.
Proof.
  intros Hf Hlo Hhi. unfold boundedNumber. cbn [firstNumber]. rewrite numberFrom_JNum by done.
  by rewrite (num_le_not_lt lo), (num_le_not_lt n).
Qed.
Lemma boundedNullable_id lo hi v vs : within lo hi v → boundedNullableNumber lo hi v vs = v.
Proof.
  intros [-> | (n & -> & Hf & Hlo & Hhi)]; [done |]. unfold boundedNullableNumber. cbn [is_null].
  by rewrite boundedNumber_id.
Qed.
Lemma temperature_id v : within (-100) 150 v → measuredTemperature v = v.
Proof.
  intros [-> | (n & -> & Hf & Hlo & Hhi)]; [done |]. unfold measuredTemperature. rewrite numberFrom_JNum by done.
  unfold MAX_TEMPERATURE_C. by rewrite Hlo, Hhi.
Qed.

(** *** The shape of a normalized report *)

Definition availability_keys : list jstr := ["cpu_capacity"; "metric_errors"].
Lemma availability_shape report :
  NoDup (map fst (selectMetricAvailability report))
  ∧ ∀ k, k ∈ map fst (selectMetricAvailability report) → k ∈ availability_keys.
Proof.
  unfold selectMetricAvailability. cbv zeta.
  set (errs := select_errors _ _). clearbody errs.
  destruct (fld report "cpu_capacity") as [| | |n| | |]; try destruct (is_finite n && num_lt 0 n);
    case_bool_decide; cbn [map fst Datatypes.app]; unfold availability_keys;
    (split; [apply (bool_decide_eq_true_1 _); vm_compute; reflexivity | set_solver]).
Qed.

Lemma metrics_NoDup report : NoDup (map fst (normalized_metrics report)).
Proof. apply (bool_decide_eq_true_1 _). vm_compute. reflexivity. Qed.

(** The normalized report before the disk clock is checked. *)
Definition normalized_base (report : fields) : fields :=
  let normalized := spread report (normalized_metrics report) in
  del_field "disk_sampled_at" (del_field "disk_source"
    (spread (del_field "metric_errors" (del_field "cpu_capacity" normalized)) (selectMetricAvailability normalized))).

Lemma base_metric report k v :
  lookup_field k (normalized_metrics report) = Some v → k ∉ availability_keys →
  k ≠ "disk_source" → k ≠ "disk_sampled_at" → fld (normalized_base report) k = v.
Proof.
  intros Hk Hav H1 H2. unfold normalized_base. cbv zeta.
  set (n := spread report (normalized_metrics report)).
  rewrite !fld_del_field, decide_False, decide_False by done.
  destruct (availability_shape n) as [Hnd Hin]. rewrite fld_spread by done.
  destruct (lookup_field k (selectMetricAvailability n)) as [w|] eqn:E.
  { apply lookup_field_elem in E. exfalso. apply Hav, Hin, list_elem_of_fmap. by exists (k, w). }
  rewrite !fld_del_field. unfold availability_keys in Hav. rewrite !not_elem_of_cons in Hav. destruct Hav as (? & ? & _).
  rewrite !decide_False by done. unfold n. rewrite fld_spread by apply metrics_NoDup. by rewrite Hk.
Qed.

Lemma normalize_eq input :
  let report := report_of input in
  normalizeMonitorReport input
  = if negb (is_undef (fld report "disk_source")) || negb (is_undef (fld report "disk_sampled_at")) then
      if disk_sample_ok report (normalized_base report)
      then set_field "disk_sampled_at" (fld report "disk_sampled_at")
             (set_field "disk_source" (JStr "directory") (normalized_base report))
      else set_field "disk" JNull (normalized_base report)
    else normalized_base report.
Proof. done. Qed.

(** Every metric but the disk is the one the object literal computes. *)
Lemma normalize_metric input k v :
  lookup_field k (normalized_metrics (report_of input)) = Some v → k ∉ availability_keys → k ≠ "disk" →
  k ≠ "disk_source" → k ≠ "disk_sampled_at" → fld (normalizeMonitorReport input) k = v.
Proof.
  intros Hk Hav H0 H1 H2. rewrite normalize_eq. cbv zeta.
  pose proof (base_metric _ _ _ Hk Hav H1 H2) as Hb.
  destruct (_ || _); [| done]. destruct (disk_sample_ok _ _); rewrite ?fld_set_field, ?decide_False by done; done.
Qed.

(** What the disk clock promises. *)
Definition disk_clock_ok (out : fields) : Prop :=
  (fld out "disk_source" = JUndef ∧ fld out "disk_sampled_at" = JUndef)
  ∨ (fld out "disk_source" = JStr "directory" ∧ fld out "disk" ≠ JNull
     ∧ ∃ n z, fld out "disk_sampled_at" = JNum n ∧ num_Z n = Some z ∧ 0 < z ≤ MAX_TIME).

Lemma base_no_clock report : fld (normalized_base report) "disk_source" = JUndef
  ∧ fld (normalized_base report) "disk_sampled_at" = JUndef.
Proof. unfold normalized_base. cbv zeta. by rewrite !fld_del_field. Qed.

Lemma sample_time_spec v :
  match v with
  | JNum sampledAt => is_safe_integer sampledAt && num_lt 0 sampledAt && num_le sampledAt MAX_TIME
  | _ => false
  end = true → ∃ n z, v = JNum n ∧ num_Z n = Some z ∧ 0 < z ≤ MAX_TIME.
Proof.
  destruct v as [| | |n| | |]; try done. unfold is_safe_integer. destruct (num_Z n) as [z|] eqn:E; [| done].
  rewrite (num_gt_of_Z _ _ _ E), (num_le_Z _ _ _ _ E (num_Z_of_Z MAX_TIME)). intros H. exists n, z.
  split; [done | split; [done | zlia]].
Qed.

Lemma normalize_disk input :
  fld (normalizeMonitorReport input) "disk" = JNull
  ∨ fld (normalizeMonitorReport input) "disk"
    = boundedNullableNumber 0 MAX_COUNTER_VALUE (fld (report_of input) "disk")
        [fld (asObject (fld (report_of input) "disk")) "used"].
Proof.
  rewrite normalize_eq. cbv zeta. set (report := report_of input).
  assert (Hb : fld (normalized_base report) "disk" = boundedNullableNumber 0 MAX_COUNTER_VALUE (fld report "disk")
                 [fld (asObject (fld report "disk")) "used"]).
  { apply base_metric; [reflexivity | apply (bool_decide_eq_true_1 _); vm_compute; reflexivity | done..]. }
  destruct (_ || _); [| by right]. destruct (disk_sample_ok report _); rewrite !fld_set_field; simpl; auto.
Qed.

(** The numeric metrics and their upper bounds. *)
Definition metric_limits : list (jstr * Z) :=
  [("cpu", MAX_PERCENT); ("gpu", MAX_PERCENT); ("ram", MAX_COUNTER_VALUE); ("ram_total", MAX_COUNTER_VALUE);
   ("swap", MAX_COUNTER_VALUE); ("swap_total", MAX_COUNTER_VALUE); ("load", MAX_LOAD_VALUE);
   ("disk", MAX_COUNTER_VALUE); ("disk_total", MAX_COUNTER_VALUE);
   ("net_in", MAX_COUNTER_VALUE); ("net_out", MAX_COUNTER_VALUE); ("net_total_up", MAX_COUNTER_VALUE);
   ("net_total_down", MAX_COUNTER_VALUE); ("process_count", MAX_COUNT_VALUE); ("connections", MAX_COUNT_VALUE);
   ("connections_udp", MAX_COUNT_VALUE); ("uptime", MAX_UPTIME_SECONDS)].

(** What a normalized GPU record promises: in particular the memory in use is
    at most the total, when the total is known. *)
Definition gpu_ok (v : jsval) : Prop :=
  ∃ fs total used, v = JObj fs
  ∧ within 0 MAX_DEVICE_INDEX (fld fs "device_index")
  ∧ (∃ s, fld fs "device_name" = JStr s ∧ slen s ≤ 128)
  ∧ fld fs "mem_total" = JNum total ∧ num_le 0 total = true ∧ num_le total MAX_COUNTER_VALUE = true
  ∧ fld fs "mem_used" = JNum used ∧ num_le 0 used = true
  ∧ (num_lt 0 total = true → num_le used total = true)
  ∧ within 0 MAX_PERCENT (fld fs "utilization") ∧ within 0 MAX_TEMPERATURE_C (fld fs "temperature").

Lemma normalizeGpu_ok i v : gpu_ok (normalizeGpu i v).
Proof.
  unfold normalizeGpu. cbv zeta. set (gpu := asObject v).
  set (total := boundedNumber 0 MAX_COUNTER_VALUE [fld gpu "mem_total"; fld gpu "memory_total"]).
  destruct (boundedNumber_range 0 MAX_COUNTER_VALUE [fld gpu "mem_total"; fld gpu "memory_total"]) as (Hf & Hlo & Hhi); [done |].
  fold total in Hf, Hlo, Hhi. set (value := firstNumber _). set (mx := if num_lt 0 total then total else _).
  assert (Hmx : is_finite mx = true ∧ num_le 0 mx = true).
  { unfold mx. destruct (num_lt 0 total); [done |]. split; [done | vm_compute; reflexivity]. }
  destruct Hmx as [Hm1 Hm2].
  destruct (bounded_range 0 mx value (firstNumber_finite _) Hm1 Hm2) as (Hb & Hb0 & Hb1).
  set (used := if num_lt value (of_Z 0) then _ else _) in *.
  eexists _, total, used. split; [reflexivity |]. split; [by apply boundedInteger_within |].
  split; [eexists; split; [reflexivity | apply slice_to_length] |].
  repeat (split; [first [reflexivity | done] |]).
  split; [| split; by apply boundedNumber_within].
  intros Hpos. unfold mx in Hb1. by rewrite Hpos in Hb1.
Qed.

Lemma normalizeGpuList_ok raw v :
  (length (normalizeGpuList raw v) ≤ 16)%nat ∧ Forall gpu_ok (normalizeGpuList raw v).
Proof.
  unfold normalizeGpuList. cbv zeta. set (l := match v with JArr l => l | _ => _ end). split.
  - rewrite length_imap. apply take_length_le.
  - apply Forall_forall. intros x Hx. apply list_elem_of_lookup in Hx as [i Hi].
    rewrite list_lookup_imap in Hi. destruct (take _ l !! i); [| done]. injection Hi as <-. apply normalizeGpu_ok.
Qed.

Lemma metrics_within report :
  Forall (λ p, ∃ v, lookup_field p.1 (normalized_metrics report) = Some v ∧ within 0 p.2 v) metric_limits.
Proof.
  unfold metric_limits. repeat (apply Forall_cons; split); [.. | apply Forall_nil_2];
    (eexists; split; [reflexivity |];
     first [apply boundedNullable_within | apply boundedInteger_within | apply boundedNumber_within]; unfold MAX_PERCENT, MAX_COUNTER_VALUE, MAX_LOAD_VALUE, MAX_COUNT_VALUE, MAX_UPTIME_SECONDS; cbn [snd]; lia).
Qed.

Lemma metric_keys_ok k : k ∈ map fst metric_limits →
  (k ∉ availability_keys) ∧ k ≠ "disk_source" ∧ k ≠ "disk_sampled_at".
Proof.
  intros Hk.
  assert (H : forallb (λ k, negb (mem k availability_keys) && negb (jeq k "disk_source") && negb (jeq k "disk_sampled_at"))
                (map fst metric_limits) = true) by (vm_compute; reflexivity).
  rewrite forallb_true in H. specialize (H k Hk). rewrite !andb_true_iff, !negb_true_iff in H.
  destruct H as [[H1 H2] H3]. split; [by apply mem_false | split; by apply jeq_false].
Qed.

(** *** Public reports *)

Definition scalar_public (v : jsval) : Prop :=
  match v with
  | JNull | JBool _ => True
  | JNum n => is_finite n = true
  | JStr s => slen s ≤ 256
  | _ => False
  end.
Lemma scalar_of_public v w : scalar_of v = Some w → scalar_public w.
Proof.
  destruct v; simpl; try done; [by intros [= <-].. | |].
  - destruct (is_finite n) eqn:E; [by intros [= <-] | done].
  - intros [= <-]. apply (slice_to_length 256).
Qed.

(** What the public sees of one field of a report. *)
Definition public_entry_ok (p : jstr * jsval) : Prop :=
  let scalars names v := ∃ fs, v = JObj fs ∧ Forall (λ q, q.1 ∈ names ∧ scalar_public q.2) fs in
  p.1 ∈ METRIC_FIELDS ++ ["cpu_capacity"] ∧ scalar_public p.2
  ∨ p.1 = "metric_errors" ∧ (∃ fs, p.2 = JObj fs
      ∧ Forall (λ q, q.1 ∈ (["cpu"; "ram"; "swap"; "network"] : list jstr)
                     ∧ q.2 ∈ [JStr "collection_failed"; JStr "container_scope_unavailable"; JStr "warming_up"]) fs)
  ∨ p.1 = "gpus" ∧ (∃ l, p.2 = JArr l ∧ (length l ≤ 16)%nat ∧ Forall (scalars GPU_FIELDS) l)
  ∨ p.1 = "basic_info" ∧ scalars BASIC_FIELDS p.2.

Lemma selectScalars_elem v names q : q ∈ selectScalars v names → q.1 ∈ names ∧ scalar_public q.2.
Proof. unfold selectScalars. intros [? H]%pick_elem. split; [done | by apply scalar_of_public in H]. Qed.

Lemma select_errors_elem errors names q :
  q ∈ select_errors errors names → q.1 ∈ names
  ∧ q.2 ∈ [JStr "collection_failed"; JStr "container_scope_unavailable"; JStr "warming_up"].
Proof.
  induction names as [|a names IH]; cbn [select_errors]; [by intros ?%not_elem_of_nil |]. cbv zeta.
  destruct (_ || _ || _) eqn:E; [| intros [? ?]%IH; split; [by right | done]].
  intros [-> | Hq]%elem_of_cons; [| destruct (IH Hq); split; [by right | done]]. cbn [fst snd]. split; [left |].
  rewrite !orb_true_iff in E. destruct (fld errors a) as [| | | |s| |]; try (by destruct E as [[] |]).
  cbn [is_str] in E. rewrite !jeq_true in E. destruct E as [[-> | ->] | ->]; set_solver.
Qed.

Lemma availability_elem report p :
  p ∈ selectMetricAvailability report → public_entry_ok p.
Proof.
  unfold selectMetricAvailability. cbv zeta. intros [Hp | Hp]%elem_of_app.
  - left. destruct (fld report "cpu_capacity") as [| | |n| | |]; try by apply not_elem_of_nil in Hp.
    destruct (is_finite n) eqn:E; cbn [andb] in Hp; [| by apply not_elem_of_nil in Hp].
    destruct (num_lt 0 n); [| by apply not_elem_of_nil in Hp]. apply list_elem_of_singleton in Hp as ->.
    split; [| done]. apply elem_of_app. right. left.
  - right. left. case_bool_decide; [by apply not_elem_of_nil in Hp |]. apply list_elem_of_singleton in Hp as ->.
    split; [done |]. eexists. split; [done |]. apply Forall_forall. intros q. apply select_errors_elem.
Qed.

Lemma toPublicReport_elem report p : p ∈ toPublicReport report → public_entry_ok p.
Proof.
  unfold toPublicReport. cbv zeta. set (r1 := spread _ _).
  set (gpus := JArr _).
  assert (H1 : ∀ p, p ∈ r1 → public_entry_ok p).
  { intros q [Hq | Hq]%spread_elem; [| by apply availability_elem in Hq].
    apply selectScalars_elem in Hq as [? ?]. left. split; [apply elem_of_app; by left | done]. }
  assert (H2 : ∀ p, p ∈ set_field "gpus" gpus r1 → public_entry_ok p).
  { intros q [-> | Hq]%set_field_elem; [| by apply H1]. right. right. left. split; [done |].
    eexists. split; [done |]. destruct (fld report "gpus") as [| | | | |l|]; try (split; [simpl; lia | apply Forall_nil_2]).
    split; [rewrite length_map; apply take_length_le |]. apply Forall_forall. intros v (g & -> & _)%list_elem_of_fmap.
    eexists. split; [done |]. apply Forall_forall. intros x. apply selectScalars_elem. }
  assert (H3 : ∀ v, p ∈ set_field "basic_info" (JObj (selectScalars v BASIC_FIELDS)) (set_field "gpus" gpus r1) → public_entry_ok p).
  { intros v [-> | Hq]%set_field_elem; [| by apply H2]. right. right. right. split; [done |].
    eexists. split; [done |]. apply Forall_forall. intros x. apply selectScalars_elem. }
  destruct (fld report "basic_info"); try apply H2; apply H3.
Qed.

Lemma fld_toPublicReport report k :
  k ∈ METRIC_FIELDS → fld (toPublicReport report) k = default JUndef (scalar_of (fld report k)).
Proof.
  intros Hk. assert (Hn : k ≠ "gpus" ∧ k ≠ "basic_info" ∧ (k ∉ availability_keys)).
  { assert (H : forallb (λ k, negb (jeq k "gpus") && negb (jeq k "basic_info") && negb (mem k availability_keys)) METRIC_FIELDS = true)
      by (vm_compute; reflexivity).
    rewrite forallb_true in H. specialize (H k Hk). rewrite !andb_true_iff, !negb_true_iff in H.
    destruct H as [[H1 H2] H3]. split; [by apply jeq_false | split; [by apply jeq_false | by apply mem_false]]. }
  destruct Hn as (H1 & H2 & H3). unfold toPublicReport. cbv zeta.
  assert (Hr : ∀ gpus, fld (set_field "gpus" gpus (spread (selectScalars (JObj report) METRIC_FIELDS) (selectMetricAvailability report))) k
                = default JUndef (scalar_of (fld report k))).
  { intros gpus. rewrite fld_set_field, decide_False by done. destruct (availability_shape report) as [Hnd Hin].
    rewrite fld_spread by done. destruct (lookup_field k (selectMetricAvailability report)) as [w|] eqn:E.
    - apply lookup_field_elem in E. exfalso. apply H3, Hin, list_elem_of_fmap. by exists (k, w).
    - unfold fld at 1, selectScalars. by rewrite lookup_pick, decide_True. }
  destruct (fld report "basic_info"); try apply Hr; by rewrite fld_set_field, decide_False, Hr.
Qed.

Lemma toPublicReport_no_type report : fld (toPublicReport report) "type" = JUndef.
Proof.
  unfold fld. destruct (lookup_field "type" (toPublicReport report)) as [v|] eqn:E; [| done].
  apply lookup_field_elem, toPublicReport_elem in E.
  destruct E as [[H _] | [[H _] | [[H _] | [H _]]]]; cbn [fst] in H; try discriminate H.
  apply mem_spec in H. by vm_compute in H.
Qed.

Lemma within_scalar lo hi v : within lo hi v → default JUndef (scalar_of v) = v.
Proof. intros [-> | (n & -> & Hf & _)]; simpl; [done |]. by rewrite Hf. Qed.

Lemma scalar_time n z : num_Z n = Some z → default JUndef (scalar_of (JNum n)) = JNum n.
Proof. intros H. simpl. by rewrite (num_Z_finite _ _ H). Qed.

(** Every metric read from an object whose metrics are within bounds is that
    object's. *)
Lemma metrics_stable o k hi :
  (k, hi) ∈ metric_limits → within 0 hi (fld o k) →
  (k ∈ (["process_count"; "connections"; "connections_udp"] : list jstr) → ∃ z, fld o k = JNum (of_Z z)) →
  (k = "gpu" → fld o k ≠ JNull) →
  lookup_field k (normalized_metrics o) = Some (fld o k).
Proof.
  intros Hin Hw Hint Hgpu.
  assert (Hi : ∀ vs, (∃ z, fld o k = JNum (of_Z z)) → boundedInteger 0 hi (fld o k :: vs) = boundedNumber 0 hi (fld o k :: vs)
    ∧ JNum (boundedNumber 0 hi (fld o k :: vs)) = fld o k).
  { intros vs [z Hz]. destruct Hw as [Hn | (n & Hn & H1 & H2 & H3)]; [congruence |]. rewrite Hn in *.
    injection Hz as ->. unfold boundedInteger. rewrite boundedNumber_id by done. by rewrite num_trunc_of_Z. }
  unfold metric_limits in Hin. rewrite !elem_of_cons in Hin.
  decompose_or Hin; try (by apply not_elem_of_nil in Hin); injection Hin as -> ->;
    refine (eq_trans (y := Some _) eq_refl (f_equal Some _)); try (by apply boundedNullable_id).
  - destruct Hw as [Hn | (n & Hn & H1 & H2 & H3)]; [by destruct Hgpu |]. rewrite Hn. by rewrite boundedNumber_id.
  - destruct (Hi [fld o "process"] ltac:(apply Hint; set_solver)) as [-> Hj]. exact Hj.
  - destruct (Hi [fld (asObject (fld o "connections")) "tcp"] ltac:(apply Hint; set_solver)) as [-> Hj]. exact Hj.
  - destruct (Hi [fld (asObject (fld o "connections")) "udp"] ltac:(apply Hint; set_solver)) as [-> Hj]. exact Hj.
Qed.

(** The facts of [normalizeMonitorReport_bounded] and
    [normalizeMonitorReport_disk_clock] that the stored state relies on. *)
Lemma normalized_fields input :
  let out := normalizeMonitorReport input in
  Forall (λ p, within 0 p.2 (fld out p.1)) metric_limits
  ∧ within (-100) 150 (fld out "temp")
  ∧ (∀ j, j ∈ (["process_count"; "connections"; "connections_udp"] : list jstr) → ∃ z, fld out j = JNum (of_Z z))
  ∧ fld out "gpu" ≠ JNull.
Proof.
  cbv zeta. split; [| split; [| split]].
  - apply Forall_forall. intros [k hi] Hin. cbn [fst snd].
    pose proof (metrics_within (report_of input)) as Hm. rewrite Forall_forall in Hm.
    destruct (Hm _ Hin) as (v & Hv & Hw). cbn [fst snd] in *.
    destruct (metric_keys_ok k) as (H1 & H2 & H3); [apply list_elem_of_fmap; by exists (k, hi) |].
    destruct (decide (k = "disk")) as [-> | Hne].
    + destruct (normalize_disk input) as [-> | ->]; [by left |]. cbn in Hv. injection Hv as <-. exact Hw.
    + by rewrite (normalize_metric _ _ _ Hv).
  - erewrite normalize_metric; [apply measuredTemperature_within | reflexivity |..];
      [apply (bool_decide_eq_true_1 _); vm_compute; reflexivity | done..].
  - intros j Hj. list_cases Hj;
      (erewrite normalize_metric; [| reflexivity | apply (bool_decide_eq_true_1 _); vm_compute; reflexivity | done..]);
      match goal with |- context [boundedInteger ?lo ?hi ?vs] =>
        destruct (boundedInteger_range lo hi vs) as (z & -> & _); [unfold MAX_COUNT_VALUE; lia | by exists z] end.
  - erewrite normalize_metric; [| reflexivity | apply (bool_decide_eq_true_1 _); vm_compute; reflexivity | done..]. done.
Qed.

Lemma normalized_clock input : disk_clock_ok (normalizeMonitorReport input).
Proof.
  rewrite normalize_eq. cbv zeta. set (report := report_of input). destruct (base_no_clock report) as [H1 H2].
  destruct (_ || _); [| by left]. destruct (disk_sample_ok report (normalized_base report)) eqn:E.
  - right. rewrite !fld_set_field. decide_str. unfold disk_sample_ok in E.
    apply andb_true_iff in E as [E Ht]. apply andb_true_iff in E as [E _]. apply andb_true_iff in E as [_ Hd].
    apply negb_true_iff in Hd. split; [done |]. split; [by intros Hn; rewrite Hn in Hd |]. by apply sample_time_spec.
  - left. by rewrite !fld_set_field.
Qed.

(** A disk clock that is read again is still valid. *)
Lemma disk_sample_stable o n z :
  fld o "disk_source" = JStr "directory" → fld (normalized_base o) "disk" = fld o "disk" →
  within 0 MAX_COUNTER_VALUE (fld o "disk") → fld o "disk" ≠ JNull →
  fld o "disk_sampled_at" = JNum n → num_Z n = Some z → 0 < z ≤ MAX_TIME →
  disk_sample_ok o (normalized_base o) = true.
Proof.
  intros Hs Hd Hw Hnn Ht Hz Hr. unfold disk_sample_ok. rewrite Hs, Hd, Ht.
  destruct Hw as [? | (m & Hm & Hf & Hlo & Hhi)]; [done |]. rewrite Hm. cbn [is_null negb is_str].
  rewrite numberFrom_JNum by done. rewrite Hlo, Hhi, jeq_refl. cbn [andb].
  unfold is_safe_integer. rewrite Hz, (num_gt_of_Z _ _ _ Hz), (num_le_Z _ _ _ _ Hz (num_Z_of_Z MAX_TIME)).
  unfold MAX_TIME, max_safe in *. rewrite !andb_true_iff, !Z.leb_le, Z.ltb_lt. lia.
Qed.

Lemma normalize_clock o :
  report_of (JObj o) = o → disk_clock_ok o → fld (normalized_base o) "disk" = fld o "disk" →
  within 0 MAX_COUNTER_VALUE (fld o "disk") →
  fld (normalizeMonitorReport (JObj o)) "disk_source" = fld o "disk_source"
  ∧ fld (normalizeMonitorReport (JObj o)) "disk_sampled_at" = fld o "disk_sampled_at".
Proof.
  intros Hro Hclock Hdisk Hds. rewrite normalize_eq, Hro. cbv zeta. destruct (base_no_clock o) as [B1 B2].
  destruct Hclock as [[Hc1 Hc2] | (Hc1 & Hc2 & n & z & Hc3 & Hz & Hzr)].
  - rewrite Hc1, Hc2. cbn [is_undef negb orb]. by rewrite B1, B2.
  - assert (Hok : disk_sample_ok o (normalized_base o) = true) by (by eapply disk_sample_stable).
    rewrite Hc1, Hok. cbn [is_undef negb orb]. rewrite !fld_set_field. decide_str. done.
Qed.

(** *** Public clients *)

Definition PUBLIC_KEYS : list jstr := PUBLIC_CLIENT_FIELDS ++ ["has_ipv4"; "has_ipv6"].
Definition PRIVATE_KEYS : list jstr := ["ipv4"; "ipv6"; "token"; "remark"].

Lemma PUBLIC_KEYS_private : Forall (λ k, k ∉ PUBLIC_KEYS) PRIVATE_KEYS.
Proof. apply (bool_decide_eq_true_1 _). vm_compute. reflexivity. Qed.

(** An object whose properties are all public has no private one. *)
Lemma public_no_private (fs : fields) :
  Forall (λ p, p.1 ∈ PUBLIC_KEYS) fs → Forall (λ k, has_own fs k = false) PRIVATE_KEYS.
Proof.
  intros H. eapply Forall_impl; [exact PUBLIC_KEYS_private |]. intros k Hk. unfold has_own.
  destruct (lookup_field k fs) as [v|] eqn:E; [| done]. apply lookup_field_elem in E.
  rewrite Forall_forall in H. by destruct (Hk (H _ E)).
Qed.

Lemma pickFields_keys client p : p ∈ pickFields client PUBLIC_CLIENT_FIELDS → p.1 ∈ PUBLIC_KEYS.
Proof. unfold pickFields. intros [Hp _]%pick_elem. apply elem_of_app. by left. Qed.
Lemma flag_keys (v1 v2 v3 : jsval) p :
  p ∈ [("has_ipv4" : jstr, v1); ("has_ipv6" : jstr, v2); ("tags" : jstr, v3)] → p.1 ∈ PUBLIC_KEYS.
Proof. intros Hp. list_cases Hp; cbn [fst]; apply mem_spec; vm_compute; reflexivity. Qed.

Lemma toPublicClient_keys client : Forall (λ p, p.1 ∈ PUBLIC_KEYS) (toPublicClient client).
Proof.
  unfold toPublicClient. cbv zeta. apply Forall_forall.
  intros p [Hp | Hp]%spread_elem; [by eapply pickFields_keys | by eapply flag_keys].
Qed.

Lemma project_flag_keys client field result :
  "has_" +++ field ∈ PUBLIC_KEYS → Forall (λ p, p.1 ∈ PUBLIC_KEYS) result →
  Forall (λ p, p.1 ∈ PUBLIC_KEYS) (project_flag client field result).
Proof.
  intros Hf Hr. rewrite Forall_forall in Hr. unfold project_flag. cbv zeta.
  assert (Hs : ∀ v, Forall (λ p, p.1 ∈ PUBLIC_KEYS) (set_field ("has_" +++ field) v result)).
  { intros v. apply Forall_forall. intros p [-> | Hp]%set_field_elem; [done | by apply Hr]. }
  destruct (has_own client field); [apply Hs |].
  destruct (fld client ("has_" +++ field)); try apply Hs; by apply Forall_forall.
Qed.

Lemma pick_scalars_keys client p : p ∈ pick_scalars client PUBLIC_CLIENT_FIELDS → p.1 ∈ PUBLIC_KEYS.
Proof. unfold pick_scalars. intros [Hp _]%pick_elem. apply elem_of_app. by left. Qed.
Lemma tagged_keys (fs : fields) v p :
  (∀ q, q ∈ fs → q.1 ∈ PUBLIC_KEYS) → p ∈ set_field "tags" v fs → p.1 ∈ PUBLIC_KEYS.
Proof. intros Hfs [-> | Hp]%set_field_elem; [cbn [fst]; apply mem_spec; vm_compute; reflexivity | by apply Hfs]. Qed.

Lemma projectClientMetadata_keys client : Forall (λ p, p.1 ∈ PUBLIC_KEYS) (projectClientMetadata client false).
Proof.
  unfold projectClientMetadata. cbv zeta.
  apply project_flag_keys; [apply mem_spec; vm_compute; reflexivity |].
  apply project_flag_keys; [apply mem_spec; vm_compute; reflexivity |].
  apply Forall_forall. intros p. destruct (has_own client "tags"); [| apply pick_scalars_keys].
  apply tagged_keys, pick_scalars_keys.
Qed.

(** The tags that are left name no address family. *)
Lemma sanitizePublicTags_public v :
  Forall (λ tag, tag = "" ∨ isPublicTag tag = true) (split_on tag_separator (sanitizePublicTags v)).
Proof.
  unfold sanitizePublicTags. destruct v as [| | | |s| |]; try (apply Forall_singleton; by left).
  set (tags := List.filter isPublicTag _).
  assert (Ht : ∀ x, x ∈ tags → isPublicTag x = true ∧ forallb (λ u, negb (tag_separator u)) (units x) = true).
  { intros x Hx. apply list_elem_of_In in Hx. apply List.filter_In in Hx as [Hx Hpub].
    apply List.filter_In in Hx as [Hx _]. apply in_map_iff in Hx as (y & <- & Hy). split; [done |].
    apply trim_forallb, split_on_none with s. by apply list_elem_of_In. }
  destruct (decide (tags = [])) as [-> | Hne]; [apply Forall_singleton; by left |].
  rewrite (split_join tag_separator 59 tags) by (done || (intros x Hx; by apply Ht)).
  apply Forall_forall. intros x Hx. right. by apply Ht.
Qed.

(** ** Properties *)

(** Whatever an agent sends, every metric of the normalized report is
    either unavailable or a finite number within its bounds; there are at most
    16 GPU records, each well formed; and the version has at most 64 units. *)
Theorem normalizeMonitorReport_bounded input :
  let out := normalizeMonitorReport input in
  Forall (λ p, within 0 p.2 (fld out p.1)) metric_limits
  ∧ within (-100) 150 (fld out "temp")
  ∧ (∃ gpus, fld out "gpus" = JArr gpus ∧ (length gpus ≤ 16)%nat ∧ Forall gpu_ok gpus)
  ∧ (∃ version, fld out "version" = JStr version ∧ slen version ≤ 64).
Proof.
  cbv zeta. destruct (normalized_fields input) as (Hm & Ht & _). split; [done | split; [done | split]].
  - eexists. erewrite normalize_metric; [split; [reflexivity | apply normalizeGpuList_ok] | reflexivity |..];
      [apply (bool_decide_eq_true_1 _); vm_compute; reflexivity | done..].
  - eexists. erewrite normalize_metric; [split; [reflexivity | apply (slice_to_length 64)] | reflexivity |..];
      [apply (bool_decide_eq_true_1 _); vm_compute; reflexivity | done..].
Qed.

(** A normalized report never carries half a disk clock: either both
    [disk_source] and [disk_sampled_at] are absent, or the source is
    [directory], the disk measurement is available, and the sampling time is a
    positive integer in the range of dates. *)
Theorem normalizeMonitorReport_disk_clock input : disk_clock_ok (normalizeMonitorReport input).
Proof. apply normalized_clock. Qed.

(** The fields the durable live state keeps exactly. *)
Definition kept_metrics : list jstr := map fst metric_limits ++ ["temp"; "disk_source"; "disk_sampled_at"].

Lemma fld_keep_ip report field compact k : k ≠ field → fld (keep_ip report field compact) k = fld compact k.
Proof.
  intros Hk. unfold keep_ip. destruct (fld report field) as [| | | |ip| |]; try done.
  destruct (isPublicIpAddress ip); [| done]. by rewrite fld_set_field, decide_False.
Qed.

Lemma fld_compact report k :
  k ∈ kept_metrics → fld (compactLiveReport report) k = fld (normalizeMonitorReport (JObj (toPublicReport report))) k.
Proof.
  intros Hk. assert (Hn : k ≠ "ipv4" ∧ k ≠ "ipv6" ∧ k ≠ "region").
  { assert (H : forallb (λ k, negb (jeq k "ipv4") && negb (jeq k "ipv6") && negb (jeq k "region")) kept_metrics = true)
      by (vm_compute; reflexivity).
    rewrite forallb_true in H. specialize (H k Hk). rewrite !andb_true_iff, !negb_true_iff, !jeq_false in H. tauto. }
  destruct Hn as (H1 & H2 & H3). unfold compactLiveReport. cbv zeta.
  destruct (fld report "region"); rewrite ?fld_set_field, ?(decide_False (P := k = "region")), !fld_keep_ip by done; done.
Qed.

Lemma report_of_public report : report_of (JObj (toPublicReport report)) = toPublicReport report.
Proof. unfold report_of, asObject. cbn [as_object]. by rewrite toPublicReport_no_type. Qed.

Lemma kept_in_METRIC_FIELDS k : k ∈ kept_metrics → k ∈ METRIC_FIELDS.
Proof.
  intros Hk. assert (H : forallb (λ k, mem k METRIC_FIELDS) kept_metrics = true) by (vm_compute; reflexivity).
  rewrite forallb_true in H. by apply mem_spec, H.
Qed.

(** An object whose metrics and disk clock are those of a normalized report is
    normalized to the same metrics and disk clock. *)
Lemma normalize_stable o k :
  report_of (JObj o) = o →
  Forall (λ p, within 0 p.2 (fld o p.1)) metric_limits → within (-100) 150 (fld o "temp") →
  (∀ j, j ∈ (["process_count"; "connections"; "connections_udp"] : list jstr) → ∃ z, fld o j = JNum (of_Z z)) →
  fld o "gpu" ≠ JNull → disk_clock_ok o → k ∈ kept_metrics →
  fld (normalizeMonitorReport (JObj o)) k = fld o k.
Proof.
  intros Hro Hm Ht Hint Hgpu Hclock Hk. rewrite Forall_forall in Hm.
  assert (Hst : ∀ j hi, (j, hi) ∈ metric_limits → lookup_field j (normalized_metrics o) = Some (fld o j)).
  { intros j hi Hin. apply (metrics_stable o j hi); [done | by apply (Hm (j, hi)) | by apply Hint | by intros ->]. }
  assert (Hdisk : fld (normalized_base o) "disk" = fld o "disk").
  { apply base_metric; [apply (Hst _ MAX_COUNTER_VALUE); unfold metric_limits; list_elem | | done..].
    apply (bool_decide_eq_true_1 _); vm_compute; reflexivity. }
  assert (Hds : within 0 MAX_COUNTER_VALUE (fld o "disk")).
  { apply (Hm ("disk", MAX_COUNTER_VALUE)). unfold metric_limits. list_elem. }
  unfold kept_metrics in Hk. apply elem_of_app in Hk as [Hk | Hk].
  - apply list_elem_of_fmap in Hk as ([j hi] & -> & Hin). cbn [fst].
    destruct (metric_keys_ok j) as (H1 & H2 & H3); [apply list_elem_of_fmap; by exists (j, hi) |].
    destruct (decide (j = "disk")) as [-> | Hne].
    + rewrite normalize_eq, Hro. cbv zeta. destruct Hclock as [[Hc1 Hc2] | (Hc1 & Hc2 & n & z & Hc3 & Hz & Hzr)].
      * rewrite Hc1, Hc2. done.
      * assert (Hok : disk_sample_ok o (normalized_base o) = true) by (by eapply disk_sample_stable).
        rewrite Hc1, Hok. cbn [is_undef negb orb]. rewrite !fld_set_field. decide_str. done.
    + apply normalize_metric; rewrite ?Hro; [by eapply Hst | done..].
  - list_cases Hk.
    + apply normalize_metric; rewrite ?Hro; [| apply (bool_decide_eq_true_1 _); vm_compute; reflexivity | done..].
      refine (eq_trans (y := Some _) eq_refl (f_equal Some _)). by apply temperature_id.
    + destruct (normalize_clock o Hro Hclock Hdisk Hds) as [H _]. exact H.
    + destruct (normalize_clock o Hro Hclock Hdisk Hds) as [_ H]. exact H.
Qed.

(** The live state kept across restarts loses no metric: compacting a
    normalized report for storage, which projects and normalizes it again,
    keeps every numeric metric, the temperature and the disk clock. *)
Theorem compactLiveReport_preserves input :
  let report := normalizeMonitorReport input in
  Forall (λ k, fld (compactLiveReport report) k = fld report k) kept_metrics.
Proof.
  cbv zeta. set (report := normalizeMonitorReport input). apply Forall_forall. intros k Hk.
  pose proof (normalized_fields input) as (Hm & Ht & Hint & Hgpu). fold report in Hm, Ht, Hint, Hgpu.
  pose proof (normalized_clock input) as Hc. fold report in Hc.
  assert (Hpub : ∀ j, j ∈ kept_metrics → fld (toPublicReport report) j = fld report j).
  { intros j Hj. rewrite fld_toPublicReport by (by apply kept_in_METRIC_FIELDS).
    unfold kept_metrics in Hj. apply elem_of_app in Hj as [Hj | Hj].
    - apply list_elem_of_fmap in Hj as ([j' hi] & -> & Hin). rewrite Forall_forall in Hm.
      by eapply within_scalar, (Hm (j', hi)).
    - list_cases Hj.
      + by eapply within_scalar.
      + destruct Hc as [[-> _] | (-> & _)]; [done |]. reflexivity.
      + destruct Hc as [[_ ->] | (_ & _ & n & z & -> & Hz & _)]; [done |]. by eapply scalar_time. }
  rewrite fld_compact by done. rewrite <- Hpub by done.
  assert (Hin : ∀ j, mem j kept_metrics = true → j ∈ kept_metrics) by (intros j; apply mem_spec).
  apply normalize_stable; [apply report_of_public | | | | | | done].
  - apply Forall_forall. intros [j hi] Hj. rewrite Forall_forall in Hm. cbn [fst snd].
    rewrite Hpub by (unfold kept_metrics; apply elem_of_app; left; apply list_elem_of_fmap; by exists (j, hi)).
    by apply (Hm (j, hi)).
  - by rewrite Hpub by (by apply Hin).
  - intros j Hj. rewrite Hpub; [by apply Hint |]. apply Hin.
    list_cases Hj; reflexivity.
  - by rewrite Hpub by (by apply Hin).
  - unfold disk_clock_ok. by rewrite !Hpub by (by apply Hin).
Qed.

(** The public view of a report is an allow list, nested data included: a
    key is a metric or [cpu_capacity] with a scalar of at most 256 code units,
    the fixed vocabulary of metric errors, at most 16 GPU records of the listed
    fields, or the listed fields of the basic information. *)
Theorem toPublicReport_allowlist report : Forall public_entry_ok (toPublicReport report).
Proof. apply Forall_forall. intros p. apply toPublicReport_elem. Qed.

(** Neither the public row of a client nor a public metadata patch carries
    its addresses, token or private remark: their keys are the public ones, and
    no tag names an address family. *)
Theorem toPublicClient_private client :
  Forall (λ p, p.1 ∈ PUBLIC_KEYS) (toPublicClient client)
  ∧ Forall (λ p, p.1 ∈ PUBLIC_KEYS) (projectClientMetadata client false)
  ∧ Forall (λ k, has_own (toPublicClient client) k = false ∧ has_own (projectClientMetadata client false) k = false) PRIVATE_KEYS
  ∧ ∃ tags, fld (toPublicClient client) "tags" = JStr tags
            ∧ Forall (λ tag, tag = "" ∨ isPublicTag tag = true) (split_on tag_separator tags).
Proof.
  pose proof (toPublicClient_keys client) as H1. pose proof (projectClientMetadata_keys client) as H2.
  split; [done | split; [done | split]].
  - apply Forall_and. split; by apply public_no_private.
  - eexists. split; [| apply sanitizePublicTags_public].
    unfold toPublicClient. cbv zeta. rewrite fld_spread; [reflexivity |].
    apply (bool_decide_eq_true_1 _). vm_compute. reflexivity.
Qed.
