(* ===== verification/Client.v ===== *)
(** * Client rows: [worker/src/utils/client.ts]

    Validation of the administrator's edits of a monitored client and of new
    clients, and the shape of agent tokens.  A validator returns its value with
    the errors it reports. *)

From S2P Require Import Prelude JsStr JsNum JsVal.
#[local] Open Scope Z_scope.

(** @worker/src/utils/client.ts:1-1 MAX_SAFE_BYTES *)
Definition MAX_SAFE_BYTES : Z := max_safe.
(** @worker/src/utils/client.ts:2-19 TEXT_LIMITS *)
Definition TEXT_LIMITS : list (jstr * Z) :=
  [("name", 128); ("cpu_name", 256); ("virtualization", 128); ("arch", 64); ("os", 128); ("kernel_version", 128);
   ("gpu_name", 256); ("ipv4", 128); ("ipv6", 128); ("region", 128); ("remark", 1000); ("public_remark", 1000);
   ("version", 128); ("currency", 16); ("expired_at", 64); ("group", 128)].
(** @worker/src/utils/client.ts:21-21 BOOLEAN_FIELDS *)
Definition BOOLEAN_FIELDS : list jstr := ["auto_renewal"; "hidden"].
(** @worker/src/utils/client.ts:22-22 INTEGER_FIELDS *)
Definition INTEGER_FIELDS : list jstr :=
  ["cpu_cores"; "billing_cycle"; "mem_total"; "swap_total"; "disk_total"; "traffic_limit"; "traffic_reset_day"].
(** @worker/src/utils/client.ts:23-23 NUMBER_FIELDS *)
Definition NUMBER_FIELDS : list jstr := ["price"].
(** @worker/src/utils/client.ts:24-24 TRAFFIC_LIMIT_TYPES *)
Definition TRAFFIC_LIMIT_TYPES : list jstr := ["sum"; "max"; "min"; "up"; "down"; "unlimited"].
(** @worker/src/utils/client.ts:25-25 MAX_TAGS *)
Definition MAX_TAGS : nat := 50.
(** @worker/src/utils/client.ts:26-26 MAX_TAG_LENGTH *)
Definition MAX_TAG_LENGTH : Z := 64.
(** @worker/src/utils/client.ts:27-27 MAX_TAGS_TEXT_LENGTH *)
Definition MAX_TAGS_TEXT_LENGTH : Z := 1000.
(** @worker/src/utils/client.ts:29-29 MIN_AGENT_TOKEN_LENGTH *)
Definition MIN_AGENT_TOKEN_LENGTH : Z := 32.
(** @worker/src/utils/client.ts:30-30 MAX_AGENT_TOKEN_LENGTH *)
Definition MAX_AGENT_TOKEN_LENGTH : Z := 256.

(** A value and the errors its reader reports; [JUndef] is [undefined]. *)
Definition reading : Type := (jsval * list jstr).

(** @worker/src/utils/client.ts:46-59 readString *)
Definition readString (value : jsval) (field : jstr) (maxLength : Z) : reading :=
  match value with
  | JUndef => (JUndef, [])
  | JNull => (JNull, [])
  | JStr _ | JNum _ | JBool _ =>
    let text := trim (to_str value) in
    if maxLength <? slen text then (JUndef, [field +++ " 不能超过 " +++ dec_Z maxLength +++ " 字符"])
    else (JStr text, [])
  | _ => (JUndef, [field +++ " 必须是字符串"])
  end.

(** @worker/src/utils/client.ts:61-75 readBoolean *)
Definition readBoolean (value : jsval) (field : jstr) : reading :=
  let invalid := (JUndef, [field +++ " 必须是 true/false/1/0"]) in
  match value with
  | JUndef => (JUndef, [])
  | JBool b => (JBool b, [])
  | JNum n => if num_eqb n 1 then (JBool true, []) else if num_eqb n 0 then (JBool false, []) else invalid
  | JStr s =>
    let normalized := lower (trim s) in
    if jeq normalized "true" || jeq normalized "1" then (JBool true, [])
    else if jeq normalized "false" || jeq normalized "0" then (JBool false, [])
    else invalid
  | _ => invalid
  end.

(** @worker/src/utils/client.ts:77-95 numericBounds *)
Definition numericBounds (field : jstr) : Z * Z :=
  if jeq field "price" then (-1, 1000000000)
  else if jeq field "cpu_cores" then (0, 1024)
  else if jeq field "billing_cycle" then (-1, 36500)
  else if jeq field "traffic_reset_day" then (1, 31)
  else (0, MAX_SAFE_BYTES).

(** @worker/src/utils/client.ts:97-110 readNumber *)
Definition readNumber (value : jsval) (field : jstr) (integer : bool) : reading :=
  if is_blank value then (JUndef, [])
  else
    let numberValue := match value with JNum n => n | _ => str_num (trim (to_str value)) end in
    let '(min, max) := numericBounds field in
    if negb (is_finite numberValue) || num_lt numberValue min || num_lt max numberValue
    then (JUndef, [field +++ " 必须在 " +++ dec_Z min +++ " 到 " +++ dec_Z max +++ " 之间"])
    else if integer && negb (is_integer numberValue) then (JUndef, [field +++ " 必须是整数"])
    else (JNum numberValue, []).

(** @worker/src/utils/client.ts:118-132 normalizeTags (loop) -- [None] when an
    item is not a text; [seen] holds the tags kept so far. *)
Fixpoint collect_tags (tags errors : list jstr) (source : list jsval) : option (list jstr) * list jstr :=
  match source with
  | [] => (Some tags, errors)
  | item :: rest =>
    match item with
    | JStr _ | JNum _ =>
      let tag := trim (to_str item) in
      if negb (nonempty tag) then collect_tags tags errors rest
      else if MAX_TAG_LENGTH <? slen tag
      then collect_tags tags (errors ++ ["单个标签不能超过 64 字符"]) rest
      else if mem tag tags then collect_tags tags errors rest
      else collect_tags (tags ++ [tag]) errors rest
    | _ => (None, errors ++ ["tags 必须是字符串或字符串数组"])
    end
  end.
Definition tag_separator (u : N) : bool := ((u =? 59) || (u =? 44))%N.
(** @worker/src/utils/client.ts:112-144 normalizeTags *)
Definition normalizeTags (value : jsval) : reading :=
  match value with
  | JUndef | JNull => (JUndef, [])
  | _ =>
    let source := match value with
                  | JArr l => l
                  | _ => map JStr (split_on tag_separator (to_str value))
                  end in
    match collect_tags [] [] source with
    | (None, errors) => (JUndef, errors)
    | (Some tags, errors) =>
      let errors := if (MAX_TAGS <? length tags)%nat then errors ++ ["标签数量不能超过 50 个"] else errors in
      let normalized := join ";" (take MAX_TAGS tags) in
      if MAX_TAGS_TEXT_LENGTH <? slen normalized then (JUndef, errors ++ ["tags 不能超过 1000 字符"])
      else (JStr normalized, errors)
    end
  end.

(** [/^bandwidth:\d+(?:\.\d+)?(?:Mbps|Gbps)$/i] *)
Definition is_decimal (l : list N) : bool :=
  match split_units (chr 46) [] l with
  | [a] => forallb is_digit a && negb (bool_decide (a = []))
  | [a; b] => forallb is_digit a && negb (bool_decide (a = [])) && forallb is_digit b && negb (bool_decide (b = []))
  | _ => false
  end.
Definition is_bandwidth (text : jstr) : bool :=
  let l := units text in
  (14 <? length l)%nat
  && jeq (lower (slice_to 10 text)) "bandwidth:"
  && mem (lower (slice_last 4 text)) ["mbps"; "gbps"]
  && is_decimal (take (length l - 14) (drop 10 l)).
(** [text.replace(/(mbps|gbps)$/i, ...)] *)
Definition canonical_unit (text : jstr) : jstr :=
  slice_to (length (units text) - 4) text
  +++ (if jeq (lower (slice_last 4 text)) "gbps" then "Gbps" else "Mbps").
(** @worker/src/utils/client.ts:146-156 normalizeTrafficLimitType *)
Definition normalizeTrafficLimitType (value : jsval) : reading :=
  let '(text, errors) := readString value "traffic_limit_type" 64 in
  match text with
  | JUndef => (JUndef, errors)
  | JStr s =>
    if jeq s "" then (JStr "sum", errors)
    else if mem s TRAFFIC_LIMIT_TYPES then (JStr s, errors)
    else if is_bandwidth s then (JStr (canonical_unit s), errors)
    else (JUndef, errors ++ ["traffic_limit_type 无效"])
  | _ => (JStr "sum", errors)
  end.

(** [/^[A-Za-z0-9._:-]+$/] *)
Definition token_unit (u : N) : bool :=
  is_alnum u || (u =? 46)%N || (u =? 95)%N || (u =? 58)%N || (u =? 45)%N.
(** [/^[A-Za-z0-9][A-Za-z0-9._:-]*$/] *)
Definition is_identifier (s : jstr) : bool :=
  match units s with u :: r => is_alnum u && forallb token_unit r | [] => false end.

(** @worker/src/utils/client.ts:158-171 readIdentifier *)
Definition readIdentifier (value : jsval) (field fallback : jstr) : jstr * list jstr :=
  if is_blank value then (fallback, [])
  else match value with
  | JStr s =>
    let text := trim s in
    if (slen text <? 1) || (128 <? slen text) || negb (is_identifier text)
    then (fallback, [field +++ " 只能包含字母、数字、点、下划线、冒号和连字符，长度 1-128"])
    else (text, [])
  | _ => (fallback, [field +++ " 必须是字符串"])
  end.

(** ** Agent tokens *)

Definition hex_bytes (bytes : list Z) : jstr := JS (flat_map (λ b, units (hex_byte b)) bytes).
(** @worker/src/utils/client.ts:173-177 generateAgentToken -- of 32 random bytes *)
Definition generateAgentToken (bytes : list Z) : jstr := hex_bytes bytes.
(** @worker/src/utils/client.ts:179-182 hashAgentToken *)
Definition hashAgentToken (sha256 : list Z → list Z) (token : jstr) : jstr :=
  "sha256:" +++ hex_bytes (sha256 (utf8 token)).
(** @worker/src/utils/client.ts:184-186 isAgentTokenHash *)
Definition isAgentTokenHash (token : jstr) : bool :=
  let t := trim token in
  jeq (lower (slice_to 7 t)) "sha256:" && (slen t =? 71) && all_units is_hex (slice_from 7 t).
(** @worker/src/utils/client.ts:188-193 isAgentTokenShape *)
Definition isAgentTokenShape (token : jstr) : bool :=
  negb (isAgentTokenHash token)
  && (MIN_AGENT_TOKEN_LENGTH <=? slen token)
  && (slen token <=? MAX_AGENT_TOKEN_LENGTH)
  && all_units1 token_unit token.
(** @worker/src/utils/client.ts:195-208 readToken *)
Definition readToken (value : jsval) (fallback : jstr) : jstr * list jstr :=
  if is_blank value then (fallback, [])
  else match value with
  | JStr s =>
    let text := trim s in
    if negb (isAgentTokenShape text)
    then (fallback, ["token 只能包含字母、数字、点、下划线、冒号和连字符，长度 32-256，且不能是 sha256 哈希格式"])
    else (text, [])
  | _ => (fallback, ["token 必须是字符串"])
  end.

(** ** Inputs *)

Record new_client := { nc_uuid : jstr; nc_token : jstr; nc_name : jstr }.

(** @worker/src/utils/client.ts:210-232 validateClientCreateInput -- the random
    identifier and token it would use are arguments *)
Definition validateClientCreateInput (randomUUID randomToken : jstr) (input : jsval) : result (list jstr) new_client :=
  match input with
  | JObj fs =>
    let fieldErrors :=
      map (λ p, "不允许创建字段: " +++ p.1)
        (List.filter (λ p, negb (mem p.1 ["uuid"; "token"; "name"])) fs) in
    let '(uuid, e1) := readIdentifier (fld fs "uuid") "uuid" randomUUID in
    let '(token, e2) := readToken (fld fs "token") randomToken in
    let '(name, e3) := readString (fld fs "name") "name" 128 in
    let name := match name with JStr s => or_str s "未命名服务器" | _ => "未命名服务器" end in
    match fieldErrors ++ e1 ++ e2 ++ e3 with
    | [] => Ok {| nc_uuid := uuid; nc_token := token; nc_name := name |}
    | errors => Err errors
    end
  | _ => Err ["客户端数据必须是对象"]
  end.

(** @worker/src/utils/client.ts:245-281 validateClientUpdateInput (loop body) *)
Definition read_field (field : jstr) (value : jsval) : reading :=
  match lookup_field field TEXT_LIMITS with
  | Some limit => readString value field limit
  | None =>
    if jeq field "tags" then normalizeTags value
    else if jeq field "traffic_limit_type" then normalizeTrafficLimitType value
    else if mem field BOOLEAN_FIELDS then readBoolean value field
    else if mem field INTEGER_FIELDS then readNumber value field true
    else if mem field NUMBER_FIELDS then readNumber value field false
    else (JUndef, ["不允许修改字段: " +++ field])
  end.
(** @worker/src/utils/client.ts:242-282 validateClientUpdateInput (loop) *)
Fixpoint update_loop (client : fields) (errors : list jstr) (entries : fields) : fields * list jstr :=
  match entries with
  | [] => (client, errors)
  | (field, value) :: rest =>
    if jeq field "uuid" || jeq field "token" then update_loop client errors rest
    else
      let '(normalized, e) := read_field field value in
      update_loop (if is_undef normalized then client else set_field field normalized client) (errors ++ e) rest
  end.
(** @worker/src/utils/client.ts:234-289 validateClientUpdateInput *)
Definition validateClientUpdateInput (input : jsval) : result (list jstr) fields :=
  match input with
  | JObj entries =>
    match update_loop [] [] entries with
    | (client, []) => Ok client
    | (_, errors) => Err errors
    end
  | _ => Err ["客户端数据必须是对象"]
  end.

(** ** Facts *)

(** What the validator promises of one column of an update. *)
Definition column_ok (p : jstr * jsval) : Prop :=
  let '(field, v) := p in
  (∃ limit, lookup_field field TEXT_LIMITS = Some limit ∧ (v = JNull ∨ ∃ s, v = JStr s ∧ slen s ≤ limit ∧ trim s = s))
  ∨ field = "tags" ∧ (∃ tags, v = JStr (join ";" tags) ∧ NoDup tags ∧ (length tags ≤ 50)%nat
      ∧ slen (join ";" tags) ≤ 1000 ∧ Forall (λ t, t ≠ "" ∧ slen t ≤ 64) tags)
  ∨ field = "traffic_limit_type" ∧ (∃ s, v = JStr s ∧ (s ∈ TRAFFIC_LIMIT_TYPES ∨ ∃ t, is_bandwidth t = true ∧ s = canonical_unit t))
  ∨ field ∈ BOOLEAN_FIELDS ∧ (∃ b, v = JBool b)
  ∨ field ∈ INTEGER_FIELDS ∧ (∃ n z, v = JNum n ∧ num_Z n = Some z ∧ (numericBounds field).1 ≤ z ≤ (numericBounds field).2)
  ∨ field ∈ NUMBER_FIELDS ∧ (∃ n, v = JNum n ∧ num_le (numericBounds field).1 n = true ∧ num_le n (numericBounds field).2 = true).

Lemma readString_ok v field limit out :
  readString v field limit = (out, []) →
  out = JUndef ∨ out = JNull ∨ ∃ s, out = JStr s ∧ slen s ≤ limit ∧ trim s = s.
Proof.
  unfold readString. intros H. destruct v; cbv zeta in H; try done;
    [injection H as <-; by auto.. | | |];
    (destruct (limit <? _) eqn:E; [done |]; injection H as <-; right; right; eexists;
     split; [done | split; [by apply Z.ltb_ge in E | apply trim_trim]]).
Qed.

Lemma readNumber_ok v field b out :
  readNumber v field b = (out, []) →
  out = JUndef ∨ ∃ n, out = JNum n ∧ is_finite n = true ∧ num_lt n (numericBounds field).1 = false
                      ∧ num_lt (numericBounds field).2 n = false ∧ (b = true → is_integer n = true).
Proof.
  unfold readNumber. destruct (is_blank v); [intros [= <-]; by left |]. cbv zeta.
  set (n := match v with JNum n => n | _ => _ end). clearbody n. destruct (numericBounds field) as [lo hi]. cbn [fst snd].
  destruct (negb (is_finite n) || num_lt n lo || num_lt hi n) eqn:E; [done |].
  destruct (b && negb (is_integer n)) eqn:E2; [done |]. intros [= <-]. right. exists n.
  repeat (apply orb_false_iff in E as [E ?]). apply negb_false_iff in E. repeat split; try done.
  intros ->. by apply negb_false_iff in E2.
Qed.

Lemma collect_tags_ok source tags errors out :
  collect_tags tags errors source = (Some out, []) →
  NoDup tags → Forall (λ t, t ≠ "" ∧ slen t ≤ 64) tags →
  NoDup out ∧ Forall (λ t, t ≠ "" ∧ slen t ≤ 64) out.
Proof.
  revert tags errors. induction source as [|v source IH]; intros tags errors; cbn [collect_tags].
  { by intros [= <- _]. }
  assert (Hs : ∀ tag, (if negb (nonempty tag) then collect_tags tags errors source
      else if MAX_TAG_LENGTH <? slen tag then collect_tags tags (errors ++ ["单个标签不能超过 64 字符"]) source
      else if mem tag tags then collect_tags tags errors source else collect_tags (tags ++ [tag]) errors source) = (Some out, []) →
    NoDup tags → Forall (λ t, t ≠ "" ∧ slen t ≤ 64) tags → NoDup out ∧ Forall (λ t, t ≠ "" ∧ slen t ≤ 64) out).
  { intros tag. destruct (nonempty tag) eqn:E; cbn [negb]; [| by apply IH].
    destruct (MAX_TAG_LENGTH <? slen tag) eqn:El; [by apply IH |].
    destruct (mem tag tags) eqn:Em; [by apply IH |]. intros H Hnd Ht. apply (IH _ _ H).
    - apply NoDup_app. split; [done |]. split; [| apply NoDup_singleton].
      intros x Hx ->%list_elem_of_singleton. by apply mem_false in Em.
    - apply Forall_app. split; [done |]. apply Forall_singleton. apply nonempty_true in E.
      unfold MAX_TAG_LENGTH in El. split; [done | zlia]. }
  destruct v; try (by intros [= ? ?]); apply Hs.
Qed.

Lemma normalizeTags_ok v out :
  normalizeTags v = (out, []) →
  out = JUndef ∨ ∃ tags, out = JStr (join ";" tags) ∧ NoDup tags ∧ (length tags ≤ 50)%nat
      ∧ slen (join ";" tags) ≤ 1000 ∧ Forall (λ t, t ≠ "" ∧ slen t ≤ 64) tags.
Proof.
  assert (Hs : ∀ source, match collect_tags [] [] source with
    | (None, errors) => (JUndef, errors)
    | (Some tags, errors) =>
      let errors := if (MAX_TAGS <? length tags)%nat then errors ++ ["标签数量不能超过 50 个"] else errors in
      let normalized := join ";" (take MAX_TAGS tags) in
      if MAX_TAGS_TEXT_LENGTH <? slen normalized then (JUndef, errors ++ ["tags 不能超过 1000 字符"])
      else (JStr normalized, errors)
    end = (out, []) → out = JUndef ∨ ∃ tags, out = JStr (join ";" tags) ∧ NoDup tags ∧ (length tags ≤ 50)%nat
      ∧ slen (join ";" tags) ≤ 1000 ∧ Forall (λ t, t ≠ "" ∧ slen t ≤ 64) tags).
  { intros source. destruct (collect_tags [] [] source) as [[tags|] errors] eqn:E; [| intros [= <- _]; by left].
    cbv zeta. destruct (MAX_TAGS_TEXT_LENGTH <? _) eqn:El; [intros [= <- _]; by left |].
    intros [= <- He]. right. exists (take MAX_TAGS tags).
    destruct ((MAX_TAGS <? length tags)%nat); [by destruct errors |]. subst errors.
    destruct (collect_tags_ok _ _ _ _ E (NoDup_nil_2) (Forall_nil_2 _)) as [Hnd Ht].
    unfold MAX_TAGS_TEXT_LENGTH in El. split; [done | split; [eapply sublist_NoDup; [done | apply sublist_take] | split; [apply take_length_le | split; [zlia |]]]].
    by apply Forall_take. }
  unfold normalizeTags. destruct v; try (intros [= <-]; by left); apply Hs.
Qed.

Lemma traffic_ok v out :
  normalizeTrafficLimitType v = (out, []) →
  out = JUndef ∨ ∃ s, out = JStr s ∧ (s ∈ TRAFFIC_LIMIT_TYPES ∨ ∃ t, is_bandwidth t = true ∧ s = canonical_unit t).
Proof.
  unfold normalizeTrafficLimitType. destruct (readString v _ _) as [text errors].
  destruct text as [| | | |s| |]; try (intros [= <- _]; first [by left | right; exists "sum"; split; [done | left; by apply mem_spec]]).
  destruct (jeq s "") eqn:E0; [intros [= <- _]; right; exists "sum"; split; [done | left; by apply mem_spec] |].
  destruct (mem s TRAFFIC_LIMIT_TYPES) eqn:E1; [intros [= <- _]; right; exists s; split; [done | left; by apply mem_spec] |].
  destruct (is_bandwidth s) eqn:E2; [| intros [= <- _]; by left]. intros [= <- _]. right. eexists. split; [done | right; eauto].
Qed.

Lemma read_field_ok field v out :
  read_field field v = (out, []) → out = JUndef ∨ column_ok (field, out).
Proof.
  unfold read_field, column_ok. destruct (lookup_field field TEXT_LIMITS) as [limit|] eqn:El.
  { intros [-> | H]%readString_ok; [by left | right; left; exists limit; split; [done |]].
    destruct H as [-> | (s & -> & Hs)]; [by left | right; eauto]. }
  destruct (jeq field "tags") eqn:E1; [apply jeq_true in E1; intros [-> | H]%normalizeTags_ok; [by left | right; right; by left] |].
  destruct (jeq field "traffic_limit_type") eqn:E2; [apply jeq_true in E2; intros [-> | H]%traffic_ok; [by left | right; right; right; by left] |].
  destruct (mem field BOOLEAN_FIELDS) eqn:E3.
  { apply mem_spec in E3. intros H.
    assert (Hb : out = JUndef ∨ ∃ b, out = JBool b) by (unfold readBoolean in H; break_in H; eauto).
    destruct Hb as [-> | Hb]; [by left |]. right. right. right. right. by left. }
  destruct (mem field INTEGER_FIELDS) eqn:E4.
  { apply mem_spec in E4. intros [-> | (n & -> & Hf & H1 & H2 & Hi)]%readNumber_ok; [by left |]. right. do 4 right. left.
    split; [done |]. destruct (integer_between n _ _ (Hi eq_refl) H1 H2) as (z & Hz & Hb). eauto. }
  destruct (mem field NUMBER_FIELDS) eqn:E5; [| by intros [=]].
  apply mem_spec in E5. intros [-> | (n & -> & Hf & H1 & H2 & _)]%readNumber_ok; [by left |]. right. do 5 right.
  split; [done |]. exists n. split; [done |]. split; by apply num_lt_false_le.
Qed.

Lemma update_loop_errors entries client errors out :
  update_loop client errors entries = (out, []) → errors = [].
Proof.
  revert client errors. induction entries as [|[field v] rest IH]; intros client errors; cbn [update_loop].
  { by intros [= _ ->]. }
  destruct (_ || _); [apply IH |]. destruct (read_field field v). by intros [Hn _]%IH%app_eq_nil.
Qed.

Lemma update_loop_ok entries client errors out :
  update_loop client errors entries = (out, []) → Forall column_ok client → Forall column_ok out.
Proof.
  revert client errors. induction entries as [|[field v] rest IH]; intros client errors; cbn [update_loop].
  { by intros [= <- _]. }
  destruct (jeq field "uuid" || jeq field "token"); [by apply IH |].
  destruct (read_field field v) as [n e] eqn:E. intros H Hc.
  assert (He : e = []) by (by apply update_loop_errors, app_eq_nil in H as [_ H]). subst e.
  apply read_field_ok in E. apply (IH _ _ H). destruct (is_undef n) eqn:Eu; [done |].
  destruct E as [-> | Hn]; [done |]. rewrite Forall_forall in Hc.
  apply Forall_forall. intros p [-> | Hp]%set_field_elem; [done | by apply Hc].
Qed.

(** Every column an update writes comes from a property of the input, other
    than the identity of the client. *)
Lemma update_loop_keys entries client errors out e k v :
  update_loop client errors entries = (out, e) → lookup_field k out = Some v →
  (k ≠ "uuid" ∧ k ≠ "token" ∧ has_own entries k = true) ∨ lookup_field k client = Some v.
Proof.
  revert client errors. induction entries as [|[field w] rest IH]; intros client errors; cbn [update_loop].
  { intros [= -> ->]. by right. }
  unfold has_own. cbn [lookup_field].
  assert (Hh : ∀ (P : Prop), (k ≠ "uuid" ∧ k ≠ "token" ∧ has_own rest k = true) ∨ P →
     (k ≠ "uuid" ∧ k ≠ "token" ∧ match (if decide (k = field) then Some w else lookup_field k rest) with
                                 | Some _ => true | None => false end = true) ∨ P).
  { intros P [(? & ? & Ho) | HP]; [left | by right]. repeat split; try done. by destruct (decide (k = field)). }
  destruct (jeq field "uuid" || jeq field "token") eqn:Ef.
  { intros H Hl. apply Hh. by eapply IH. }
  destruct (read_field field w) as [n e'] eqn:E. intros H Hl.
  destruct (IH _ _ H Hl) as [Hr | Hc]; [by apply Hh; left |].
  destruct (is_undef n); [by right |]. rewrite lookup_set_field in Hc.
  destruct (decide (k = field)) as [-> | ?]; [left | by right].
  apply orb_false_iff in Ef as [Hu Ht]. by rewrite !jeq_false in *.
Qed.

Lemma generateAgentToken_units bytes :
  Forall (λ b, 0 ≤ b < 256) bytes →
  forallb (λ u, is_hex_lower u) (units (generateAgentToken bytes)) = true
  ∧ slen (generateAgentToken bytes) = 2 * Z.of_nat (length bytes).
Proof.
  intros H. unfold generateAgentToken, hex_bytes, slen. cbn [units].
  induction H as [|b l Hb Hl [IH1 IH2]]; [done |]. cbn [flat_map units hex_byte Datatypes.app forallb length]. split.
  - assert (Hd : ∀ d, 0 ≤ d < 16 → is_hex_lower (hex_digit d) = true).
    { intros d Hd. unfold hex_digit, is_hex_lower, is_digit.
      destruct (d <? 10) eqn:E; zify_bool; rewrite orb_true_iff, !andb_true_iff, !N.leb_le; lia. }
    rewrite !Hd; [done | apply Z.mod_pos_bound; lia |]. split; [apply Z.div_pos; lia | apply Z.div_lt_upper_bound; lia].
  - cbn [units hex_byte] in IH2. lia.
Qed.

(** Sixty-four hexadecimal digits have the shape of a token. *)
Lemma hex_token_shape s :
  forallb is_hex_lower (units s) = true → slen s = 64 → isAgentTokenShape s = true.
Proof.
  destruct s as [l]. cbn [units]. unfold slen. cbn [units]. intros Hu Hl.
  assert (Hall : ∀ u, u ∈ l → is_space u = false ∧ token_unit u = true ∧ (u =? 58)%N = false).
  { intros u Hin. rewrite forallb_true in Hu. specialize (Hu u Hin). unfold is_hex_lower in Hu.
    rewrite orb_true_iff, is_digit_spec, andb_true_iff, !N.leb_le in Hu.
    split; [| split; [| apply N.eqb_neq; lia]].
    - unfold is_space. repeat (apply orb_false_iff; split);
        first [apply N.eqb_neq; lia | apply andb_false_iff; rewrite !N.leb_gt; lia].
    - unfold token_unit, is_alnum, is_alpha, is_upper, is_lower, is_digit.
      rewrite !orb_true_iff, !andb_true_iff, !N.leb_le. lia. }
  assert (Ht : trim (JS l) = JS l).
  { apply trim_id, forallb_true. intros u Hin. apply negb_true_iff. by apply Hall. }
  unfold isAgentTokenShape, isAgentTokenHash, slen. cbv zeta. rewrite Ht. cbn [units]. rewrite Hl.
  rewrite andb_false_r. cbn [andb negb]. unfold MIN_AGENT_TOKEN_LENGTH, MAX_AGENT_TOKEN_LENGTH. cbn.
  unfold all_units1, all_units. cbn [units]. apply andb_true_iff. split.
  - apply nonempty_true. intros [= ->]. done.
  - apply forallb_true. intros u Hin. by apply Hall.
Qed.

Lemma readIdentifier_ok v field fallback out :
  readIdentifier v field fallback = (out, []) → out = fallback ∨ is_identifier out = true ∧ slen out ≤ 128.
Proof.
  unfold readIdentifier. destruct (is_blank v); [intros [= <-]; by left |]. destruct v; try by intros [= <-].
  cbv zeta. destruct (_ || _ || _) eqn:E; [done |]. intros [= <-]. right.
  repeat (apply orb_false_iff in E as [E ?]). zlia. split; [by destruct (is_identifier _) | lia].
Qed.
Lemma readToken_ok v fallback out :
  readToken v fallback = (out, []) → out = fallback ∨ isAgentTokenShape out = true.
Proof.
  unfold readToken. destruct (is_blank v); [intros [= <-]; by left |]. destruct v; try by intros [= <-].
  cbv zeta. destruct (isAgentTokenShape (trim s)) eqn:E; cbn [negb]; [| done]. intros [= <-]. by right.
Qed.

(** ** Properties *)

(** An accepted update writes only editable columns, each with a value of
    the column's type and bounds; it never writes the client's identity or
    token, and writes no column the request does not name. *)
Theorem validateClientUpdateInput_columns input client :
  validateClientUpdateInput input = Ok client →
  Forall column_ok client
  ∧ has_own client "uuid" = false ∧ has_own client "token" = false
  ∧ ∀ k, has_own client k = true → ∃ entries, input = JObj entries ∧ has_own entries k = true.
Proof.
  unfold validateClientUpdateInput. destruct input as [| | | | | |entries]; try done.
  destruct (update_loop [] [] entries) as [out e] eqn:E. destruct e; [| done]. intros [= <-].
  split; [eapply update_loop_ok; [done | apply Forall_nil_2] |].
  assert (Hk : ∀ k v, lookup_field k out = Some v → k ≠ "uuid" ∧ k ≠ "token" ∧ has_own entries k = true).
  { intros k v Hl. by destruct (update_loop_keys _ _ _ _ _ k v E Hl). }
  unfold has_own in *. split; [| split].
  - destruct (lookup_field "uuid" out) eqn:El; [| done]. by destruct (Hk _ _ El).
  - destruct (lookup_field "token" out) eqn:El; [| done]. by destruct (Hk _ _ El) as (_ & ? & _).
  - intros k Hh. destruct (lookup_field k out) eqn:El; [| done]. exists entries. split; [done | apply (Hk _ _ El)].
Qed.

(** A created client always has usable credentials: with the identifier
    and the 32 random bytes the worker draws, an accepted request yields a
    token that the agent endpoints accept, which is never the text of a stored
    hash, and a name of 1 to 128 units. *)
Theorem validateClientCreateInput_token randomUUID bytes input client :
  length bytes = 32%nat → Forall (λ b, 0 ≤ b < 256) bytes →
  validateClientCreateInput randomUUID (generateAgentToken bytes) input = Ok client →
  isAgentTokenShape (nc_token client) = true ∧ isAgentTokenHash (nc_token client) = false
  ∧ nc_name client ≠ "" ∧ slen (nc_name client) ≤ 128
  ∧ (nc_uuid client = randomUUID ∨ is_identifier (nc_uuid client) = true ∧ slen (nc_uuid client) ≤ 128).
Proof.
  intros Hlen Hb. unfold validateClientCreateInput. destruct input as [| | | | | |fs]; try done. cbv zeta.
  destruct (readIdentifier _ _ _) as [uuid e1] eqn:E1. destruct (readToken _ _) as [token e2] eqn:E2.
  destruct (readString _ _ _) as [name e3] eqn:E3.
  match goal with |- match ?errs with _ => _ end = _ → _ => destruct errs eqn:E end; [| done].
  intros [= <-]. cbn [nc_token nc_name nc_uuid].
  apply app_eq_nil in E as [_ E]. apply app_eq_nil in E as [He1 E]. apply app_eq_nil in E as [He2 He3]. subst e1 e2 e3.
  assert (Hshape : isAgentTokenShape token = true).
  { apply readToken_ok in E2 as [-> | H]; [| done].
    destruct (generateAgentToken_units bytes Hb) as [Hu Hl]. rewrite Hlen in Hl. by apply hex_token_shape. }
  split; [done |]. split; [unfold isAgentTokenShape in Hshape; by destruct (isAgentTokenHash token) |].
  apply readIdentifier_ok in E1. apply readString_ok in E3.
  assert (Hn : ∀ s : jstr, slen s ≤ 128 → or_str s "未命名服务器" ≠ "" ∧ slen (or_str s "未命名服务器") ≤ 128).
  { intros s Hs. unfold or_str. destruct (nonempty s) eqn:En; [by apply nonempty_true in En |]. done. }
  destruct E3 as [-> | [-> | (s & -> & Hs & _)]]; [done.. |]. destruct (Hn s Hs). done.
Qed.

(** ** Witnesses *)

Definition sample_update : fields :=
  [("name", JStr " edge "); ("tags", JStr "a;b,a"); ("price", JStr "1.5"); ("cpu_cores", JNum 8); ("uuid", JStr "x")].
Lemma validateClientUpdateInput_columns_witness :
  validateClientUpdateInput (JObj sample_update)
    = Ok [("name", JStr "edge"); ("tags", JStr "a;b"); ("price", JNum (Fin (3 # 2))); ("cpu_cores", JNum 8)]
  ∧ has_own [("name" : jstr, JStr "edge"); ("tags", JStr "a;b"); ("price", JNum (Fin (3 # 2))); ("cpu_cores", JNum 8)] "uuid" = false.
Proof.
  assert (H : validateClientUpdateInput (JObj sample_update)
    = Ok [("name", JStr "edge"); ("tags", JStr "a;b"); ("price", JNum (Fin (3 # 2))); ("cpu_cores", JNum 8)])
    by (vm_compute; reflexivity).
  split; [exact H |]. apply (validateClientUpdateInput_columns _ _ H).
Defined.

Lemma validateClientCreateInput_token_witness :
  let token := generateAgentToken (replicate 32 7) in
  validateClientCreateInput "u-1" token (JObj [("name", JStr "n")]) = Ok {| nc_uuid := "u-1"; nc_token := token; nc_name := "n" |}
  ∧ isAgentTokenShape token = true.
Proof.
  cbv zeta.
  assert (H : validateClientCreateInput "u-1" (generateAgentToken (replicate 32 7)) (JObj [("name", JStr "n")])
              = Ok {| nc_uuid := "u-1"; nc_token := generateAgentToken (replicate 32 7); nc_name := "n" |})
    by (vm_compute; reflexivity).
  assert (Hb : Forall (λ b, 0 ≤ b < 256) (replicate 32 7)) by (apply (bool_decide_eq_true_1 _); vm_compute; reflexivity).
  split; [exact H |]. exact (proj1 (validateClientCreateInput_token "u-1" (replicate 32 7) _ _ eq_refl Hb H)).
Defined.
