(* ===== verification/Notify.v ===== *)
(** * Notification rules

    [utils/record-persist.ts], [history-capacity.ts],
    [load-notification-window.ts], [notification.ts],
    [offline-notification.ts], [health-staleness.ts], [secret-preview.ts] and
    the decisions of the offline, expiry and load checks of [index.ts].  The
    parser of dates is a parameter. *)

From S2P Require Import Prelude JsStr JsNum JsVal JsDate Net Settings.
#[local] Open Scope Z_scope.

(** ** When a report is written to the history: [record-persist.ts] *)

(** @worker/src/utils/record-persist.ts:17-17 RECORD_PERSIST_TOLERANCE_MAX_MS *)
Definition RECORD_PERSIST_TOLERANCE_MAX_MS : Z := 5000.
(** @worker/src/utils/record-persist.ts:18-18 RECORD_PERSIST_TOLERANCE_RATIO --
    the literal [0.05] *)
Definition RECORD_PERSIST_TOLERANCE_RATIO : num := f64 (1 # 20).

(** @worker/src/utils/record-persist.ts:21-27 recordPersistToleranceMs *)
Definition recordPersistToleranceMs (intervalMs : num) : num :=
  if negb (is_finite intervalMs) || num_le intervalMs 0 then of_Z 0
  else num_min RECORD_PERSIST_TOLERANCE_MAX_MS (num_floor (num_mul intervalMs RECORD_PERSIST_TOLERANCE_RATIO)).
(** @worker/src/utils/record-persist.ts:33-36 recordPersistThresholdMs *)
Definition recordPersistThresholdMs (intervalMs : num) : num :=
  if negb (is_finite intervalMs) || num_le intervalMs 0 then of_Z 0
  else num_max 0 (num_sub intervalMs (recordPersistToleranceMs intervalMs)).
(** @worker/src/utils/record-persist.ts:39-42 isRecordPersistDue *)
Definition isRecordPersistDue (elapsedMs intervalMs : num) : bool :=
  if negb (is_finite elapsedMs) then false else num_le (recordPersistThresholdMs intervalMs) elapsedMs.

(** ** The capacity gate: [history-capacity.ts] *)

Record usage := { live_rows : num; estimated_live_storage_bytes : num; allocated_bytes : num }.
Record capacity := { blocked : bool; rowRatio : num; byteRatio : num; allocatedWarning : bool }.
(** The literal [0.8]. *)
Definition resume_ratio : num := f64 (4 # 5).
(** @worker/src/utils/history-capacity.ts:3-16 evaluateHistoryCapacity *)
Definition evaluateHistoryCapacity (u : usage) (rowLimit byteLimit : num) (wasBlocked : bool) : capacity :=
  let rowRatio := num_div (live_rows u) rowLimit in
  let byteRatio := num_div (estimated_live_storage_bytes u) byteLimit in
  let ratio := num_max rowRatio byteRatio in
  {| blocked := negb (is_finite ratio) || (if wasBlocked then num_lt resume_ratio ratio else num_le 1 ratio);
     rowRatio := rowRatio; byteRatio := byteRatio;
     allocatedWarning := num_le byteLimit (allocated_bytes u) |}.

(** ** The window of load alerts: [load-notification-window.ts] *)

(** @worker/src/utils/load-notification-window.ts:9-13 LoadNotificationPolicy *)
Record LoadNotificationPolicy := { minimum_interval_min : num; sample_interval_sec : num; history_enabled : bool }.
(** @worker/src/utils/load-notification-window.ts:15-29 buildLoadNotificationPolicy *)
Definition buildLoadNotificationPolicy (URL : jstr → option url) (stored : list (jstr * jstr)) : LoadNotificationPolicy :=
  let settings := buildAdminSettings URL stored in
  let get key := default "" (lookup_field key settings) in
  let thresholdMs := recordPersistThresholdMs (num_mul (str_num (get "record_persist_interval_sec")) 1000) in
  let seconds reportSeconds :=
    num_mul (num_max 1 (num_ceil (num_div thresholdMs (num_mul reportSeconds 1000)))) reportSeconds in
  let sampleSeconds := num_max (seconds (str_num (get "live_poll_active_interval_sec")))
                               (seconds (str_num (get "live_poll_idle_interval_sec"))) in
  {| minimum_interval_min := num_max 1 (num_ceil (num_div (num_mul 2 sampleSeconds) 60));
     sample_interval_sec := sampleSeconds;
     history_enabled := jeq (get "record_enabled") "true" |}.
(** @worker/src/utils/load-notification-window.ts:31-33 effectiveLoadNotificationIntervalMin *)
Definition effectiveLoadNotificationIntervalMin (configured : num) (policy : LoadNotificationPolicy) : num :=
  num_max (minimum_interval_min policy) (if is_finite configured && num_lt 0 configured then configured else of_Z 15).

(** ** Rules submitted by the administrator: [notification.ts] *)

(** @worker/src/utils/notification.ts:3-3 LOAD_NOTIFICATION_METRICS *)
Definition LOAD_NOTIFICATION_METRICS : list jstr := ["cpu"; "ram"; "load"; "disk"; "temp"].
(** @worker/src/utils/notification.ts:9-11 stringField *)
Definition stringField (value : jsval) : jstr := match value with JStr s => trim s | _ => "" end.
(** @worker/src/utils/notification.ts:13-15 numberField *)
Definition numberField (value : jsval) : num := to_num value.
(** @worker/src/utils/notification.ts:17-19 integerField *)
Definition integerField (value : jsval) : num := num_floor (numberField value).

Record offline_rule := { or_client : jstr; or_enable : bool; or_grace_period : num }.
Record expiry_rule := { er_client : jstr; er_enable : bool; er_advance_days : num }.
Record load_rule := {
  lr_id : option num; lr_name : jstr; lr_clients : list jstr; lr_metric : jstr;
  lr_threshold : num; lr_ratio : num; lr_interval_min : num
}.
Definition checked {A} (errors : list jstr) (a : A) : result (list jstr) A :=
  match errors with [] => Ok a | _ => Err errors end.
Definition error_if (b : bool) (e : jstr) : list jstr := if b then [e] else [].
Definition is_jbool (v : jsval) : bool := match v with JBool _ => true | _ => false end.

(** @worker/src/utils/notification.ts:21-53 validateOfflineNotificationInput *)
Definition validateOfflineNotificationInput (input : jsval) (allowedClientIds : list jstr) : result (list jstr) offline_rule :=
  match input with
  | JObj fs =>
    let client := stringField (fld fs "client") in
    let gracePeriod := integerField (coalesce (fld fs "grace_period") (JNum 180)) in
    checked
      (error_if (negb (nonempty client) || negb (mem client allowedClientIds)) "客户端不存在或不可用"
       ++ error_if (negb (is_jbool (fld fs "enable"))) "enable 必须是布尔值"
       ++ error_if (negb (is_integer gracePeriod) || num_lt gracePeriod 30 || num_lt 86400 gracePeriod)
            "grace_period 必须是 30 到 86400 秒之间的整数")
      {| or_client := client; or_enable := truthy (fld fs "enable"); or_grace_period := gracePeriod |}
  | _ => Err ["离线通知必须是对象"]
  end.

(** @worker/src/utils/notification.ts:55-87 validateExpiryNotificationInput *)
Definition validateExpiryNotificationInput (input : jsval) (allowedClientIds : list jstr) : result (list jstr) expiry_rule :=
  match input with
  | JObj fs =>
    let client := stringField (fld fs "client") in
    let advanceDays := integerField (coalesce (fld fs "advance_days") (JNum 7)) in
    checked
      (error_if (negb (nonempty client) || negb (mem client allowedClientIds)) "客户端不存在或不可用"
       ++ error_if (negb (is_jbool (fld fs "enable"))) "enable 必须是布尔值"
       ++ error_if (negb (is_integer advanceDays) || num_lt advanceDays 1 || num_lt 365 advanceDays)
            "advance_days 必须是 1 到 365 天之间的整数")
      {| er_client := client; er_enable := truthy (fld fs "enable"); er_advance_days := advanceDays |}
  | _ => Err ["到期通知必须是对象"]
  end.

(** @worker/src/utils/notification.ts:89-172 validateLoadNotificationInput --
    [minimumIntervalMin] is the option, or the minimum of the default policy *)
Definition validateLoadNotificationInput (input : jsval) (allowedClientIds : list jstr) (requireId : bool)
    (minimumIntervalMin : num) : result (list jstr) load_rule :=
  match input with
  | JObj fs =>
    let id := integerField (fld fs "id") in
    let name := slice_to 128 (stringField (fld fs "name")) in
    let rawClients := match fld fs "clients" with JArr l => l | _ => [] end in
    let clients := List.filter nonempty (map trim (omap (λ v, match v with JStr s => Some s | _ => None end) rawClients)) in
    let metric := stringField (js_or (fld fs "metric") (JStr "cpu")) in
    let threshold := numberField (coalesce (fld fs "threshold") (JNum 80)) in
    let ratio := numberField (coalesce (fld fs "ratio") (JNum resume_ratio)) in
    let intervalMin := numberField (coalesce (fld fs "interval_min") (JNum 15)) in
    checked
      (error_if (requireId && (negb (is_integer id) || num_le id 0)) "通知规则 ID 无效"
       ++ error_if (negb (nonempty name)) "规则名称不能为空"
       ++ error_if (negb (is_undef (fld fs "all_clients")) && negb (is_jbool (fld fs "all_clients"))) "all_clients 必须是布尔值"
       ++ error_if (is_bool (fld fs "all_clients") false && bool_decide (clients = [])) "非全局规则必须选择至少一个节点"
       ++ error_if (200 <? length clients)%nat "客户端数量不能超过 200 个"
       ++ error_if (existsb (λ client, negb (mem client allowedClientIds)) clients) "客户端列表包含不存在的节点"
       ++ error_if (negb (mem metric LOAD_NOTIFICATION_METRICS)) "metric 必须是 cpu、ram、load、disk 或 temp"
       ++ error_if (negb (is_finite threshold) || num_lt threshold 0 || num_lt 100000 threshold) "threshold 必须是 0 到 100000 之间的数字"
       ++ error_if (negb (is_finite ratio) || num_lt ratio 0 || num_lt 1 ratio) "ratio 必须是 0 到 1 之间的数字"
       ++ error_if (negb (is_integer intervalMin) || num_lt intervalMin minimumIntervalMin || num_lt 10080 intervalMin)
            ("统计窗口必须是 " +++ num_str minimumIntervalMin +++ " 到 10080 分钟之间的整数，以覆盖至少两次有效采样"))
      {| lr_id := if requireId then Some id else None; lr_name := name; lr_clients := clients; lr_metric := metric;
         lr_threshold := threshold; lr_ratio := ratio; lr_interval_min := intervalMin |}
  | _ => Err ["负载通知必须是对象"]
  end.

(** ** Previews of secrets: [secret-preview.ts] *)

Definition mask_run : jstr := "********".
(** @worker/src/utils/secret-preview.ts:28-34 maskSecretPreview *)
Definition maskSecretPreview (value : option jstr) : jstr :=
  match value with
  | None => ""
  | Some value =>
    let trimmed := trim value in
    if jeq trimmed "" then ""
    else if slen trimmed <? 12 then mask_run
    else slice_to 4 trimmed +++ mask_run +++ slice_last 4 trimmed
  end.
(** @worker/src/utils/secret-preview.ts:40-42 isMaskedSecretPreview *)
Definition isMaskedSecretPreview (value : jsval) : bool :=
  match value with JStr s => includes mask_run s | _ => false end.

(** ** Offline, recovery and expiry events *)

(** [Boolean(s)] of an optional string. *)
Definition given (s : option jstr) : bool := match s with Some t => nonempty t | None => false end.

(** @worker/src/utils/offline-notification.ts:23-34 OfflineNotificationEvent *)
Inductive OfflineNotificationEvent :=
| Offline (offlineMs : Z) (lastSeenLabel : jstr) (neverReported : bool) (createdAt : option jstr)
| Recovery (recoveredAt : jstr).

Section Dates.
Context (Date_parse : jstr → option Z).

(** @worker/src/utils/offline-notification.ts:36-69 evaluateOfflineNotificationEvent *)
Definition evaluateOfflineNotificationEvent (nowMs : Z) (clientCreatedAt lastTime lastNotified : option jstr)
    (gracePeriodSec : num) (notifyNeverReported : bool) : option OfflineNotificationEvent :=
  let graceMs := num_mul (num_max 30 (if num_truthy gracePeriodSec then gracePeriodSec else of_Z 360)) 1000 in
  let neverReported := negb (given lastTime) in
  let referenceTime := if given lastTime then lastTime else if notifyNeverReported then clientCreatedAt else None in
  if negb (given referenceTime) then None
  else
    let referenceTime := default "" referenceTime in
    match Date_parse referenceTime with
    | None => None
    | Some referenceMs =>
      let offlineMs := nowMs - referenceMs in
      if num_le graceMs offlineMs then
        if given lastNotified then None
        else Some (Offline offlineMs (if neverReported then "从未上报" else referenceTime) neverReported
                     (if neverReported then Some referenceTime else None))
      else if negb (given lastNotified) || negb (given lastTime) then None
      else Some (Recovery (default "" lastTime))
    end.

Record liveness := { lv_lastSeen : option Z; lv_streak : num }.
Record monitored := { mc_created_at : option jstr; mc_last_record : option jstr; mc_grace_period : num }.

(** @worker/src/index.ts:681-699 runOfflineCheck (loop body) -- the event this
    round sends for a client, if any; [live] is what the Durable Object said. *)
Definition offline_event (nowMs : Z) (c : monitored) (live : option liveness) (lastNotified : option jstr)
    (notifyNeverReported : bool) (streakThreshold : num) : option OfflineNotificationEvent :=
  let gracePeriod := num_max 30 (if num_truthy (mc_grace_period c) then mc_grace_period c else of_Z 360) in
  let lastTime := match live with
                  | Some l => match lv_lastSeen l with
                              | Some t => if t =? 0 then mc_last_record c else Some (iso_string t)
                              | None => mc_last_record c
                              end
                  | None => mc_last_record c
                  end in
  let event := evaluateOfflineNotificationEvent nowMs (mc_created_at c) lastTime lastNotified gracePeriod notifyNeverReported in
  match event with
  | Some (Offline _ _ _ _) =>
    if num_lt (match live with Some l => lv_streak l | None => of_Z 0 end) streakThreshold then None else event
  | _ => event
  end.
(** @worker/src/index.ts:701-723 runOfflineCheck (delivery) -- [delivered] is
    what [sendNotification] answers, whose callback updates the mark. *)
Definition offline_round (nowMs : Z) (c : monitored) (live : option liveness) (notifyNeverReported : bool)
    (streakThreshold : num) (delivered : bool) (lastNotified : option jstr)
  : option jstr * option OfflineNotificationEvent :=
  match offline_event nowMs c live lastNotified notifyNeverReported streakThreshold with
  | None => (lastNotified, None)
  | Some event =>
    if negb delivered then (lastNotified, None)
    else (match event with Offline _ _ _ _ => Some (iso_string nowMs) | Recovery _ => None end, Some event)
  end.

Definition DAY_MS : Z := 24 * 60 * 60 * 1000.
(** @worker/src/index.ts:726-748 shouldSendExpiryNotification *)
Definition shouldSendExpiryNotification (nowMs : Z) (expiredAt : option jstr) (advanceDays : num)
    (lastNotified : option jstr) : option (num * jstr) :=
  if negb (given expiredAt) then None
  else match Date_parse (default "" expiredAt) with
  | None => None
  | Some expiryMs =>
    if expiryMs <? nowMs then None
    else
      let days := num_max 1 (if num_truthy advanceDays then advanceDays else of_Z 7) in
      let advanceMs := num_mul (num_mul (num_mul (num_mul days 24) 60) 60) 1000 in
      let windowStartMs := num_sub expiryMs advanceMs in
      if num_lt nowMs windowStartMs then None
      else
        let lastNotifiedMs := if given lastNotified then Date_parse (default "" lastNotified) else Some 0 in
        if match lastNotifiedMs with Some t => num_le windowStartMs t | None => false end then None
        else Some (num_max 0 (num_ceil (num_div (expiryMs - nowMs) DAY_MS)), iso_string expiryMs)
  end.

(** @worker/src/index.ts:884-888 runLoadCheck (decision) *)
Definition load_exceeded (samples exceeded ratio : num) : bool :=
  if num_lt samples 2 then false else negb (num_lt (num_div exceeded samples) ratio).

(** ** Stale health events: [health-staleness.ts] *)

(** @worker/src/utils/health-staleness.ts:14-14 HEALTH_STALE_AFTER_MS *)
Definition HEALTH_STALE_AFTER_MS : Z := 6 * 60 * 60 * 1000.
(** @worker/src/utils/health-staleness.ts:16-19 StaleableEvent *)
Record health_event := { he_status : jstr; he_updated_at : option jstr; he_stale : bool }.
(** @worker/src/utils/health-staleness.ts:28-35 isHealthEventStale *)
Definition isHealthEventStale (event : health_event) (nowMs : Z) : bool :=
  if negb (jeq (he_status event) "error") then false
  else match Date_parse (default "" (he_updated_at event)) with
  | Some updated => HEALTH_STALE_AFTER_MS <? nowMs - updated
  | None => false
  end.
(** @worker/src/utils/health-staleness.ts:44-55 markStaleEvents *)
Definition markStaleEvents (events : list (jstr * option health_event)) (nowMs : Z) : list (jstr * option health_event) :=
  map (λ p, (p.1, match p.2 with
                  | Some event => if isHealthEventStale event nowMs
                                  then Some {| he_status := he_status event; he_updated_at := he_updated_at event; he_stale := true |}
                                  else Some event
                  | None => None
                  end)) events.
(** @worker/src/utils/health-staleness.ts:60-66 healthComponentsOk *)
Definition healthComponentsOk (components : list (jstr * option health_event)) : bool :=
  forallb (λ p, match p.2 with
                | Some event => negb (jeq (he_status event) "error") || he_stale event
                | None => true
                end) components.
End Dates.

(** ** Facts *)

(** For an interval of whole seconds the tolerance is a twentieth of it, at
    most five seconds: the product with the literal [0.05] never rounds across
    an integer. *)
Lemma tolerance_sec sec :
  1 ≤ sec ≤ 3600 → recordPersistToleranceMs (of_Z (1000 * sec)) = of_Z (Z.min 5000 (50 * sec)).
Proof.
  intros H.
  assert (Hall : forallb (λ k, let s := Z.of_nat k in
      bool_decide (recordPersistToleranceMs (of_Z (1000 * s)) = of_Z (Z.min 5000 (50 * s)))) (seq 1 3600) = true)
    by (vm_compute; reflexivity).
  rewrite forallb_true in Hall. specialize (Hall (Z.to_nat sec)). rewrite Z2Nat.id in Hall by lia.
  eapply bool_decide_eq_true_1, Hall, elem_of_seq. lia.
Qed.

Lemma iso_string_nonempty t : nonempty (iso_string t) = true.
Proof.
  apply nonempty_true. unfold iso_string. destruct (civil _) as [[y m] d]. intros [= H].
  apply app_eq_nil in H as [_ H]. done.
Qed.

(** ** The offline alerts of one client over the rounds of the cron *)

Section OfflineRuns.
Context (Date_parse : jstr → option Z) (notifyNeverReported : bool) (streakThreshold : num).

(** What a round of the cron sees. *)
Record round := { rd_now : Z; rd_client : monitored; rd_live : option liveness; rd_delivered : bool }.

(** The events delivered, each with its round, and the mark left behind. *)
Fixpoint offline_runs (rounds : list round) (mark : option jstr)
  : list (round * OfflineNotificationEvent) :=
  match rounds with
  | [] => []
  | r :: rest =>
    match offline_round Date_parse (rd_now r) (rd_client r) (rd_live r) notifyNeverReported streakThreshold
            (rd_delivered r) mark with
    | (mark', Some event) => (r, event) :: offline_runs rest mark'
    | (mark', None) => offline_runs rest mark'
    end
  end.

Definition is_offline (e : OfflineNotificationEvent) : bool := match e with Offline _ _ _ _ => true | _ => false end.
(** Offline and recovery events take turns. *)
Fixpoint alternate (offline_next : bool) (events : list OfflineNotificationEvent) : Prop :=
  match events with
  | [] => True
  | e :: rest => is_offline e = offline_next ∧ alternate (negb offline_next) rest
  end.

(** An offline event was confirmed: enough rounds in a row, and at least the
    minimum grace period of thirty seconds without a report. *)
Definition confirmed (p : round * OfflineNotificationEvent) : Prop :=
  match p.2 with
  | Offline ms _ _ _ =>
    30000 ≤ ms ∧ ∃ live, rd_live p.1 = Some live ∧ num_lt (lv_streak live) streakThreshold = false
  | Recovery _ => True
  end.

Lemma evaluate_kind now created last mark grace ev :
  evaluateOfflineNotificationEvent Date_parse now created last mark grace notifyNeverReported = Some ev →
  is_offline ev = negb (given mark)
  ∧ (∀ ms l n c, ev = Offline ms l n c →
       num_le (num_mul (num_max 30 (if num_truthy grace then grace else of_Z 360)) 1000) ms = true).
Proof.
  unfold evaluateOfflineNotificationEvent. cbv zeta. intros H.
  destruct (negb (given (if given last then last else _))); [done |].
  destruct (Date_parse _) as [ref|]; [| done].
  destruct (num_le _ (of_Z (now - ref))) eqn:E.
  - destruct (given mark) eqn:Em; [done |]. injection H as <-. split; [done |]. intros ms l n c [= <- _ _ _]. exact E.
  - destruct (given mark) eqn:Em; cbn [negb orb] in H; [| done]. destruct (given last); [| done].
    injection H as <-. split; [done |]. intros. done.
Qed.

Lemma offline_event_kind now c live mark ev :
  offline_event Date_parse now c live mark notifyNeverReported streakThreshold = Some ev →
  is_offline ev = negb (given mark)
  ∧ (∀ ms l n cr, ev = Offline ms l n cr →
       num_lt (match live with Some l => lv_streak l | None => of_Z 0 end) streakThreshold = false
       ∧ ∃ g, num_le (num_mul (num_max 30 g) 1000) ms = true).
Proof.
  unfold offline_event. cbv zeta.
  destruct (evaluateOfflineNotificationEvent _ _ _ _ _ _ _) as [e|] eqn:E; [| done].
  apply evaluate_kind in E as [Hk Hms]. destruct e as [ms l n cr | t].
  - destruct (num_lt _ streakThreshold) eqn:Es; [done |]. intros [= <-]. split; [done |].
    intros ms' l' n' cr' [= <- <- <- <-]. split; [done |]. eexists. by eapply Hms.
  - intros [= <-]. split; [done |]. intros. done.
Qed.
End OfflineRuns.

(** A grace period is at least thirty seconds, whatever the rule says. *)
Lemma grace_at_least g ms : num_le (num_mul (num_max 30 g) 1000) (of_Z ms) = true → 30000 ≤ ms.
Proof.
  intros H. apply Z.nlt_ge. intros Hlt.
  assert (Hg : num_le 30 (num_max 30 g) = true ∨ num_max 30 g = NaN).
  { unfold num_max. destruct g as [|s|q]; cbn [is_nan orb of_Z]; [by right | left; by destruct s |].
    left. destruct (num_lt _ (Fin q)) eqn:E; [| by apply num_le_refl].
    unfold num_lt in E. apply Qlt_bool_lt in E. unfold num_le. apply Qle_bool_iff. by apply Qlt_le_weak. }
  destruct Hg as [Hg | Hg]; [| by rewrite Hg in H].
  destruct (num_max 30 g) as [|s|q]; [done | by destruct s; vm_compute in H, Hg |].
  unfold num_le in Hg. cbn [of_Z] in Hg. apply Qle_bool_iff in Hg.
  assert (Hm : num_le (of_Z 30000) (f64 (q * inject_Z 1000)) = true).
  { apply f64_ge; [unfold max_safe; lia |]. change (inject_Z 30000) with (inject_Z 30 * inject_Z 1000)%Q.
    by apply Qmult_le_compat_r. }
  pose proof (num_le_trans _ _ _ Hm H) as Hc. rewrite num_le_of_Z in Hc. zlia.
Qed.

Lemma num_mul_not_nan a c : a ≠ NaN → 0 < c → num_mul a (of_Z c) ≠ NaN.
Proof.
  intros Ha Hc. destruct a as [|s|q]; [done | | apply f64_not_nan]. cbn [num_mul of_Z].
  assert (E : Qeq_bool (inject_Z c) 0 = false).
  { apply not_true_is_false. intros H%Qeq_bool_iff. unfold Qeq in H. simpl in H. lia. }
  by rewrite E.
Qed.
Lemma num_sub_not_nan z a : a ≠ NaN → num_sub (of_Z z) a ≠ NaN.
Proof. intros Ha. destruct a as [|s|q]; [done | done | apply f64_not_nan]. Qed.
Lemma num_not_lt_le z w : w ≠ NaN → num_lt (of_Z z) w = false → num_le w (of_Z z) = true.
Proof.
  intros Hw H. destruct w as [|s|q]; [done | by destruct s | by apply num_lt_false_le].
Qed.
Lemma num_le_of_Z_mono w a b : num_le w (of_Z a) = true → a ≤ b → num_le w (of_Z b) = true.
Proof. intros H Hab. eapply num_le_trans; [exact H |]. rewrite num_le_of_Z. by apply Z.leb_le. Qed.

(** ** Properties *)

(** A report is written to the history when the time since the last write
    reaches the interval less five percent, at most five seconds: exactly, for
    every interval of whole seconds the settings allow. *)
Theorem isRecordPersistDue_spec sec elapsedMs :
  1 ≤ sec ≤ 3600 →
  isRecordPersistDue (of_Z elapsedMs) (of_Z (1000 * sec)) = (1000 * sec - Z.min 5000 (50 * sec) <=? elapsedMs).
Proof.
  intros H. unfold isRecordPersistDue, recordPersistThresholdMs. rewrite tolerance_sec by done.
  rewrite num_le_of_Z, (proj2 (Z.leb_gt _ 0)) by lia. cbn [is_finite of_Z negb orb].
  change (Fin (inject_Z (1000 * sec))) with (of_Z (1000 * sec)).
  change (Fin (inject_Z (Z.min 5000 (50 * sec)))) with (of_Z (Z.min 5000 (50 * sec))).
  change (Fin (inject_Z elapsedMs)) with (of_Z elapsedMs). change (Fin (inject_Z 0)) with (of_Z 0).
  rewrite num_sub_Z by (unfold max_safe; lia). rewrite num_max_Z, num_le_of_Z. f_equal. lia.
Qed.

(** The alerts of one client take turns: over any sequence of rounds of the
    cron, the first delivered event is an offline alert, and offline alerts and
    recoveries alternate; every offline alert was confirmed by the required
    number of rounds, after at least thirty seconds without a report. *)
Theorem offline_runs_alternate Date_parse notifyNeverReported streakThreshold rounds :
  num_lt 0 streakThreshold = true →
  let events := offline_runs Date_parse notifyNeverReported streakThreshold rounds None in
  alternate true (map snd events) ∧ Forall (confirmed streakThreshold) events.
Proof.
  intros Hst. cbv zeta.
  assert (H : ∀ mark, alternate (negb (given mark)) (map snd (offline_runs Date_parse notifyNeverReported streakThreshold rounds mark))
    ∧ Forall (confirmed streakThreshold) (offline_runs Date_parse notifyNeverReported streakThreshold rounds mark)); [| apply (H None)].
  induction rounds as [|r rest IH]; intros mark; cbn [offline_runs]; [split; [done | apply Forall_nil_2] |].
  unfold offline_round. destruct (offline_event _ _ _ _ _ _ _) as [ev|] eqn:E; [| apply IH].
  destruct (rd_delivered r); cbn [negb]; [| apply IH].
  apply offline_event_kind in E as [Hk Hms].
  destruct (IH (match ev with Offline _ _ _ _ => Some (iso_string (rd_now r)) | Recovery _ => None end)) as [IH1 IH2].
  cbn [map snd alternate]. split.
  - split; [done |].
    assert (Hm : given (match ev with Offline _ _ _ _ => Some (iso_string (rd_now r)) | Recovery _ => None end) = is_offline ev).
    { destruct ev; [apply iso_string_nonempty | done]. }
    rewrite Hm, Hk in IH1. exact IH1.
  - apply Forall_cons. split; [| exact IH2]. unfold confirmed. cbn [fst snd]. destruct ev as [ms l n c|]; [| done].
    destruct (Hms ms l n c eq_refl) as [Hs [g Hg]]. split; [by eapply grace_at_least |].
    destruct (rd_live r) as [live|]; [by exists live | congruence].
Qed.

(** A client's expiry is announced at most once per window: after an
    announcement, no later check announces the same expiry again, provided the
    stored time of the announcement is read back as the time written. *)
Theorem shouldSendExpiryNotification_once Date_parse now later expiredAt advanceDays lastNotified out :
  Date_parse (iso_string now) = Some now → now ≤ later →
  shouldSendExpiryNotification Date_parse now expiredAt advanceDays lastNotified = Some out →
  shouldSendExpiryNotification Date_parse later expiredAt advanceDays (Some (iso_string now)) = None.
Proof.
  intros Hp Hle. unfold shouldSendExpiryNotification. destruct (negb (given expiredAt)); [done |].
  destruct (Date_parse (default "" expiredAt)) as [expiry|]; [| done]. cbv zeta.
  set (days := num_max 1 _). set (w := num_sub (of_Z expiry) _).
  assert (Hd : days ≠ NaN).
  { unfold days, num_max. destruct advanceDays as [|s|q]; [done | by destruct s |]. destruct (num_truthy (Fin q)); [| done].
    cbn [is_nan of_Z orb]. by destruct (num_lt _ _). }
  assert (Hw : w ≠ NaN) by (unfold w; apply num_sub_not_nan; repeat (apply num_mul_not_nan; [| lia]); done).
  destruct (expiry <? now); [done |]. destruct (num_lt (of_Z now) w) eqn:E; [done |]. intros _.
  destruct (expiry <? later); [done |]. destruct (num_lt (of_Z later) w); [done |].
  change (given (Some (iso_string now))) with (nonempty (iso_string now)).
  rewrite iso_string_nonempty. cbn [default from_option id]. rewrite Hp.
  by rewrite (num_not_lt_le _ _ Hw E).
Qed.

(** ** Witnesses *)

Lemma isRecordPersistDue_spec_witness :
  1 ≤ 120 ≤ 3600 ∧ isRecordPersistDue (of_Z 115000) (of_Z (1000 * 120)) = true.
Proof. split; [lia |]. rewrite isRecordPersistDue_spec by lia. reflexivity. Defined.

(** A parser that knows the times of the witnesses. *)
Definition at_ms (z : Z) : Z := 1700000000000 + z.
Definition parse_sample (s : jstr) : option Z :=
  if jeq s (iso_string (at_ms 0)) then Some (at_ms 0)
  else if jeq s (iso_string (at_ms 1000000)) then Some (at_ms 1000000)
  else if jeq s (iso_string (at_ms 9000000)) then Some (at_ms 9000000) else None.
Definition sample_client : monitored :=
  {| mc_created_at := None; mc_last_record := Some (iso_string (at_ms 0)); mc_grace_period := 180 |}.
Definition sample_round (now : Z) (seen : option Z) (streak : Z) : round :=
  {| rd_now := now; rd_client := sample_client;
     rd_live := Some {| lv_lastSeen := seen; lv_streak := of_Z streak |}; rd_delivered := true |}.
Definition sample_rounds : list round :=
  [sample_round (at_ms 1000000) None 2; sample_round (at_ms 1000000) None 3; sample_round (at_ms 9000000) None 4;
   sample_round (at_ms 9000000) (Some (at_ms 9000000)) 0].

Lemma offline_runs_alternate_witness :
  map (λ p, is_offline p.2) (offline_runs parse_sample true 3 sample_rounds None) = [true; false]
  ∧ alternate true (map snd (offline_runs parse_sample true 3 sample_rounds None)).
Proof.
  split; [vm_compute; reflexivity |]. apply (offline_runs_alternate parse_sample true 3 sample_rounds). vm_compute. reflexivity.
Defined.

Lemma shouldSendExpiryNotification_once_witness :
  shouldSendExpiryNotification parse_sample (at_ms 0) (Some (iso_string (at_ms 9000000))) 7 None = Some (of_Z 1, iso_string (at_ms 9000000))
  ∧ shouldSendExpiryNotification parse_sample (at_ms 1000000) (Some (iso_string (at_ms 9000000))) 7 (Some (iso_string (at_ms 0))) = None.
Proof.
  assert (H : shouldSendExpiryNotification parse_sample (at_ms 0) (Some (iso_string (at_ms 9000000))) 7 None = Some (of_Z 1, iso_string (at_ms 9000000)))
    by (vm_compute; reflexivity).
  split; [exact H |]. apply (shouldSendExpiryNotification_once parse_sample (at_ms 0) (at_ms 1000000) _ _ None (of_Z 1, iso_string (at_ms 9000000))); [vm_compute; reflexivity | unfold at_ms; lia | exact H].
Defined.
