(* ===== verification/RateLimit.v ===== *)
(** * The rate limiter: [worker/src/do/rate-limit.ts]

    A Durable Object that counts the requests of each bucket and address in
    fixed windows.  Its storage is a finite map; the order in which
    [storage.list] yields the entries is the platform's, so it is a parameter.
    Storage operations are taken to succeed: the code only relies on them
    failing nowhere else than in its best-effort sweeps. *)

From S2P Require Import Prelude JsStr JsNum JsVal.
#[local] Open Scope Z_scope.

(** @worker/src/do/rate-limit.ts:4-4 RATE_LIMIT_STORAGE_PREFIX *)
Definition RATE_LIMIT_STORAGE_PREFIX : jstr := "rate-limit:".
(** @worker/src/do/rate-limit.ts:5-5 RATE_LIMIT_MAX_BUCKETS *)
Definition RATE_LIMIT_MAX_BUCKETS : nat := 5000.
(** @worker/src/do/rate-limit.ts:6-6 RATE_LIMIT_CLEANUP_ALARM_MS *)
Definition RATE_LIMIT_CLEANUP_ALARM_MS : Z := 5 * 60 * 1000.
(** @worker/src/do/rate-limit.ts:7-7 RATE_LIMIT_MAX_BODY_BYTES *)
Definition RATE_LIMIT_MAX_BODY_BYTES : Z := 2 * 1024.

(** A stored window: the requests counted and the time it ends. *)
Record window := { count : Z; resetAt : Z }.
#[global] Instance window_eq_dec : EqDecision window.
Proof. solve_decision. Defined.

(** @worker/src/do/rate-limit.ts:9-16 RateLimitDO -- the alarm and the entries
    of the storage, with the counter of the instance *)
Record limiter := { buckets : gmap jstr window; alarm_at : option Z; sweepCounter : Z }.

Inductive response :=
| Refused (status : Z)
| Threw
| Checked (allowed : bool) (retry_after limit remaining reset : Z).

(** [Math.ceil(z / 1000)] for an integer [z] *)
Definition ceil_sec (z : Z) : Z := - ((- z) / 1000).

(** A valid request. *)
Record check := { ck_key : jstr; ck_max : Z; ck_window : Z }.

(** @worker/src/do/rate-limit.ts:50-71 checkRateLimit (validation) --
    [contentLength] is the header, [body] the parsed body, if it parses; reading
    a property of [null] throws *)
Definition parse_check (contentLength : option jstr) (body : option jsval) : response + check :=
  let contentLength := str_num (or_str (default "" contentLength) "0") in
  if is_finite contentLength && num_lt RATE_LIMIT_MAX_BODY_BYTES contentLength then inl (Refused 413)
  else match body with
  | None => inl (Refused 400)
  | Some body =>
    if RATE_LIMIT_MAX_BODY_BYTES <? byte_length (json body) then inl (Refused 413)
    else if is_null body then inl Threw
    else
      let fs := as_object body in
      let bucket := match fld fs "bucket" with JStr s => slice_to 96 s | _ => "" end in
      let ip := match fld fs "ip" with JStr s => slice_to 128 s | _ => "" end in
      match num_Z (to_num (fld fs "max")), num_Z (to_num (fld fs "windowMs")) with
      | Some max, Some windowMs =>
        if negb (nonempty bucket) || negb (nonempty ip) || (max <=? 0) || (windowMs <? 1000) then inl (Refused 400)
        else inr {| ck_key := RATE_LIMIT_STORAGE_PREFIX +++ bucket +++ ":" +++ ip; ck_max := max; ck_window := windowMs |}
      | _, _ => inl (Refused 400)
      end
  end.

(** @worker/src/do/rate-limit.ts:102-115 cleanupExpiredBuckets *)
Definition cleanupExpiredBuckets (now : Z) (m : gmap jstr window) : gmap jstr window :=
  filter (λ p, now < resetAt p.2) m.

(** A stable sort, ascending by [resetAt]. *)
Fixpoint insert_window (x : jstr * window) (l : list (jstr * window)) : list (jstr * window) :=
  match l with
  | [] => [x]
  | y :: r => if resetAt x.2 <? resetAt y.2 then x :: l else y :: insert_window x r
  end.
Definition sort_windows (l : list (jstr * window)) : list (jstr * window) :=
  fold_left (λ acc x, insert_window x acc) l [].

Definition remove_keys (keys : list jstr) (m : gmap jstr window) : gmap jstr window :=
  filter (λ p, p.1 ∉ keys) m.

Section Limiter.
Context (list_entries : gmap jstr window → list (jstr * window)).

(** @worker/src/do/rate-limit.ts:128-153 enforceBucketLimit *)
Definition enforceBucketLimit (now : Z) (m : gmap jstr window) : gmap jstr window :=
  if (size m <=? RATE_LIMIT_MAX_BUCKETS)%nat then m
  else
    let entries := list_entries m in
    let expired := List.filter (λ p, resetAt p.2 <=? now) entries in
    let active := List.filter (λ p, negb (resetAt p.2 <=? now)) entries in
    let overflow := (length active - RATE_LIMIT_MAX_BUCKETS)%nat in
    let oldest := take overflow (sort_windows active) in
    remove_keys (map fst (expired ++ oldest)) m.

(** @worker/src/do/rate-limit.ts:117-126 scheduleCleanupAlarm *)
Definition scheduleCleanupAlarm (now : Z) (current : option Z) : option Z :=
  match current with None => Some (now + RATE_LIMIT_CLEANUP_ALARM_MS) | Some _ => current end.

(** @worker/src/do/rate-limit.ts:73-99 checkRateLimit (counting) *)
Definition count_check (now : Z) (c : check) (st : limiter) : limiter * response :=
  let sweep := sweepCounter st + 1 in
  let m := if sweep mod 256 =? 0 then cleanupExpiredBuckets now (buckets st) else buckets st in
  let state := match m !! ck_key c with
               | Some current => if resetAt current <=? now then {| count := 0; resetAt := now + ck_window c |} else current
               | None => {| count := 0; resetAt := now + ck_window c |}
               end in
  let state := {| count := count state + 1; resetAt := resetAt state |} in
  let m := <[ck_key c := state]> m in
  let alarm := scheduleCleanupAlarm now (alarm_at st) in
  let m := if sweep mod 1024 =? 0 then enforceBucketLimit now m else m in
  ({| buckets := m; alarm_at := alarm; sweepCounter := sweep |},
   Checked (count state <=? ck_max c)
     (Z.max 1 (ceil_sec (resetAt state - now))) (ck_max c) (Z.max 0 (ck_max c - count state)) (ceil_sec (resetAt state))).

(** @worker/src/do/rate-limit.ts:49-100 checkRateLimit *)
Definition checkRateLimit (now : Z) (contentLength : option jstr) (body : option jsval) (st : limiter) : limiter * response :=
  match parse_check contentLength body with
  | inl r => (st, r)
  | inr c => count_check now c st
  end.

(** @worker/src/do/rate-limit.ts:41-47 fetch *)
Definition fetch (method pathname : jstr) (now : Z) (contentLength : option jstr) (body : option jsval) (st : limiter)
  : limiter * response :=
  if jeq method "POST" && jeq pathname "/rate-limit" then checkRateLimit now contentLength body st
  else (st, Refused 404).

(** @worker/src/do/rate-limit.ts:155-171 alarm *)
Definition alarm (now : Z) (st : limiter) : limiter :=
  let m := enforceBucketLimit now (cleanupExpiredBuckets now (buckets st)) in
  {| buckets := m;
     alarm_at := if (0 <? size m)%nat then Some (now + RATE_LIMIT_CLEANUP_ALARM_MS) else None;
     sweepCounter := sweepCounter st |}.

(** @worker/src/do/rate-limit.ts:18-39 hashPassword, verifyPassword (guards) --
    the lengths the two password methods accept *)
Definition password_input_ok (password : jsval) : bool :=
  match password with JStr s => nonempty s && (slen s <=? 4096) | _ => false end.
Definition hash_input_ok (hash : jsval) : bool :=
  match hash with JStr s => nonempty s && (slen s <=? 1024) | _ => false end.

(** ** The specification: a fixed-window counter for one key *)

(** The end of the current window and the requests counted in it. *)
Definition spec_step (now max windowMs : Z) (w : option window) : option window * bool :=
  let s := match w with
           | Some s => if resetAt s <=? now then {| count := 1; resetAt := now + windowMs |}
                       else {| count := count s + 1; resetAt := resetAt s |}
           | None => {| count := 1; resetAt := now + windowMs |}
           end in
  (Some s, count s <=? max).
Fixpoint spec_run (w : option window) (reqs : list (Z * check)) : list bool :=
  match reqs with
  | [] => []
  | (now, c) :: rest => let '(w', b) := spec_step now (ck_max c) (ck_window c) w in b :: spec_run w' rest
  end.

(** The answers of the limiter to a sequence of requests, with their keys. *)
Fixpoint run (st : limiter) (reqs : list (Z * check)) : list (jstr * response) :=
  match reqs with
  | [] => []
  | (now, c) :: rest => let '(st', r) := count_check now c st in (ck_key c, r) :: run st' rest
  end.
(** The sequence never makes the limiter hold more than its maximum of buckets. *)
Fixpoint never_full (st : limiter) (reqs : list (Z * check)) : bool :=
  match reqs with
  | [] => true
  | (now, c) :: rest =>
    let st' := (count_check now c st).1 in
    (size (buckets st) <? RATE_LIMIT_MAX_BUCKETS)%nat && never_full st' rest
  end.
Definition allowed (r : response) : bool := match r with Checked b _ _ _ _ => b | _ => false end.
Definition of_key (k : jstr) (l : list (jstr * response)) : list bool :=
  map (λ p, allowed p.2) (List.filter (λ p, jeq p.1 k) l).

(** ** Facts *)

(** The live window of a key: an expired one counts as absent. *)
Definition live (now : Z) (w : option window) : option window :=
  match w with Some s => if resetAt s <=? now then None else Some s | None => None end.

Lemma cleanup_live now later m k :
  now ≤ later → live later (cleanupExpiredBuckets now m !! k) = live later (m !! k).
Proof.
  intros Hle. unfold cleanupExpiredBuckets, live. destruct (m !! k) as [s|] eqn:E.
  - destruct (decide (now < resetAt s)) as [H | H].
    + by rewrite (proj2 (map_lookup_filter_Some _ _ _ s) (conj E H)).
    + rewrite (proj2 (map_lookup_filter_None _ _ _)); [by rewrite (proj2 (Z.leb_le _ _)) by lia |].
      right. intros s' Hs'. rewrite E in Hs'. injection Hs' as <-. exact H.
  - by rewrite (proj2 (map_lookup_filter_None _ _ _)) by (by left).
Qed.

Lemma size_cleanup now m : (size (cleanupExpiredBuckets now m) ≤ size m)%nat.
Proof. apply map_subseteq_size, map_filter_subseteq. Qed.

Lemma enforce_noop now m : (size m ≤ RATE_LIMIT_MAX_BUCKETS)%nat → enforceBucketLimit now m = m.
Proof. intros H. unfold enforceBucketLimit. by rewrite (proj2 (Nat.leb_le _ _) H). Qed.

(** A window that is live does not depend on the sweeps. *)
Lemma spec_step_live now max windowMs w :
  spec_step now max windowMs (live now w) = spec_step now max windowMs w.
Proof. unfold spec_step, live. destruct w as [s|]; [| done]. destruct (resetAt s <=? now) eqn:E; rewrite ?E; done. Qed.

Lemma count_check_spec now c st :
  (size (buckets st) < RATE_LIMIT_MAX_BUCKETS)%nat →
  let '(st', r) := count_check now c st in
  let '(w, b) := spec_step now (ck_max c) (ck_window c) (buckets st !! ck_key c) in
  buckets st' !! ck_key c = w ∧ allowed r = b
  ∧ ∀ k later, k ≠ ck_key c → now ≤ later → live later (buckets st' !! k) = live later (buckets st !! k).
Proof.
  intros Hsz. unfold count_check. cbv zeta.
  set (m := if (sweepCounter st + 1) mod 256 =? 0 then cleanupExpiredBuckets now (buckets st) else buckets st).
  assert (Hm : ∀ k later, now ≤ later → live later (m !! k) = live later (buckets st !! k)).
  { intros k later Hle. unfold m. destruct ((sweepCounter st + 1) mod 256 =? 0); [by apply cleanup_live | done]. }
  assert (Hms : (size m ≤ size (buckets st))%nat) by (unfold m; destruct ((sweepCounter st + 1) mod 256 =? 0); [apply size_cleanup | done]).
  rewrite <- (spec_step_live now), <- (Hm (ck_key c) now ltac:(lia)), spec_step_live.
  unfold spec_step. set (s := match m !! ck_key c with Some current => _ | None => _ end).
  set (s' := {| count := count s + 1; resetAt := resetAt s |}).
  assert (Hs : match m !! ck_key c with
     | Some s => if resetAt s <=? now then {| count := 1; resetAt := now + ck_window c |}
                 else {| count := count s + 1; resetAt := resetAt s |}
     | None => {| count := 1; resetAt := now + ck_window c |} end = s').
  { unfold s', s. destruct (m !! ck_key c) as [x|]; [destruct (resetAt x <=? now) |]; done. }
  rewrite Hs.
  assert (He : (if (sweepCounter st + 1) mod 1024 =? 0 then enforceBucketLimit now (<[ck_key c := s']> m)
                else <[ck_key c := s']> m) = <[ck_key c := s']> m).
  { destruct ((sweepCounter st + 1) mod 1024 =? 0); [| done]. apply enforce_noop.
    pose proof (map_size_insert (ck_key c) s' m) as Hi. unfold id in Hi. destruct (m !! ck_key c); lia. }
  rewrite He. cbn [buckets allowed]. split; [apply lookup_insert_eq | split; [done |]].
  intros k later Hk Hle. rewrite lookup_insert_ne by done. by apply Hm.
Qed.
End Limiter.

Section Runs.
Context (list_entries : gmap jstr window → list (jstr * window)).

#[local] Abbreviation count_check := (count_check list_entries).
#[local] Abbreviation run := (run list_entries).
#[local] Abbreviation never_full := (never_full list_entries).

(** The times of a sequence of requests do not decrease. *)
Fixpoint ordered (from : Z) (reqs : list (Z * check)) : Prop :=
  match reqs with
  | [] => True
  | (now, _) :: rest => from ≤ now ∧ ordered now rest
  end.

Lemma spec_run_live now reqs w :
  ordered now reqs → spec_run (live now w) reqs = spec_run w reqs.
Proof.
  destruct reqs as [|[t c] rest]; [done |]. intros [Hle _]. cbn [spec_run].
  assert (H : spec_step t (ck_max c) (ck_window c) (live now w) = spec_step t (ck_max c) (ck_window c) w); [| by rewrite H].
  destruct w as [s|]; [| done]. unfold live, spec_step. destruct (resetAt s <=? now) eqn:E; [| done]. zify_bool.
  by rewrite (proj2 (Z.leb_le (resetAt s) t)) by lia.
Qed.

Lemma ordered_le from from' reqs : from' ≤ from → ordered from reqs → ordered from' reqs.
Proof. intros Hle. destruct reqs as [|[t c] l]; [done |]. intros [? ?]. split; [lia | done]. Qed.

Lemma ordered_filter P from reqs : ordered from reqs → ordered from (List.filter P reqs).
Proof.
  revert from. induction reqs as [|[t c] l IH]; intros n; [done |]. intros [H1 H2].
  cbn [List.filter]. destruct (P _); [split; [done | by apply IH] |]. apply IH. by apply (ordered_le t).
Qed.

Lemma run_spec st from reqs k :
  never_full st reqs = true → ordered from reqs →
  of_key k (run st reqs) = spec_run (buckets st !! k) (List.filter (λ p, jeq (ck_key p.2) k) reqs).
Proof.
  revert st from. induction reqs as [|[now c] rest IH]; intros st from Hnf Hord; [done |].
  cbn [RateLimit.run RateLimit.never_full] in *. destruct Hord as [Hle Hord].
  apply andb_true_iff in Hnf as [Hsz Hnf]. apply Nat.ltb_lt in Hsz.
  pose proof (count_check_spec list_entries now c st Hsz) as Hc. destruct (count_check now c st) as [st' r].
  cbn [fst] in Hnf.
  unfold of_key. cbn [List.filter fst snd]. destruct (jeq (ck_key c) k) eqn:Ek.
  - apply jeq_true in Ek. subst k. cbn [map snd spec_run].
    destruct (spec_step now (ck_max c) (ck_window c) (buckets st !! ck_key c)) as [w b]. destruct Hc as (Hw & Hb & _).
    rewrite Hb. f_equal. subst w. by apply (IH st' now).
  - apply jeq_false in Ek. destruct (spec_step _ _ _ _) as [w b]. destruct Hc as (_ & _ & Hother).
    fold (of_key k (run st' rest)). rewrite (IH st' now) by done.
    rewrite <- (spec_run_live now (List.filter _ rest) (buckets st' !! k)) by (by apply ordered_filter).
    rewrite (Hother k now) by (done || lia). apply spec_run_live. by apply ordered_filter.
Qed.

(** In a specification run of one key with a constant limit and window, the
    requests from one instant on for the length of a window meet at most two
    windows, so at most twice the limit is allowed; within a window at most the
    limit is. *)
Definition count_true (l : list bool) : Z := Z.of_nat (length (List.filter (λ b, b) l)).

(** Requests inside the current window: the count only grows. *)
Lemma spec_run_window max wnd w reqs t0 :
  Forall (λ p, ck_max p.2 = max ∧ ck_window p.2 = wnd ∧ p.1 < t0) reqs → t0 ≤ resetAt w → 0 ≤ count w →
  count_true (spec_run (Some w) reqs) ≤ Z.max 0 (max - count w).
Proof.
  revert w. induction reqs as [|[now c] rest IH]; intros w H Ht Hc; [unfold count_true; simpl; lia |].
  apply Forall_cons in H as [(<- & <- & Hnow) H]. cbn [fst snd] in *. cbn [spec_run]. unfold spec_step.
  rewrite (proj2 (Z.leb_gt (resetAt w) now)) by lia.
  specialize (IH {| count := count w + 1; resetAt := resetAt w |} H Ht). cbn [count] in IH.
  unfold count_true in *. cbn [List.filter count]. destruct (count w + 1 <=? ck_max c) eqn:E; zify_bool; simpl length; lia.
Qed.

(** Requests during less than one window length: they meet the current window
    and at most one more. *)
Lemma spec_run_two_windows max wnd w reqs from t0 :
  0 ≤ max → ordered from reqs →
  Forall (λ p, ck_max p.2 = max ∧ ck_window p.2 = wnd ∧ t0 - wnd ≤ p.1 < t0) reqs → 0 ≤ count w →
  count_true (spec_run (Some w) reqs) ≤ Z.max 0 (max - count w) + max.
Proof.
  intros Hmax. revert w from. induction reqs as [|[now c] rest IH]; intros w from Hord H Hc; [unfold count_true; simpl; lia |].
  apply Forall_cons in H as [(<- & <- & Hnow) H]. cbn [fst snd] in *. destruct Hord as [Hfrom Hord]. cbn [spec_run].
  unfold spec_step. destruct (resetAt w <=? now) eqn:Es; zify_bool.
  - assert (Hr := spec_run_window (ck_max c) (ck_window c) {| count := 1; resetAt := now + ck_window c |} rest t0).
    cbn [count resetAt] in Hr. specialize (Hr ltac:(eapply Forall_impl; [exact H |]; intros p (? & ? & ? & ?); done) ltac:(lia) ltac:(lia)).
    unfold count_true in *. cbn [List.filter count]. destruct (1 <=? ck_max c) eqn:E; zify_bool; simpl length; lia.
  - specialize (IH {| count := count w + 1; resetAt := resetAt w |} now Hord H). cbn [count] in IH.
    unfold count_true in *. cbn [List.filter count]. destruct (count w + 1 <=? ck_max c) eqn:E; zify_bool; simpl length; lia.
Qed.

(** A fresh key or a stored window, over a span no longer than a window. *)
Lemma spec_run_span max wnd w reqs from t0 :
  0 ≤ max → ordered from reqs →
  Forall (λ p, ck_max p.2 = max ∧ ck_window p.2 = wnd ∧ t0 - wnd ≤ p.1 < t0) reqs →
  match w with Some w => 0 ≤ count w | None => True end →
  count_true (spec_run w reqs) ≤ 2 * max
  ∧ (w = None → count_true (spec_run w reqs) ≤ max).
Proof.
  intros Hmax Hord H Hw. destruct w as [w|].
  - split; [| done]. pose proof (spec_run_two_windows max wnd w reqs from t0 Hmax Hord H Hw). lia.
  - assert (Hn : count_true (spec_run None reqs) ≤ max); [| split; [lia | done]].
    destruct reqs as [|[now c] rest]; [done |]. apply Forall_cons in H as [(<- & <- & Hnow) H]. cbn [fst snd] in *.
    cbn [spec_run spec_step].
    assert (Hr := spec_run_window (ck_max c) (ck_window c) {| count := 1; resetAt := now + ck_window c |} rest t0).
    cbn [count resetAt] in Hr. specialize (Hr ltac:(eapply Forall_impl; [exact H |]; intros p (? & ? & ? & ?); done) ltac:(lia) ltac:(lia)).
    unfold count_true in *. cbn [List.filter count]. destruct (1 <=? ck_max c) eqn:E; zify_bool; simpl length; lia.
Qed.
End Runs.

(** ** Compaction *)

Section Compaction.
Context (list_entries : gmap jstr window → list (jstr * window)).
Context (list_entries_all : ∀ m, list_entries m ≡ₚ map_to_list m).

Definition ends_before (x y : jstr * window) : Prop := resetAt x.2 ≤ resetAt y.2.

Lemma insert_window_perm x l : insert_window x l ≡ₚ x :: l.
Proof.
  induction l as [|y r IH]; [done |]. cbn [insert_window]. destruct (resetAt x.2 <? resetAt y.2); [done |].
  rewrite IH. apply Permutation_swap.
Qed.

Lemma insert_window_sorted x l : StronglySorted ends_before l → StronglySorted ends_before (insert_window x l).
Proof.
  induction 1 as [|y r Hr IH Hy]; cbn [insert_window]; [by repeat constructor |].
  destruct (resetAt x.2 <? resetAt y.2) eqn:E; zify_bool.
  - constructor; [by constructor |]. constructor; [unfold ends_before; lia |].
    eapply Forall_impl; [exact Hy |]. unfold ends_before. intros; lia.
  - constructor; [done |]. rewrite insert_window_perm. constructor; [unfold ends_before; lia | done].
Qed.

Lemma sort_windows_spec l : sort_windows l ≡ₚ l ∧ StronglySorted ends_before (sort_windows l).
Proof.
  unfold sort_windows. assert (H : ∀ acc, StronglySorted ends_before acc →
    fold_left (λ acc x, insert_window x acc) l acc ≡ₚ acc ++ l
    ∧ StronglySorted ends_before (fold_left (λ acc x, insert_window x acc) l acc)).
  { induction l as [|x l IH]; intros acc Hacc; cbn [fold_left]; [by rewrite app_nil_r |].
    destruct (IH (insert_window x acc)) as [Hp Hs]; [by apply insert_window_sorted |]. split; [| done].
    rewrite Hp, insert_window_perm. simpl. apply Permutation_middle. }
  apply (H []). constructor.
Qed.

Lemma lookup_remove_keys keys m k w :
  remove_keys keys m !! k = Some w ↔ m !! k = Some w ∧ k ∉ keys.
Proof. unfold remove_keys. by rewrite map_lookup_filter_Some. Qed.

Lemma elem_entries m k w : (k, w) ∈ list_entries m ↔ m !! k = Some w.
Proof. rewrite (list_entries_all m). apply elem_of_map_to_list. Qed.

(** The windows to compact, split by the cut of the sorted list. *)
Lemma enforce_split now m k w :
  (RATE_LIMIT_MAX_BUCKETS < size m)%nat → m !! k = Some w →
  let active := List.filter (λ p, negb (resetAt p.2 <=? now)) (list_entries m) in
  let cut := (length active - RATE_LIMIT_MAX_BUCKETS)%nat in
  match enforceBucketLimit list_entries now m !! k with
  | Some w' => w' = w ∧ now < resetAt w ∧ (k, w) ∈ drop cut (sort_windows active)
  | None => resetAt w ≤ now ∨ (k, w) ∈ take cut (sort_windows active)
  end.
Proof.
  intros Hsz Hk active cut. unfold enforceBucketLimit. rewrite (proj2 (Nat.leb_gt _ _) Hsz). fold active. fold cut.
  set (keys := map fst _). destruct (remove_keys keys m !! k) as [w'|] eqn:E.
  - apply lookup_remove_keys in E as [Hk' Hn]. rewrite Hk in Hk'. injection Hk' as <-. split; [done |].
    assert (Hlive : now < resetAt w).
    { apply Z.nle_gt. intros Hle. apply Hn. unfold keys. rewrite map_app. apply elem_of_app. left.
      apply list_elem_of_In, in_map_iff. exists (k, w). split; [done |]. apply filter_In. split; [by apply list_elem_of_In, elem_entries |].
      by apply Z.leb_le. }
    split; [done |]. assert (Ha : (k, w) ∈ sort_windows active).
    { rewrite (proj1 (sort_windows_spec active)). apply list_elem_of_In, filter_In. split; [by apply list_elem_of_In, elem_entries |].
      simpl. apply negb_true_iff, Z.leb_gt. done. }
    rewrite <- (take_drop cut (sort_windows active)) in Ha. apply elem_of_app in Ha as [Ha | Ha]; [| done].
    destruct Hn. unfold keys. rewrite map_app. apply elem_of_app. right. by apply (list_elem_of_fmap_2 fst _ (k, w)).
  - assert (Hin : k ∈ keys).
    { destruct (decide (k ∈ keys)); [done |]. by rewrite (proj2 (lookup_remove_keys keys m k w)) in E by done. }
    unfold keys in Hin. rewrite map_app in Hin. apply elem_of_app in Hin as [Hin | Hin].
    + left. apply list_elem_of_In, in_map_iff in Hin as ([k' w'] & Hk1 & H). simpl in Hk1. subst k'. apply filter_In in H as [H1 H2].
      apply list_elem_of_In, elem_entries in H1. rewrite Hk in H1. injection H1 as <-. by apply Z.leb_le in H2.
    + right. apply list_elem_of_In, in_map_iff in Hin as ([k' w'] & Hk1 & H). simpl in Hk1. subst k'. apply list_elem_of_In in H.
      assert (H' : (k, w') ∈ active).
      { apply list_elem_of_In. eapply Permutation_in; [apply (proj1 (sort_windows_spec active)) |]. apply list_elem_of_In.
        apply (subseteq_take cut), H. }
      apply list_elem_of_In, filter_In in H' as [H1 _]. apply list_elem_of_In, elem_entries in H1. rewrite Hk in H1. by injection H1 as <-.
Qed.

Lemma enforce_size now m : (size (enforceBucketLimit list_entries now m) ≤ RATE_LIMIT_MAX_BUCKETS)%nat.
Proof.
  destruct (decide (size m ≤ RATE_LIMIT_MAX_BUCKETS)%nat) as [H | H]; [by rewrite enforce_noop |].
  set (active := List.filter (λ p, negb (resetAt p.2 <=? now)) (list_entries m)).
  set (cut := (length active - RATE_LIMIT_MAX_BUCKETS)%nat).
  transitivity (length (drop cut (sort_windows active))).
  - rewrite <- length_map_to_list. apply submseteq_length, NoDup_submseteq; [apply NoDup_map_to_list |].
    intros [k w] Hin. apply elem_of_map_to_list in Hin.
    assert (Hk : m !! k = Some w).
    { revert Hin. unfold enforceBucketLimit. destruct (_ <=? _)%nat; [done |]. intros [? _]%lookup_remove_keys. done. }
    pose proof (enforce_split now m k w ltac:(lia) Hk) as Hs. cbv zeta in Hs. rewrite Hin in Hs. apply Hs.
  - rewrite length_drop, (Permutation_length (proj1 (sort_windows_spec active))). unfold cut. lia.
Qed.
End Compaction.

(** ** Properties *)

(** C20: For any interleaving of requests (of any keys, in order of time) that
    never fills the store, the limiter's answers to one key are exactly those of
    a fixed-window counter for that key alone; so, when its requests share a
    limit and a window length, at most twice the limit is allowed within any
    span of one window length, and at most the limit when the key is fresh. *)
Theorem checkRateLimit_fixed_window list_entries st from reqs k max wnd t0 :
  never_full list_entries st reqs = true → ordered from reqs →
  let mine := List.filter (λ p, jeq (ck_key p.2) k) reqs in
  let answers := of_key k (run list_entries st reqs) in
  answers = spec_run (buckets st !! k) mine
  ∧ (0 ≤ max → Forall (λ p, ck_max p.2 = max ∧ ck_window p.2 = wnd ∧ t0 - wnd ≤ p.1 < t0) mine →
     match buckets st !! k with Some w => 0 ≤ count w | None => True end →
     count_true answers ≤ 2 * max ∧ (buckets st !! k = None → count_true answers ≤ max)).
Proof.
  intros Hnf Hord mine answers. assert (Ha : answers = spec_run (buckets st !! k) mine) by (by apply (run_spec _ _ from)).
  split; [done |]. intros Hmax Hf Hw. rewrite Ha.
  apply (spec_run_span max wnd _ _ from t0); [done | by apply ordered_filter | done | done].
Qed.

Definition request_of (now : Z) (ip : jstr) : Z * check :=
  (now, {| ck_key := RATE_LIMIT_STORAGE_PREFIX +++ "login:" +++ ip; ck_max := 2; ck_window := 60000 |}).
Definition sample_limiter : limiter := {| buckets := ∅; alarm_at := None; sweepCounter := 0 |}.
Definition sample_requests : list (Z * check) :=
  [request_of 0 "1.1.1.1"; request_of 5 "2.2.2.2"; request_of 10 "1.1.1.1"; request_of 20 "1.1.1.1"; request_of 70000 "1.1.1.1"].

Lemma checkRateLimit_fixed_window_witness :
  of_key (RATE_LIMIT_STORAGE_PREFIX +++ "login:1.1.1.1") (run map_to_list sample_limiter sample_requests)
    = [true; true; false; true]
  ∧ count_true (of_key (RATE_LIMIT_STORAGE_PREFIX +++ "login:1.1.1.1") (run map_to_list sample_limiter (take 4 sample_requests))) ≤ 2.
Proof.
  split.
  - destruct (checkRateLimit_fixed_window map_to_list sample_limiter 0 sample_requests
      (RATE_LIMIT_STORAGE_PREFIX +++ "login:1.1.1.1") 2 60000 60000) as [H _];
      [vm_compute; reflexivity | cbn [ordered sample_requests request_of]; lia |].
    rewrite H. vm_compute. reflexivity.
  - destruct (checkRateLimit_fixed_window map_to_list sample_limiter 0 (take 4 sample_requests)
      (RATE_LIMIT_STORAGE_PREFIX +++ "login:1.1.1.1") 2 60000 60000) as [_ H];
      [vm_compute; reflexivity | cbn [ordered sample_requests request_of take]; lia |].
    apply H; [lia | | done | done].
    cbv beta delta [sample_requests take request_of]. cbn [List.filter ck_key snd].
    repeat (rewrite jeq_refl). repeat constructor; simpl; lia.
Defined.

(** Compaction leaves at most 5000 buckets, changes no window it keeps, never
    keeps an expired window when it acts, and evicts live windows only in order
    of their end: none that ends after a window it keeps.  The alarm does the same
    after dropping every expired window, and re-arms exactly when buckets remain. *)
Theorem enforceBucketLimit_bounded list_entries now m :
  (∀ m, list_entries m ≡ₚ map_to_list m) →
  let m' := enforceBucketLimit list_entries now m in
  (size m' ≤ RATE_LIMIT_MAX_BUCKETS)%nat
  ∧ (∀ k w, m' !! k = Some w → m !! k = Some w)
  ∧ ((RATE_LIMIT_MAX_BUCKETS < size m)%nat → ∀ k w, m' !! k = Some w → now < resetAt w)
  ∧ (∀ k w k' w', m !! k = Some w → now < resetAt w → m' !! k = None → m' !! k' = Some w' → resetAt w ≤ resetAt w')
  ∧ ∀ st, let st' := alarm list_entries now st in
    (size (buckets st') ≤ RATE_LIMIT_MAX_BUCKETS)%nat
    ∧ (∀ k w, buckets st' !! k = Some w → now < resetAt w)
    ∧ (alarm_at st' = None ↔ buckets st' = ∅).
Proof.
  intros Hall. assert (Hsub : ∀ m k w, enforceBucketLimit list_entries now m !! k = Some w → m !! k = Some w).
  { intros m0 k w. unfold enforceBucketLimit. destruct (_ <=? _)%nat; [done |]. by intros [? _]%lookup_remove_keys. }
  repeat split.
  - by apply enforce_size.
  - apply Hsub.
  - intros Hsz k w Hin. pose proof (enforce_split _ Hall now m k w Hsz (Hsub _ _ _ Hin)) as Hs. cbv zeta in Hs.
    rewrite Hin in Hs. apply Hs.
  - intros k w k' w' Hk Hlive Hout Hin. destruct (decide (size m ≤ RATE_LIMIT_MAX_BUCKETS)%nat) as [H | H].
    { rewrite enforce_noop in Hout by done. congruence. }
    pose proof (enforce_split _ Hall now m k w ltac:(lia) Hk) as H1.
    pose proof (enforce_split _ Hall now m k' w' ltac:(lia) (Hsub _ _ _ Hin)) as H2. cbv zeta in H1, H2.
    rewrite Hout in H1. rewrite Hin in H2. destruct H1 as [? | H1]; [lia |]. destruct H2 as (_ & _ & H2).
    set (s := sort_windows _) in *. assert (Hs : StronglySorted ends_before s) by apply sort_windows_spec.
    rewrite <- (take_drop (length (List.filter (λ p, negb (resetAt p.2 <=? now)) (list_entries m)) - RATE_LIMIT_MAX_BUCKETS) s) in Hs.
    exact (StronglySorted_app_1_elem_of _ _ _ _ _ Hs H1 H2).
  - by apply enforce_size.
  - intros k w Hin. apply Hsub in Hin. apply map_lookup_filter_Some in Hin as [_ Hlive]. exact Hlive.
  - cbn [alarm alarm_at buckets]. destruct (0 <? size _)%nat eqn:E; [done |]. intros _. apply Nat.ltb_ge in E.
    apply map_size_empty_inv. lia.
  - cbn [alarm alarm_at buckets]. intros ->. by rewrite map_size_empty.
Qed.

Lemma enforceBucketLimit_bounded_witness :
  let m := list_to_map (map (λ n : Z, (dec_Z n, {| count := 1; resetAt := n |})) (seqZ 0 5003)) : gmap jstr window in
  (size (enforceBucketLimit map_to_list 1 m) ≤ RATE_LIMIT_MAX_BUCKETS)%nat.
Proof. intros m. exact (proj1 (enforceBucketLimit_bounded map_to_list 1 m (λ m, Permutation_refl (map_to_list m)))). Defined.
