(* ===== verification/Totp.v ===== *)
(** * One-time passwords, base32 and CSRF: [auth/totp.ts], [auth/session.ts],
    [auth/mfa-policy.ts]

    Bit operations are the 32-bit ones of the language: [<<] and [|] wrap to a
    signed 32-bit integer and [>>>] reads an unsigned one.  HMAC-SHA-1 is a
    parameter; cookies and headers of a request are arguments. *)

From S2P Require Import Prelude JsStr JsNum JsBytes.
#[local] Open Scope Z_scope.

(** ** Base32 *)

Definition int32 (z : Z) : Z := (z + 2147483648) mod 4294967296 - 2147483648.
Definition uint32 (z : Z) : Z := z mod 4294967296.
Definition shl32 (a n : Z) : Z := int32 (Z.shiftl a n).
Definition ushr32 (a n : Z) : Z := Z.shiftr (uint32 a) n.

(** @worker/src/auth/totp.ts:1-1 BASE32_ALPHABET *)
Definition BASE32_ALPHABET : jstr := "ABCDEFGHIJKLMNOPQRSTUVWXYZ234567".
(** @worker/src/auth/totp.ts:2-5 TOTP_PERIOD_SECONDS, TOTP_DIGITS, TOTP_SECRET_BYTES *)
Definition TOTP_PERIOD_SECONDS : Z := 30.
Definition TOTP_DIGITS : nat := 6.
Definition TOTP_SECRET_BYTES : nat := 20.

Definition base32_char (i : Z) : N := nth (Z.to_nat i) (units BASE32_ALPHABET) 0%N.
(** [BASE32_ALPHABET.indexOf(character)] *)
Fixpoint index_of (u : N) (l : list N) (i : Z) : Z :=
  match l with
  | [] => -1
  | v :: r => if (u =? v)%N then i else index_of u r (i + 1)
  end.
Definition base32_index (u : N) : Z := index_of u (units BASE32_ALPHABET) 0.

(** @worker/src/auth/totp.ts:25-28 base32Encode (inner loop) -- every turn takes
    five bits, so as many turns as bits are enough fuel *)
Fixpoint emit_quintets (fuel : nat) (value bits : Z) (output : list N) : Z * list N :=
  match fuel with
  | O => (bits, output)
  | S k => if 5 <=? bits then emit_quintets k value (bits - 5) (output ++ [base32_char (Z.land (ushr32 value (bits - 5)) 31)])
           else (bits, output)
  end.
(** @worker/src/auth/totp.ts:22-29 base32Encode (loop) *)
Fixpoint encode_loop (bytes : list Z) (bits value : Z) (output : list N) : Z * Z * list N :=
  match bytes with
  | [] => (bits, value, output)
  | byte :: r =>
    let value := Z.lor (shl32 value 8) byte in
    let '(bits, output) := emit_quintets (Z.to_nat (bits + 8)) value (bits + 8) output in
    encode_loop r bits value output
  end.
(** @worker/src/auth/totp.ts:18-32 base32Encode *)
Definition base32Encode (bytes : list Z) : jstr :=
  let '(bits, value, output) := encode_loop bytes 0 0 [] in
  JS (if 0 <? bits then output ++ [base32_char (Z.land (shl32 value (5 - bits)) 31)] else output).

(** [/^[A-Z2-7]+$/] *)
Definition is_base32 (u : N) : bool := is_upper u || ((50 <=? u) && (u <=? 55))%N.
(** @worker/src/auth/totp.ts:43-52 base32Decode (loop) *)
Fixpoint decode_loop (chars : list N) (bits value : Z) (output : list Z) : option (Z * Z * list Z) :=
  match chars with
  | [] => Some (bits, value, output)
  | character :: r =>
    let index := base32_index character in
    if index <? 0 then None
    else
      let value := Z.lor (shl32 value 5) index in
      let bits := bits + 5 in
      if 8 <=? bits then decode_loop r (bits - 8) value (output ++ [Z.land (ushr32 value (bits - 8)) 255])
      else decode_loop r bits value output
  end.
(** @worker/src/auth/totp.ts:34-54 base32Decode -- [None] when it throws *)
Definition base32Decode (input : jstr) : option (list Z) :=
  let normalized := JS (drop_while_end (chr 61) (units (upper (trim input)))) in
  if negb (all_units1 is_base32 normalized) then None
  else match decode_loop (units normalized) 0 0 [] with
       | Some (_, _, output) => Some output
       | None => None
       end.

(** @worker/src/auth/totp.ts:56-58 generateTotpSecret -- from the random bytes *)
Definition generateTotpSecret (random : list Z) : jstr := base32Encode random.

(** ** Codes *)

(** @worker/src/auth/totp.ts:8-17 constantTimeEqual *)
Definition constantTimeEqual (left right : jstr) : bool := ct_equal (utf8 left) (utf8 right).

(** @worker/src/auth/totp.ts:60-68 counterBytes *)
Definition counterBytes (step : Z) : list Z :=
  map (λ k, Z.land (Z.shiftr step (8 * k)) 255) [7; 6; 5; 4; 3; 2; 1; 0].

(** [text.padStart(n, '0')] *)
Definition pad_start0 (n : nat) (s : jstr) : jstr := JS (replicate (n - length (units s)) 48%N ++ units s).

Section Codes.
Context (hmacSha1 : list Z → list Z → list Z).

(** @worker/src/auth/totp.ts:78-86 codeForStep (truncation) -- reading past the
    signature gives [undefined], which the bit operations take for zero *)
Definition truncate_code (signature : list Z) : jstr :=
  let at_ i := nth i signature 0 in
  let offset := Z.to_nat (Z.land (at_ (length signature - 1)%nat) 15) in
  let binary := uint32 (Z.lor (Z.lor (Z.lor (shl32 (Z.land (at_ offset) 127) 24)
    (shl32 (Z.land (at_ (offset + 1)%nat) 255) 16)) (shl32 (Z.land (at_ (offset + 2)%nat) 255) 8))
    (Z.land (at_ (offset + 3)%nat) 255)) in
  pad_start0 TOTP_DIGITS (dec_Z (binary mod 10 ^ Z.of_nat TOTP_DIGITS)).
(** @worker/src/auth/totp.ts:70-87 codeForStep -- [None] when the secret does not decode *)
Definition codeForStep (secret : jstr) (step : Z) : option jstr :=
  match base32Decode secret with
  | Some key => Some (truncate_code (hmacSha1 key (counterBytes step)))
  | None => None
  end.

(** [Math.floor(timestamp / 1000 / 30)] for an integer timestamp; the two
    roundings of the divisions cannot reach the next multiple below [2^53]. *)
Definition step_of (timestamp : Z) : Z := timestamp / (1000 * TOTP_PERIOD_SECONDS).
(** @worker/src/auth/totp.ts:89-91 generateTotpCode *)
Definition generateTotpCode (secret : jstr) (timestamp : Z) : option jstr := codeForStep secret (step_of timestamp).

(** @worker/src/auth/totp.ts:100-105 verifyTotpCode (loop) -- the outer [option]
    is the error of a secret that does not decode *)
Fixpoint verify_loop (secret code : jstr) (currentStep : Z) (offsets : list Z) : option (option Z) :=
  match offsets with
  | [] => Some None
  | offset :: r =>
    let step := currentStep + offset in
    if 0 <=? step then
      match codeForStep secret step with
      | None => None
      | Some expected => if constantTimeEqual expected code then Some (Some step) else verify_loop secret code currentStep r
      end
    else verify_loop secret code currentStep r
  end.
(** @worker/src/auth/totp.ts:93-107 verifyTotpCode *)
Definition verifyTotpCode (secret code : jstr) (timestamp : Z) : option (option Z) :=
  if negb (all_units is_digit code && (slen code =? 6)) then Some None
  else verify_loop secret code (step_of timestamp) [0; -1; 1].
End Codes.

(** ** CSRF: [auth/session.ts] *)

(** @worker/src/auth/session.ts:38-40 isValidCsrfToken *)
Definition isValidCsrfToken (token : option jstr) : option jstr :=
  match token with
  | Some t => if all_units (λ u, is_alnum u || (u =? 95)%N || (u =? 45)%N) t && (32 <=? slen t) && (slen t <=? 128)
              then Some t else None
  | None => None
  end.
(** @worker/src/auth/session.ts:29-36 generateCsrfToken -- from the random bytes *)
Definition generateCsrfToken (random : list Z) : jstr := base64url random.
(** @worker/src/auth/session.ts:42-49 constantTimeStringEqual -- over code units *)
Definition constantTimeStringEqual (a b : jstr) : bool := ct_equal (map Z.of_N (units a)) (map Z.of_N (units b)).
(** @worker/src/auth/session.ts:51-54 getAdminCsrfToken -- of the cookie *)
Definition getAdminCsrfToken (cookie : option jstr) : option jstr := isValidCsrfToken cookie.
(** @worker/src/auth/session.ts:56-67 ensureAdminCsrfCookie -- the token set *)
Definition ensureAdminCsrfCookie (cookie : option jstr) (random : list Z) : jstr :=
  match getAdminCsrfToken cookie with Some t => t | None => generateCsrfToken random end.
(** @worker/src/auth/session.ts:69-73 verifyAdminCsrfToken *)
Definition verifyAdminCsrfToken (cookie header : option jstr) : bool :=
  match getAdminCsrfToken cookie, isValidCsrfToken header with
  | Some c, Some h => constantTimeStringEqual c h
  | _, _ => false
  end.

(** ** Step-up policy: [auth/mfa-policy.ts] *)

(** @worker/src/auth/mfa-policy.ts:1-13 EXACT_PROTECTED_PATHS *)
Definition EXACT_PROTECTED_PATHS : list jstr :=
  ["/api/admin/account/username"; "/api/admin/account/chpasswd"; "/api/admin/clients/batch-remove";
   "/api/admin/record/clear"; "/api/admin/record/clear/all"; "/api/admin/download/backup"; "/api/admin/upload/backup";
   "/api/admin/account/mfa/setup"; "/api/admin/account/mfa/enable"; "/api/admin/account/mfa/recovery-codes";
   "/api/admin/account/mfa/disable"].
Definition client_endings : list (list jstr) := [["remove"]; ["token"]; ["token"; "install"]; ["token"; "rotate"]].
(** @worker/src/auth/mfa-policy.ts:14-14 CLIENT_SECRET_PATH -- as a test: one
    non-empty segment between the prefix and one of four endings *)
Definition client_secret_path (pathname : jstr) : bool :=
  match split_on (chr 47) pathname with
  | e :: api :: admin :: clients :: id :: rest =>
    jeq e "" && jeq api "api" && jeq admin "admin" && jeq clients "clients" && nonempty id
    && bool_decide (rest ∈ client_endings)
  | _ => false
  end.
(** @worker/src/auth/mfa-policy.ts:16-19 isMfaStepUpProtectedRequest *)
Definition isMfaStepUpProtectedRequest (method pathname : jstr) : bool :=
  if negb (jeq (upper method) "POST") then false
  else mem pathname EXACT_PROTECTED_PATHS || client_secret_path pathname.

(** ** Facts: the bits of a group of symbols *)

(** The [w] low bits of [z], the most significant first. *)
Fixpoint bits (w : nat) (z : Z) : list bool :=
  match w with
  | O => []
  | S k => Z.testbit z (Z.of_nat k) :: bits k z
  end.
Definition bits_of (w : nat) (l : list Z) : list bool := concat (map (bits w) l).

Lemma bits_length w z : length (bits w z) = w.
Proof. induction w; simpl; [done | by f_equal]. Qed.
Lemma bits_of_length w l : length (bits_of w l) = (w * length l)%nat.
Proof. unfold bits_of. induction l as [|x l IH]; simpl; [lia |]. rewrite length_app, bits_length, IH. lia. Qed.
Lemma bits_of_snoc w l x : bits_of w (l ++ [x]) = bits_of w l ++ bits w x.
Proof. unfold bits_of. rewrite map_app, concat_app. simpl. by rewrite app_nil_r. Qed.

Lemma bits_ext w a b : (∀ i, 0 ≤ i < Z.of_nat w → Z.testbit a i = Z.testbit b i) → bits w a = bits w b.
Proof. induction w as [|w IH]; intros H; [done |]. simpl. f_equal; [apply H; lia | apply IH; intros; apply H; lia]. Qed.

Lemma bits_split m n z : bits (m + n) z = bits m (Z.shiftr z (Z.of_nat n)) ++ bits n z.
Proof.
  induction m as [|m IH]; [done |]. cbn [Nat.add bits Datatypes.app]. rewrite IH. f_equal.
  rewrite Z.shiftr_spec by lia. f_equal. lia.
Qed.

Lemma testbit_high z k i : 0 ≤ z < 2 ^ k → k ≤ i → Z.testbit z i = false.
Proof.
  intros Hz Hi. destruct (decide (k < 0)) as [Hk | Hk]; [rewrite Z.pow_neg_r in Hz by done; lia |].
  rewrite <- (Z.mod_small z (2 ^ k)) by done. apply Z.mod_pow2_bits_high. lia.
Qed.

Lemma bits_inj w a b :
  0 ≤ a < 2 ^ Z.of_nat w → 0 ≤ b < 2 ^ Z.of_nat w → bits w a = bits w b → a = b.
Proof.
  intros Ha Hb H. apply Z.bits_inj'. intros i Hi.
  destruct (decide (i < Z.of_nat w)) as [Hlt | Hge]; [| by rewrite !(testbit_high _ (Z.of_nat w)) by (done || lia)].
  clear Ha Hb. induction w as [|w IH]; [lia |]. simpl in H. injection H as Hhd Htl.
  destruct (decide (i = Z.of_nat w)) as [-> | Hne]; [done | apply IH; [done | lia]].
Qed.

Lemma bits_of_inj w l1 l2 :
  Forall (λ x, 0 ≤ x < 2 ^ Z.of_nat w) l1 → Forall (λ x, 0 ≤ x < 2 ^ Z.of_nat w) l2 →
  length l1 = length l2 → bits_of w l1 = bits_of w l2 → l1 = l2.
Proof.
  intros H1. revert l2. induction H1 as [|x l1 Hx H1 IH]; intros l2 H2 Hl Hb; destruct l2 as [|y l2]; try done.
  apply Forall_cons in H2 as [Hy H2]. unfold bits_of in Hb. cbn [map concat] in Hb.
  apply app_inj_1 in Hb as [Hxy Hb]; [| by rewrite !bits_length].
  f_equal; [by apply (bits_inj w) | apply IH; [done | by injection Hl | done]].
Qed.

(** *** The 32-bit operations keep the low bits *)

Lemma testbit_int32 z i : 0 ≤ i < 32 → Z.testbit (int32 z) i = Z.testbit z i.
Proof.
  intros Hi. rewrite <- (Z.mod_pow2_bits_low (int32 z) 32), <- (Z.mod_pow2_bits_low z 32) by lia. f_equal.
  change (2 ^ 32) with 4294967296. unfold int32. Z.to_euclidean_division_equations. lia.
Qed.

Lemma bits_push b k v x :
  (b + k ≤ 32)%nat → 0 ≤ x < 2 ^ Z.of_nat k →
  bits (b + k) (Z.lor (shl32 v (Z.of_nat k)) x) = bits b v ++ bits k x.
Proof.
  intros Hk Hx. rewrite bits_split. f_equal.
  - apply bits_ext. intros i Hi. rewrite Z.shiftr_spec, Z.lor_spec by lia. unfold shl32.
    rewrite testbit_int32, Z.shiftl_spec by lia. rewrite (testbit_high x (Z.of_nat k)) by (done || lia).
    rewrite orb_false_r. f_equal. lia.
  - apply bits_ext. intros i Hi. rewrite Z.lor_spec. unfold shl32. rewrite testbit_int32, Z.shiftl_spec_low by lia. done.
Qed.

Lemma bits_top b m v :
  (m ≤ b ≤ 32)%nat →
  bits b v = bits m (Z.land (ushr32 v (Z.of_nat b - Z.of_nat m)) (Z.ones (Z.of_nat m))) ++ bits (b - m) v.
Proof.
  intros Hm. replace b with (m + (b - m))%nat at 1 by lia. rewrite bits_split. f_equal.
  apply bits_ext. intros i Hi. rewrite Z.land_spec, Z.ones_spec_low, andb_true_r by lia. unfold ushr32, uint32.
  rewrite !Z.shiftr_spec by lia. change 4294967296 with (2 ^ 32). rewrite Z.mod_pow2_bits_low by lia. f_equal. lia.
Qed.

Lemma bits_pad b v :
  (b ≤ 5)%nat → bits 5 (Z.land (shl32 v (5 - Z.of_nat b)) 31) = bits b v ++ replicate (5 - b) false.
Proof.
  intros Hb. replace 5%nat with (b + (5 - b))%nat at 1 by lia. rewrite bits_split. f_equal.
  - apply bits_ext. intros i Hi. change 31 with (Z.ones 5). rewrite Z.shiftr_spec, Z.land_spec, Z.ones_spec_low, andb_true_r by lia.
    unfold shl32. rewrite testbit_int32, Z.shiftl_spec by lia. f_equal. lia.
  - assert (H : ∀ n, (n ≤ 5 - b)%nat → bits n (Z.land (shl32 v (5 - Z.of_nat b)) 31) = replicate n false); [| by apply H].
    induction n as [|n IH]; intros Hn; [done |]. cbn [bits replicate]. rewrite IH by lia. f_equal.
    rewrite Z.land_spec. unfold shl32. rewrite testbit_int32, Z.shiftl_spec_low by lia. done.
Qed.

(** *** Encoding and decoding are regroupings of the same bits *)

Definition is_quintet (v : Z) : Prop := 0 ≤ v < 32.

Lemma emit_quintets_spec fuel v b out :
  (b ≤ fuel)%nat → (b ≤ 32)%nat →
  ∃ q b', emit_quintets fuel v (Z.of_nat b) out = (Z.of_nat b', out ++ map base32_char q)
    ∧ Forall is_quintet q ∧ (b' < 5)%nat ∧ bits_of 5 q ++ bits b' v = bits b v.
Proof.
  revert b out. induction fuel as [|k IH]; intros b out Hf Hb.
  { exists [], 0%nat. assert (b = 0%nat) as -> by lia. rewrite app_nil_r. repeat split; [done | lia]. }
  cbn [emit_quintets]. destruct (5 <=? Z.of_nat b) eqn:E; zify_bool.
  - replace (Z.of_nat b - 5) with (Z.of_nat (b - 5)) by lia.
    destruct (IH (b - 5)%nat (out ++ [base32_char (Z.land (ushr32 v (Z.of_nat (b - 5))) 31)])) as (q & b' & -> & Hq & Hb' & Hbits); [lia.. |].
    exists (Z.land (ushr32 v (Z.of_nat (b - 5))) 31 :: q), b'.
    split; [by rewrite <- (assoc_L (++)) |]. split.
    { constructor; [| done]. unfold is_quintet. change 31 with (Z.ones 5). rewrite Z.land_ones by lia. apply Z.mod_pos_bound. lia. }
    split; [done |]. unfold bits_of in *. cbn [map concat]. rewrite <- (assoc_L (++)), Hbits.
    rewrite (bits_top b 5) by lia. change (Z.ones (Z.of_nat 5)) with 31. by replace (Z.of_nat b - Z.of_nat 5) with (Z.of_nat (b - 5)) by lia.
  - exists [], b. rewrite app_nil_r. repeat split; [done | lia].
Qed.

Lemma encode_loop_spec bytes b v out :
  Forall is_byte bytes → (b < 5)%nat →
  ∃ q b' v', encode_loop bytes (Z.of_nat b) v out = (Z.of_nat b', v', out ++ map base32_char q)
    ∧ Forall is_quintet q ∧ (b' < 5)%nat ∧ bits_of 5 q ++ bits b' v' = bits b v ++ bits_of 8 bytes.
Proof.
  intros Hbytes. revert b v out. induction Hbytes as [|x bytes Hx Hbytes IH]; intros b v out Hb.
  { exists [], b, v. rewrite app_nil_r. repeat split; [done | done |]. unfold bits_of. simpl. by rewrite app_nil_r. }
  cbn [encode_loop]. replace (Z.of_nat b + 8) with (Z.of_nat (b + 8)) by lia. rewrite Nat2Z.id.
  destruct (emit_quintets_spec (b + 8) (Z.lor (shl32 v 8) x) (b + 8) out) as (q1 & b1 & -> & Hq1 & Hb1 & Hbits1); [lia.. |].
  destruct (IH b1 (Z.lor (shl32 v 8) x) (out ++ map base32_char q1) Hb1) as (q2 & b2 & v2 & -> & Hq2 & Hb2 & Hbits2).
  exists (q1 ++ q2), b2, v2. rewrite map_app, (assoc_L (++)). split; [done |]. split; [by apply Forall_app |]. split; [done |].
  unfold bits_of in *. rewrite map_app, concat_app. cbn [map concat].
  rewrite <- (assoc_L (++)), Hbits2, (assoc_L (++)), Hbits1. change 8 with (Z.of_nat 8). rewrite bits_push by (unfold is_byte in Hx; lia).
  by rewrite (assoc_L (++)).
Qed.

(** The symbols of an encoding carry the bits of the bytes and fewer than five
    zero bits. *)
Lemma base32Encode_quintets bytes :
  Forall is_byte bytes →
  ∃ q z, base32Encode bytes = JS (map base32_char q) ∧ Forall is_quintet q ∧ (z < 5)%nat
    ∧ bits_of 5 q = bits_of 8 bytes ++ replicate z false.
Proof.
  intros Hb. destruct (encode_loop_spec bytes 0 0 [] Hb) as (q & b & v & He & Hq & Hlt & Hbits); [lia |].
  unfold base32Encode. change 0 with (Z.of_nat 0) at 1. rewrite He. cbn [Datatypes.app]. cbn [bits Datatypes.app] in Hbits.
  destruct (0 <? Z.of_nat b) eqn:E; zify_bool.
  - exists (q ++ [Z.land (shl32 v (5 - Z.of_nat b)) 31]), (5 - b)%nat. rewrite map_app. split; [done |]. split.
    { apply Forall_app. split; [done |]. constructor; [| done]. unfold is_quintet. change 31 with (Z.ones 5).
      rewrite Z.land_ones by lia. apply Z.mod_pos_bound. lia. }
    split; [lia |]. rewrite bits_of_snoc, bits_pad by lia. by rewrite (assoc_L (++)), Hbits.
  - assert (b = 0%nat) as -> by lia. exists q, 0%nat. rewrite app_nil_r in Hbits. by rewrite app_nil_r.
Qed.

Lemma base32_char_facts v :
  is_quintet v → base32_index (base32_char v) = v ∧ is_base32 (base32_char v) = true
    ∧ upper_unit (base32_char v) = [base32_char v] ∧ is_space (base32_char v) = false ∧ chr 61 (base32_char v) = false
    ∧ chr 45 (base32_char v) = false ∧ (base32_char v <? 128)%N = true.
Proof.
  intros Hv. set (P := λ v, (base32_index (base32_char v) =? v) && is_base32 (base32_char v)
    && bool_decide (upper_unit (base32_char v) = [base32_char v]) && negb (is_space (base32_char v))
    && negb (chr 61 (base32_char v)) && negb (chr 45 (base32_char v)) && (base32_char v <? 128)%N).
  assert (Hall : forallb (λ n, P (Z.of_nat n)) (seq 0 32) = true) by (vm_compute; reflexivity).
  assert (Hp : P v = true).
  { rewrite forallb_true in Hall. specialize (Hall (Z.to_nat v)). unfold is_quintet in Hv. rewrite Z2Nat.id in Hall by lia.
    apply Hall, elem_of_seq. lia. }
  unfold P in Hp. rewrite !andb_true_iff, bool_decide_eq_true, !negb_true_iff, Z.eqb_eq in Hp. naive_solver.
Qed.

Lemma decode_loop_spec q b v out :
  Forall is_quintet q → (b < 8)%nat →
  ∃ o b' v', decode_loop (map base32_char q) (Z.of_nat b) v out = Some (Z.of_nat b', v', out ++ o)
    ∧ Forall is_byte o ∧ (b' < 8)%nat ∧ bits_of 8 o ++ bits b' v' = bits b v ++ bits_of 5 q.
Proof.
  intros Hq. revert b v out. induction Hq as [|x q Hx Hq IH]; intros b v out Hb.
  { exists [], b, v. rewrite app_nil_r. repeat split; [done | done |]. unfold bits_of. simpl. by rewrite app_nil_r. }
  cbn [map decode_loop]. rewrite (proj1 (base32_char_facts x Hx)). rewrite (proj2 (Z.ltb_ge x 0)) by (unfold is_quintet in Hx; lia).
  set (v1 := Z.lor (shl32 v 5) x).
  assert (Hpush : bits (b + 5) v1 = bits b v ++ bits 5 x).
  { unfold v1. change 5 with (Z.of_nat 5). apply bits_push; [lia |]. unfold is_quintet in Hx. lia. }
  assert (Hcons : bits b v ++ bits_of 5 (x :: q) = bits (b + 5) v1 ++ bits_of 5 q).
  { rewrite Hpush. unfold bits_of. cbn [map concat]. by rewrite (assoc_L (++)). }
  rewrite Hcons. replace (Z.of_nat b + 5) with (Z.of_nat (b + 5)) by lia. destruct (8 <=? Z.of_nat (b + 5)) eqn:E; zify_bool.
  - replace (Z.of_nat (b + 5) - 8) with (Z.of_nat (b + 5 - 8)) by lia.
    destruct (IH (b + 5 - 8)%nat v1 (out ++ [Z.land (ushr32 v1 (Z.of_nat (b + 5 - 8))) 255])) as (o & b' & v' & -> & Ho & Hb' & Hbits); [lia |].
    exists (Z.land (ushr32 v1 (Z.of_nat (b + 5 - 8))) 255 :: o), b', v'. split; [by rewrite <- (assoc_L (++)) |]. split.
    { constructor; [| done]. unfold is_byte. change 255 with (Z.ones 8). rewrite Z.land_ones by lia. apply Z.mod_pos_bound. lia. }
    split; [done |]. rewrite (bits_top (b + 5) 8) by lia. rewrite <- (assoc_L (++)), <- Hbits. unfold bits_of. cbn [map concat].
    rewrite <- (assoc_L (++)). change (Z.ones (Z.of_nat 8)) with 255. by replace (Z.of_nat (b + 5) - Z.of_nat 8) with (Z.of_nat (b + 5 - 8)) by lia.
  - destruct (IH (b + 5)%nat v1 out) as (o & b' & v' & -> & Ho & Hb' & Hbits); [lia |]. by exists o, b', v'.
Qed.

Lemma map_upper q : Forall is_quintet q → flat_map upper_unit (map base32_char q) = map base32_char q.
Proof.
  induction 1 as [|v q Hv Hq IH]; [done |]. cbn [map flat_map]. rewrite IH.
  destruct (base32_char_facts v Hv) as (_ & _ & -> & _). done.
Qed.

Lemma forallb_chars (P : N → bool) q :
  Forall is_quintet q → (∀ v, is_quintet v → P (base32_char v) = true) → forallb P (map base32_char q) = true.
Proof. intros Hq HP. apply forallb_true. intros x (v & -> & Hv)%list_elem_of_fmap. rewrite Forall_forall in Hq. auto. Qed.

Lemma drop_while_end_none {A} (f : A → bool) l : (∀ x, x ∈ l → f x = false) → drop_while_end f l = l.
Proof.
  intros H. unfold drop_while_end. rewrite drop_while_head; [apply rev_involutive |].
  intros x r E. apply H, list_elem_of_In, in_rev. rewrite E. by left.
Qed.

Lemma decode_quintets q bytes z :
  Forall is_quintet q → Forall is_byte bytes → q ≠ [] → (z < 5)%nat → bits_of 5 q = bits_of 8 bytes ++ replicate z false →
  base32Decode (JS (map base32_char q)) = Some bytes.
Proof.
  intros Hq Hb Hne Hz Hbits. unfold base32Decode.
  assert (Hn : JS (drop_while_end (chr 61) (units (upper (trim (JS (map base32_char q)))))) = JS (map base32_char q)).
  { rewrite trim_id by (apply forallb_chars; [done |]; intros v Hv; destruct (base32_char_facts v Hv) as (_ & _ & _ & -> & _); done).
    unfold upper. cbn [units]. rewrite map_upper by done. rewrite drop_while_end_none; [done |].
    intros x (v & -> & Hv)%list_elem_of_fmap. rewrite Forall_forall in Hq. apply (base32_char_facts v (Hq v Hv)). }
  rewrite Hn. unfold all_units1, all_units. cbn [units].
  rewrite (forallb_chars is_base32) by (done || intros v Hv; apply (base32_char_facts v Hv)).
  assert (Hnn : nonempty (JS (map base32_char q)) = true) by (apply nonempty_true; destruct q; done).
  rewrite Hnn. simpl negb. cbv iota.
  destruct (decode_loop_spec q 0 0 [] Hq) as (o & b' & v' & Hd & Ho & Hb' & Hbits'); [lia |].
  change 0 with (Z.of_nat 0) at 1. rewrite Hd. cbn [Datatypes.app]. f_equal. cbn [bits Datatypes.app] in Hbits'. rewrite Hbits in Hbits'.
  pose proof (f_equal length Hbits') as Hlen. rewrite !length_app, !bits_of_length, bits_length, length_replicate in Hlen.
  assert (Hol : length o = length bytes) by lia.
  apply app_inj_1 in Hbits' as [Heq _]; [| rewrite !bits_of_length; lia].
  apply (bits_of_inj 8); [exact Ho | exact Hb | done | done].
Qed.

Lemma drop_while_end_app_all {A} (f : A → bool) l1 l2 :
  (∀ x, x ∈ l2 → f x = true) → drop_while_end f (l1 ++ l2) = drop_while_end f l1.
Proof.
  intros H. unfold drop_while_end. rewrite rev_app_distr, drop_while_app_all; [done |].
  intros x Hx. apply H. by apply list_elem_of_In, in_rev, list_elem_of_In.
Qed.

(** Blanks around the symbols and padding after them are ignored. *)
Lemma base32Decode_padded q k :
  Forall is_quintet q → q ≠ [] →
  base32Decode (" " +++ JS (map base32_char q) +++ repeat_str k "=" +++ " ") = base32Decode (JS (map base32_char q)).
Proof.
  intros Hq Hne. set (l := map base32_char q).
  assert (Hsp : ∀ x, x ∈ l ++ replicate k 61%N → is_space x = false).
  { intros x [(v & -> & Hv)%list_elem_of_fmap | [-> _]%elem_of_replicate]%elem_of_app; [| done].
    rewrite Forall_forall in Hq. apply (base32_char_facts v (Hq v Hv)). }
  assert (Hr : ∀ m, concat (replicate m [61%N]) = replicate m 61%N) by (induction m as [|m IH]; [done | simpl; by rewrite IH]).
  assert (Ht : trim (" " +++ JS l +++ repeat_str k "=" +++ " ") = JS (l ++ replicate k 61%N)).
  { unfold trim, repeat_str, app. change (units " ") with [32%N]. change (units "=") with [61%N]. cbn [units Datatypes.app]. rewrite Hr.
    cbn [drop_while]. change (is_space 32) with true. cbv iota. rewrite (assoc_L (++)). f_equal.
    rewrite drop_while_head.
    - rewrite drop_while_end_app_all by (intros x ->%list_elem_of_singleton; done). by apply drop_while_end_none.
    - intros x r E. assert (Hl : l ≠ []) by (unfold l; destruct q; done). destruct l as [|y l']; [done |].
      injection E as <- _. apply Hsp. left. }
  assert (Ht' : trim (JS l) = JS l).
  { apply trim_id, forallb_true. intros x Hx. rewrite Hsp; [done |]. apply elem_of_app. by left. }
  unfold base32Decode. rewrite Ht, Ht'.
  assert (Hu : ∀ m, upper (JS (l ++ replicate m 61%N)) = JS (l ++ replicate m 61%N)).
  { intros m. unfold upper. cbn [units]. rewrite flat_map_app. unfold l. rewrite map_upper by done. do 2 f_equal.
    induction m as [|m IH]; [done |]. cbn [replicate flat_map]. by rewrite IH. }
  pose proof (Hu 0%nat) as Hu0. cbn [replicate] in Hu0. rewrite app_nil_r in Hu0. rewrite Hu, Hu0. cbn [units].
  by rewrite drop_while_end_app_all by (intros x [-> _]%elem_of_replicate; done).
Qed.

Lemma base32_length bytes q z :
  bits_of 5 q = bits_of 8 bytes ++ replicate z false → (5 * length q = 8 * length bytes + z)%nat.
Proof. intros H. apply (f_equal length) in H. rewrite length_app, !bits_of_length, length_replicate in H. done. Qed.

(** *** Codes are six digits *)

Lemma truncate_code_digits signature :
  all_units is_digit (truncate_code signature) = true ∧ length (units (truncate_code signature)) = 6%nat.
Proof.
  unfold truncate_code. cbv zeta. set (n := _ mod 10 ^ Z.of_nat TOTP_DIGITS).
  assert (Hn : 0 ≤ n < 10 ^ Z.of_nat 6) by (apply Z.mod_pos_bound; vm_compute; reflexivity).
  clearbody n. unfold pad_start0, dec_Z, all_units. rewrite (proj2 (Z.ltb_ge n 0)) by lia. cbn [units].
  split.
  - rewrite forallb_app, (proj1 (proj2 (dec_nat_spec n ltac:(lia)))), andb_true_r.
    generalize (TOTP_DIGITS - length (dec_nat n))%nat as k. induction k as [|k IH]; [done | exact IH].
  - rewrite length_app, length_replicate. unfold TOTP_DIGITS.
    pose proof (dec_digits_length (S (Z.to_nat (Z.log2 n))) n 6 ltac:(lia) Hn) as Hl. unfold dec_nat in *. lia.
Qed.

Lemma digits_ascii s : all_units is_digit s = true → forallb (λ u, (u <? 128)%N) (units s) = true.
Proof.
  unfold all_units. rewrite !forallb_true. intros H u Hu. specialize (H u Hu). apply is_digit_spec in H. apply N.ltb_lt. lia.
Qed.

(** On digits the byte comparison decides equality of the texts. *)
Lemma constantTimeEqual_digits s t :
  all_units is_digit s = true → all_units is_digit t = true → constantTimeEqual s t = bool_decide (s = t).
Proof.
  intros Hs Ht. unfold constantTimeEqual. rewrite !utf8_ascii by (by apply digits_ascii).
  apply eq_true_iff_eq. rewrite ct_equal_spec, bool_decide_eq_true. destruct s as [s], t as [t]. cbn [units].
  split; [intros ->%map_of_N_inj; done | congruence].
Qed.

Lemma constantTimeStringEqual_spec a b : constantTimeStringEqual a b = true ↔ a = b.
Proof.
  unfold constantTimeStringEqual. rewrite ct_equal_spec. destruct a as [a], b as [b]. cbn [units].
  split; [intros ->%map_of_N_inj; done | congruence].
Qed.

Section CodeFacts.
Context (hmacSha1 : list Z → list Z → list Z).

Lemma codeForStep_digits secret step code :
  codeForStep hmacSha1 secret step = Some code → all_units is_digit code = true ∧ slen code = 6.
Proof.
  unfold codeForStep. destruct (base32Decode secret) as [key|]; [| done]. intros [= <-].
  destruct (truncate_code_digits (hmacSha1 key (counterBytes step))) as [H1 H2]. split; [done |]. unfold slen. by rewrite H2.
Qed.

Lemma verify_loop_spec secret code cur offsets key :
  base32Decode secret = Some key → all_units is_digit code = true →
  verify_loop hmacSha1 secret code cur offsets
  = Some (head (List.filter (λ step, (0 <=? step) && bool_decide (codeForStep hmacSha1 secret step = Some code))
                 (map (λ o, cur + o) offsets))).
Proof.
  intros Hk Hc. induction offsets as [|o r IH]; [done |]. cbn [verify_loop map List.filter].
  destruct (0 <=? cur + o) eqn:E; cbn [andb]; [| done].
  destruct (codeForStep hmacSha1 secret (cur + o)) as [expected|] eqn:Ec.
  2:{ unfold codeForStep in Ec. by rewrite Hk in Ec. }
  destruct (codeForStep_digits _ _ _ Ec) as [Hd _]. rewrite constantTimeEqual_digits by done.
  destruct (decide (expected = code)) as [-> | Hne]; [by rewrite !bool_decide_true by done |].
  rewrite !bool_decide_false by congruence. exact IH.
Qed.
End CodeFacts.

(** ** Properties *)

(** Base32 round trip: every non-empty byte sequence decodes from its own
    encoding, also when the text is padded with ['='] and surrounded by blanks, although
    the encoder and decoder accumulate in a wrapping 32-bit integer; the
    encoding uses the alphabet only and has the least length that holds the bits. *)
Theorem base32_roundtrip bytes k :
  Forall is_byte bytes → bytes ≠ [] →
  base32Decode (base32Encode bytes) = Some bytes
  ∧ base32Decode (" " +++ base32Encode bytes +++ repeat_str k "=" +++ " ") = Some bytes
  ∧ all_units is_base32 (base32Encode bytes) = true
  ∧ 8 * Z.of_nat (length bytes) ≤ 5 * slen (base32Encode bytes) < 8 * Z.of_nat (length bytes) + 5.
Proof.
  intros Hb Hne. destruct (base32Encode_quintets bytes Hb) as (q & z & -> & Hq & Hz & Hbits).
  pose proof (base32_length _ _ _ Hbits) as Hlen.
  assert (Hqne : q ≠ []) by (destruct q, bytes; simpl in *; (done || lia)).
  assert (Hd : base32Decode (JS (map base32_char q)) = Some bytes) by (by apply (decode_quintets q bytes z)).
  split; [done |]. split; [| split].
  - rewrite <- Hd. by apply base32Decode_padded.
  - apply forallb_chars; [done |]. intros v Hv. apply (base32_char_facts v Hv).
  - unfold slen. cbn [units]. rewrite length_map. lia.
Qed.

Lemma base32_roundtrip_witness :
  base32Encode [222; 173; 190; 239; 255] = "32W35377" ∧ base32Decode (base32Encode [222; 173; 190; 239; 255]) = Some [222; 173; 190; 239; 255].
Proof.
  split; [vm_compute; reflexivity |].
  apply (base32_roundtrip [222; 173; 190; 239; 255] 3); [by apply (bool_decide_eq_true_1 _) | done].
Defined.

(** C36: For a secret that decodes, [verifyTotpCode] accepts exactly the six-digit
    codes of the current step, the previous and the next one, never of a negative step;
    it reports the step that matched, the current one first, then the
    previous; and every code generated within one step of the verification time
    is accepted.  A secret that does not decode is an error for a well-formed code. *)
Theorem verifyTotpCode_window hmacSha1 secret code now key :
  base32Decode secret = Some key →
  (∀ step, verifyTotpCode hmacSha1 secret code now = Some (Some step) →
     0 ≤ step ∧ Z.abs (step - step_of now) ≤ 1 ∧ codeForStep hmacSha1 secret step = Some code
     ∧ (step ≠ step_of now → 0 ≤ step_of now → codeForStep hmacSha1 secret (step_of now) ≠ Some code)
     ∧ (step = step_of now + 1 → 1 ≤ step_of now → codeForStep hmacSha1 secret (step_of now - 1) ≠ Some code))
  ∧ (∀ t, generateTotpCode hmacSha1 secret t = Some code → 0 ≤ t → Z.abs (step_of t - step_of now) ≤ 1 →
     ∃ step, verifyTotpCode hmacSha1 secret code now = Some (Some step))
  ∧ (∀ other, base32Decode other = None → 0 ≤ now → all_units is_digit code = true → slen code = 6 →
     verifyTotpCode hmacSha1 other code now = None).
Proof.
  intros Hk. split; [| split].
  - intros step. unfold verifyTotpCode. destruct (all_units is_digit code) eqn:Hd; [| done].
    destruct (slen code =? 6); [| done]. cbn [andb negb]. rewrite (verify_loop_spec _ _ _ _ _ key) by done.
    cbn [map List.filter]. rewrite Z.add_0_r.
    destruct ((0 <=? step_of now) && _) eqn:E0; [intros [= <-]; apply andb_true_iff in E0 as [H0 H0'];
      apply bool_decide_eq_true in H0'; zify_bool; repeat split; (done || lia) |].
    assert (Hn0 : 0 ≤ step_of now → codeForStep hmacSha1 secret (step_of now) ≠ Some code).
    { intros H0 Hc. by rewrite (proj2 (Z.leb_le _ _) H0), bool_decide_true in E0. }
    destruct ((0 <=? step_of now + -1) && _) eqn:E1; [intros [= <-]; apply andb_true_iff in E1 as [H1 H1'];
      apply bool_decide_eq_true in H1'; zify_bool; repeat split; (done || lia || auto) |].
    assert (Hn1 : 1 ≤ step_of now → codeForStep hmacSha1 secret (step_of now - 1) ≠ Some code).
    { intros H0 Hc. replace (step_of now + -1) with (step_of now - 1) in E1 by lia.
      by rewrite (proj2 (Z.leb_le 0 (step_of now - 1))), bool_decide_true in E1 by (done || lia). }
    destruct ((0 <=? step_of now + 1) && _) eqn:E2; [| done]. intros [= <-]. apply andb_true_iff in E2 as [H2 H2'].
    apply bool_decide_eq_true in H2'. zify_bool. repeat split; (done || lia || auto).
  - intros t Hg Ht Habs. unfold generateTotpCode in Hg. destruct (codeForStep_digits _ _ _ _ Hg) as [Hd Hl].
    unfold verifyTotpCode. rewrite Hd, Hl. cbn [andb negb Z.eqb Pos.eqb]. rewrite (verify_loop_spec _ _ _ _ _ key) by done.
    assert (Hin : step_of t ∈ List.filter (λ step, (0 <=? step) && bool_decide (codeForStep hmacSha1 secret step = Some code))
                     (map (λ o, step_of now + o) [0; -1; 1])).
    { apply list_elem_of_In, filter_In. split.
      - cbn [map]. assert (Hs : step_of t = step_of now + 0 ∨ step_of t = step_of now + -1 ∨ step_of t = step_of now + 1) by lia.
        destruct Hs as [-> | [-> | ->]]; simpl; auto.
      - rewrite bool_decide_true by done. rewrite andb_true_r. apply Z.leb_le. unfold step_of. apply Z.div_pos; [done | vm_compute; reflexivity]. }
    destruct (List.filter _ _) as [|x r]; [by apply not_elem_of_nil in Hin |]. by exists x.
  - intros other Ho Hnow Hd Hl. unfold verifyTotpCode. rewrite Hd, Hl. cbn [andb negb Z.eqb Pos.eqb verify_loop].
    rewrite Z.add_0_r. assert (H0 : 0 ≤ step_of now) by (apply Z.div_pos; [done | vm_compute; reflexivity]).
    rewrite (proj2 (Z.leb_le _ _) H0). unfold codeForStep. by rewrite Ho.
Qed.

Definition sample_hmac (key message : list Z) : list Z := map (λ x, Z.land (x + 3 * fold_left Z.add message 0) 255) (take 20 (key ++ message)).
Lemma verifyTotpCode_window_witness :
  verifyTotpCode sample_hmac "GEZDGNBVGY3TQOJQGEZDGNBVGY3TQOJQ" "000000" 1000 = Some None
  ∧ ∃ step, verifyTotpCode sample_hmac "GEZDGNBVGY3TQOJQGEZDGNBVGY3TQOJQ"
    (default "" (generateTotpCode sample_hmac "GEZDGNBVGY3TQOJQGEZDGNBVGY3TQOJQ" 59000)) 89000 = Some (Some step).
Proof.
  split; [vm_compute; reflexivity |].
  destruct (verifyTotpCode_window sample_hmac "GEZDGNBVGY3TQOJQGEZDGNBVGY3TQOJQ"
    (default "" (generateTotpCode sample_hmac "GEZDGNBVGY3TQOJQGEZDGNBVGY3TQOJQ" 59000)) 89000
    (utf8 "12345678901234567890")) as (_ & H & _); [vm_compute; reflexivity |].
  apply (H 59000); [vm_compute; reflexivity | lia | vm_compute; discriminate].
Defined.
