(* ===== verification/Admin.v ===== *)
(** * Administrator access: [auth/jwt.ts], [auth/mfa-token.ts],
    [auth/admin-session.ts] and the [/api/admin/*] middleware of [index.ts]

    Signing and verifying a JSON web token is the library's ([hono/jwt]); what
    the code relies on is the class [JwtLaws].  Rows of the user table come from
    a lookup function; cookies, headers and the hit of the edge cache are
    arguments, and what the middleware writes is part of its result. *)

From S2P Require Import Prelude JsStr JsNum JsVal JsBytes Totp.
#[local] Open Scope Z_scope.

(** ** The token library *)

Class Jwt := {
  jwt_sign : fields → jstr → jstr;
  (** [verify(token, secret, 'HS256')] at a time in seconds, [None] when it throws *)
  jwt_verify : Z → jstr → jstr → option jsval;
}.
(** Claims a token can carry unchanged through JSON: strings and safe integers. *)
Definition plain_claim (v : jsval) : bool :=
  match v with JStr _ => true | JNum a => is_safe_integer a && bool_decide (option_map of_Z (num_Z a) = Some a) | _ => false end.
Definition claim_time (p : fields) (k : jstr) : Z := default 0 (num_Z (to_num (fld p k))).
(** The documented behaviour of the library: a token verifies under the secret
    that signed it between its [iat] and [exp] claims, and the payload of a
    verified token is the one that was signed. *)
Class JwtLaws `{Jwt} := {
  jwt_verify_sign p secret now :
    forallb (λ q, plain_claim q.2) p = true → claim_time p "iat" ≤ now < claim_time p "exp" →
    jwt_verify now (jwt_sign p secret) secret = Some (JObj p);
  jwt_payload p secret secret' now v :
    forallb (λ q, plain_claim q.2) p = true → jwt_verify now (jwt_sign p secret) secret' = Some v →
    v = JObj p ∧ now < claim_time p "exp";
}.

(** ** Session tokens: [auth/jwt.ts] *)

(** @worker/src/auth/jwt.ts:3-3 MIN_JWT_SECRET_BYTES *)
Definition MIN_JWT_SECRET_BYTES : Z := 32.
(** @worker/src/auth/jwt.ts:12-14 JwtEnv -- the configured secret *)
Definition env := option jstr.

(** @worker/src/auth/jwt.ts:22-31 requireJwtSecret -- [Err tt] for
    [AuthConfigurationError] *)
Definition requireJwtSecret (e : env) : result unit jstr :=
  let secret := match e with Some s => trim s | None => "" end in
  if byte_length secret <? MIN_JWT_SECRET_BYTES then Err tt else Ok secret.

(** @worker/src/auth/jwt.ts:16-20 AdminJwtPayload *)
Record identity := { userId : jstr; id_username : jstr; sessionVersion : Z }.
#[global] Instance identity_eq_dec : EqDecision identity.
Proof. solve_decision. Defined.

Definition JInt (z : Z) : jsval := JNum (of_Z z).
Definition identity_claims (i : identity) : fields :=
  [("userId", JStr (userId i)); ("username", JStr (id_username i)); ("sessionVersion", JInt (sessionVersion i))].
(** The checks every verifier makes of the identity claims. *)
Definition read_identity (p : fields) : option identity :=
  match fld p "userId", fld p "username", fld p "sessionVersion" with
  | JStr u, JStr n, JNum v =>
    match (if is_safe_integer v then num_Z v else None) with
    | Some z => if z <? 1 then None else Some {| userId := u; id_username := n; sessionVersion := z |}
    | None => None
    end
  | _, _, _ => None
  end.

(** @worker/src/auth/jwt.ts:39-48 generateToken (payload) *)
Definition session_payload (i : identity) (now : Z) : fields :=
  [("kind", JStr "cf-monitor-session"); ("purpose", JStr "admin-session")] ++ identity_claims i
  ++ [("iat", JInt now); ("exp", JInt (now + 7 * 24 * 60 * 60))].

Section Tokens.
Context `{Jwt}.

(** @worker/src/auth/jwt.ts:33-51 generateToken -- [nowMs] is the clock *)
Definition generateToken (i : identity) (e : env) (nowMs : Z) : result unit jstr :=
  let* secret := requireJwtSecret e in Ok (jwt_sign (session_payload i (nowMs / 1000)) secret).

(** What [verifyAdminToken] throws. *)
Inductive token_error := Configuration | Invalid_token.
(** @worker/src/auth/jwt.ts:53-74 verifyAdminToken *)
Definition verifyAdminToken (token : jstr) (e : env) (nowMs : Z) : result token_error (option identity) :=
  match requireJwtSecret e with
  | Err _ => Err Configuration
  | Ok secret =>
    match jwt_verify (nowMs / 1000) token secret with
    | None => Err Invalid_token
    | Some payload =>
      let p := as_object payload in
      Ok (if negb (truthy payload) || negb (is_str (fld p "kind") "cf-monitor-session")
             || negb (is_str (fld p "purpose") "admin-session") then None else read_identity p)
    end
  end.

(** ** MFA tokens: [auth/mfa-token.ts] *)

(** @worker/src/auth/mfa-token.ts:4-4 MFA_TOKEN_TTL_SECONDS *)
Definition MFA_TOKEN_TTL_SECONDS : Z := 5 * 60.
(** @worker/src/auth/mfa-token.ts:7-7 MfaTokenPurpose *)
Inductive purpose := mfa_login | mfa_step_up.
Definition purpose_text (p : purpose) : jstr := match p with mfa_login => "mfa-login" | mfa_step_up => "mfa-step-up" end.

(** @worker/src/auth/mfa-token.ts:25-31 generateMfaToken (payload) *)
Definition mfa_payload (i : identity) (p : purpose) (jti : jstr) (now : Z) : fields :=
  identity_claims i ++ [("purpose", JStr (purpose_text p)); ("kind", JStr "cf-monitor-mfa"); ("jti", JStr jti);
                        ("iat", JInt now); ("exp", JInt (now + MFA_TOKEN_TTL_SECONDS))].
(** @worker/src/auth/mfa-token.ts:19-32 generateMfaToken *)
Definition generateMfaToken (i : identity) (p : purpose) (e : env) (jti : jstr) (nowMs : Z) : result unit jstr :=
  let* secret := requireJwtSecret e in Ok (jwt_sign (mfa_payload i p jti (nowMs / 1000)) secret).
(** @worker/src/auth/mfa-token.ts:34-62 verifyMfaToken -- the purpose of the
    result is the one expected *)
Definition verifyMfaToken (token : jstr) (expectedPurpose : purpose) (e : env) (nowMs : Z) : result unit (option identity) :=
  let* secret := requireJwtSecret e in
  match jwt_verify (nowMs / 1000) token secret with
  | None => Ok None
  | Some payload =>
    let p := as_object payload in
    Ok (if negb (is_str (fld p "kind") "cf-monitor-mfa") || negb (is_str (fld p "purpose") (purpose_text expectedPurpose))
        then None else read_identity p)
  end.
(** @worker/src/auth/mfa-token.ts:73-80 generateMfaSetupToken (payload) *)
Definition setup_payload (i : identity) (encryptedSecret jti : jstr) (now : Z) : fields :=
  identity_claims i ++ [("encryptedSecret", JStr encryptedSecret); ("kind", JStr "cf-monitor-mfa");
                        ("purpose", JStr "mfa-setup"); ("jti", JStr jti);
                        ("iat", JInt now); ("exp", JInt (now + MFA_TOKEN_TTL_SECONDS))].
(** @worker/src/auth/mfa-token.ts:67-81 generateMfaSetupToken *)
Definition generateMfaSetupToken (i : identity) (encryptedSecret : jstr) (e : env) (jti : jstr) (nowMs : Z) : result unit jstr :=
  let* secret := requireJwtSecret e in Ok (jwt_sign (setup_payload i encryptedSecret jti (nowMs / 1000)) secret).
(** @worker/src/auth/mfa-token.ts:83-112 verifyMfaSetupToken *)
Definition verifyMfaSetupToken (token : jstr) (e : env) (nowMs : Z) : result unit (option (identity * jstr)) :=
  let* secret := requireJwtSecret e in
  match jwt_verify (nowMs / 1000) token secret with
  | None => Ok None
  | Some payload =>
    let p := as_object payload in
    Ok (if negb (is_str (fld p "kind") "cf-monitor-mfa") || negb (is_str (fld p "purpose") "mfa-setup") then None
        else match read_identity p, fld p "encryptedSecret" with
             | Some i, JStr s => if negb (nonempty s) || (4096 <? slen s) then None else Some (i, s)
             | _, _ => None
             end)
  end.
End Tokens.

(** ** Session validation: [auth/admin-session.ts] *)

(** The columns of a user row the access checks read. *)
Record user := { uuid : jstr; username : jstr; session_version : Z; totp_enabled_at : option jstr; totp_secret_enc : option jstr }.
(** @worker/src/auth/admin-session.ts:7-7 AdminSessionUser *)
Record session_user := { su_uuid : jstr; su_username : jstr; su_version : Z }.
Definition session_cache := list (jstr * (session_user * Z)).
(** @worker/src/auth/admin-session.ts:5-5 ADMIN_SESSION_CACHE_MS *)
Definition ADMIN_SESSION_CACHE_MS : Z := 10000.

(** @worker/src/auth/admin-session.ts:15-17 cacheKey *)
Definition cacheKey (i : identity) : jstr := userId i +++ ":" +++ id_username i +++ ":" +++ dec_Z (sessionVersion i).
(** @worker/src/auth/admin-session.ts:19-31 invalidateAdminSessionCache -- of the
    cache; the requests in flight are not part of the state *)
Definition invalidateAdminSessionCache (userId : option jstr) (cache : session_cache) : session_cache :=
  match userId with
  | Some u => if nonempty u then List.filter (λ p, negb (starts_with (u +++ ":") p.1)) cache else []
  | None => []
  end.

Section Sessions.
(** [getUserByUuid], and the remote procedure of the [supabase-api] provider when
    the database is of that provider. *)
Context (user_by_uuid : jstr → option user) (rpc : option (jstr → Z → option session_user)).

(** @worker/src/auth/admin-session.ts:51-82 readAdminSession *)
Definition readAdminSession (i : identity) (key : jstr) (cacheResult : bool) (now : Z) (cache : session_cache)
  : option session_user * session_cache :=
  let found :=
    match rpc with
    | Some validate =>
      match validate (userId i) (sessionVersion i) with
      | Some u => if jeq (su_username u) (id_username i) then Some u else None
      | None => None
      end
    | None =>
      match user_by_uuid (userId i) with
      | None => None
      | Some u =>
        if negb (jeq (username u) (id_username i)) then None
        else if negb (session_version u =? sessionVersion i) then None
        else Some {| su_uuid := uuid u; su_username := username u; su_version := session_version u |}
      end
    end in
  (found, match found with
          | Some u => if cacheResult then set_field key (u, now + ADMIN_SESSION_CACHE_MS) cache else cache
          | None => cache
          end).
(** @worker/src/auth/admin-session.ts:33-49 validateAdminSession -- joining a
    request in flight gives the answer of that request *)
Definition validateAdminSession (i : identity) (fresh : bool) (now : Z) (cache : session_cache)
  : option session_user * session_cache :=
  let key := cacheKey i in
  if fresh then readAdminSession i key false now cache
  else match lookup_field key cache with
       | Some (u, expiresAt) => if now <? expiresAt then (Some u, cache) else readAdminSession i key true now cache
       | None => readAdminSession i key true now cache
       end.
End Sessions.

(** ** The audit throttle of rejected writes: [index.ts] *)

(** @worker/src/index.ts:80-81 CSRF_REJECTION_AUDIT_THROTTLE_MS, MAX_ENTRIES *)
Definition CSRF_REJECTION_AUDIT_THROTTLE_MS : Z := 60000.
Definition CSRF_REJECTION_AUDIT_THROTTLE_MAX_ENTRIES : nat := 512.
(** A JavaScript [Map] from keys to expiry times, in insertion order. *)
Definition throttle := list (jstr * Z).
(** @worker/src/index.ts:221-223 csrfRejectionAuditKey *)
Definition csrfRejectionAuditKey (username ip path : jstr) : jstr := username +++ ":" +++ ip +++ ":" +++ path.
(** @worker/src/index.ts:240-247 auditCsrfRejection (eviction) *)
Fixpoint evict (nowMs : Z) (scan : throttle) (m : throttle) : throttle :=
  match scan with
  | [] => m
  | (k, expiresAt) :: r =>
    let m := if (expiresAt <=? nowMs) || (CSRF_REJECTION_AUDIT_THROTTLE_MAX_ENTRIES <=? length m)%nat then del_field k m else m in
    if (length m <? CSRF_REJECTION_AUDIT_THROTTLE_MAX_ENTRIES)%nat then m else evict nowMs r m
  end.
(** @worker/src/index.ts:229-260 auditCsrfRejection -- whether a row is written *)
Definition auditCsrfRejection (username ip path : jstr) (nowMs : Z) (m : throttle) : bool * throttle :=
  let key := csrfRejectionAuditKey username ip path in
  if match lookup_field key m with Some expiresAt => nowMs <? expiresAt | None => false end then (false, m)
  else
    let m := if (CSRF_REJECTION_AUDIT_THROTTLE_MAX_ENTRIES <=? length m)%nat then evict nowMs m m else m in
    (true, set_field key (nowMs + CSRF_REJECTION_AUDIT_THROTTLE_MS) m).

(** ** The middleware: [index.ts] *)

(** What the middleware reads of a request. *)
Record request := {
  rq_method : jstr; rq_path : jstr; rq_url_path : jstr; rq_ip : jstr;
  rq_session : option jstr; rq_csrf_cookie : option jstr; rq_csrf_header : option jstr; rq_step_up : option jstr;
}.
Inductive outcome := Reject (status : Z) | Step_up_required | Next (userId username : jstr).

(** @worker/src/index.ts:189-191 isSafeMethod *)
Definition isSafeMethod (method : jstr) : bool := mem method ["GET"; "HEAD"; "OPTIONS"].

Section Middleware.
Context `{Jwt}.
Context (user_by_uuid : jstr → option user) (rpc : option (jstr → Z → option session_user)).

(** A truthy column. *)
Definition present (v : option jstr) : bool := match v with Some s => nonempty s | None => false end.

(** @worker/src/index.ts:262-298 requireMfaStepUp -- [None] lets the request pass *)
Definition requireMfaStepUp (e : env) (nowMs : Z) (rq : request) (payload : identity) : option outcome :=
  if negb (isMfaStepUpProtectedRequest (rq_method rq) (rq_path rq)) then None
  else match user_by_uuid (userId payload) with
  | None => Some (Reject 401)
  | Some u =>
    if negb (jeq (username u) (id_username payload)) || negb (session_version u =? sessionVersion payload) then Some (Reject 401)
    else if negb (present (totp_enabled_at u)) || negb (present (totp_secret_enc u)) then None
    else match (if present (rq_step_up rq) then verifyMfaToken (default "" (rq_step_up rq)) mfa_step_up e nowMs else Ok None) with
    | Err _ => Some (Reject 500)
    | Ok stepUp =>
      if match stepUp with
         | None => true
         | Some s => negb (jeq (userId s) (uuid u)) || negb (jeq (id_username s) (username u))
                     || negb (sessionVersion s =? session_version u)
         end then Some Step_up_required else None
    end
  end.

(** @worker/src/index.ts:330-383 app.use('/api/admin/*') -- with the audit
    throttle and the keys put in the edge cache; a safe request that hits the edge
    cache is passed on without reading the database *)
Definition admin_gate (e : env) (nowMs : Z) (edge_hit : jstr → Z → bool) (rq : request) (m : throttle)
  : outcome * throttle * list (jstr * Z) :=
  match rq_session rq with
  | None => (Reject 401, m, [])
  | Some token =>
    if negb (nonempty token) then (Reject 401, m, [])
    else match verifyAdminToken token e nowMs with
    | Err Configuration => (Reject 500, m, [])
    | Err Invalid_token => (Reject 401, m, [])
    | Ok None => (Reject 401, m, [])
    | Ok (Some payload) =>
      let safeMethod := isSafeMethod (rq_method rq) in
      if safeMethod && edge_hit (userId payload) (sessionVersion payload)
      then (Next (userId payload) (id_username payload), m, [])
      else match (validateAdminSession user_by_uuid rpc payload true nowMs []).1 with
      | None => (Reject 401, m, [])
      | Some sessionUser =>
        let puts := if safeMethod then [(userId payload, sessionVersion payload)] else [] in
        if negb safeMethod && negb (verifyAdminCsrfToken (rq_csrf_cookie rq) (rq_csrf_header rq))
        then (Reject 403, (auditCsrfRejection (su_username sessionUser) (rq_ip rq) (rq_url_path rq) nowMs m).2, puts)
        else
          match (if safeMethod then None else requireMfaStepUp e nowMs rq payload) with
          | Some r => (r, m, puts)
          | None => (Next (su_uuid sessionUser) (su_username sessionUser), m, puts)
          end
      end
    end
  end.
End Middleware.

(** ** Facts *)

(** What the server issues, and the token of it. *)
Inductive issued := Session (i : identity) | Mfa (i : identity) (p : purpose) (jti : jstr) | Setup (i : identity) (s jti : jstr).
Definition issued_identity (k : issued) : identity := match k with Session i | Mfa i _ _ | Setup i _ _ => i end.
Definition payload_of (k : issued) (now : Z) : fields :=
  match k with
  | Session i => session_payload i now
  | Mfa i p jti => mfa_payload i p jti now
  | Setup i s jti => setup_payload i s jti now
  end.
Definition lifetime (k : issued) : Z := match k with Session _ => 7 * 24 * 60 * 60 | _ => MFA_TOKEN_TTL_SECONDS end.
Definition issue `{Jwt} (k : issued) (e : env) (nowMs : Z) : result unit jstr :=
  match k with
  | Session i => generateToken i e nowMs
  | Mfa i p jti => generateMfaToken i p e jti nowMs
  | Setup i s jti => generateMfaSetupToken i s e jti nowMs
  end.
Definition valid_identity (i : identity) : Prop := 1 ≤ sessionVersion i ≤ max_safe.

Lemma is_safe_JInt z : Z.abs z ≤ max_safe → plain_claim (JInt z) = true.
Proof.
  intros Hz. unfold plain_claim, JInt, is_safe_integer. rewrite num_Z_of_Z. cbn [option_map].
  rewrite bool_decide_true by done. rewrite andb_true_r. by apply Z.leb_le.
Qed.

Lemma payload_plain k now :
  valid_identity (issued_identity k) → 0 ≤ now ≤ max_safe - 604800 →
  forallb (λ q, plain_claim q.2) (payload_of k now) = true.
Proof.
  intros Hi Hn. unfold valid_identity in Hi. unfold max_safe in *.
  destruct k as [i|i p jti|i s jti]; unfold payload_of, session_payload, mfa_payload, setup_payload, identity_claims, MFA_TOKEN_TTL_SECONDS;
    cbn [issued_identity] in Hi; cbn [Datatypes.app forallb snd];
    rewrite !is_safe_JInt by (unfold max_safe; lia); done.
Qed.

Lemma read_identity_fields p i :
  valid_identity i → fld p "userId" = JStr (userId i) → fld p "username" = JStr (id_username i) →
  fld p "sessionVersion" = JInt (sessionVersion i) → read_identity p = Some i.
Proof.
  intros Hv Hu Hn Hs. unfold read_identity. rewrite Hu, Hn, Hs. unfold JInt, is_safe_integer. rewrite num_Z_of_Z.
  unfold valid_identity in Hv. rewrite (proj2 (Z.leb_le _ _)) by lia. rewrite (proj2 (Z.ltb_ge _ _)) by lia.
  by destruct i.
Qed.

Lemma read_identity_payload k now : valid_identity (issued_identity k) → read_identity (payload_of k now) = Some (issued_identity k).
Proof. intros Hv. apply read_identity_fields; [done | ..]; by destruct k. Qed.

Lemma claim_times k now :
  claim_time (payload_of k now) "iat" = now ∧ claim_time (payload_of k now) "exp" = now + lifetime k.
Proof.
  assert (H : ∀ z, default 0 (num_Z (to_num (JInt z))) = z) by (intros z; unfold JInt, to_num; by rewrite num_Z_of_Z).
  unfold claim_time. destruct k as [i|i p jti|i s jti]; split; apply H.
Qed.

Section TokenFacts.
Context `{JwtLaws}.

Lemma issue_sign k e t tok :
  issue k e t = Ok tok → ∃ secret, requireJwtSecret e = Ok secret ∧ tok = jwt_sign (payload_of k (t / 1000)) secret.
Proof.
  destruct k; cbn [issue]; unfold generateToken, generateMfaToken, generateMfaSetupToken; intros (sec & Hs & [= <-])%rbind_Ok; by exists sec.
Qed.

(** An issued token verifies to its payload during its life, and to nothing else. *)
Lemma verify_issued k e t tok e' now secret v :
  valid_identity (issued_identity k) → 0 ≤ t / 1000 ≤ max_safe - 604800 → issue k e t = Ok tok →
  requireJwtSecret e' = Ok secret → jwt_verify (now / 1000) tok secret = Some v →
  v = JObj (payload_of k (t / 1000)) ∧ now / 1000 < t / 1000 + lifetime k.
Proof.
  intros Hv Ht (s & _ & ->)%issue_sign _ Hver. apply jwt_payload in Hver as [-> Hexp]; [| by apply payload_plain].
  by rewrite (proj2 (claim_times k (t / 1000))) in Hexp.
Qed.

Lemma verify_issued_same k e t tok now :
  valid_identity (issued_identity k) → 0 ≤ t / 1000 ≤ max_safe - 604800 → issue k e t = Ok tok →
  t / 1000 ≤ now / 1000 < t / 1000 + lifetime k →
  ∃ secret, requireJwtSecret e = Ok secret ∧ jwt_verify (now / 1000) tok secret = Some (JObj (payload_of k (t / 1000))).
Proof.
  intros Hv Ht (s & Hs & ->)%issue_sign Hnow. exists s. split; [done |]. apply jwt_verify_sign; [by apply payload_plain |].
  by rewrite (proj1 (claim_times _ _)), (proj2 (claim_times _ _)).
Qed.

Lemma admin_token_only k e t tok e' now i :
  valid_identity (issued_identity k) → 0 ≤ t / 1000 ≤ max_safe - 604800 → issue k e t = Ok tok →
  verifyAdminToken tok e' now = Ok (Some i) → k = Session i ∧ now / 1000 < t / 1000 + lifetime k.
Proof.
  intros Hv Ht Hi. unfold verifyAdminToken. destruct (requireJwtSecret e') as [secret|] eqn:Hs; [| done].
  destruct (jwt_verify (now / 1000) tok secret) as [v|] eqn:Hver; [| done].
  destruct (verify_issued k e t tok e' now secret v Hv Ht Hi Hs Hver) as [-> Hexp]. cbn [as_object].
  rewrite (read_identity_payload k (t / 1000) Hv). destruct k as [j|j p jti|j s jti]; intros [= <-]. done.
Qed.

Lemma mfa_token_only k e t tok e' now p i :
  valid_identity (issued_identity k) → 0 ≤ t / 1000 ≤ max_safe - 604800 → issue k e t = Ok tok →
  verifyMfaToken tok p e' now = Ok (Some i) → (∃ jti, k = Mfa i p jti) ∧ now / 1000 < t / 1000 + lifetime k.
Proof.
  intros Hv Ht Hi. unfold verifyMfaToken. destruct (requireJwtSecret e') as [secret|] eqn:Hs; [| done]. cbn [rbind].
  destruct (jwt_verify (now / 1000) tok secret) as [v|] eqn:Hver; [| done].
  destruct (verify_issued k e t tok e' now secret v Hv Ht Hi Hs Hver) as [-> Hexp]. cbn [as_object].
  rewrite (read_identity_payload k (t / 1000) Hv). destruct k as [j|j q jti|j s jti].
  - done.
  - change (fld (payload_of (Mfa j q jti) (t / 1000)) "purpose") with (JStr (purpose_text q)).
    destruct p, q; intros [= <-]; split; try done; by exists jti.
  - by destruct p.
Qed.

Lemma setup_token_only k e t tok e' now i s :
  valid_identity (issued_identity k) → 0 ≤ t / 1000 ≤ max_safe - 604800 → issue k e t = Ok tok →
  verifyMfaSetupToken tok e' now = Ok (Some (i, s)) → (∃ jti, k = Setup i s jti) ∧ now / 1000 < t / 1000 + lifetime k.
Proof.
  intros Hv Ht Hi. unfold verifyMfaSetupToken. destruct (requireJwtSecret e') as [secret|] eqn:Hs; [| done]. cbn [rbind].
  destruct (jwt_verify (now / 1000) tok secret) as [v|] eqn:Hver; [| done].
  destruct (verify_issued k e t tok e' now secret v Hv Ht Hi Hs Hver) as [-> Hexp]. cbn [as_object].
  rewrite (read_identity_payload k (t / 1000) Hv). destruct k as [j|j q jti|j s' jti].
  - done.
  - by destruct q.
  - change (fld (payload_of (Setup j s' jti) (t / 1000)) "encryptedSecret") with (JStr s').
    change (is_str (fld (payload_of (Setup j s' jti) (t / 1000)) "kind") "cf-monitor-mfa") with true.
    change (is_str (fld (payload_of (Setup j s' jti) (t / 1000)) "purpose") "mfa-setup") with true. cbn [negb orb].
    destruct (negb (nonempty s') || (4096 <? slen s')); [done |]. intros [= <- <-]. split; [by exists jti | done].
Qed.
End TokenFacts.

(** ** Properties *)

(** C21: A token the server issued is accepted by one verifier only, that of its
    own kind and purpose, with the identity it was issued for, and only within
    its lifetime (seven days for a session, five minutes for MFA tokens); and
    within that lifetime that verifier does accept it.  A session token never
    confirms a second factor, and an MFA challenge never opens a session. *)
Theorem token_kinds_separate `{JwtLaws} k e t tok now e' :
  valid_identity (issued_identity k) → 0 ≤ t / 1000 ≤ max_safe - 604800 → issue k e t = Ok tok →
  (∀ i, verifyAdminToken tok e' now = Ok (Some i) → k = Session i ∧ now / 1000 < t / 1000 + lifetime k)
  ∧ (∀ p i, verifyMfaToken tok p e' now = Ok (Some i) → (∃ jti, k = Mfa i p jti) ∧ now / 1000 < t / 1000 + lifetime k)
  ∧ (∀ i s, verifyMfaSetupToken tok e' now = Ok (Some (i, s)) → (∃ jti, k = Setup i s jti) ∧ now / 1000 < t / 1000 + lifetime k)
  ∧ (t / 1000 ≤ now / 1000 < t / 1000 + lifetime k →
     match k with
     | Session i => verifyAdminToken tok e now = Ok (Some i)
     | Mfa i p _ => verifyMfaToken tok p e now = Ok (Some i)
     | Setup i s _ => s ≠ "" → slen s ≤ 4096 → verifyMfaSetupToken tok e now = Ok (Some (i, s))
     end).
Proof.
  intros Hv Ht Hi. split; [| split; [| split]].
  - intros i Ha. by apply (admin_token_only k e t tok e' now i).
  - intros p i Ha. by apply (mfa_token_only k e t tok e' now p i).
  - intros i s Ha. by apply (setup_token_only k e t tok e' now i s).
  - intros Hnow. destruct (verify_issued_same k e t tok now Hv Ht Hi Hnow) as (secret & Hs & Hver).
    pose proof (read_identity_payload k (t / 1000) Hv) as Hr.
    destruct k as [i|i p jti|i s jti].
    + unfold verifyAdminToken. rewrite Hs, Hver. cbn [as_object]. by rewrite Hr.
    + unfold verifyMfaToken. rewrite Hs. cbn [rbind]. rewrite Hver. cbn [as_object]. rewrite Hr.
      change (fld (payload_of (Mfa i p jti) (t / 1000)) "purpose") with (JStr (purpose_text p)). cbn [is_str]. by rewrite jeq_refl.
    + intros Hne Hlen. unfold verifyMfaSetupToken. rewrite Hs. cbn [rbind]. rewrite Hver. cbn [as_object]. rewrite Hr.
      change (fld (payload_of (Setup i s jti) (t / 1000)) "encryptedSecret") with (JStr s). cbv iota.
      apply nonempty_true in Hne. by rewrite Hne, (proj2 (Z.ltb_ge _ _) Hlen).
Qed.

(** A concrete token library: the token is a number that codes the claims and the
    secret. *)
Module NumberedTokens.
Definition claim : Type := jstr * (jstr + Z).
Definition of_claim (c : claim) : jstr * jsval := (c.1, match c.2 with inl s => JStr s | inr z => JInt z end).
Definition to_claim (q : jstr * jsval) : claim :=
  (q.1, match q.2 with JStr s => inl s | JNum a => inr (default 0 (num_Z a)) | _ => inl "" end).
Definition sign (p : fields) (secret : jstr) : jstr := dec_Z (Zpos (encode (map to_claim p, secret))).
Definition verify (now : Z) (token secret : jstr) : option jsval :=
  match decode (Z.to_pos (digits_val 10 digit_val (units token))) with
  | Some (cs, s) =>
    let p := map of_claim cs in
    if bool_decide (s = secret) && (claim_time p "iat" <=? now) && (now <? claim_time p "exp") then Some (JObj p) else None
  | None => None
  end.

Lemma of_to_claims p : forallb (λ q, plain_claim q.2) p = true → map of_claim (map to_claim p) = p.
Proof.
  induction p as [|[k v] p IH]; [done |]. cbn [forallb map snd]. intros [Hv Hp]%andb_true_iff. rewrite (IH Hp). f_equal.
  unfold of_claim, to_claim. cbn [fst snd]. destruct v as [| | |a|s| |]; try done. unfold plain_claim in Hv.
  apply andb_true_iff in Hv as [_ Hv]. apply bool_decide_eq_true in Hv. destruct (num_Z a) as [z|]; [| done].
  cbn [option_map] in Hv. injection Hv as <-. done.
Qed.

Lemma decode_sign p secret :
  decode (Z.to_pos (digits_val 10 digit_val (units (sign p secret)))) = Some (map to_claim p, secret).
Proof.
  unfold sign, dec_Z. rewrite (proj2 (Z.ltb_ge _ 0)) by lia. cbn [units].
  rewrite (proj1 (dec_nat_spec (Z.pos (encode (map to_claim p, secret))) (Pos2Z.is_nonneg _))). cbn [Z.to_pos]. apply decode_encode.
Qed.
End NumberedTokens.

#[local] Instance numbered_jwt : Jwt := {| jwt_sign := NumberedTokens.sign; jwt_verify := NumberedTokens.verify |}.
#[local] Instance numbered_laws : JwtLaws.
Proof.
  split.
  - intros p secret now Hp Ht. cbn [jwt_verify jwt_sign numbered_jwt]. unfold NumberedTokens.verify.
    rewrite NumberedTokens.decode_sign, NumberedTokens.of_to_claims by done. cbv zeta.
    rewrite bool_decide_true, (proj2 (Z.leb_le _ _)), (proj2 (Z.ltb_lt _ _)) by (done || lia). done.
  - intros p secret secret' now v Hp. cbn [jwt_verify jwt_sign numbered_jwt]. unfold NumberedTokens.verify.
    rewrite NumberedTokens.decode_sign, NumberedTokens.of_to_claims by done. cbv zeta.
    destruct (bool_decide _ && _ && (now <? claim_time p "exp")) eqn:E; [| done]. intros [= <-].
    apply andb_true_iff in E as [_ E]. split; [done | by apply Z.ltb_lt].
Qed.

Definition sample_env : env := Some "0123456789abcdef0123456789abcdef".
Definition sample_identity : identity := {| userId := "u-1"; id_username := "admin"; sessionVersion := 3 |}.
Lemma token_kinds_separate_witness :
  ∃ tok, issue (Mfa sample_identity mfa_step_up "j") sample_env 1000000 = Ok tok
    ∧ verifyMfaToken tok mfa_step_up sample_env 1200000 = Ok (Some sample_identity)
    ∧ (∀ i, verifyAdminToken tok sample_env 1200000 ≠ Ok (Some i)).
Proof.
  assert (Hs : requireJwtSecret sample_env = Ok "0123456789abcdef0123456789abcdef") by (vm_compute; reflexivity).
  set (tok := jwt_sign (mfa_payload sample_identity mfa_step_up "j" (1000000 / 1000)) "0123456789abcdef0123456789abcdef").
  assert (Hi : issue (Mfa sample_identity mfa_step_up "j") sample_env 1000000 = Ok tok).
  { cbn [issue]. unfold generateMfaToken. rewrite Hs. reflexivity. }
  exists tok. split; [done |].
  destruct (token_kinds_separate (Mfa sample_identity mfa_step_up "j") sample_env 1000000 tok 1200000 sample_env) as (H1 & _ & _ & H2);
    [unfold valid_identity; cbn; unfold max_safe; lia | vm_compute; split; discriminate | done |].
  split; [apply H2; vm_compute; split; [discriminate | reflexivity] |]. intros i Ha. by apply H1 in Ha as [? _].
Defined.

(** What an unsafe request to a path must carry for the middleware to pass it on. *)
Definition may_write `{Jwt} (user_by_uuid : jstr → option user) (e : env) (nowMs : Z) (rq : request) (payload : identity) (u : user) : Prop :=
  (∃ token, rq_session rq = Some token ∧ token ≠ "" ∧ verifyAdminToken token e nowMs = Ok (Some payload))
  ∧ user_by_uuid (userId payload) = Some u ∧ username u = id_username payload ∧ session_version u = sessionVersion payload
  ∧ (∃ csrf, rq_csrf_cookie rq = Some csrf ∧ rq_csrf_header rq = Some csrf ∧ isValidCsrfToken (Some csrf) = Some csrf)
  ∧ (isMfaStepUpProtectedRequest (rq_method rq) (rq_path rq) = true → present (totp_enabled_at u) = true → present (totp_secret_enc u) = true →
     ∃ stepUp s, rq_step_up rq = Some stepUp ∧ stepUp ≠ "" ∧ verifyMfaToken stepUp mfa_step_up e nowMs = Ok (Some s)
       ∧ userId s = uuid u ∧ id_username s = username u ∧ sessionVersion s = session_version u).

Lemma verifyAdminCsrfToken_spec c h :
  verifyAdminCsrfToken c h = true ↔ ∃ csrf, c = Some csrf ∧ h = Some csrf ∧ isValidCsrfToken (Some csrf) = Some csrf.
Proof.
  assert (Hv : ∀ o t, isValidCsrfToken o = Some t → o = Some t).
  { intros [s|] t; [| done]. unfold isValidCsrfToken. destruct (all_units _ s && _ && _); [| done]. by intros [= ->]. }
  unfold verifyAdminCsrfToken, getAdminCsrfToken. split.
  - destruct (isValidCsrfToken c) as [t|] eqn:Hc; [| done]. destruct (isValidCsrfToken h) as [t'|] eqn:Hh; [| done].
    intros ->%constantTimeStringEqual_spec. exists t'. pose proof (Hv _ _ Hc) as ->. by rewrite (Hv _ _ Hh).
  - intros (csrf & -> & -> & ->). by apply constantTimeStringEqual_spec.
Qed.

Lemma present_spec o : present o = true ↔ ∃ s, o = Some s ∧ s ≠ "".
Proof.
  destruct o as [s|]; cbn [present]; [| naive_solver]. rewrite nonempty_true. naive_solver.
Qed.

Lemma requireMfaStepUp_passes `{Jwt} user_by_uuid e nowMs rq payload u :
  user_by_uuid (userId payload) = Some u → username u = id_username payload → session_version u = sessionVersion payload →
  requireMfaStepUp user_by_uuid e nowMs rq payload = None ↔
  (isMfaStepUpProtectedRequest (rq_method rq) (rq_path rq) = true → present (totp_enabled_at u) = true → present (totp_secret_enc u) = true →
     ∃ stepUp s, rq_step_up rq = Some stepUp ∧ stepUp ≠ "" ∧ verifyMfaToken stepUp mfa_step_up e nowMs = Ok (Some s)
       ∧ userId s = uuid u ∧ id_username s = username u ∧ sessionVersion s = session_version u).
Proof.
  intros Hu Hn Hv. unfold requireMfaStepUp. destruct (isMfaStepUpProtectedRequest _ _); [| by split]. cbn [negb].
  rewrite Hu, Hn, Hv, jeq_refl, Z.eqb_refl. cbn [negb orb].
  destruct (present (totp_enabled_at u)); [| by split]. destruct (present (totp_secret_enc u)); [| by split]. cbn [negb orb].
  destruct (present (rq_step_up rq)) eqn:Hp.
  - apply present_spec in Hp as (tok & Htok & Hne). rewrite Htok.
    change (default "" (Some tok)) with tok.
    destruct (verifyMfaToken tok mfa_step_up e nowMs) as [[s|]|] eqn:Hs.
    + destruct (jeq (userId s) (uuid u)) eqn:E1; [destruct (jeq (id_username s) (id_username payload)) eqn:E2;
        [destruct (sessionVersion s =? sessionVersion payload) eqn:E3 |] |]; cbn [negb orb];
        rewrite ?jeq_true, ?jeq_false in *; zify_bool.
      * split; [| done]. intros _ _ _ _. exists tok, s. done.
      * split; [done |]. intros Hx. destruct (Hx eq_refl eq_refl eq_refl) as (? & ? & [= <-] & _ & Hs' & ? & ? & ?). congruence.
      * split; [done |]. intros Hx. destruct (Hx eq_refl eq_refl eq_refl) as (? & ? & [= <-] & _ & Hs' & ? & ? & ?). congruence.
      * split; [done |]. intros Hx. destruct (Hx eq_refl eq_refl eq_refl) as (? & ? & [= <-] & _ & Hs' & ? & ? & ?). congruence.
    + split; [done |]. intros Hx. destruct (Hx eq_refl eq_refl eq_refl) as (? & ? & [= <-] & _ & Hs' & _). congruence.
    + split; [done |]. intros Hx. destruct (Hx eq_refl eq_refl eq_refl) as (? & ? & [= <-] & _ & Hs' & _). congruence.
  - split; [done |]. intros Hx. destruct (Hx eq_refl eq_refl eq_refl) as (? & ? & Htok & Hne & _).
    assert (Ht : present (rq_step_up rq) = true) by (apply present_spec; eauto). congruence.
Qed.


(** The sample request of the administrator: a step-up token confirms the change
    of the password. *)
Definition sample_jwt : Jwt :=
  {| jwt_sign := λ _ _, ""; jwt_verify := λ _ token _,
       if jeq token "session" then Some (JObj (session_payload sample_identity 0))
       else if jeq token "stepup" then Some (JObj (mfa_payload sample_identity mfa_step_up "j" 0)) else None |}.
Definition sample_row : user :=
  {| uuid := "u-1"; username := "admin"; session_version := 3; totp_enabled_at := Some "2024-01-01"; totp_secret_enc := Some "v1.a.b" |}.
Definition sample_rows (id : jstr) : option user := if jeq id "u-1" then Some sample_row else None.
Definition sample_csrf : jstr := "abcdefghijklmnopqrstuvwxyzABCDEF".
Definition sample_request (method : jstr) (stepUp : option jstr) : request :=
  {| rq_method := method; rq_path := "/api/admin/account/chpasswd"; rq_url_path := "/api/admin/account/chpasswd"; rq_ip := "1.2.3.4";
     rq_session := Some "session"; rq_csrf_cookie := Some sample_csrf; rq_csrf_header := Some sample_csrf; rq_step_up := stepUp |}.

