(* ===== verification/Mfa.v ===== *)
(** * Second-factor secrets: [auth/mfa.ts], [auth/mfa-factor.ts]

    TOTP secrets are stored encrypted under a data key that can be rotated; the
    hashes of recovery codes are keyed by the same material.  SHA-256, HKDF,
    HMAC and AES-GCM are the platform's: class [MfaCrypto], of which only the
    round trip of AES-GCM and the byte range of the outputs are assumed. *)

From S2P Require Import Prelude JsStr JsNum JsVal JsBytes Totp Admin.
#[local] Open Scope Z_scope.

Class MfaCrypto := {
  sha256 : list Z → list Z;
  (** [deriveKey] with HKDF-SHA-256: secret, salt, info *)
  hkdf : list Z → list Z → list Z → list Z;
  hmac256 : list Z → list Z → list Z;
  (** AES-256-GCM with a 128-bit tag: key, iv, additional data *)
  gcm_encrypt : list Z → list Z → list Z → list Z → list Z;
  gcm_decrypt : list Z → list Z → list Z → list Z → option (list Z);
}.
Class MfaCryptoLaws `{MfaCrypto} := {
  sha256_bytes m : Forall is_byte (sha256 m) ∧ length (sha256 m) = 32%nat;
  hmac256_bytes k m : Forall is_byte (hmac256 k m);
  gcm_bytes k iv aad m : Forall is_byte m → Forall is_byte (gcm_encrypt k iv aad m) ∧ gcm_encrypt k iv aad m ≠ [];
  gcm_roundtrip k iv aad m : Forall is_byte m → gcm_decrypt k iv aad (gcm_encrypt k iv aad m) = Some m;
}.

(** @worker/src/auth/mfa.ts:5-9 constants *)
Definition RECOVERY_CODE_COUNT : nat := 8.
Definition RECOVERY_CODE_BYTES : nat := 15.
Definition AES_IV_BYTES : nat := 12.
Definition MFA_KDF_SALT : list Z := utf8 "cf-vps-monitor/mfa-key/v1".
Definition MFA_V2_KDF_SALT : list Z := utf8 "cf-vps-monitor/mfa-key/v2".

(** @worker/src/auth/mfa.ts:11-11 MfaEnv *)
Record mfa_env := { JWT_SECRET : env; MFA_SECRET : option jstr; MFA_PREVIOUS_SECRET : option jstr; MFA_LEGACY_SECRET : option jstr }.

(** What the functions throw: [MfaConfigurationError], [AuthConfigurationError]
    or the error of a malformed recovery code. *)
Inductive mfa_error := Mfa_configuration | Auth_configuration | Bad_recovery_code.
#[local] Abbreviation mresult := (result mfa_error).

(** @worker/src/auth/mfa.ts:20-25 configuredKey *)
Definition configuredKey (value : option jstr) : mresult (option jstr) :=
  match value with
  | None => Ok None
  | Some v => if jeq v "" then Ok None
              else let key := trim v in if byte_length key <? 32 then Err Mfa_configuration else Ok (Some key)
  end.
(** @worker/src/auth/mfa.ts:27-29 legacyKey *)
Definition legacyKey (e : mfa_env) : mresult jstr :=
  let* k := configuredKey (MFA_LEGACY_SECRET e) in
  match k with
  | Some k => Ok k
  | None => match requireJwtSecret (JWT_SECRET e) with Ok s => Ok s | Err _ => Err Auth_configuration end
  end.

(** @worker/src/auth/mfa.ts:42-48 bytesToBase64Url *)
Definition bytesToBase64Url (bytes : list Z) : jstr := base64url bytes.
(** @worker/src/auth/mfa.ts:50-55 base64UrlToBytes -- [None] when [atob] throws *)
Definition base64UrlToBytes (value : jstr) : option (list Z) :=
  let normalized := map of_url (units value) in
  atob (normalized ++ replicate ((4 - length normalized mod 4) mod 4)%nat 61%N).

(** @worker/src/auth/mfa.ts:118-122 normalizeRecoveryCode *)
Definition normalizeRecoveryCode (value : jstr) : mresult jstr :=
  let normalized := JS (List.filter (λ u, negb (is_space u || (u =? 45)%N)) (units (upper (trim value)))) in
  if all_units is_base32 normalized && (slen normalized =? 24) then Ok normalized else Err Bad_recovery_code.

(** The groups of [/.{1,4}/g] of a text without line terminators. *)
Fixpoint groups4 (l : list N) : list jstr :=
  match l with
  | a :: b :: c :: d :: r => JS [a; b; c; d] :: groups4 r
  | [] => []
  | _ => [JS l]
  end.
(** @worker/src/auth/mfa.ts:146-148 formatRecoveryCode *)
Definition formatRecoveryCode (raw : jstr) : jstr := or_str (join "-" (groups4 (units raw))) raw.

Definition option_list {A} (o : option A) : list A := match o with Some a => [a] | None => [] end.
(** [new Set(list)] as an array: the first occurrences. *)
Fixpoint dedup (seen l : list jstr) : list jstr :=
  match l with
  | [] => []
  | x :: r => if mem x seen then dedup seen r else x :: dedup (x :: seen) r
  end.

Inductive kdf_version := v1 | v2.
(** A data key with its identifier. *)
Record data_key := { key_id : jstr; key_secret : jstr }.

Section Mfa.
Context `{MfaCrypto}.

(** @worker/src/auth/mfa.ts:31-34 keyId *)
Definition keyId (secret : jstr) : jstr :=
  JS (flat_map (λ b, units (hex_byte b)) (take 8 (sha256 (utf8 secret)))).
(** @worker/src/auth/mfa.ts:36-40 independentKeys *)
Definition independentKeys (e : mfa_env) : mresult (list data_key) :=
  let* current := configuredKey (MFA_SECRET e) in
  let* previous := configuredKey (MFA_PREVIOUS_SECRET e) in
  if present previous && negb (present current) then Err Mfa_configuration
  else Ok (map (λ s, {| key_id := keyId s; key_secret := s |})
    (dedup [] (List.filter nonempty (option_list current ++ option_list previous)))).

(** @worker/src/auth/mfa.ts:57-75 deriveKey *)
Definition deriveKey (secret : jstr) (version : kdf_version) (info : jstr) : list Z :=
  hkdf (utf8 secret) (match version with v1 => MFA_KDF_SALT | v2 => MFA_V2_KDF_SALT end) (utf8 info).

(** @worker/src/auth/mfa.ts:77-89 encryptTotpSecret -- [iv] is the random vector *)
Definition encryptTotpSecret (secret userId : jstr) (e : mfa_env) (iv : list Z) : mresult jstr :=
  let* keys := independentKeys e in
  match keys with
  | current :: _ =>
    let prefix := "v2." +++ key_id current in
    let key := deriveKey (key_secret current) v2 "totp-secret-encryption" in
    let ciphertext := gcm_encrypt key iv (utf8 (prefix +++ ":" +++ userId)) (utf8 secret) in
    Ok (prefix +++ "." +++ bytesToBase64Url iv +++ "." +++ bytesToBase64Url ciphertext)
  | [] =>
    let* legacy := legacyKey e in
    let key := deriveKey legacy v1 "totp-secret-encryption" in
    let ciphertext := gcm_encrypt key iv (utf8 userId) (utf8 secret) in
    Ok ("v1." +++ bytesToBase64Url iv +++ "." +++ bytesToBase64Url ciphertext)
  end.

(** [/^[a-f0-9]{16}$/] *)
Definition is_key_id (s : jstr) : bool := all_units is_hex_lower s && (slen s =? 16).
(** @worker/src/auth/mfa.ts:102-110 decryptTotpSecret (decryption) *)
Definition open_sealed (secret : jstr) (version : kdf_version) (ivText dataText aad : jstr) : mresult jstr :=
  if negb (nonempty ivText) || negb (nonempty dataText) then Err Mfa_configuration
  else match base64UrlToBytes ivText, base64UrlToBytes dataText with
  | Some iv, Some data =>
    if negb (length iv =? AES_IV_BYTES)%nat then Err Mfa_configuration
    else match gcm_decrypt (deriveKey secret version "totp-secret-encryption") iv (utf8 aad) data with
         | Some plaintext => Ok (utf8_decode plaintext)
         | None => Err Mfa_configuration
         end
  | _, _ => Err Mfa_configuration
  end.
(** @worker/src/auth/mfa.ts:91-111 decryptTotpSecret *)
Definition decryptTotpSecret (ciphertext userId : jstr) (e : mfa_env) : mresult jstr :=
  match split_on (chr 46) ciphertext with
  | [version; ivText; dataText] =>
    if jeq version "v1" then let* secret := legacyKey e in open_sealed secret v1 ivText dataText userId
    else Err Mfa_configuration
  | [version; id; ivText; dataText] =>
    if jeq version "v2" && is_key_id id then
      let* keys := independentKeys e in
      match List.find (λ k, jeq (key_id k) id) keys with
      | Some selected => open_sealed (key_secret selected) v2 ivText dataText ("v2." +++ key_id selected +++ ":" +++ userId)
      | None => Err Mfa_configuration
      end
    else Err Mfa_configuration
  | _ => Err Mfa_configuration
  end.
(** @worker/src/auth/mfa.ts:113-116 needsTotpReencryption *)
Definition needsTotpReencryption (ciphertext : jstr) (e : mfa_env) : mresult bool :=
  let* keys := independentKeys e in
  Ok (match keys with
      | current :: _ => negb (starts_with ("v2." +++ key_id current +++ ".") ciphertext)
      | [] => false
      end).

(** @worker/src/auth/mfa.ts:130-134 recoveryHash *)
Definition recoveryHash (normalized secret : jstr) (id : option jstr) : jstr :=
  let key := deriveKey secret (match id with Some _ => v2 | None => v1 end) "totp-recovery-code-hmac" in
  let digest := bytesToBase64Url (hmac256 key (utf8 normalized)) in
  match id with Some i => "v2." +++ i +++ "." +++ digest | None => digest end.
(** @worker/src/auth/mfa.ts:124-128 hashRecoveryCode *)
Definition hashRecoveryCode (code : jstr) (e : mfa_env) : mresult jstr :=
  let* normalized := normalizeRecoveryCode code in
  let* keys := independentKeys e in
  match keys with
  | current :: _ => Ok (recoveryHash normalized (key_secret current) (Some (key_id current)))
  | [] => let* legacy := legacyKey e in Ok (recoveryHash normalized legacy None)
  end.
(** @worker/src/auth/mfa.ts:136-144 hashRecoveryCodeCandidates *)
Definition hashRecoveryCodeCandidates (code : jstr) (e : mfa_env) : mresult (list jstr) :=
  let* normalized := normalizeRecoveryCode code in
  let* keys := independentKeys e in
  let* legacy := legacyKey e in
  Ok (dedup [] (map (λ k, recoveryHash normalized (key_secret k) (Some (key_id k))) keys ++ [recoveryHash normalized legacy None])).
(** @worker/src/auth/mfa.ts:150-155 generateRecoveryCodes -- from the random bytes
    of each code *)
Definition generateRecoveryCodes (e : mfa_env) (random : list (list Z)) : mresult (list jstr * list jstr) :=
  let codes := map (λ r, formatRecoveryCode (base32Encode r)) random in
  let* hashes := fold_right (λ c acc, let* h := hashRecoveryCode c e in let* hs := acc in Ok (h :: hs)) (Ok []) codes in
  Ok (codes, hashes).

(** ** Confirmation of a factor: [auth/mfa-factor.ts] *)

Inductive factor_method := Totp | Recovery_code.
(** @worker/src/auth/mfa-factor.ts:20-20 confirmUserMfaFactor (input) *)
Record factor_input := { fi_method : factor_method; fi_code : jstr; fi_purpose : purpose; fi_operationToken : jstr }.
Definition method_text (m : factor_method) : jstr := match m with Totp => "totp" | Recovery_code => "recovery_code" end.

(** What the confirmation does after its own checks: refuse, throw, or call
    [consumeMfaFactor] with these arguments. *)
Record consume_args := {
  ca_userId : jstr; ca_sessionVersion : Z; ca_operationId : jstr; ca_factorKey : jstr; ca_method : factor_method;
  ca_step : option Z; ca_codeHashes : option (list jstr);
}.
Inductive factor_outcome := Not_verified | Threw (e : mfa_error) | Bad_secret | State_changed | Consume (a : consume_args).

(** @worker/src/auth/mfa-factor.ts:12-15 digest *)
Definition digest (value : list jsval) : jstr :=
  JS (flat_map (λ b, units (hex_byte b)) (sha256 (utf8 (json (JArr value))))).

Context (hmacSha1 : list Z → list Z → list Z).
(** [reencryptTotpSecret(database, uuid, expected, next)]: compare and set. *)
Context (reencrypt : jstr → jstr → jstr → bool).

(** @worker/src/auth/mfa-factor.ts:25-33 confirmUserMfaFactor (code) *)
Definition normalize_factor (input : factor_input) : option jstr :=
  match fi_method input with
  | Totp => let c := trim (fi_code input) in if all_units is_digit c && (slen c =? 6) then Some c else None
  | Recovery_code => match normalizeRecoveryCode (fi_code input) with Ok c => Some c | Err _ => None end
  end.
(** @worker/src/auth/mfa-factor.ts:38-40 confirmUserMfaFactor (digests) *)
Definition factor_keys (u : user) (input : factor_input) (normalizedCode : jstr) : jstr * jstr :=
  let scope := [JStr (uuid u); JInt (session_version u); JStr (purpose_text (fi_purpose input));
                JStr (fi_operationToken input); JStr (method_text (fi_method input))] in
  let factorKey := digest (JStr "mfa-factor/v1" :: scope ++ [JStr normalizedCode]) in
  (factorKey, digest (JStr "mfa-confirmation/v1" :: scope ++ [JStr factorKey])).
(** @worker/src/auth/mfa-factor.ts:43-52 confirmUserMfaFactor (TOTP) -- the step
    a valid code gives, after its secret is re-encrypted if it needs to be *)
Definition totp_step (u : user) (stored code : jstr) (e : mfa_env) (iv : list Z) (nowMs : Z) : result factor_outcome (option Z) :=
  match decryptTotpSecret stored (uuid u) e with
  | Err err => Err (Threw err)
  | Ok secret =>
    match verifyTotpCode hmacSha1 secret code nowMs with
    | None => Err Bad_secret
    | Some None => Ok None
    | Some (Some step) =>
      match needsTotpReencryption stored e with
      | Err err => Err (Threw err)
      | Ok false => Ok (Some step)
      | Ok true =>
        match encryptTotpSecret secret (uuid u) e iv with
        | Err err => Err (Threw err)
        | Ok encrypted => if reencrypt (uuid u) stored encrypted then Ok (Some step) else Err State_changed
        end
      end
    end
  end.
(** @worker/src/auth/mfa-factor.ts:17-61 confirmUserMfaFactor *)
Definition confirmUserMfaFactor (u : user) (input : factor_input) (e : mfa_env) (iv : list Z) (nowMs : Z) : factor_outcome :=
  if negb (present (totp_enabled_at u)) || negb (present (totp_secret_enc u)) || negb (nonempty (fi_operationToken input)) then Not_verified
  else match normalize_factor input with
  | None => Not_verified
  | Some normalizedCode =>
    let '(factorKey, operationId) := factor_keys u input normalizedCode in
    let consume step codeHashes :=
      Consume {| ca_userId := uuid u; ca_sessionVersion := session_version u; ca_operationId := operationId; ca_factorKey := factorKey;
                 ca_method := fi_method input; ca_step := step; ca_codeHashes := codeHashes |} in
    match fi_method input with
    | Totp => match totp_step u (default "" (totp_secret_enc u)) normalizedCode e iv nowMs with
              | Ok step => consume step None
              | Err o => o
              end
    | Recovery_code => match hashRecoveryCodeCandidates normalizedCode e with
                       | Ok hashes => consume None (Some hashes)
                       | Err err => Threw err
                       end
    end
  end.
End Mfa.

(** ** Facts *)

Lemma is_prefix_app p r : is_prefix p (p ++ r) = true.
Proof. induction p as [|x p IH]; [done |]. cbn [is_prefix Datatypes.app]. by rewrite N.eqb_refl. Qed.
Lemma is_prefix_take p l : is_prefix p l = true → take (length p) l = p.
Proof.
  revert l. induction p as [|x p IH]; intros [|y l]; cbn [is_prefix length take]; try done.
  intros [->%N.eqb_eq H]%andb_true_iff. by rewrite (IH l H).
Qed.

Lemma is_prefix_app3 a b c d : is_prefix (a ++ b ++ c) ((a ++ b) ++ c ++ d) = true.
Proof. replace ((a ++ b) ++ c ++ d) with ((a ++ b ++ c) ++ d) by (by rewrite <- !(assoc_L (++))). apply is_prefix_app. Qed.

Definition no_dot (s : jstr) : Prop := forallb (λ u, negb (chr 46 u)) (units s) = true.

Lemma base64UrlToBytes_url bytes : Forall is_byte bytes → base64UrlToBytes (base64url bytes) = Some bytes.
Proof. intros Hb. unfold base64UrlToBytes. rewrite length_map. by apply atob_base64url. Qed.

Lemma hex_no_dot s : forallb is_hex_lower (units s) = true → no_dot s.
Proof.
  unfold no_dot. rewrite !forallb_true. intros H u Hu. specialize (H u Hu). unfold chr.
  destruct (N.eqb_spec u 46) as [-> |]; done.
Qed.

Lemma ascii_bytes s : forallb (λ u, (u <? 128)%N) (units s) = true → Forall is_byte (utf8 s).
Proof.
  intros Ha. rewrite utf8_ascii by done. rewrite forallb_true in Ha. apply Forall_forall. intros x (u & -> & Hu)%list_elem_of_fmap.
  specialize (Ha u Hu). apply N.ltb_lt in Ha. unfold is_byte. lia.
Qed.

Section Facts.
Context `{MfaCryptoLaws}.

Lemma keyId_shape secret : is_key_id (keyId secret) = true ∧ no_dot (keyId secret) ∧ length (units (keyId secret)) = 16%nat.
Proof.
  destruct (sha256_bytes (utf8 secret)) as [Hb Hl]. assert (Hb8 : Forall is_byte (take 8 (sha256 (utf8 secret)))) by (by apply Forall_take).
  destruct (hex_bytes_lower _ Hb8) as [H1 H2]. assert (Hlen : length (units (keyId secret)) = 16%nat).
  { unfold keyId. cbn [units]. rewrite H2, length_take, Hl. done. }
  split; [| split; [| done]].
  - unfold is_key_id, all_units, slen. rewrite Hlen. unfold keyId. cbn [units]. by rewrite H1.
  - by apply hex_no_dot.
Qed.

Lemma independentKeys_ids e ks k : independentKeys e = Ok ks → k ∈ ks → key_id k = keyId (key_secret k).
Proof.
  unfold independentKeys. intros (c & _ & Hk)%rbind_Ok. apply rbind_Ok in Hk as (p & _ & Hk).
  assert (Hm : ∃ l, ks = map (λ s, {| key_id := keyId s; key_secret := s |}) l).
  { destruct (_ && _); [done |]. injection Hk as <-. eexists; reflexivity. }
  destruct Hm as [l ->]. intros (s & -> & _)%list_elem_of_fmap. done.
Qed.

Lemma v2_text id x y : "v2." +++ id +++ "." +++ x +++ "." +++ y = join "." ["v2"; id; x; y].
Proof. destruct id, x, y. reflexivity. Qed.
Lemma v1_text x y : "v1." +++ x +++ "." +++ y = join "." ["v1"; x; y].
Proof. destruct x, y. reflexivity. Qed.
Lemma app_assoc_str a b c : (a +++ b) +++ c = a +++ b +++ c.
Proof. unfold app. cbn [units]. by rewrite (assoc_L (++)). Qed.

Lemma split_dots l : l ≠ [] → (∀ x, x ∈ l → no_dot x) → split_on (chr 46) (join "." l) = l.
Proof. intros Hne Hl. apply (split_join (chr 46) 46); done. Qed.

(** A sealed secret opens under the key and additional data that sealed it. *)
Lemma open_sealed_gcm secret key version iv aad :
  Forall is_byte iv → length iv = AES_IV_BYTES → forallb (λ u, (u <? 128)%N) (units secret) = true →
  open_sealed key version (base64url iv)
    (base64url (gcm_encrypt (deriveKey key version "totp-secret-encryption") iv (utf8 aad) (utf8 secret))) aad = Ok secret.
Proof.
  intros Hiv Hl Ha. pose proof (ascii_bytes secret Ha) as Hsec.
  destruct (gcm_bytes (deriveKey key version "totp-secret-encryption") iv (utf8 aad) (utf8 secret) Hsec) as [Hb Hne].
  unfold open_sealed. rewrite !base64url_nonempty by (done || (intros ->; done)). cbn [negb orb].
  rewrite !base64UrlToBytes_url by done. rewrite Hl, Nat.eqb_refl. cbn [negb]. rewrite gcm_roundtrip, utf8_ascii by done.
  rewrite utf8_decode_ascii by done. by destruct secret.
Qed.

Lemma find_key ks k :
  k ∈ ks → (∀ a, a ∈ ks → key_id a = key_id k → a = k) → List.find (λ a, jeq (key_id a) (key_id k)) ks = Some k.
Proof.
  induction ks as [|a ks IH]; intros Hin Huniq; [by apply not_elem_of_nil in Hin |]. cbn [List.find].
  destruct (jeq (key_id a) (key_id k)) eqn:E.
  - apply jeq_true in E. f_equal. apply Huniq; [left | done].
  - apply jeq_false in E. apply elem_of_cons in Hin as [-> | Hin]; [done |].
    apply IH; [done |]. intros b Hb. apply Huniq. by right.
Qed.

Lemma dedup_elem seen l x : x ∈ l → x ∉ seen → x ∈ dedup seen l.
Proof.
  revert seen. induction l as [|y l IH]; intros seen Hin Hn; [by apply not_elem_of_nil in Hin |]. cbn [dedup].
  destruct (mem y seen) eqn:E.
  - apply mem_spec in E. apply elem_of_cons in Hin as [-> | Hin]; [done | by apply IH].
  - destruct (decide (x = y)) as [-> | Hne]; [left |]. right. apply elem_of_cons in Hin as [-> | Hin]; [done |].
    apply IH; [done |]. intros [-> | Hs]%elem_of_cons; done.
Qed.

Lemma starts_v2 id rest : starts_with ("v2." +++ id +++ ".") (("v2." +++ id) +++ "." +++ rest) = true.
Proof.
  exact (is_prefix_app3 (units "v2.") (units id) (units ".") (units rest)).
Qed.

Lemma not_starts_v2 id id' rest :
  length (units id) = 16%nat → length (units id') = 16%nat → id ≠ id' →
  starts_with ("v2." +++ id' +++ ".") (("v2." +++ id) +++ "." +++ rest) = false.
Proof.
  intros Hl Hl' Hne. unfold starts_with. destruct (is_prefix _ _) eqn:E; [| done]. exfalso. apply Hne.
  apply is_prefix_take in E. revert E. unfold app. cbn [units].
  change (units "v2.") with [118; 50; 46]%N. change (units ".") with [46%N]. cbn [Datatypes.app length take].
  rewrite length_app, Hl'. cbn [length Nat.add]. rewrite <- Hl. intros [= E].
  rewrite <- Nat.add_1_r, take_app_add in E. apply app_inj_1 in E as [E _]; [| by rewrite Hl, Hl'].
  destruct id as [x], id' as [y]. cbn [units] in E. by rewrite E.
Qed.
End Facts.

(** ** Properties *)

Section Rotation.
Context `{MfaCryptoLaws}.

Lemma decrypt_v2 e ks k secret uid iv :
  independentKeys e = Ok ks → k ∈ ks → (∀ a, a ∈ ks → key_id a = key_id k → a = k) → Forall is_byte iv → length iv = AES_IV_BYTES →
  forallb (λ u, (u <? 128)%N) (units secret) = true →
  decryptTotpSecret (("v2." +++ key_id k) +++ "." +++ bytesToBase64Url iv +++ "." +++ bytesToBase64Url
    (gcm_encrypt (deriveKey (key_secret k) v2 "totp-secret-encryption") iv (utf8 (("v2." +++ key_id k) +++ ":" +++ uid)) (utf8 secret))) uid e
  = Ok secret.
Proof.
  intros Hks Hin Huniq Hiv Hl Ha. set (ct := gcm_encrypt _ _ _ _).
  assert (Hct : Forall is_byte ct) by (by apply gcm_bytes, ascii_bytes). pose proof (independentKeys_ids e ks k Hks Hin) as Hid.
  destruct (keyId_shape (key_secret k)) as (Hshape & Hdot & _). rewrite <- Hid in Hshape, Hdot.
  unfold bytesToBase64Url. rewrite (app_assoc_str "v2."), v2_text. unfold decryptTotpSecret. rewrite split_dots; [| done |].
  2:{ intros x Hx. list_cases Hx; try done; by apply base64url_no_dot. }
  change (jeq "v2" "v2") with true. rewrite Hshape. cbn [andb]. rewrite Hks. cbn [rbind].
  rewrite (find_key ks k Hin Huniq). unfold ct. rewrite app_assoc_str. by apply open_sealed_gcm.
Qed.

Lemma decrypt_v1 e legacy secret uid iv :
  legacyKey e = Ok legacy → Forall is_byte iv → length iv = AES_IV_BYTES → forallb (λ u, (u <? 128)%N) (units secret) = true →
  decryptTotpSecret ("v1." +++ bytesToBase64Url iv +++ "." +++ bytesToBase64Url
    (gcm_encrypt (deriveKey legacy v1 "totp-secret-encryption") iv (utf8 uid) (utf8 secret))) uid e = Ok secret.
Proof.
  intros Hk Hiv Hl Ha. set (ct := gcm_encrypt _ _ _ _). assert (Hct : Forall is_byte ct) by (by apply gcm_bytes, ascii_bytes).
  unfold bytesToBase64Url. rewrite v1_text. unfold decryptTotpSecret. rewrite split_dots; [| done |].
  2:{ intros x Hx. list_cases Hx; try done; by apply base64url_no_dot. }
  change (jeq "v1" "v1") with true. cbv iota. rewrite Hk. cbn [rbind]. by apply open_sealed_gcm.
Qed.

(** C35: A sealed TOTP secret survives key rotation: what one configuration
    encrypts, any later configuration decrypts for the same user as long as it
    still lists the key (as current or previous; the legacy key for first-version
    texts) and no two of its keys share an identifier.  A configuration does not
    ask to re-encrypt its own texts and does ask for those of another current
    key; and the stored hash of a recovery code stays among the candidates of
    that code. *)
Theorem totp_secret_rotation e1 e2 ks1 ks2 secret uid iv c :
  independentKeys e1 = Ok ks1 → independentKeys e2 = Ok ks2 →
  match ks1 with k1 :: _ => k1 ∈ ks2 | [] => legacyKey e2 = legacyKey e1 end →
  (∀ a b, a ∈ ks2 → b ∈ ks2 → key_id a = key_id b → a = b) →
  Forall is_byte iv → length iv = AES_IV_BYTES → forallb (λ u, (u <? 128)%N) (units secret) = true →
  encryptTotpSecret secret uid e1 iv = Ok c →
  decryptTotpSecret c uid e2 = Ok secret
  ∧ needsTotpReencryption c e1 = Ok false
  ∧ (∀ k2 rest, ks2 = k2 :: rest → match ks1 with k1 :: _ => key_id k1 ≠ key_id k2 | [] => True end → needsTotpReencryption c e2 = Ok true)
  ∧ (∀ code h legacy, legacyKey e2 = Ok legacy → hashRecoveryCode code e1 = Ok h →
     ∃ hs, hashRecoveryCodeCandidates code e2 = Ok hs ∧ h ∈ hs).
Proof.
  intros Hk1 Hk2 Hkeep Huniq Hiv Hl Ha. unfold encryptTotpSecret. rewrite Hk1. cbn [rbind]. intros Henc.
  split; [| split; [| split]].
  - destruct ks1 as [|k1 ks1].
    + apply rbind_Ok in Henc as (legacy & Hlk & [= <-]). apply decrypt_v1; [by rewrite Hkeep | done..].
    + injection Henc as <-. apply (decrypt_v2 e2 ks2 k1); try done. intros a Hin Hid. by apply Huniq.
  - unfold needsTotpReencryption. rewrite Hk1. cbn [rbind]. destruct ks1 as [|k1 ks1]; [done |]. injection Henc as <-.
    by rewrite starts_v2.
  - intros k2 rest -> Hne. unfold needsTotpReencryption. rewrite Hk2. cbn [rbind]. destruct ks1 as [|k1 ks1].
    + apply rbind_Ok in Henc as (legacy & Hlk & [= <-]). done.
    + injection Henc as <-. pose proof (independentKeys_ids e1 _ k1 Hk1 ltac:(left)) as Hi1.
      pose proof (independentKeys_ids e2 _ k2 Hk2 ltac:(left)) as Hi2.
      rewrite not_starts_v2; [done | rewrite Hi1; apply keyId_shape | rewrite Hi2; apply keyId_shape | done].
  - intros code h legacy Hleg. unfold hashRecoveryCode, hashRecoveryCodeCandidates.
    intros (normalized & Hn & Hh)%rbind_Ok. rewrite Hn. cbn [rbind]. rewrite Hk1 in Hh. cbn [rbind] in Hh.
    rewrite Hk2, Hleg. cbn [rbind]. eexists. split; [done |]. apply dedup_elem; [| apply not_elem_of_nil]. apply elem_of_app.
    destruct ks1 as [|k1 ks1].
    + right. apply rbind_Ok in Hh as (l1 & Hl1 & [= <-]). rewrite <- Hkeep, Hleg in Hl1. injection Hl1 as <-. left.
    + left. injection Hh as <-. by apply (list_elem_of_fmap_2 (λ k, recoveryHash normalized (key_secret k) (Some (key_id k)))).
Qed.
End Rotation.

(** A transparent instance of the platform's primitives. *)
Definition pad_to (n : nat) (l : list Z) : list Z := take n (map (λ x, x mod 256) l ++ replicate n 0).
#[local] Instance sample_crypto : MfaCrypto :=
  {| sha256 := λ m, pad_to 32 m; hkdf := λ s salt i, s ++ salt ++ i; hmac256 := λ k m, map (λ x, x mod 256) (k ++ m);
     gcm_encrypt := λ k iv aad m, 0 :: m;
     gcm_decrypt := λ k iv aad c, match c with 0 :: m => Some m | _ => None end |}.
#[local] Instance sample_crypto_laws : MfaCryptoLaws.
Proof.
  assert (Hm : ∀ x : Z, is_byte (x mod 256)) by (intros x; unfold is_byte; apply Z.mod_pos_bound; lia).
  assert (Hml : ∀ l, Forall is_byte (map (λ x, x mod 256) l)) by (intros l; induction l; constructor; auto).
  split; cbn.
  - intros m. unfold pad_to. split.
    + apply Forall_take, Forall_app. split; [apply Hml | apply Forall_replicate; unfold is_byte; lia].
    + rewrite length_take, length_app, length_replicate. lia.
  - intros k m. apply Hml.
  - intros k iv aad m Hb. split; [constructor; [unfold is_byte; lia | done] | done].
  - done.
Qed.

Definition env_with (current previous : option jstr) : mfa_env :=
  {| JWT_SECRET := sample_env; MFA_SECRET := current; MFA_PREVIOUS_SECRET := previous; MFA_LEGACY_SECRET := None |}.
Definition first_key : jstr := "first-data-key-0123456789abcdef0123".
Definition second_key : jstr := "second-data-key-0123456789abcdef012".
Lemma totp_secret_rotation_witness :
  ∃ c, encryptTotpSecret "GEZDGNBVGY3TQOJQ" "u-1" (env_with (Some first_key) None) (replicate 12 7) = Ok c
    ∧ decryptTotpSecret c "u-1" (env_with (Some second_key) (Some first_key)) = Ok "GEZDGNBVGY3TQOJQ"
    ∧ needsTotpReencryption c (env_with (Some second_key) (Some first_key)) = Ok true.
Proof.
  eexists. split; [vm_compute; reflexivity |].
  edestruct (totp_secret_rotation (env_with (Some first_key) None) (env_with (Some second_key) (Some first_key))
    [{| key_id := keyId first_key; key_secret := first_key |}]
    [{| key_id := keyId second_key; key_secret := second_key |}; {| key_id := keyId first_key; key_secret := first_key |}]
    "GEZDGNBVGY3TQOJQ" "u-1" (replicate 12 7)) as (Hd & _ & Hn & _); [vm_compute; reflexivity | vm_compute; reflexivity | | | | done | vm_compute; reflexivity | vm_compute; reflexivity |].
  - right. left.
  - intros a b Ha Hb. list_cases Ha; list_cases Hb; intros E; try done; vm_compute in E; discriminate.
  - repeat constructor; unfold is_byte; lia.
  - split; [exact Hd |]. eapply Hn; [reflexivity |]. vm_compute. discriminate.
Defined.
