(* ===== verification/Viewer.v ===== *)
(** * Viewer tokens: [auth/viewer-token.ts]

    A short-lived token that lets a browser open the live socket from the network
    it asked from.  HMAC-SHA-256 is a parameter; clock and random bytes are
    arguments. *)

From S2P Require Import Prelude JsStr JsNum JsVal JsBytes.
#[local] Open Scope Z_scope.

(** @worker/src/auth/viewer-token.ts:2-2 TOKEN_TTL_MS *)
Definition TOKEN_TTL_MS : Z := 60000.

(** ** The network of an address *)

(** [z.toString(16)] of an integer. *)
Fixpoint hex_digits (fuel : nat) (n : Z) : list N :=
  match fuel with
  | O => []
  | S k => if n <? 16 then [hex_digit n] else hex_digits k (n / 16) ++ [hex_digit (n mod 16)]
  end.
Definition hex_Z (z : Z) : jstr :=
  let digits n := hex_digits (S (Z.to_nat (Z.log2 n))) n in
  JS (if z <? 0 then 45%N :: digits (- z) else digits z).
(** [Number.parseInt(s, 16)], [None] for [NaN]: the longest hexadecimal prefix
    after blanks, a sign and an optional [0x]; exact below [2^53], which thirteen
    digits never exceed. *)
Definition parse_int16 (s : jstr) : option Z :=
  let l := drop_while is_space (units s) in
  let '(neg, l) := match l with
                   | u :: r => if chr 45 u then (true, r) else if chr 43 u then (false, r) else (false, l)
                   | [] => (false, [])
                   end in
  let l := match l with
           | z :: x :: r => if chr 48 z && (chr 120 x || chr 88 x) then r else l
           | _ => l
           end in
  match take_while is_hex l with
  | [] => None
  | ds => let v := digits_val 16 hex_val ds in Some (if neg : bool then - v else v)
  end.

(** [text.split('::')]: the separator is two characters. *)
Fixpoint split_colons (cur l : list N) : list (list N) :=
  match l with
  | [] => [rev cur]
  | u :: r =>
    match r with
    | v :: r' => if chr 58 u && chr 58 v then rev cur :: split_colons [] r' else split_colons (u :: cur) r
    | [] => [rev (u :: cur)]
    end
  end.
(** [.replace(/^\[|\]$/g, '')] *)
Definition strip_brackets (l : list N) : list N :=
  let l := match l with u :: r => if chr 91 u then r else l | [] => [] end in
  match rev l with u :: r => if chr 93 u then rev r else l | [] => [] end.

(** @worker/src/auth/viewer-token.ts:77-94 normalizeIpForBinding (IPv6) *)
Definition ipv6_prefix (value : jstr) : jstr :=
  let addr := strip_brackets (units (nth 0 (split_on (chr 37) value) "")) in
  let parts := split_colons [] addr in
  let compressed := (1 <? length parts)%nat in
  let groups_of l := List.filter nonempty (split_on (chr 58) (JS l)) in
  let head := groups_of (nth 0 parts []) in
  let tail := if compressed then groups_of (nth 1 parts []) else [] in
  let groups := if compressed then head ++ replicate (8 - length head - length tail)%nat "0" ++ tail else head in
  let hextet i := match parse_int16 (nth i groups "0") with Some h => hex_Z h | None => "0" end in
  join ":" (map hextet [0%nat; 1%nat; 2%nat; 3%nat]) +++ "::/64".
(** @worker/src/auth/viewer-token.ts:73-99 normalizeIpForBinding *)
Definition normalizeIpForBinding (ip : jstr) : jstr :=
  let value := lower (trim ip) in
  if negb (nonempty value) then ""
  else if any_unit (chr 58) value then ipv6_prefix value
  else match split_on (chr 46) value with
       | [a; b; c; _] => a +++ "." +++ b +++ "." +++ c +++ ".0/24"
       | _ => value
       end.

(** ** Tokens *)

(** @worker/src/auth/viewer-token.ts:10-16 bytesToBase64Url *)
Definition bytesToBase64Url (bytes : list Z) : jstr := base64url bytes.
(** @worker/src/auth/viewer-token.ts:18-31 base64UrlToBytes *)
Definition base64UrlToBytes (value : jstr) : option (list Z) :=
  let normalized := map of_url (units value) in
  atob (normalized ++ replicate ((length normalized + 3) / 4 * 4 - length normalized)%nat 61%N).
(** @worker/src/auth/viewer-token.ts:33-42 constantTimeEqual *)
Definition constantTimeEqual (a b : jstr) : bool := ct_equal (utf8 a) (utf8 b).

Section Viewer.
(** HMAC-SHA-256 of a message under a secret, both as bytes. *)
Context (hmac : list Z → list Z → list Z).

(** @worker/src/auth/viewer-token.ts:54-57 signPayload *)
Definition signPayload (payload secret : jstr) : jstr := bytesToBase64Url (hmac (utf8 secret) (utf8 payload)).
(** @worker/src/auth/viewer-token.ts:59-61 randomNonce -- from the random bytes *)
Definition randomNonce (random : list Z) : jstr := bytesToBase64Url random.

(** @worker/src/auth/viewer-token.ts:4-8 ViewerTokenPayload *)
Definition payload_value (exp : num) (ip nonce : jstr) : jsval :=
  JObj [("exp", JNum exp); ("ip", JStr ip); ("nonce", JStr nonce)].
(** @worker/src/auth/viewer-token.ts:101-124 createViewerToken -- the token and
    its [expires_at]; [ttlMs] defaults to [TOKEN_TTL_MS] *)
Definition createViewerToken (ip secret : jstr) (ttlMs : option num) (now : Z) (random : list Z) : jstr * num :=
  let ttlMs := default (of_Z TOKEN_TTL_MS) ttlMs in
  let boundedTtlMs := if is_finite ttlMs && num_lt (of_Z 0) ttlMs then ttlMs else of_Z TOKEN_TTL_MS in
  let exp := num_add (of_Z now) boundedTtlMs in
  let payloadText := bytesToBase64Url (utf8 (json (payload_value exp (normalizeIpForBinding ip) (randomNonce random)))) in
  (payloadText +++ "." +++ signPayload payloadText secret, exp).

(** @worker/src/auth/viewer-token.ts:146-157 verifyViewerToken (payload) -- [None]
    when reading a property of [null] throws *)
Definition payload_ok (payload : jsval) (ip : jstr) (now : Z) : option bool :=
  if is_null payload then None
  else
    let p := as_object payload in
    Some (match fld p "exp" with
          | JNum exp =>
            if num_lt exp (of_Z now) then false
            else is_str (fld p "ip") (normalizeIpForBinding ip)
                 && match fld p "nonce" with JStr n => negb (slen n <? 16) | _ => false end
          | _ => false
          end).
(** @worker/src/auth/viewer-token.ts:126-158 verifyViewerToken *)
Definition verifyViewerToken (token ip secret : jstr) (now : Z) : option bool :=
  match split_on (chr 46) token with
  | [payloadText; signature] =>
    if negb (nonempty payloadText) || negb (nonempty signature) then Some false
    else if negb (constantTimeEqual signature (signPayload payloadText secret)) then Some false
    else match base64UrlToBytes payloadText with
    | None => Some false
    | Some payloadBytes =>
      match json_parse (utf8_decode payloadBytes) with
      | None => Some false
      | Some payload => payload_ok payload ip now
      end
    end
  | _ => Some false
  end.
End Viewer.

(** ** Facts *)

Definition ascii (l : list N) : bool := forallb (λ u, (u <? 128)%N) l.

Lemma ascii_app l1 l2 : ascii (l1 ++ l2) = ascii l1 && ascii l2.
Proof. apply forallb_app. Qed.
Lemma ascii_unit l : ascii l = true → Forall is_unit l.
Proof. unfold ascii. rewrite forallb_true. intros H. apply Forall_forall. intros u Hu. specialize (H u Hu). apply N.ltb_lt in H. unfold is_unit. lia. Qed.

Lemma quote_unit_ascii u : (u <? 128)%N = true → ascii (quote_unit u) = true.
Proof.
  intros Hu. apply N.ltb_lt in Hu.
  assert (Hall : forallb (λ n, ascii (quote_unit (N.of_nat n))) (seq 0 128) = true) by (vm_compute; reflexivity).
  rewrite forallb_true in Hall. specialize (Hall (N.to_nat u)). rewrite N2Nat.id in Hall. apply Hall, elem_of_seq. lia.
Qed.

Lemma quote_units_ascii l : ascii l = true → ascii (quote_units l) = true.
Proof.
  induction l as [|u l IH]; [done |]. cbn [ascii forallb]. intros [Hu Hl]%andb_true_iff. specialize (IH Hl).
  assert (Hh : is_high u = false) by (apply andb_false_iff; left; apply N.leb_gt; apply N.ltb_lt in Hu; lia).
  assert (Hw : is_low u = false) by (apply andb_false_iff; left; apply N.leb_gt; apply N.ltb_lt in Hu; lia).
  assert (Hq : quote_units (u :: l) = quote_unit u ++ quote_units l).
  { cbn [quote_units]. rewrite Hh, Hw. cbn [andb orb]. destruct l; [by rewrite app_nil_r | done]. }
  rewrite Hq, ascii_app, IH, quote_unit_ascii by done. done.
Qed.

Lemma dec_nat_ascii z : 0 ≤ z → ascii (dec_nat z) = true.
Proof.
  intros Hz. destruct (dec_nat_spec z Hz) as (_ & Hd & _). unfold ascii. rewrite forallb_true in *. intros u Hu.
  specialize (Hd u Hu). apply is_digit_spec in Hd. apply N.ltb_lt. lia.
Qed.

Lemma base64url_ascii bytes : Forall is_byte bytes → ascii (units (base64url bytes)) = true.
Proof.
  intros Hb. rewrite base64url_units by done. apply forallb_true. intros x (v & -> & Hv)%list_elem_of_fmap.
  pose proof (sextets_range bytes Hb) as Hs. rewrite Forall_forall in Hs. apply (b64_char_facts v (Hs v Hv)).
Qed.

Lemma viewer_bytes_url bytes : Forall is_byte bytes → base64UrlToBytes (base64url bytes) = Some bytes.
Proof.
  intros Hb. unfold base64UrlToBytes. rewrite length_map. set (n := length (units (base64url bytes))).
  replace ((n + 3) / 4 * 4 - n)%nat with (pad_length n); [by apply atob_base64url |]. unfold pad_length.
  pose proof (Nat.div_mod_eq n 4) as Hn. pose proof (Nat.mod_upper_bound n 4 ltac:(lia)) as Hr.
  set (q := (n / 4)%nat) in *. set (r := (n mod 4)%nat) in *. rewrite Hn.
  assert (Hc : r = 0%nat ∨ r = 1%nat ∨ r = 2%nat ∨ r = 3%nat) by lia.
  destruct Hc as [-> | [-> | [-> | ->]]].
  - replace ((4 * q + 0 + 3) / 4)%nat with q by (apply (Nat.div_unique _ 4 q 3); lia). simpl; lia.
  - replace ((4 * q + 1 + 3) / 4)%nat with (q + 1)%nat by (apply (Nat.div_unique _ 4 (q + 1) 0); lia). simpl; lia.
  - replace ((4 * q + 2 + 3) / 4)%nat with (q + 1)%nat by (apply (Nat.div_unique _ 4 (q + 1) 1); lia). simpl; lia.
  - replace ((4 * q + 3 + 3) / 4)%nat with (q + 1)%nat by (apply (Nat.div_unique _ 4 (q + 1) 2); lia). simpl; lia.
Qed.

(** The payload of a token reads back as itself. *)
Lemma payload_text exp ip nonce :
  0 ≤ exp ≤ max_safe → ascii (units ip) = true → ascii (units nonce) = true →
  ascii (units (json (payload_value (of_Z exp) ip nonce))) = true
  ∧ json_parse (json (payload_value (of_Z exp) ip nonce)) = Some (payload_value (of_Z exp) ip nonce).
Proof.
  intros He Hi Hn. set (fs := [("exp", JNum (of_Z exp)); ("ip", JStr ip); ("nonce", JStr nonce)]).
  assert (Hf : flat_object fs).
  { repeat constructor; cbn [fst snd]; try (by apply ascii_unit); [by exists exp | by apply ascii_unit.. ]. }
  split.
  - unfold payload_value. fold fs. rewrite (flat_json fs Hf). cbn [fs members_text]. unfold value_text, json.
    cbn [stringify default is_finite of_Z]. unfold id. rewrite (num_str_Z (of_Z exp) exp) by (apply num_Z_of_Z || lia).
    unfold dec_Z. rewrite (proj2 (Z.ltb_ge exp 0)) by lia. unfold quote. cbn [units].
    repeat first [rewrite ascii_app | rewrite quote_units_ascii by done | rewrite dec_nat_ascii by lia | progress cbn [ascii forallb Datatypes.app]].
    done.
  - apply json_parse_flat; [done | done |]. apply (bool_decide_eq_true_1 _). vm_compute. reflexivity.
Qed.

Lemma constantTimeEqual_ascii s t :
  ascii (units s) = true → ascii (units t) = true → constantTimeEqual s t = bool_decide (s = t).
Proof.
  intros Hs Ht. unfold constantTimeEqual. rewrite !utf8_ascii by done.
  apply eq_true_iff_eq. rewrite ct_equal_spec, bool_decide_eq_true. destruct s as [s], t as [t]. cbn [units].
  split; [intros ->%map_of_N_inj; done | congruence].
Qed.

(** Blanks and letter case apart, the addresses of a /24 share their binding. *)
Lemma normalize_ipv4 a b c d :
  (∀ x, x ∈ [a; b; c; d] → all_units1 is_digit x = true) →
  normalizeIpForBinding (a +++ "." +++ b +++ "." +++ c +++ "." +++ d) = a +++ "." +++ b +++ "." +++ c +++ ".0/24".
Proof.
  intros H. set (text := a +++ "." +++ b +++ "." +++ c +++ "." +++ d).
  assert (Hj : text = join "." [a; b; c; d]) by done.
  assert (Hu : forallb (λ u, is_digit u || chr 46 u) (units text) = true).
  { unfold text, app. cbn [units]. rewrite !forallb_app. change (units ".") with [46%N].
    assert (Hx : ∀ x, x ∈ [a; b; c; d] → forallb (λ u, is_digit u || chr 46 u) (units x) = true).
    { intros x Hx. specialize (H x Hx). unfold all_units1, all_units in H. apply andb_true_iff in H as [_ H].
      rewrite forallb_true in *. intros u Hu. by rewrite H. }
    rewrite !Hx by list_elem. done. }
  rewrite forallb_true in Hu.
  assert (Hl : lower (trim text) = text).
  { assert (Ht : trim text = text).
    { destruct text as [l]. apply trim_id, forallb_true. intros u Hin. specialize (Hu u Hin). apply orb_true_iff in Hu as [Hd | Hd].
      - by rewrite digit_not_space.
      - unfold chr in Hd. apply N.eqb_eq in Hd as ->. done. }
    rewrite Ht. unfold lower. destruct text as [l]. cbn [units] in *. f_equal. clear Ht Hj.
    induction l as [|u l IH]; [done |]. cbn [flat_map]. rewrite IH by (intros; apply Hu; by right).
    specialize (Hu u ltac:(left)). assert (Hlow : lower_unit u = [u]); [| by rewrite Hlow].
    apply orb_true_iff in Hu as [Hd | Hd].
    - apply digit_cases in Hd. list_cases Hd; done.
    - unfold chr in Hd. apply N.eqb_eq in Hd as ->. done. }
  unfold normalizeIpForBinding. rewrite Hl.
  assert (Hne : nonempty text = true).
  { apply nonempty_true. intros E. specialize (H a ltac:(left)). unfold all_units1 in H. apply andb_true_iff in H as [Ha _].
    apply nonempty_true in Ha. apply Ha. destruct a as [[|u r]]; [done |]. apply (f_equal units) in E. done. }
  rewrite Hne. cbn [negb].
  assert (Hc : any_unit (chr 58) text = false).
  { apply existsb_false. intros u Hin. specialize (Hu u Hin). apply orb_true_iff in Hu as [Hd | Hd].
    - apply digit_cases in Hd. list_cases Hd; done.
    - unfold chr in *. apply N.eqb_eq in Hd as ->. done. }
  rewrite Hc, Hj. change "." with (JS [46%N]). rewrite (split_join (chr 46) 46); [done | done | done |].
  intros x Hx. specialize (H x Hx). unfold all_units1, all_units in H. apply andb_true_iff in H as [_ H].
  rewrite forallb_true in *. intros u Hin. specialize (H u Hin). apply digit_cases in H. list_cases H; done.
Qed.

Lemma ascii_byte_list t : ascii (units t) = true → Forall is_byte (utf8 t).
Proof.
  intros Ha. rewrite utf8_ascii by done. unfold ascii in Ha. rewrite forallb_true in Ha. apply Forall_forall.
  intros x (u & -> & Hu)%list_elem_of_fmap. specialize (Ha u Hu). apply N.ltb_lt in Ha. unfold is_byte. lia.
Qed.
Lemma nonce_length random : Forall is_byte random → length random = 16%nat → slen (randomNonce random) = 22.
Proof.
  intros Hr Hlen. unfold slen, randomNonce, bytesToBase64Url. rewrite base64url_units, length_map by done.
  do 16 (destruct random as [|? random]; [done |]). by destruct random.
Qed.
(** The parts of an issued token. *)
Lemma token_split hmac bytes s :
  (∀ k m, Forall is_byte (hmac k m) ∧ hmac k m ≠ []) → Forall is_byte bytes →
  let text := bytesToBase64Url bytes in
  split_on (chr 46) (text +++ "." +++ signPayload hmac text s) = [text; signPayload hmac text s].
Proof.
  intros Hh Hbytes text. change (text +++ "." +++ signPayload hmac text s) with (join (JS [46%N]) [text; signPayload hmac text s]).
  apply split_join; [done | done |]. intros x Hx. list_cases Hx; [by apply base64url_no_dot |]. apply base64url_no_dot, Hh.
Qed.

(** ** Properties *)

(** A viewer token is accepted up to and including its expiry from exactly the
    addresses whose network is that of the address it was issued to (for IPv4,
    the same first three octets), and never under a secret that signs its
    payload differently; and no token is accepted whose second part is not the
    signature of its first. *)
Theorem viewer_token_bound hmac ip secret ttl now random :
  (∀ k m, Forall is_byte (hmac k m) ∧ hmac k m ≠ []) → Forall is_byte random → length random = 16%nat →
  ascii (units (normalizeIpForBinding ip)) = true → 0 ≤ now → 0 < ttl → now + ttl ≤ max_safe →
  let '(token, expires) := createViewerToken hmac ip secret (Some (of_Z ttl)) now random in
  expires = of_Z (now + ttl)
  ∧ (∀ ip' now', verifyViewerToken hmac token ip' secret now'
       = Some ((now' <=? now + ttl) && jeq (normalizeIpForBinding ip) (normalizeIpForBinding ip')))
  ∧ (∀ secret' ip' now', (∀ text, signPayload hmac text secret' ≠ signPayload hmac text secret) →
       verifyViewerToken hmac token ip' secret' now' = Some false)
  ∧ (∀ other ip' now', verifyViewerToken hmac other ip' secret now' = Some true →
       ∃ payloadText signature, split_on (chr 46) other = [payloadText; signature] ∧ utf8 signature = utf8 (signPayload hmac payloadText secret)).
Proof.
  intros Hh Hr Hlen Hip Hnow Httl Hmax. unfold createViewerToken. change (default ?a (Some ?b)) with b. cbv zeta.
  assert (Hb : is_finite (of_Z ttl) && num_lt (of_Z 0) (of_Z ttl) = true).
  { rewrite num_lt_of_Z_Z. by rewrite (proj2 (Z.ltb_lt 0 ttl) Httl). }
  rewrite Hb. rewrite num_add_Z by (unfold max_safe in *; lia).
  set (payload := payload_value (of_Z (now + ttl)) (normalizeIpForBinding ip) (randomNonce random)).
  destruct (payload_text (now + ttl) (normalizeIpForBinding ip) (randomNonce random)) as [Ha Hp]; [lia | done | by apply base64url_ascii |].
  fold payload in Ha, Hp. set (bytes := utf8 (json payload)).
  assert (Hbytes : Forall is_byte bytes) by (by apply ascii_byte_list).
  set (text := bytesToBase64Url bytes).
  assert (Hbne : bytes ≠ []).
  { unfold bytes, payload, payload_value. rewrite utf8_ascii by done. rewrite flat_json; [done |].
    repeat constructor; cbn [fst snd]; try (by apply ascii_unit); [exists (now + ttl); split; [done | lia] | by apply ascii_unit, base64url_ascii]. }
  assert (Hsplit : ∀ s, split_on (chr 46) (text +++ "." +++ signPayload hmac text s) = [text; signPayload hmac text s])
    by (intros s; by apply token_split).
  assert (Hne : nonempty text = true) by (by apply base64url_nonempty).
  assert (Hsne : ∀ s, nonempty (signPayload hmac text s) = true) by (intros s; apply base64url_nonempty; apply Hh).
  assert (Hct : ∀ s s', constantTimeEqual (signPayload hmac text s) (signPayload hmac text s')
                        = bool_decide (signPayload hmac text s = signPayload hmac text s')).
  { intros s s'. apply constantTimeEqual_ascii; apply base64url_ascii, Hh. }
  split; [done |]. split; [| split].
  - intros ip' now'. unfold verifyViewerToken. rewrite Hsplit, Hne, Hsne, Hct. cbn [negb orb]. rewrite bool_decide_true by done. cbn [negb].
    unfold text, bytesToBase64Url. rewrite viewer_bytes_url by done. unfold bytes. rewrite utf8_ascii by done.
    rewrite utf8_decode_ascii by done. change {| units := units (json payload) |} with (json payload). destruct (json payload) eqn:Ej. rewrite Hp.
    unfold payload_ok, payload, payload_value. cbn [is_null as_object]. f_equal.
    change (fld _ "exp") with (JNum (of_Z (now + ttl))). cbv iota. rewrite num_lt_of_Z_Z.
    change (fld _ "ip") with (JStr (normalizeIpForBinding ip)). change (fld _ "nonce") with (JStr (randomNonce random)). cbn [is_str].
    rewrite nonce_length by done. cbn [Z.ltb Z.compare Pos.compare Pos.compare_cont negb]. rewrite andb_true_r.
    destruct (now + ttl <? now') eqn:E; zify_bool.
    + by rewrite (proj2 (Z.leb_gt _ _)) by lia.
    + by rewrite (proj2 (Z.leb_le _ _)) by lia.
  - intros secret' ip' now' Hdiff. unfold verifyViewerToken. rewrite Hsplit, Hne, Hsne, Hct. cbn [negb orb].
    rewrite bool_decide_false; [done |]. intros E. by apply (Hdiff text).
  - intros other ip' now'. unfold verifyViewerToken.
    destruct (split_on (chr 46) other) as [|p [|s [|x l]]]; try done.
    destruct (negb (nonempty p) || negb (nonempty s)); [done |].
    destruct (constantTimeEqual s (signPayload hmac p secret)) eqn:E; [| done]. intros _. exists p, s. split; [done |].
    by apply ct_equal_spec.
Qed.

Lemma viewer_token_bound_witness :
  let '(token, expires) := createViewerToken (λ k m, [Z.of_nat (length (k ++ m)) mod 256]) "203.0.113.7" "secret" (Some (of_Z 60000)) 1700000000000 (replicate 16 9) in
  expires = of_Z 1700000060000
  ∧ verifyViewerToken (λ k m, [Z.of_nat (length (k ++ m)) mod 256]) token "203.0.113.99" "secret" 1700000060000 = Some true
  ∧ verifyViewerToken (λ k m, [Z.of_nat (length (k ++ m)) mod 256]) token "203.0.114.7" "secret" 1700000000000 = Some false.
Proof.
  pose proof (viewer_token_bound (λ k m, [Z.of_nat (length (k ++ m)) mod 256]) "203.0.113.7" "secret" 60000 1700000000000 (replicate 16 9)) as H.
  destruct (createViewerToken _ _ _ _ _ _) as [token expires].
  destruct H as (H1 & H2 & _); [| | done | done | lia | lia | unfold max_safe; lia |].
  - intros k m. split; [| done]. constructor; [unfold is_byte; apply Z.mod_pos_bound; lia | done].
  - apply Forall_replicate. unfold is_byte. lia.
  - split; [exact H1 |]. rewrite !H2. split; vm_compute; reflexivity.
Defined.
