(* ===== verification/Password.v ===== *)
(** * Passwords: [auth/password.ts]

    Stored hashes are PBKDF2 texts, with an older SHA-256 format still accepted.
    PBKDF2 and SHA-256 are parameters; so are Unicode normalization and case
    folding, whose tables are the language's. *)

From Stdlib Require Import ZifyBool.
From S2P Require Import Prelude JsStr JsNum JsBytes.
#[local] Open Scope Z_scope.

(** @worker/src/auth/password.ts:1-8 constants *)
Definition PASSWORD_ALGORITHM : jstr := "pbkdf2_sha256".
Definition PBKDF2_ITERATIONS : Z := 100000.
Definition MIN_ACCEPTED_PBKDF2_ITERATIONS : Z := 10000.
Definition SALT_BYTES : nat := 16.
Definition HASH_BYTES : nat := 32.
Definition LEGACY_SALT : jstr := "cf-monitor-salt".
(** @worker/src/auth/password.ts:9-9 MIN_ADMIN_PASSWORD_LENGTH *)
Definition MIN_ADMIN_PASSWORD_LENGTH : Z := 15.
(** @worker/src/auth/password.ts:11-18 COMMON_PASSWORDS *)
Definition COMMON_PASSWORDS : list jstr :=
  ["passwordpassword"; "passwordpassword1"; "passwordpassword123"; "123456789012345"; "1234567890123456"; "12345678901234567890";
   "qwertyuiopasdfgh"; "qwertyuiopasdfghjkl"; "qwertyuiopasdfghjklzxcvbnm"; "administrator123"; "administrator123456";
   "adminadminadmin"; "changemechangeme"; "letmeinletmein123"; "password123456789"; "cf-vps-monitor123"; "cf-vps-monitor123456";
   "correcthorsebatterystaple"].

(** @worker/src/auth/password.ts:20-24 ParsedPasswordHash *)
Record ParsedPasswordHash := { iterations : Z; salt : list Z; hash : list Z }.

(** @worker/src/auth/password.ts:28-34 bytesToBase64 *)
Definition bytesToBase64 (bytes : list Z) : jstr := JS (btoa bytes).
(** @worker/src/auth/password.ts:36-47 base64ToBytes *)
Definition base64ToBytes (value : jstr) : option (list Z) := atob (units value).
(** @worker/src/auth/password.ts:49-56 constantTimeEqual *)
Definition constantTimeEqual (a b : list Z) : bool := ct_equal a b.
(** @worker/src/auth/password.ts:58-60 constantTimeStringEqual *)
Definition constantTimeStringEqual (a b : jstr) : bool := constantTimeEqual (utf8 a) (utf8 b).

(** [/^[1-9]\d{0,6}$/] *)
Definition iteration_text (s : jstr) : bool :=
  match units s with
  | d :: r => is_digit d && negb (d =? 48)%N && forallb is_digit r && (length r <=? 6)%nat
  | [] => false
  end.
(** @worker/src/auth/password.ts:89-117 parsePasswordHash *)
Definition parsePasswordHash (text : jstr) : option ParsedPasswordHash :=
  match split_on (chr 36) text with
  | [algorithm; iterationsText; saltText; hashText] =>
    if negb (jeq algorithm PASSWORD_ALGORITHM) || negb (nonempty iterationsText) || negb (nonempty saltText) || negb (nonempty hashText) then None
    else if negb (iteration_text iterationsText) then None
    else match num_Z (str_num iterationsText), base64ToBytes saltText, base64ToBytes hashText with
         | Some n, Some s, Some h =>
           if (n <? MIN_ACCEPTED_PBKDF2_ITERATIONS) || (length s <? SALT_BYTES)%nat || negb (length h =? HASH_BYTES)%nat then None
           else Some {| iterations := n; salt := s; hash := h |}
         | _, _, _ => None
         end
  | _ => None
  end.

Section Password.
(** PBKDF2 with HMAC-SHA-256 to 32 bytes, SHA-256, and
    [s.normalize('NFKC').toLowerCase()]. *)
Context (pbkdf2 : list Z → list Z → Z → list Z) (sha256 : list Z → list Z) (fold_case : jstr → jstr).

(** @worker/src/auth/password.ts:62-80 derivePbkdf2 *)
Definition derivePbkdf2 (password : jstr) (salt : list Z) (iterations : Z) : list Z := pbkdf2 (utf8 password) salt iterations.
(** @worker/src/auth/password.ts:83-87 hashLegacyPassword *)
Definition hashLegacyPassword (password : jstr) : jstr :=
  JS (flat_map (λ b, units (hex_byte b)) (sha256 (utf8 (password +++ LEGACY_SALT)))).
(** @worker/src/auth/password.ts:119-123 hashPassword -- from the random salt *)
Definition hashPassword (password : jstr) (salt : list Z) : jstr :=
  PASSWORD_ALGORITHM +++ "$" +++ dec_Z PBKDF2_ITERATIONS +++ "$" +++ bytesToBase64 salt +++ "$"
  +++ bytesToBase64 (derivePbkdf2 password salt PBKDF2_ITERATIONS).
(** @worker/src/auth/password.ts:125-128 needsPasswordRehash *)
Definition needsPasswordRehash (text : jstr) : bool :=
  match parsePasswordHash text with None => true | Some p => iterations p <? PBKDF2_ITERATIONS end.

(** @worker/src/auth/password.ts:130-143 validateAdminPasswordStrength *)
Definition validateAdminPasswordStrength (password username : jstr) : option jstr :=
  if Z.of_nat (length (js_points (units password))) <? MIN_ADMIN_PASSWORD_LENGTH
  then Some ("密码至少需要 " +++ dec_Z MIN_ADMIN_PASSWORD_LENGTH +++ " 位")
  else
    let normalized := fold_case password in
    let account := fold_case (trim username) in
    if mem normalized COMMON_PASSWORDS
       || nonempty account && existsb (λ suffix, jeq normalized (account +++ suffix)) [""; "1"; "123"; "123456"; "!"; "password"]
    then Some "请避免常见密码或账号默认密码，建议使用较长且独有的短语" else None.

(** @worker/src/auth/password.ts:145-158 verifyPassword *)
Definition verifyPassword (password text : jstr) : bool :=
  match parsePasswordHash text with
  | Some p => constantTimeEqual (derivePbkdf2 password (salt p) (iterations p)) (hash p)
  | None =>
    if negb (all_units is_hex text && (slen text =? 64)) then false
    else constantTimeStringEqual (hashLegacyPassword password) (lower text)
  end.

(** ** Facts *)

Context (pbkdf2_bytes : ∀ p s n, Forall is_byte (pbkdf2 p s n) ∧ length (pbkdf2 p s n) = HASH_BYTES).
Context (sha256_bytes : ∀ m, Forall is_byte (sha256 m) ∧ length (sha256 m) = 32%nat).

Lemma btoa_no_dollar bytes : Forall is_byte bytes → forallb (λ u, negb (chr 36 u)) (btoa bytes) = true.
Proof.
  intros Hb. destruct (btoa_sextets bytes) as [-> _]. rewrite forallb_app. apply andb_true_iff. split.
  - apply forallb_true. intros x (v & -> & Hv)%list_elem_of_fmap. pose proof (sextets_range bytes Hb) as Hs.
    rewrite Forall_forall in Hs. specialize (Hs v Hv).
    assert (Hall : forallb (λ n, negb (chr 36 (b64_char (Z.of_nat n)))) (seq 0 64) = true) by (vm_compute; reflexivity).
    rewrite forallb_true in Hall. specialize (Hall (Z.to_nat v)). unfold is_sextet in Hs. rewrite Z2Nat.id in Hall by lia.
    apply Hall, elem_of_seq. lia.
  - generalize (pad_length (length (sextets bytes))). intros n. induction n as [|n IH]; [done | exact IH].
Qed.

Lemma btoa_nonempty bytes : bytes ≠ [] → nonempty (JS (btoa bytes)) = true.
Proof. intros Hne. apply nonempty_true. destruct bytes as [|a [|b [|c r]]]; done. Qed.

Lemma parse_hashPassword password s :
  Forall is_byte s → length s = SALT_BYTES →
  parsePasswordHash (hashPassword password s)
  = Some {| iterations := PBKDF2_ITERATIONS; salt := s; hash := derivePbkdf2 password s PBKDF2_ITERATIONS |}.
Proof.
  intros Hs Hl. destruct (pbkdf2_bytes (utf8 password) s PBKDF2_ITERATIONS) as [Hb Hbl].
  assert (Hj : hashPassword password s = join (JS [36%N]) [PASSWORD_ALGORITHM; dec_Z PBKDF2_ITERATIONS; bytesToBase64 s;
                 bytesToBase64 (derivePbkdf2 password s PBKDF2_ITERATIONS)]) by done.
  unfold parsePasswordHash. rewrite Hj, (split_join (chr 36) 36); [| done | done |].
  2:{ intros x Hx. list_cases Hx; try done; by apply btoa_no_dollar. }
  rewrite jeq_refl. unfold bytesToBase64. rewrite !btoa_nonempty by (intros E; unfold derivePbkdf2 in *; rewrite E in *; done).
  change (nonempty (dec_Z PBKDF2_ITERATIONS)) with true. change (iteration_text (dec_Z PBKDF2_ITERATIONS)) with true. cbn [negb orb].
  rewrite str_num_dec_Z by (unfold PBKDF2_ITERATIONS, max_safe; lia). rewrite num_Z_of_Z. unfold base64ToBytes. cbn [units].
  rewrite !atob_btoa by done. rewrite Hl. unfold derivePbkdf2. rewrite Hbl. done.
Qed.

Lemma hash_legacy_ascii password :
  forallb (λ u, (u <? 128)%N) (units (hashLegacyPassword password)) = true ∧ slen (hashLegacyPassword password) = 64.
Proof.
  destruct (sha256_bytes (utf8 (password +++ LEGACY_SALT))) as [Hb Hl]. destruct (hex_bytes_lower _ Hb) as [H1 H2].
  unfold slen, hashLegacyPassword. cbn [units]. rewrite H2, Hl. split; [| done].
  rewrite forallb_true in *. intros u Hu. specialize (H1 u Hu). unfold is_hex_lower, is_digit in H1. lia.
Qed.

Lemma hex_lower_ascii s : all_units is_hex s = true → utf8 (lower s) = map Z.of_N (units (lower s)) ∧ forallb is_hex_lower (units (lower s)) = true.
Proof.
  intros Hs. unfold all_units in Hs. assert (Hl : forallb is_hex_lower (units (lower s)) = true).
  { unfold lower. cbn [units]. induction (units s) as [|u l IH]; [done |]. cbn [forallb] in Hs. apply andb_true_iff in Hs as [Hu Hl].
    cbn [flat_map]. rewrite forallb_app, (IH Hl), andb_true_r. unfold is_hex, is_hex_lower, is_digit in Hu. unfold lower_unit.
    destruct ((65 <=? u) && (u <=? 90))%N eqn:E.
    - cbn [forallb]. rewrite andb_true_r. unfold is_hex_lower, is_digit. lia.
    - assert (Hk : (u =? 8490)%N = false ∧ (u =? 304)%N = false) by (split; apply N.eqb_neq; lia). destruct Hk as [-> ->].
      cbn [forallb]. rewrite andb_true_r. unfold is_hex_lower, is_digit. lia. }
  split; [| done]. apply utf8_ascii. rewrite forallb_true in *. intros u Hu. specialize (Hl u Hu). unfold is_hex_lower, is_digit in Hl. lia.
Qed.
End Password.

Lemma parse_hex_none s : all_units is_hex s = true → parsePasswordHash s = None.
Proof.
  intros Hs. unfold parsePasswordHash, split_on. rewrite split_units_last; [done |].
  unfold all_units in Hs. rewrite forallb_true in *. intros u Hu. specialize (Hs u Hu). unfold chr.
  destruct (N.eqb_spec u 36) as [-> |]; done.
Qed.

(** ** Properties *)

(** A stored hash verifies its own password and any other exactly when PBKDF2
    derives the same bytes from it with the stored salt, and needs no rehash.  A
    64-digit text of the older format verifies exactly the passwords whose salted
    SHA-256 it spells, in either letter case, and always asks for a rehash;
    every other text that does not parse verifies nothing. *)
Theorem verifyPassword_spec pbkdf2 sha256 :
  (∀ p s n, Forall is_byte (pbkdf2 p s n) ∧ length (pbkdf2 p s n) = HASH_BYTES) →
  (∀ m, Forall is_byte (sha256 m) ∧ length (sha256 m) = 32%nat) →
  (∀ p q s, Forall is_byte s → length s = SALT_BYTES →
     verifyPassword pbkdf2 sha256 q (hashPassword pbkdf2 p s)
       = bool_decide (derivePbkdf2 pbkdf2 q s PBKDF2_ITERATIONS = derivePbkdf2 pbkdf2 p s PBKDF2_ITERATIONS)
     ∧ needsPasswordRehash (hashPassword pbkdf2 p s) = false)
  ∧ (∀ q text, all_units is_hex text = true → slen text = 64 →
     verifyPassword pbkdf2 sha256 q text = bool_decide (hashLegacyPassword sha256 q = lower text) ∧ needsPasswordRehash text = true)
  ∧ (∀ q text, parsePasswordHash text = None → all_units is_hex text && (slen text =? 64) = false →
     verifyPassword pbkdf2 sha256 q text = false).
Proof.
  intros Hp Hs. split; [| split].
  - intros p q s Hb Hl. pose proof (parse_hashPassword pbkdf2 Hp p s Hb Hl) as Hparse.
    unfold verifyPassword, needsPasswordRehash. rewrite Hparse. cbn [salt iterations hash]. split; [| done].
    apply eq_true_iff_eq. unfold constantTimeEqual. by rewrite ct_equal_spec, bool_decide_eq_true.
  - intros q text Hh Hl. unfold verifyPassword, needsPasswordRehash. rewrite parse_hex_none by done. split; [| done].
    rewrite Hh, Hl. cbn [andb negb Z.eqb Pos.eqb]. unfold constantTimeStringEqual, constantTimeEqual.
    destruct (hex_lower_ascii text Hh) as [-> _]. destruct (hash_legacy_ascii sha256 Hs q) as [Ha _].
    rewrite (utf8_ascii (hashLegacyPassword sha256 q)) by done. apply eq_true_iff_eq. rewrite ct_equal_spec, bool_decide_eq_true.
    destruct (hashLegacyPassword sha256 q) as [a], (lower text) as [b]. cbn [units]. split; [intros ->%map_of_N_inj; done | congruence].
  - intros q text Hn Hf. unfold verifyPassword. rewrite Hn, Hf. done.
Qed.

Lemma verifyPassword_spec_witness :
  let pbkdf2 := λ p s n, take 32 (map (λ x, (x + n) mod 256) (p ++ s) ++ replicate 32 0) in
  let sha256 := λ m, take 32 (map (λ x, x mod 256) m ++ replicate 32 0) in
  verifyPassword pbkdf2 sha256 "correct horse" (hashPassword pbkdf2 "correct horse" (replicate 16 5)) = true
  ∧ verifyPassword pbkdf2 sha256 "wrong horse" (hashPassword pbkdf2 "correct horse" (replicate 16 5)) = false.
Proof.
  intros pbkdf2 sha256. destruct (verifyPassword_spec pbkdf2 sha256) as [H _].
  - assert (Hm : ∀ n l, Forall is_byte (map (λ x, (x + n) mod 256) l)).
    { intros n l. induction l; constructor; [unfold is_byte; apply Z.mod_pos_bound; lia | done]. }
    intros p s n. unfold pbkdf2. split; [apply Forall_take, Forall_app; split; [apply Hm | apply Forall_replicate; unfold is_byte; lia] |].
    rewrite length_take, length_app, length_replicate. unfold HASH_BYTES. lia.
  - assert (Hm : ∀ l, Forall is_byte (map (λ x, x mod 256) l)).
    { intros l. induction l; constructor; [unfold is_byte; apply Z.mod_pos_bound; lia | done]. }
    intros m. unfold sha256. split; [apply Forall_take, Forall_app; split; [apply Hm | apply Forall_replicate; unfold is_byte; lia] |].
    rewrite length_take, length_app, length_replicate. lia.
  - assert (Hs : Forall is_byte (replicate 16 5)) by (apply Forall_replicate; unfold is_byte; lia).
    split; rewrite (proj1 (H "correct horse" _ (replicate 16 5) Hs eq_refl)); vm_compute; reflexivity.
Defined.
