(* ===== verification/LiveAuth.v ===== *)
(** * Agent credentials of the live object: [do/live-data.ts]

    The durable object keeps, per node, the hash of the token in force: a pointer
    from the node to the hash, the snapshot of the node under the hash and a
    control row that outlives both.  The three key prefixes are disjoint, so the
    storage is three maps; writes issued without an intervening [await] commit
    together.  [Date.parse] is a parameter. *)

From S2P Require Import Prelude JsStr JsNum JsVal JsBytes.
#[local] Open Scope Z_scope.

(** ** Reading untyped fields *)

(** @worker/src/do/live-data.ts:174-177 stringField *)
Definition stringField (source : fields) (key : jstr) : jstr :=
  match fld source key with JStr s => s | _ => "" end.
(** @worker/src/do/live-data.ts:219-222 nullableStringField *)
Definition nullableStringField (source : fields) (key : jstr) : jsval :=
  match fld source key with JStr s => if negb (jeq (trim s) "") then JStr s else JNull | _ => JNull end.
(** @worker/src/do/live-data.ts:224-227 numberField *)
Definition numberField (source : fields) (key : jstr) : num :=
  match fld source key with JNum a => if is_finite a then a else of_Z 0 | _ => of_Z 0 end.
(** @worker/src/do/live-data.ts:229-238 booleanField *)
Definition booleanField (source : fields) (key : jstr) : bool :=
  match fld source key with
  | JBool b => b
  | JNum a => negb (num_eqb a (of_Z 0))
  | JStr s => let n := lower (trim s) in jeq n "true" || jeq n "1"
  | _ => false
  end.

(** ** Snapshots *)

(** @worker/src/do/live-data.ts:344-381 AgentAuthSnapshot -- an object with the
    properties [normalizeAgentAuthSnapshot] gives it *)
Definition snapshot := fields.
Definition s_uuid (c : snapshot) : jstr := stringField c "uuid".
Definition s_hash (c : snapshot) : jstr := stringField c "token_hash".

Definition snapshot_strings : list jstr :=
  ["cpu_name"; "virtualization"; "arch"; "os"; "kernel_version"; "gpu_name"; "ipv4"; "ipv6"; "region"; "remark"; "public_remark";
   "version"; "currency"; "expired_at"; "group"; "tags"; "created_at"; "updated_at"; "token_last_used_ip"].
Definition snapshot_numbers : list jstr :=
  ["cpu_cores"; "mem_total"; "swap_total"; "disk_total"; "price"; "billing_cycle"; "traffic_limit"].
(** @worker/src/do/live-data.ts:240-287 normalizeAgentAuthSnapshot -- the
    properties grouped by the reader they share *)
Definition normalizeAgentAuthSnapshot (value : jsval) : option snapshot :=
  if negb (is_object value) then None
  else
    let v := as_object value in
    let uuid := trim (stringField v "uuid") in
    let tokenHash := trim (stringField v "token_hash") in
    if negb (nonempty uuid) || negb (nonempty tokenHash) then None
    else Some (
      [("uuid", JStr uuid); ("token", JStr ""); ("token_hash", JStr tokenHash);
       ("token_last_used_at", nullableStringField v "token_last_used_at");
       ("token_rotated_at", nullableStringField v "token_rotated_at");
       ("name", JStr (or_str (stringField v "name") uuid));
       ("auto_renewal", JBool (booleanField v "auto_renewal")); ("hidden", JBool (booleanField v "hidden"));
       ("traffic_limit_type", JStr (or_str (stringField v "traffic_limit_type") "sum"))]
      ++ map (λ k, (k, JStr (stringField v k))) snapshot_strings
      ++ map (λ k, (k, JNum (numberField v k))) snapshot_numbers
      ++ match fld v "sort_order" with JNum a => if is_finite a then [("sort_order", JNum a)] else [] | _ => [] end).

(** @worker/src/do/live-data.ts:383-388 AgentAuthControl -- revisions are decimal
    texts without leading zeros, compared as integers *)
Record control := { tokenHash : option jstr; rotatedAt : Z; revision : option Z; removed : bool }.
(** @worker/src/do/live-data.ts:115-117 AGENT_AUTH_SNAPSHOT_PREFIX,
    AGENT_AUTH_UUID_PREFIX, AGENT_AUTH_CONTROL_PREFIX -- the maps under them *)
Record auth_store := { snaps : gmap jstr snapshot; pointers : gmap jstr jstr; controls : gmap jstr control }.

Section Auth.
(** [Date.parse], [None] for [NaN]. *)
Context (date_parse : jstr → option Z).

(** [Date.parse(c[a] || c[b] || '') || 0] *)
Definition date_of (c : snapshot) (keys : list jstr) : Z :=
  default 0 (date_parse (fold_right (λ k r, or_str (stringField c k) r) "" keys)).

(** @worker/src/do/live-data.ts:1497-1526 storeAgentAuthSnapshot *)
Definition storeAgentAuthSnapshot (client : snapshot) (rev : option Z) (st : auth_store) : bool * auth_store :=
  let uuid := s_uuid client in
  let hash := s_hash client in
  let ctl := controls st !! uuid in
  let previousHash := match pointers st !! uuid with Some h => if nonempty h then Some h else None | None => None end in
  let previous := match previousHash with Some h => snaps st !! h | None => None end in
  let rotated := date_of client ["token_rotated_at"; "created_at"] in
  let oldRotated := match ctl with
                    | Some c => rotatedAt c
                    | None => match previous with Some p => date_of p ["token_rotated_at"; "created_at"]
                              | None => default 0 (date_parse "") end
                    end in
  let ctl_revision := match ctl with Some c => revision c | None => None end in
  let write :=
    (true,
     {| snaps := <[hash := client]> (match previousHash with
                                     | Some h => if jeq h hash then snaps st else delete h (snaps st)
                                     | None => snaps st end);
        pointers := <[uuid := hash]> (pointers st);
        controls := <[uuid := {| tokenHash := Some hash; rotatedAt := rotated;
                                 revision := match rev with Some _ => rev | None => ctl_revision end; removed := false |}]> (controls st) |}) in
  match rev with
  | Some r => match ctl_revision with Some c => if r <? c then (false, st) else write | None => write end
  | None =>
    if match ctl with Some c => removed c | None => false end then (false, st)
    else if match ctl with
            | Some c => match revision c with Some _ => negb (bool_decide (tokenHash c = Some hash)) | None => false end
            | None => false end then (false, st)
    else if match previousHash with Some h => negb (jeq h hash) && (rotated <=? oldRotated) | None => false end then (false, st)
    else if match previousHash, previous with
            | Some h, Some p => jeq h hash && (date_of client ["updated_at"] <? date_of p ["updated_at"])
            | _, _ => false end then (true, st)
    else write
  end.

(** @worker/src/do/live-data.ts:1528-1533 isAgentCredentialCurrent -- an absent
    hash is [undefined] or the empty text *)
Definition isAgentCredentialCurrent (uuid : jstr) (hash : jstr) (st : auth_store) : bool :=
  match controls st !! uuid with
  | None => true
  | Some c => negb (removed c)
              && (match revision c with None => true | Some _ => nonempty hash end)
              && (negb (nonempty hash) || bool_decide (tokenHash c = Some hash))
  end.

(** @worker/src/do/live-data.ts:1535-1546 lookupAgentAuthSnapshot -- of a
    non-empty hash *)
Definition lookupAgentAuthSnapshot (hash : jstr) (st : auth_store) : option snapshot :=
  match snaps st !! hash with
  | None => None
  | Some client =>
    let ctl := controls st !! s_uuid client in
    if bool_decide (pointers st !! s_uuid client = Some hash)
       && negb (match ctl with Some c => removed c | None => false end)
       && match ctl with None => true | Some c => bool_decide (tokenHash c = Some hash) end
    then Some client else None
  end.

(** @worker/src/do/live-data.ts:1548-1559 removeAgentAuthByUuid *)
Definition removeAgentAuthByUuid (now : Z) (uuid : jstr) (st : auth_store) : auth_store :=
  let hash := pointers st !! uuid in
  let ctl := controls st !! uuid in
  {| snaps := match hash with Some h => if nonempty h then delete h (snaps st) else snaps st | None => snaps st end;
     pointers := delete uuid (pointers st);
     controls := <[uuid := {| tokenHash := None;
                              rotatedAt := match ctl with Some c => if rotatedAt c =? 0 then now else rotatedAt c | None => now end;
                              revision := match ctl with Some c => revision c | None => None end; removed := true |}]> (controls st) |}.

(** @worker/src/do/live-data.ts:1620-1628 removeAgentAuthSnapshot -- the bare hash
    first, then the node *)
Definition removeAgentAuthSnapshot (now : Z) (uuid hash : jstr) (st : auth_store) : auth_store :=
  let st := if nonempty hash then {| snaps := delete hash (snaps st); pointers := pointers st; controls := controls st |} else st in
  if nonempty uuid then removeAgentAuthByUuid now uuid st else st.

(** @worker/src/do/live-data.ts:1472-1484 upsertAgentAuthSnapshot -- the status *)
Definition upsertAgentAuthSnapshot (body : fields) (st : auth_store) : Z * auth_store :=
  match normalizeAgentAuthSnapshot (js_or (fld body "client") (JObj body)) with
  | None => (400, st)
  | Some client => let '(accepted, st) := storeAgentAuthSnapshot client None st in (if accepted : bool then 200 else 409, st)
  end.
End Auth.

(** ** Facts *)

Section Facts.
Context (date_parse : jstr → option Z).

(** What the operations keep: a snapshot lies under its own hash, and a pointer
    agrees with a control row that is not removed. *)
Record auth_ok (st : auth_store) : Prop := {
  ok_snaps h c : snaps st !! h = Some c → s_hash c = h;
  ok_pointers u h : pointers st !! u = Some h →
    ∃ ctl, controls st !! u = Some ctl ∧ tokenHash ctl = Some h ∧ removed ctl = false;
}.

Inductive auth_step : auth_store → auth_store → Prop :=
| step_store client rev st : auth_step st (storeAgentAuthSnapshot date_parse client rev st).2
| step_remove now uuid st : auth_step st (removeAgentAuthByUuid now uuid st)
| step_remove_snapshot now uuid hash st : auth_step st (removeAgentAuthSnapshot now uuid hash st)
| step_upsert body st : auth_step st (upsertAgentAuthSnapshot date_parse body st).2.
Inductive auth_reachable : auth_store → Prop :=
| reach_empty : auth_reachable {| snaps := ∅; pointers := ∅; controls := ∅ |}
| reach_step st st' : auth_reachable st → auth_step st st' → auth_reachable st'.

Lemma lookup_delete_weak (h h' : jstr) (m : gmap jstr snapshot) c : delete h m !! h' = Some c → m !! h' = Some c.
Proof. intros H. by apply lookup_delete_Some in H as [_ H]. Qed.

(** The store after a write of [storeAgentAuthSnapshot]. *)
Lemma store_cases client rev st :
  (storeAgentAuthSnapshot date_parse client rev st).2 = st
  ∨ ∃ m r rot, (storeAgentAuthSnapshot date_parse client rev st).2 =
      {| snaps := <[s_hash client := client]> m;
         pointers := <[s_uuid client := s_hash client]> (pointers st);
         controls := <[s_uuid client := {| tokenHash := Some (s_hash client); rotatedAt := rot; revision := r; removed := false |}]> (controls st) |}
     ∧ (∀ h c, m !! h = Some c → snaps st !! h = Some c).
Proof.
  assert (Hm : ∀ o h c, (match (match o with Some h => if nonempty h then Some h else None | None => None end) with
                         | Some h => if jeq h (s_hash client) then snaps st else delete h (snaps st)
                         | None => snaps st end : gmap jstr snapshot) !! h = Some c → snaps st !! h = Some c).
  { intros o h c. destruct o as [x|]; [destruct (nonempty x); [destruct (jeq x (s_hash client)) |] |]; try done. apply lookup_delete_weak. }
  unfold storeAgentAuthSnapshot. cbv zeta. destruct rev as [r|].
  - destruct (match controls st !! s_uuid client with Some c => revision c | None => None end) as [cr|];
      [destruct (r <? cr); [by left |] |]; right; eexists _, _, _; (split; [reflexivity | apply Hm]).
  - repeat (match goal with |- context [if ?b then (_, st) else _] => destruct b; [by left |] end).
    right. eexists _, _, _; (split; [reflexivity | apply Hm]).
Qed.

Lemma store_ok client rev st : auth_ok st → auth_ok (storeAgentAuthSnapshot date_parse client rev st).2.
Proof.
  intros [Hs Hp]. destruct (store_cases client rev st) as [-> | (m & r & rot & -> & Hm)]; [by split |]. split; cbn [snaps pointers controls].
  - intros h c. rewrite lookup_insert. destruct (decide (s_hash client = h)) as [<- | Hne]; [by intros [= <-] |]. intros Hc. by apply Hs, Hm.
  - intros u h. rewrite !lookup_insert. destruct (decide (s_uuid client = u)) as [<- | Hne]; [intros [= <-]; eauto | apply Hp].
Qed.

Lemma remove_ok now uuid st : auth_ok st → auth_ok (removeAgentAuthByUuid now uuid st).
Proof.
  intros [Hs Hp]. unfold removeAgentAuthByUuid. split; cbn [snaps pointers controls].
  - intros h c Hc. apply Hs. destruct (pointers st !! uuid) as [x|]; [destruct (nonempty x) |]; try done. by apply lookup_delete_weak in Hc.
  - intros u h [Hne Hu]%lookup_delete_Some. rewrite lookup_insert_ne by done. by apply Hp.
Qed.

Lemma auth_step_ok st st' : auth_step st st' → auth_ok st → auth_ok st'.
Proof.
  intros Hstep Hok. destruct Hstep as [client rev st|now uuid st|now uuid hash st|body st].
  - by apply store_ok.
  - by apply remove_ok.
  - unfold removeAgentAuthSnapshot.
    set (st1 := if nonempty hash then {| snaps := delete hash (snaps st); pointers := pointers st; controls := controls st |} else st).
    assert (H1 : auth_ok st1).
    { unfold st1. destruct (nonempty hash); [| done]. destruct Hok as [Hs Hp]. split; [| done].
      intros h c Hc. cbn [snaps] in Hc. by apply Hs, (lookup_delete_weak hash). }
    destruct (nonempty uuid); [by apply remove_ok | done].
  - unfold upsertAgentAuthSnapshot. destruct (normalizeAgentAuthSnapshot _) as [client|]; [| done].
    pose proof (store_ok client None st Hok) as H. by destruct (storeAgentAuthSnapshot date_parse client None st).
Qed.

Lemma auth_reachable_ok st : auth_reachable st → auth_ok st.
Proof. induction 1 as [|st st' _ IH Hs]; [by split |]. by eapply auth_step_ok. Qed.
End Facts.

(** ** Properties *)

(** C15: In every credential store the operations reach, a token that looks up
    belongs to its node and is the only one in force for it; after a removal no
    token of the node looks up or is current, and no unversioned write brings the
    node back or replaces a token by one rotated no later. *)
Theorem agent_credentials_exclusive date_parse st :
  auth_reachable date_parse st →
  (∀ h c, nonempty h = true → lookupAgentAuthSnapshot h st = Some c →
     s_hash c = h ∧ isAgentCredentialCurrent (s_uuid c) h st = true
     ∧ (∀ h', nonempty h' = true → h' ≠ h → isAgentCredentialCurrent (s_uuid c) h' st = false)
     ∧ (∀ h' c', lookupAgentAuthSnapshot h' st = Some c' → s_uuid c' = s_uuid c → h' = h))
  ∧ (∀ now u, let st' := removeAgentAuthByUuid now u st in
     (∀ h, isAgentCredentialCurrent u h st' = false) ∧ (∀ h c, lookupAgentAuthSnapshot h st' = Some c → s_uuid c ≠ u)
     ∧ (∀ client, s_uuid client = u → storeAgentAuthSnapshot date_parse client None st' = (false, st')))
  ∧ (∀ client h ctl, pointers st !! s_uuid client = Some h → nonempty h = true → h ≠ s_hash client →
     controls st !! s_uuid client = Some ctl → date_of date_parse client ["token_rotated_at"; "created_at"] ≤ rotatedAt ctl →
     storeAgentAuthSnapshot date_parse client None st = (false, st)).
Proof.
  intros Hr. apply auth_reachable_ok in Hr as [Hs Hp].
  assert (Hlook : ∀ h c, lookupAgentAuthSnapshot h st = Some c → snaps st !! h = Some c ∧ pointers st !! s_uuid c = Some h).
  { intros h c. unfold lookupAgentAuthSnapshot. destruct (snaps st !! h) as [x|]; [| done].
    destruct (bool_decide _) eqn:E; [| done]. apply bool_decide_eq_true in E. cbn [andb]. destruct (_ && _); [| done]. by intros [= <-]. }
  split; [| split].
  - intros h c Hne Hl. destruct (Hlook h c Hl) as [Hsn Hpt]. split; [by apply Hs |].
    destruct (Hp _ _ Hpt) as (ctl & Hc & Ht & Hrm). unfold isAgentCredentialCurrent. rewrite Hc, Hrm, Ht, Hne. cbn [negb andb orb].
    split; [rewrite bool_decide_true by done; by destruct (revision ctl) | split].
    + intros h' Hne' Hd. rewrite Hne'. cbn [negb orb]. rewrite bool_decide_false by congruence. by rewrite andb_false_r.
    + intros h' c' Hl' Hu. destruct (Hlook h' c' Hl') as [_ Hpt']. rewrite Hu in Hpt'. congruence.
  - intros now u. cbv zeta. split; [| split].
    + intros h. unfold isAgentCredentialCurrent, removeAgentAuthByUuid. cbn [controls]. by rewrite lookup_insert_eq.
    + intros h c Hl Hu. unfold lookupAgentAuthSnapshot in Hl. destruct (snaps _ !! h) as [x|]; [| done].
      destruct (bool_decide _) eqn:E; [| done]. apply bool_decide_eq_true in E. cbn [andb] in Hl.
      destruct (_ && _) in Hl; [| done]. injection Hl as <-. cbn [removeAgentAuthByUuid pointers] in E. rewrite Hu in E. by rewrite lookup_delete_eq in E.
    + intros client Hu. unfold storeAgentAuthSnapshot. cbv zeta. rewrite Hu. cbn [removeAgentAuthByUuid controls]. by rewrite lookup_insert_eq.
  - intros client h ctl Hpt Hne Hd Hc Hrot. unfold storeAgentAuthSnapshot. cbv zeta. rewrite Hc, Hpt, Hne.
    destruct (removed ctl); [done |]. destruct (match revision ctl with Some _ => _ | None => _ end); [done |].
    assert (Hj : jeq h (s_hash client) = false) by (by apply jeq_false). rewrite Hj. by rewrite (proj2 (Z.leb_le _ _) Hrot).
Qed.

Definition sample_snapshot (uuid hash rotated : jstr) : snapshot :=
  default [] (normalizeAgentAuthSnapshot (JObj [("uuid", JStr uuid); ("token_hash", JStr hash); ("token_rotated_at", JStr rotated)])).
Definition sample_dates (s : jstr) : option Z := if jeq s "2024-01-01" then Some 100 else if jeq s "2024-02-01" then Some 200 else None.
Lemma agent_credentials_exclusive_witness :
  let st := (storeAgentAuthSnapshot sample_dates (sample_snapshot "n1" "h1" "2024-02-01") None {| snaps := ∅; pointers := ∅; controls := ∅ |}).2 in
  lookupAgentAuthSnapshot "h1" st = Some (sample_snapshot "n1" "h1" "2024-02-01")
  ∧ isAgentCredentialCurrent "n1" "h2" st = false
  ∧ storeAgentAuthSnapshot sample_dates (sample_snapshot "n1" "h2" "2024-01-01") None st = (false, st).
Proof.
  intros st. assert (Hl : lookupAgentAuthSnapshot "h1" st = Some (sample_snapshot "n1" "h1" "2024-02-01")) by (vm_compute; reflexivity).
  destruct (agent_credentials_exclusive sample_dates st) as (H1 & _ & H3); [eapply reach_step; [apply reach_empty | apply step_store] |].
  split; [done |]. split.
  - destruct (H1 "h1" (sample_snapshot "n1" "h1" "2024-02-01") eq_refl Hl) as (_ & _ & H & _). apply (H "h2"); [reflexivity | discriminate].
  - eapply H3; [vm_compute; reflexivity | reflexivity | discriminate | vm_compute; reflexivity | vm_compute; discriminate].
Defined.
