(* ===== verification/LiveAdmin.v ===== *)
(** * Node metadata and what viewers see: [do/live-data.ts]

    The durable object keeps one versioned snapshot of the nodes' administrative
    metadata, with the removed nodes as tombstones.  Its memory copy is the
    stored one: the constructor reads it before any request and every write
    remembers what it stored, so the model has a single snapshot.  Live reports
    are shown through it. *)

From S2P Require Import Prelude JsStr JsNum JsVal Net Report LiveAuth.
#[local] Open Scope Z_scope.

(** @worker/src/do/live-data.ts:337-342 AdminClientsSnapshot -- [complete] is
    true unless the property is [false] *)
Record admin_snapshot := { a_clients : list fields; a_updatedAt : Z; a_removed : list jstr; a_complete : bool }.

(** @worker/src/do/live-data.ts:33-41 ClientState *)
Record client_state := {
  cs_uuid : jstr; cs_name : jstr; cs_hidden : bool; cs_lastReportTime : Z; cs_lastReport : fields;
  cs_expiresAt : option Z; cs_websocket : bool;
}.

(** [String(client.uuid)] *)
Definition uuid_text (c : fields) : jstr := to_str (fld c "uuid").

(** ** Operations on the snapshot *)

(** @worker/src/do/live-data.ts:1767-1773 sanitizeAdminClientSnapshotItem (address) *)
Definition clear_private_address (field : jstr) (safe : fields) : fields :=
  match fld safe field with
  | JStr s => if nonempty (trim s) && negb (isPublicIpAddress s) then set_field field (JStr "") safe else safe
  | _ => safe
  end.
(** @worker/src/do/live-data.ts:1763-1776 sanitizeAdminClientSnapshotItem *)
Definition sanitizeAdminClientSnapshotItem (client : fields) : option fields :=
  let uuid := match fld client "uuid" with JStr s => trim s | _ => "" end in
  if negb (nonempty uuid) then None
  else
    let safe := del_field "token_hash" (del_field "token" client) in
    let safe := clear_private_address "ipv6" (clear_private_address "ipv4" safe) in
    let public k := JBool (isPublicIpAddress (to_str (js_or (fld safe k) (JStr "")))) in
    let safe := set_field "has_ipv4" (public "ipv4") safe in
    let safe := set_field "has_ipv6" (public "ipv6") safe in
    Some (set_field "uuid" (JStr uuid) safe).

Definition next_version (now : Z) (previous : option admin_snapshot) : Z :=
  Z.max now (match previous with Some s => a_updatedAt s | None => 0 end + 1).
Definition removed_of (previous : option admin_snapshot) : list jstr := match previous with Some s => a_removed s | None => [] end.
Definition objects (v : jsval) : list fields :=
  match v with JArr l => omap (λ x, match x with JObj fs => Some fs | _ => None end) l | _ => [] end.
Definition strings (v : jsval) : list jstr :=
  match v with JArr l => omap (λ x, match x with JStr s => Some s | _ => None end) l | _ => [] end.

(** The order given to a client, if it is one. *)
Definition positive_order (v : jsval) : option jsval :=
  match v with
  | JNum a => match num_Z a with Some z => if (Z.abs z <=? max_safe) && (0 <? z) then Some v else None | None => None end
  | _ => None
  end.
(** @worker/src/do/live-data.ts:1809-1841 writeAdminClientsSnapshot -- the status,
    with the new snapshot when it is stored *)
Definition writeAdminClientsSnapshot (now : Z) (body : fields) (previous : option admin_snapshot) : Z * option admin_snapshot :=
  let clients := omap sanitizeAdminClientSnapshotItem (objects (fld body "clients")) in
  let reorder := is_str (fld body "mode") "reorder" in
  let version_differs :=
    match previous with
    | Some p => match fld body "expected_version" with JNum v => negb (num_eqb v (of_Z (a_updatedAt p))) | _ => true end
    | None => negb (is_null (fld body "expected_version"))
    end in
  if negb reorder && (match previous with Some _ => true | None => has_own body "expected_version" end) && version_differs
  then (409, previous)
  else
    let confirmed := if reorder then [] else strings (fld body "confirmed_removed") in
    let removed := List.filter (λ u, negb (mem u confirmed)) (removed_of previous) in
    let kept := List.filter (λ c, negb (mem (uuid_text c) (removed_of previous))) clients in
    let nextClients :=
      match previous with
      | Some p =>
        if reorder then
          let orders := spread [] (map (λ c, (uuid_text c, fld c "sort_order")) clients) in
          map (λ c, match positive_order (fld orders (uuid_text c)) with
                    | Some o => set_field "sort_order" o c
                    | None => c
                    end) (a_clients p)
        else kept
      | None => kept
      end in
    (200, Some {| a_clients := nextClients; a_updatedAt := next_version now previous; a_removed := removed;
                  a_complete := match previous with Some p => if reorder then a_complete p else true | None => true end |}).

(** @worker/src/do/live-data.ts:1843-1876 upsertAdminClientSnapshot -- [current]
    is the live node's name and visibility, used before any snapshot exists *)
Definition upsertAdminClientSnapshot (now : Z) (client : fields) (fromAgent : bool) (current : option (jstr * bool))
    (snapshot : option admin_snapshot) : option fields * option admin_snapshot :=
  match sanitizeAdminClientSnapshotItem client with
  | None => (None, snapshot)
  | Some safe =>
    match snapshot with
    | None =>
      if fromAgent then
        (match current with
         | Some (name, hidden) => Some (set_field "hidden" (JBool hidden) (set_field "name" (JStr name) safe))
         | None => None
         end, None)
      else (Some safe, Some {| a_clients := [safe]; a_updatedAt := next_version now None; a_removed := []; a_complete := false |})
    | Some s =>
      let byUuid := spread [] (map (λ c, (to_str (js_or (fld c "uuid") (JStr "")), c)) (a_clients s)) in
      let uuid := uuid_text safe in
      let previous := lookup_field uuid byUuid in
      if fromAgent && ((match previous with None => true | Some _ => false end) || mem uuid (a_removed s)) then (None, snapshot)
      else
        let merged := spread (default [] previous) safe in
        (Some merged,
         Some {| a_clients := map snd (set_field uuid merged byUuid); a_updatedAt := next_version now snapshot;
                 a_removed := List.filter (λ u, negb (jeq u uuid)) (a_removed s); a_complete := a_complete s |})
    end
  end.

(** @worker/src/do/live-data.ts:1878-1887 removeAdminClientSnapshot *)
Definition removeAdminClientSnapshot (now : Z) (uuid : jstr) (snapshot : option admin_snapshot) : option admin_snapshot :=
  Some {| a_clients := List.filter (λ c, negb (is_str (fld c "uuid") uuid)) (match snapshot with Some s => a_clients s | None => [] end);
          a_updatedAt := next_version now snapshot;
          a_removed := take 200 (uuid :: List.filter (λ u, negb (jeq u uuid)) (removed_of snapshot));
          a_complete := match snapshot with Some s => a_complete s | None => false end |}.

(** ** Control over live nodes *)

(** [adminClientMetadata.get(uuid)]: the last client of that text *)
Definition metadata_of (snapshot : option admin_snapshot) (uuid : jstr) : option fields :=
  match snapshot with
  | Some s => List.find (λ c, jeq (uuid_text c) uuid) (rev (a_clients s))
  | None => None
  end.
Definition metadata_name (m : fields) (name : jstr) : jstr := match fld m "name" with JStr s => s | _ => name end.

(** The snapshot exists and takes the node for removed or unknown. *)
Definition excluded (snapshot : option admin_snapshot) (uuid : jstr) (metadata : option fields) : bool :=
  match snapshot with
  | Some s => mem uuid (a_removed s) || a_complete s && match metadata with None => true | Some _ => false end
  | None => false
  end.
(** @worker/src/do/live-data.ts:697-706 controlledClientState *)
Definition controlledClientState (snapshot : option admin_snapshot) (client : client_state) : option client_state :=
  let metadata := metadata_of snapshot (cs_uuid client) in
  if excluded snapshot (cs_uuid client) metadata then None
  else Some (match metadata with
             | Some m => {| cs_uuid := cs_uuid client; cs_name := metadata_name m (cs_name client); cs_hidden := booleanField m "hidden";
                            cs_lastReportTime := cs_lastReportTime client; cs_lastReport := cs_lastReport client;
                            cs_expiresAt := cs_expiresAt client; cs_websocket := cs_websocket client |}
             | None => client
             end).
(** @worker/src/do/live-data.ts:785-799 resolveReportClientControl -- [None] when
    it throws; [known] is the state of the node in memory *)
Definition resolveReportClientControl (snapshot : option admin_snapshot) (clientId name : jstr) (hidden : bool) (known : option client_state)
  : option (jstr * bool) :=
  let metadata := match snapshot with
                  | Some s => List.find (λ c, is_str (fld c "uuid") clientId) (a_clients s)
                  | None => None
                  end in
  if excluded snapshot clientId metadata then None
  else Some (match metadata with
             | Some m => (metadata_name m name, booleanField m "hidden")
             | None => match known with Some c => (cs_name c, cs_hidden c) | None => (name, hidden) end
             end).

(** ** What a viewer is shown *)

(** @worker/src/do/live-data.ts:719-726 projectViewerReport *)
Definition projectViewerReport (snapshot : option admin_snapshot) (uuid : jstr) (report : fields) (includeHidden : bool) : fields :=
  let projected := del_field "sort_order" (if includeHidden then report else toPublicReport report) in
  match metadata_of snapshot uuid with
  | Some m => match fld m "sort_order" with
              | JNum a => if is_finite a then set_field "sort_order" (JNum a) projected else projected
              | _ => projected
              end
  | None => projected
  end.
(** @worker/src/do/live-data.ts:708-717 projectSnapshotClient *)
Definition projectSnapshotClient (snapshot : option admin_snapshot) (client : client_state) (includeHidden retained : bool) : option fields :=
  match controlledClientState snapshot client with
  | None => None
  | Some current =>
    if negb includeHidden && cs_hidden current then None
    else Some (spread (projectViewerReport snapshot (cs_uuid current) (cs_lastReport current) (negb retained && includeHidden))
                 [("uuid", JStr (cs_uuid current)); ("name", JStr (cs_name current));
                  ("lastReportTime", JNum (of_Z (cs_lastReportTime current)))])
  end.

(** @worker/src/do/live-data.ts:133-141 LiveSnapshot *)
Record live_snapshot := {
  online : list jstr; ls_clients : list fields; last_known : list (jstr * fields); ls_count : Z; ls_timestamp : Z;
  metadata_version : jstr;
}.
Definition unexpired (now : Z) (c : client_state) : bool :=
  match cs_expiresAt c with Some e => (e =? 0) || (now <? e) | None => true end.
(** @worker/src/do/live-data.ts:728-760 buildSnapshot -- [clients] and [retained]
    are the maps of live and last known states; [data] repeats the clients by
    identifier *)
Definition buildSnapshot (now : Z) (snapshot : option admin_snapshot) (clients retained : list (jstr * client_state)) (includeHidden : bool)
  : live_snapshot :=
  let onlineClients := omap (λ c, projectSnapshotClient snapshot c includeHidden false) (List.filter (unexpired now) (map snd clients)) in
  let onlineIds := map (λ c, stringField c "uuid") onlineClients in
  let lastKnown := omap (λ c, if mem (cs_uuid c) onlineIds then None
                              else option_map (pair (cs_uuid c)) (projectSnapshotClient snapshot c includeHidden true)) (map snd retained) in
  {| online := onlineIds; ls_clients := onlineClients; last_known := spread [] lastKnown; ls_count := Z.of_nat (length onlineClients);
     ls_timestamp := now; metadata_version := dec_Z (match snapshot with Some s => a_updatedAt s | None => 0 end) |}.
(** @worker/src/do/live-data.ts:781-783 isVisibleClient *)
Definition isVisibleClient (client : option client_state) (now : Z) : bool :=
  match client with Some c => negb (cs_hidden c) && unexpired now c | None => false end.

(** ** Facts *)

Lemma sanitize_uuid client safe :
  sanitizeAdminClientSnapshotItem client = Some safe →
  ∃ s, fld client "uuid" = JStr s ∧ fld safe "uuid" = JStr (trim s) ∧ trim s ≠ "".
Proof.
  unfold sanitizeAdminClientSnapshotItem. destruct (fld client "uuid") as [| | | |s| |]; try done.
  destruct (nonempty (trim s)) eqn:E; [| done]. cbn [negb]. intros [= <-]. exists s. split; [done |].
  split; [by rewrite fld_set_field, decide_True | by apply nonempty_true].
Qed.

(** ** Removed nodes *)

Inductive admin_op :=
| Agent_upsert (client : fields) (current : option (jstr * bool))
| Admin_upsert (client : fields)
| Write_all (body : fields)
| Remove (uuid : jstr).
Definition run_op (now : Z) (o : admin_op) (s : option admin_snapshot) : option admin_snapshot :=
  match o with
  | Agent_upsert c cur => (upsertAdminClientSnapshot now c true cur s).2
  | Admin_upsert c => (upsertAdminClientSnapshot now c false None s).2
  | Write_all b => (writeAdminClientsSnapshot now b s).2
  | Remove u => removeAdminClientSnapshot now u s
  end.
(** The operation does not restore the node: no administrator writes it or
    confirms its removal. *)
Definition spares (u : jstr) (o : admin_op) : Prop :=
  match o with
  | Admin_upsert c => ∀ s, fld c "uuid" = JStr s → trim s ≠ u
  | Write_all b => u ∉ strings (fld b "confirmed_removed")
  | Agent_upsert _ _ | Remove _ => True
  end.
Definition removals (l : list (Z * admin_op)) : nat := length (List.filter (λ p, match p.2 with Remove _ => true | _ => false end) l).
Definition run_ops (l : list (Z * admin_op)) (s : option admin_snapshot) : option admin_snapshot :=
  fold_left (λ s p, run_op p.1 p.2 s) l s.

(** The node is among the first [S n] tombstones. *)
Definition entombed (u : jstr) (n : nat) (s : admin_snapshot) : Prop := u ∈ take (S n) (a_removed s).

Lemma take_elem_mono {A} n m (l : list A) x : x ∈ take n l → (n ≤ m)%nat → x ∈ take m l.
Proof. rewrite !elem_of_take. intros (i & Hi & Hn) Hm. exists i. split; [done | lia]. Qed.

Lemma take_filter_elem {A} (f : A → bool) n (l : list A) x : x ∈ take n l → f x = true → x ∈ take n (List.filter f l).
Proof.
  revert n. induction l as [|y l IH]; intros n; [by rewrite take_nil; intros ?%not_elem_of_nil |].
  destruct n as [|n]; [by intros ?%not_elem_of_nil |]. cbn [take List.filter]. intros [-> | Hx]%elem_of_cons Hf.
  - rewrite Hf. left.
  - destruct (f y); [right; by apply IH |]. apply (take_elem_mono n); [by apply IH | lia].
Qed.

Lemma uuid_text_str c s : fld c "uuid" = JStr s → uuid_text c = s.
Proof. unfold uuid_text. by intros ->. Qed.

Lemma upsert_entombed now c fromAgent cur u n s :
  (fromAgent = false → ∀ x, fld c "uuid" = JStr x → trim x ≠ u) → entombed u n s →
  ∃ s', (upsertAdminClientSnapshot now c fromAgent cur (Some s)).2 = Some s' ∧ entombed u n s'.
Proof.
  intros Hadmin Hin. unfold upsertAdminClientSnapshot.
  destruct (sanitizeAdminClientSnapshotItem c) as [safe|] eqn:Es; [| by exists s].
  apply sanitize_uuid in Es as (x & Hx & Hsafe & Hne).
  rewrite (uuid_text_str safe _ Hsafe). destruct (fromAgent && _) eqn:Eg; [by exists s |]. eexists. split; [reflexivity |].
  apply take_filter_elem; [done |]. apply negb_true_iff, jeq_false. intros ->.
  destruct fromAgent; [| by apply (Hadmin eq_refl x)]. cbn [andb] in Eg. apply orb_false_iff in Eg as [_ Eg].
  apply mem_false in Eg. apply Eg. apply elem_of_take in Hin as (i & Hi & _). by eapply list_elem_of_lookup_2.
Qed.

Lemma write_entombed now body u n s :
  u ∉ strings (fld body "confirmed_removed") → entombed u n s →
  ∃ s', (writeAdminClientsSnapshot now body (Some s)).2 = Some s' ∧ entombed u n s'.
Proof.
  intros Hc Hin. unfold writeAdminClientsSnapshot. destruct (negb _ && _ && _); [by exists s |]. eexists. split; [reflexivity |].
  apply take_filter_elem; [done |]. apply negb_true_iff, mem_false. destruct (is_str _ _); [apply not_elem_of_nil | done].
Qed.

Lemma remove_entombed now v u n s :
  (S n < 200)%nat → entombed u n s → ∃ s', removeAdminClientSnapshot now v (Some s) = Some s' ∧ entombed u (S n) s'.
Proof.
  intros Hn Hin. eexists. split; [reflexivity |]. unfold entombed. cbn [a_removed removed_of].
  rewrite take_take. replace (S (S n) `min` 200)%nat with (S (S n)) by lia. rewrite firstn_cons.
  destruct (decide (u = v)) as [-> | Hne]; [left |]. apply elem_of_cons. right. apply take_filter_elem; [done |]. by apply negb_true_iff, jeq_false.
Qed.

Lemma run_ops_entombed l u n s :
  Forall (λ p, spares u p.2) l → entombed u n s → (n + removals l < 200)%nat →
  ∃ s' m, run_ops l (Some s) = Some s' ∧ entombed u m s'.
Proof.
  unfold run_ops. revert n s. induction l as [|[now o] l IH]; intros n s Hall Hs Hn; cbn [fold_left]; [by exists s, n |].
  apply Forall_cons in Hall as [Ho Hall]. unfold removals in *. cbn [List.filter snd fst] in *.
  destruct o as [c cur|c|b|v]; cbn [spares run_op] in *.
  - destruct (upsert_entombed now c true cur u n s) as (s' & -> & Hs'); [done | done |]. by apply (IH n).
  - destruct (upsert_entombed now c false None u n s) as (s' & -> & Hs'); [by intros _ | done |]. by apply (IH n).
  - destruct (write_entombed now b u n s) as (s' & -> & Hs'); [done | done |]. by apply (IH n).
  - cbn [length] in Hn. destruct (remove_entombed now v u n s) as (s' & -> & Hs'); [lia | done |]. apply (IH (S n)); [done | done | lia].
Qed.

Lemma entombed_excluded u n s m : entombed u n s → excluded (Some s) u m = true.
Proof.
  intros Hin. unfold excluded. assert (Hm : mem u (a_removed s) = true); [| by rewrite Hm].
  apply mem_spec. apply elem_of_take in Hin as (i & Hi & _). by eapply list_elem_of_lookup_2.
Qed.

Lemma entombed_agent now c cur u n s x :
  entombed u n s → fld c "uuid" = JStr x → trim x = u → upsertAdminClientSnapshot now c true cur (Some s) = (None, Some s).
Proof.
  intros Hin Hx Hu. unfold upsertAdminClientSnapshot. destruct (sanitizeAdminClientSnapshotItem c) as [safe|] eqn:Es; [| done].
  apply sanitize_uuid in Es as (y & Hy & Hsafe & _). rewrite Hx in Hy. injection Hy as <-.
  rewrite (uuid_text_str safe _ Hsafe), Hu. assert (Hm : mem u (a_removed s) = true).
  { apply mem_spec. apply elem_of_take in Hin as (i & Hi & _). by eapply list_elem_of_lookup_2. }
  by rewrite Hm, orb_true_r.
Qed.

(** Every stored snapshot has a later version. *)
Lemma run_op_version now o s s' :
  run_op now o s = s' → s' = s ∨ ∃ x, s' = Some x ∧ now ≤ a_updatedAt x ∧ match s with Some y => a_updatedAt y < a_updatedAt x | None => 0 < a_updatedAt x end.
Proof.
  assert (Hv : ∀ p, now ≤ next_version now p ∧ match p with Some y => a_updatedAt y < next_version now p | None => 0 < next_version now p end).
  { intros p. unfold next_version. destruct p; lia. }
  intros <-. destruct o as [c cur|c|b|u]; cbn [run_op].
  - unfold upsertAdminClientSnapshot. destruct (sanitizeAdminClientSnapshotItem c); [| by left]. destruct s as [y|]; [| by left].
    destruct (true && _); [by left |]. right. eexists. split; [reflexivity |]. apply (Hv (Some y)).
  - unfold upsertAdminClientSnapshot. destruct (sanitizeAdminClientSnapshotItem c); [| by left].
    destruct s as [y|]; cbn [andb snd]; right; eexists; (split; [reflexivity |]); [apply (Hv (Some y)) | apply (Hv None)].
  - unfold writeAdminClientsSnapshot. destruct (negb _ && _ && _); [by left |]. right. eexists. split; [reflexivity |]. apply Hv.
  - right. eexists. split; [reflexivity |]. apply Hv.
Qed.

(** *** Projections *)

Lemma projected_fields uuid name time a :
  let p := spread a [("uuid", JStr uuid); ("name", JStr name); ("lastReportTime", JNum (of_Z time))] in
  fld p "uuid" = JStr uuid ∧ fld p "name" = JStr name.
Proof.
  cbv zeta. rewrite !fld_spread by (apply (bool_decide_eq_true_1 _); vm_compute; reflexivity). done.
Qed.

(** A property a public viewer can see of a node. *)
Definition public_property (q : jstr * jsval) : Prop :=
  q.1 ∈ ["uuid"; "name"; "lastReportTime"; "sort_order"] ∨ public_entry_ok q.

Lemma project_public snap c retained p :
  projectSnapshotClient snap c false retained = Some p →
  ∃ cur, controlledClientState snap c = Some cur ∧ cs_hidden cur = false ∧ cs_uuid cur = cs_uuid c
    ∧ fld p "uuid" = JStr (cs_uuid c) ∧ fld p "name" = JStr (cs_name cur) ∧ Forall public_property p.
Proof.
  unfold projectSnapshotClient. destruct (controlledClientState snap c) as [cur|] eqn:Ec; [| done]. cbn [negb andb].
  destruct (cs_hidden cur) eqn:Eh; [done |]. rewrite andb_false_r. intros Hp. apply (inj Some) in Hp. subst p. exists cur.
  assert (Hu : cs_uuid cur = cs_uuid c).
  { unfold controlledClientState in Ec. destruct (excluded _ _ _); [done |]. injection Ec as <-. by destruct (metadata_of snap (cs_uuid c)). }
  pose proof (projected_fields (cs_uuid cur) (cs_name cur) (cs_lastReportTime cur)
                (projectViewerReport snap (cs_uuid cur) (cs_lastReport cur) false)) as [H1 H2].
  rewrite <- Hu. repeat (split; [done |]). apply Forall_forall. intros q Hq. apply spread_elem in Hq as [Hq | Hq].
  - unfold projectViewerReport in Hq. cbv iota in Hq.
    assert (Hpub : ∀ q, q ∈ del_field "sort_order" (toPublicReport (cs_lastReport cur)) → public_property q).
    { intros y Hy. unfold del_field in Hy. apply list_elem_of_filter in Hy as [_ Hy]. right. by apply toPublicReport_elem in Hy. }
    destruct (metadata_of snap _) as [m|]; [| by apply Hpub]. destruct (fld m "sort_order") as [| | |a| | |]; try by apply Hpub.
    destruct (is_finite a); [| by apply Hpub]. apply set_field_elem in Hq as [-> | Hq]; [| by apply Hpub].
    left. list_elem.
  - left. list_cases Hq; list_elem.
Qed.

Lemma project_visible snap c cur :
  controlledClientState snap c = Some cur → cs_hidden cur = false → ∀ admin retained, ∃ p, projectSnapshotClient snap c admin retained = Some p.
Proof. intros Hc Hh admin retained. unfold projectSnapshotClient. rewrite Hc, Hh, andb_false_r. eauto. Qed.

Lemma project_uuid snap c admin retained p :
  projectSnapshotClient snap c admin retained = Some p → stringField p "uuid" = cs_uuid c ∧ controlledClientState snap c ≠ None.
Proof.
  unfold projectSnapshotClient. destruct (controlledClientState snap c) as [cur|] eqn:Ec; [| done].
  destruct (negb admin && cs_hidden cur); [done |]. intros Hp. apply (inj Some) in Hp. subst p. split; [| done].
  assert (Hu : cs_uuid cur = cs_uuid c).
  { unfold controlledClientState in Ec. destruct (excluded _ _ _); [done |]. injection Ec as <-. by destruct (metadata_of snap (cs_uuid c)). }
  unfold stringField. rewrite (proj1 (projected_fields _ _ _ _)). by rewrite Hu.
Qed.

Lemma elem_omap {A B} (f : A → option B) (l : list A) b : b ∈ omap f l ↔ ∃ a, a ∈ l ∧ f a = Some b.
Proof. apply list_elem_of_omap. Qed.

Lemma last_known_entry now snap clients retained admin k p :
  (k, p) ∈ last_known (buildSnapshot now snap clients retained admin) →
  ∃ c, c ∈ map snd retained ∧ cs_uuid c = k ∧ projectSnapshotClient snap c admin true = Some p
    ∧ k ∉ online (buildSnapshot now snap clients retained admin).
Proof.
  unfold buildSnapshot. cbn [last_known online]. intros Hp. apply spread_elem in Hp as [Hp | Hp]; [by apply not_elem_of_nil in Hp |].
  apply elem_omap in Hp as (c & Hc & Hf). destruct (mem (cs_uuid c) _) eqn:Em; [done |]. apply mem_false in Em.
  destruct (projectSnapshotClient snap c admin true) as [q|] eqn:Eq; [| done]. injection Hf as <- <-. by exists c.
Qed.

(** ** Properties *)

(** C26: The snapshot a public viewer receives shows exactly the unexpired live
    nodes whose current metadata neither removes nor hides them; every property of
    a shown node is its name, identity, time and order or an allow-listed metric;
    the last known states are of nodes that are not online and not hidden
    either; and a removed node, or one a complete snapshot does not know, is
    shown to nobody. *)
Theorem buildSnapshot_visible now snap clients retained :
  let public := buildSnapshot now snap clients retained false in
  (∀ u, (u ∈ online public) ↔ ∃ c cur, c ∈ map snd clients ∧ unexpired now c = true ∧ controlledClientState snap c = Some cur
                              ∧ cs_hidden cur = false ∧ cs_uuid c = u)
  ∧ Forall (Forall public_property) (ls_clients public)
  ∧ (∀ k p, (k, p) ∈ last_known public → Forall public_property p ∧ (k ∉ online public)
       ∧ ∃ c cur, c ∈ map snd retained ∧ cs_uuid c = k ∧ controlledClientState snap c = Some cur ∧ cs_hidden cur = false)
  ∧ (∀ u admin, excluded snap u (metadata_of snap u) = true →
       (u ∉ online (buildSnapshot now snap clients retained admin))
       ∧ ∀ p, (u, p) ∉ last_known (buildSnapshot now snap clients retained admin)).
Proof.
  cbv zeta. split; [| split; [| split]].
  - intros u. unfold buildSnapshot. cbn [online]. split.
    + intros (p & -> & Hp)%list_elem_of_fmap. apply elem_omap in Hp as (c & Hc & Hpr).
      apply list_elem_of_In, filter_In in Hc as [Hc Hex]. apply list_elem_of_In in Hc. pose proof (project_uuid _ _ _ _ _ Hpr) as [Hu _].
      apply project_public in Hpr as (cur & Hcur & Hh & _). exists c, cur. by rewrite Hu.
    + intros (c & cur & Hc & Hex & Hcur & Hh & <-). destruct (project_visible snap c cur Hcur Hh false false) as [p Hp].
      apply list_elem_of_fmap. exists p. split; [by apply project_uuid in Hp as [-> _] |]. apply elem_omap. exists c.
      split; [| done]. apply list_elem_of_In, filter_In. split; [by apply list_elem_of_In | done].
  - apply Forall_forall. intros p Hp. apply elem_omap in Hp as (c & _ & Hp). by apply project_public in Hp as (cur & _ & _ & _ & _ & _ & H).
  - intros k p Hp. apply last_known_entry in Hp as (c & Hc & Hk & Hp & Hon). apply project_public in Hp as (cur & Hcur & Hh & _ & _ & _ & H).
    split; [done |]. split; [done |]. by exists c, cur.
  - intros u admin Hex. assert (Hnone : ∀ c, cs_uuid c = u → controlledClientState snap c = None).
    { intros c Hc. unfold controlledClientState. by rewrite Hc, Hex. }
    split.
    + intros (p & -> & Hp)%list_elem_of_fmap. apply elem_omap in Hp as (c & _ & Hp). apply project_uuid in Hp as [Hu Hc].
      apply Hc, Hnone. by rewrite Hu.
    + intros p Hp. apply last_known_entry in Hp as (c & _ & Hk & Hp & _). apply project_uuid in Hp as [_ Hc]. by apply Hc, Hnone.
Qed.

(** C25: Every operation on the metadata snapshot either leaves it as it is or
    stores a later version.  A node an administrator removes stays removed, for its reports
    and for every viewer, through any later operations of agents, rewrites,
    reorderings and fewer than 199 further removals, until an administrator
    writes it again or confirms its removal. *)
Theorem removed_node_stays_removed u now snap later :
  Forall (λ p, spares u p.2) later → (removals later < 199)%nat →
  (∀ t o s, run_op t o s = s ∨ ∃ x, run_op t o s = Some x ∧ t ≤ a_updatedAt x
              ∧ match s with Some y => a_updatedAt y < a_updatedAt x | None => 0 < a_updatedAt x end)
  ∧ let s' := run_ops later (run_op now (Remove u) snap) in
    (∀ c, cs_uuid c = u → controlledClientState s' c = None)
    ∧ (∀ name hidden known, resolveReportClientControl s' u name hidden known = None)
    ∧ (∀ t c cur x, fld c "uuid" = JStr x → trim x = u → upsertAdminClientSnapshot t c true cur s' = (None, s')).
Proof.
  intros Hall Hn. split; [intros t o s; by apply (run_op_version t o s) |]. cbv zeta. cbn [run_op].
  assert (Hrm : ∃ s1, removeAdminClientSnapshot now u snap = Some s1 ∧ entombed u 0 s1).
  { eexists. split; [reflexivity |]. unfold entombed. cbn [a_removed]. rewrite take_take. left. }
  destruct Hrm as (s1 & -> & H1). destruct (run_ops_entombed later u 0 s1 Hall H1) as (s2 & m & -> & H2); [lia |].
  pose proof (λ md, entombed_excluded u m s2 md H2) as Hex. split; [| split].
  - intros c Hc. unfold controlledClientState. by rewrite Hc, Hex.
  - intros name hidden known. unfold resolveReportClientControl. by rewrite Hex.
  - intros t c cur x Hc Hx. by apply (entombed_agent t c cur u m s2 x).
Qed.

(** Removing [b], a rewrite that still lists it, a report of its agent and an
    administrator's change of [a]. *)
Definition example_history : list (Z * admin_op) :=
  [(11, Write_all [("clients", JArr [JObj [("uuid", JStr "a")]; JObj [("uuid", JStr "b")]]); ("expected_version", JNum (of_Z 11))]);
   (12, Agent_upsert [("uuid", JStr " b ")] None);
   (13, Admin_upsert [("uuid", JStr "a"); ("name", JStr "A")]);
   (14, Remove "c")].
Lemma removed_node_stays_removed_witness :
  let snap := Some {| a_clients := [[("uuid", JStr "a")]; [("uuid", JStr "b")]]; a_updatedAt := 10; a_removed := []; a_complete := true |} in
  run_ops example_history (run_op 11 (Remove "b") snap) ≠ snap
  ∧ ∀ c, cs_uuid c = "b" → controlledClientState (run_ops example_history (run_op 11 (Remove "b") snap)) c = None.
Proof.
  cbv zeta. split; [by vm_compute |].
  refine (proj1 (proj2 (removed_node_stays_removed "b" 11 _ example_history _ _))).
  - unfold example_history. repeat apply Forall_cons_2; try apply Forall_nil_2; cbn.
    + intros H. inversion H.
    + done.
    + intros s [= <-]. by vm_compute.
    + done.
  - by vm_compute; lia.
Defined.
