(* ===== verification/LiveSync.v ===== *)
(** * Synchronizing nodes with the database: [do/live-data.ts]

    The database queues a numbered change per node and delivers it at least once,
    in any order; the live object applies it to the credentials, the metadata, the
    live states and the stored reports.  Requests of one node are queued, so each
    handler runs to its end unless the object is interrupted between two writes.
    Every message sent to viewers is recorded. *)

From S2P Require Import Prelude JsStr JsNum JsVal Net Report LiveAuth LiveAdmin.
#[local] Open Scope Z_scope.

(** ** State *)

Inductive audience := All | Public | Administrators.
(** The messages sent to viewers. *)
Inductive message :=
| Removed_node (uuid : jstr) (last_known : option fields)
| Updated_node (uuid name : jstr) (data : fields) (timestamp : Z)
| Metadata (upsert : option (list fields)) (remove : list jstr).

(** @worker/src/do/live-data.ts:424-472 LiveDataDO (nodes) -- [agents] holds the
    attachments of the open agent sockets, [persisted] the rows under http-live:,
    [streaks] those under offline:streak:, [reporting] the nodes with a report in
    progress *)
Record live_state := {
  auth : auth_store; admin : option admin_snapshot; syncs : gmap jstr (Z * bool);
  clients : gmap jstr client_state; lastKnownClients : gmap jstr client_state;
  persisted : gmap jstr client_state; streaks : gmap jstr Z; agents : gmap jstr fields;
  reporting : gset jstr; removalVersions : gmap jstr Z; restoreVersion : Z;
  sent : list (audience * message);
}.
Definition with_auth a st := {| auth := a; admin := admin st; syncs := syncs st; clients := clients st;
  lastKnownClients := lastKnownClients st; persisted := persisted st; streaks := streaks st; agents := agents st;
  reporting := reporting st; removalVersions := removalVersions st; restoreVersion := restoreVersion st; sent := sent st |}.
Definition with_admin a st := {| auth := auth st; admin := a; syncs := syncs st; clients := clients st;
  lastKnownClients := lastKnownClients st; persisted := persisted st; streaks := streaks st; agents := agents st;
  reporting := reporting st; removalVersions := removalVersions st; restoreVersion := restoreVersion st; sent := sent st |}.
Definition with_syncs a st := {| auth := auth st; admin := admin st; syncs := a; clients := clients st;
  lastKnownClients := lastKnownClients st; persisted := persisted st; streaks := streaks st; agents := agents st;
  reporting := reporting st; removalVersions := removalVersions st; restoreVersion := restoreVersion st; sent := sent st |}.
Definition with_nodes live known rows st := {| auth := auth st; admin := admin st; syncs := syncs st; clients := live;
  lastKnownClients := known; persisted := rows; streaks := streaks st; agents := agents st;
  reporting := reporting st; removalVersions := removalVersions st; restoreVersion := restoreVersion st; sent := sent st |}.
Definition with_sockets a r v st := {| auth := auth st; admin := admin st; syncs := syncs st; clients := clients st;
  lastKnownClients := lastKnownClients st; persisted := persisted st; streaks := r; agents := a;
  reporting := reporting st; removalVersions := v; restoreVersion := restoreVersion st; sent := sent st |}.
Definition send (m : list (audience * message)) st := {| auth := auth st; admin := admin st; syncs := syncs st; clients := clients st;
  lastKnownClients := lastKnownClients st; persisted := persisted st; streaks := streaks st; agents := agents st;
  reporting := reporting st; removalVersions := removalVersions st; restoreVersion := restoreVersion st; sent := sent st ++ m |}.

(** ** Messages to viewers *)

(** @worker/src/do/live-data.ts:1320-1344 broadcastToViewers -- what a viewer
    receives of a message *)
Definition deliver (snapshot : option admin_snapshot) (includeHidden : bool) (m : audience * message) : option message :=
  match m.1, includeHidden with
  | Administrators, false | Public, true => None
  | _, _ => Some (match m.2 with
                  | Updated_node u n d t => Updated_node u n (projectViewerReport snapshot u d includeHidden) t
                  | other => other
                  end)
  end.
(** @worker/src/do/live-data.ts:1279-1286 broadcastOfflineClient *)
Definition broadcastOfflineClient (snapshot : option admin_snapshot) (client : client_state) : list (audience * message) :=
  match controlledClientState snapshot client with
  | None => []
  | Some current =>
    [(if cs_hidden current then Administrators else All,
      Removed_node (cs_uuid current) (projectSnapshotClient snapshot current true true))]
  end.
Definition is_hidden (client : fields) : bool := truthy (fld client "hidden").
(** @worker/src/do/live-data.ts:1346-1376 broadcastMetadataChanged *)
Definition metadata_patch (upsert : option (list fields)) (remove : list jstr) (administrator : bool) : message :=
  let hidden := if administrator then []
                else omap (λ c, if is_hidden c then match fld c "uuid" with JStr u => Some u | _ => None end else None) (default [] upsert) in
  Metadata (option_map (λ l, map (λ c, projectClientMetadata c administrator)
                              (List.filter (λ c, administrator || negb (is_hidden c)) l)) upsert)
           (remove ++ List.filter (λ u, negb (mem u remove)) hidden).
Definition broadcastMetadataChanged (upsert : option (list fields)) (remove : list jstr) : list (audience * message) :=
  [(Public, metadata_patch upsert remove false); (Administrators, metadata_patch upsert remove true)].

(** @worker/src/do/live-data.ts:98-98 AGENT_ATTACHMENT_BUDGET_BYTES *)
Definition AGENT_ATTACHMENT_BUDGET_BYTES : Z := 12 * 1024.
(** @worker/src/do/live-data.ts:993-1021 rememberAgentReportAttachment -- the new
    attachment of the socket *)
Definition rememberAgentReportAttachment (previous : fields) (uuid name : jstr) (hidden : bool) (report : fields) (now : Z) (expiresAt : option Z)
  : fields :=
  let kept k := match fld previous k with JStr s => if nonempty s then [(k, JStr s)] else [] | _ => [] end in
  let base lastReport :=
    [("role", JStr "agent"); ("clientId", JStr uuid); ("clientName", JStr (slice_to 256 name)); ("hidden", JBool hidden)]
    ++ kept "sourceIp" ++ kept "region" ++ kept "authHash"
    ++ [("lastReport", JObj lastReport); ("lastReportTime", JNum (of_Z now));
        ("expiresAt", match expiresAt with Some e => JNum (of_Z e) | None => JUndef end)] in
  let over r := AGENT_ATTACHMENT_BUDGET_BYTES <? serializedBytes (JObj (base r)) in
  let report := compactLiveReport report in
  let report := if over report then del_field "basic_info" report else report in
  let report := if over report
                then set_field "gpus" (match fld report "gpus" with
                                       | JArr l => JArr (map (λ g, JObj (set_field "device_name" (JStr "") (as_object g))) l)
                                       | other => other
                                       end) report
                else report in
  base report.

(** ** Handlers *)

(** [typeof meta.uuid === 'string' && meta.uuid.trim() !== ''] *)
Definition meta_uuid (meta : fields) : option jstr :=
  match fld meta "uuid" with JStr u => if nonempty (trim u) then Some u else None | _ => None end.

Definition first_state (a b : option client_state) : option client_state := match a with Some _ => a | None => b end.

(** @worker/src/do/live-data.ts:1725-1742 removeClient (state) *)
Definition drop_node (uuid : jstr) (st : live_state) : live_state :=
  let versions := if decide (uuid ∈ reporting st)
                  then <[uuid := default 0 (removalVersions st !! uuid) + 1]> (removalVersions st)
                  else removalVersions st in
  with_sockets (delete uuid (agents st)) (delete uuid (streaks st)) versions
    (with_nodes (delete uuid (clients st)) (delete uuid (lastKnownClients st)) (delete uuid (persisted st)) st).
(** @worker/src/do/live-data.ts:1714-1762 removeClient -- the status *)
Definition removeClient (now : Z) (meta : fields) (st : live_state) : Z * live_state :=
  match meta_uuid meta with
  | None => (400, st)
  | Some uuid =>
    let keepMetadata := is_bool (fld meta "keepMetadata") true in
    let existing := first_state (clients st !! uuid) (lastKnownClients st !! uuid) in
    let st := drop_node uuid st in
    let st := with_auth (removeAgentAuthByUuid now uuid (auth st)) st in
    let st := if keepMetadata then st else with_admin (removeAdminClientSnapshot now uuid (admin st)) st in
    let gone := match existing with
                | Some c => [(if cs_hidden c then Administrators else All, Removed_node uuid None)]
                | None => []
                end in
    (200, send (gone ++ if keepMetadata then [] else broadcastMetadataChanged None [uuid]) st)
  end.

(** @worker/src/do/live-data.ts:1648-1651 updateClientMeta (client) *)
Definition meta_client (uuid : jstr) (meta : fields) (previous : option client_state) : fields :=
  match fld meta "client" with
  | JObj c => c
  | _ => [("uuid", JStr uuid);
          ("name", match fld meta "name" with
                   | JStr n => JStr n
                   | _ => JStr (or_str (match previous with Some p => cs_name p | None => "" end) uuid)
                   end);
          ("hidden", JBool (booleanField meta "hidden"))]
  end.
Definition compacted (c : client_state) : client_state :=
  {| cs_uuid := cs_uuid c; cs_name := cs_name c; cs_hidden := cs_hidden c; cs_lastReportTime := cs_lastReportTime c;
     cs_lastReport := compactLiveReport (cs_lastReport c); cs_expiresAt := cs_expiresAt c; cs_websocket := cs_websocket c |}.
(** The name and visibility of the live node an agent writes metadata for. *)
Definition current_control (uuid : jstr) (st : live_state) : option (jstr * bool) :=
  match clients st !! trim uuid with Some c => Some (cs_name c, cs_hidden c) | None => None end.

(** @worker/src/do/live-data.ts:1676-1704 updateClientMeta (messages) *)
Definition meta_messages (snapshot : option admin_snapshot) (now : Z) (uuid : jstr) (next : client_state) (online : bool) : list (audience * message) :=
  let update := Updated_node uuid (cs_name next) (cs_lastReport next) (cs_lastReportTime next) in
  if cs_hidden next then
    (Public, Removed_node uuid None) :: if online then [(Administrators, update)] else broadcastOfflineClient snapshot next
  else if online then [(All, update)] else broadcastOfflineClient snapshot next.
(** @worker/src/do/live-data.ts:1630-1712 updateClientMeta -- the status *)
Definition updateClientMeta (now : Z) (meta : fields) (st : live_state) : Z * live_state :=
  match meta_uuid meta with
  | None => (400, st)
  | Some uuid =>
    if is_str (fld meta "source") "agent" then
      let patch := projectAgentClientMetadata (match fld meta "client" with JObj c => c | _ => meta end) in
      let '(client, snapshot) :=
        upsertAdminClientSnapshot now (spread [("uuid", JStr uuid)] patch) true (current_control uuid st) (admin st) in
      let st := with_admin snapshot st in
      (200, match client with Some c => send (broadcastMetadataChanged (Some [c]) []) st | None => st end)
    else
      let client := meta_client uuid meta (first_state (clients st !! uuid) (lastKnownClients st !! uuid)) in
      let st := with_admin (upsertAdminClientSnapshot now client false None (admin st)).2 st in
      let cached := clients st !! uuid in
      let online := match cached with Some c => unexpired now c | None => false end in
      let live := if online then clients st else delete uuid (clients st) in
      let st := with_nodes live (lastKnownClients st) (persisted st) st in
      let st :=
        match first_state cached (lastKnownClients st !! uuid) with
        | None => st
        | Some retained =>
          match controlledClientState (admin st) retained with
          | None => st
          | Some next =>
            let live := if online then <[uuid := next]> (clients st) else clients st in
            let st := with_nodes live (<[uuid := compacted next]> (lastKnownClients st)) (persisted st) st in
            let sockets := match agents st !! uuid with
                           | Some previous =>
                             if online then
                               <[uuid := rememberAgentReportAttachment previous uuid (cs_name next) (cs_hidden next) (cs_lastReport next)
                                           (cs_lastReportTime next) (cs_expiresAt next)]> (agents st)
                             else agents st
                           | None => agents st
                           end in
            send (meta_messages (admin st) now uuid next online) (with_sockets sockets (streaks st) (removalVersions st) st)
          end
        end in
      (200, send (broadcastMetadataChanged (Some [set_field "hidden" (JBool (booleanField meta "hidden")) client]) []) st)
  end.

(** ** Synchronization *)

(** [/^[1-9]\d{0,19}$/] and its integer *)
Definition parse_revision (s : jstr) : option Z :=
  match units s with
  | d :: r => if is_digit d && negb (d =? 48)%N && forallb is_digit r && (length r <=? 19)%nat
              then Some (digits_val 10 digit_val (units s)) else None
  | [] => None
  end.
(** A change of the database: the node with its revision, [None] when it was
    deleted. *)
Record change := { ch_uuid : jstr; ch_revision : Z; ch_client : option snapshot }.
(** @worker/src/do/live-data.ts:1563-1570 applyClientSynchronization (validation) *)
Definition read_change (body : fields) : option change :=
  let uuid := trim (stringField body "uuid") in
  let rawClient := fld body "client" in
  let client := if is_null rawClient then None else normalizeAgentAuthSnapshot rawClient in
  match parse_revision (stringField body "revision") with
  | Some revision =>
    if negb (nonempty uuid) || (negb (is_null rawClient) && match client with Some c => negb (jeq (s_uuid c) uuid) | None => true end) then None
    else Some {| ch_uuid := uuid; ch_revision := revision; ch_client := client |}
  | None => None
  end.

Section Sync.
Context (date_parse : jstr → option Z).

Definition mark (c : change) (complete : bool) (st : live_state) : live_state :=
  with_syncs (<[ch_uuid c := (ch_revision c, complete)]> (syncs st)) st.
(** The change is older than the one recorded, or that one is complete. *)
Definition superseded (c : change) (st : live_state) : bool :=
  match syncs st !! ch_uuid c with
  | Some (r, complete) => (ch_revision c <? r) || (r =? ch_revision c) && complete
  | None => false
  end.
(** @worker/src/do/live-data.ts:1582-1589 applyClientSynchronization (removal) *)
Definition sync_removal (now : Z) (c : change) (st : live_state) : live_state :=
  match ch_client c with
  | None => (removeClient now [("uuid", JStr (ch_uuid c))] st).2
  | Some client =>
    match pointers (auth st) !! ch_uuid c with
    | Some previousHash =>
      if nonempty previousHash && negb (jeq previousHash (s_hash client))
      then (removeClient now [("uuid", JStr (ch_uuid c)); ("keepMetadata", JBool true)] st).2 else st
    | None => st
    end
  end.
(** @worker/src/do/live-data.ts:1590-1592 applyClientSynchronization (credentials)
    -- whether they were stored *)
Definition sync_store (c : change) (st : live_state) : bool * live_state :=
  match ch_client c with
  | None => (true, st)
  | Some client => let '(accepted, a) := storeAgentAuthSnapshot date_parse client (Some (ch_revision c)) (auth st) in (accepted, with_auth a st)
  end.
(** @worker/src/do/live-data.ts:1593-1596 applyClientSynchronization (metadata) *)
Definition sync_meta (now : Z) (c : change) (st : live_state) : live_state :=
  match ch_client c with
  | None => st
  | Some client => (updateClientMeta now [("uuid", JStr (ch_uuid c)); ("client", JObj client); ("name", fld client "name"); ("hidden", fld client "hidden")] st).2
  end.
(** @worker/src/do/live-data.ts:1571-1600 applyClientSynchronization -- the
    status, and whether the change was applied *)
Definition apply_change (now : Z) (c : change) (st : live_state) : Z * bool * live_state :=
  if superseded c st then (200, false, st)
  else
    let '(accepted, st) := sync_store c (sync_removal now c (mark c false st)) in
    if (accepted : bool) then (200, true, mark c true (sync_meta now c st)) else (409, false, st).
(** @worker/src/do/live-data.ts:1561-1601 applyClientSynchronization *)
Definition applyClientSynchronization (now : Z) (body : fields) (st : live_state) : Z * bool * live_state :=
  match read_change body with
  | None => (400, false, st)
  | Some c => apply_change now c st
  end.
(** @worker/src/do/live-data.ts:1602-1618 applyClientSynchronizationBatch -- the
    status and the acknowledged changes *)
Fixpoint sync_batch (now : Z) (bodies : list fields) (st : live_state) : Z * list fields * live_state :=
  match bodies with
  | [] => (200, [], st)
  | body :: rest =>
    match applyClientSynchronization now body st with
    | (200, _, st) => let '(status, applied, st) := sync_batch now rest st in
                      (status, if status =? 200 then body :: applied else [], st)
    | (status, _, st) => (status, [], st)
    end
  end.
(** @worker/src/do/live-data.ts:1602-1618 applyClientSynchronizationBatch *)
Definition applyClientSynchronizationBatch (now : Z) (body : fields) (st : live_state) : Z * list fields * live_state :=
  match fld body "changes" with
  | JArr changes =>
    if (length changes =? 0)%nat || (200 <? length changes)%nat || existsb (λ x, negb (is_object x)) changes then (400, [], st)
    else sync_batch now (map as_object changes) st
  | _ => (400, [], st)
  end.

(** ** Histories *)

(** An interruption leaves the mark and the first [k] writes of the change. *)
Definition interrupted (now : Z) (k : nat) (c : change) (st : live_state) : live_state :=
  if superseded c st then st
  else
    let st := mark c false st in
    match k with
    | O => st
    | S O => sync_removal now c st
    | S (S O) => (sync_store c (sync_removal now c st)).2
    | _ => sync_meta now c (sync_store c (sync_removal now c st)).2
    end.

(** What reaches the object: changes, interrupted or not, unversioned credential
    snapshots, metadata, removals, and any change of the reports. *)
Inductive event :=
| Deliver (body : fields)
| Interrupt (k : nat) (body : fields)
| Agent_auth (body : fields)
| Forget_auth (uuid hash : jstr)
| Meta (meta : fields)
| Remove_client (meta : fields)
| Reports (live known rows : gmap jstr client_state).
Definition step (now : Z) (e : event) (st : live_state) : live_state :=
  match e with
  | Deliver body => (applyClientSynchronization now body st).2
  | Interrupt k body => match read_change body with Some c => interrupted now k c st | None => st end
  | Agent_auth body => with_auth (upsertAgentAuthSnapshot date_parse body (auth st)).2 st
  | Forget_auth uuid hash => with_auth (removeAgentAuthSnapshot now uuid hash (auth st)) st
  | Meta meta => (updateClientMeta now meta st).2
  | Remove_client meta => (removeClient now meta st).2
  | Reports live known rows => with_nodes live known rows st
  end.
Definition run (h : list (Z * event)) (st : live_state) : live_state := fold_left (λ st p, step p.1 p.2 st) h st.

Definition empty_state : live_state :=
  {| auth := {| snaps := ∅; pointers := ∅; controls := ∅ |}; admin := None; syncs := ∅; clients := ∅; lastKnownClients := ∅;
     persisted := ∅; streaks := ∅; agents := ∅; reporting := ∅; removalVersions := ∅; restoreVersion := 0; sent := [] |}.

(** ** Facts *)

(** The revision of the credentials of a node. *)
Definition rev_of (u : jstr) (a : auth_store) : option Z :=
  match controls a !! u with Some c => revision c | None => None end.
(** Credentials are never ahead of the recorded change. *)
Definition revisions_ok (st : live_state) : Prop :=
  ∀ u r, rev_of u (auth st) = Some r → ∃ r' b, syncs st !! u = Some (r', b) ∧ r ≤ r'.
(** The credentials of the node are those of the change. *)
Definition settled (c : change) (a : auth_store) : Prop :=
  ∃ ctl, controls a !! ch_uuid c = Some ctl
    ∧ match ch_client c with
      | Some client => removed ctl = false ∧ tokenHash ctl = Some (s_hash client) ∧ revision ctl ≠ None
      | None => removed ctl = true
      end.
Definition change_ok (c : change) : Prop :=
  nonempty (trim (ch_uuid c)) = true
  ∧ match ch_client c with Some client => s_uuid client = ch_uuid c ∧ nonempty (s_hash client) = true | None => True end.

Lemma normalize_hash v client : normalizeAgentAuthSnapshot v = Some client → nonempty (s_hash client) = true.
Proof.
  unfold normalizeAgentAuthSnapshot. destruct (negb (is_object v)); [done |]. cbv zeta.
  destruct (nonempty (trim (stringField _ "uuid"))); [| done]. destruct (nonempty (trim (stringField _ "token_hash"))) eqn:E; [| done].
  intros [= <-]. exact E.
Qed.

Lemma read_change_ok body c : read_change body = Some c → change_ok c.
Proof.
  unfold read_change. destruct (parse_revision _) as [r|]; [| done]. cbv zeta. destruct (nonempty _) eqn:Eu; [| done]. cbn [negb orb].
  assert (Ht : nonempty (trim (trim (stringField body "uuid"))) = true) by (by rewrite trim_trim).
  destruct (is_null (fld body "client")) eqn:En; cbn [negb andb]; [by intros [= <-] |].
  destruct (normalizeAgentAuthSnapshot _) as [client|] eqn:E; [| done]. destruct (negb (jeq _ _)) eqn:Ej; [done |].
  intros [= <-]. cbn. apply negb_false_iff, jeq_true in Ej. repeat split; [done | done | by eapply normalize_hash].
Qed.

Lemma store_other client rev a u : s_uuid client ≠ u → controls (storeAgentAuthSnapshot date_parse client rev a).2 !! u = controls a !! u.
Proof.
  intros Hne. destruct (store_cases date_parse client rev a) as [-> | (m & r & rot & -> & _)]; [done |].
  cbn [controls]. by rewrite lookup_insert_ne.
Qed.

(** An unversioned write keeps the revision and the settled credentials. *)
Lemma store_unversioned client a u :
  rev_of u (storeAgentAuthSnapshot date_parse client None a).2 = rev_of u a
  ∧ ∀ c, ch_uuid c = u → settled c a → settled c (storeAgentAuthSnapshot date_parse client None a).2.
Proof.
  destruct (decide (s_uuid client = u)) as [<- | Hne].
  2: { unfold rev_of, settled. split; [by rewrite store_other |]. intros c ->. by rewrite store_other. }
  unfold storeAgentAuthSnapshot. cbv zeta.
  destruct (match controls a !! s_uuid client with Some c => removed c | None => false end) eqn:Er; [done |].
  destruct (match controls a !! s_uuid client with Some c => match revision c with Some _ => _ | None => _ end | None => false end) eqn:Eh; [done |].
  repeat (match goal with |- context [if ?b then (_, a) else _] => destruct b; [done |] end).
  split; [unfold rev_of; cbn [snd controls]; by rewrite lookup_insert_eq |].
  intros c Hu (ctl & Hc & Hs). unfold settled. cbn [snd controls]. rewrite Hu, lookup_insert_eq. eexists. split; [done |].
  rewrite Hu in Hc. rewrite Hc in Er, Eh |- *. destruct (ch_client c) as [cl|]; [| congruence].
  destruct Hs as (_ & Ht & Hr). cbn [removed tokenHash revision]. destruct (revision ctl) as [z|]; [| done].
  apply negb_false_iff, bool_decide_eq_true in Eh. split; [done |]. split; [congruence | done].
Qed.

(** A versioned write that is not behind takes effect. *)
Lemma store_versioned client r a :
  (∀ r', rev_of (s_uuid client) a = Some r' → r' ≤ r) →
  ∃ a', storeAgentAuthSnapshot date_parse client (Some r) a = (true, a')
    ∧ ∃ rot, controls a' = <[s_uuid client := {| tokenHash := Some (s_hash client); rotatedAt := rot; revision := Some r; removed := false |}]> (controls a).
Proof.
  intros Hr. unfold storeAgentAuthSnapshot. cbv zeta. fold (rev_of (s_uuid client) a).
  destruct (rev_of (s_uuid client) a) as [r'|]; [| eexists; split; [done |]; by eexists].
  specialize (Hr r' eq_refl). replace (r <? r') with false by (symmetry; apply Z.ltb_ge; lia). eexists. split; [done |]. by eexists.
Qed.

Lemma remove_rev now v a u : rev_of u (removeAgentAuthByUuid now v a) = rev_of u a.
Proof.
  unfold rev_of, removeAgentAuthByUuid. cbn [controls]. rewrite lookup_insert.
  destruct (decide (v = u)) as [-> | Hne]; [| done]. by destruct (controls a !! u).
Qed.
Lemma remove_other now v a u : v ≠ u → controls (removeAgentAuthByUuid now v a) !! u = controls a !! u.
Proof. intros Hne. cbn. by rewrite lookup_insert_ne. Qed.

(** What the handlers do to the credentials and the recorded changes. *)
Lemma removeClient_frame now meta st :
  syncs (removeClient now meta st).2 = syncs st
  ∧ auth (removeClient now meta st).2 = match meta_uuid meta with Some u => removeAgentAuthByUuid now u (auth st) | None => auth st end.
Proof. unfold removeClient. destruct (meta_uuid meta); [| done]. by destruct (is_bool _ _). Qed.

Lemma updateClientMeta_frame now meta st :
  syncs (updateClientMeta now meta st).2 = syncs st ∧ auth (updateClientMeta now meta st).2 = auth st.
Proof.
  unfold updateClientMeta. destruct (meta_uuid meta) as [u|]; [| done]. destruct (is_str _ "agent").
  - destruct (upsertAdminClientSnapshot _ _ _ _ _) as [[c|] s]; done.
  - cbv zeta. destruct (first_state _ _); [| done]. by destruct (controlledClientState _ _).
Qed.

Lemma sync_removal_frame now c st :
  syncs (sync_removal now c st) = syncs st
  ∧ (auth (sync_removal now c st) = auth st ∨ auth (sync_removal now c st) = removeAgentAuthByUuid now (ch_uuid c) (auth st)).
Proof.
  assert (Hm : ∀ keep, meta_uuid (("uuid", JStr (ch_uuid c)) :: keep) = if nonempty (trim (ch_uuid c)) then Some (ch_uuid c) else None) by done.
  assert (H : ∀ keep, let st' := (removeClient now (("uuid", JStr (ch_uuid c)) :: keep) st).2 in
                syncs st' = syncs st ∧ (auth st' = auth st ∨ auth st' = removeAgentAuthByUuid now (ch_uuid c) (auth st))).
  { intros keep. cbv zeta. destruct (removeClient_frame now (("uuid", JStr (ch_uuid c)) :: keep) st) as [-> ->]. rewrite Hm.
    destruct (nonempty _); auto. }
  unfold sync_removal. destruct (ch_client c); [| apply H]. destruct (pointers _ !! _); [| auto]. destruct (_ && _); [apply H | auto].
Qed.

Lemma sync_meta_frame now c st : syncs (sync_meta now c st) = syncs st ∧ auth (sync_meta now c st) = auth st.
Proof. unfold sync_meta. destruct (ch_client c); [apply updateClientMeta_frame | done]. Qed.

Lemma sync_removal_rev now c st u : rev_of u (auth (sync_removal now c st)) = rev_of u (auth st).
Proof. destruct (sync_removal_frame now c st) as [_ [-> | ->]]; [done | apply remove_rev]. Qed.

(** The credentials after the writes of a change that is not superseded. *)
Lemma sync_store_spec now c st :
  revisions_ok st → change_ok c → superseded c st = false →
  ∃ st', sync_store c (sync_removal now c (mark c false st)) = (true, st')
    ∧ syncs st' = <[ch_uuid c := (ch_revision c, false)]> (syncs st)
    ∧ settled c (auth st')
    ∧ (∀ u, u ≠ ch_uuid c → controls (auth st') !! u = controls (auth st) !! u)
    ∧ ∀ r, rev_of (ch_uuid c) (auth st') = Some r → r ≤ ch_revision c.
Proof.
  intros Hok [Hu Hc] Hs. set (st1 := sync_removal now c (mark c false st)).
  assert (H1 : syncs st1 = <[ch_uuid c := (ch_revision c, false)]> (syncs st)) by apply sync_removal_frame.
  assert (Hr : ∀ r, rev_of (ch_uuid c) (auth st1) = Some r → r ≤ ch_revision c).
  { intros r. unfold st1. rewrite sync_removal_rev. intros Hr. apply Hok in Hr as (r' & b & Hl & Hr). unfold superseded in Hs. rewrite Hl in Hs.
    apply orb_false_iff in Hs as [Hs _]. apply Z.ltb_ge in Hs. lia. }
  assert (Ho : ∀ u, u ≠ ch_uuid c → controls (auth st1) !! u = controls (auth st) !! u).
  { intros u Hne. unfold st1. destruct (sync_removal_frame now c (mark c false st)) as [_ [-> | ->]]; [done | by apply remove_other]. }
  unfold sync_store. destruct (ch_client c) as [client|] eqn:Ec.
  - destruct Hc as [Hcu Hh]. rewrite <- Hcu in Hr. destruct (store_versioned client (ch_revision c) (auth st1) Hr) as (a' & -> & rot & Ha).
    eexists. split; [done |]. split; [done |]. cbn [auth with_auth]. split; [| split].
    + unfold settled. rewrite Ec, Ha, <- Hcu, lookup_insert_eq. eexists. by split.
    + intros u Hne. rewrite Ha, lookup_insert_ne by congruence. by apply Ho.
    + intros r. unfold rev_of. rewrite Ha, <- Hcu, lookup_insert_eq. intros [= <-]. lia.
  - exists st1. split; [done |]. split; [done |]. split; [| done]. unfold settled, st1, sync_removal. rewrite Ec.
    destruct (removeClient_frame now [("uuid", JStr (ch_uuid c))] (mark c false st)) as [_ ->].
    unfold meta_uuid. change (fld _ "uuid") with (JStr (ch_uuid c)). cbv iota. rewrite Hu. cbn [controls removeAgentAuthByUuid].
    rewrite lookup_insert_eq. by eexists.
Qed.

(** An applied change. *)
Lemma apply_change_spec now c st :
  revisions_ok st → change_ok c → superseded c st = false →
  ∃ st', apply_change now c st = (200, true, st')
    ∧ syncs st' = <[ch_uuid c := (ch_revision c, true)]> (syncs st)
    ∧ settled c (auth st')
    ∧ (∀ u, u ≠ ch_uuid c → controls (auth st') !! u = controls (auth st) !! u)
    ∧ ∀ r, rev_of (ch_uuid c) (auth st') = Some r → r ≤ ch_revision c.
Proof.
  intros Hok Hc Hs. destruct (sync_store_spec now c st Hok Hc Hs) as (st1 & Heq & Hsy & Hset & Ho & Hr).
  unfold apply_change. rewrite Hs, Heq. eexists. split; [done |]. destruct (sync_meta_frame now c st1) as [H1 H2].
  cbn [mark with_syncs syncs auth]. rewrite H1, H2, Hsy, insert_insert_eq. done.
Qed.
(** An interrupted change that is not superseded: the record is incomplete, only
    the node of the change is affected, and its revision is not ahead. *)
Lemma interrupted_spec now k c st :
  revisions_ok st → change_ok c → superseded c st = false →
  syncs (interrupted now k c st) = <[ch_uuid c := (ch_revision c, false)]> (syncs st)
  ∧ (∀ u, u ≠ ch_uuid c → controls (auth (interrupted now k c st)) !! u = controls (auth st) !! u)
  ∧ ∀ r, rev_of (ch_uuid c) (auth (interrupted now k c st)) = Some r → r ≤ ch_revision c.
Proof.
  intros Hok Hc Hs. destruct (sync_store_spec now c st Hok Hc Hs) as (st1 & Heq & Hsy & _ & Ho & Hr).
  assert (Hr0 : ∀ r, rev_of (ch_uuid c) (auth st) = Some r → r ≤ ch_revision c).
  { intros r Hr0. apply Hok in Hr0 as (r' & b & Hl & Hle). unfold superseded in Hs. rewrite Hl in Hs.
    apply orb_false_iff in Hs as [Hs _]. apply Z.ltb_ge in Hs. lia. }
  unfold interrupted. rewrite Hs. destruct k as [|[|[|k]]].
  - done.
  - split; [by apply sync_removal_frame |]. split; [| intros r; rewrite sync_removal_rev; apply Hr0].
    intros u Hne. destruct (sync_removal_frame now c (mark c false st)) as [_ [-> | ->]]; [done | by apply remove_other].
  - rewrite Heq. done.
  - rewrite Heq. cbn [snd]. destruct (sync_meta_frame now c st1) as [-> ->]. done.
Qed.

(** ** What every event keeps *)

Definition event_change (e : event) : option change :=
  match e with Deliver body | Interrupt _ body => read_change body | _ => None end.

(** An event that is no applied change keeps the record, the revisions and the
    settled credentials of the nodes it does not remove. *)
Definition removes (u : jstr) (e : event) : Prop :=
  match e with
  | Forget_auth uuid _ => uuid = u
  | Remove_client meta => meta_uuid meta = Some u
  | _ => False
  end.
Lemma step_quiet now e st :
  match event_change e with Some c => superseded c st = true | None => True end →
  syncs (step now e st) = syncs st
  ∧ ∀ u, rev_of u (auth (step now e st)) = rev_of u (auth st)
         ∧ ∀ c, ch_uuid c = u → ¬ removes u e → settled c (auth st) → settled c (auth (step now e st)).
Proof.
  destruct e as [body|k body|body|uuid hash|meta|meta|live known rows]; cbn [event_change step removes]; intros Hs.
  - unfold applyClientSynchronization. destruct (read_change body); [| done]. unfold apply_change. by rewrite Hs.
  - destruct (read_change body); [| done]. unfold interrupted. by rewrite Hs.
  - split; [done |]. intros u. cbn [auth with_auth]. unfold upsertAgentAuthSnapshot.
    destruct (normalizeAgentAuthSnapshot _) as [client|]; [| done]. destruct (store_unversioned client (auth st) u) as [H1 H2].
    destruct (storeAgentAuthSnapshot date_parse client None (auth st)) as [b a]. split; [exact H1 |]. intros c Hc _. by apply H2.
  - split; [done |]. intros u. cbn [auth with_auth]. unfold removeAgentAuthSnapshot.
    destruct (nonempty uuid); [| by destruct (nonempty hash)]. split; [rewrite remove_rev; by destruct (nonempty hash) |].
    intros c Hc Hne (ctl & Hl & Hset). exists ctl. split; [| done]. rewrite Hc in *. rewrite remove_other by done. by destruct (nonempty hash).
  - destruct (updateClientMeta_frame now meta st) as [-> ->]. done.
  - destruct (removeClient_frame now meta st) as [-> ->]. split; [done |]. intros u. destruct (meta_uuid meta) as [v|]; [| done].
    split; [apply remove_rev |]. intros c Hc Hne (ctl & Hl & Hset). exists ctl. split; [| done]. rewrite Hc in *.
    rewrite remove_other by congruence. done.
  - done.
Qed.

Lemma step_applied now e c st :
  revisions_ok st → event_change e = Some c → superseded c st = false →
  ∃ complete, syncs (step now e st) = <[ch_uuid c := (ch_revision c, complete)]> (syncs st)
  ∧ (complete = true → settled c (auth (step now e st)))
  ∧ (∀ u, u ≠ ch_uuid c → controls (auth (step now e st)) !! u = controls (auth st) !! u)
  ∧ ∀ r, rev_of (ch_uuid c) (auth (step now e st)) = Some r → r ≤ ch_revision c.
Proof.
  intros Hok He Hs. destruct e as [body|k body| | | | |]; try done; cbn [event_change] in He; cbn [step].
  - pose proof (read_change_ok _ _ He) as Hc. unfold applyClientSynchronization. rewrite He.
    destruct (apply_change_spec now c st Hok Hc Hs) as (st' & -> & H1 & H2 & H3 & H4). by exists true.
  - pose proof (read_change_ok _ _ He) as Hc. rewrite He. destruct (interrupted_spec now k c st Hok Hc Hs) as (H1 & H2 & H3). by exists false.
Qed.

Lemma step_revisions_ok now e st : revisions_ok st → revisions_ok (step now e st).
Proof.
  intros Hok u r Hr. destruct (match event_change e with Some c => superseded c st | None => true end) eqn:Hs.
  - destruct (step_quiet now e st) as [Hsy Hq]; [by destruct (event_change e) |]. rewrite Hsy.
    destruct (Hq u) as [Hru _]. apply Hok. congruence.
  - destruct (event_change e) as [c|] eqn:He; [| done]. destruct (step_applied now e c st Hok He Hs) as (b & Hsy & _ & Ho & Hr').
    rewrite Hsy, lookup_insert. destruct (decide (ch_uuid c = u)) as [<- | Hne]; [exists (ch_revision c), b; eauto |].
    apply Hok. unfold rev_of in *. by rewrite <- Ho.
Qed.

(** ** Convergence *)

(** No event knows a later change of the node than [c], nor removes it on its
    own. *)
Definition latest (c : change) (e : event) : Prop :=
  (∀ c', event_change e = Some c' → ch_uuid c' = ch_uuid c → ch_revision c' < ch_revision c ∨ c' = c)
  ∧ ¬ removes (ch_uuid c) e.
(** The recorded change of the node is not later than [c], and once [c] is
    complete its credentials are in force. *)
Definition converging (c : change) (st : live_state) : Prop :=
  revisions_ok st
  ∧ match syncs st !! ch_uuid c with
    | Some (r, complete) => r ≤ ch_revision c ∧ (r = ch_revision c → complete = true → settled c (auth st))
    | None => True
    end.

Lemma step_converging now c e st : latest c e → converging c st → converging c (step now e st).
Proof.
  intros [Hl Hnr] [Hok Hrec]. split; [by apply step_revisions_ok |].
  destruct (match event_change e with Some c => superseded c st | None => true end) eqn:Hs.
  - destruct (step_quiet now e st) as [Hsy Hq]; [by destruct (event_change e) |]. rewrite Hsy.
    destruct (syncs st !! ch_uuid c) as [[r b]|]; [| done]. destruct Hrec as [Hr Hset]. split; [done |]. intros H1 H2.
    by apply (Hq (ch_uuid c)); [| | apply Hset].
  - destruct (event_change e) as [c'|] eqn:He; [| done]. destruct (step_applied now e c' st Hok He Hs) as (b & Hsy & Hset & Ho & _).
    rewrite Hsy, lookup_insert. destruct (decide (ch_uuid c' = ch_uuid c)) as [Hu | Hne].
    + destruct (Hl c' eq_refl Hu) as [Hlt | ->]; [split; [lia | intros Heq; lia] |]. split; [lia |]. intros _. done.
    + destruct (syncs st !! ch_uuid c) as [[r b']|]; [| done]. destruct Hrec as [Hr Hset']. split; [done |]. intros H1 H2.
      destruct (Hset' H1 H2) as (ctl & Hc & Hctl). exists ctl. split; [| done]. by rewrite Ho.
Qed.

Lemma run_converging c h st : Forall (λ p, latest c p.2) h → converging c st → converging c (run h st).
Proof.
  unfold run. revert st. induction h as [|[now e] h IH]; intros st Hall Hst; [done |].
  apply Forall_cons in Hall as [He Hall]. cbn [fold_left]. by apply IH, step_converging.
Qed.

Lemma deliver_latest now body c st :
  read_change body = Some c → converging c st →
  (applyClientSynchronization now body st).1.1 = 200
  ∧ let st' := (applyClientSynchronization now body st).2 in
    syncs st' !! ch_uuid c = Some (ch_revision c, true) ∧ settled c (auth st').
Proof.
  intros Hb [Hok Hrec]. unfold applyClientSynchronization. rewrite Hb. destruct (superseded c st) eqn:Hs.
  - unfold apply_change. rewrite Hs. split; [done |]. cbv zeta. cbn [snd]. unfold superseded in Hs.
    destruct (syncs st !! ch_uuid c) as [[r b]|]; [| done]. destruct Hrec as [Hr Hset].
    apply orb_true_iff in Hs as [Hlt%Z.ltb_lt | [->%Z.eqb_eq ->]%andb_true_iff]; [lia |]. split; [done | by apply Hset].
  - destruct (apply_change_spec now c st Hok (read_change_ok _ _ Hb) Hs) as (st' & -> & Hsy & Hset & _). cbn [fst snd].
    rewrite Hsy, lookup_insert_eq. done.
Qed.

Lemma converging_kept c h st :
  Forall (λ p, latest c p.2) h → converging c st → syncs st !! ch_uuid c = Some (ch_revision c, true) →
  syncs (run h st) !! ch_uuid c = Some (ch_revision c, true).
Proof.
  unfold run. revert st. induction h as [|[now e] h IH]; intros st Hall Hst Hs; [done |].
  apply Forall_cons in Hall as [He Hall]. cbn [fold_left]. pose proof (step_converging now c e st He Hst) as Hst'. apply IH; [done | done |].
  destruct Hst as [Hok _]. cbn [fst snd]. destruct (match event_change e with Some c => superseded c st | None => true end) eqn:Hsup.
  - destruct (step_quiet now e st) as [-> _]; [by destruct (event_change e) | done].
  - destruct (event_change e) as [c'|] eqn:He'; [| done]. destruct (step_applied now e c' st Hok He' Hsup) as (b & -> & _).
    rewrite lookup_insert. destruct (decide _) as [Hu | Hne]; [| done]. exfalso. unfold superseded in Hsup. rewrite Hu, Hs in Hsup.
    destruct He as [He _]. destruct (He c' He' Hu) as [Hlt | ->]; [apply orb_false_iff in Hsup as [Hsup%Z.ltb_ge _]; lia |].
    by rewrite Z.eqb_refl, orb_true_r in Hsup.
Qed.

Lemma settled_current c a u hash :
  settled c a → match ch_client c with Some client => nonempty (s_hash client) = true | None => True end → u = ch_uuid c →
  isAgentCredentialCurrent u hash a = match ch_client c with Some client => jeq hash (s_hash client) | None => false end.
Proof.
  intros (ctl & Hc & Hs) Hh ->. unfold isAgentCredentialCurrent. rewrite Hc. destruct (ch_client c) as [client|]; [| by rewrite Hs].
  destruct Hs as (-> & -> & Hr). destruct (revision ctl); [| done]. cbn [negb andb].
  destruct (jeq hash (s_hash client)) eqn:Ej.
  - apply jeq_true in Ej as ->. by rewrite Hh, bool_decide_true.
  - destruct (nonempty hash); [| done]. cbn [negb orb andb]. apply bool_decide_eq_false. intros [= <-]. by rewrite jeq_refl in Ej.
Qed.

Lemma empty_converging c : converging c empty_state.
Proof. split; [intros u r; unfold rev_of; cbn [auth empty_state controls]; by rewrite lookup_empty | cbn [syncs empty_state]; by rewrite lookup_empty]. Qed.
End Sync.

(** ** Properties *)


(** The change of revision 5 of node [n1] arrives before the removal of revision
    4 and is interrupted once. *)
Definition example_change (revision : jstr) (client : jsval) : fields :=
  [("uuid", JStr "n1"); ("revision", JStr revision); ("client", client)].
Definition example_client : jsval := JObj [("uuid", JStr "n1"); ("token_hash", JStr "h2"); ("token_rotated_at", JStr "2024-02-01")].
