(* ===== verification/LiveReport.v ===== *)
(** * The reports of a node in progress: [do/live-data.ts]

    The reports of a node are queued; each one is written in several segments
    between which removals, restores, metadata writes and other nodes run.  The
    machine below runs one segment per step: the code from one [await] to the
    next, with every write at the moment the code issues it.  A report captures
    the removal and restore counters when it arrives and gives up when they have
    changed. *)

From S2P Require Import Prelude JsStr JsNum JsVal Net Report LiveAuth LiveAdmin LiveSync.
#[local] Open Scope Z_scope.

(** ** What a report stores *)

(** [/^word$/i] of an ASCII word *)
Definition ascii_lower (s : jstr) : jstr := JS (map (λ u, if is_upper u then (u + 32)%N else u) (units s)).
(** @worker/src/do/live-data.ts:179-181 isUnknownRegionValue *)
Definition isUnknownRegionValue (region : jstr) : bool := mem (ascii_lower (trim region)) ["unknown"; "未知"; "n/a"; "null"].
(** @worker/src/do/live-data.ts:183-185 isCountryCodeRegion *)
Definition isCountryCodeRegion (region : jstr) : bool := (slen (trim region) =? 2) && all_units is_alpha (trim region).
(** @worker/src/do/live-data.ts:187-190 isDetailedRegion *)
Definition isDetailedRegion (region : jstr) : bool :=
  nonempty (trim region) && negb (isUnknownRegionValue (trim region)) && negb (isCountryCodeRegion (trim region)).
(** @worker/src/do/live-data.ts:1978-1981 isUsefulRegion *)
Definition isUsefulRegion (region : jstr) : bool := nonempty (trim region) && negb (isUnknownRegionValue (trim region)).

(** The text of a property, [""] otherwise. *)
Definition text_of (v : jsval) : jstr := match v with JStr s => s | _ => "" end.
Definition public_text (v : jsval) : bool := match v with JStr s => isPublicIpAddress s | _ => false end.
(** @worker/src/do/live-data.ts:669-675 sanitizeReport (addresses) *)
Definition drop_private (field : jstr) (r : fields) : fields :=
  if nonempty (trim (text_of (fld r field))) && negb (isPublicIpAddress (trim (text_of (fld r field)))) then del_field field r else r.
(** @worker/src/do/live-data.ts:660-695 sanitizeReport *)
Definition sanitizeReport (report : fields) (source_ip region : jstr) : fields :=
  let r := drop_private "ipv6" (drop_private "ipv4" (del_field "password" (del_field "authorization" (del_field "token" report)))) in
  let sourceIp := trim source_ip in
  let family := if includes ":" sourceIp then "ipv6" else "ipv4" in
  let r := if isPublicIpAddress sourceIp && negb (public_text (fld r family)) then set_field family (JStr sourceIp) r else r in
  let region := trim region in
  let r := if nonempty region && isUsefulRegion region && negb (isUsefulRegion (trim (text_of (fld r "region"))))
           then set_field "region" (JStr region) r else r in
  match fld r "region" with
  | JStr s => if isUsefulRegion s then r else del_field "region" r
  | _ => r
  end.

(** ** The machine *)

(** @worker/src/do/live-data.ts:835-890 updateClientReport (segments) -- where a
    report stands: waiting for its turn, in its own probes, before its control is
    read, after a write, before the control is read again, retiring a write,
    finishing *)
Inductive phase :=
| Queued | Working | Resolving
| Persisting (next : client_state) | Rechecking (next : client_state)
| Retiring | Finishing.
(** @worker/src/do/live-data.ts:42-47 ReportLifecycle -- with the report and the
    socket it came from *)
Record job := {
  j_received : Z; j_removal : Z; j_restore : Z; j_name : jstr; j_hidden : bool; j_report : fields; j_expires : option Z;
  j_socket : option nat; j_phase : phase;
}.
Definition at_phase (p : phase) (j : job) : job :=
  {| j_received := j_received j; j_removal := j_removal j; j_restore := j_restore j; j_name := j_name j; j_hidden := j_hidden j;
     j_report := j_report j; j_expires := j_expires j; j_socket := j_socket j; j_phase := p |}.

(** @worker/src/do/live-data.ts:424-432 LiveDataDO (reports) -- the chains of
    [clientReportWrites], and which open socket a node has *)
Record machine := { base : live_state; queues : gmap jstr (list job); sockets : gmap jstr nat }.
Definition queue (m : machine) (u : jstr) : list job := default [] (queues m !! u).

Definition with_reports (r : gset jstr) (v : gmap jstr Z) (st : live_state) : live_state :=
  {| auth := auth st; admin := admin st; syncs := syncs st; clients := clients st;
     lastKnownClients := lastKnownClients st; persisted := persisted st; streaks := streaks st; agents := agents st;
     reporting := r; removalVersions := v; restoreVersion := restoreVersion st; sent := sent st |}.
Definition removal_version (st : live_state) (u : jstr) : Z := default 0 (removalVersions st !! u).

(** @worker/src/do/live-data.ts:801-804 isReportCurrent *)
Definition isReportCurrent (st : live_state) (u : jstr) (j : job) : bool :=
  (j_removal j =? removal_version st u) && (j_restore j =? restoreVersion st).

(** A report as it arrives. *)
Record arrival := { ar_name : jstr; ar_hidden : bool; ar_data : jsval; ar_source_ip : jstr; ar_region : jstr; ar_ttl : option Z; ar_socket : option nat }.
(** @worker/src/do/live-data.ts:810-825 runClientReport (arrival) *)
Definition receive (now : Z) (u : jstr) (a : arrival) (m : machine) : machine :=
  let j := {| j_received := now; j_removal := removal_version (base m) u; j_restore := restoreVersion (base m); j_name := ar_name a;
              j_hidden := ar_hidden a; j_report := sanitizeReport (normalizeMonitorReport (ar_data a)) (ar_source_ip a) (ar_region a);
              j_expires := option_map (λ ttl, now + ttl) (ar_ttl a); j_socket := ar_socket a; j_phase := Queued |} in
  {| base := with_reports ({[u]} ∪ reporting (base m)) (removalVersions (base m)) (base m);
     queues := <[u := queue m u ++ [j]]> (queues m); sockets := sockets m |}.
(** @worker/src/do/live-data.ts:826-833 runClientReport (finally) *)
Definition finish (u : jstr) (m : machine) : machine :=
  match tail (queue m u) with
  | [] => {| base := with_reports (reporting (base m) ∖ {[u]}) (delete u (removalVersions (base m))) (base m);
             queues := delete u (queues m); sockets := sockets m |}
  | rest => {| base := base m; queues := <[u := rest]> (queues m); sockets := sockets m |}
  end.

Definition set_base (st : live_state) (m : machine) : machine := {| base := st; queues := queues m; sockets := sockets m |}.
(** The report at the head of the queue moves to a phase, in a new state. *)
Definition proceed (u : jstr) (j : job) (p : phase) (st : live_state) (m : machine) : machine :=
  {| base := st; queues := <[u := at_phase p j :: tail (queue m u)]> (queues m); sockets := sockets m |}.

(** @worker/src/do/live-data.ts:543-548 persistClientSnapshot *)
Definition persistClientSnapshot (c : client_state) (st : live_state) : live_state :=
  with_nodes (clients st) (lastKnownClients st) (<[cs_uuid c := compacted c]> (persisted st)) st.
(** The state a report gives a node. *)
Definition reported (u : jstr) (j : job) (control : jstr * bool) : client_state :=
  {| cs_uuid := u; cs_name := control.1; cs_hidden := control.2; cs_lastReportTime := j_received j; cs_lastReport := j_report j;
     cs_expiresAt := j_expires j; cs_websocket := match j_socket j with Some _ => true | None => false end |}.
Definition resolve (st : live_state) (u : jstr) (name : jstr) (hidden : bool) : option (jstr * bool) :=
  resolveReportClientControl (admin st) u name hidden (first_state (clients st !! u) (lastKnownClients st !! u)).
Definition same_control (c : jstr * bool) (next : client_state) : bool := jeq c.1 (cs_name next) && eqb c.2 (cs_hidden next).
Definition recontrolled (c : jstr * bool) (next : client_state) : client_state :=
  {| cs_uuid := cs_uuid next; cs_name := c.1; cs_hidden := c.2; cs_lastReportTime := cs_lastReportTime next;
     cs_lastReport := cs_lastReport next; cs_expiresAt := cs_expiresAt next; cs_websocket := cs_websocket next |}.

(** @worker/src/do/live-data.ts:864-874 updateClientReport (catch) *)
Definition retire (u : jstr) (j : job) (m : machine) : machine :=
  let st := base m in
  let retained := if isReportCurrent st u j
                  then match lastKnownClients st !! u with Some c => controlledClientState (admin st) c | None => None end
                  else None in
  proceed u j Retiring
    (match retained with
     | Some c => persistClientSnapshot c st
     | None => with_nodes (clients st) (lastKnownClients st) (delete u (persisted st)) st
     end) m.
(** @worker/src/do/live-data.ts:876-888 updateClientReport (commit) *)
Definition commit (now : Z) (u : jstr) (j : job) (next : client_state) (m : machine) : machine :=
  let st := base m in
  let known := <[u := compacted next]> (lastKnownClients st) in
  let online := match j_socket j with None => true | Some id => bool_decide (sockets m !! u = Some id) end in
  let audience := if cs_hidden next then Administrators else All in
  let st :=
    if online then
      let agents := match j_socket j, agents st !! u with
                    | Some _, Some previous => <[u := rememberAgentReportAttachment previous u (cs_name next) (cs_hidden next) (j_report j)
                                                        (j_received j) (j_expires j)]> (agents st)
                    | _, _ => agents st
                    end in
      send [(audience, Updated_node u (cs_name next) (j_report j) (j_received j))]
        (with_sockets agents (streaks st) (removalVersions st) (with_nodes (<[u := next]> (clients st)) known (persisted st) st))
    else send (broadcastOfflineClient (admin st) next) (with_nodes (clients st) known (persisted st) st) in
  proceed u j Finishing st m.
(** @worker/src/do/live-data.ts:835-890 updateClientReport -- with the start and
    the end [runClientReport] gives it: the head of the queue runs to its next
    [await] *)
Definition advance (now : Z) (u : jstr) (m : machine) : machine :=
  match queue m u with
  | [] => m
  | j :: _ =>
    let st := base m in
    let current := isReportCurrent st u j in
    match j_phase j with
    | Queued => if current then proceed u j Working st m else finish u m
    | Working => if current then proceed u j Resolving st m else finish u m
    | Resolving =>
      match resolve st u (j_name j) (j_hidden j) with
      | Some control =>
        if current then let next := reported u j control in proceed u j (Persisting next) (persistClientSnapshot next st) m
        else finish u m
      | None => finish u m
      end
    | Persisting next => if current then proceed u j (Rechecking next) st m else retire u j m
    | Rechecking next =>
      match resolve st u (cs_name next) (cs_hidden next) with
      | Some control =>
        if negb current then retire u j m
        else if same_control control next then commit now u j next m
        else let next := recontrolled control next in proceed u j (Persisting next) (persistClientSnapshot next st) m
      | None => retire u j m
      end
    | Retiring | Finishing => finish u m
    end
  end.

(** ** What runs between the segments *)

(** @worker/src/do/live-data.ts:1725-1742 removeClient (state) -- the node is
    dropped, with its socket closed *)
Definition drop (u : jstr) (m : machine) : machine :=
  {| base := drop_node u (base m); queues := queues m; sockets := delete u (sockets m) |}.

(** @worker/src/utils/restore-client-snapshot.ts:14-18 restoredClientMetadata (address) *)
Definition restore_address (safe : fields) (field : jstr) : fields :=
  let safe := if nonempty (trim (text_of (fld safe field))) && negb (public_text (fld safe field)) then set_field field (JStr "") safe else safe in
  set_field ("has_" +++ field) (JBool (isPublicIpAddress (to_str (js_or (fld safe field) (JStr ""))))) safe.
(** @worker/src/utils/restore-client-snapshot.ts:11-20 restoredClientMetadata *)
Definition restoredClientMetadata (client : fields) : fields :=
  let safe := del_field "token_hash" (del_field "token" client) in
  let uuid := trim (text_of (fld safe "uuid")) in
  set_field "uuid" (JStr uuid) (restore_address (restore_address safe "ipv4") "ipv6").
(** @worker/src/utils/restore-client-snapshot.ts:3-9 (constants) *)
Definition SNAPSHOT_KEY : jstr := "admin-clients:snapshot".
Definition SQLITE_VALUE_LIMIT_BYTES : Z := 2 * 1024 * 1024.
Definition SERIALIZATION_MARGIN_BYTES : Z := 256 * 1024.
Definition DATABASE_DEFAULTS_BYTES_PER_CLIENT : Z := 512.
(** @worker/src/utils/restore-client-snapshot.ts:22-29 measureRestoredClientSnapshot -- whether it fits *)
Definition measureRestoredClientSnapshot (clients : list fields) (reserve : bool) : bool :=
  let metadata := map restoredClientMetadata clients in
  let snapshot := JObj [("clients", JArr (map JObj metadata)); ("updatedAt", JNum (of_Z max_safe)); ("removed", JArr []); ("complete", JBool true)] in
  let serialized := byte_length (SNAPSHOT_KEY +++ json snapshot) in
  serialized + (if reserve then Z.of_nat (length metadata) * DATABASE_DEFAULTS_BYTES_PER_CLIENT else 0)
  <=? SQLITE_VALUE_LIMIT_BYTES - SERIALIZATION_MARGIN_BYTES.

(** [typeof v === 'number' && Number.isSafeInteger(v) && v >= 0] *)
Definition safe_version (v : jsval) : option Z :=
  match v with
  | JNum a => match num_Z a with Some z => if (0 <=? z) && (z <=? max_safe) then Some z else None | None => None end
  | _ => None
  end.
(** @worker/src/do/live-data.ts:2204-2227 restoreClients (state) *)
Definition restore (now : Z) (cs : list fields) (m : machine) : machine :=
  let st := base m in
  {| base := {| auth := {| snaps := ∅; pointers := ∅; controls := controls (auth st) |};
                admin := Some {| a_clients := cs; a_updatedAt := next_version now (admin st); a_removed := []; a_complete := true |};
                syncs := syncs st; clients := ∅; lastKnownClients := ∅; persisted := ∅; streaks := streaks st; agents := ∅;
                reporting := reporting st; removalVersions := removalVersions st; restoreVersion := restoreVersion st + 1;
                sent := sent st |};
     queues := queues m; sockets := ∅ |}.
(** @worker/src/do/live-data.ts:2176-2234 restoreClients -- the status *)
Definition restoreClients (now : Z) (body : fields) (m : machine) : Z * machine :=
  match safe_version (fld body "expected_version"), fld body "clients" with
  | Some expectedVersion, JArr l =>
    if (1000 <? length l)%nat || existsb (λ x, negb (is_object x)) l then (400, m)
    else
      let cs := map (λ x, restoredClientMetadata (as_object x)) l in
      let uuids := map (λ c, text_of (fld c "uuid")) cs in
      if negb (forallb nonempty uuids) || negb (bool_decide (NoDup uuids)) then (400, m)
      else if negb (measureRestoredClientSnapshot cs false) then (413, m)
      else if negb (match admin (base m) with Some s => a_updatedAt s | None => 0 end =? expectedVersion) then (409, m)
      else (200, restore now cs m)
  | _, _ => (400, m)
  end.

(** @worker/src/do/live-data.ts:1269-1277 removeExpiredClients *)
Definition removeExpiredClients (now : Z) (m : machine) : machine :=
  let st := base m in
  set_base (with_nodes (filter (λ p, unexpired now p.2 = true) (clients st)) (lastKnownClients st) (persisted st) st) m.
(** @worker/src/do/live-data.ts:1456-1470 cleanupSession -- of the agent socket
    [id] of the node *)
Definition cleanupSession (u : jstr) (id : nat) (m : machine) : machine :=
  if bool_decide (sockets m !! u = Some id) then
    let st := base m in
    let gone := match clients st !! u with Some c => broadcastOfflineClient (admin st) c | None => [] end in
    {| base := send gone (with_sockets (delete u (agents st)) (streaks st) (removalVersions st)
                            (with_nodes (delete u (clients st)) (lastKnownClients st) (persisted st) st));
       queues := queues m; sockets := delete u (sockets m) |}
  else m.
(** @worker/src/do/live-data.ts:614-623 registerSession -- of an agent *)
Definition registerSession (u : jstr) (id : nat) (attachment : fields) (m : machine) : machine :=
  let st := base m in
  {| base := with_sockets (<[u := attachment]> (agents st)) (streaks st) (removalVersions st) st;
     queues := queues m; sockets := <[u := id]> (sockets m) |}.

(** @worker/src/do/live-data.ts:938-953 applyInferredNetworkMetadataToLiveReport
    (field) *)
Definition infer_field (patch : fields) (field : jstr) (useful : jstr → bool) (r : bool * fields) : bool * fields :=
  match fld patch field with
  | JStr s => if useful s && nonempty (trim s) && negb (is_str (fld r.2 field) (trim s)) then (true, set_field field (JStr (trim s)) r.2) else r
  | _ => r
  end.
(** @worker/src/do/live-data.ts:933-977 applyInferredNetworkMetadataToLiveReport *)
Definition applyInferredNetworkMetadata (now : Z) (u : jstr) (patch : fields) (m : machine) : machine :=
  let st := base m in
  match match clients st !! u with Some c => controlledClientState (admin st) c | None => None end with
  | None => m
  | Some current =>
    if match cs_expiresAt current with Some e => e <=? now | None => false end then m
    else
      let '(changed, next_report) :=
        infer_field patch "region" isUsefulRegion
          (infer_field patch "ipv6" isPublicIpAddress (infer_field patch "ipv4" isPublicIpAddress (false, cs_lastReport current))) in
      if (changed : bool) then
        let next := {| cs_uuid := cs_uuid current; cs_name := cs_name current; cs_hidden := cs_hidden current;
                       cs_lastReportTime := cs_lastReportTime current; cs_lastReport := next_report; cs_expiresAt := cs_expiresAt current;
                       cs_websocket := cs_websocket current |} in
        let sockets := match agents st !! u with
                       | Some previous => <[u := rememberAgentReportAttachment previous u (cs_name current) (cs_hidden current) next_report
                                                   (cs_lastReportTime current) (cs_expiresAt current)]> (agents st)
                       | None => agents st
                       end in
        let audience := if cs_hidden next then Administrators else All in
        set_base (send [(audience, Updated_node u (cs_name current) next_report now)]
                    (with_sockets sockets (streaks st) (removalVersions st)
                       (with_nodes (<[u := next]> (clients st)) (<[u := compacted next]> (lastKnownClients st)) (persisted st) st))) m
      else m
  end.

(** ** Executions *)

(** One segment of the object: a report arrives, runs to its next [await] or
    fails in its own probes, or something else happens to the nodes. *)
Inductive action :=
| Receive (u : jstr) (a : arrival)
| Advance (u : jstr)
| Abandon (u : jstr)
| Drop (u : jstr)
| Restore (cs : list fields)
| Expire
| Close (u : jstr) (id : nat)
| Open (u : jstr) (id : nat) (attachment : fields)
| Meta_write (meta : fields)
| Set_snapshot (s : option admin_snapshot)
| Infer (u : jstr) (patch : fields).
Definition abandon (u : jstr) (m : machine) : machine :=
  match queue m u with
  | j :: _ => match j_phase j with Working | Finishing => finish u m | _ => m end
  | [] => m
  end.
Definition act (now : Z) (a : action) (m : machine) : machine :=
  match a with
  | Receive u ar => receive now u ar m
  | Advance u => advance now u m
  | Abandon u => abandon u m
  | Drop u => drop u m
  | Restore cs => restore now cs m
  | Expire => removeExpiredClients now m
  | Close u id => cleanupSession u id m
  | Open u id at' => registerSession u id at' m
  | Meta_write meta => set_base (updateClientMeta now meta (base m)).2 m
  | Set_snapshot s => set_base (with_admin s (base m)) m
  | Infer u patch => applyInferredNetworkMetadata now u patch m
  end.
Definition exec (l : list (Z * action)) (m : machine) : machine := fold_left (λ m p, act p.1 p.2 m) l m.
Definition initial : machine := {| base := empty_state; queues := ∅; sockets := ∅ |}.
Inductive reachable : machine → Prop :=
| reachable_initial : reachable initial
| reachable_act now a m : reachable m → reachable (act now a m).

(** ** Facts *)

(** A state of node [u] that a report received at a time in [P] wrote. *)
Definition from_report (P : Z → Prop) (u : jstr) (c : client_state) : Prop := cs_uuid c = u ∧ P (cs_lastReportTime c).
Definition stored (st : live_state) (u : jstr) (c : client_state) : Prop :=
  clients st !! u = Some c ∨ lastKnownClients st !! u = Some c ∨ persisted st !! u = Some c.
Definition phase_ok (u : jstr) (j : job) : Prop :=
  match j_phase j with
  | Persisting next | Rechecking next => cs_uuid next = u ∧ cs_lastReportTime next = j_received j
  | _ => True
  end.
Record job_ok (P : Z → Prop) (st : live_state) (u : jstr) (j : job) : Prop := {
  jo_removal : j_removal j ≤ removal_version st u;
  jo_restore : j_restore j ≤ restoreVersion st;
  jo_current : isReportCurrent st u j = true → P (j_received j);
  jo_phase : phase_ok u j;
}.
Record node_ok (P : Z → Prop) (u : jstr) (m : machine) : Prop := {
  no_reporting : u ∈ reporting (base m) ↔ queue m u ≠ [];
  no_jobs : Forall (job_ok P (base m) u) (queue m u);
  no_stored : ∀ c, stored (base m) u c → from_report P u c;
}.

(** The counters reports are compared with, and where the states of a node come
    from. *)
Definition same_counters (st st' : live_state) : Prop :=
  reporting st' = reporting st ∧ removalVersions st' = removalVersions st ∧ restoreVersion st' = restoreVersion st.
Definition derived (st st' : live_state) (u : jstr) : Prop :=
  ∀ c, stored st' u c → ∃ c0, stored st u c0 ∧ cs_uuid c = cs_uuid c0 ∧ cs_lastReportTime c = cs_lastReportTime c0.

Lemma derived_refl st st' u :
  clients st' !! u = clients st !! u → lastKnownClients st' !! u = lastKnownClients st !! u → persisted st' !! u = persisted st !! u →
  derived st st' u.
Proof. intros H1 H2 H3 c Hc. exists c. split; [| done]. unfold stored in *. by rewrite <- H1, <- H2, <- H3. Qed.

Lemma controlled_same snap c next : controlledClientState snap c = Some next → cs_uuid next = cs_uuid c ∧ cs_lastReportTime next = cs_lastReportTime c.
Proof. unfold controlledClientState. destruct (excluded _ _ _); [done |]. intros [= <-]. by destruct (metadata_of _ _). Qed.

Lemma job_ok_counters P st st' u j :
  removal_version st' u = removal_version st u → restoreVersion st' = restoreVersion st → job_ok P st u j → job_ok P st' u j.
Proof. intros H1 H2 [Ha Hb Hc Hd]. split; unfold isReportCurrent in *; rewrite ?H1, ?H2; done. Qed.

Lemma node_ok_set_base P u m st :
  same_counters (base m) st → derived (base m) st u → node_ok P u m → node_ok P u (set_base st m).
Proof.
  intros (Hr & Hv & Hs) Hd [H1 H2 H3]. split; cbn [base set_base].
  - change (queue (set_base st m) u) with (queue m u). by rewrite Hr.
  - change (queue (set_base st m) u) with (queue m u). eapply Forall_impl; [exact H2 |]. intros j. apply job_ok_counters; [unfold removal_version; by rewrite Hv | done].
  - intros c Hc. destruct (Hd c Hc) as (c0 & Hc0 & Hu & Ht). unfold from_report. rewrite Hu, Ht. by apply H3.
Qed.

(** *** Queues *)

Lemma queue_proceed u j p st m v : queue (proceed u j p st m) v = if decide (u = v) then at_phase p j :: tail (queue m u) else queue m v.
Proof. unfold queue at 1, proceed. cbn [queues]. rewrite lookup_insert. by destruct (decide (u = v)). Qed.

Lemma queue_finish u m v : queue (finish u m) v = if decide (u = v) then tail (queue m u) else queue m v.
Proof.
  unfold finish. destruct (tail (queue m u)) as [|k r] eqn:E; unfold queue at 1; cbn [queues].
  - rewrite lookup_delete. by destruct (decide (u = v)).
  - rewrite lookup_insert. by destruct (decide (u = v)).
Qed.

Lemma node_ok_proceed P u j rest p st m :
  queue m u = j :: rest → same_counters (base m) st → phase_ok u (at_phase p j) → (∀ c, stored st u c → from_report P u c) →
  node_ok P u m → node_ok P u (proceed u j p st m).
Proof.
  intros Hq (Hr & Hv & Hs) Hp Hst [H1 H2 H3]. split; rewrite ?queue_proceed, ?decide_True by done; cbn [base proceed].
  - rewrite Hr, H1, Hq. done.
  - rewrite Hq in *. cbn [tail]. apply Forall_cons in H2 as [Hj Hrest].
    assert (Hc : ∀ k, job_ok P (base m) u k → job_ok P st u k) by (intros k; apply job_ok_counters; [unfold removal_version; by rewrite Hv | done]).
    apply Forall_cons. split; [| by eapply Forall_impl]. apply Hc in Hj as [Ha Hb Hcur Hd]. by split.
  - done.
Qed.

Lemma node_ok_proceed_other P u v j p st m :
  u ≠ v → same_counters (base m) st → derived (base m) st v → node_ok P v m → node_ok P v (proceed u j p st m).
Proof.
  intros Hne Hsc Hd Hok. pose proof (node_ok_set_base P v m st Hsc Hd Hok) as [H1 H2 H3].
  split; rewrite ?queue_proceed, ?decide_False by done; done.
Qed.

Lemma node_ok_finish P u v m : node_ok P v m → node_ok P v (finish u m).
Proof.
  intros [H1 H2 H3]. destruct (decide (u = v)) as [<- | Hne].
  - pose proof (queue_finish u m u) as Hq. rewrite decide_True in Hq by done. split; rewrite ?Hq.
    + unfold finish. destruct (tail (queue m u)) as [|k r] eqn:E; cbn [base with_reports reporting]; [set_solver |].
      rewrite H1. destruct (queue m u); done.
    + unfold finish. destruct (queue m u) as [|j0 l] eqn:E0; cbn [tail]; [by apply Forall_nil_2 |].
      apply Forall_cons in H2 as [_ H2]. destruct l; [by apply Forall_nil_2 | done].
    + unfold finish. by destruct (tail (queue m u)).
  - pose proof (queue_finish u m v) as Hq. rewrite decide_False in Hq by done. split; rewrite ?Hq.
    + rewrite <- H1. unfold finish. destruct (tail (queue m u)); cbn [base with_reports reporting]; [set_solver | done].
    + eapply Forall_impl; [exact H2 |]. intros j. unfold finish. destruct (tail (queue m u)); [| done].
      apply job_ok_counters; [| done]. unfold removal_version. cbn. by rewrite lookup_delete_ne.
    + unfold finish. by destruct (tail (queue m u)).
Qed.

Lemma node_ok_receive P now u a v m : (u = v → P now) → node_ok P v m → node_ok P v (receive now u a m).
Proof.
  intros HP [H1 H2 H3]. unfold receive.
  set (j := {| j_received := now |}). set (m' := {| base := _ |}).
  assert (Hq : queue m' v = if decide (u = v) then queue m u ++ [j] else queue m v).
  { unfold queue at 1, m'. cbn [queues]. rewrite lookup_insert. by destruct (decide (u = v)). }
  assert (Hc : ∀ k, job_ok P (base m) v k → job_ok P (base m') v k) by (intros k; by apply job_ok_counters).
  destruct (decide (u = v)) as [<- | Hne]; split; rewrite ?Hq.
  - unfold m'. cbn. split; [by destruct (queue m u) | set_solver].
  - apply Forall_app. split; [by eapply Forall_impl |]. apply Forall_cons. split; [| by apply Forall_nil_2].
    split; cbn; [reflexivity.. | | done]. intros _. by apply HP.
  - exact H3.
  - unfold m'. cbn. rewrite <- H1. set_solver.
  - by eapply Forall_impl.
  - exact H3.
Qed.

(** *** Removals and restores make every report in progress stale *)

Lemma node_ok_drop P u m : node_ok (λ _, True) u m → node_ok P u (drop u m).
Proof.
  intros [H1 H2 H3]. split; cbn [base drop].
  - exact H1.
  - change (queue (drop u m) u) with (queue m u). destruct (decide (queue m u = [])) as [E | E]; [rewrite E; by apply Forall_nil_2 |].
    assert (Hv : removal_version (drop_node u (base m)) u = removal_version (base m) u + 1).
    { unfold removal_version, drop_node. cbn. rewrite decide_True by (by apply H1). by rewrite lookup_insert_eq. }
    eapply Forall_impl; [exact H2 |]. intros j [Ha Hb _ Hd]. split; rewrite ?Hv; [lia | done | | done].
    unfold isReportCurrent. rewrite Hv. intros [H%Z.eqb_eq _]%andb_true_iff. lia.
  - intros c. unfold stored, drop_node. cbn. rewrite !lookup_delete_eq. by intros [|[|]].
Qed.

Lemma node_ok_drop_other P u v m : u ≠ v → node_ok P v m → node_ok P v (drop u m).
Proof.
  intros Hne [H1 H2 H3]. split; cbn [base drop].
  - exact H1.
  - eapply Forall_impl; [exact H2 |]. intros j. apply job_ok_counters; [| done]. unfold removal_version, drop_node. cbn.
    destruct (decide _); [by rewrite lookup_insert_ne | done].
  - intros c. unfold stored, drop_node. cbn. rewrite !lookup_delete_ne by done. apply H3.
Qed.

Lemma node_ok_restore P now cs v m : node_ok (λ _, True) v m → node_ok P v (restore now cs m).
Proof.
  intros [H1 H2 H3]. split; cbn [base restore].
  - exact H1.
  - change (queue (restore now cs m) v) with (queue m v). eapply Forall_impl; [exact H2 |]. intros j [Ha Hb _ Hd].
    split; cbn [restoreVersion]; [done | lia | | done].
    unfold isReportCurrent. cbn. intros [_ H%Z.eqb_eq]%andb_true_iff. lia.
  - intros c. unfold stored. cbn. rewrite !lookup_empty. by intros [|[|]].
Qed.

(** *** The segments of a report *)

Lemma stored_persist P u c st :
  from_report P u c → (∀ c, stored st u c → from_report P u c) → ∀ c', stored (persistClientSnapshot c st) u c' → from_report P u c'.
Proof.
  intros [Hu Ht] Hst c' [H | [H | H]]; [apply Hst; by left | apply Hst; right; by left |].
  cbn in H. rewrite Hu, lookup_insert_eq in H. injection H as <-. by split.
Qed.
Lemma derived_persist u v c st : cs_uuid c = u → u ≠ v → derived st (persistClientSnapshot c st) v.
Proof. intros Hu Hne. apply derived_refl; [done | done |]. cbn. by rewrite Hu, lookup_insert_ne. Qed.

(** What a segment writes, about its own node and about the others. *)
Lemma retire_ok P u j rest m :
  queue m u = j :: rest → node_ok P u m → node_ok P u (retire u j m).
Proof.
  intros Hq Hok. pose proof (no_stored _ _ _ Hok) as Hst. unfold retire. eapply node_ok_proceed; [done | | done | | done].
  - by destruct (isReportCurrent _ _ _); [destruct (lastKnownClients _ !! u) as [c|]; [destruct (controlledClientState _ c) |] |].
  - destruct (if isReportCurrent (base m) u j then _ else None) as [c|] eqn:E.
    + apply stored_persist; [| done]. destruct (isReportCurrent _ _ _); [| done]. destruct (lastKnownClients _ !! u) as [c0|] eqn:Ek; [| done].
      apply controlled_same in E as [Hu Ht]. unfold from_report. rewrite Hu, Ht. apply Hst. right. by left.
    + intros c [H | [H | H]]; [apply Hst; by left | apply Hst; right; by left |]. cbn in H. by rewrite lookup_delete_eq in H.
Qed.
Lemma retire_other P u v j m :
  u ≠ v → node_ok (λ _, True) u m → node_ok P v m → node_ok P v (retire u j m).
Proof.
  intros Hne Hu Hok. unfold retire. apply node_ok_proceed_other; [done | | | done].
  - by destruct (if isReportCurrent (base m) u j then _ else None).
  - destruct (if isReportCurrent (base m) u j then _ else None) as [c|] eqn:E.
    + apply (derived_persist u); [| done]. destruct (isReportCurrent _ _ _); [| done].
      destruct (lastKnownClients _ !! u) as [c0|] eqn:Ek; [| done]. apply controlled_same in E as [-> _].
      by apply (no_stored _ _ _ Hu c0); right; left.
    + apply derived_refl; [done | done |]. cbn. by rewrite lookup_delete_ne.
Qed.

Lemma commit_ok P now u j rest next m :
  queue m u = j :: rest → from_report P u next → node_ok P u m → node_ok P u (commit now u j next m).
Proof.
  intros Hq [Hu Ht] Hok. pose proof (no_stored _ _ _ Hok) as Hst. unfold commit. eapply node_ok_proceed; [done | | done | | done].
  - destruct (match j_socket j with Some _ => _ | None => _ end); done.
  - assert (Hk : ∀ c, lastKnownClients (base m) !! u = Some c → from_report P u c) by (intros c Hc; apply Hst; right; by left).
    assert (Hp : ∀ c, persisted (base m) !! u = Some c → from_report P u c) by (intros c Hc; apply Hst; right; by right).
    intros c. destruct (match j_socket j with Some _ => _ | None => _ end); unfold stored; cbn; rewrite ?lookup_insert_eq.
    + intros [[= <-] | [[= <-] | H]]; [by split | by split | by apply Hp].
    + intros [H | [[= <-] | H]]; [apply Hst; by left | by split | by apply Hp].
Qed.
Lemma commit_other P now u v j next m : u ≠ v → node_ok P v m → node_ok P v (commit now u j next m).
Proof.
  intros Hne Hok. unfold commit. apply node_ok_proceed_other; [done | | | done].
  - by destruct (match j_socket j with Some _ => _ | None => _ end).
  - destruct (match j_socket j with Some _ => _ | None => _ end); apply derived_refl; cbn; by rewrite ?lookup_insert_ne.
Qed.

(** A report that is written satisfies what current reports satisfy. *)
Lemma node_ok_persist P u j rest next m :
  queue m u = j :: rest → isReportCurrent (base m) u j = true → cs_uuid next = u → cs_lastReportTime next = j_received j → node_ok P u m →
  node_ok P u (proceed u j (Persisting next) (persistClientSnapshot next (base m)) m).
Proof.
  intros Hq Hc Hu Ht Hok. eapply node_ok_proceed; [done | done | by split | | done].
  apply stored_persist; [| apply Hok]. split; [done |]. rewrite Ht. pose proof (no_jobs _ _ _ Hok) as Hj. rewrite Hq in Hj.
  apply Forall_cons in Hj as [Hj _]. by apply (jo_current _ _ _ _ Hj).
Qed.

Lemma head_phase P u j rest m : queue m u = j :: rest → node_ok P u m → phase_ok u j.
Proof. intros Hq Hok. pose proof (no_jobs _ _ _ Hok) as Hj. rewrite Hq in Hj. apply Forall_cons in Hj as [Hj _]. apply Hj. Qed.

Lemma node_ok_advance P now u m : node_ok P u m → node_ok P u (advance now u m).
Proof.
  intros Hok. unfold advance. destruct (queue m u) as [|j rest] eqn:Hq; [done |]. pose proof (head_phase _ _ _ _ _ Hq Hok) as Hp.
  assert (Hst : ∀ p, phase_ok u (at_phase p j) → node_ok P u (proceed u j p (base m) m)).
  { intros p Hph. eapply node_ok_proceed; [done | done | done | apply Hok | done]. }
  unfold phase_ok in Hp. destruct (j_phase j) as [| | |next|next| |].
  - destruct (isReportCurrent _ _ _); [by apply Hst | by apply node_ok_finish].
  - destruct (isReportCurrent _ _ _); [by apply Hst | by apply node_ok_finish].
  - destruct (resolve _ _ _ _) as [control|]; [| by apply node_ok_finish]. destruct (isReportCurrent _ _ _) eqn:Ec; [| by apply node_ok_finish].
    by eapply node_ok_persist.
  - destruct (isReportCurrent _ _ _); [by apply Hst | by eapply retire_ok].
  - destruct Hp as [Hu Ht]. destruct (resolve _ _ _ _) as [control|]; [| by eapply retire_ok].
    destruct (isReportCurrent _ _ _) eqn:Ec; cbn [negb]; [| by eapply retire_ok]. destruct (same_control control next).
    + eapply commit_ok; [done | | done]. split; [done |]. rewrite Ht. pose proof (no_jobs _ _ _ Hok) as Hj. rewrite Hq in Hj.
      apply Forall_cons in Hj as [Hj _]. by apply (jo_current _ _ _ _ Hj).
    + by eapply node_ok_persist.
  - by apply node_ok_finish.
  - by apply node_ok_finish.
Qed.

Lemma node_ok_advance_other P now u v m : u ≠ v → node_ok (λ _, True) u m → node_ok P v m → node_ok P v (advance now u m).
Proof.
  intros Hne Hu Hok. unfold advance. destruct (queue m u) as [|j rest] eqn:Hq; [done |]. pose proof (head_phase _ _ _ _ _ Hq Hu) as Hp.
  assert (Hst : ∀ p, node_ok P v (proceed u j p (base m) m)).
  { intros p. apply node_ok_proceed_other; [done | done | by apply derived_refl | done]. }
  assert (Hps : ∀ p c, cs_uuid c = u → node_ok P v (proceed u j p (persistClientSnapshot c (base m)) m)).
  { intros p c Hc. apply node_ok_proceed_other; [done | done | by eapply derived_persist | done]. }
  unfold phase_ok in Hp. destruct (j_phase j) as [| | |next|next| |].
  - destruct (isReportCurrent _ _ _); [by apply Hst | by apply node_ok_finish].
  - destruct (isReportCurrent _ _ _); [by apply Hst | by apply node_ok_finish].
  - destruct (resolve _ _ _ _) as [control|]; [| by apply node_ok_finish]. destruct (isReportCurrent _ _ _); [by apply Hps | by apply node_ok_finish].
  - destruct (isReportCurrent _ _ _); [by apply Hst | by apply retire_other].
  - destruct Hp as [Hpu _]. destruct (resolve _ _ _ _) as [control|]; [| by apply retire_other].
    destruct (isReportCurrent _ _ _); cbn [negb]; [| by apply retire_other]. destruct (same_control control next); [by apply commit_other | by apply Hps].
  - by apply node_ok_finish.
  - by apply node_ok_finish.
Qed.

(** *** Everything else derives the states of a node from its own *)

Lemma derived_insert st st' u v c next :
  stored st u c → cs_uuid next = cs_uuid c → cs_lastReportTime next = cs_lastReportTime c →
  (∀ x, stored st' v x → stored st v x ∨ u = v ∧ (x = next ∨ x = compacted next)) → derived st st' v.
Proof.
  intros Hc Hu Ht H x Hx. destruct (H x Hx) as [Hs | [<- [-> | ->]]]; [by exists x | by exists c | by exists c].
Qed.

Lemma meta_derived now meta st v : same_counters st (updateClientMeta now meta st).2 ∧ derived st (updateClientMeta now meta st).2 v.
Proof.
  unfold updateClientMeta. destruct (meta_uuid meta) as [u|]; [| by split; [| apply derived_refl]]. destruct (is_str _ "agent").
  { destruct (upsertAdminClientSnapshot _ _ _ _ _) as [[c|] s]; by split; [| apply derived_refl]. }
  cbv zeta. destruct (first_state _ _) as [retained|] eqn:Ef.
  2: { split; [done |]. cbn in Ef. destruct (clients st !! u) as [c|] eqn:Ec; [done |]. apply derived_refl; [| done..]. cbn. rewrite Ec.
       destruct (decide (u = v)) as [<- | Hne]; [by rewrite lookup_delete_eq | by rewrite lookup_delete_ne]. }
  cbn [lastKnownClients with_nodes with_admin send] in Ef.
  assert (Hs : stored st u retained).
  { destruct (clients st !! u) as [c|] eqn:Ec; cbn in Ef; [injection Ef as <-; by left | right; by left]. }
  set (online := match clients st !! u with Some c => unexpired now c | None => false end).
  assert (Hd : ∀ x, (if online then clients st else delete u (clients st)) !! v = Some x → clients st !! v = Some x).
  { intros x. destruct online; [done |]. by intros [_ H]%lookup_delete_Some. }
  destruct (controlledClientState _ retained) as [next|] eqn:En; (split; [done |]).
  - apply controlled_same in En as [Hu Ht]. eapply derived_insert; [exact Hs | exact Hu | exact Ht |]. intros x.
    unfold stored. cbn. intros [H | [H | H]]; [| | left; right; by right].
    + fold online in H. clearbody online. destruct online; [| left; left; by apply Hd]. apply lookup_insert_Some in H as [[<- <-] | [_ H]]; [right; auto | left; by left].
    + apply lookup_insert_Some in H as [[<- <-] | [_ H]]; [right; auto | left; right; by left].
  - intros x [H | [H | H]]; exists x; (split; [| done]); [left; by apply Hd | right; by left | right; by right].
Qed.

Lemma infer_derived now u patch m v :
  ∃ st, applyInferredNetworkMetadata now u patch m = set_base st m ∧ same_counters (base m) st ∧ derived (base m) st v.
Proof.
  assert (Hid : ∃ st, m = set_base st m ∧ same_counters (base m) st ∧ derived (base m) st v).
  { exists (base m). split; [by destruct m |]. split; [done | by apply derived_refl]. }
  unfold applyInferredNetworkMetadata. destruct (clients (base m) !! u) as [c|] eqn:Ec; [| done].
  destruct (controlledClientState _ c) as [current|] eqn:Ek; [| done]. destruct (match cs_expiresAt current with Some e => _ | None => _ end); [done |].
  destruct (infer_field _ _ _ _) as [[|] r]; [| done]. eexists. split; [reflexivity |]. split; [done |].
  apply controlled_same in Ek as [Hu Ht].
  set (next := {| cs_uuid := cs_uuid current; cs_name := cs_name current; cs_hidden := cs_hidden current;
                  cs_lastReportTime := cs_lastReportTime current; cs_lastReport := r; cs_expiresAt := cs_expiresAt current;
                  cs_websocket := cs_websocket current |}).
  eapply (derived_insert _ _ u v c next); [by left | exact Hu | exact Ht |]. intros x. unfold stored. cbn.
  intros [H | [H | H]]; [| | left; right; by right]; (apply lookup_insert_Some in H as [[<- <-] | [_ H]]; [right; auto |]).
  - left; by left.
  - left; right; by left.
Qed.

Lemma node_ok_sockets P v m q : node_ok P v m → node_ok P v {| base := base m; queues := queues m; sockets := q |}.
Proof. by intros [H1 H2 H3]; split. Qed.

(** *** Invariance *)

(** Every action keeps a node's invariant, when the reports that arrive for it
    satisfy the predicate. *)
Lemma node_ok_act P v now a m :
  (∀ u, node_ok (λ _, True) u m) → (∀ ar, a = Receive v ar → P now) → node_ok P v m → node_ok P v (act now a m).
Proof.
  intros Hall Ha Hok. assert (Hbase : ∀ st, same_counters (base m) st → derived (base m) st v → node_ok P v (set_base st m)).
  { intros st H1 H2. by apply node_ok_set_base. }
  destruct a as [u ar|u|u|u|cs| |u id|u id at'|meta|s|u patch]; cbn [act].
  - apply node_ok_receive; [| done]. intros ->. by eapply Ha.
  - destruct (decide (u = v)) as [<- | Hne]; [by apply node_ok_advance | by apply node_ok_advance_other].
  - unfold abandon. destruct (queue m u) as [|j l]; [done |]. destruct (j_phase j); try done; by apply node_ok_finish.
  - destruct (decide (u = v)) as [<- | Hne]; [by apply node_ok_drop | by apply node_ok_drop_other].
  - apply node_ok_restore, Hall.
  - apply Hbase; [done |]. intros c [H | [H | H]]; exists c; (split; [| done]).
    + left. by apply map_lookup_filter_Some in H as [H _].
    + right; by left.
    + right; by right.
  - unfold cleanupSession. destruct (bool_decide _); [| done].
    apply (node_ok_sockets P v (set_base _ m)), Hbase; [done |]. intros c [H | [H | H]]; exists c; (split; [| done]).
    + left. cbn in H. by apply lookup_delete_Some in H as [_ H].
    + right; by left.
    + right; by right.
  - apply (node_ok_sockets P v (set_base _ m)), Hbase; [done | by apply derived_refl].
  - apply Hbase; apply meta_derived; exact v.
  - apply Hbase; [done | by apply derived_refl].
  - destruct (infer_derived now u patch m v) as (st & -> & H1 & H2). by apply Hbase.
Qed.

Lemma reachable_ok m : reachable m → ∀ u, node_ok (λ _, True) u m.
Proof.
  induction 1 as [|now a m _ IH]; intros u.
  - split; cbn; [| by apply Forall_nil_2 |]; [set_solver |]. intros c [H | [H | H]]; cbn in H; by rewrite lookup_empty in H.
  - by apply node_ok_act.
Qed.

Lemma exec_ok P v l m :
  (∀ u, node_ok (λ _, True) u m) → Forall (λ p, ∀ ar, p.2 = Receive v ar → P p.1) l → node_ok P v m → node_ok P v (exec l m).
Proof.
  unfold exec. revert m. induction l as [|[now a] l IH]; intros m Hall Hl Hok; [done |].
  apply Forall_cons in Hl as [Ha Hl]. cbn [fold_left]. apply IH; [intros u; by apply node_ok_act | done | by apply node_ok_act].
Qed.

(** *** Progress *)

(** The control a report resolves to is the one a second reading gives. *)
Lemma resolve_stable st u name hidden control : resolve st u name hidden = Some control → resolve st u control.1 control.2 = Some control.
Proof.
  unfold resolve, resolveReportClientControl. destruct (excluded _ _ _); [done |].
  destruct (match admin st with Some s => _ | None => _ end) as [md|].
  - intros [= <-]. cbn. unfold metadata_name. by destruct (fld md "name").
  - destruct (first_state _ _) as [c|]; intros [= <-]; done.
Qed.
Lemma same_control_refl control u j : same_control control (reported u j control) = true.
Proof. unfold same_control. cbn. by rewrite jeq_refl, eqb_reflx. Qed.

(** How many segments a report has left at most, when nothing else runs. *)
Definition recheck_weight (st : live_state) (u : jstr) (next : client_state) : nat :=
  match resolve st u (cs_name next) (cs_hidden next) with
  | Some control => if same_control control next then 2 else 4
  | None => 2
  end.
Definition weight (st : live_state) (u : jstr) (j : job) : nat :=
  match j_phase j with
  | Queued => 6 | Working => 5 | Resolving => 4
  | Persisting next => S (recheck_weight st u next)
  | Rechecking next => recheck_weight st u next
  | Retiring | Finishing => 1
  end.
Definition remaining (u : jstr) (m : machine) : nat :=
  match queue m u with [] => 0 | j :: rest => weight (base m) u j + 6 * length rest end.

Lemma recheck_bounds st u next : (2 ≤ recheck_weight st u next ≤ 4)%nat.
Proof. unfold recheck_weight. destruct (resolve _ _ _ _); [destruct (same_control _ _) |]; lia. Qed.
Lemma weight_bounds st u j : (1 ≤ weight st u j ≤ 6)%nat.
Proof. unfold weight. destruct (j_phase j) as [| | |n|n| |]; try lia; pose proof (recheck_bounds st u n); lia. Qed.
Lemma left_proceed u j p st m : remaining u (proceed u j p st m) = (weight st u (at_phase p j) + 6 * length (tail (queue m u)))%nat.
Proof. unfold remaining. by rewrite queue_proceed, decide_True. Qed.
Lemma left_finish u m : (remaining u (finish u m) ≤ 6 * length (tail (queue m u)))%nat.
Proof.
  unfold remaining. rewrite queue_finish, decide_True by done. destruct (tail (queue m u)) as [|k r]; [lia |].
  pose proof (weight_bounds (base (finish u m)) u k). cbn [length]. lia.
Qed.
(** A write of a settled control needs one more look. *)
Lemma persist_weight st u next control name hidden :
  resolve st u name hidden = Some control → cs_name next = control.1 → cs_hidden next = control.2 →
  recheck_weight (persistClientSnapshot next st) u next = 2%nat.
Proof.
  intros Hr Hn Hh. unfold recheck_weight. change (resolve (persistClientSnapshot next st)) with (resolve st). rewrite Hn, Hh.
  rewrite (resolve_stable _ _ _ _ _ Hr). unfold same_control. by rewrite Hn, Hh, jeq_refl, eqb_reflx.
Qed.

(** Every segment leaves fewer. *)
Lemma advance_left now u m : queue m u ≠ [] → (remaining u (advance now u m) < remaining u m)%nat.
Proof.
  intros Hq. destruct (queue m u) as [|j rest] eqn:E; [done |].
  assert (Hl : remaining u m = (weight (base m) u j + 6 * length rest)%nat) by (unfold remaining; by rewrite E).
  assert (Hf : (remaining u (finish u m) < remaining u m)%nat).
  { pose proof (left_finish u m) as H. rewrite E in H. cbn [tail] in H. pose proof (weight_bounds (base m) u j). lia. }
  assert (Hp : ∀ p st, (weight st u (at_phase p j) < weight (base m) u j)%nat → (remaining u (proceed u j p st m) < remaining u m)%nat).
  { intros p st Hw. rewrite left_proceed, E. cbn [tail]. lia. }
  unfold advance. rewrite E. unfold weight at 2 in Hp. destruct (j_phase j) as [| | |next|next| |]; try exact Hf.
  - destruct (isReportCurrent _ _ _); [apply Hp; cbn; lia | exact Hf].
  - destruct (isReportCurrent _ _ _); [apply Hp; cbn; lia | exact Hf].
  - destruct (resolve _ _ _ _) as [control|] eqn:Er; [| exact Hf]. destruct (isReportCurrent _ _ _); [| exact Hf].
    apply Hp. unfold weight. cbn [j_phase at_phase]. erewrite persist_weight; [lia | exact Er | done..].
  - pose proof (recheck_bounds (base m) u next). destruct (isReportCurrent _ _ _); apply Hp; cbn [weight j_phase at_phase]; lia.
  - pose proof (recheck_bounds (base m) u next). assert (Hr : (remaining u (retire u j m) < remaining u m)%nat) by (apply Hp; cbn; lia).
    destruct (resolve _ _ _ _) as [control|] eqn:Er; [| exact Hr]. destruct (isReportCurrent _ _ _); cbn [negb]; [| exact Hr].
    destruct (same_control control next) eqn:Es; [apply Hp; cbn [weight j_phase at_phase]; lia |].
    apply Hp. unfold weight. cbn [j_phase at_phase]. erewrite persist_weight; [| exact Er | done..].
    unfold recheck_weight. rewrite Er, Es. lia.
Qed.

Definition drive (now : Z) (n : nat) (u : jstr) (m : machine) : machine := Nat.iter n (advance now u) m.
Lemma drive_idle now n u m : queue m u = [] → drive now n u m = m.
Proof. intros H. induction n as [|n IH]; [done |]. change (drive now (S n) u m) with (advance now u (drive now n u m)). rewrite IH. unfold advance. by rewrite H. Qed.
Lemma drive_drains now n u m : (remaining u m ≤ n)%nat → queue (drive now n u m) u = [].
Proof.
  revert m. induction n as [|n IH]; intros m Hn.
  - cbn. unfold remaining in Hn. destruct (queue m u) as [|j rest]; [done |]. pose proof (weight_bounds (base m) u j). lia.
  - destruct (decide (queue m u = [])) as [E | E]; [by rewrite drive_idle |].
    unfold drive. rewrite Nat.iter_succ_r. apply IH. pose proof (advance_left now u m E). lia.
Qed.
Lemma left_bound u m : (remaining u m ≤ 6 * length (queue m u))%nat.
Proof. unfold remaining. destruct (queue m u) as [|j rest]; [lia |]. pose proof (weight_bounds (base m) u j). cbn [length]. lia. Qed.

Lemma at_phase_twice p q j : at_phase p (at_phase q j) = at_phase p j.
Proof. done. Qed.
Lemma proceed_twice u j p q st st' m : proceed u (at_phase q j) p st' (proceed u j q st m) = proceed u j p st' m.
Proof. unfold proceed at 1. rewrite queue_proceed, decide_True by done. cbn [tail queues sockets proceed]. by rewrite insert_insert_eq. Qed.
Lemma advance_proceed now u j q st m :
  advance now u (proceed u j q st m) =
  match q with
  | Queued => if isReportCurrent st u j then proceed u j Working st m else finish u (proceed u j q st m)
  | Working => if isReportCurrent st u j then proceed u j Resolving st m else finish u (proceed u j q st m)
  | Resolving =>
    match resolve st u (j_name j) (j_hidden j) with
    | Some control =>
      if isReportCurrent st u j then let next := reported u j control in proceed u j (Persisting next) (persistClientSnapshot next st) m
      else finish u (proceed u j q st m)
    | None => finish u (proceed u j q st m)
    end
  | Persisting next => if isReportCurrent st u j then proceed u j (Rechecking next) st m else retire u (at_phase q j) (proceed u j q st m)
  | Rechecking next =>
    match resolve st u (cs_name next) (cs_hidden next) with
    | Some control =>
      if negb (isReportCurrent st u j) then retire u (at_phase q j) (proceed u j q st m)
      else if same_control control next then commit now u (at_phase q j) next (proceed u j q st m)
      else let next := recontrolled control next in proceed u j (Persisting next) (persistClientSnapshot next st) m
    | None => retire u (at_phase q j) (proceed u j q st m)
    end
  | Retiring | Finishing => finish u (proceed u j q st m)
  end.
Proof.
  unfold advance. rewrite queue_proceed, decide_True by done. cbn [j_phase at_phase base proceed].
  destruct q; rewrite ?proceed_twice; try done; cbv zeta; destruct (resolve _ _ _ _); cbn [negb]; by rewrite ?proceed_twice.
Qed.

Lemma finish_nodes u m :
  clients (base (finish u m)) = clients (base m) ∧ lastKnownClients (base (finish u m)) = lastKnownClients (base m)
  ∧ persisted (base (finish u m)) = persisted (base m).
Proof. unfold finish. by destruct (tail (queue m u)). Qed.

(** The report of a node that is alone in its queue runs to its end in six
    segments. *)
Lemma drive_report now u m j control :
  queue m u = [j] → j_phase j = Queued → isReportCurrent (base m) u j = true → resolve (base m) u (j_name j) (j_hidden j) = Some control →
  let next := reported u j control in
  drive now 6 u m = finish u (commit now u (at_phase (Rechecking next) j) next
                                (proceed u j (Rechecking next) (persistClientSnapshot next (base m)) m)).
Proof.
  intros Hq Hp Hc Hr next. unfold drive. rewrite !Nat.iter_succ_r. cbn [Nat.iter nat_rect].
  assert (H1 : advance now u m = proceed u j Working (base m) m) by (unfold advance; by rewrite Hq, Hp, Hc).
  rewrite H1, advance_proceed, Hc, advance_proceed, Hr, Hc. cbv zeta. fold next. rewrite advance_proceed.
  change (isReportCurrent (persistClientSnapshot next (base m)) u j) with (isReportCurrent (base m) u j). rewrite Hc, advance_proceed.
  change (isReportCurrent (persistClientSnapshot next (base m)) u j) with (isReportCurrent (base m) u j).
  change (resolve (persistClientSnapshot next (base m))) with (resolve (base m)).
  change (cs_name next) with control.1. change (cs_hidden next) with control.2.
  rewrite (resolve_stable _ _ _ _ _ Hr), Hc. cbn [negb]. unfold next at 1. rewrite same_control_refl.
  unfold commit. by rewrite advance_proceed.
Qed.

(** ** Properties *)

(** C14: Once a node has been removed, or the nodes were restored from a backup,
    whatever runs next and in whatever order, nothing a report received before
    then stores survives: every live, retained or stored state of the node is of a
    report received afterwards. *)
Theorem removed_reports_leave_nothing m now first u later P :
  reachable m → first = Drop u ∨ (∃ cs, first = Restore cs) → Forall (λ p, ∀ ar, p.2 = Receive u ar → P p.1) later →
  let st := base (exec later (act now first m)) in
  ∀ c, clients st !! u = Some c ∨ lastKnownClients st !! u = Some c ∨ persisted st !! u = Some c → cs_uuid c = u ∧ P (cs_lastReportTime c).
Proof.
  intros Hm Hf Hl. cbv zeta. assert (Hall : ∀ v, node_ok (λ _, True) v (act now first m)) by (apply reachable_ok; by constructor).
  apply (no_stored P u (exec later (act now first m))). apply exec_ok; [done | done |].
  destruct Hf as [-> | [cs ->]]; cbn [act]; [apply node_ok_drop | apply node_ok_restore]; by apply reachable_ok.
Qed.

(** C28: A node's reports in progress are done after at most six segments each when
    nothing else interferes, however often the metadata made them write again;
    and a report that is alone and current is accepted: it becomes the retained
    and the stored state, and the live one unless its socket was replaced. *)
Theorem reports_complete now u m :
  queue (drive now (6 * length (queue m u)) u m) u = []
  ∧ ∀ j control, queue m u = [j] → j_phase j = Queued → isReportCurrent (base m) u j = true →
      resolve (base m) u (j_name j) (j_hidden j) = Some control →
      let next := reported u j control in
      let st := base (drive now 6 u m) in
      lastKnownClients st !! u = Some (compacted next) ∧ persisted st !! u = Some (compacted next)
      ∧ ((∀ id, j_socket j = Some id → sockets m !! u = Some id) → clients st !! u = Some next).
Proof.
  split; [apply drive_drains, left_bound |]. intros j control Hq Hp Hc Hr. cbv zeta. rewrite (drive_report now u m j control) by done.
  set (next := reported u j control). set (m1 := proceed u j (Rechecking next) _ m).
  destruct (finish_nodes u (commit now u (at_phase (Rechecking next) j) next m1)) as (-> & -> & ->).
  unfold commit. cbn [base proceed j_socket at_phase m1 sockets].
  destruct (match j_socket j with Some _ => _ | None => _ end) eqn:Eo; cbn; rewrite !lookup_insert_eq; repeat (split; [done |]); [done |].
  intros Hs. destruct (j_socket j) as [id|]; [| done]. apply bool_decide_eq_false in Eo. by destruct (Eo (Hs id eq_refl)).
Qed.

(** A report interrupted by a removal of its node after its write. *)
Definition example_arrival : arrival :=
  {| ar_name := "a"; ar_hidden := false; ar_data := JObj [("cpu", JNum (of_Z 5))]; ar_source_ip := ""; ar_region := ""; ar_ttl := Some 60000;
     ar_socket := None |}.
Definition example_machine : machine :=
  exec [(100, Receive "n1" example_arrival); (101, Advance "n1"); (102, Advance "n1"); (103, Advance "n1")] initial.
Lemma removed_reports_leave_nothing_witness :
  persisted (base example_machine) !! ("n1" : jstr) ≠ None
  ∧ ∀ c, persisted (base (exec [(105, Advance "n1"); (106, Advance "n1"); (107, Advance "n1")] (act 104 (Drop "n1") example_machine))) !! ("n1" : jstr) ≠ Some c.
Proof.
  split; [vm_compute; discriminate |]. intros c Hc.
  assert (Hr : reachable example_machine) by (repeat constructor).
  eapply (removed_reports_leave_nothing example_machine 104 (Drop "n1") "n1" _ (λ _, False) Hr); [by left | | right; right; exact Hc].
  repeat apply Forall_cons_2; try apply Forall_nil_2; intros ar; discriminate.
Defined.
Lemma reports_complete_witness :
  let m := receive 100 "n1" example_arrival initial in
  ∃ j, queue m "n1" = [j] ∧ queue (drive 101 6 "n1" m) "n1" = []
    ∧ clients (base (drive 101 6 "n1" m)) !! ("n1" : jstr) = Some (reported "n1" j ("a", false)).
Proof.
  intros m. destruct (reports_complete 101 "n1" m) as [H1 H2]. eexists. split; [vm_compute; reflexivity |]. split; [exact H1 |].
  eapply H2; try (vm_compute; reflexivity). intros id [=].
Defined.
