(* ===== verification/Budget.v ===== *)
(** * Scheduled work: [utils/scheduled-budget.ts] and the cursors of [index.ts]

    A cron invocation has a budget of subrequests and time; work that does not
    fit is left to the next invocation, which resumes at a stored cursor.  The
    clock is part of the budget state and only the consumers of the items move
    it. *)

From S2P Require Import Prelude JsStr JsNum JsVal.
#[local] Open Scope Z_scope.

(** ** The budget *)

(** @worker/src/utils/scheduled-budget.ts:10-26 ScheduledBudget *)
Record budget := {
  b_now : Z; b_used : Z; b_completing : bool; b_maximum : Z; b_reserveRequests : Z; b_reserveMs : Z; b_deadline : Z;
}.
(** @worker/src/utils/scheduled-budget.ts:20-26 constructor *)
Definition new_budget (now : Z) (maxSubrequests maxDurationMs reserveRequests reserveMs : option Z) : budget :=
  {| b_now := now; b_used := 0; b_completing := false; b_maximum := default 44 maxSubrequests; b_reserveRequests := default 4 reserveRequests;
     b_reserveMs := default 5000 reserveMs; b_deadline := now + default 60000 maxDurationMs |}.
Definition with_used (used : Z) (b : budget) : budget :=
  {| b_now := b_now b; b_used := used; b_completing := b_completing b; b_maximum := b_maximum b; b_reserveRequests := b_reserveRequests b;
     b_reserveMs := b_reserveMs b; b_deadline := b_deadline b |}.
Definition at_time (now : Z) (b : budget) : budget :=
  {| b_now := now; b_used := b_used b; b_completing := b_completing b; b_maximum := b_maximum b; b_reserveRequests := b_reserveRequests b;
     b_reserveMs := b_reserveMs b; b_deadline := b_deadline b |}.
Definition with_completing (c : bool) (b : budget) : budget :=
  {| b_now := b_now b; b_used := b_used b; b_completing := c; b_maximum := b_maximum b; b_reserveRequests := b_reserveRequests b;
     b_reserveMs := b_reserveMs b; b_deadline := b_deadline b |}.

(** @worker/src/utils/scheduled-budget.ts:28-28 remainingMs *)
Definition remainingMs (b : budget) : Z := Z.max 0 (b_deadline b - (if b_completing b then 0 else b_reserveMs b) - b_now b).
(** @worker/src/utils/scheduled-budget.ts:31-33 canStart *)
Definition canStart (requests : Z) (b : budget) : bool :=
  (0 <? remainingMs b) && (b_used b + requests <=? b_maximum b - (if b_completing b then 0 else b_reserveRequests b)).
(** @worker/src/utils/scheduled-budget.ts:39-42 consume -- [None] when it throws
    [ScheduledBudgetExceeded] *)
Definition consume (requests : Z) (b : budget) : option budget :=
  if (remainingMs b <=? 0) || (b_maximum b <? b_used b + requests) then None else Some (with_used (b_used b + requests) b).
(** @worker/src/utils/scheduled-budget.ts:58-61 complete *)
Definition complete {R} (work : budget → R * budget) (b : budget) : R * budget :=
  let '(r, b) := work (with_completing true b) in (r, with_completing false b).

(** ** Subrequests *)

(** What scheduled work throws. *)
Inductive failure := Exceeded | Failed (message : jstr).
Section Fetch.
Context {Request Response : Type}.
(** [fetcher(input, init)]: the response or the error, the time it ends, and
    whether the signal of the budget aborted it for the budget's own reason. *)
Context (fetcher : Request → Z → result jstr Response * Z * bool).
(** @worker/src/utils/scheduled-budget.ts:75-89 scheduledFetch -- [None] is no
    active budget *)
Definition scheduledFetch (input : Request) (now : Z) (b : option budget) : result failure Response * Z * option budget :=
  let plain e := match e with Ok r => Ok r | Err m => Err (Failed m) end in
  match b with
  | None => let '(r, now, _) := fetcher input now in (plain r, now, None)
  | Some b =>
    match consume 1 (at_time now b) with
    | None => (Err Exceeded, now, Some (at_time now b))
    | Some b =>
      let '(r, now, exceeded) := fetcher input now in
      let b := at_time now b in
      match r with
      | Ok response => (Ok response, now, Some b)
      | Err m => (if (remainingMs b <=? 0) || exceeded then Err Exceeded else Err (Failed m), now, Some b)
      end
    end
  end.
End Fetch.

(** ** Items and cursors *)

(** @worker/src/utils/scheduled-budget.ts:99-103 rotateScheduledItems *)
Definition rotateScheduledItems {T} (items : list T) (seed : num) : list T :=
  match items, num_Z (num_floor seed) with
  | [], _ => []
  | _, Some s => let start := Z.to_nat (Z.abs s mod Z.of_nat (length items)) in drop start items ++ take start items
  | _, None => items
  end.

Section Items.
Context {T : Type} (identify : T → jstr).

(** [items.findIndex(p)] *)
Fixpoint find_index (p : T → bool) (items : list T) : option nat :=
  match items with
  | [] => None
  | x :: r => if p x then Some 0%nat else option_map S (find_index p r)
  end.
Definition start_of (cursor : option jstr) (items : list T) : nat :=
  default 0%nat (find_index (λ x, bool_decide (Some (identify x) = cursor)) items).
(** @worker/src/index.ts:485-489 orderScheduledItems *)
Definition orderScheduledItems (key : jstr) (items : list T) (cursors : gmap jstr jstr) : list T :=
  let start := start_of (cursors !! key) items in drop start items ++ take start items.
(** @worker/src/index.ts:490-494 advanceScheduledCursor *)
Definition advanceScheduledCursor (key next : jstr) (cursors : gmap jstr jstr) : gmap jstr jstr := <[key := next]> cursors.

(** The consumer of an item: the budget it leaves, and whether it threw. *)
Context (consumer : T → option budget → option failure * option budget).
Definition can_start (requests : Z) (b : option budget) : bool := match b with Some b => canStart requests b | None => true end.
(** @worker/src/utils/scheduled-budget.ts:110-117 scheduledItems (loop) -- the
    completed items, what stopped the loop, the cursors and the budget *)
Fixpoint scheduled_loop (requests : Z) (key : jstr) (ordered rest : list T) (cursors : gmap jstr jstr) (b : option budget)
  : list T * option failure * gmap jstr jstr * option budget :=
  match rest with
  | [] => ([], None, cursors, b)
  | x :: after =>
    if can_start requests b then
      match consumer x b with
      | (Some e, b) => ([], Some e, cursors, b)
      | (None, b) =>
        let next := match after with y :: _ => Some y | [] => head ordered end in
        let cursors := match next with Some y => advanceScheduledCursor key (identify y) cursors | None => cursors end in
        let '(done, stop, cursors, b) := scheduled_loop requests key ordered after cursors b in (x :: done, stop, cursors, b)
      end
    else ([], Some Exceeded, cursors, b)
  end.
(** @worker/src/utils/scheduled-budget.ts:105-118 scheduledItems *)
Definition scheduledItems (requests : Z) (key : jstr) (items : list T) (cursors : gmap jstr jstr) (b : option budget)
  : list T * option failure * gmap jstr jstr * option budget :=
  let ordered := orderScheduledItems key items cursors in
  scheduled_loop requests key ordered ordered cursors b.
End Items.

(** One invocation after the other: each has its budget and its consumer, and
    the cursors are stored in between. *)
Fixpoint invocations {T} (identify : T → jstr) (requests : Z) (key : jstr) (items : list T) (cursors : gmap jstr jstr)
    (runs : list (option budget * (T → option budget → option failure * option budget))) : list (list T) :=
  match runs with
  | [] => []
  | (b, consumer) :: rest =>
    let '(done, _, cursors, _) := scheduledItems identify consumer requests key items cursors b in
    done :: invocations identify requests key items cursors rest
  end.

(** ** Facts *)

Section Facts.
Context {T : Type} (identify : T → jstr) (items : list T).
Hypothesis Hnd : NoDup (map identify items).
Let n := length items.

(** The item [i] places after [start], going round. *)
Definition cyclic (start i : nat) : option T := items !! ((start + i) mod n)%nat.

Lemma ordered_cyclic start i : (start < n)%nat → (i < n)%nat → (drop start items ++ take start items) !! i = cyclic start i.
Proof.
  intros Hs Hi. unfold cyclic, n in *. destruct (decide (i < length items - start)%nat) as [Hl | Hl].
  - rewrite lookup_app_l by (rewrite length_drop; lia). rewrite lookup_drop, Nat.mod_small by lia. done.
  - rewrite lookup_app_r by (rewrite length_drop; lia). rewrite length_drop, lookup_take_lt by lia.
    replace (start + i)%nat with (i - (length items - start) + 1 * length items)%nat by lia.
    by rewrite Nat.Div0.mod_add, Nat.mod_small by lia.
Qed.

Lemma find_index_bound (p : T → bool) (l : list T) i : find_index p l = Some i → ∃ x : T, l !! i = Some x ∧ p x = true.
Proof.
  revert i. induction l as [|x l IH]; intros i; [done |]. cbn. destruct (p x) eqn:E; [intros [= <-]; by exists x |].
  destruct (find_index p l) as [j|]; [| done]. intros [= <-]. by apply IH.
Qed.
Lemma find_index_complete (p : T → bool) (l : list T) i x : l !! i = Some x → p x = true → (∀ j y, l !! j = Some y → p y = true → j = i) → find_index p l = Some i.
Proof.
  revert i. induction l as [|y l IH]; intros i Hi Hp Hu; [done |]. cbn. destruct (p y) eqn:E; [by rewrite <- (Hu 0%nat y eq_refl E) |].
  destruct i as [|i]; [cbn in Hi; congruence |]. cbn in Hi. rewrite (IH i); [done | done | done |].
  intros j z Hj Hz. specialize (Hu (S j) z Hj Hz). lia.
Qed.

Lemma start_bound cursor : (0 < n)%nat → (start_of identify cursor items < n)%nat.
Proof.
  intros Hn. unfold start_of. destruct (find_index _ items) as [i|] eqn:E; [| done]. apply find_index_bound in E as (x & Hx & _).
  cbn. by apply lookup_lt_Some in Hx.
Qed.
(** The stored identity is found again. *)
Lemma start_of_identity i x : items !! i = Some x → start_of identify (Some (identify x)) items = i.
Proof.
  intros Hi. unfold start_of. rewrite (find_index_complete _ items i x); [done | done | by apply bool_decide_eq_true |].
  intros j y Hj Hy. apply bool_decide_eq_true in Hy. injection Hy as Hy. rewrite NoDup_alt in Hnd.
  apply (Hnd j i (identify x)); rewrite list_lookup_fmap; [by rewrite Hj, <- Hy | by rewrite Hi].
Qed.

Lemma loop_cyclic consumer requests key start k rest cursors b done stop cursors' b' :
  (start < n)%nat → rest = drop k (drop start items ++ take start items) → (k ≤ n)%nat →
  start_of identify (cursors !! key) items = ((start + k) mod n)%nat →
  scheduled_loop identify consumer requests key (drop start items ++ take start items) rest cursors b = (done, stop, cursors', b') →
  (∀ i x, done !! i = Some x → cyclic (start + k) i = Some x) ∧ (k + length done ≤ n)%nat
  ∧ start_of identify (cursors' !! key) items = ((start + k + length done) mod n)%nat.
Proof.
  intros Hs. set (ordered := drop start items ++ take start items).
  assert (Hlen : length ordered = n) by (unfold ordered; rewrite length_app, length_drop, length_take; unfold n in *; lia).
  revert k cursors b done stop cursors' b'. induction rest as [|x rest IH]; intros k cursors b done stop cursors' b' Hr Hk Hc; cbn [scheduled_loop].
  { intros [= <- <- <- <-]. split; [done |]. cbn [length]. by rewrite !Nat.add_0_r. }
  assert (Hkx : ordered !! k = Some x).
  { replace k with (k + 0)%nat by lia. rewrite <- lookup_drop, <- Hr. done. }
  assert (Hkn : (k < n)%nat) by (apply lookup_lt_Some in Hkx; lia).
  assert (Hx : cyclic start k = Some x) by (rewrite <- ordered_cyclic by done; exact Hkx).
  destruct (can_start requests b); [| intros [= <- <- <- <-]; cbn [length]; rewrite !Nat.add_0_r; done].
  destruct (consumer x b) as [[e|] b1]; [intros [= <- <- <- <-]; cbn [length]; rewrite !Nat.add_0_r; done |].
  assert (Hrest : rest = drop (S k) ordered).
  { replace (S k) with (k + 1)%nat by lia. rewrite <- drop_drop, <- Hr. done. }
  assert (Hnext : ∃ y, match rest with y :: _ => Some y | [] => head ordered end = Some y ∧ cyclic start (S k) = Some y).
  { destruct (decide (S k < n)%nat) as [Hsk | Hsk].
    - destruct (lookup_lt_is_Some_2 ordered (S k)) as [y Hy]; [lia |]. exists y. rewrite <- (ordered_cyclic start (S k)) by done.
      split; [| done]. assert (H0 : rest !! 0%nat = Some y) by (rewrite Hrest, lookup_drop, Nat.add_0_r; done).
      by destruct rest.
    - assert (S k = n) by lia. rewrite Hrest, drop_ge by lia. destruct (lookup_lt_is_Some_2 ordered 0) as [y Hy]; [lia |].
      exists y. split; [by destruct ordered |]. rewrite <- Hy. unfold ordered. rewrite (ordered_cyclic start 0) by lia. unfold cyclic.
      rewrite Nat.add_0_r. replace (start + S k)%nat with (start + 1 * n)%nat by lia. by rewrite Nat.Div0.mod_add. }
  destruct Hnext as (y & Hy & Hcy). rewrite Hy. destruct (scheduled_loop identify consumer _ _ _ rest _ b1) as [[[d s] c] b2] eqn:El.
  intros [= <- <- <- <-]. eapply (IH (S k)) in El as (H1 & H2 & H3); [| done | lia |].
  - split; [| split; [cbn [length]; lia | rewrite H3; cbn [length]; f_equal; lia]]. intros [|i] z Hz; cbn in Hz.
    + injection Hz as <-. unfold cyclic in *. by rewrite Nat.add_0_r.
    + specialize (H1 i z Hz). unfold cyclic in *. by replace (start + k + S i)%nat with (start + S k + i)%nat by lia.
  - unfold advanceScheduledCursor. rewrite lookup_insert_eq. by apply start_of_identity.
Qed.

Lemma scheduled_cyclic consumer requests key cursors b done stop cursors' b' :
  (0 < n)%nat → scheduledItems identify consumer requests key items cursors b = (done, stop, cursors', b') →
  (∀ i x, done !! i = Some x → cyclic (start_of identify (cursors !! key) items) i = Some x)
  ∧ start_of identify (cursors' !! key) items = ((start_of identify (cursors !! key) items + length done) mod n)%nat.
Proof.
  intros Hn Hr. pose proof (start_bound (cursors !! key) Hn) as Hs. unfold scheduledItems, orderScheduledItems in Hr.
  eapply (loop_cyclic _ _ _ _ 0) in Hr as (H1 & _ & H3); [| done | by rewrite drop_0 | lia | rewrite Nat.add_0_r, Nat.mod_small by done; done].
  rewrite Nat.add_0_r in *. done.
Qed.

Lemma cyclic_mod s i : cyclic (s mod n) i = cyclic s i.
Proof. unfold cyclic. by rewrite Nat.Div0.add_mod_idemp_l. Qed.

Lemma invocations_cyclic requests key cursors runs i x :
  (0 < n)%nat → concat (invocations identify requests key items cursors runs) !! i = Some x →
  cyclic (start_of identify (cursors !! key) items) i = Some x.
Proof.
  intros Hn. revert cursors i. induction runs as [|[b consumer] runs IH]; intros cursors i; [done |]. cbn [invocations].
  destruct (scheduledItems _ _ _ _ _ _ _) as [[[d s] c] b'] eqn:E. apply scheduled_cyclic in E as [H1 H2]; [| done].
  cbn [concat]. intros Hi. apply lookup_app_Some in Hi as [Hi | [Hl Hi]]; [by apply H1 |].
  apply IH in Hi. rewrite H2, cyclic_mod in Hi. unfold cyclic in *.
  by replace (start_of identify (cursors !! key) items + length d + (i - length d))%nat with
     (start_of identify (cursors !! key) items + i)%nat in Hi by lia.
Qed.

(** Every position is [i] places after the start, for some [i < n]. *)
Lemma cyclic_onto s j x : items !! j = Some x → ∃ i, (i < n)%nat ∧ cyclic s i = Some x.
Proof.
  intros Hj. pose proof (lookup_lt_Some _ _ _ Hj) as Hl. fold n in Hl. exists ((j + n - s mod n) mod n)%nat.
  split; [apply Nat.mod_upper_bound; lia |]. rewrite <- cyclic_mod. unfold cyclic.
  pose proof (Nat.mod_upper_bound s n) as Hs. rewrite Nat.Div0.add_mod_idemp_r.
  replace (s mod n + (j + n - s mod n))%nat with (j + 1 * n)%nat by lia. by rewrite Nat.Div0.mod_add, Nat.mod_small.
Qed.
End Facts.

(** ** Properties *)

(** C33: Whatever each invocation's budget allows, the items served one invocation
    after the other are the list gone round from the stored cursor, without
    skipping or repeating one; so once as many items as the list holds have been
    served, and in particular after as many invocations that each complete at
    least one, no item has been starved. *)
Theorem scheduled_items_fair {T} (identify : T → jstr) requests key items cursors runs :
  NoDup (map identify items) → items ≠ [] →
  let rounds := invocations identify requests key items cursors runs in
  let start := start_of identify (cursors !! key) items in
  (∀ i x, concat rounds !! i = Some x → items !! ((start + i) mod length items)%nat = Some x)
  ∧ ((length items ≤ length (concat rounds))%nat → ∀ x, x ∈ items → x ∈ concat rounds)
  ∧ (Forall (λ d, d ≠ []) rounds → (length items ≤ length runs)%nat → ∀ x, x ∈ items → x ∈ concat rounds).
Proof.
  intros Hnd Hne. cbv zeta. set (rounds := invocations identify requests key items cursors runs).
  assert (Hn : (0 < length items)%nat) by (destruct items; [done | cbn; lia]).
  assert (H1 : ∀ i x, concat rounds !! i = Some x → cyclic items (start_of identify (cursors !! key) items) i = Some x).
  { intros i x. by apply invocations_cyclic. }
  assert (H2 : (length items ≤ length (concat rounds))%nat → ∀ x, x ∈ items → x ∈ concat rounds).
  { intros Hl x [j Hj]%list_elem_of_lookup_1. destruct (cyclic_onto items (start_of identify (cursors !! key) items) j x Hj) as (i & Hi & Hc).
    destruct (lookup_lt_is_Some_2 (concat rounds) i) as [y Hy]; [lia |]. pose proof (H1 i y Hy) as Hy'. rewrite Hc in Hy'.
    injection Hy' as <-. by eapply list_elem_of_lookup_2. }
  split; [done |]. split; [done |]. intros Hr Hl. apply H2.
  assert (Hlen : ∀ c, length (invocations identify requests key items c runs) = length runs).
  { clear. induction runs as [|[b consumer] runs IH]; intros c; [done |]. cbn [invocations].
    destruct (scheduledItems _ _ _ _ _ _ _) as [[[d s] c'] b']. cbn [length]. by rewrite IH. }
  assert (Hc : (length rounds ≤ length (concat rounds))%nat).
  { clear - Hr. induction Hr as [|d l Hd _ IH]; [done |]. cbn [concat length]. rewrite length_app. destruct d; [done |]. cbn [length]. lia. }
  unfold rounds in Hc at 1. rewrite Hlen in Hc. lia.
Qed.

(** Three items, two invocations that complete two each. *)
Definition example_run : option budget * (jstr → option budget → option failure * option budget) :=
  (Some (new_budget 0 (Some 34) None None None),
   λ x b, match b with Some b => (None, Some (with_used (b_used b + 14) b)) | None => (None, None) end).
Lemma scheduled_items_fair_witness :
  let rounds := invocations id 14 "websites" (["1"; "2"; "3"] : list jstr) {["websites" := "2"]} [example_run; example_run] in
  rounds = [["2"; "3"]; ["1"; "2"]] ∧ ("3" : jstr) ∈ concat rounds.
Proof.
  intros rounds. assert (Hr : rounds = [["2"; "3"]; ["1"; "2"]]) by (vm_compute; reflexivity). split; [exact Hr |].
  destruct (scheduled_items_fair id 14 "websites" (["1"; "2"; "3"] : list jstr) {["websites" := "2"]} [example_run; example_run]) as (_ & H & _).
  - apply (bool_decide_eq_true_1 _). vm_compute. reflexivity.
  - discriminate.
  - apply H; [fold rounds; rewrite Hr; cbn; lia | list_elem].
Defined.
