(* ===== verification/Website.v ===== *)
(** * Website monitors: [utils/website-monitor.ts]

    Validation of a monitor, the probe of a site over HTTP or TCP, and when a
    monitor is due or must be notified.  The URL parser, the network and
    [Date.parse] are parameters. *)

From Stdlib Require Import ZifyBool.
From S2P Require Import Prelude JsStr JsNum JsVal JsDate Net Budget.
#[local] Open Scope Z_scope.

(** ** Data *)

(** @worker/src/utils/website-monitor.ts:7-9 WebsiteMonitorMethod *)
Inductive method := GET | HEAD | TCP.
Inductive probe_mode := Off | Selected | Country_auto.
(** @worker/src/utils/website-monitor.ts:11-28 WebsiteMonitorInput *)
Record monitor_input := {
  mi_name : jstr; mi_url : jstr; mi_method : method; mi_status_min : num; mi_status_max : num; mi_interval : num; mi_timeout : num;
  mi_grace : num; mi_enabled : bool; mi_hidden : bool; mi_hide_url : bool; mi_probe_mode : probe_mode; mi_probe_clients : list jstr;
  mi_probe_limit : num; mi_probe_status : bool;
}.
(** @worker/src/utils/website-monitor.ts:52-60 WebsiteProbeMonitor *)
Record monitor := {
  m_id : Z; m_revision : jstr; m_url : jstr; m_method : method; m_timeout : Z; m_min : Z; m_max : Z;
}.
(** @worker/src/utils/website-monitor.ts:42-50 WebsiteFetchResult -- [up] is the
    effective status *)
Record fetch_result := {
  fr_ok : bool; fr_up : bool; fr_reason : jstr; fr_status : option Z; fr_latency : Z; fr_error : option jstr;
}.
(** A recorded check: the monitor, its revision, the time and the result. *)
Record check := { ck_monitor : Z; ck_revision : jstr; ck_at : jstr; ck_result : fetch_result }.

(** ** Hosts *)

(** @worker/src/utils/website-monitor.ts:105-108 integerInRange *)
Definition integerInRange (value : jsval) (min max : Z) : option num :=
  let number := to_num value in
  if is_integer number && num_le (of_Z min) number && num_le number (of_Z max) then Some number else None.
(** @worker/src/utils/website-monitor.ts:110-114 parseIPv4 *)
Definition parseIPv4 (host : jstr) : option (list Z) := parse_dotted_quad host.
(** @worker/src/utils/website-monitor.ts:116-123 isAmbiguousNumericHost *)
Definition isAmbiguousNumericHost (host : jstr) : bool := ambiguous_numeric_host parseIPv4 host.
(** @worker/src/utils/website-monitor.ts:125-141 isBlockedIPv4 *)
Definition isBlockedIPv4 (parts : list Z) : bool :=
  match parts with
  | a :: b :: c :: _ =>
    (a =? 0)
    || (a =? 10)
    || (a =? 127)
    || ((a =? 100) && (64 <=? b) && (b <=? 127))
    || ((a =? 169) && (b =? 254))
    || ((a =? 172) && (16 <=? b) && (b <=? 31))
    || ((a =? 192) && (b =? 168))
    || ((a =? 192) && (b =? 0) && ((c =? 0) || (c =? 2)))
    || ((a =? 198) && ((b =? 18) || (b =? 19)))
    || ((a =? 198) && (b =? 51) && (c =? 100))
    || ((a =? 203) && (b =? 0) && (c =? 113))
    || (224 <=? a)
  | _ => false
  end.
(** @worker/src/utils/website-monitor.ts:143-145 isIPv4MappedIPv6 *)
Definition isIPv4MappedIPv6 (host : jstr) : bool :=
  starts_with "::ffff:" host || starts_with "0:0:0:0:0:ffff:" host.
(** [/^172\.(1[6-9]|2\d|3[01])\./] and [/^(22[4-9]|23\d)\./] *)
Definition match_172 (l : list N) : bool :=
  match l with
  | x :: y :: d :: _ => (d =? 46)%N && (((x =? 49) && (54 <=? y) && (y <=? 57)) || ((x =? 50) && is_digit y) || ((x =? 51) && ((y =? 48) || (y =? 49))))%N
  | _ => false
  end.
Definition match_224 (l : list N) : bool :=
  match l with
  | two :: x :: y :: d :: _ => (two =? 50)%N && (d =? 46)%N && (((x =? 50) && (52 <=? y) && (y <=? 57)) || ((x =? 51) && is_digit y))%N
  | _ => false
  end.
(** @worker/src/utils/website-monitor.ts:76-84 IPV4_BLOCKS -- whether one matches *)
Definition IPV4_BLOCKS (host : jstr) : bool :=
  existsb (λ p, starts_with p host) ["0."; "10."; "127."; "169.254."; "192.168."]
  || (starts_with "172." host && match_172 (units (slice_from 4 host)))
  || match_224 (units host).
(** [/^100(:|$)/] of a prefix *)
Definition prefix_group (p host : jstr) : bool :=
  starts_with p host && match units (slice_from (length (units p)) host) with [] => true | c :: _ => (c =? 58)%N end.
(** @worker/src/utils/website-monitor.ts:147-161 isUnsafeHostname *)
Definition isUnsafeHostname (hostname : jstr) : bool :=
  let host := strip_dot (strip_brackets (lower hostname)) in
  if negb (nonempty host) || jeq host "localhost" || ends_with ".localhost" host then true
  else if jeq host "metadata.google.internal" then true
  else if isAmbiguousNumericHost host then true
  else match parseIPv4 host with
  | Some ipv4 => isBlockedIPv4 ipv4
  | None =>
    if IPV4_BLOCKS host then true
    else if negb (includes ":" host) then false
    else if isIPv4MappedIPv6 host then true
    else if jeq host "::" || jeq host "::1" then true
    else if existsb (λ p, starts_with p host) ["fc"; "fd"; "fe8"; "fe9"; "fea"; "feb"; "ff"] then true
    else prefix_group "100" host || prefix_group "2001:db8" host
  end.

(** @worker/src/utils/website-monitor.ts:163-169 validateWebsiteUrl *)
Definition validateWebsiteUrl (parsed : url) : option jstr :=
  if negb (mem (protocol parsed) ["http:"; "https:"]) then Some "invalid_protocol"
  else if nonempty (username parsed) || nonempty (password parsed) then Some "url_credentials_not_allowed"
  else if nonempty (hash parsed) then Some "url_fragment_not_allowed"
  else if isUnsafeHostname (hostname parsed) then Some "unsafe_host"
  else None.
(** @worker/src/utils/website-monitor.ts:171-179 validateTcpUrl *)
Definition validateTcpUrl (parsed : url) : option jstr :=
  if negb (jeq (protocol parsed) "tcp:") then Some "invalid_protocol"
  else if nonempty (username parsed) || nonempty (password parsed) then Some "url_credentials_not_allowed"
  else if nonempty (hash parsed) || nonempty (search parsed) || (nonempty (pathname parsed) && negb (jeq (pathname parsed) "/")) then Some "invalid_url"
  else if isUnsafeHostname (hostname parsed) then Some "unsafe_host"
  else
    let port := str_num (port parsed) in
    if negb (is_integer port) || num_lt port (of_Z 1) || num_lt (of_Z 65535) port then Some "invalid_port" else None.

(** ** Validation of a monitor *)

(** @worker/src/utils/website-monitor.ts:185-193 readStringArray (loop) *)
Fixpoint read_strings (result : list jstr) (source : list jsval) : list jstr :=
  match source with
  | [] => result
  | JStr item :: rest =>
    let text := trim item in
    if negb (nonempty text) || mem text result then read_strings result rest
    else
      let result := result ++ [text] in
      if (100 <=? length result)%nat then result else read_strings result rest
  | _ :: rest => read_strings result rest
  end.
(** @worker/src/utils/website-monitor.ts:181-194 readStringArray *)
Definition readStringArray (value : jsval) : list jstr := match value with JArr source => read_strings [] source | _ => [] end.

Definition bool_or (value : jsval) (fallback : bool) : bool := match value with JBool b => b | _ => fallback end.
(** [value ?? fallback] *)
Definition or_num (value : jsval) (fallback : Z) : jsval := coalesce value (JNum (of_Z fallback)).
(** @worker/src/utils/website-monitor.ts:207-208 validateWebsiteMonitorInput (method) *)
Definition read_method (value : jsval) : option method :=
  if is_str value "TCP" then Some TCP
  else if is_str value "HEAD" then Some HEAD
  else if is_str value "GET" || negb (truthy value) then Some GET
  else None.

Section Monitors.
Context (URL : jstr → option url).

(** @worker/src/utils/website-monitor.ts:196-255 validateWebsiteMonitorInput *)
Definition validateWebsiteMonitorInput (input : fields) : result jstr monitor_input :=
  let name := trim (to_str (js_or (fld input "name") (JStr ""))) in
  if negb (nonempty name) || (120 <? slen name) then Err "invalid_name"
  else
    match URL (trim (to_str (js_or (fld input "url") (JStr "")))) with
    | None => Err "invalid_url"
    | Some parsed =>
      match read_method (fld input "method") with
      | None => Err "invalid_method"
      | Some m =>
        match (match m with TCP => validateTcpUrl parsed | _ => validateWebsiteUrl parsed end) with
        | Some urlError => Err urlError
        | None =>
          let range k fallback lo hi := integerInRange (or_num (fld input k) fallback) lo hi in
          let mode := if is_str (fld input "agent_probe_mode") "selected" then Selected
                      else if is_str (fld input "agent_probe_mode") "country_auto" then Country_auto else Off in
          match range "expected_status_min" 200 100 599, range "expected_status_max" 399 100 599, range "interval_sec" 120 60 86400,
                range "timeout_sec" 10 1 30, range "grace_period_sec" 180 30 86400, range "agent_probe_limit" 3 1 10 with
          | Some lo, Some hi, Some interval, Some timeout, Some grace, Some limit =>
            if num_lt hi lo || num_lt interval timeout then Err "invalid_bounds"
            else Ok {| mi_name := name; mi_url := href parsed; mi_method := m; mi_status_min := lo; mi_status_max := hi; mi_interval := interval;
                       mi_timeout := timeout; mi_grace := grace; mi_enabled := bool_or (fld input "enabled") true;
                       mi_hidden := bool_or (fld input "hidden") false; mi_hide_url := bool_or (fld input "hide_url") false;
                       mi_probe_mode := mode; mi_probe_clients := readStringArray (fld input "agent_probe_clients"); mi_probe_limit := limit;
                       mi_probe_status := bool_or (fld input "agent_probe_status_enabled") true |}
          | _, _, _, _, _, _ => Err "invalid_bounds"
          end
        end
      end
    end.

(** ** Probes *)

(** @worker/src/utils/website-monitor.ts:86-86 REACHABLE_CHALLENGE_STATUSES *)
Definition REACHABLE_CHALLENGE_STATUSES : list Z := [401; 403; 405; 412; 429].
(** What a probe ended with: a status or the message of an error. *)
Inductive probe_end := Status (status : Z) | Error (message : jstr).
Definition contains_any (words : list jstr) (s : jstr) : bool := existsb (λ w, includes w s) words.
(** @worker/src/utils/website-monitor.ts:277-288 normalizeWebsiteFetchResult (error) *)
Definition error_class (text : jstr) : jstr :=
  let message := lower text in
  if contains_any ["unsafe_redirect"] message then "unsafe_redirect"
  else if contains_any ["unsafe_host"] message then "unsafe_host"
  else if contains_any ["abort"; "timeout"; "timed out"] message then "timeout"
  else if contains_any ["enotfound"; "dns"; "getaddrinfo"] message then "dns_error"
  else if contains_any ["certificate"; "tls"; "ssl"] message then "tls_error"
  else "network_error".
(** @worker/src/utils/website-monitor.ts:257-298 normalizeWebsiteFetchResult *)
Definition normalizeWebsiteFetchResult (ended : probe_end) (latencyMs min max : Z) : fetch_result :=
  let latency := Z.max 0 latencyMs in
  match ended with
  | Status status =>
    let inRange := (min <=? status) && (status <=? max) in
    let challengeReachable := (min =? 200) && (max =? 399) && bool_decide (status ∈ REACHABLE_CHALLENGE_STATUSES) in
    let ok := inRange || challengeReachable in
    {| fr_ok := ok; fr_up := ok;
       fr_reason := if inRange then "status_in_expected_range" else if challengeReachable then "reachable_challenge" else "http_status_mismatch";
       fr_status := Some status; fr_latency := latency; fr_error := if ok then None else Some ("http_" +++ dec_Z status) |}
  | Error message =>
    let error := error_class message in
    {| fr_ok := false; fr_up := false; fr_reason := error; fr_status := None; fr_latency := latency; fr_error := Some error |}
  end.

(** The message of the [TypeError] of [new URL]. *)
Context (url_error : jstr).
Definition checked (m : monitor) (started : Z) (r : fetch_result) : check :=
  {| ck_monitor := m_id m; ck_revision := m_revision m; ck_at := iso_string started; ck_result := r |}.
(** The [catch] of both probes: a budget that is exceeded goes through, any other
    error is a result. *)
Definition probe_failed (m : monitor) (started now : Z) (e : failure) (b : option budget) : result failure check * Z * option budget :=
  (match e with
   | Exceeded => Err Exceeded
   | Failed message => Ok (checked m started (normalizeWebsiteFetchResult (Error message) (now - started) (m_min m) (m_max m)))
   end, now, b).

(** The outcome of a connection under a time limit, at a time: opened and then
    closed, possibly with an error, refused, or neither before the limit. *)
Inductive tcp_outcome := Opened (close_error : option jstr) | Refused (message : jstr) | Timed_out.
Context (connect : jstr → num → Z → Z → tcp_outcome * Z).
(** @worker/src/utils/website-monitor.ts:300-373 checkWebsiteMonitorTcp *)
Definition checkWebsiteMonitorTcp (m : monitor) (started : Z) (b : option budget) : result failure check * Z * option budget :=
  match URL (m_url m) with
  | None => probe_failed m started started (Failed url_error) b
  | Some u =>
    match validateTcpUrl u with
    | Some urlError => probe_failed m started started (Failed urlError) b
    | None =>
      match (match b with Some b => option_map Some (consume 1 (at_time started b)) | None => Some None end) with
      | None => probe_failed m started started Exceeded b
      | Some b =>
        let wanted := Z.max 1 (m_timeout m) * 1000 in
        let limit := match b with Some b => Z.min wanted (remainingMs b) | None => wanted end in
        let '(outcome, now) := connect (hostname u) (str_num (port u)) limit started in
        let b := option_map (at_time now) b in
        match outcome with
        | Opened None =>
          (Ok (checked m started {| fr_ok := true; fr_up := true; fr_reason := "tcp_connect"; fr_status := None;
                                    fr_latency := Z.max 0 (now - started); fr_error := None |}), now, b)
        | Opened (Some message) | Refused message => probe_failed m started now (Failed message) b
        | Timed_out =>
          let exceeded := match b with Some b => remainingMs b =? 0 | None => false end in
          probe_failed m started now (if exceeded then Exceeded else Failed "timeout") b
        end
      end
    end
  end.

(** A response: its status and its [Location]. *)
Record http_response := { hr_status : Z; hr_location : option jstr }.
(** [new URL(location, base)] *)
Context (URL_from : jstr → url → option url).
Context (fetcher : jstr → Z → result jstr http_response * Z * bool).
(** @worker/src/utils/website-monitor.ts:406-412 checkWebsiteMonitorHttp (redirect) *)
Definition redirect_error (u : url) (r : http_response) : option jstr :=
  match hr_location r with
  | Some location =>
    if nonempty location && (300 <=? hr_status r) && (hr_status r <=? 399) then
      match URL_from location u with
      | None => Some url_error
      | Some next => match validateWebsiteUrl next with Some _ => Some "unsafe_redirect" | None => None end
      end
    else None
  | None => None
  end.
(** @worker/src/utils/website-monitor.ts:375-455 checkWebsiteMonitorHttp *)
Definition checkWebsiteMonitorHttp (m : monitor) (started : Z) (b : option budget) : result failure check * Z * option budget :=
  match m_method m with
  | TCP => checkWebsiteMonitorTcp m started b
  | _ =>
    match URL (m_url m) with
    | None => probe_failed m started started (Failed url_error) b
    | Some u =>
      match validateWebsiteUrl u with
      | Some urlError => probe_failed m started started (Failed urlError) b
      | None =>
        match scheduledFetch fetcher (href u) started b with
        | (Err e, now, b) => probe_failed m started now e b
        | (Ok response, now, b) =>
          match redirect_error u response with
          | Some message => probe_failed m started now (Failed message) b
          | None => (Ok (checked m started (normalizeWebsiteFetchResult (Status (hr_status response)) (now - started) (m_min m) (m_max m))), now, b)
          end
        end
      end
    end
  end.
End Monitors.

(** ** Due checks and notifications *)

(** The columns the decisions read; times are texts. *)
Record monitor_row := {
  w_enabled : bool; w_interval : Z; w_last_checked : option jstr; w_down : bool; w_up : bool; w_grace : Z;
  w_down_since : option jstr; w_last_notified : option jstr;
}.
Definition present (v : option jstr) : option jstr := match v with Some s => if nonempty s then Some s else None | None => None end.
Section Decisions.
(** [new Date(text).getTime()], [None] for [NaN]. *)
Context (date_parse : jstr → option Z).
(** @worker/src/utils/website-monitor.ts:457-461 isWebsiteCheckDue *)
Definition isWebsiteCheckDue (m : monitor_row) (now : Z) : bool :=
  if negb (w_enabled m) then false
  else match present (w_last_checked m) with
       | None => true
       | Some t => match date_parse t with Some last => Z.max 1 (w_interval m - 30) * 1000 <=? now - last | None => false end
       end.
(** @worker/src/utils/website-monitor.ts:463-466 shouldNotifyWebsiteDown *)
Definition shouldNotifyWebsiteDown (m : monitor_row) (now : Z) : bool :=
  match w_enabled m && w_down m, present (w_last_notified m), present (w_down_since m) with
  | true, None, Some t => match date_parse t with Some since => w_grace m * 1000 <=? now - since | None => false end
  | _, _, _ => false
  end.
(** @worker/src/utils/website-monitor.ts:468-470 shouldNotifyWebsiteRecovery *)
Definition shouldNotifyWebsiteRecovery (m : monitor_row) : bool :=
  w_enabled m && w_up m && match present (w_last_notified m) with Some _ => true | None => false end.
End Decisions.

(** ** Facts *)

(** What the address check promises of a host name. *)
Definition website_host_safe (h : jstr) : Prop :=
  let host := strip_dot (strip_brackets (lower h)) in
  host ≠ "" ∧ host ≠ "localhost" ∧ ends_with ".localhost" host = false ∧ host ≠ "metadata.google.internal"
  ∧ (∀ o v, parseIPv4 host = Some o → ipv4_value o = Some v → in_cidrs v (private_blocks ++ special_blocks) = false)
  ∧ (parseIPv4 host = None → IPV4_BLOCKS host = false)
  ∧ (includes ":" host = true → host ≠ "::" ∧ host ≠ "::1" ∧ isIPv4MappedIPv6 host = false
     ∧ ∀ p, p ∈ ["fc"; "fd"; "fe8"; "fe9"; "fea"; "feb"; "ff"] → starts_with p host = false).

Lemma isBlockedIPv4_blocks host o v :
  parseIPv4 host = Some o → ipv4_value o = Some v → isBlockedIPv4 o = in_cidrs v (private_blocks ++ special_blocks).
Proof.
  intros Hp Hv. destruct (dotted_quad_octets _ _ Hp) as (a & b & c & d & -> & Ha & Hb & Hc & Hd).
  unfold isBlockedIPv4. rewrite (andb_orb_distrib_r ((a =? 192) && (b =? 0))). cidr_solve Ha Hb Hc Hd Hv.
Qed.

Lemma isUnsafeHostname_safe h : isUnsafeHostname h = false → website_host_safe h.
Proof.
  unfold isUnsafeHostname, website_host_safe. cbv zeta.
  set (host := strip_dot (strip_brackets (lower h))). intros H.
  destruct (negb (nonempty host) || _ || _) eqn:E1; [done |].
  apply orb_false_iff in E1 as [[E0 E1]%orb_false_iff E2]. apply negb_false_iff in E0.
  destruct (jeq host "metadata.google.internal") eqn:Em; [done |].
  destruct (isAmbiguousNumericHost host); [done |].
  split; [intros Hn; by rewrite Hn in E0 |]. split; [by apply jeq_false |]. split; [done |]. split; [by apply jeq_false |].
  destruct (parseIPv4 host) as [o|] eqn:Ep.
  - split; [| split].
    + intros o' v [= <-] Hv. by rewrite <- (isBlockedIPv4_blocks host o v).
    + done.
    + intros Hc. by rewrite (dotted_quad_no_colon _ _ Ep) in Hc.
  - split; [done |]. destruct (IPV4_BLOCKS host); [done |]. split; [done |]. intros Hc. rewrite Hc in H. cbn [negb] in H.
    destruct (isIPv4MappedIPv6 host); [done |]. destruct (jeq host "::" || jeq host "::1") eqn:E3; [done |].
    apply orb_false_iff in E3 as [E3 E4]. destruct (existsb _ _) eqn:Ex; [done |]. rewrite existsb_false in Ex.
    split; [by apply jeq_false |]. split; [by apply jeq_false |]. split; [done |]. intros p Hp. by apply Ex.
Qed.

(** A probe reports: the budget stops it, or it ends with a well-formed check. *)
Definition result_ok (r : fetch_result) : Prop :=
  fr_up r = fr_ok r ∧ 0 ≤ fr_latency r
  ∧ (fr_ok r = true → fr_error r = None)
  ∧ (fr_ok r = false → match fr_status r with
                       | Some s => fr_error r = Some ("http_" +++ dec_Z s) ∧ fr_reason r = "http_status_mismatch"
                       | None => fr_error r = Some (fr_reason r)
                                 ∧ fr_reason r ∈ ["unsafe_redirect"; "unsafe_host"; "timeout"; "dns_error"; "tls_error"; "network_error"]
                       end).
Definition reports (m : monitor) (started : Z) (r : result failure check) : Prop :=
  r = Err Exceeded ∨ ∃ c, r = Ok c ∧ ck_monitor c = m_id m ∧ ck_revision c = m_revision m ∧ ck_at c = iso_string started ∧ result_ok (ck_result c).

Lemma normalize_ok ended latency min max : result_ok (normalizeWebsiteFetchResult ended latency min max).
Proof.
  destruct ended as [status|message]; cbn.
  - split; [done |]. split; [cbn; lia |]. cbn. destruct ((min <=? status) && (status <=? max)); cbn; [done |].
    destruct (_ && bool_decide _); done.
  - split; [done |]. split; [cbn; lia |]. cbn. split; [done |]. intros _. split; [done |].
    unfold error_class. repeat (match goal with |- context [if ?b then _ else _] => destruct b end); list_elem.
Qed.
Lemma probe_failed_reports m started now e b : reports m started (probe_failed m started now e b).1.1.
Proof. destruct e; [by left |]. right. eexists. split; [reflexivity |]. repeat (split; [done |]). apply normalize_ok. Qed.

Section Probes.
Context (URL : jstr → option url) (url_error : jstr) (connect : jstr → num → Z → Z → tcp_outcome * Z).
Context (URL_from : jstr → url → option url) (fetcher : jstr → Z → result jstr http_response * Z * bool).

Lemma tcp_reports m started b : reports m started (checkWebsiteMonitorTcp URL url_error connect m started b).1.1.
Proof.
  unfold checkWebsiteMonitorTcp. destruct (URL (m_url m)) as [u|]; [| apply probe_failed_reports].
  destruct (validateTcpUrl u); [apply probe_failed_reports |].
  destruct (match b with Some b => _ | None => _ end) as [b1|]; [| apply probe_failed_reports].
  destruct (connect _ _ _ _) as [outcome now]. destruct outcome as [[message|]|message|]; try apply probe_failed_reports.
  right. eexists. split; [reflexivity |]. repeat (split; [done |]). split; [cbn; lia |]. done.
Qed.
Lemma http_reports m started b : reports m started (checkWebsiteMonitorHttp URL url_error connect URL_from fetcher m started b).1.1.
Proof.
  unfold checkWebsiteMonitorHttp. destruct (m_method m); [| | apply tcp_reports];
    (destruct (URL (m_url m)) as [u|]; [| apply probe_failed_reports]; destruct (validateWebsiteUrl u); [apply probe_failed_reports |];
     destruct (scheduledFetch _ _ _ _) as [[[response|e] now] b1]; [| apply probe_failed_reports];
     destruct (redirect_error _ _ _ _); [apply probe_failed_reports |];
     right; eexists; (split; [reflexivity |]); repeat (split; [done |]); apply normalize_ok).
Qed.
End Probes.

(** The URL a probe may contact. *)
Definition contactable (u : url) : Prop :=
  website_host_safe (hostname u) ∧ username u = "" ∧ password u = "" ∧ hash u = "" ∧ protocol u ∈ ["http:"; "https:"; "tcp:"].
Lemma validateWebsiteUrl_safe u : validateWebsiteUrl u = None → contactable u ∧ protocol u ∈ ["http:"; "https:"].
Proof.
  unfold validateWebsiteUrl. destruct (mem (protocol u) _) eqn:Em; [| done]. cbn [negb]. destruct (nonempty (username u) || _) eqn:E1; [done |].
  destruct (nonempty (hash u)) eqn:E2; [done |]. destruct (isUnsafeHostname _) eqn:E3; [done |]. intros _.
  apply orb_false_iff in E1 as [E1 E1']. apply mem_spec in Em. split; [| done].
  split; [by apply isUnsafeHostname_safe |]. repeat (split; [by apply nonempty_false |]). list_cases Em; rewrite Em; list_elem.
Qed.
Lemma validateTcpUrl_safe u : validateTcpUrl u = None → contactable u.
Proof.
  unfold validateTcpUrl. destruct (jeq (protocol u) "tcp:") eqn:Em; [| done]. cbn [negb]. destruct (nonempty (username u) || _) eqn:E1; [done |].
  destruct (nonempty (hash u) || _ || _) eqn:E2; [done |]. apply orb_false_iff in E2 as [[E2 _]%orb_false_iff _]. destruct (isUnsafeHostname _) eqn:E3; [done |]. intros _.
  apply orb_false_iff in E1 as [E1 E1']. apply jeq_true in Em. split; [by apply isUnsafeHostname_safe |].
  repeat (split; [by apply nonempty_false |]). rewrite Em. list_elem.
Qed.

Lemma validate_monitor_url URL input v :
  validateWebsiteMonitorInput URL input = Ok v → ∃ u, href u = mi_url v ∧ contactable u ∧ mi_name v ≠ "" ∧ slen (mi_name v) ≤ 120.
Proof.
  unfold validateWebsiteMonitorInput. cbv zeta. intros H. destruct (negb (nonempty _) || _) eqn:En; [done |].
  apply orb_false_iff in En as [En1%negb_false_iff En2%Z.ltb_ge]. destruct (URL _) as [u|]; [| done].
  destruct (read_method _) as [m|]; [| done]. destruct (match m with TCP => _ | _ => _ end) eqn:Ev; [done |].
  break_in H. exists u. cbn [mi_url mi_name]. split; [done |]. split; [| split; [by apply nonempty_true | done]].
  destruct m; [by apply validateWebsiteUrl_safe | by apply validateWebsiteUrl_safe | by apply validateTcpUrl_safe].
Qed.

(** ** Properties *)


(** A site that redirects to a private address. *)
Definition site_url (s : jstr) : option url :=
  let u host := {| protocol := "https:"; username := ""; password := ""; hostname := host; port := ""; pathname := "/"; search := ""; hash := "";
                   href := "https://" +++ host +++ "/"; origin := "" |} in
  if jeq s "https://example.com/" then Some (u "example.com") else if jeq s "https://10.0.0.1/" then Some (u "10.0.0.1") else None.
Definition site_fetch (host : jstr) (t : Z) : result jstr http_response * Z * bool :=
  (Ok {| hr_status := 302; hr_location := Some "https://10.0.0.1/" |}, t + 25, false).
Definition site_connect (host : jstr) (p : num) (limit t : Z) : tcp_outcome * Z := (Timed_out, t + limit).
Definition site_monitor : monitor :=
  {| m_id := 7; m_revision := "r1"; m_url := "https://example.com/"; m_method := GET; m_timeout := 10; m_min := 200; m_max := 399 |}.
