(* ===== verification/LivePersist.v ===== *)
(** * History: what the live object writes to the database
    [do/live-data.ts], [utils/ping-result.ts]

    Settings and capacity decide whether anything is written; reports are
    throttled per node and ping results per task.  Times are milliseconds.  The
    capacity snapshot is stored, so a restarted object goes on where it was. *)

From S2P Require Import Prelude JsStr JsNum JsVal Net Settings Report Notify LiveAuth LiveAdmin LiveSync.
#[local] Open Scope Z_scope.

(** ** Ping results: [ping-result.ts] *)

(** @worker/src/utils/ping-result.ts:3-5 MAX_PING_RESULTS_PER_REPORT,
    MAX_PING_VALUE_MS, PING_LOSS_VALUE *)
Definition MAX_PING_RESULTS_PER_REPORT : nat := 50.
Definition MAX_PING_VALUE_MS : num := of_Z 60000.
Definition PING_LOSS_VALUE : num := of_Z (-1).
(** The columns of a task a result is checked against. *)
Record assigned_task := { at_id : option num; at_all : bool; at_clients : list jstr; at_interval : num }.
(** @worker/src/utils/ping-result.ts:7-10 ValidatedPingResult *)
Record ping_result := { pr_task : Z; pr_value : num; pr_interval : option num }.

(** @worker/src/utils/ping-result.ts:22-27 pingResultPayload *)
Definition pingResultPayload (input : jsval) : jsval :=
  let body := as_object input in
  match fld body "results" with
  | JArr l => JArr l
  | _ => if is_str (fld body "type") "ping_result" && negb (is_undef (fld body "data")) then fld body "data" else input
  end.
(** [taskMap.get(id)]: the last task with the identifier *)
Definition find_task (tasks : list assigned_task) (id : Z) : option assigned_task :=
  List.find (λ t, match at_id t with Some a => bool_decide (num_Z a = Some id) | None => false end) (rev tasks).
(** A value is the loss marker or a latency in range. *)
Definition value_ok (value : num) : bool :=
  is_finite value && (num_eqb value PING_LOSS_VALUE || (num_le (of_Z 0) value && num_le value MAX_PING_VALUE_MS)).
(** @worker/src/utils/ping-result.ts:52-70 validatePingResults (loop body) *)
Definition check_result (tasks : list assigned_task) (clientUuid : jstr) (raw : jsval) : result (Z * jstr) (Z * num) :=
  let result := as_object raw in
  let value := to_num (fld result "value") in
  match num_Z (to_num (fld result "task_id")) with
  | None => Err (400, "Ping 结果参数无效")
  | Some taskId =>
    if negb (0 <? taskId) || negb (value_ok value) then Err (400, "Ping 结果参数无效")
    else match find_task tasks taskId with
         | None => Err (400, "Ping 任务不存在")
         | Some task => if negb (at_all task) && negb (mem clientUuid (at_clients task)) then Err (403, "Ping 任务不属于当前客户端") else Ok (taskId, value)
         end
  end.
(** [Map.set] on an ordered map: a present key keeps its place. *)
Fixpoint set_result (k : Z) (v : num) (l : list (Z * num)) : list (Z * num) :=
  match l with
  | [] => [(k, v)]
  | (k', v') :: r => if k =? k' then (k, v) :: r else (k', v') :: set_result k v r
  end.
(** @worker/src/utils/ping-result.ts:51-70 validatePingResults (loop) *)
Fixpoint check_results (tasks : list assigned_task) (clientUuid : jstr) (deduped : list (Z * num)) (raws : list jsval) : result (Z * jstr) (list (Z * num)) :=
  match raws with
  | [] => Ok deduped
  | raw :: rest => let* p := check_result tasks clientUuid raw in check_results tasks clientUuid (set_result p.1 p.2 deduped) rest
  end.
(** @worker/src/utils/ping-result.ts:29-73 validatePingResults -- the status and
    the error when it refuses *)
Definition validatePingResults (input : jsval) (tasks : list assigned_task) (clientUuid : jstr) : result (Z * jstr) (list ping_result) :=
  let payload := pingResultPayload input in
  let rawResults := match payload with JArr l => l | other => [other] end in
  if (length rawResults =? 0)%nat then Err (400, "Ping 结果不能为空")
  else if (MAX_PING_RESULTS_PER_REPORT <? length rawResults)%nat then Err (400, "Ping 结果单次最多 50 条")
  else let* l := check_results tasks clientUuid [] rawResults in
       Ok (map (λ p, {| pr_task := p.1; pr_value := p.2; pr_interval := None |}) l).

(** ** Settings *)

(** @worker/src/do/live-data.ts:49-58 RECORD_PERSIST_INTERVAL_MS (constants) *)
Definition RECORD_PERSIST_INTERVAL_MS : Z := 120000.
Definition PING_RECORD_PERSIST_INTERVAL_MS : Z := 120000.
Definition MIN_RECORD_PERSIST_INTERVAL_MS : Z := 3000.
Definition MAX_RECORD_PERSIST_INTERVAL_MS : Z := 3600000.
Definition MIN_PING_RECORD_PERSIST_INTERVAL_MS : Z := 60000.
Definition MAX_PING_RECORD_PERSIST_INTERVAL_MS : Z := 3600000.
Definition RECORD_SETTING_CACHE_MS : Z := 30000.
Definition RECORD_HIGH_WATERMARK_DEFAULT_ROWS : Z := 700000.
Definition RECORD_HIGH_WATERMARK_MIN_ROWS : Z := 1000.
Definition RECORD_HIGH_WATERMARK_MAX_ROWS : Z := 10000000.
(** @worker/src/do/live-data.ts:63-68 RECORD_HIGH_WATERMARK_DEFAULT_BYTES (constants) *)
Definition RECORD_HIGH_WATERMARK_DEFAULT_BYTES : Z := 419430400.
Definition RECORD_HIGH_WATERMARK_MIN_BYTES : Z := 16777216.
Definition RECORD_HIGH_WATERMARK_MAX_BYTES : Z := 549755813888.
Definition RECORD_CAPACITY_CACHE_FAR_MS : Z := 6 * 60 * 60000.
Definition RECORD_CAPACITY_CACHE_NEAR_MS : Z := 10 * 60000.
Definition RECORD_CAPACITY_CACHE_CRITICAL_MS : Z := 60000.

(** @worker/src/do/live-data.ts:440-452 LiveDataDO (persistence settings) *)
Record persist_settings := {
  enabled : bool; checkedAt : Z; recordInterval : Z; pingInterval : Z; limitRows : Z; limitBytes : Z;
}.
Definition default_settings : persist_settings :=
  {| enabled := true; checkedAt := 0; recordInterval := RECORD_PERSIST_INTERVAL_MS; pingInterval := PING_RECORD_PERSIST_INTERVAL_MS;
     limitRows := RECORD_HIGH_WATERMARK_DEFAULT_ROWS; limitBytes := RECORD_HIGH_WATERMARK_DEFAULT_BYTES |}.
(** [Number.isFinite(v) ? Math.min(Math.max(Math.floor(v), lo), hi) : fallback] *)
Definition bounded_floor (value : num) (lo hi fallback : Z) : Z :=
  match value with Fin q => Z.min (Z.max (Qfloor q) lo) hi | _ => fallback end.

Section Settings.
Context (URL : jstr → option url).

(** @worker/src/do/live-data.ts:2657-2710 isRecordPersistenceEnabled -- [db] is
    the stored settings, [None] without a database and [Some None] when the query
    throws *)
Definition refresh_settings (db : option (option (list (jstr * jstr)))) (now : Z) (force : bool) (st : persist_settings) : bool * persist_settings :=
  match db with
  | None => (false, st)
  | Some stored =>
    if negb force && (now - checkedAt st <? RECORD_SETTING_CACHE_MS) then (enabled st, st)
    else
      let st :=
        match stored with
        | None => {| enabled := enabled st; checkedAt := now; recordInterval := recordInterval st; pingInterval := pingInterval st;
                     limitRows := limitRows st; limitBytes := limitBytes st |}
        | Some stored =>
          let settings := buildAdminSettings URL stored in
          let number k := match lookup_field k settings with Some s => str_num s | None => NaN end in
          let seconds k lo hi fallback := bounded_floor (number k) lo hi (fallback / 1000) in
          {| enabled := isRecordPersistenceEnabled URL (lookup_field "record_enabled" settings);
             checkedAt := now;
             recordInterval := Z.min (Z.max (seconds "record_persist_interval_sec" 3 3600 RECORD_PERSIST_INTERVAL_MS * 1000)
                                        MIN_RECORD_PERSIST_INTERVAL_MS) MAX_RECORD_PERSIST_INTERVAL_MS;
             pingInterval := Z.min (Z.max (seconds "ping_record_persist_interval_sec" 60 3600 PING_RECORD_PERSIST_INTERVAL_MS * 1000)
                                      MIN_PING_RECORD_PERSIST_INTERVAL_MS) MAX_PING_RECORD_PERSIST_INTERVAL_MS;
             limitRows := bounded_floor (number "record_high_watermark_rows") RECORD_HIGH_WATERMARK_MIN_ROWS RECORD_HIGH_WATERMARK_MAX_ROWS
                            RECORD_HIGH_WATERMARK_DEFAULT_ROWS;
             limitBytes := bounded_floor (number "record_high_watermark_bytes") RECORD_HIGH_WATERMARK_MIN_BYTES RECORD_HIGH_WATERMARK_MAX_BYTES
                             RECORD_HIGH_WATERMARK_DEFAULT_BYTES |}
        end in
      (enabled st, st)
  end.
End Settings.

(** ** Capacity *)

(** @worker/src/do/live-data.ts:453-458 LiveDataDO (capacity) -- with the stored
    snapshot *)
Record capacity_state := { c_rows : num; c_bytes : num; c_blocked : bool; c_nextCheckAt : Z; c_stored : option jsval }.
(** @worker/src/do/live-data.ts:326-335 RecordCapacitySnapshot *)
Record capacity_snapshot := {
  sn_rows : num; sn_bytes : num; sn_blocked : bool; sn_checkedAt : num; sn_nextCheckAt : num; sn_limitRows : num; sn_limitBytes : num;
}.
Definition measurement : jstr := "live-row-bytes-plus-index-estimate".
(** @worker/src/do/live-data.ts:2732-2770 normalizeRecordCapacitySnapshot *)
Definition normalizeRecordCapacitySnapshot (raw : option jsval) : option capacity_snapshot :=
  match raw with
  | Some (JObj value) =>
    let number k := to_num (fld value k) in
    let within k lo hi := is_finite (number k) && num_le (of_Z lo) (number k) && num_le (number k) (of_Z hi) in
    let nonnegative k := is_finite (number k) && num_le (of_Z 0) (number k) in
    if is_str (fld value "measurement") measurement && nonnegative "rows" && nonnegative "bytes"
       && within "highWatermarkBytes" RECORD_HIGH_WATERMARK_MIN_BYTES RECORD_HIGH_WATERMARK_MAX_BYTES
       && is_finite (number "checkedAt") && num_lt (of_Z 0) (number "checkedAt")
       && is_finite (number "nextCheckAt") && num_lt (number "checkedAt") (number "nextCheckAt")
       && within "highWatermarkRows" RECORD_HIGH_WATERMARK_MIN_ROWS RECORD_HIGH_WATERMARK_MAX_ROWS
    then Some {| sn_rows := number "rows"; sn_bytes := number "bytes"; sn_blocked := truthy (fld value "blocked");
                 sn_checkedAt := number "checkedAt"; sn_nextCheckAt := number "nextCheckAt"; sn_limitRows := number "highWatermarkRows";
                 sn_limitBytes := number "highWatermarkBytes" |}
    else None
  | _ => None
  end.
Section Capacity.
Context (limits : persist_settings).

(** @worker/src/do/live-data.ts:2712-2723 capacityCheckDelayMs *)
Definition capacityCheckDelayMs (rows bytes : num) (blocked : bool) : Z :=
  if blocked then RECORD_CAPACITY_CACHE_CRITICAL_MS
  else if (limitRows limits <=? 0) || (limitBytes limits <=? 0) then RECORD_CAPACITY_CACHE_NEAR_MS
  else
    let ratio := num_max (num_div rows (of_Z (limitRows limits))) (num_div bytes (of_Z (limitBytes limits))) in
    if num_le (f64 (95 # 100)) ratio then RECORD_CAPACITY_CACHE_CRITICAL_MS
    else if num_le (f64 (8 # 10)) ratio then RECORD_CAPACITY_CACHE_NEAR_MS
    else RECORD_CAPACITY_CACHE_FAR_MS.
Definition same_limits (s : capacity_snapshot) : bool :=
  num_eqb (sn_limitRows s) (of_Z (limitRows limits)) && num_eqb (sn_limitBytes s) (of_Z (limitBytes limits)).
(** @worker/src/do/live-data.ts:2772-2776 isReusableRecordCapacitySnapshot *)
Definition isReusableRecordCapacitySnapshot (s : capacity_snapshot) (now : Z) : bool :=
  same_limits s && num_lt (of_Z now) (sn_nextCheckAt s).
(** @worker/src/do/live-data.ts:2725-2730 applyRecordCapacitySnapshot -- whole
    times below a bound are those below its ceiling *)
Definition applyRecordCapacitySnapshot (s : capacity_snapshot) (st : capacity_state) : capacity_state :=
  {| c_rows := sn_rows s; c_bytes := sn_bytes s; c_blocked := sn_blocked s;
     c_nextCheckAt := default 0 (num_Z (num_ceil (sn_nextCheckAt s))); c_stored := c_stored st |}.
(** @worker/src/do/live-data.ts:2803-2808 invalidateRecordCapacityMemorySnapshot *)
Definition invalidateRecordCapacityMemorySnapshot (st : capacity_state) : capacity_state :=
  {| c_rows := of_Z 0; c_bytes := of_Z 0; c_blocked := false; c_nextCheckAt := 0; c_stored := c_stored st |}.
(** @worker/src/do/live-data.ts:2836-2845 writeRecordCapacitySnapshot (value) *)
Definition snapshot_value (rows bytes : num) (blocked : bool) (checked next : Z) : jsval :=
  JObj [("measurement", JStr measurement); ("rows", JNum rows); ("bytes", JNum bytes); ("blocked", JBool blocked);
        ("checkedAt", JNum (of_Z checked)); ("nextCheckAt", JNum (of_Z next));
        ("highWatermarkRows", JNum (of_Z (limitRows limits))); ("highWatermarkBytes", JNum (of_Z (limitBytes limits)))].
(** @worker/src/do/live-data.ts:2778-2793 readReusableRecordCapacitySnapshot -- the
    reusable snapshot, and the hysteresis restored from storage *)
Definition readReusableRecordCapacitySnapshot (now : Z) (st : capacity_state) : option capacity_snapshot * capacity_state :=
  match normalizeRecordCapacitySnapshot (c_stored st) with
  | None => (None, st)
  | Some s =>
    let st := if same_limits s
              then {| c_rows := c_rows st; c_bytes := c_bytes st; c_blocked := sn_blocked s; c_nextCheckAt := c_nextCheckAt st; c_stored := c_stored st |}
              else st in
    (if isReusableRecordCapacitySnapshot s now then Some s else None, st)
  end.
(** @worker/src/do/live-data.ts:2810-2875 canPersistWithinCapacity -- [measure] is
    the usage the database reports, [None] without a database and [Some None] when
    the query throws *)
Definition canPersistWithinCapacity (measure : option (option usage)) (now : Z) (st : capacity_state) : bool * capacity_state :=
  match measure with
  | None => (false, st)
  | Some measured =>
    if now <? c_nextCheckAt st then (negb (c_blocked st), st)
    else
      let '(reusable, st) := readReusableRecordCapacitySnapshot now st in
      let st :=
        match reusable with
        | Some s => applyRecordCapacitySnapshot s st
        | None =>
          match measured with
          | Some u =>
            let rows := live_rows u in
            let bytes := estimated_live_storage_bytes u in
            let blocked := blocked (evaluateHistoryCapacity u (of_Z (limitRows limits)) (of_Z (limitBytes limits)) (c_blocked st)) in
            let next := now + capacityCheckDelayMs rows bytes blocked in
            {| c_rows := rows; c_bytes := bytes; c_blocked := blocked; c_nextCheckAt := next;
               c_stored := Some (snapshot_value rows bytes blocked now next) |}
          | None => {| c_rows := c_rows st; c_bytes := c_bytes st; c_blocked := c_blocked st;
                       c_nextCheckAt := now + RECORD_CAPACITY_CACHE_NEAR_MS; c_stored := c_stored st |}
          end
        end in
      (negb (c_blocked st), st)
  end.
End Capacity.

(** ** Reports *)

(** @worker/src/do/live-data.ts:2630-2640 isPersistDue -- [last] are the rows under
    record:persist: *)
Definition isPersistDue (st : persist_settings) (last : gmap jstr Z) (clientId : jstr) (now : Z) : bool :=
  isRecordPersistDue (of_Z (now - default 0 (last !! clientId))) (of_Z (recordInterval st)).
(** @worker/src/do/live-data.ts:2999-3056 persistReport, persistReservedReport --
    of a report that is not forced; the record inserted, with the gate's and the
    node's new states; [insert] is whether the database accepts it.  The GPU
    snapshot is not modelled. *)
Definition persistReport (db_settings : bool * persist_settings) (measure : option (option usage)) (insert : bool) (clientId : jstr) (report : fields)
    (now : Z) (in_flight : gset jstr) (last : gmap jstr Z) (cap : capacity_state) : option fields * gmap jstr Z * capacity_state :=
  if decide (clientId ∈ in_flight) then (None, last, cap)
  else if existsb (is_str (fld report "type")) ["ping"; "pong"; "ping_result"] then (None, last, cap)
  else if negb db_settings.1 || negb (isPersistDue db_settings.2 last clientId now) then (None, last, cap)
  else
    let '(allowed, cap) := canPersistWithinCapacity db_settings.2 measure now cap in
    if negb allowed then (None, last, cap)
    else if insert then (Some (normalizeMonitorReport (JObj report)), <[clientId := now]> last, cap) else (None, last, cap).

(** ** Ping results *)

(** @worker/src/do/live-data.ts:111-113 PING_VALUE_CHANGE_THRESHOLD_MS,
    PING_UNCHANGED_HEARTBEAT_MS *)
Definition PING_VALUE_CHANGE_THRESHOLD_MS : num := of_Z 5.
Definition PING_UNCHANGED_HEARTBEAT_MS : num := of_Z (30 * 60000).
(** @worker/src/do/live-data.ts:315-319 PingResultState *)
Record ping_state := { ps_last : num; ps_value : option num; ps_at : option num }.
(** @worker/src/do/live-data.ts:2931-2948 normalizePingResultState *)
Definition normalizePingResultState (raw : jsval) : ping_state :=
  match raw with
  | JNum a => {| ps_last := if is_finite a then a else of_Z 0; ps_value := None; ps_at := None |}
  | JObj value =>
    let last := to_num (js_or (fld value "lastAcceptedMs") (JNum (of_Z 0))) in
    let persistedValue := to_num (fld value "value") in
    let persistedAt := to_num (js_or (fld value "persistedAt") (JNum (of_Z 0))) in
    {| ps_last := if is_finite last then last else of_Z 0;
       ps_value := if is_finite persistedValue then Some persistedValue else None;
       ps_at := if is_finite persistedAt && num_lt (of_Z 0) persistedAt then Some persistedAt else None |}
  | _ => {| ps_last := of_Z 0; ps_value := None; ps_at := None |}
  end.
(** The states under ping-result:, by node and task; an absent row reads as the
    normalization of [undefined]. *)
Definition pings := gmap (jstr * Z) ping_state.
(** @worker/src/do/live-data.ts:2950-2957 readPingResultState *)
Definition readPingResultState (st : pings) (clientId : jstr) (taskId : Z) : ping_state :=
  default (normalizePingResultState JUndef) (st !! (clientId, taskId)).
(** @worker/src/do/live-data.ts:2964-2977 shouldPersistPingResult *)
Definition shouldPersistPingResult (value : num) (st : ping_state) (now : Z) : bool :=
  match ps_value st, ps_at st with
  | Some previous, Some at_ms =>
    if negb (is_finite previous) || negb (is_finite at_ms) || num_le at_ms (of_Z 0) then true
    else
      let stale := num_le PING_UNCHANGED_HEARTBEAT_MS (num_sub (of_Z now) at_ms) in
      let currentLost := num_eqb value PING_LOSS_VALUE in
      let previousLost := num_eqb previous PING_LOSS_VALUE in
      if negb (eqb currentLost previousLost) then true
      else if currentLost then stale
      else if num_le PING_VALUE_CHANGE_THRESHOLD_MS (num_abs (num_sub value previous)) then true
      else stale
  | _, _ => true
  end.
(** @worker/src/do/live-data.ts:3169-3175 pingResultIntervalMs *)
Definition pingResultIntervalMs (st : persist_settings) (intervalSec : option num) : Z :=
  match intervalSec with
  | Some (Fin q) => if num_lt (of_Z 0) (Fin q) then Z.min (Z.max (Qfloor q) 3) 3600 * 1000 else pingInterval st
  | _ => pingInterval st
  end.
(** The result's task was last accepted at least its interval ago. *)
Definition ping_due (settings : persist_settings) (clientId : jstr) (now : Z) (st : pings) (r : ping_result) : bool :=
  let last := ps_last (readPingResultState st clientId (pr_task r)) in
  negb (num_truthy last && num_lt (num_sub (of_Z now) last) (of_Z (pingResultIntervalMs settings (pr_interval r)))).
Definition with_last (now : Z) (s : ping_state) : ping_state := {| ps_last := of_Z now; ps_value := ps_value s; ps_at := ps_at s |}.
(** @worker/src/do/live-data.ts:3221-3250 filterTrustedPingResultsByInterval *)
Definition filterTrustedPingResultsByInterval (settings : persist_settings) (clientId : jstr) (results : list ping_result) (now : Z) (st : pings)
  : list ping_result * pings :=
  let due := List.filter (ping_due settings clientId now st) results in
  if existsb (λ r, shouldPersistPingResult (pr_value r) (readPingResultState st clientId (pr_task r)) now) due then (due, st)
  else ([], fold_left (λ st r, <[(clientId, pr_task r) := with_last now (readPingResultState st clientId (pr_task r))]> st) due st).
(** @worker/src/do/live-data.ts:3204-3219 filterPingResultsByInterval *)
Definition filterPingResultsByInterval (settings : persist_settings) (clientId : jstr) (results : list ping_result) (tasks : list assigned_task)
    (now : Z) (st : pings) : list ping_result * pings :=
  filterTrustedPingResultsByInterval settings clientId
    (map (λ r, {| pr_task := pr_task r; pr_value := pr_value r;
                  pr_interval := match pr_interval r with Some i => Some i | None => option_map at_interval (find_task tasks (pr_task r)) end |}) results)
    now st.
(** @worker/src/do/live-data.ts:2979-2997 markPingResultsPersisted *)
Definition markPingResultsPersisted (clientId : jstr) (results : list ping_result) (now : Z) (st : pings) : pings :=
  fold_left (λ st' r,
    let previous := default {| ps_last := of_Z now; ps_value := None; ps_at := None |} (st !! (clientId, pr_task r)) in
    <[(clientId, pr_task r) := {| ps_last := num_max (ps_last previous) (of_Z now); ps_value := Some (pr_value r); ps_at := Some (of_Z now) |}]> st')
    results st.
(** @worker/src/do/live-data.ts:3177-3202 trustedPingResults *)
Definition trusted_result (raw : jsval) : option ping_result :=
  match raw with
  | JObj _ | JArr _ =>
    let item := as_object raw in
    let value := to_num (fld item "value") in
    let intervalSec := to_num (fld item "interval_sec") in
    match num_Z (to_num (fld item "task_id")) with
    | Some taskId => if (0 <? taskId) && value_ok value && is_finite intervalSec
                     then Some {| pr_task := taskId; pr_value := value; pr_interval := Some intervalSec |} else None
    | None => None
    end
  | _ => None
  end.
(** @worker/src/do/live-data.ts:3177-3202 trustedPingResults *)
Definition trustedPingResults (input : jsval) : option (list ping_result) :=
  match input with
  | JArr l => if (length l =? 0)%nat || (MAX_PING_RESULTS_PER_REPORT <? length l)%nat then None else mapM trusted_result l
  | _ => None
  end.

(** @worker/src/do/live-data.ts:3073-3106 persistQueuedPingResult -- the rows
    written; [insert] is whether the database accepts them *)
Definition persistQueuedPingResult (db_settings : bool * persist_settings) (measure : option (option usage)) (insert : bool) (clientId : jstr)
    (result : jsval) (tasks : list assigned_task) (now : Z) (cap : capacity_state) (st : pings) : list ping_result * capacity_state * pings :=
  if negb db_settings.1 then ([], cap, st)
  else
    let '(allowed, cap) := canPersistWithinCapacity db_settings.2 measure now cap in
    if negb allowed then ([], cap, st)
    else match validatePingResults result tasks clientId with
         | Err _ => ([], cap, st)
         | Ok results =>
           let '(accepted, st) := filterPingResultsByInterval db_settings.2 clientId results tasks now st in
           if (length accepted =? 0)%nat then ([], cap, st)
           else if insert then (accepted, cap, markPingResultsPersisted clientId accepted now st) else ([], cap, st)
         end.
(** @worker/src/do/live-data.ts:3108-3167 updateHttpPingResult -- the status, the
    rows written and the states; [received] is [Date.now()] *)
Definition updateHttpPingResult (db_settings : bool * persist_settings) (measure : option (option usage)) (insert : bool) (payload : fields)
    (tasks : list assigned_task) (received : Z) (cap : capacity_state) (st : pings) : Z * list ping_result * capacity_state * pings :=
  match fld payload "client_id", fld payload "results" with
  | JStr clientId, JArr raws =>
    let now := match num_Z (to_num (fld payload "timestamp")) with Some t => t | None => received end in
    if negb db_settings.1 then (200, [], cap, st)
    else
      let '(allowed, cap) := canPersistWithinCapacity db_settings.2 measure now cap in
      if negb allowed then (200, [], cap, st)
      else
        let filtered :=
          match trustedPingResults (JArr raws) with
          | Some trusted => Ok (filterTrustedPingResultsByInterval db_settings.2 clientId trusted now st)
          | None => let* results := validatePingResults (JArr raws) tasks clientId in
                    Ok (filterPingResultsByInterval db_settings.2 clientId results tasks now st)
          end in
        match filtered with
        | Err (status, _) => (status, [], cap, st)
        | Ok (accepted, st) =>
          if (length accepted =? 0)%nat then (200, [], cap, st)
          else if insert then (200, accepted, cap, markPingResultsPersisted clientId accepted now st) else (500, [], cap, st)
        end
  | _, _ => (400, [], cap, st)
  end.

(** ** Offline nodes *)

(** The last report of a node in memory, zero when there is none. *)
Definition last_seen (st : live_state) (uuid : jstr) : Z :=
  let time c := match c with Some s => cs_lastReportTime s | None => 0 end in
  Z.max (time (clients st !! uuid)) (time (lastKnownClients st !! uuid)).
(** What is answered for one node. *)
Record liveness := { lv_uuid : jstr; lv_seen : num; lv_offline : bool; lv_streak : Z }.
(** @worker/src/do/live-data.ts:2588-2623 evaluateOfflineLiveness (loop body) *)
Definition evaluate_node (now : Z) (raw : jsval) (st : live_state) : option liveness * live_state :=
  match raw with
  | JObj entry =>
    let uuid := stringField entry "uuid" in
    let graceMs := to_num (fld entry "graceMs") in
    if negb (nonempty uuid) || negb (is_finite graceMs) || num_le graceMs (of_Z 0) then (None, st)
    else
      let fallback := to_num (fld entry "fallbackLastSeen") in
      let effective := num_max (of_Z (last_seen st uuid)) (if is_finite fallback && num_lt (of_Z 0) fallback then fallback else of_Z 0) in
      let offline := num_le effective (of_Z 0) || num_le graceMs (num_sub (of_Z now) effective) in
      let streak := if offline then default 0 (streaks st !! uuid) + 1 else 0 in
      let streaks := if offline then <[uuid := streak]> (streaks st) else delete uuid (streaks st) in
      (Some {| lv_uuid := uuid; lv_seen := effective; lv_offline := offline; lv_streak := streak |},
       with_sockets (agents st) streaks (removalVersions st) st)
  | _ => (None, st)
  end.
(** @worker/src/do/live-data.ts:2571-2628 evaluateOfflineLiveness -- the answers
    in order *)
Fixpoint evaluate_nodes (now : Z) (items : list jsval) (st : live_state) : list liveness * live_state :=
  match items with
  | [] => ([], st)
  | raw :: rest =>
    let '(answer, st) := evaluate_node now raw st in
    let '(answers, st) := evaluate_nodes now rest st in
    (match answer with Some a => a :: answers | None => answers end, st)
  end.
(** @worker/src/do/live-data.ts:2571-2628 evaluateOfflineLiveness *)
Definition evaluateOfflineLiveness (now : Z) (payload : fields) (st : live_state) : list liveness * live_state :=
  evaluate_nodes now (match fld payload "clients" with JArr l => l | _ => [] end) st.

(** ** Facts *)

Definition limits_ok (limits : persist_settings) : Prop :=
  RECORD_HIGH_WATERMARK_MIN_ROWS ≤ limitRows limits ≤ RECORD_HIGH_WATERMARK_MAX_ROWS
  ∧ RECORD_HIGH_WATERMARK_MIN_BYTES ≤ limitBytes limits ≤ RECORD_HIGH_WATERMARK_MAX_BYTES.
Definition nonnegative (a : num) : Prop := is_finite a = true ∧ num_le (of_Z 0) a = true.
Definition usage_ok (u : usage) : Prop := nonnegative (live_rows u) ∧ nonnegative (estimated_live_storage_bytes u).

Lemma bounded_floor_range v lo hi fallback : lo ≤ hi → lo ≤ fallback ≤ hi → lo ≤ bounded_floor v lo hi fallback ≤ hi.
Proof. intros H1 H2. unfold bounded_floor. destruct v; lia. Qed.

Lemma refresh_limits URL db now force st : limits_ok st → limits_ok (refresh_settings URL db now force st).2.
Proof.
  intros H. unfold refresh_settings. destruct db as [stored|]; [| done]. destruct (negb force && _); [done |]. destruct stored as [stored|]; [| exact H].
  split; apply bounded_floor_range; by vm_compute.
Qed.

Lemma num_eqb_refl_Z z : num_eqb (of_Z z) (of_Z z) = true.
Proof. cbn. apply Qeq_bool_iff. reflexivity. Qed.

Section Cold.
Context (limits : persist_settings) (Hl : limits_ok limits).

(** The stored snapshot is what the memory holds. *)
Definition saved (st : capacity_state) : Prop :=
  match c_stored st with
  | None => st = invalidateRecordCapacityMemorySnapshot st
  | Some v => ∃ checked, 0 < checked < c_nextCheckAt st ∧ v = snapshot_value limits (c_rows st) (c_bytes st) (c_blocked st) checked (c_nextCheckAt st)
                         ∧ nonnegative (c_rows st) ∧ nonnegative (c_bytes st)
  end.

Lemma normalize_snapshot rows bytes blocked checked next :
  0 < checked < next → nonnegative rows → nonnegative bytes →
  normalizeRecordCapacitySnapshot (Some (snapshot_value limits rows bytes blocked checked next)) =
  Some {| sn_rows := rows; sn_bytes := bytes; sn_blocked := blocked; sn_checkedAt := of_Z checked; sn_nextCheckAt := of_Z next;
          sn_limitRows := of_Z (limitRows limits); sn_limitBytes := of_Z (limitBytes limits) |}.
Proof.
  intros Hc [Hr1 Hr2] [Hb1 Hb2]. destruct Hl as [H1 H2]. unfold normalizeRecordCapacitySnapshot, snapshot_value.
  set (value := [("measurement", JStr measurement); _; _; _; _; _; _; _]).
  change (fld value "measurement") with (JStr measurement). change (fld value "rows") with (JNum rows). change (fld value "bytes") with (JNum bytes).
  change (fld value "blocked") with (JBool blocked). change (fld value "checkedAt") with (JNum (of_Z checked)).
  change (fld value "nextCheckAt") with (JNum (of_Z next)). change (fld value "highWatermarkRows") with (JNum (of_Z (limitRows limits))).
  change (fld value "highWatermarkBytes") with (JNum (of_Z (limitBytes limits))). cbn [to_num truthy is_str].
  rewrite jeq_refl, Hr1, Hr2, Hb1, Hb2, !num_le_of_Z, !num_lt_of_Z_Z. cbn [is_finite of_Z andb].
  rewrite !(proj2 (Z.leb_le _ _)), !(proj2 (Z.ltb_lt _ _)) by lia. done.
Qed.

Lemma delay_positive rows bytes blocked : 0 < capacityCheckDelayMs limits rows bytes blocked ≤ RECORD_CAPACITY_CACHE_FAR_MS.
Proof.
  unfold capacityCheckDelayMs, RECORD_CAPACITY_CACHE_CRITICAL_MS, RECORD_CAPACITY_CACHE_NEAR_MS, RECORD_CAPACITY_CACHE_FAR_MS.
  destruct blocked; [lia |]. destruct (_ || _); [lia |]. destruct (num_le (f64 (95 # 100)) _); [lia |]. destruct (num_le _ _); lia.
Qed.

(** One check: a restarted object decides and ends as one that was never
    restarted. *)
Lemma cold_check u now st :
  saved st → 0 < now → usage_ok u →
  canPersistWithinCapacity limits (Some (Some u)) now (invalidateRecordCapacityMemorySnapshot st)
  = canPersistWithinCapacity limits (Some (Some u)) now st
  ∧ saved (canPersistWithinCapacity limits (Some (Some u)) now st).2.
Proof.
  intros Hs Hnow [Hr Hb]. destruct (c_stored st) as [v|] eqn:Est.
  2: { unfold saved in Hs. rewrite Est in Hs. rewrite <- Hs. split; [done |]. rewrite Hs at 1. unfold canPersistWithinCapacity.
       change (c_nextCheckAt (invalidateRecordCapacityMemorySnapshot st)) with 0. rewrite (proj2 (Z.ltb_ge _ _)) by lia.
       unfold readReusableRecordCapacitySnapshot. change (c_stored (invalidateRecordCapacityMemorySnapshot st)) with (c_stored st). rewrite Est.
       cbn -[evaluateHistoryCapacity capacityCheckDelayMs]. unfold saved. cbn -[evaluateHistoryCapacity capacityCheckDelayMs].
       exists now. split; [| done]. split; [done |]. pose proof (delay_positive (live_rows u) (estimated_live_storage_bytes u)
         (blocked (evaluateHistoryCapacity u (of_Z (limitRows limits)) (of_Z (limitBytes limits)) false))). lia. }
  pose proof Hs as Hs0. unfold saved in Hs. rewrite Est in Hs. destruct Hs as (checked & Hc & Hv & Hsr & Hsb).
  set (s := {| sn_rows := c_rows st; sn_bytes := c_bytes st; sn_blocked := c_blocked st; sn_checkedAt := of_Z checked;
               sn_nextCheckAt := of_Z (c_nextCheckAt st); sn_limitRows := of_Z (limitRows limits); sn_limitBytes := of_Z (limitBytes limits) |}).
  assert (Hn : normalizeRecordCapacitySnapshot (Some v) = Some s) by (rewrite Hv; by apply normalize_snapshot).
  assert (Hsl : same_limits limits s = true) by (unfold same_limits; cbn [sn_limitRows sn_limitBytes s]; by rewrite !num_eqb_refl_Z).
  assert (Hre : isReusableRecordCapacitySnapshot limits s now = (now <? c_nextCheckAt st)).
  { unfold isReusableRecordCapacitySnapshot. rewrite Hsl. cbn [sn_nextCheckAt s andb]. apply num_lt_of_Z_Z. }
  assert (Hread : ∀ st', c_stored st' = Some v → readReusableRecordCapacitySnapshot limits now st'
            = (if now <? c_nextCheckAt st then Some s else None,
               {| c_rows := c_rows st'; c_bytes := c_bytes st'; c_blocked := c_blocked st; c_nextCheckAt := c_nextCheckAt st'; c_stored := Some v |})).
  { intros st' Hst'. unfold readReusableRecordCapacitySnapshot. rewrite Hst', Hn, Hsl, Hre. done. }
  assert (Happly : ∀ st', c_stored st' = Some v → applyRecordCapacitySnapshot s st' = st).
  { intros st' Hst'. unfold applyRecordCapacitySnapshot. cbn [sn_nextCheckAt sn_rows sn_bytes sn_blocked s]. rewrite Hst', <- Est.
    replace (num_ceil (of_Z (c_nextCheckAt st))) with (of_Z (c_nextCheckAt st)) by (cbn; unfold of_Z; by rewrite Qceiling_Z).
    rewrite num_Z_of_Z. by destruct st. }
  unfold canPersistWithinCapacity at 1. change (c_nextCheckAt (invalidateRecordCapacityMemorySnapshot st)) with 0.
  rewrite (proj2 (Z.ltb_ge now 0)) by lia. rewrite (Hread (invalidateRecordCapacityMemorySnapshot st)) by done.
  unfold canPersistWithinCapacity. destruct (now <? c_nextCheckAt st) eqn:Et; [by rewrite Happly |].
  rewrite (Hread st) by done. split; [done |]. unfold saved. cbn -[evaluateHistoryCapacity capacityCheckDelayMs]. exists now. split; [| done].
  split; [done |]. pose proof (delay_positive (live_rows u) (estimated_live_storage_bytes u)
    (blocked (evaluateHistoryCapacity u (of_Z (limitRows limits)) (of_Z (limitBytes limits)) (c_blocked st)))). lia.
Qed.

(** A history of checks: the time, the usage the database would report, and
    whether the object was restarted before. *)
Fixpoint checks (l : list (Z * usage * bool)) (st : capacity_state) : list bool * capacity_state :=
  match l with
  | [] => ([], st)
  | (now, u, restarted) :: rest =>
    let st := if (restarted : bool) then invalidateRecordCapacityMemorySnapshot st else st in
    let '(allowed, st) := canPersistWithinCapacity limits (Some (Some u)) now st in
    let '(r, st) := checks rest st in (allowed :: r, st)
  end.
Definition never_restarted (l : list (Z * usage * bool)) : list (Z * usage * bool) := map (λ p, (p.1.1, p.1.2, false)) l.
Lemma checks_restart l st :
  Forall (λ p, 0 < p.1.1 ∧ usage_ok p.1.2) l → saved st →
  checks l st = checks (never_restarted l) st ∧ saved (checks l st).2.
Proof.
  revert st. induction l as [|[[now u] restarted] l IH]; intros st Hall Hs; [done |]. apply Forall_cons in Hall as [[Hn Hu] Hall].
  cbn [fst snd] in Hn, Hu. destruct (cold_check u now st Hs Hn Hu) as [Hc Hs']. cbn [checks never_restarted map fst snd].
  assert (He : canPersistWithinCapacity limits (Some (Some u)) now (if restarted then invalidateRecordCapacityMemorySnapshot st else st)
               = canPersistWithinCapacity limits (Some (Some u)) now st) by (destruct restarted; done).
  rewrite He. destruct (canPersistWithinCapacity limits _ now st) as [allowed st']. cbn [snd] in Hs'.
  destruct (IH st' Hall Hs') as [H1 H2]. fold (never_restarted l). rewrite <- H1. by destruct (checks l st').
Qed.
End Cold.

(** ** Properties *)

Definition fresh_capacity : capacity_state := {| c_rows := of_Z 0; c_bytes := of_Z 0; c_blocked := false; c_nextCheckAt := 0; c_stored := None |}.
Lemma saved_fresh limits : saved limits fresh_capacity.
Proof. done. Qed.


(** A history paused at its limit, a restart, and a measurement between the two
    thresholds. *)
Definition example_usage (rows : Z) : usage := {| live_rows := of_Z rows; estimated_live_storage_bytes := of_Z 1000; allocated_bytes := of_Z 5000 |}.
