(* ===== verification/LiveViewer.v ===== *)
(** * Viewer sessions: [do/live-data.ts]

    Viewers watch over web sockets for a limited time; how many may watch at once
    is limited, in all and per address.  A request to connect checks the limits,
    waits for the settings and checks them again; from there to the registration
    nothing else runs, so that part is one step.  The socket of a session carries
    its attachment through hibernation. *)

From S2P Require Import Prelude JsStr JsNum JsVal.
#[local] Open Scope Z_scope.

(** @worker/src/do/live-data.ts:100-104 VIEWER_MIN_TTL_MS (constants) *)
Definition VIEWER_MIN_TTL_MS : num := of_Z 60000.
Definition VIEWER_MAX_TTL_MS : num := of_Z (60 * 60 * 1000).
Definition VIEWER_DEFAULT_TTL_MS : num := of_Z (120 * 1000).
Definition VIEWER_MAX_TOTAL_SESSIONS : nat := 128.
Definition VIEWER_MAX_SESSIONS_PER_IP : nat := 8.
(** @worker/src/do/live-data.ts:418-422 normalizeViewerTtlMs *)
Definition normalizeViewerTtlMs (value : jsval) : num :=
  let ttlMs := to_num value in
  if negb (is_finite ttlMs) || num_le ttlMs (of_Z 0) then VIEWER_DEFAULT_TTL_MS
  else num_min (num_max ttlMs VIEWER_MIN_TTL_MS) VIEWER_MAX_TTL_MS.

(** @worker/src/do/live-data.ts:402-416 SessionAttachment -- with the role and
    whether the socket is open *)
Record session := { ss_viewer : bool; ss_ip : option jstr; ss_expires : option num; ss_open : bool; ss_admin : bool }.
(** @worker/src/do/live-data.ts:424-430 LiveDataDO (sessions) -- the roles are
    those of the attachments *)
Record viewers := { sessions : gmap jstr session; viewerExpiresAt : gmap jstr num }.

(** [expiresAt && expiresAt <= now] *)
Definition expired (now : Z) (e : option num) : bool :=
  match e with Some e => num_truthy e && num_le e (of_Z now) | None => false end.
(** The expiry [countViewers] reads for a session. *)
Definition expiry (st : viewers) (id : jstr) (s : session) : option num :=
  match viewerExpiresAt st !! id with Some e => Some e | None => ss_expires s end.
Definition counted (now : Z) (st : viewers) (p : jstr * session) : Prop :=
  ss_viewer p.2 = true ∧ ss_open p.2 = true ∧ expired now (expiry st p.1 p.2) = false.
Instance counted_dec now st p : Decision (counted now st p).
Proof. unfold counted. apply _. Defined.
(** @worker/src/do/live-data.ts:1379-1395 countViewers *)
Definition countViewers (now : Z) (viewerIp : option jstr) (st : viewers) : nat * nat :=
  let counted := filter (counted now st) (sessions st) in
  (size counted,
   match viewerIp with Some ip => size (filter (λ p : jstr * session, ss_ip p.2 = Some ip) counted) | None => 0%nat end).
(** @worker/src/do/live-data.ts:1175-1187 activeViewerCount *)
Definition activeViewerCount (now : Z) (st : viewers) : nat :=
  size (filter (λ p : jstr * session, ss_viewer p.2 = true ∧ ss_open p.2 = true ∧ expired now (viewerExpiresAt st !! p.1) = false) (sessions st)).
(** @worker/src/do/live-data.ts:1397-1418 enforceViewerConnectionLimit -- whether
    it refuses *)
Definition enforceViewerConnectionLimit (now : Z) (viewerIp : option jstr) (st : viewers) : bool :=
  let '(total, sameIp) := countViewers now viewerIp st in
  (VIEWER_MAX_TOTAL_SESSIONS <=? total)%nat
  || match viewerIp with Some _ => (VIEWER_MAX_SESSIONS_PER_IP <=? sameIp)%nat | None => false end.
(** @worker/src/do/live-data.ts:614-623 registerSession *)
Definition registerSession (id : jstr) (s : session) (st : viewers) : viewers :=
  {| sessions := <[id := s]> (sessions st);
     viewerExpiresAt := match ss_expires s with
                        | Some e => if ss_viewer s && num_truthy e then <[id := e]> (viewerExpiresAt st) else delete id (viewerExpiresAt st)
                        | None => delete id (viewerExpiresAt st)
                        end |}.
(** @worker/src/do/live-data.ts:2353-2413 fetch (viewer) -- [started] is the time of
    the request, [now] that of the registration; [None] is the status 429 *)
Definition connectViewer (started now : Z) (id : jstr) (viewerIp : option jstr) (include_hidden : bool) (ttl_param : option jsval) (policy_ttl : Z)
    (st : viewers) : option viewers :=
  let viewerIp := match viewerIp with Some ip => if nonempty ip then Some ip else None | None => None end in
  if enforceViewerConnectionLimit now viewerIp st then None
  else
    let ttl := normalizeViewerTtlMs (match ttl_param with Some v => v | None => JNum (of_Z (policy_ttl * 1000)) end) in
    Some (registerSession id {| ss_viewer := true; ss_ip := viewerIp; ss_expires := Some (num_add (of_Z started) ttl); ss_open := true;
                                ss_admin := include_hidden |} st).
Definition connectAgent (id : jstr) (st : viewers) : viewers :=
  registerSession id {| ss_viewer := false; ss_ip := None; ss_expires := None; ss_open := true; ss_admin := false |} st.
(** @worker/src/do/live-data.ts:1420-1441 expireViewer *)
Definition expireViewer (id : jstr) (st : viewers) : viewers :=
  {| sessions := delete id (sessions st); viewerExpiresAt := delete id (viewerExpiresAt st) |}.
(** @worker/src/do/live-data.ts:1443-1454 removeExpiredViewers *)
Definition removeExpiredViewers (now : Z) (st : viewers) : viewers :=
  fold_left (λ st p, if num_lt (of_Z now) p.2 then st else expireViewer p.1 st) (map_to_list (viewerExpiresAt st)) st.
(** @worker/src/do/live-data.ts:1456-1462 cleanupSession (sessions) *)
Definition cleanupSession (id : jstr) (st : viewers) : viewers :=
  {| sessions := delete id (sessions st); viewerExpiresAt := delete id (viewerExpiresAt st) |}.
(** @worker/src/do/live-data.ts:625-644 hydrateSessionsFromAcceptedWebSockets
    (sessions) -- the accepted sockets are the open ones *)
Definition hydrate (now : Z) (st : viewers) : viewers :=
  let kept := filter (λ p : jstr * session, ss_open p.2 = true ∧ negb (ss_viewer p.2 && expired now (ss_expires p.2)) = true) (sessions st) in
  {| sessions := kept;
     viewerExpiresAt := omap (λ s, match ss_expires s with Some e => if ss_viewer s && num_truthy e then Some e else None | None => None end) kept |}.

(** ** Histories *)

Inductive viewer_event :=
| Connect (started : Z) (id : jstr) (viewerIp : option jstr) (include_hidden : bool) (ttl_param : option jsval) (policy_ttl : Z)
| Agent (id : jstr)
| Closing (id : jstr)
| Closed (id : jstr)
| Alarm
| Hibernate.
(** The socket is no longer open, before its close is handled. *)
Definition close_socket (id : jstr) (st : viewers) : viewers :=
  {| sessions := alter (λ s, {| ss_viewer := ss_viewer s; ss_ip := ss_ip s; ss_expires := ss_expires s; ss_open := false; ss_admin := ss_admin s |}) id (sessions st);
     viewerExpiresAt := viewerExpiresAt st |}.
Definition viewer_step (now : Z) (e : viewer_event) (st : viewers) : viewers :=
  match e with
  | Connect started id ip admin ttl policy => default st (connectViewer started now id ip admin ttl policy st)
  | Agent id => connectAgent id st
  | Closing id => close_socket id st
  | Closed id => cleanupSession id st
  | Alarm => removeExpiredViewers now st
  | Hibernate => hydrate now st
  end.
Definition viewer_run (l : list (Z * viewer_event)) (st : viewers) : viewers := fold_left (λ st p, viewer_step p.1 p.2 st) l st.
Definition no_viewers : viewers := {| sessions := ∅; viewerExpiresAt := ∅ |}.
(** The times never go back. *)
Fixpoint ordered (from : Z) (l : list (Z * viewer_event)) : Prop :=
  match l with [] => True | (now, _) :: rest => from ≤ now ∧ ordered now rest end.
Definition last_time (from : Z) (l : list (Z * viewer_event)) : Z := fold_left (λ _ p, p.1) l from.

(** ** Facts *)

(** The expiry of a session is that of its attachment. *)
Definition attached (st : viewers) : Prop := ∀ id s, sessions st !! id = Some s → expiry st id s = ss_expires s.
(** Every counted session of the new state was counted in the old one. *)
Definition fewer (t t' : Z) (st st' : viewers) : Prop :=
  ∀ id s', sessions st' !! id = Some s' → counted t' st' (id, s') → ∃ s, sessions st !! id = Some s ∧ counted t st (id, s) ∧ ss_ip s = ss_ip s'.

Lemma expired_later t t' e : t ≤ t' → expired t' e = false → expired t e = false.
Proof.
  intros Ht. destruct e as [e|]; [| done]. cbn. destruct (num_truthy e); [| done]. cbn [andb]. intros He.
  destruct (num_le e (of_Z t)) eqn:E; [| done]. rewrite (num_le_trans e (of_Z t) (of_Z t')) in He; [done | done |].
  rewrite num_le_of_Z. by apply Z.leb_le.
Qed.

Lemma filter_size_le (P Q : jstr * session → Prop) `{!∀ p, Decision (P p)} `{!∀ p, Decision (Q p)} (m m' : gmap jstr session) :
  (∀ id s', m' !! id = Some s' → P (id, s') → ∃ s, m !! id = Some s ∧ Q (id, s)) → (size (filter P m') ≤ size (filter Q m))%nat.
Proof.
  intros Hpq. rewrite <- !size_dom. apply subseteq_size. intros id Hid. apply elem_of_dom in Hid as [s' Hs'].
  apply map_lookup_filter_Some in Hs' as [Hl Hp]. destruct (Hpq id s' Hl Hp) as (s & Hs & Hq). apply elem_of_dom. exists s.
  by apply map_lookup_filter_Some.
Qed.

Lemma fewer_count t t' ip st st' :
  fewer t t' st st' → ((countViewers t' ip st').1 ≤ (countViewers t ip st).1 ∧ (countViewers t' ip st').2 ≤ (countViewers t ip st).2)%nat.
Proof.
  intros H. unfold countViewers. cbn [fst snd]. split.
  - apply filter_size_le. intros id s' Hs' Hc. destruct (H id s' Hs' Hc) as (s & Hs & Hc' & _). by exists s.
  - destruct ip as [ip|]; [| done]. apply filter_size_le. intros id s' Hs' Hip. apply map_lookup_filter_Some in Hs' as [Hs' Hc].
    destruct (H id s' Hs' Hc) as (s & Hs & Hc' & Heq). exists s. split; [by apply map_lookup_filter_Some | cbn in *; congruence].
Qed.

Lemma fewer_refl t t' st : t ≤ t' → fewer t t' st st.
Proof. intros Ht id s Hs (H1 & H2 & H3). exists s. split; [done |]. split; [| done]. split; [done |]. split; [done |]. by apply (expired_later t t'). Qed.

(** Registering one session counts one more at most. *)
Lemma filter_insert_le (P : jstr * session → Prop) `{!∀ p, Decision (P p)} (m : gmap jstr session) id s :
  (size (filter P (<[id := s]> m)) ≤ S (size (filter P m)))%nat.
Proof.
  transitivity (size (<[id := s]> (filter P m))).
  - rewrite <- !size_dom. apply subseteq_size. intros i Hi. apply elem_of_dom in Hi as [x Hx]. apply map_lookup_filter_Some in Hx as [Hx Hp].
    apply elem_of_dom. destruct (decide (id = i)) as [<- | Hne]; [rewrite lookup_insert_eq; eauto |].
    rewrite lookup_insert_ne in * by done. exists x. by apply map_lookup_filter_Some.
  - rewrite map_size_insert. by destruct (filter P m !! id); [apply Nat.le_succ_diag_r |].
Qed.

Lemma remove_expired_spec now l st :
  let st' := fold_left (λ st p, if num_lt (of_Z now) p.2 then st else expireViewer p.1 st) l st in
  (∀ id s, sessions st' !! id = Some s → sessions st !! id = Some s)
  ∧ (∀ id e, viewerExpiresAt st' !! id = Some e → viewerExpiresAt st !! id = Some e ∧ ((id, e) ∈ l → num_lt (of_Z now) e = true)).
Proof.
  cbv zeta. revert st. induction l as [|[i e] l IH]; intros st; cbn [fold_left fst snd].
  - split; [done |]. intros id e' He. split; [done | by intros ?%not_elem_of_nil].
  - destruct (num_lt (of_Z now) e) eqn:El.
    + destruct (IH st) as [H1 H2]. split; [done |]. intros id e' He. destruct (H2 id e' He) as [Ha Hb]. split; [done |].
      intros [[= -> ->] | Hin]%elem_of_cons; [done | by apply Hb].
    + destruct (IH (expireViewer i st)) as [H1 H2]. split.
      * intros id s Hs. apply H1 in Hs. cbn in Hs. by apply lookup_delete_Some in Hs as [_ Hs].
      * intros id e' He. destruct (H2 id e' He) as [Ha Hb]. cbn in Ha. apply lookup_delete_Some in Ha as [Hne Ha]. split; [done |].
        intros [[= -> ->] | Hin]%elem_of_cons; [done | by apply Hb].
Qed.

(** The limits hold at a time, and so at every later time. *)
Definition within (t : Z) (st : viewers) : Prop :=
  ∀ ip, ((countViewers t ip st).1 ≤ VIEWER_MAX_TOTAL_SESSIONS ∧ (countViewers t ip st).2 ≤ VIEWER_MAX_SESSIONS_PER_IP)%nat.
Lemma within_fewer t t' st st' : fewer t t' st st' → within t st → within t' st'.
Proof. intros Hf Hw ip. destruct (fewer_count t t' ip st st' Hf), (Hw ip). lia. Qed.

(** Steps that only drop sessions. *)
Lemma dropped_ok t now st st' :
  t ≤ now → attached st →
  (∀ id s, sessions st' !! id = Some s → sessions st !! id = Some s) →
  (∀ id e, viewerExpiresAt st' !! id = Some e → viewerExpiresAt st !! id = Some e) →
  attached st' ∧ fewer t now st st'.
Proof.
  intros Ht Ha Hs He.
  assert (Hat : attached st').
  { intros id s Hid. specialize (Ha id s (Hs id s Hid)). unfold expiry in *.
    destruct (viewerExpiresAt st' !! id) as [e|] eqn:E; [| done]. by rewrite (He id e E) in Ha. }
  split; [done |]. intros id s Hid (H1 & H2 & H3). exists s. split; [by apply Hs |]. split; [| done]. split; [done |]. split; [done |].
  cbn [fst snd] in *. rewrite (Ha id s) by (by apply Hs). rewrite (Hat id s Hid) in H3. by apply (expired_later t now).
Qed.

Lemma registered_attached id s st : attached st → attached (registerSession id s st).
Proof.
  intros Ha i x. unfold registerSession, expiry. cbn [sessions viewerExpiresAt]. rewrite lookup_insert.
  destruct (decide (id = i)) as [<- | Hne].
  - intros [= <-]. destruct (ss_expires s) as [e|]; [| by rewrite lookup_delete_eq].
    destruct (ss_viewer s && num_truthy e); [by rewrite lookup_insert_eq | by rewrite lookup_delete_eq].
  - intros Hx. specialize (Ha i x Hx). unfold expiry in Ha.
    destruct (ss_expires s) as [e|]; [destruct (ss_viewer s && num_truthy e) |]; by rewrite ?lookup_insert_ne, ?lookup_delete_ne.
Qed.
Lemma registered_other id s st i x :
  id ≠ i → sessions (registerSession id s st) !! i = Some x →
  sessions st !! i = Some x ∧ expiry (registerSession id s st) i x = expiry st i x.
Proof.
  intros Hne. unfold registerSession, expiry. cbn [sessions viewerExpiresAt]. rewrite lookup_insert_ne by done. intros Hx. split; [done |].
  destruct (ss_expires s) as [e|]; [destruct (ss_viewer s && num_truthy e) |]; by rewrite ?lookup_insert_ne, ?lookup_delete_ne.
Qed.

(** One more session, of one address. *)
Lemma registered_count now id s st ip :
  ((countViewers now ip (registerSession id s st)).1 ≤ S (countViewers now ip st).1)%nat
  ∧ ((countViewers now ip (registerSession id s st)).2 ≤ (if decide (ss_ip s = ip) then S (countViewers now ip st).2 else (countViewers now ip st).2))%nat.
Proof.
  set (st' := registerSession id s st).
  assert (Hc : ∀ i x, id ≠ i → sessions st' !! i = Some x → counted now st' (i, x) → sessions st !! i = Some x ∧ counted now st (i, x)).
  { intros i x Hne Hx Hx'. destruct (registered_other id s st i x Hne Hx) as [Ha Hb]. split; [done |].
    unfold counted in *. cbn [fst snd] in *. unfold st' in Hx'. by rewrite Hb in Hx'. }
  unfold countViewers. cbn [fst snd]. set (m := filter (counted now st) (sessions st)). set (m' := filter (counted now st') (sessions st')).
  assert (Hm : ∀ i x, m' !! i = Some x → id ≠ i → m !! i = Some x).
  { intros i x Hx Hne. apply map_lookup_filter_Some in Hx as [Hx Hx']. apply map_lookup_filter_Some. by apply Hc. }
  assert (Hid : ∀ x, m' !! id = Some x → x = s).
  { intros x Hx. apply map_lookup_filter_Some in Hx as [Hx _]. unfold st', registerSession in Hx. cbn in Hx. rewrite lookup_insert_eq in Hx. congruence. }
  assert (Hle : ∀ (n n' : gmap jstr session), (∀ i x, n' !! i = Some x → id ≠ i → n !! i = Some x) → (size n' ≤ S (size n))%nat).
  { intros n n' Hn. transitivity (size (<[id := s]> n)).
    - rewrite <- !size_dom. apply subseteq_size. intros i [x Hx]%elem_of_dom. apply elem_of_dom.
      destruct (decide (id = i)) as [<- | Hne]; [rewrite lookup_insert_eq; eauto | rewrite lookup_insert_ne by done; eauto].
    - rewrite map_size_insert. by destruct (n !! id); [apply Nat.le_succ_diag_r |]. }
  split; [by apply Hle |]. destruct ip as [ip|]; [| by destruct (decide _); lia].
  destruct (decide (ss_ip s = Some ip)) as [Heq | Hne].
  - apply Hle. intros i x Hx Hne. apply map_lookup_filter_Some in Hx as [Hx Hx']. apply map_lookup_filter_Some. split; [by apply Hm | done].
  - apply filter_size_le. intros i x Hx Hip. exists x. split; [| done]. apply Hm; [done |]. intros <-. apply Hid in Hx as ->. done.
Qed.

Lemma connect_ok t now id (s : session) ip' st :
  t ≤ now → attached st → within t st → ss_ip s = ip' → enforceViewerConnectionLimit now ip' st = false →
  within now (registerSession id s st).
Proof.
  intros Ht Ha Hw <- El ip. assert (Hwn : within now st) by (eapply within_fewer; [by apply (fewer_refl t now) | done]).
  destruct (registered_count now id s st ip) as [H1 H2]. destruct (Hwn ip) as [H3 H4].
  unfold enforceViewerConnectionLimit in El.
  assert (Htot : (countViewers now ip st).1 = (countViewers now (ss_ip s) st).1) by reflexivity.
  destruct (countViewers now (ss_ip s) st) as [total same] eqn:Ec. cbn [fst] in Htot.
  apply orb_false_iff in El as [El1%Nat.leb_gt El2]. split; [lia |].
  destruct (decide (ss_ip s = ip)) as [Heq | Hne]; [| lia]. subst ip. rewrite Ec in H2, H4. cbn [snd] in H2, H4.
  destruct (ss_ip s) as [i|]; [apply Nat.leb_gt in El2; lia | exact (Nat.le_0_l _)].
Qed.

Lemma agent_ok t now id st : t ≤ now → attached st → fewer t now st (connectAgent id st).
Proof.
  intros Ht Ha i x Hx (H1 & H2 & H3). cbn [fst snd] in *. destruct (decide (id = i)) as [<- | Hne].
  - unfold connectAgent, registerSession in Hx. cbn in Hx. rewrite lookup_insert_eq in Hx. injection Hx as <-. done.
  - unfold connectAgent in *. apply (registered_other id) in Hx as [Hx He]; [| done]. cbn [fst snd] in H3. rewrite He in H3. exists x. split; [done |]. split; [| done].
    split; [done |]. split; [done |]. by apply (expired_later t now).
Qed.

Lemma close_ok t now id st : t ≤ now → attached st → attached (close_socket id st) ∧ fewer t now st (close_socket id st).
Proof.
  intros Ht Ha.
  assert (Hcl : ∀ i x, sessions (close_socket id st) !! i = Some x → ∃ s, sessions st !! i = Some s ∧ ss_expires x = ss_expires s
            ∧ ss_viewer x = ss_viewer s ∧ ss_ip x = ss_ip s ∧ (ss_open x = true → ss_open s = true)).
  { intros i x. cbn. rewrite lookup_alter. destruct (decide (id = i)) as [<- | Hne]; [| intros Hx; by exists x].
    destruct (sessions st !! id) as [s|]; [| done]. intros [= <-]. by exists s. }
  split.
  - intros i x Hx. destruct (Hcl i x Hx) as (s & Hs & He & _). specialize (Ha i s Hs). unfold expiry in *. cbn [viewerExpiresAt close_socket]. by rewrite He.
  - intros i x Hx (H1 & H2 & H3). destruct (Hcl i x Hx) as (s & Hs & He & Hv & Hip & Ho). cbn [fst snd] in *.
    exists s. split; [done |]. split; [| done]. split; [cbn; congruence |]. split; [by apply Ho |]. cbn [fst snd].
    apply (expired_later t now); [done |]. unfold expiry in *. cbn [viewerExpiresAt close_socket] in H3. by rewrite <- He.
Qed.

Lemma hydrate_ok t now st : t ≤ now → attached st → attached (hydrate now st) ∧ fewer t now st (hydrate now st).
Proof.
  intros Ht Ha. set (st' := hydrate now st).
  assert (Hs : ∀ i x, sessions st' !! i = Some x → sessions st !! i = Some x) by (intros i x Hx; by apply map_lookup_filter_Some in Hx as [Hx _]).
  assert (Hat : attached st').
  { intros i x Hx. unfold expiry. cbn [viewerExpiresAt st' hydrate]. rewrite lookup_omap. cbn in Hx. rewrite Hx. cbn.
    destruct (ss_expires x) as [e|]; [| done]. by destruct (ss_viewer x && num_truthy e). }
  split; [done |]. intros i x Hx (H1 & H2 & H3). exists x. split; [by apply Hs |]. split; [| done].
  split; [done |]. split; [done |]. cbn [fst snd] in *. rewrite (Hat i x Hx) in H3. rewrite (Ha i x) by (by apply Hs). by apply (expired_later t now).
Qed.

Lemma step_ok t now e st : t ≤ now → attached st ∧ within t st → attached (viewer_step now e st) ∧ within now (viewer_step now e st).
Proof.
  intros Ht [Ha Hw]. assert (Hwn : within now st) by (eapply within_fewer; [by apply (fewer_refl t now) | done]).
  assert (Hdrop : ∀ st', (∀ id s, sessions st' !! id = Some s → sessions st !! id = Some s) →
                         (∀ id e, viewerExpiresAt st' !! id = Some e → viewerExpiresAt st !! id = Some e) → attached st' ∧ within now st').
  { intros st' H1 H2. destruct (dropped_ok t now st st' Ht Ha H1 H2) as [H3 H4]. split; [done | by eapply within_fewer]. }
  destruct e as [started id ip admin ttl policy|id|id|id| |]; cbn [viewer_step].
  - unfold connectViewer. set (ip' := match ip with Some i => if nonempty i then Some i else None | None => None end).
    destruct (enforceViewerConnectionLimit now ip' st) eqn:El; [done |]. cbn [default].
    split; [by apply registered_attached | by apply (connect_ok t now id _ ip')].
  - split; [by apply registered_attached | eapply within_fewer; [by apply agent_ok | done]].
  - destruct (close_ok t now id st Ht Ha). split; [done | by eapply within_fewer].
  - apply Hdrop; intros i x Hx; cbn in Hx; by apply lookup_delete_Some in Hx as [_ Hx].
  - destruct (remove_expired_spec now (map_to_list (viewerExpiresAt st)) st) as [H1 H2]. apply Hdrop; [done |]. intros i x Hx. by apply H2 in Hx as [Hx _].
  - destruct (hydrate_ok t now st Ht Ha). split; [done | by eapply within_fewer].
Qed.

Lemma run_ok l : ∀ t st, ordered t l → attached st ∧ within t st → attached (viewer_run l st) ∧ within (last_time t l) (viewer_run l st).
Proof.
  induction l as [|[now e] l IH]; intros t st; [done |]. intros [Ht Ho] Hst.
  change (attached (viewer_run l (viewer_step now e st)) ∧ within (last_time now l) (viewer_run l (viewer_step now e st))).
  apply IH; [done | by apply (step_ok t)].
Qed.

Lemma no_viewers_ok t : attached no_viewers ∧ within t no_viewers.
Proof.
  split; [by intros id s Hs |]. intros ip. unfold countViewers, no_viewers. cbn [sessions fst snd].
  rewrite map_filter_empty, map_size_empty. destruct ip; [rewrite map_filter_empty, map_size_empty |]; cbn; split; apply Nat.le_0_l.
Qed.

Lemma ttl_bounds v :
  is_finite (normalizeViewerTtlMs v) = true ∧ num_le VIEWER_MIN_TTL_MS (normalizeViewerTtlMs v) = true
  ∧ num_le (normalizeViewerTtlMs v) VIEWER_MAX_TTL_MS = true.
Proof.
  unfold normalizeViewerTtlMs. destruct (negb (is_finite (to_num v)) || num_le (to_num v) (of_Z 0)) eqn:E; [done |].
  apply orb_false_iff in E as [E%negb_false_iff _]. unfold num_min, num_max. assert (Hmin : is_nan VIEWER_MIN_TTL_MS = false) by done.
  assert (Hmax : is_nan VIEWER_MAX_TTL_MS = false) by done.
  destruct (to_num v) as [| |q]; try discriminate E. rewrite Hmin, Hmax. cbn [is_nan orb]. destruct (num_lt (Fin q) VIEWER_MIN_TTL_MS) eqn:El;
    [vm_compute; tauto |].
  apply num_lt_false_le in El; [| done..]. cbn [is_nan orb]. destruct (num_lt VIEWER_MAX_TTL_MS (Fin q)) eqn:Eu;
    [vm_compute; tauto |].
  apply num_lt_false_le in Eu; [| done..]. done.
Qed.

(** After the alarm no viewer of the table is past its time. *)
Lemma alarm_clears now st id e : viewerExpiresAt (removeExpiredViewers now st) !! id = Some e → num_lt (of_Z now) e = true.
Proof.
  intros He. destruct (remove_expired_spec now (map_to_list (viewerExpiresAt st)) st) as [_ H]. destruct (H id e He) as [H1 H2].
  apply H2. by apply elem_of_map_to_list.
Qed.

(** ** Properties *)

(** C29: Over any history of connections, agents, closing sockets, alarms and
    hibernations whose clock never goes back, there are never more than 128
    watching viewers in all nor more than 8 of one address, neither right after
    an event nor at any later time; a request to connect is refused exactly when
    one of the limits is reached; the time a viewer is given lies between a minute
    and an hour, whatever the request asks for; and after an alarm every viewer of
    the expiry table has time left. *)
Theorem viewer_limits (l : list (Z * viewer_event)) (start now : Z) :
  ordered start l → last_time start l ≤ now →
  let st := viewer_run l no_viewers in
  (∀ ip, ((countViewers now ip st).1 ≤ 128 ∧ (countViewers now ip st).2 ≤ 8)%nat)
  ∧ (∀ started id ip admin ttl policy, nonempty ip = true →
       connectViewer started now id (Some ip) admin ttl policy st = None
       ↔ (countViewers now (Some ip) st).1 = 128%nat ∨ (countViewers now (Some ip) st).2 = 8%nat)
  ∧ (∀ v, num_le (of_Z 60000) (normalizeViewerTtlMs v) = true ∧ num_le (normalizeViewerTtlMs v) (of_Z 3600000) = true)
  ∧ (∀ id e, viewerExpiresAt (viewer_step now Alarm st) !! id = Some e → num_lt (of_Z now) e = true).
Proof.
  intros Ho Hl. cbv zeta. destruct (run_ok l start no_viewers Ho (no_viewers_ok start)) as [Ha Hw].
  assert (Hn : within now (viewer_run l no_viewers)) by (eapply within_fewer; [by apply (fewer_refl (last_time start l) now) | done]).
  split; [exact Hn |]. split; [| split; [intros v; apply ttl_bounds | intros id e; apply alarm_clears]].
  intros started id ip admin ttl policy Hip. unfold connectViewer, enforceViewerConnectionLimit. rewrite Hip.
  destruct (Hn (Some ip)) as [H1 H2]. destruct (countViewers now (Some ip) _) as [total same]. cbn [fst snd] in *.
  destruct (_ || _) eqn:E.
  - split; [intros _ | done]. apply orb_true_iff in E as [E%Nat.leb_le | E%Nat.leb_le]; [left | right]; by apply Nat.le_antisymm.
  - split; [done |]. apply orb_false_iff in E as [E1%Nat.leb_gt E2%Nat.leb_gt].
    intros [-> | ->]; [by apply Nat.lt_irrefl in E1 | by apply Nat.lt_irrefl in E2].
Qed.

(** Eight viewers of one address fill it: the ninth is refused until a minute
    has passed. *)
Lemma viewer_limits_witness :
  let ip := "203.0.113.9"%js in
  let l := (λ n : Z, (n, Connect n (dec_Z n) (Some ip) false (Some (JNum (of_Z 5))) 30)) <$> [1; 2; 3; 4; 5; 6; 7; 8] in
  let st := viewer_run l no_viewers in
  (countViewers 60000 (Some ip) st = (8, 8))%nat ∧ connectViewer 60000 60000 "9"%js (Some ip) false None 30 st = None
  ∧ (countViewers 60003 (Some ip) st).2 = 5%nat ∧ (∀ q, ((countViewers 60000 q st).1 ≤ 128)%nat).
Proof.
  intros ip l st.
  assert (Ho : ordered 0 l) by (vm_compute; intuition discriminate).
  assert (Hl : last_time 0 l ≤ 60000) by (vm_compute; discriminate).
  destruct (viewer_limits l 0 60000 Ho Hl) as (H1 & H2 & _). fold st in H1, H2.
  assert (H8 : countViewers 60000 (Some ip) st = (8, 8)%nat) by (vm_compute; reflexivity).
  split; [exact H8 |]. split; [apply (proj2 (H2 60000 "9"%js ip false None 30 eq_refl)); right; by rewrite H8 |].
  split; [vm_compute; reflexivity | intros q; exact (proj1 (H1 q))].
Defined.
