(* ===== verification/Install.v ===== *)
(** * Agent install commands: [frontend/src/utils/agentInstallCommand.ts]

    The panel shows a command the administrator pastes into a shell: POSIX [sh] or
    [PowerShell].  Names, tokens and options end up inside it, so what matters is
    what the shell reads back.  The second half states the quoting rules of the two
    shells as small readers and shows that they read exactly the arguments. *)

From S2P Require Import Prelude JsStr JsNum JsVal JsBytes Net.
#[local] Open Scope Z_scope.

(** ** The code *)

(** A double quote. *)
Definition dquote : jstr := JS [34%N].

(** @frontend/src/utils/projectLinks.ts:1-1 CF_MONITOR_REPOSITORY *)
Definition CF_MONITOR_REPOSITORY : jstr := "kadidalax/cf-monitor-test".
(** @frontend/src/utils/agentInstallCommand.ts:39-42 CF_MONITOR_BRANCH (and the
    links built from it) *)
Definition CF_MONITOR_BRANCH : jstr := if jeq CF_MONITOR_REPOSITORY "kadidalax/cf-monitor-test" then "dev" else "main".
Definition CF_MONITOR_AGENT_SCRIPT_REF : jstr := "refs/heads/" +++ CF_MONITOR_BRANCH.
Definition CF_MONITOR_RELEASE_BASE : jstr := "https://github.com/" +++ CF_MONITOR_REPOSITORY +++ "/releases/latest/download".

(** @frontend/src/utils/agentInstallCommand.ts:3-3 AgentInstallPlatform *)
Inductive AgentInstallPlatform := Unix | Windows.
(** @frontend/src/utils/agentInstallCommand.ts:5-20 AgentInstallOptions *)
Record AgentInstallOptions := {
  ghproxy : jstr; downloadProxy : jstr; installMode : jstr; dir : jstr; serviceName : jstr;
  binaryUrl : option jstr; checksumUrl : option jstr; releaseTag : option jstr; scriptRef : option jstr;
  trafficResetDay : jstr; mountInclude : jstr; mountExclude : jstr; nicInclude : jstr; nicExclude : jstr
}.
(** @frontend/src/utils/agentInstallCommand.ts:22-37 defaultAgentInstallOptions *)
Definition defaultAgentInstallOptions : AgentInstallOptions :=
  {| ghproxy := ""; downloadProxy := ""; installMode := "auto"; dir := ""; serviceName := "";
     binaryUrl := Some ""; checksumUrl := Some ""; releaseTag := Some ""; scriptRef := Some "";
     trafficResetDay := "1"; mountInclude := ""; mountExclude := ""; nicInclude := ""; nicExclude := "" |}.

(** @frontend/src/utils/agentInstallCommand.ts:44-47 isLocalHttpHost *)
Definition isLocalHttpHost (hostname : jstr) : bool :=
  let host := lower hostname in
  jeq host "localhost" || jeq host "127.0.0.1" || jeq host "::1" || jeq host "[::1]".
(** [/^https?:\/\//i] *)
Definition has_http_scheme (s : jstr) : bool :=
  starts_with "http://" (lower (slice_to 7 s)) || starts_with "https://" (lower (slice_to 8 s)).

(** [value?.trim() || ''] *)
Definition trimmed (value : option jstr) : jstr := match value with Some v => trim v | None => "" end.

(** [/^v\d+\.\d+\.\d+(?:[-+][0-9A-Za-z.-]+)?$/] *)
Definition tag_unit (u : N) : bool := is_alnum u || (u =? 46)%N || (u =? 45)%N.
Definition digits_dot (l : list N) : option (list N) :=
  match take_while is_digit l, drop_while is_digit l with
  | _ :: _, 46%N :: r => Some r
  | _, _ => None
  end.
Definition is_release_tag (s : jstr) : bool :=
  match units s with
  | 118%N :: l =>
    match digits_dot l with
    | Some l =>
      match digits_dot l with
      | Some l =>
        match take_while is_digit l, drop_while is_digit l with
        | _ :: _, [] => true
        | _ :: _, c :: r => ((c =? 45) || (c =? 43))%N && negb (bool_decide (r = [])) && forallb tag_unit r
        | [], _ => false
        end
      | None => false
      end
    | None => false
    end
  | _ => false
  end.
(** @frontend/src/utils/agentInstallCommand.ts:87-90 normalizeReleaseTag *)
Definition normalizeReleaseTag (value : option jstr) : jstr :=
  let raw := trimmed value in if is_release_tag raw then raw else "".

(** [/^[a-f0-9]{7,40}$/i] *)
Definition is_revision (s : jstr) : bool := all_units is_hex s && (7 <=? slen s) && (slen s <=? 40).
(** @frontend/src/utils/agentInstallCommand.ts:114-117 normalizeScriptRef *)
Definition normalizeScriptRef (scriptRef : option jstr) : jstr :=
  match scriptRef with
  | Some r => if is_revision (trim r) then lower (trim r) else CF_MONITOR_AGENT_SCRIPT_REF
  | None => CF_MONITOR_AGENT_SCRIPT_REF
  end.
(** @frontend/src/utils/agentInstallCommand.ts:119-122 cfMonitorAgentScriptRefFromRevision *)
Definition cfMonitorAgentScriptRefFromRevision (revision : option jstr) : jstr :=
  let ref := normalizeScriptRef revision in if jeq ref CF_MONITOR_AGENT_SCRIPT_REF then "" else ref.

(** @frontend/src/utils/agentInstallCommand.ts:124-136 cfMonitorAgentScriptUrl *)
Definition cfMonitorAgentScriptUrl (scriptFile : jstr) (releaseTag : option jstr) (scriptRef : option jstr) : jstr :=
  let ref := normalizeScriptRef scriptRef in
  let tag := normalizeReleaseTag releaseTag in
  let base := if nonempty tag then "https://github.com/" +++ CF_MONITOR_REPOSITORY +++ "/releases/download/" +++ tag
              else "https://raw.githubusercontent.com/" +++ CF_MONITOR_REPOSITORY +++ "/" +++ ref +++ "/agent" in
  base +++ "/" +++ scriptFile.

(** [value.replace(/'/g, "'\\''")] *)
Definition replace_quotes (by_ : list N) (l : list N) : list N := flat_map (λ u, if (u =? 39)%N then by_ else [u]) l.
(** @frontend/src/utils/agentInstallCommand.ts:145-147 shellQuote *)
Definition shellQuote (value : jstr) : jstr := JS ([39%N] ++ replace_quotes [39; 92; 39; 39]%N (units value) ++ [39%N]).
(** @frontend/src/utils/agentInstallCommand.ts:149-151 psQuote *)
Definition psQuote (value : jstr) : jstr := JS ([39%N] ++ replace_quotes [39; 39]%N (units value) ++ [39%N]).
(** @frontend/src/utils/agentInstallCommand.ts:153-160 powershellCommand (bytes) *)
Definition utf16le (script : jstr) : list Z :=
  flat_map (λ u, [Z.land (Z.of_N u) 255; Z.shiftr (Z.of_N u) 8]) (units script).
(** @frontend/src/utils/agentInstallCommand.ts:153-160 powershellCommand *)
Definition powershellCommand (script : jstr) : jstr :=
  "powershell.exe -NoProfile -ExecutionPolicy Bypass -EncodedCommand " +++ JS (btoa (utf16le script)).

(** [Number.parseInt(s, 10)] of a trimmed text *)
Definition parse_int10 (s : jstr) : num :=
  let '(neg, l) := match units s with 45%N :: r => (true, r) | 43%N :: r => (false, r) | l => (false, l) end in
  match take_while is_digit l with
  | [] => NaN
  | ds => let n := f64 (inject_Z (digits_val 10 digit_val ds)) in if neg then num_neg n else n
  end.
(** @frontend/src/utils/agentInstallCommand.ts:162-166 normalizeTrafficResetDay *)
Definition normalizeTrafficResetDay (value : jstr) : jstr :=
  let day := parse_int10 (trim value) in
  if negb (is_finite day) then "1" else num_str (num_min 31 (num_max 1 day)).

(** [s.replace(/[^f]+/g, '-')] *)
Fixpoint dash_runs (f : N → bool) (in_run : bool) (l : list N) : list N :=
  match l with
  | [] => []
  | u :: r => if f u then u :: dash_runs f false r
              else if in_run then dash_runs f true r else 45%N :: dash_runs f true r
  end.
Definition instance_unit (u : N) : bool := is_digit u || is_lower u || (u =? 95)%N || (u =? 46)%N || (u =? 45)%N.
(** @frontend/src/utils/agentInstallCommand.ts:168-175 normalizeInstanceId *)
Definition normalizeInstanceId (value : option jstr) : jstr :=
  let value := match value with Some v => or_str v "default" | None => "default" end in
  let cleaned := JS (drop_while_end (chr 45) (drop_while (chr 45) (dash_runs instance_unit false (units (lower (trim value)))))) in
  slice_to 48 (or_str cleaned "default").

Section Urls.
Context (URL : jstr → option url).

(** @frontend/src/utils/agentInstallCommand.ts:48-61 serverUrlOrigin *)
Definition serverUrlOrigin (value : jstr) : jstr :=
  let raw := trim value in
  if negb (nonempty raw) then ""
  else
    let withScheme := if has_http_scheme raw then raw else "https://" +++ raw in
    match URL withScheme with
    | Some u =>
      if (jeq (protocol u) "https:" || jeq (protocol u) "http:" && isLocalHttpHost (hostname u))
         && negb (nonempty (username u)) && negb (nonempty (password u)) && nonempty (hostname u)
      then origin u else ""
    | None => ""
    end.
(** @frontend/src/utils/agentInstallCommand.ts:63-65 normalizeServerUrl *)
Definition normalizeServerUrl (value fallback : jstr) : jstr :=
  or_str (serverUrlOrigin value) (or_str (serverUrlOrigin fallback) "https://localhost").
(** @frontend/src/utils/agentInstallCommand.ts:67-79 httpsDownloadUrl *)
Definition httpsDownloadUrl (value : option jstr) : jstr :=
  let raw := trimmed value in
  if negb (nonempty raw) then ""
  else match URL raw with
  | Some u =>
    if jeq (protocol u) "https:" && negb (nonempty (username u)) && negb (nonempty (password u)) && nonempty (hostname u)
    then href u else ""
  | None => ""
  end.
(** @frontend/src/utils/agentInstallCommand.ts:81-85 customAgentDownloadUrls *)
Definition customAgentDownloadUrls (binaryValue checksumValue : option jstr) : jstr * jstr :=
  let binaryUrl := httpsDownloadUrl binaryValue in
  let checksumUrl := if nonempty binaryUrl then httpsDownloadUrl checksumValue else "" in
  if nonempty binaryUrl && nonempty checksumUrl then (binaryUrl, checksumUrl) else ("", "").
(** @frontend/src/utils/agentInstallCommand.ts:92-106 normalizeProxyUrl *)
Definition normalizeProxyUrl (value : jstr) (allowPath : bool) : jstr :=
  let raw := trim value in
  if negb (nonempty raw) then ""
  else
    let withScheme := if has_http_scheme raw then raw else (if allowPath then "https" else "http") +++ "://" +++ raw in
    match URL withScheme with
    | Some u =>
      if (jeq (protocol u) "https:" || negb allowPath && jeq (protocol u) "http:")
         && negb (nonempty (username u)) && negb (nonempty (password u)) && nonempty (hostname u)
         && negb (nonempty (search u)) && negb (nonempty (hash u))
      then
        let path := if allowPath && negb (jeq (pathname u) "/") then JS (drop_while_end (chr 47) (units (pathname u))) else "" in
        origin u +++ path
      else ""
    | None => ""
    end.
(** @frontend/src/utils/agentInstallCommand.ts:108-112 proxiedUrl *)
Definition proxiedUrl (url ghproxy : jstr) : jstr :=
  let proxy := normalizeProxyUrl ghproxy true in if nonempty proxy then proxy +++ "/" +++ url else url.
(** @frontend/src/utils/agentInstallCommand.ts:138-143 cfMonitorAgentBinaryUrl *)
Definition cfMonitorAgentBinaryUrl (platform : AgentInstallPlatform) (ghproxy : jstr) : jstr :=
  let file := match platform with Windows => "cf-vps-monitor-agent-windows-amd64.exe" | Unix => "cf-vps-monitor-agent-linux-amd64" end in
  proxiedUrl (CF_MONITOR_RELEASE_BASE +++ "/" +++ file) ghproxy.

(** The constant parts of the POSIX command. *)
Definition unix_opening : jstr :=
  "(set -eu; umask 077; d=$(mktemp -d " +++ dquote +++ "${TMPDIR:-/tmp}/cf-monitor-install.XXXXXX" +++ dquote
  +++ "); trap 'rm -f " +++ dquote +++ "$d/install.sh" +++ dquote +++ "; rmdir " +++ dquote +++ "$d" +++ dquote
  +++ "' 0; curl -fsSL --proto '=https' --proto-redir '=https' --retry 3".
Definition unix_file : jstr := dquote +++ "$d/install.sh" +++ dquote.
(** @frontend/src/utils/agentInstallCommand.ts:177-180 shellDownloadAndRun *)
Definition shellDownloadAndRun (url : jstr) (args : list jstr) (proxy : jstr) : jstr :=
  let proxyArg := if nonempty proxy then " --proxy " +++ shellQuote proxy else "" in
  unix_opening +++ proxyArg +++ " -o " +++ unix_file +++ " " +++ shellQuote url +++ "; test -s " +++ unix_file
  +++ "; sh " +++ unix_file +++ " " +++ join " " (map shellQuote args) +++ ")".

(** The constant parts of the PowerShell script. *)
Definition windows_opening : jstr :=
  "$ErrorActionPreference='Stop'; $d=Join-Path ([IO.Path]::GetTempPath()) ('cf-monitor-install-'+[Guid]::NewGuid().ToString('N')); $p=Join-Path $d 'install-windows.ps1'; try { $null=New-Item -ItemType Directory -Path $d; $u=[uri]".
Definition windows_loop : jstr :=
  "; for($i=0;$i -lt 10;$i++){ if($u.Scheme -ne 'https' -or $u.UserInfo){throw 'HTTPS download required'}; try { $r=Invoke-WebRequest -Uri $u -UseBasicParsing -OutFile $p -PassThru -MaximumRedirection 0 -ErrorAction Stop".
Definition windows_run : jstr :=
  " } catch { $r=$_.Exception.Response; if(!$r -or [int]$r.StatusCode -notin 301,302,303,307,308){throw} }; if([int]$r.StatusCode -in 301,302,303,307,308){ if(!$r.Headers.Location){throw 'Missing redirect location'}; $u=[uri]::new($u,[string]$r.Headers.Location); continue }; if([int]$r.StatusCode -ne 200){throw 'Download failed'}; break }; if($i -eq 10 -or !(Test-Path -LiteralPath $p -PathType Leaf) -or (Get-Item -LiteralPath $p).Length -eq 0){throw 'Incomplete download'}; $global:LASTEXITCODE=0; & $p ".
Definition windows_closing : jstr :=
  "; exit $LASTEXITCODE } catch { Write-Error 'Agent installer download or execution failed' -ErrorAction Continue; exit 1 } finally { Remove-Item -LiteralPath $p -Force -ErrorAction SilentlyContinue; Remove-Item -LiteralPath $d -Force -ErrorAction SilentlyContinue }".
(** @frontend/src/utils/agentInstallCommand.ts:182-185 powershellDownloadAndRun (script) *)
Definition windows_script (url args proxy : jstr) : jstr :=
  let proxyArg := if nonempty proxy then " -Proxy " +++ psQuote proxy else "" in
  windows_opening +++ psQuote url +++ windows_loop +++ proxyArg +++ windows_run +++ args +++ windows_closing.
(** @frontend/src/utils/agentInstallCommand.ts:182-185 powershellDownloadAndRun *)
Definition powershellDownloadAndRun (url args proxy : jstr) : jstr := powershellCommand (windows_script url args proxy).

(** [if (value) args.push(name, value)] *)
Definition opt_arg (name value : jstr) : list jstr := if nonempty value then [name; value] else [].
(** [args.map((arg, index) => index % 2 === 0 ? arg : psQuote(arg))] *)
Fixpoint quote_odd (index : nat) (args : list jstr) : list jstr :=
  match args with
  | [] => []
  | arg :: r => (if Nat.even index then arg else psQuote arg) :: quote_odd (S index) r
  end.

(** @frontend/src/utils/agentInstallCommand.ts:202-255 buildAgentInstallCommand
    (arguments of either platform) *)
Definition install_args (platform : AgentInstallPlatform) (serverUrl token : jstr) (o : AgentInstallOptions)
    (instanceId nodeName : option jstr) : list jstr :=
  let unix := match platform with Unix => true | Windows => false end in
  let ghproxy := normalizeProxyUrl (ghproxy o) true in
  let downloadProxy := normalizeProxyUrl (downloadProxy o) false in
  let '(binaryUrl, checksumUrl) := customAgentDownloadUrls (binaryUrl o) (checksumUrl o) in
  let releaseTag := normalizeReleaseTag (releaseTag o) in
  let installMode := if mem (installMode o) ["system"; "user"] then installMode o else "" in
  let effectiveInstanceId :=
    normalizeInstanceId (match instanceId with Some i => if nonempty i then Some i else nodeName | None => nodeName end) in
  let trafficResetDay := normalizeTrafficResetDay (trafficResetDay o) in
  let flag u w := if unix then u else w in
  ["-s"; serverUrl; "-t"; or_str token "<TOKEN>"]
  ++ (if negb (jeq trafficResetDay "1") then ["-r"; trafficResetDay] else [])
  ++ opt_arg "-n" (trimmed nodeName)
  ++ ["-i"; effectiveInstanceId]
  ++ (if unix then opt_arg "--install-mode" installMode else [])
  ++ opt_arg (flag "--binary-url" "-BinaryUrl") binaryUrl
  ++ opt_arg (flag "--checksum-url" "-ChecksumUrl") checksumUrl
  ++ (if negb (nonempty binaryUrl) then opt_arg (flag "--release-tag" "-ReleaseTag") releaseTag else [])
  ++ opt_arg (flag "--install-ghproxy" "-InstallGhproxy") ghproxy
  ++ opt_arg (flag "--proxy" "-Proxy") downloadProxy
  ++ opt_arg (flag "--install-dir" "-InstallDir") (trim (dir o))
  ++ opt_arg (flag "--service-name" "-ServiceName") (trim (serviceName o))
  ++ opt_arg (flag "--mount-include" "-MountInclude") (trim (mountInclude o))
  ++ opt_arg (flag "--mount-exclude" "-MountExclude") (trim (mountExclude o))
  ++ opt_arg (flag "--nic-include" "-NicInclude") (trim (nicInclude o))
  ++ opt_arg (flag "--nic-exclude" "-NicExclude") (trim (nicExclude o)).
(** @frontend/src/utils/agentInstallCommand.ts:187-259 buildAgentInstallCommand *)
Definition buildAgentInstallCommand (platform : AgentInstallPlatform) (serverUrl token : jstr) (o : AgentInstallOptions)
    (instanceId nodeName : option jstr) : jstr :=
  let args := install_args platform serverUrl token o instanceId nodeName in
  let downloadProxy := normalizeProxyUrl (downloadProxy o) false in
  let scriptRef := option_map trim (scriptRef o) in
  let url file := cfMonitorAgentScriptUrl file (Some (normalizeReleaseTag (releaseTag o))) scriptRef in
  match platform with
  | Unix => shellDownloadAndRun (url "install.sh") args downloadProxy
  | Windows => powershellDownloadAndRun (url "install-windows.ps1") (join " " (quote_odd 0 args)) downloadProxy
  end.
(** @frontend/src/utils/agentInstallCommand.ts:260-283 buildAgentUninstallAllCommand *)
Definition buildAgentUninstallAllCommand (platform : AgentInstallPlatform) (ghproxy : jstr) (scriptRef : option jstr) : jstr :=
  let proxy := normalizeProxyUrl ghproxy true in
  let scriptUrl file := cfMonitorAgentScriptUrl file (Some "") scriptRef in
  match platform with
  | Windows => powershellDownloadAndRun (scriptUrl "install-windows.ps1") "-UninstallAll -Yes" ""
  | Unix => shellDownloadAndRun (scriptUrl "install.sh")
              (["--uninstall-all"; "--yes"] ++ opt_arg "--install-ghproxy" proxy) ""
  end.
End Urls.

Example sample_command :
  buildAgentInstallCommand (λ _, None) Unix "https://panel.example" "t0k'en" defaultAgentInstallOptions (Some "Node 1") (Some "a b")
  = unix_opening +++ " -o " +++ unix_file +++ " 'https://raw.githubusercontent.com/kadidalax/cf-monitor-test/refs/heads/dev/agent/install.sh'; test -s "
    +++ unix_file +++ "; sh " +++ unix_file +++ " '-s' 'https://panel.example' '-t' 't0k'\''en' '-n' 'a b' '-i' 'node-1')".
Proof. vm_compute. reflexivity. Qed.

(** ** What a POSIX shell reads

    Token recognition (XCU 2.2, 2.3): blanks separate words; single quotes keep
    every character between them; double quotes keep all but expansions; a
    backslash keeps the next character; operators end a word.  Each character of a
    word carries how it was quoted: only bare and double-quoted ones are subject
    to expansion or word splitting. *)
Inductive piece := Bare (u : N) | Dquoted (u : N) | Literal (u : N).
Inductive token := Word (ps : list piece) | Op (u : N).
Inductive sh_mode := Plain | Escaped | Single | Double.
Record sh_state := { mode : sh_mode; cur : option (list piece); out : list token }.

Definition is_blank_unit (u : N) : bool := ((u =? 32) || (u =? 9))%N.
Definition is_operator (u : N) : bool := bool_decide (u ∈ [59; 38; 124; 60; 62; 40; 41; 10]%N).
Definition emit (cur : option (list piece)) (out : list token) : list token :=
  match cur with Some w => out ++ [Word w] | None => out end.
Definition push (st : sh_state) (m : sh_mode) (ps : list piece) : sh_state :=
  {| mode := m; cur := Some (default [] (cur st) ++ ps); out := out st |}.
Definition sh_step (st : sh_state) (u : N) : sh_state :=
  match mode st with
  | Single => if (u =? 39)%N then push st Plain [] else push st Single [Literal u]
  | Double => if (u =? 34)%N then push st Plain [] else push st Double [Dquoted u]
  | Escaped => push st Plain [Literal u]
  | Plain =>
    if (u =? 39)%N then push st Single []
    else if (u =? 34)%N then push st Double []
    else if (u =? 92)%N then push st Escaped []
    else if is_blank_unit u then {| mode := Plain; cur := None; out := emit (cur st) (out st) |}
    else if is_operator u then {| mode := Plain; cur := None; out := emit (cur st) (out st) ++ [Op u] |}
    else push st Plain [Bare u]
  end.
Definition sh_run (st : sh_state) (l : list N) : sh_state := fold_left sh_step l st.
Definition sh_start : sh_state := {| mode := Plain; cur := None; out := [] |}.
(** The tokens of a command; [None] when a quotation does not end. *)
Definition sh_read (command : jstr) : option (list token) :=
  let st := sh_run sh_start (units command) in
  match mode st with Plain => Some (emit (cur st) (out st)) | _ => None end.
(** A word no expansion applies to. *)
Definition literal (s : jstr) : token := Word (map Literal (units s)).
Definition bare (s : jstr) : token := Word (map Bare (units s)).
Definition dquoted (s : jstr) : token := Word (map Dquoted (units s)).

Lemma sh_run_app st a b : sh_run st (a ++ b) = sh_run (sh_run st a) b.
Proof. apply fold_left_app. Qed.

Lemma sh_run_single w o l rest :
  sh_run {| mode := Single; cur := Some w; out := o |} (replace_quotes [39; 92; 39; 39]%N l ++ 39%N :: rest)
  = sh_run {| mode := Plain; cur := Some (w ++ map Literal l); out := o |} rest.
Proof.
  revert w. induction l as [|u l IH]; intros w; cbn [replace_quotes flat_map map Datatypes.app]; [reflexivity |].
  assert (Hcons : w ++ Literal u :: map Literal l = (w ++ [Literal u]) ++ map Literal l) by (by rewrite <- (assoc_L (++))).
  rewrite Hcons, <- IH. destruct (u =? 39)%N eqn:E.
  - apply N.eqb_eq in E as ->. cbn. unfold push. cbn. by rewrite !app_nil_r.
  - cbn [Datatypes.app]. unfold sh_run at 1. cbn [fold_left]. unfold sh_step at 2. cbn [mode]. by rewrite E.
Qed.

(** A quoted value is one literal word, whatever it holds. *)
Lemma sh_run_quote st v :
  mode st = Plain → sh_run st (units (shellQuote v)) = push st Plain (map Literal (units v)).
Proof.
  intros Hm. unfold shellQuote. cbn [units]. rewrite sh_run_app. destruct st as [m c o]. cbn [mode] in Hm. subst m.
  change (sh_run {| mode := Plain; cur := c; out := o |} [39%N]) with {| mode := Single; cur := Some (default [] c ++ []); out := o |}.
  rewrite sh_run_single, app_nil_r. reflexivity.
Qed.

(** The quoted arguments, separated by spaces, are read back as they were. *)
Lemma sh_run_args arg args o :
  ∃ w, sh_run {| mode := Plain; cur := None; out := o |} (units (join " " (map shellQuote (arg :: args))))
       = {| mode := Plain; cur := Some w; out := o ++ removelast (map literal (arg :: args)) |}
       ∧ map literal (arg :: args) = removelast (map literal (arg :: args)) ++ [Word w].
Proof.
  revert arg o. induction args as [|a args IH]; intros arg o.
  - exists (map Literal (units arg)). cbn [map join removelast]. rewrite sh_run_quote by done. cbn. by rewrite app_nil_r.
  - destruct (IH a (o ++ [literal arg])) as (w & Hw & Hl). exists w. split.
    + change (units (join " " (map shellQuote (arg :: a :: args))))
        with (units (shellQuote arg) ++ [32%N] ++ units (join " " (map shellQuote (a :: args)))).
      rewrite !sh_run_app, sh_run_quote by done.
      change (sh_run (push {| mode := Plain; cur := None; out := o |} Plain (map Literal (units arg))) [32%N])
        with {| mode := Plain; cur := None; out := o ++ [literal arg] |}.
      rewrite Hw. f_equal. rewrite <- (assoc_L (++)). reflexivity.
    + change (literal arg :: map literal (a :: args) = literal arg :: removelast (map literal (a :: args)) ++ [Word w]). by rewrite <- Hl.
Qed.

(** The tokens before the proxy option: they are the same in every command. *)
Definition opening_tokens : list token := default [] (sh_read unix_opening).
(** The command a POSIX shell sees. *)
Definition unix_tokens (url : jstr) (args : list jstr) (proxy : jstr) : list token :=
  opening_tokens
  ++ (if nonempty proxy then [bare "--proxy"; literal proxy] else [])
  ++ [bare "-o"; dquoted "$d/install.sh"; literal url; Op 59; bare "test"; bare "-s"; dquoted "$d/install.sh"; Op 59;
      bare "sh"; dquoted "$d/install.sh"] ++ map literal args ++ [Op 41].

Lemma sh_run_proxy proxy c o :
  sh_run {| mode := Plain; cur := Some c; out := o |} (units (if nonempty proxy then " --proxy " +++ shellQuote proxy else ""))
  = (if nonempty proxy then {| mode := Plain; cur := Some (map Literal (units proxy)); out := o ++ [Word c; bare "--proxy"] |}
     else {| mode := Plain; cur := Some c; out := o |}).
Proof.
  destruct (nonempty proxy); [| reflexivity].
  change (units (" --proxy " +++ shellQuote proxy)) with (units " --proxy " ++ units (shellQuote proxy)). rewrite sh_run_app.
  change (sh_run {| mode := Plain; cur := Some c; out := o |} (units " --proxy "))
    with {| mode := Plain; cur := None; out := (o ++ [Word c]) ++ [bare "--proxy"] |}.
  rewrite sh_run_quote by done. unfold push. cbn [cur out mode default Datatypes.app]. f_equal. by rewrite <- (assoc_L (++)).
Qed.

Lemma opening_read :
  sh_run sh_start (units unix_opening) = {| mode := Plain; cur := Some (map Bare (units "3")); out := removelast opening_tokens |}
  ∧ opening_tokens = removelast opening_tokens ++ [bare "3"].
Proof. split; vm_compute; reflexivity. Qed.

Lemma unix_read url arg args proxy :
  sh_read (shellDownloadAndRun url (arg :: args) proxy) = Some (unix_tokens url (arg :: args) proxy).
Proof.
  unfold shellDownloadAndRun, sh_read.
  set (px := if nonempty proxy then _ else _).
  change (units (unix_opening +++ px +++ " -o " +++ unix_file +++ " " +++ shellQuote url +++ "; test -s " +++ unix_file
                 +++ "; sh " +++ unix_file +++ " " +++ join " " (map shellQuote (arg :: args)) +++ ")"))
    with (units unix_opening ++ units px ++ units (" -o " +++ unix_file +++ " ") ++ units (shellQuote url)
          ++ units ("; test -s " +++ unix_file +++ "; sh " +++ unix_file +++ " ")
          ++ units (join " " (map shellQuote (arg :: args))) ++ [41%N]).
  destruct opening_read as [Hopen Hlast]. rewrite !sh_run_app, Hopen. set (o0 := removelast opening_tokens) in *. clearbody o0.
  unfold px. rewrite sh_run_proxy.
  set (st := if nonempty proxy then _ else _).
  assert (Hst : ∃ w, mode st = Plain ∧ cur st = Some w
                ∧ out st ++ [Word w] = opening_tokens ++ (if nonempty proxy then [bare "--proxy"; literal proxy] else [])).
  { unfold st. destruct (nonempty proxy); eexists; (split; [done |]); (split; [done |]); cbn [out]; rewrite Hlast, <- ?(assoc_L (++)); reflexivity. }
  clearbody st. destruct Hst as (w & Hm & Hc & Ho). destruct st as [m c o]. cbn [mode cur out] in *. subst m c.
  change (sh_run {| mode := Plain; cur := Some w; out := o |} (units (" -o " +++ unix_file +++ " ")))
    with {| mode := Plain; cur := None; out := ((o ++ [Word w]) ++ [bare "-o"]) ++ [dquoted "$d/install.sh"] |}.
  rewrite Ho, sh_run_quote by done. set (o1 := opening_tokens ++ _).
  unfold push. cbn [cur out mode default Datatypes.app].
  change (sh_run {| mode := Plain; cur := Some (map Literal (units url)); out := (o1 ++ [bare "-o"]) ++ [dquoted "$d/install.sh"] |}
            (units ("; test -s " +++ unix_file +++ "; sh " +++ unix_file +++ " ")))
    with {| mode := Plain; cur := None;
            out := (((((((((o1 ++ [bare "-o"]) ++ [dquoted "$d/install.sh"]) ++ [literal url]) ++ [Op 59]) ++ [bare "test"]) ++ [bare "-s"])
                   ++ [dquoted "$d/install.sh"]) ++ [Op 59]) ++ [bare "sh"]) ++ [dquoted "$d/install.sh"] |}.
  set (o2 := (_ ++ [bare "sh"]) ++ _).
  destruct (sh_run_args arg args o2) as (w' & Hw & Hl).
  rewrite Hw. cbn. f_equal. unfold unix_tokens. rewrite Hl. unfold o2, o1. rewrite <- !(assoc_L (++)). reflexivity.
Qed.

(** ** What PowerShell reads

    In a list of arguments, blanks separate words; any of the four single quotation
    marks PowerShell knows, the straight one and three typographic ones, opens and
    closes a verbatim string, in which two in a row stand for one. *)
Inductive ps_mode := PPlain | PSingle | PClosing.
Record ps_state := { p_mode : ps_mode; p_cur : option (list piece); p_out : list token }.
Definition is_ps_quote (u : N) : bool := bool_decide (u ∈ [39; 8216; 8217; 8218; 8219]%N).
Definition is_ps_operator (u : N) : bool := bool_decide (u ∈ [59; 124; 38; 40; 41; 123; 125; 44; 10; 13]%N).
Definition p_push (st : ps_state) (m : ps_mode) (ps : list piece) : ps_state :=
  {| p_mode := m; p_cur := Some (default [] (p_cur st) ++ ps); p_out := p_out st |}.
Definition ps_plain_step (st : ps_state) (u : N) : ps_state :=
  if is_ps_quote u then p_push st PSingle []
  else if is_blank_unit u then {| p_mode := PPlain; p_cur := None; p_out := emit (p_cur st) (p_out st) |}
  else if is_ps_operator u then {| p_mode := PPlain; p_cur := None; p_out := emit (p_cur st) (p_out st) ++ [Op u] |}
  else p_push st PPlain [Bare u].
Definition ps_step (st : ps_state) (u : N) : ps_state :=
  match p_mode st with
  | PPlain => ps_plain_step st u
  | PSingle => if is_ps_quote u then p_push st PClosing [] else p_push st PSingle [Literal u]
  | PClosing => if is_ps_quote u then p_push st PSingle [Literal u] else ps_plain_step st u
  end.
Definition ps_run (st : ps_state) (l : list N) : ps_state := fold_left ps_step l st.
Definition ps_start : ps_state := {| p_mode := PPlain; p_cur := None; p_out := [] |}.
Definition ps_read (args : jstr) : option (list token) :=
  let st := ps_run ps_start (units args) in
  match p_mode st with PSingle => None | _ => Some (emit (p_cur st) (p_out st)) end.

(** No typographic quotation mark. *)
Definition straight (s : jstr) : bool := forallb (λ u, (u =? 39)%N || negb (is_ps_quote u)) (units s).
(** A parameter name. *)
Definition is_name (s : jstr) : bool :=
  nonempty s && forallb (λ u, negb (is_ps_quote u || is_blank_unit u || is_ps_operator u)) (units s).
(** Names at the even places. *)
Fixpoint named (args : list jstr) : bool :=
  match args with [] => true | [_] => false | n :: _ :: r => is_name n && named r end.
(** What PowerShell should read: names, and values verbatim. *)
Fixpoint ps_words (args : list jstr) : list token :=
  match args with n :: v :: r => bare n :: literal v :: ps_words r | _ => [] end.

Lemma ps_run_app st a b : ps_run st (a ++ b) = ps_run (ps_run st a) b.
Proof. apply fold_left_app. Qed.

Lemma ps_run_bare m w o l :
  m ≠ PSingle → forallb (λ u, negb (is_ps_quote u || is_blank_unit u || is_ps_operator u)) l = true →
  l ≠ [] → ps_run {| p_mode := m; p_cur := w; p_out := o |} l = {| p_mode := PPlain; p_cur := Some (default [] w ++ map Bare l); p_out := o |}.
Proof.
  intros Hm Hl Hne. revert m w Hm Hne. induction l as [|u l IH]; intros m w Hm Hne; [done |].
  cbn [forallb] in Hl. apply andb_true_iff in Hl as [Hu Hl]. apply negb_true_iff, orb_false_iff in Hu as [[Hq Hb]%orb_false_iff Ho].
  assert (Hs : ps_step {| p_mode := m; p_cur := w; p_out := o |} u = {| p_mode := PPlain; p_cur := Some (default [] w ++ [Bare u]); p_out := o |}).
  { unfold ps_step, ps_plain_step. cbn [p_mode p_cur p_out]. destruct m; [| done |]; by rewrite ?Hq, ?Hb, ?Ho. }
  change (ps_run (ps_step {| p_mode := m; p_cur := w; p_out := o |} u) l
          = {| p_mode := PPlain; p_cur := Some (default [] w ++ map Bare (u :: l)); p_out := o |}).
  rewrite Hs. destruct l as [|v l]; [done |]. rewrite IH; [| done..]. cbn. by rewrite <- (assoc_L (++)).
Qed.

Lemma ps_run_single w o l :
  forallb (λ u, (u =? 39)%N || negb (is_ps_quote u)) l = true →
  ps_run {| p_mode := PSingle; p_cur := Some w; p_out := o |} (replace_quotes [39; 39]%N l ++ [39%N])
  = {| p_mode := PClosing; p_cur := Some (w ++ map Literal l); p_out := o |}.
Proof.
  intros Hl. revert w. induction l as [|u l IH]; intros w; [reflexivity |].
  cbn [forallb] in Hl. apply andb_true_iff in Hl as [Hu Hl]. specialize (IH Hl (w ++ [Literal u])).
  assert (Hcons : w ++ Literal u :: map Literal l = (w ++ [Literal u]) ++ map Literal l) by (by rewrite <- (assoc_L (++))).
  cbn [map]. rewrite Hcons, <- IH.
  cbn [replace_quotes flat_map]. destruct (u =? 39)%N eqn:E.
  - apply N.eqb_eq in E as ->. rewrite <- (assoc_L (++)), ps_run_app.
    change (ps_run {| p_mode := PSingle; p_cur := Some w; p_out := o |} [39; 39]%N)
      with {| p_mode := PSingle; p_cur := Some ((w ++ []) ++ [Literal 39]); p_out := o |}. by rewrite app_nil_r.
  - cbn [Datatypes.app orb] in *. apply negb_true_iff in Hu. unfold ps_run at 1. cbn [fold_left].
    unfold ps_step at 2. cbn [p_mode]. by rewrite Hu.
Qed.

Lemma ps_run_quote st v :
  p_mode st = PPlain → straight v = true → ps_run st (units (psQuote v)) = p_push st PClosing (map Literal (units v)).
Proof.
  intros Hm Hv. destruct st as [m c o]. cbn [p_mode] in Hm. subst m. unfold psQuote. cbn [units]. rewrite ps_run_app.
  change (ps_run {| p_mode := PPlain; p_cur := c; p_out := o |} [39%N]) with {| p_mode := PSingle; p_cur := Some (default [] c ++ []); p_out := o |}.
  rewrite app_nil_r. by apply ps_run_single.
Qed.

(** Induction on a list two elements at a time. *)
Lemma list_ind2 {A} (P : list A → Prop) : P [] → (∀ x, P [x]) → (∀ x y l, P l → P (x :: y :: l)) → ∀ l, P l.
Proof. intros H0 H1 H2. fix IH 1. intros [|x [|y l]]; [done | apply H1 | apply H2, IH]. Qed.

(** The words of a list of pairs, read one after the other. *)
Lemma ps_run_pairs args o :
  named args = true → Nat.even (length args) = true → forallb straight args = true → args ≠ [] →
  ∃ w, ps_run {| p_mode := PPlain; p_cur := None; p_out := o |} (units (join " " (quote_odd 0 args)))
       = {| p_mode := PClosing; p_cur := Some w; p_out := o ++ removelast (ps_words args) |}
       ∧ ps_words args = removelast (ps_words args) ++ [Word w].
Proof.
  revert o. induction args as [| |n v args IH] using list_ind2; intros o Hn Hlen Hs Hne; [done | done |].
  cbn [named forallb] in Hn, Hs. apply andb_true_iff in Hn as [Hname Hn]. apply andb_true_iff in Hs as [_ [Hv Hs]%andb_true_iff].
  unfold is_name in Hname. apply andb_true_iff in Hname as [Hnn Hname].
  assert (Hq : ∀ l, quote_odd 2 l = quote_odd 0 l).
  { intros l. enough (∀ k, quote_odd (S (S k)) l = quote_odd k l) by done. induction l as [|x l IHl]; intros k; [done |].
    cbn [quote_odd]. by rewrite IHl. }
  assert (Hhead : ∀ rest, ps_run {| p_mode := PPlain; p_cur := None; p_out := o |} (units n ++ [32%N] ++ units (psQuote v) ++ rest)
            = ps_run {| p_mode := PClosing; p_cur := Some (map Literal (units v)); p_out := o ++ [bare n] |} rest).
  { intros rest. rewrite !ps_run_app, ps_run_bare; [| done | done | intros E; destruct n as [l]; cbn in E; by subst l].
    change (ps_run {| p_mode := PPlain; p_cur := Some (map Bare (units n)); p_out := o |} [32%N])
      with {| p_mode := PPlain; p_cur := None; p_out := o ++ [bare n] |}. by rewrite ps_run_quote. }
  destruct args as [|a args].
  - exists (map Literal (units v)). cbn [quote_odd join Nat.even ps_words removelast]. split; [| done].
    change (units (n +++ " " +++ psQuote v)) with (units n ++ [32%N] ++ units (psQuote v)).
    rewrite <- (app_nil_r (units (psQuote v))). by rewrite Hhead.
  - destruct (IH ((o ++ [bare n]) ++ [literal v])) as (w & Hw & Hl); [done.. |]. exists w.
    change (quote_odd 0 (n :: v :: a :: args)) with (n :: psQuote v :: quote_odd 2 (a :: args)). rewrite Hq.
    change (units (join " " (n :: psQuote v :: quote_odd 0 (a :: args))))
      with (units n ++ [32%N] ++ units (psQuote v) ++ [32%N] ++ units (join " " (quote_odd 0 (a :: args)))).
    rewrite Hhead, ps_run_app.
    change (ps_run {| p_mode := PClosing; p_cur := Some (map Literal (units v)); p_out := o ++ [bare n] |} [32%N])
      with {| p_mode := PPlain; p_cur := None; p_out := (o ++ [bare n]) ++ [literal v] |}.
    rewrite Hw. destruct (ps_words (a :: args)) as [|t ts] eqn:Et; [by destruct args |].
    change (ps_words (n :: v :: a :: args)) with (bare n :: literal v :: ps_words (a :: args)). rewrite Et.
    change (removelast (bare n :: literal v :: t :: ts)) with ([bare n] ++ [literal v] ++ removelast (t :: ts)).
    split; [f_equal; by rewrite <- !(assoc_L (++)) | rewrite <- !(assoc_L (++)), <- Hl; reflexivity].
Qed.

Lemma ps_read_args args :
  named args = true → Nat.even (length args) = true → forallb straight args = true → args ≠ [] →
  ps_read (join " " (quote_odd 0 args)) = Some (ps_words args).
Proof.
  intros Hn Hl Hs Hne. destruct (ps_run_pairs args [] Hn Hl Hs Hne) as (w & Hw & He). unfold ps_read, ps_start.
  rewrite Hw. cbn [p_mode p_cur p_out emit]. by rewrite He at 2.
Qed.

(** *** The encoded script *)

(** The text of UTF-16LE bytes. *)
Fixpoint utf16le_units (bytes : list Z) : list N :=
  match bytes with lo :: hi :: r => Z.to_N (lo + 256 * hi) :: utf16le_units r | _ => [] end.
Lemma utf16le_roundtrip s : Forall is_unit (units s) → Forall is_byte (utf16le s) ∧ utf16le_units (utf16le s) = units s.
Proof.
  intros Hs. unfold utf16le. induction Hs as [|u l Hu _ [IH1 IH2]]; [done |].
  assert (Hlo : Z.land (Z.of_N u) 255 = Z.of_N u mod 256) by (change 255 with (Z.ones 8); by rewrite Z.land_ones by lia).
  assert (Hhi : Z.shiftr (Z.of_N u) 8 = Z.of_N u / 256) by (by rewrite Z.shiftr_div_pow2 by lia).
  cbn [flat_map Datatypes.app utf16le_units]. rewrite Hlo, Hhi, IH2. unfold is_unit in Hu. split.
  - constructor; [| constructor; [| done]]; unfold is_byte; [apply Z.mod_pos_bound; lia |].
    split; [apply Z.div_pos; lia | apply Z.div_lt_upper_bound; lia].
  - f_equal. pose proof (Z.div_mod (Z.of_N u) 256). lia.
Qed.

(** *** The arguments of an installation *)

Lemma named_app a b : named a = true → Nat.even (length a) = true → named b = true → named (a ++ b) = true.
Proof.
  induction a as [| |n v a IH] using list_ind2; [done | done |]. cbn [named Datatypes.app length Nat.even].
  intros [-> Ha]%andb_true_iff Hl Hb. by apply IH.
Qed.
Lemma even_app {A} (a b : list A) : Nat.even (length a) = true → Nat.even (length b) = true → Nat.even (length (a ++ b)) = true.
Proof. intros Ha Hb. rewrite length_app, Nat.even_add, Ha, Hb. done. Qed.
Lemma opt_arg_named name value : is_name name = true → named (opt_arg name value) = true ∧ Nat.even (length (opt_arg name value)) = true.
Proof. intros Hn. unfold opt_arg. destruct (nonempty value); [cbn; by rewrite Hn |]. done. Qed.

Lemma install_args_named URL platform serverUrl token o instanceId nodeName :
  let args := install_args URL platform serverUrl token o instanceId nodeName in
  named args = true ∧ Nat.even (length args) = true ∧ ∃ r, args = ["-s"; serverUrl; "-t"; or_str token "<TOKEN>"] ++ r.
Proof.
  cbv zeta. unfold install_args. destruct (customAgentDownloadUrls _ _ _) as [b c].
  assert (Happ : ∀ a r : list jstr, named a = true ∧ Nat.even (length a) = true → named r = true ∧ Nat.even (length r) = true →
            named (a ++ r) = true ∧ Nat.even (length (a ++ r)) = true).
  { intros a r [Ha1 Ha2] [Hr1 Hr2]. split; [by apply named_app | by apply even_app]. }
  match goal with |- named (?h ++ ?r) = true ∧ _ => enough (H : named (h ++ r) = true ∧ Nat.even (length (h ++ r)) = true) end.
  { destruct H as [H1 H2]. split; [done |]. split; [done | by eexists]. }
  destruct platform; repeat apply Happ;
    repeat match goal with |- context [if ?b then _ else _] => destruct b end;
    first [apply opt_arg_named; vm_compute; reflexivity | done].
Qed.

(** *** Where the installer comes from *)

(** The characters of a tag: no slash, so it is one path segment. *)
Definition plus_unit (u : N) : bool := tag_unit u || (u =? 43)%N.

(** A release of the repository, or a file of its branch or of one of its
    revisions. *)
Definition official_url (file url : jstr) : Prop :=
  (∃ tag, is_release_tag tag = true ∧ forallb plus_unit (units tag) = true
          ∧ url = "https://github.com/kadidalax/cf-monitor-test/releases/download/" +++ tag +++ "/" +++ file)
  ∨ (∃ ref, (ref = "refs/heads/dev" ∨ (7 ≤ slen ref ≤ 40 ∧ all_units is_hex_lower ref = true))
            ∧ url = "https://raw.githubusercontent.com/kadidalax/cf-monitor-test/" +++ ref +++ "/agent/" +++ file).

Lemma take_drop_while {A} (f : A → bool) l : l = take_while f l ++ drop_while f l ∧ forallb f (take_while f l) = true.
Proof. induction l as [|x l [IH1 IH2]]; [done |]. cbn. destruct (f x) eqn:E; [| done]. cbn. by rewrite E, <- IH1. Qed.

Lemma digits_plus l : forallb is_digit l = true → forallb plus_unit l = true.
Proof. rewrite !forallb_forall. intros H x Hx. unfold plus_unit, tag_unit, is_alnum. by rewrite (H x Hx), orb_true_r. Qed.
Lemma digits_dot_units l r : digits_dot l = Some r → forallb plus_unit r = true → forallb plus_unit l = true.
Proof.
  unfold digits_dot. destruct (take_drop_while is_digit l) as [Hl Hd]. apply digits_plus in Hd.
  intros Hr Hp. rewrite Hl, forallb_app, Hd. cbn [andb]. revert Hr Hp.
  destruct (take_while is_digit l); [done |]. destruct (drop_while is_digit l) as [|c r']; [done |].
  destruct (decide (c = 46%N)) as [-> | Hc]; [intros [= ->] Hr; cbn; exact Hr |].
  intros H. exfalso. revert H. clear - Hc. destruct c as [|p]; [done |]. do 6 (destruct p; try done).
Qed.
Lemma release_tag_units s : is_release_tag s = true → forallb plus_unit (units s) = true.
Proof.
  unfold is_release_tag. destruct (units s) as [|c l]; [done |].
  destruct (decide (c = 118%N)) as [-> | Hc].
  2:{ intros H. exfalso. revert H. clear - Hc. destruct c as [|p]; [done |]. do 7 (destruct p; try done). }
  destruct (digits_dot l) as [l1|] eqn:E1; [| done]. destruct (digits_dot l1) as [l2|] eqn:E2; [| done]. intros H.
  change (forallb plus_unit (118%N :: l)) with (forallb plus_unit l).
  apply (digits_dot_units _ _ E1), (digits_dot_units _ _ E2). destruct (take_drop_while is_digit l2) as [Hl Hd]. apply digits_plus in Hd.
  rewrite Hl, forallb_app, Hd. destruct (take_while is_digit l2); [done |]. destruct (drop_while is_digit l2) as [|c r]; [done |].
  apply andb_true_iff in H as [[Hc _]%andb_true_iff Hr]. cbn [andb forallb].
  apply orb_true_iff in Hc as [->%N.eqb_eq | ->%N.eqb_eq]; (apply andb_true_iff; split; [done |]);
    rewrite forallb_forall in *; intros x Hx; unfold plus_unit; by rewrite (Hr x Hx).
Qed.

(** Lower case of hexadecimal text: checked on every ASCII code unit. *)
Lemma hex_lower_unit u : is_hex u = true → ∃ v, lower_unit u = [v] ∧ is_hex_lower v = true.
Proof.
  intros Hu. assert (Hlt : (u < 128)%N).
  { unfold is_hex, is_hex_lower, is_digit in Hu. rewrite !orb_true_iff, !andb_true_iff, !N.leb_le in Hu. lia. }
  assert (Hall : forallb (λ u, implb (is_hex u) match lower_unit u with [v] => is_hex_lower v | _ => false end) (map N.of_nat (seq 0 128)) = true)
    by (vm_compute; reflexivity).
  rewrite forallb_forall in Hall. specialize (Hall u). rewrite Hu in Hall. cbn [implb] in Hall.
  assert (Hin : In u (map N.of_nat (seq 0 128))) by (apply in_map_iff; exists (N.to_nat u); split; [lia | apply in_seq; lia]).
  specialize (Hall Hin). destruct (lower_unit u) as [|v [|]]; [done | by exists v | done].
Qed.
Lemma lower_hex s : all_units is_hex s = true → slen (lower s) = slen s ∧ all_units is_hex_lower (lower s) = true.
Proof.
  unfold all_units, slen, lower. cbn [units]. induction (units s) as [|u l IH]; [done |]. intros [Hu Hl]%andb_true_iff.
  destruct (hex_lower_unit u Hu) as (v & Hv & Hx). destruct (IH Hl) as [H1 H2]. cbn [flat_map]. rewrite Hv. cbn [Datatypes.app forallb length].
  rewrite Hx, H2. split; [lia | done].
Qed.

Lemma script_ref_official ref :
  normalizeScriptRef ref = "refs/heads/dev"
  ∨ (7 ≤ slen (normalizeScriptRef ref) ≤ 40 ∧ all_units is_hex_lower (normalizeScriptRef ref) = true).
Proof.
  unfold normalizeScriptRef. destruct ref as [r|]; [| by left]. unfold is_revision.
  destruct (all_units is_hex (trim r) && (7 <=? slen (trim r)) && (slen (trim r) <=? 40)) eqn:E; [| by left]. right.
  apply andb_true_iff in E as [[Hh H7%Z.leb_le]%andb_true_iff H40%Z.leb_le]. destruct (lower_hex _ Hh) as [-> ->]. done.
Qed.
Lemma str_app_assoc a b c : (a +++ b) +++ c = a +++ b +++ c.
Proof. unfold app. cbn [units]. by rewrite (assoc_L (++)). Qed.
Lemma script_url_official file tag ref : official_url file (cfMonitorAgentScriptUrl file tag ref).
Proof.
  unfold cfMonitorAgentScriptUrl, normalizeReleaseTag.
  destruct (is_release_tag (trimmed tag)) eqn:Et.
  - destruct (nonempty (trimmed tag)) eqn:En; [| apply nonempty_false in En; by rewrite En in Et].
    left. exists (trimmed tag). split; [done |]. split; [by apply release_tag_units |]. by rewrite !str_app_assoc.
  - right. exists (normalizeScriptRef ref). split; [apply script_ref_official |]. change (nonempty "") with false. cbv iota.
    by rewrite !str_app_assoc.
Qed.

(** ** Properties *)

(** C38: whatever the token, the node's name and the options hold, the command the
    panel shows runs the installer with exactly the intended arguments.  The POSIX
    command is read as one fixed sequence of commands in which the download address,
    the proxy and every argument are single words no expansion applies to.  The
    PowerShell command decodes to its script, whose argument list is read as the
    parameter names with their values verbatim, provided no value has a typographic
    quotation mark.  The script always comes from the repository: a release tag, or
    the branch or a revision. *)
Theorem install_command_arguments (URL : jstr → option url) (serverUrl token : jstr) (o : AgentInstallOptions) (instanceId nodeName : option jstr) :
  let args p := install_args URL p serverUrl token o instanceId nodeName in
  let proxy := normalizeProxyUrl URL (downloadProxy o) false in
  let argtext := join " " (quote_odd 0 (args Windows)) in
  (∀ p, ∃ r, args p = ["-s"; serverUrl; "-t"; or_str token "<TOKEN>"] ++ r)
  ∧ (∃ url, official_url "install.sh" url
            ∧ sh_read (buildAgentInstallCommand URL Unix serverUrl token o instanceId nodeName) = Some (unix_tokens url (args Unix) proxy))
  ∧ (∃ url bytes, official_url "install-windows.ps1" url
       ∧ buildAgentInstallCommand URL Windows serverUrl token o instanceId nodeName
         = "powershell.exe -NoProfile -ExecutionPolicy Bypass -EncodedCommand " +++ JS (btoa bytes)
       ∧ (Forall is_unit (units (windows_script url argtext proxy)) →
          atob (btoa bytes) = Some bytes ∧ utf16le_units bytes = units (windows_script url argtext proxy)))
  ∧ (forallb straight (args Windows) = true → ps_read argtext = Some (ps_words (args Windows))).
Proof.
  cbv zeta. assert (Hargs : ∀ p, ∃ r, install_args URL p serverUrl token o instanceId nodeName = ["-s"; serverUrl; "-t"; or_str token "<TOKEN>"] ++ r)
    by (intros p; apply install_args_named).
  split; [exact Hargs |]. split; [| split].
  - eexists. split; [apply script_url_official |]. unfold buildAgentInstallCommand.
    destruct (Hargs Unix) as [r ->]. apply unix_read.
  - eexists _, _. split; [apply script_url_official |]. split; [reflexivity |]. intros Hu.
    destruct (utf16le_roundtrip _ Hu) as [H1 H2]. split; [by apply atob_btoa | exact H2].
  - intros Hs. destruct (install_args_named URL Windows serverUrl token o instanceId nodeName) as (H1 & H2 & r & Hr).
    apply ps_read_args; [done.. |]. by rewrite Hr.
Qed.

(** A hostile name stays one word in a shell. *)
Lemma install_command_arguments_witness :
  let name := "x'; rm -rf $HOME #" in
  let args := install_args (λ _, None) Windows "https://panel.example" "" defaultAgentInstallOptions (Some "a") (Some name) in
  args = ["-s"; "https://panel.example"; "-t"; "<TOKEN>"; "-n"; name; "-i"; "a"]
  ∧ ps_read (join " " (quote_odd 0 args))
    = Some [bare "-s"; literal "https://panel.example"; bare "-t"; literal "<TOKEN>"; bare "-n"; literal name; bare "-i"; literal "a"].
Proof.
  cbv zeta. split; [vm_compute; reflexivity |].
  destruct (install_command_arguments (λ _, None) "https://panel.example" "" defaultAgentInstallOptions (Some "a") (Some "x'; rm -rf $HOME #"))
    as (_ & _ & _ & H).
  rewrite H by (vm_compute; reflexivity). vm_compute. reflexivity.
Defined.

(** The proviso is needed: a typographic quotation mark in a name ends the string,
    and what follows is read as a command. *)
Lemma typographic_quote_escapes :
  let name := "a" +++ JS [8217%N] +++ ";calc;" +++ JS [8216%N] in
  ps_read (join " " (quote_odd 0 ["-n"; name; "-i"; "b"]))
  = Some [bare "-n"; literal "a"; Op 59; bare "calc"; Op 59; Word []; bare "-i"; literal "b"].
Proof. vm_compute. reflexivity. Qed.
