(* ===== verification/History.v ===== *)
(** * History on the public pages: [frontend/src/utils/publicHistory.ts]

    The history of a node is read page by page, from the newest record back.  The
    server chooses what a page holds and where the next one starts; the reader
    only follows cursors that go strictly back in time, stops at the start of the
    range, and merges the pages into one sorted list without repetitions. *)

From S2P Require Import Prelude JsStr JsNum JsVal JsList.
#[local] Open Scope Z_scope.

(** @frontend/src/utils/publicHistory.ts:1-6 HistoryIdentity *)
Record HistoryIdentity := { time : jstr; id : option jstr; device_index : option Z; device_ordinal : option Z }.
(** @frontend/src/utils/publicHistory.ts:8-33 PublicMonitorRecord -- and
    PublicGpuRecord: the fields apart from the identity *)
Record history_record := { identity : HistoryIdentity; metrics : fields }.

(** @frontend/src/utils/publicHistory.ts:42-46 listItems *)
Definition listItems (payload : jsval) : list jsval :=
  match payload with
  | JArr l => l
  | _ => match fld (as_object payload) "data" with JArr l => l | _ => [] end
  end.

(** [/^[1-9]\d*$/] *)
Definition is_positive_text (s : jstr) : bool :=
  match units s with u :: r => is_digit u && negb (u =? 48)%N && forallb is_digit r | [] => false end.
(** @frontend/src/utils/publicHistory.ts:53-56 normalizeHistoryRecordId *)
Definition normalizeHistoryRecordId (value : jsval) : option jstr :=
  match value with
  | JStr s => if is_positive_text s then Some s else None
  | JNum n => if is_safe_integer n && num_lt (of_Z 0) n then Some (num_str n) else None
  | _ => None
  end.

(** [(?:Z|[+-]\d{2}(?::?\d{2})?)$], in either letter case *)
Definition is_zone (l : list N) : bool :=
  match l with
  | [z] => ((z =? 90) || (z =? 122))%N
  | s :: a :: b :: r =>
    ((s =? 43) || (s =? 45))%N && is_digit a && is_digit b
    && match r with
       | [] => true
       | [c; d] => is_digit c && is_digit d
       | [k; c; d] => (k =? 58)%N && is_digit c && is_digit d
       | _ => false
       end
  | _ => false
  end.
(** [value.match(/\.(\d+)(?:Z|[+-]\d{2}(?::?\d{2})?)$/i)?.[1] || ''] *)
Fixpoint fraction (l : list N) : list N :=
  match l with
  | [] => []
  | u :: r =>
    if (u =? 46)%N && negb (bool_decide (take_while is_digit r = [])) && is_zone (drop_while is_digit r)
    then take_while is_digit r else fraction r
  end.
(** [BigInt(text)] of decimal digits *)
Definition big_int (s : jstr) : Z := digits_val 10 digit_val (units s).

Section History.
(** [Date.parse], [None] for [NaN] *)
Context (date_parse : jstr → option Z).

(** @frontend/src/utils/publicHistory.ts:48-51 timeField *)
Definition timeField (record : fields) : option jstr :=
  match fld record "time" with
  | JStr value => match date_parse value with Some _ => Some value | None => None end
  | _ => None
  end.
(** @frontend/src/utils/publicHistory.ts:58-63 preciseHistoryTime *)
Definition preciseHistoryTime (value : jstr) : option Z :=
  match date_parse value with
  | None => None
  | Some milliseconds =>
    let padded := let f := fraction (units value) in f ++ replicate (6 - length f) 48%N in
    Some (milliseconds * 1000 + digits_val 10 digit_val (take 3 (drop 3 padded)))
  end.

(** @frontend/src/utils/publicHistory.ts:65-74 parseHistoryCursor (result) *)
Record position := { p_time : Z; p_key : option (Z * Z) }.
(** @frontend/src/utils/publicHistory.ts:65-74 parseHistoryCursor *)
Definition parseHistoryCursor (value : jstr) : option position :=
  match split_on (chr 124) value with
  | [_] => match preciseHistoryTime value with Some t => Some {| p_time := t; p_key := None |} | None => None end
  | [version; text; id; ordinal] =>
    if negb (jeq version "v1") || negb (is_positive_text id) || negb (all_units1 is_digit ordinal) then None
    else match preciseHistoryTime text with
         | Some t => Some {| p_time := t; p_key := Some (big_int id, big_int ordinal) |}
         | None => None
         end
  | _ => None
  end.

(** [record.device_ordinal ?? record.device_index] *)
Definition device (r : HistoryIdentity) : option Z :=
  match device_ordinal r with Some o => Some o | None => device_index r end.
(** @frontend/src/utils/publicHistory.ts:76-78 recordIdentity *)
Definition recordIdentity (r : HistoryIdentity) : jstr :=
  match preciseHistoryTime (time r) with Some t => dec_Z t | None => "null" end
  +++ "|" +++ default "" (id r) +++ "|" +++ match device r with Some d => dec_Z d | None => "" end.
(** @frontend/src/utils/publicHistory.ts:80-88 compareHistoryRecords *)
Definition compareHistoryRecords (a b : HistoryIdentity) : Z :=
  let aTime := default 0 (preciseHistoryTime (time a)) in
  let bTime := default 0 (preciseHistoryTime (time b)) in
  if negb (aTime =? bTime) then (if aTime <? bTime then -1 else 1)
  else
    let aId := big_int (match id a with Some i => or_str i "0" | None => "0" end) in
    let bId := big_int (match id b with Some i => or_str i "0" | None => "0" end) in
    if negb (aId =? bId) then (if aId <? bId then -1 else 1)
    else default 0 (device a) - default 0 (device b).

(** @frontend/src/utils/publicHistory.ts:94-96 historyCursorFromRecord *)
Definition historyCursorFromRecord (r : HistoryIdentity) : jstr :=
  match id r with
  | Some i => if nonempty i then "v1|" +++ time r +++ "|" +++ i +++ "|" +++ dec_Z (default 0 (device_ordinal r)) else time r
  | None => time r
  end.

(** ** Records *)

(** @frontend/src/utils/publicHistory.ts:98-102 numberField *)
Definition numberField (record : fields) (key : jstr) : option num :=
  match fld record key with
  | JUndef => Some (of_Z 0)
  | JNum n => if is_finite n then Some n else None
  | _ => None
  end.
(** @frontend/src/utils/publicHistory.ts:104-106 allNumbers *)
Fixpoint allNumbers (values : list (jstr * option num)) : option fields :=
  match values with
  | [] => Some []
  | (k, Some n) :: r => match allNumbers r with Some fs => Some ((k, JNum n) :: fs) | None => None end
  | (_, None) :: _ => None
  end.
(** @frontend/src/utils/publicHistory.ts:108-111 optionalMetric *)
Definition optionalMetric (record : fields) (key : jstr) : jsval :=
  match fld record key with JNum n => if is_finite n && num_le (of_Z 0) n then JNum n else JNull | _ => JNull end.
(** @frontend/src/utils/publicHistory.ts:114-119 nullableNumberField -- [None] is
    the source's [undefined] *)
Definition nullableNumberField (record : fields) (key : jstr) : option jsval :=
  match fld record key with
  | JUndef => Some (JNum (of_Z 0))
  | JNull => Some JNull
  | JNum n => if is_finite n then Some (JNum n) else None
  | _ => None
  end.
Fixpoint all_present (values : list (jstr * option jsval)) : option fields :=
  match values with
  | [] => Some []
  | (k, Some v) :: r => match all_present r with Some fs => Some ((k, v) :: fs) | None => None end
  | (_, None) :: _ => None
  end.
Definition NULLABLE_METRICS : list jstr :=
  ["cpu"; "ram"; "ram_total"; "swap"; "swap_total"; "net_in"; "net_out"; "net_total_up"; "net_total_down"].
Definition COUNT_METRICS : list jstr := ["process_count"; "connections"; "connections_udp"].
(** @frontend/src/utils/publicHistory.ts:121-162 normalizePublicMonitorRecord *)
Definition normalizePublicMonitorRecord (payload : jsval) : option history_record :=
  if negb (is_object payload) then None
  else
    let record := as_object payload in
    match timeField record with
    | None => None
    | Some time =>
      match nullableNumberField record "load" with
      | None => None
      | Some load =>
        let temp := match fld record "temp" with JNum n => if is_finite n then JNum n else JNull | _ => JNull end in
        match all_present (map (λ k, (k, nullableNumberField record k)) NULLABLE_METRICS) with
        | None => None
        | Some metrics =>
          match allNumbers (map (λ k, (k, numberField record k)) COUNT_METRICS) with
          | None => None
          | Some values =>
            Some {| identity := {| time := time; id := normalizeHistoryRecordId (fld record "id"); device_index := None; device_ordinal := None |};
                    metrics := metrics ++ [("disk", optionalMetric record "disk"); ("disk_total", optionalMetric record "disk_total");
                                           ("load", load); ("temp", temp)]
                               ++ values ++ [("uptime", optionalMetric record "uptime")] |}
          end
        end
      end
    end.
(** @frontend/src/utils/publicHistory.ts:164-169 normalizePublicMonitorRecords *)
Definition normalizePublicMonitorRecords (payload : jsval) : list history_record := omap normalizePublicMonitorRecord (listItems payload).

(** A device number above [min]. *)
Definition device_field (record : fields) (key : jstr) (min : Z) : option Z :=
  match fld record key with
  | JNum n => match num_Z n with Some z => if (Z.abs z <=? max_safe) && (min <=? z) then Some z else None | None => None end
  | _ => None
  end.
Definition GPU_METRICS : list jstr := ["utilization"; "mem_total"; "mem_used"; "temperature"].
(** @frontend/src/utils/publicHistory.ts:171-194 normalizePublicGpuRecord *)
Definition normalizePublicGpuRecord (payload : jsval) : option history_record :=
  if negb (is_object payload) then None
  else
    let record := as_object payload in
    match timeField record with
    | None => None
    | Some time =>
      match allNumbers (map (λ k, (k, numberField record k)) GPU_METRICS) with
      | None => None
      | Some values =>
        Some {| identity := {| time := time; id := normalizeHistoryRecordId (fld record "id");
                               device_index := device_field record "device_index" 0; device_ordinal := device_field record "device_ordinal" 1 |};
                metrics := values |}
      end
    end.
(** @frontend/src/utils/publicHistory.ts:196-201 normalizePublicGpuRecords *)
Definition normalizePublicGpuRecords (payload : jsval) : list history_record := omap normalizePublicGpuRecord (listItems payload).

(** ** Pages *)

Section Pages.
Context {T : Type} (ident : T → HistoryIdentity) (normalize : jsval → list T).
(** The [n]-th request, for a cursor: the parsed response, [None] when it throws. *)
Context (fetchPage : nat → jstr → option jsval).
(** [signal.aborted] before and after the [n]-th request. *)
Context (aborted : nat → bool).

Inductive failure := RangeInvalid | CursorInvalid | FormatInvalid | TooMany | Aborted | Rejected.

Definition record_key (r : T) : jstr := recordIdentity (ident r).
Definition compare_records (a b : T) : Z := compareHistoryRecords (ident a) (ident b).
(** @frontend/src/utils/publicHistory.ts:90-92 mergeHistoryRecords *)
Definition mergeHistoryRecords (records : list T) : list T :=
  stable_sort compare_records (map snd (fold_left (set_by record_key) records [])).

(** The record's time lies in the range. *)
Definition in_range (start end_ : Z) (r : T) : bool :=
  match preciseHistoryTime (time (ident r)) with Some at_ => (start <=? at_) && (at_ <=? end_) | None => false end.
(** The next cursor goes back. *)
Definition advances (position next : position) : bool :=
  (p_time next <? p_time position)
  || (p_time next =? p_time position)
     && match p_key next with
        | None => false
        | Some (nid, nord) =>
          match p_key position with
          | None => true
          | Some (pid, pord) => (nid <? pid) || (nid =? pid) && (nord <? pord)
          end
        end.
Definition next_cursor (envelope : fields) : jstr :=
  match fld envelope "next_cursor_key" with
  | JStr s => s
  | _ => match fld envelope "next_cursor" with JStr s => s | _ => "" end
  end.
Definition is_array (v : jsval) : bool := match v with JArr _ => true | _ => false end.

(** @frontend/src/utils/publicHistory.ts:223-246 collectCursorHistory (loop) --
    with the cursors it asks for *)
Fixpoint collect_pages (fuel page : nat) (start end_ : Z) (cursor : jstr) (position : position) (records : list (jstr * T))
  : result failure (list T) * list jstr :=
  match fuel with
  | O => (Err TooMany, [])
  | S fuel =>
    if aborted (2 * page) then (Err Aborted, [])
    else match fetchPage page cursor with
    | None => (Err Rejected, [cursor])
    | Some payload =>
      if aborted (2 * page + 1) then (Err Aborted, [cursor])
      else
        let envelope := as_object payload in
        if negb (is_array payload) && negb (is_array (fld envelope "data")) then (Err FormatInvalid, [cursor])
        else
          let records := fold_left (set_by record_key) (List.filter (in_range start end_) (normalize payload)) records in
          let result := stable_sort compare_records (map snd records) in
          if negb (is_bool (fld envelope "has_more") true) then (Ok result, [cursor])
          else
            let next := next_cursor envelope in
            match parseHistoryCursor next with
            | None => (Err CursorInvalid, [cursor])
            | Some nextPosition =>
              if negb (advances position nextPosition) then (Err CursorInvalid, [cursor])
              else if p_time nextPosition <? start then (Ok result, [cursor])
              else
                let '(outcome, asked) := collect_pages fuel (S page) start end_ next nextPosition records in
                (outcome, cursor :: asked)
            end
    end
  end.

(** [Math.min(32, Math.max(1, options.maxPages ?? 32))], as the number of turns of
    the loop *)
Definition page_limit (maxPages : option num) : nat :=
  match num_min (of_Z 32) (num_max (of_Z 1) (default (of_Z 32) maxPages)) with Fin q => Z.to_nat (Qceiling q) | _ => 0%nat end.
(** @frontend/src/utils/publicHistory.ts:203-247 collectCursorHistory *)
Definition collectCursorHistory (cursor start : jstr) (end_ : option jstr) (maxPages : option num) : result failure (list T) * list jstr :=
  let start := preciseHistoryTime start in
  let end_ := option_map p_time (parseHistoryCursor (match end_ with Some e => or_str e cursor | None => cursor end)) in
  match start, end_ with
  | Some start, Some end_ =>
    if end_ <? start then (Err RangeInvalid, [])
    else match parseHistoryCursor cursor with
    | None => (Err CursorInvalid, [])
    | Some position => collect_pages (page_limit maxPages) 0 start end_ cursor position []
    end
  | _, _ => (Err RangeInvalid, [])
  end.

(** ** Facts *)

(** *** Cursors *)

Lemma advances_spec p q :
  advances p q = true
  ↔ p_time q < p_time p
    ∨ p_time q = p_time p ∧ match p_key q, p_key p with
                            | Some _, None => True
                            | Some (a, b), Some (c, d) => a < c ∨ a = c ∧ b < d
                            | None, _ => False
                            end.
Proof.
  unfold advances. rewrite orb_true_iff, andb_true_iff, Z.ltb_lt, Z.eqb_eq.
  destruct (p_key q) as [[a b]|]; [destruct (p_key p) as [[c d]|] |]; [| naive_solver | naive_solver].
  by rewrite orb_true_iff, andb_true_iff, !Z.ltb_lt, Z.eqb_eq.
Qed.
Lemma advances_trans p q r : advances p q = true → advances q r = true → advances p r = true.
Proof.
  rewrite !advances_spec. destruct (p_key p) as [[? ?]|], (p_key q) as [[? ?]|], (p_key r) as [[? ?]|]; intuition lia.
Qed.
Lemma advances_irrefl p : advances p p = false.
Proof. apply not_true_iff_false. rewrite advances_spec. destruct (p_key p) as [[? ?]|]; intuition lia. Qed.

(** [b] is strictly before [a] in the history. *)
Definition goes_back (a b : jstr) : Prop :=
  ∃ p q, parseHistoryCursor a = Some p ∧ parseHistoryCursor b = Some q ∧ advances p q = true.
Lemma goes_back_trans a b c : goes_back a b → goes_back b c → goes_back a c.
Proof.
  intros (p & q & Ha & Hb & Hpq) (q' & r & Hb' & Hc & Hqr). exists p, r. split; [done |]. split; [done |].
  assert (q = q') as -> by congruence. by apply (advances_trans p q').
Qed.
Lemma goes_back_nodup l : StronglySorted goes_back l → NoDup l.
Proof.
  induction 1 as [|a l _ IH Hall]; constructor; [| done]. intros Hin. rewrite Forall_forall in Hall.
  destruct (Hall a Hin) as (p & q & Hp & Hq & Hpq). assert (p = q) as -> by congruence. by rewrite advances_irrefl in Hpq.
Qed.

(** *** The order of the records *)

Lemma compare_records_anti x y : 0 < compare_records x y → compare_records y x ≤ 0.
Proof.
  unfold compare_records, compareHistoryRecords. generalize (default 0 (preciseHistoryTime (time (ident x)))) (default 0 (preciseHistoryTime (time (ident y)))).
  intros tx ty. generalize (big_int (match id (ident x) with Some i => or_str i "0" | None => "0" end))
                           (big_int (match id (ident y) with Some i => or_str i "0" | None => "0" end)).
  intros ix iy. destruct (tx =? ty) eqn:E1, (ty =? tx) eqn:E2, (ix =? iy) eqn:E3, (iy =? ix) eqn:E4; cbn [negb]; break_goal; zlia.
Qed.
Lemma compare_records_trans x y z : compare_records x y ≤ 0 → compare_records y z ≤ 0 → compare_records x z ≤ 0.
Proof.
  unfold compare_records, compareHistoryRecords.
  generalize (default 0 (preciseHistoryTime (time (ident x)))) (default 0 (preciseHistoryTime (time (ident y)))) (default 0 (preciseHistoryTime (time (ident z)))).
  intros tx ty tz. generalize (big_int (match id (ident x) with Some i => or_str i "0" | None => "0" end))
                              (big_int (match id (ident y) with Some i => or_str i "0" | None => "0" end))
                              (big_int (match id (ident z) with Some i => or_str i "0" | None => "0" end)).
  intros ix iy iz. destruct (tx =? ty) eqn:E1, (ty =? tz) eqn:E2, (tx =? tz) eqn:E3; cbn [negb]; zify_bool; try lia;
    destruct (ix =? iy) eqn:E4, (iy =? iz) eqn:E5, (ix =? iz) eqn:E6; cbn [negb]; break_goal; zlia.
Qed.

(** *** The records *)

Lemma fold_set_by l m :
  well_keyed record_key m →
  let m' := fold_left (set_by record_key) l m in
  well_keyed record_key m' ∧ (∀ p, p ∈ m' → p ∈ m ∨ p.2 ∈ l) ∧ (∀ k, k ∈ map fst m → k ∈ map fst m') ∧ (∀ x, x ∈ l → record_key x ∈ map fst m').
Proof.
  cbv zeta. revert m. induction l as [|x l IH]; intros m Hm; cbn [fold_left].
  { split; [done |]. split; [by left |]. split; [done | by intros x ?%not_elem_of_nil]. }
  destruct (IH (set_by record_key m x) (set_by_well_keyed _ _ _ Hm)) as (H1 & H2 & H3 & H4). split; [done |].
  assert (Hk : ∀ k, k ∈ map fst (set_by record_key m x) ↔ k ∈ map fst m ∨ k = record_key x).
  { intros k. unfold set_by. rewrite set_field_keys. destruct (mem (record_key x) (map fst m)) eqn:E.
    - apply mem_spec in E. split; [by left | intros [H | ->]; done].
    - rewrite elem_of_app, list_elem_of_singleton. done. }
  split; [| split].
  - intros p Hp. destruct (H2 p Hp) as [Hp' | Hp']; [| by right; right].
    apply set_field_elem in Hp' as [-> | Hp']; [right; left | by left].
  - intros k Hin. apply H3, Hk. by left.
  - intros y [-> | Hy]%elem_of_cons; [apply H3, Hk; by right | by apply H4].
Qed.

(** The pages asked for: at most as many as allowed, each strictly before the one
    before it. *)
Lemma collect_pages_asked fuel page start end_ cursor position records outcome asked :
  collect_pages fuel page start end_ cursor position records = (outcome, asked) → parseHistoryCursor cursor = Some position →
  (length asked ≤ fuel)%nat ∧ StronglySorted goes_back asked ∧ (asked = [] ∨ ∃ rest, asked = cursor :: rest).
Proof.
  revert page cursor position records outcome asked.
  induction fuel as [|fuel IH]; intros page cursor position records outcome asked; cbn [collect_pages].
  { intros [= <- <-] _. split; [done |]. split; [constructor | by left]. }
  intros H Hc. assert (Hone : ∀ o : result failure (list T), (o, [cursor]) = (outcome, asked) →
    (length asked ≤ S fuel)%nat ∧ StronglySorted goes_back asked ∧ (asked = [] ∨ ∃ rest, asked = cursor :: rest)).
  { intros o [= <- <-]. split; [cbn; lia |]. split; [repeat constructor | right; by exists []]. }
  destruct (aborted (2 * page)); [injection H as <- <-; split; [cbn; lia |]; split; [constructor | by left] |].
  destruct (fetchPage page cursor) as [payload|]; [| by eapply Hone].
  destruct (aborted (2 * page + 1)); [by eapply Hone |]. destruct (_ && _); [by eapply Hone |]. destruct (negb (is_bool _ _)); [by eapply Hone |].
  destruct (parseHistoryCursor (next_cursor (as_object payload))) as [next|] eqn:En; [| by eapply Hone].
  destruct (advances position next) eqn:Ea; cbn [negb] in H; [| by eapply Hone]. destruct (p_time next <? start); [by eapply Hone |].
  destruct (collect_pages fuel (S page) start end_ _ next _) as [o l] eqn:Er. injection H as <- <-.
  destruct (IH _ _ _ _ _ _ Er En) as (H1 & H2 & H3). split; [cbn; lia |]. split; [| right; by exists l].
  constructor; [done |]. destruct H3 as [-> | [rest ->]]; [constructor |].
  assert (Hg : goes_back cursor (next_cursor (as_object payload))) by (by exists position, next).
  constructor; [done |]. apply StronglySorted_inv in H2 as [_ H2]. eapply Forall_impl; [exact H2 |]. intros x Hx. by eapply goes_back_trans.
Qed.

(** Where a collected record comes from, and that none is lost: [m] holds, by their
    identities, the records in range of the pages asked from [page] on, besides
    those of [m0]. *)
Definition collected (start end_ : Z) (page : nat) (asked : list jstr) (m0 m : list (jstr * T)) : Prop :=
  well_keyed record_key m
  ∧ (∀ p, p ∈ m → p ∈ m0 ∨ in_range start end_ p.2 = true
                  ∧ ∃ i c payload, asked !! i = Some c ∧ fetchPage (page + i) c = Some payload ∧ p.2 ∈ normalize payload)
  ∧ (∀ k, k ∈ map fst m0 → k ∈ map fst m)
  ∧ (∀ i c payload r, asked !! i = Some c → fetchPage (page + i) c = Some payload → r ∈ normalize payload →
       in_range start end_ r = true → record_key r ∈ map fst m).

Lemma elem_of_List_filter {A} (f : A → bool) x l : x ∈ List.filter f l ↔ x ∈ l ∧ f x = true.
Proof. rewrite !list_elem_of_In. apply filter_In. Qed.

(** One page. *)
Lemma collected_page start end_ page cursor payload m0 :
  fetchPage page cursor = Some payload → well_keyed record_key m0 →
  collected start end_ page [cursor] m0 (fold_left (set_by record_key) (List.filter (in_range start end_) (normalize payload)) m0).
Proof.
  intros Hf Hm. destruct (fold_set_by (List.filter (in_range start end_) (normalize payload)) m0 Hm) as (H1 & H2 & H3 & H4).
  split; [done |]. split; [| split; [done |]].
  - intros p Hp. destruct (H2 p Hp) as [Hp' | Hp']; [by left | right]. apply elem_of_List_filter in Hp' as [Hn Hr]. split; [done |].
    exists 0%nat, cursor, payload. rewrite Nat.add_0_r. done.
  - intros [|i] c payload' r Hc Hp Hr Hin; [| done]. injection Hc as <-. rewrite Nat.add_0_r in Hp.
    assert (payload' = payload) as -> by congruence. apply H4, elem_of_List_filter. done.
Qed.

(** The following pages. *)
Lemma collected_next start end_ page cursor rest m0 m1 m :
  collected start end_ page [cursor] m0 m1 → collected start end_ (S page) rest m1 m → collected start end_ page (cursor :: rest) m0 m.
Proof.
  intros (_ & A2 & A3 & A4) (B1 & B2 & B3 & B4). split; [done |]. split; [| split].
  - intros p Hp. destruct (B2 p Hp) as [Hp1 | (Hr & i & c & payload & Hi & Hf & Hn)].
    + destruct (A2 p Hp1) as [Hp0 | (Hr & i & c & payload & Hi & Hf & Hn)]; [by left | right]. split; [done |].
      destruct i as [|i]; [| done]. by exists 0%nat, c, payload.
    + right. split; [done |]. exists (S i), c, payload. rewrite Nat.add_succ_r. done.
  - intros k Hk. by apply B3, A3.
  - intros [|i] c payload r Hi Hf Hn Hr; [apply B3; by apply (A4 0%nat c payload) |].
    apply (B4 i c payload); [done | by rewrite Nat.add_succ_comm | done | done].
Qed.

Lemma collect_pages_records fuel page start end_ cursor position records result asked :
  collect_pages fuel page start end_ cursor position records = (Ok result, asked) → well_keyed record_key records →
  ∃ m, collected start end_ page asked records m ∧ result = stable_sort compare_records (map snd m).
Proof.
  revert page cursor position records asked.
  induction fuel as [|fuel IH]; intros page cursor position records asked; cbn [collect_pages]; [done |].
  intros H Hm. destruct (aborted (2 * page)); [done |]. destruct (fetchPage page cursor) as [payload|] eqn:Ef; [| done].
  destruct (aborted (2 * page + 1)); [done |]. destruct (_ && _); [done |].
  pose proof (collected_page start end_ page cursor payload records Ef Hm) as Hone.
  destruct (negb (is_bool _ _)); [injection H as <- <-; by eexists |].
  destruct (parseHistoryCursor _) as [next|]; [| done]. destruct (negb (advances position next)); [done |].
  destruct (p_time next <? start); [injection H as <- <-; by eexists |].
  destruct (collect_pages fuel (S page) start end_ _ next _) as [o l] eqn:Er. injection H as -> <-.
  destruct (IH _ _ _ _ _ Er (proj1 Hone)) as (m & Hm' & ->). exists m. split; [by eapply collected_next | done].
Qed.

Lemma page_limit_32 maxPages : (page_limit maxPages ≤ 32)%nat.
Proof.
  unfold page_limit. set (m := num_max _ _). unfold num_min. destruct (is_nan (of_Z 32) || is_nan m); [apply Nat.le_0_l |].
  destruct (num_lt m (of_Z 32)) eqn:E; [| done]. destruct m as [| |q]; [apply Nat.le_0_l.. |].
  cbn in E. apply Qlt_bool_lt in E. assert (H : Qceiling q ≤ 32); [| lia].
  rewrite <- (Qceiling_Z 32). apply Qceiling_resp_le. by apply Qlt_le_weak.
Qed.
End Pages.

(** The cursor of a record is the place of the record. *)
Lemma cursor_of_record r i t :
  id r = Some i → is_positive_text i = true → forallb (λ u, negb (chr 124 u)) (units (time r)) = true → preciseHistoryTime (time r) = Some t →
  0 ≤ default 0 (device_ordinal r) →
  parseHistoryCursor (historyCursorFromRecord r) = Some {| p_time := t; p_key := Some (big_int i, default 0 (device_ordinal r)) |}.
Proof.
  intros Hi Hpos Htime Ht Ho. set (o := default 0 (device_ordinal r)) in *.
  assert (Hdig : ∀ l, forallb is_digit l = true → forallb (λ u, negb (chr 124 u)) l = true).
  { intros l. rewrite !forallb_forall. intros H u Hu. specialize (H u Hu). unfold is_digit in H. unfold chr.
    apply andb_true_iff in H as [_ H%N.leb_le]. apply negb_true_iff, N.eqb_neq. lia. }
  assert (Hid : forallb is_digit (units i) = true ∧ nonempty i = true).
  { unfold is_positive_text in Hpos. destruct i as [[|u l]]; [done |]. cbn [units forallb] in *. apply andb_true_iff in Hpos as [[Hu _]%andb_true_iff Hl].
    by rewrite Hu, Hl. }
  destruct Hid as [Hid Hne]. destruct (dec_nat_spec o Ho) as (Hd2 & Hd1 & Hd3).
  assert (Hdec : dec_Z o = JS (dec_nat o)) by (unfold dec_Z; by rewrite (proj2 (Z.ltb_ge o 0) Ho)).
  assert (Hc : historyCursorFromRecord r = join (JS [124%N]) ["v1"; time r; i; dec_Z o]).
  { unfold historyCursorFromRecord. rewrite Hi, Hne. reflexivity. }
  unfold parseHistoryCursor. rewrite Hc, split_join; [| done | done |].
  2:{ intros x Hx. list_cases Hx; [done | done | by apply Hdig | rewrite Hdec; by apply Hdig]. }
  rewrite Hpos. assert (Hall : all_units1 is_digit (dec_Z o) = true).
  { rewrite Hdec. unfold all_units1, all_units. cbn [units]. rewrite Hd1, andb_true_r. apply nonempty_true. intros [= E]. done. }
  rewrite Hall, Ht. cbn [negb orb]. unfold big_int. rewrite Hdec. cbn [units]. by rewrite Hd2.
Qed.

End History.

(** ** Property *)

(** C40: whatever the server answers, reading a history ends: at most 32 pages are
    asked for, each cursor strictly before the one before it, so none twice.  A
    history that is returned is sorted, has no two records of one identity, has only
    records of the asked pages whose time lies in the range, and has every such
    record, up to a later one of the same identity. *)
Theorem history_pages (date_parse : jstr → option Z) {T : Type} (ident : T → HistoryIdentity) (normalize : jsval → list T)
    (fetchPage : nat → jstr → option jsval) (aborted : nat → bool) (cursor start : jstr) (end_ : option jstr) (maxPages : option num) :
  let '(outcome, asked) := collectCursorHistory date_parse ident normalize fetchPage aborted cursor start end_ maxPages in
  (length asked ≤ 32)%nat ∧ StronglySorted (goes_back date_parse) asked ∧ NoDup asked
  ∧ ∀ records, outcome = Ok records →
      ∃ s e, preciseHistoryTime date_parse start = Some s
        ∧ option_map p_time (parseHistoryCursor date_parse (match end_ with Some e => or_str e cursor | None => cursor end)) = Some e
        ∧ StronglySorted (in_order (compare_records date_parse ident)) records
        ∧ NoDup (map (record_key date_parse ident) records)
        ∧ (∀ r, r ∈ records → in_range date_parse ident s e r = true
             ∧ ∃ i c payload, asked !! i = Some c ∧ fetchPage i c = Some payload ∧ r ∈ normalize payload)
        ∧ (∀ i c payload r, asked !! i = Some c → fetchPage i c = Some payload → r ∈ normalize payload →
             in_range date_parse ident s e r = true → record_key date_parse ident r ∈ map (record_key date_parse ident) records).
Proof.
  unfold collectCursorHistory. set (stop := option_map p_time (parseHistoryCursor date_parse _)).
  assert (Hfail : ∀ (e : failure) (P : list T → Prop), let '(outcome, asked) := (Err e : result failure (list T), @nil jstr) in
    (length asked ≤ 32)%nat ∧ StronglySorted (goes_back date_parse) asked ∧ NoDup asked ∧ ∀ records, outcome = Ok records → P records).
  { intros e P. split; [apply Nat.le_0_l |]. split; [constructor |]. split; [constructor | done]. }
  destruct (preciseHistoryTime date_parse start) as [s|]; [| apply Hfail]. destruct stop as [e|]; [| apply Hfail].
  destruct (e <? s); [apply Hfail |]. destruct (parseHistoryCursor date_parse cursor) as [position|] eqn:Ec; [| apply Hfail].
  destruct (collect_pages _ _ _ _ _ _ _ _ _ _ _ _) as [outcome asked] eqn:Er.
  destruct (collect_pages_asked _ _ _ _ _ _ _ _ _ _ _ _ _ _ Er Ec) as (H1 & H2 & _).
  split; [etransitivity; [exact H1 | apply page_limit_32] |]. split; [done |]. split; [by eapply goes_back_nodup |].
  intros records ->. exists s, e. split; [done |]. split; [done |].
  destruct (collect_pages_records _ _ _ _ _ _ _ _ _ _ _ _ _ _ Er) as (m & (Hk & Hsrc & _ & Hall) & ->).
  { split; [constructor | by intros p ?%not_elem_of_nil]. }
  pose proof (stable_sort_perm (compare_records date_parse ident) (map snd m)) as Hp.
  split; [| split; [| split]].
  - apply stable_sort_sorted; [apply compare_records_anti | apply compare_records_trans].
  - rewrite Hp. by apply well_keyed_nodup.
  - intros r Hr. rewrite Hp in Hr. apply list_elem_of_fmap in Hr as ([k x] & -> & Hin).
    destruct (Hsrc _ Hin) as [?%not_elem_of_nil | H]; [done | exact H].
  - intros i c payload r Hi Hf Hn Hr. specialize (Hall i c payload r Hi Hf Hn Hr). rewrite Hp.
    apply list_elem_of_fmap in Hall as ([k x] & Heq & Hin). cbn in Heq. apply list_elem_of_fmap.
    exists x. split; [rewrite Heq; exact (proj2 Hk (k, x) Hin) | apply list_elem_of_fmap; by exists (k, x)].
Qed.

(** Two pages, the second answer repeating a record; a third cursor that does not go
    back is refused. *)
Definition digits_time (s : jstr) : option Z := if all_units1 is_digit s then Some (digits_val 10 digit_val (units s)) else None.
Lemma history_pages_witness :
  let point t := JObj [("time", JStr t)] in
  let ident v := {| time := match fld (as_object v) "time" with JStr t => t | _ => "" end; id := None; device_index := None; device_ordinal := None |} in
  let serve (last : jsval) (n : nat) (_ : jstr) :=
    Some (match n with
          | O => JObj [("data", JArr [point "30"; point "20"]); ("has_more", JBool true); ("next_cursor", JStr "20")]
          | _ => JObj [("data", JArr [point "20"; point "10"; point "5"]); ("has_more", last); ("next_cursor", JStr "20")]
          end) in
  let run last := collectCursorHistory digits_time ident listItems (serve last) (λ _, false) "30" "10" None None in
  run (JBool false) = (Ok [point "10"; point "20"; point "30"], ["30"; "20"])
  ∧ run (JBool true) = (Err CursorInvalid, ["30"; "20"])
  ∧ NoDup (run (JBool false)).2.
Proof.
  intros point ident serve run. split; [vm_compute; reflexivity |]. split; [vm_compute; reflexivity |].
  pose proof (history_pages digits_time ident listItems (serve (JBool false)) (λ _, false) "30" "10" None None) as H.
  fold (run (JBool false)) in H. destruct (run (JBool false)) as [outcome asked]. cbn [snd]. exact (proj1 (proj2 (proj2 H))).
Defined.
