(* ===== verification/Theme.v ===== *)
(** * Theme packages: [worker/src/utils/theme-package.ts]

    A theme is a ZIP archive with a manifest, style sheets and images.  The archive
    library is not the repository's: what it reports of the directory, and what it
    delivers for each chunk pushed, are parameters, and nothing is assumed of them.
    The checks are what keeps a hostile archive within its bounds. *)

From S2P Require Import Prelude JsStr JsNum JsVal JsList JsBytes Net.
#[local] Open Scope Z_scope.

(** @worker/src/utils/theme-package.ts:3-3 ThemeConfigItemType *)
Inductive ThemeConfigItemType := Title | Switch | Select | Number | String | Richtext | Color | Image | Range.
#[global] Instance item_type_eq_dec : EqDecision ThemeConfigItemType.
Proof. solve_decision. Defined.
Definition type_name (t : ThemeConfigItemType) : jstr :=
  match t with
  | Title => "title" | Switch => "switch" | Select => "select" | Number => "number" | String => "string"
  | Richtext => "richtext" | Color => "color" | Image => "image" | Range => "range"
  end.
(** @worker/src/utils/theme-package.ts:69-69 CONFIG_TYPES *)
Definition CONFIG_TYPES : list ThemeConfigItemType := [Title; Switch; Select; Number; String; Richtext; Color; Image; Range].
Definition read_type (v : jsval) : option ThemeConfigItemType :=
  match v with JStr s => List.find (λ t, jeq (type_name t) s) CONFIG_TYPES | _ => None end.
(** @worker/src/utils/theme-package.ts:5-15 ThemeConfigItem *)
Record ThemeConfigItem := {
  ci_type : ThemeConfigItemType; ci_key : option jstr; ci_name : jstr; ci_help : jstr; ci_options : jstr;
  ci_min : option num; ci_max : option num; ci_step : option num; ci_default : jsval
}.
(** @worker/src/utils/theme-package.ts:17-30 ThemeManifest -- [configuration.data] is
    [data] *)
Record ThemeManifest := {
  name : jstr; short : jstr; description : jstr; version : jstr; author : jstr; url_ : jstr; preview : jstr; style : jstr;
  data : list ThemeConfigItem
}.
(** @worker/src/utils/theme-package.ts:32-44 ThemeRecordInput *)
Record ThemeRecordInput := {
  tr_short : jstr; tr_name : jstr; tr_description : jstr; tr_version : jstr; tr_author : jstr; tr_url : jstr;
  preview_path : jstr; style_path : jstr; manifest_json : jstr; config_json : jstr; custom_css : jstr
}.
(** @worker/src/utils/theme-package.ts:46-51 ThemeAssetInput *)
Record ThemeAssetInput := { as_path : jstr; content_type : jstr; content_base64 : jstr; size_bytes : Z }.

(** @worker/src/utils/theme-package.ts:58-68 MAX_ZIP_BYTES (and the other limits) *)
Definition MAX_ZIP_BYTES : Z := 2 * 1024 * 1024.
Definition MAX_CSS_BYTES : Z := 256 * 1024.
Definition MAX_IMAGE_BYTES : Z := 512 * 1024.
Definition MAX_ASSETS : nat := 32.
Definition MAX_MANIFEST_BYTES : Z := 64 * 1024.
Definition MAX_UNZIPPED_BYTES : Z := 32 * MAX_IMAGE_BYTES + MAX_MANIFEST_BYTES.
Definition MAX_ZIP_ENTRIES : nat := 128.
Definition ZIP_INPUT_CHUNK_BYTES : nat := 256.
Definition MAX_CUSTOM_CSS_BYTES : nat := Z.to_nat (64 * 1024).
Definition ALLOWED_EXTENSIONS : list jstr := [".css"; ".png"; ".jpg"; ".jpeg"; ".webp"; ".svg"; ".json"; ".woff2"].
Definition FORBIDDEN_EXTENSIONS : list jstr := [".js"; ".html"; ".htm"; ".wasm"; ".woff"; ".ttf"; ".otf"; ".eot"].
Definition MANIFEST_FILE : jstr := "cf-monitor-theme.json".

(** ** Paths *)

(** [path.trim().replace(/^\.\/+/, '')] *)
Definition strip_dot_slash (s : jstr) : jstr :=
  match units s with 46%N :: 47%N :: r => JS (drop_while (chr 47) r) | _ => s end.
(** @worker/src/utils/theme-package.ts:75-87 normalizeThemePath (checks) *)
Definition is_theme_path (normalized : jstr) : bool :=
  nonempty normalized && negb (starts_with "/" normalized) && negb (includes "\" normalized)
  && negb (existsb (λ part, negb (nonempty part) || jeq part "." || jeq part "..") (split_on (chr 47) normalized)).
(** @worker/src/utils/theme-package.ts:75-87 normalizeThemePath *)
Definition normalizeThemePath (path : jsval) : result jstr jstr :=
  match path with
  | JStr path =>
    let normalized := strip_dot_slash (trim path) in
    if is_theme_path normalized then Ok normalized else Err ("invalid theme path: " +++ path)
  | _ => Err "theme path must be a string"
  end.
(** @worker/src/utils/theme-package.ts:89-92 extensionOf *)
Definition extensionOf (path : jstr) : jstr :=
  let r := rev (units path) in
  if existsb (chr 46) r then lower (JS (46%N :: rev (take_while (λ u, negb (chr 46 u)) r))) else "".
(** @worker/src/utils/theme-package.ts:94-104 contentTypeFor *)
Definition contentTypeFor (path : jstr) : jstr :=
  let ext := extensionOf path in
  if jeq ext ".css" then "text/css; charset=utf-8"
  else if jeq ext ".svg" then "image/svg+xml"
  else if jeq ext ".jpg" || jeq ext ".jpeg" then "image/jpeg"
  else if jeq ext ".png" then "image/png"
  else if jeq ext ".webp" then "image/webp"
  else if jeq ext ".json" then "application/json; charset=utf-8"
  else if jeq ext ".woff2" then "font/woff2"
  else "application/octet-stream".
(** @worker/src/utils/theme-package.ts:106-111 assertAllowedFile *)
Definition assertAllowedFile (path : jstr) : result jstr unit :=
  let ext := extensionOf path in
  if mem ext FORBIDDEN_EXTENSIONS || negb (mem ext ALLOWED_EXTENSIONS) then Err ("theme file extension is not allowed: " +++ path) else Ok tt.

(** ** The manifest *)

(** @worker/src/utils/theme-package.ts:113-123 normalizeString *)
Definition normalizeString (value : jsval) (field : jstr) (maxLength : Z) (required : bool) : result jstr jstr :=
  if is_blank value then if required then Err ("theme manifest " +++ field +++ " is required") else Ok ""
  else match value with
  | JStr s =>
    let text := trim s in
    if required && negb (nonempty text) then Err ("theme manifest " +++ field +++ " is required")
    else if maxLength <? slen text then Err ("theme manifest " +++ field +++ " is too long")
    else Ok text
  | _ => Err ("theme manifest " +++ field +++ " must be a string")
  end.
(** @worker/src/utils/theme-package.ts:125-130 normalizeOptionalNumber *)
Definition normalizeOptionalNumber (value : jsval) (field : jstr) : result jstr (option num) :=
  if is_blank value then Ok None
  else if is_finite (to_num value) then Ok (Some (to_num value)) else Err ("theme config " +++ field +++ " must be a number").
Definition opt_lt (a b : option num) : bool := match a, b with Some a, Some b => num_lt a b | _, _ => false end.
(** @worker/src/utils/theme-package.ts:132-161 normalizeConfigItems (one item) *)
Definition normalizeConfigItem (index : nat) (item : jsval) : result jstr ThemeConfigItem :=
  let place := dec_Z (Z.of_nat index + 1) in
  match item with
  | JObj fs =>
    match read_type (fld fs "type") with
    | None => Err ("theme config item " +++ place +++ " type is invalid")
    | Some type =>
      let* key := match type with
                  | Title => Ok None
                  | _ => let* k := normalizeString (fld fs "key") "configuration.data.key" 96 true in Ok (Some k)
                  end in
      let* min := normalizeOptionalNumber (fld fs "min") "min" in
      let* max := normalizeOptionalNumber (fld fs "max") "max" in
      let* step := normalizeOptionalNumber (fld fs "step") "step" in
      if bool_decide (type = Range) && opt_lt max min then Err ("theme config item " +++ place +++ " range min must be <= max")
      else if bool_decide (type = Range) && match step with Some s => num_le s (of_Z 0) | None => false end
      then Err ("theme config item " +++ place +++ " range step must be positive")
      else
        let* name := normalizeString (fld fs "name") "configuration.data.name" 128 false in
        let* help := normalizeString (fld fs "help") "configuration.data.help" 256 false in
        let* options := normalizeString (fld fs "options") "configuration.data.options" 512 false in
        Ok {| ci_type := type; ci_key := key; ci_name := name; ci_help := help; ci_options := options;
              ci_min := min; ci_max := max; ci_step := step; ci_default := fld fs "default" |}
    end
  | _ => Err ("theme config item " +++ place +++ " is invalid")
  end.
Fixpoint config_items (index : nat) (items : list jsval) : result jstr (list ThemeConfigItem) :=
  match items with
  | [] => Ok []
  | item :: r => let* x := normalizeConfigItem index item in let* xs := config_items (S index) r in Ok (x :: xs)
  end.
(** @worker/src/utils/theme-package.ts:132-161 normalizeConfigItems *)
Definition normalizeConfigItems (value : jsval) : result jstr (list ThemeConfigItem) :=
  match value with
  | JUndef | JNull => Ok []
  | JArr items => config_items 0 items
  | _ => Err "theme manifest configuration.data must be an array"
  end.

(** [/^[A-Za-z0-9_-]+$/] *)
Definition slug_unit (u : N) : bool := is_alnum u || (u =? 95)%N || (u =? 45)%N.
Definition is_slug (s : jstr) : bool := all_units1 slug_unit s.
Definition IMAGE_EXTENSIONS : list jstr := [".png"; ".jpg"; ".jpeg"; ".webp"; ".svg"].
(** @worker/src/utils/theme-package.ts:175-204 normalizeThemeManifest *)
Definition normalizeThemeManifest (input : jsval) : result jstr ThemeManifest :=
  match input with
  | JObj fs =>
    let* short := normalizeString (fld fs "short") "short" 64 true in
    if jeq short "default" || negb (is_slug short) then Err "theme manifest short is invalid"
    else
      let* style := normalizeString (fld fs "style") "style" 256 true in
      let* style := normalizeThemePath (JStr style) in
      if negb (jeq (extensionOf style) ".css") then Err "theme style must be a CSS file"
      else
        let* preview := if truthy (fld fs "preview")
                        then let* p := normalizeString (fld fs "preview") "preview" 256 false in normalizeThemePath (JStr p)
                        else Ok "" in
        if nonempty preview && negb (mem (extensionOf preview) IMAGE_EXTENSIONS) then Err "theme preview must be an image"
        else
          let configuration := as_object (fld fs "configuration") in
          let type := match fld configuration "type" with JStr t => t | _ => "managed" end in
          if negb (jeq type "managed") then Err "theme configuration.type must be managed"
          else
            let* name := normalizeString (fld fs "name") "name" 128 true in
            let* description := normalizeString (fld fs "description") "description" 512 false in
            let* version := normalizeString (fld fs "version") "version" 64 false in
            let* author := normalizeString (fld fs "author") "author" 128 false in
            let* url := normalizeString (fld fs "url") "url" 512 false in
            let* data := normalizeConfigItems (fld configuration "data") in
            Ok {| name := name; short := short; description := description; version := version; author := author; url_ := url;
                  preview := preview; style := style; data := data |}
  | _ => Err "theme manifest must be an object"
  end.

(** The manifest as the object the source builds. *)
Definition opt_num_value (n : option num) : jsval := match n with Some n => JNum n | None => JUndef end.
Definition item_value (i : ThemeConfigItem) : jsval :=
  JObj ([("type", JStr (type_name (ci_type i)))]
        ++ match ci_key i with Some k => if nonempty k then [("key", JStr k)] else [] | None => [] end
        ++ [("name", JStr (ci_name i)); ("help", JStr (ci_help i)); ("options", JStr (ci_options i));
            ("min", opt_num_value (ci_min i)); ("max", opt_num_value (ci_max i)); ("step", opt_num_value (ci_step i));
            ("default", ci_default i)]).
Definition manifest_value (m : ThemeManifest) : jsval :=
  JObj [("name", JStr (name m)); ("short", JStr (short m)); ("description", JStr (description m)); ("version", JStr (version m));
        ("author", JStr (author m)); ("url", JStr (url_ m)); ("preview", JStr (preview m)); ("style", JStr (style m));
        ("configuration", JObj [("type", JStr "managed"); ("data", JArr (map item_value (data m)))])].

(** ** Base64 *)

Definition ALPHABET : jstr := "ABCDEFGHIJKLMNOPQRSTUVWXYZabcdefghijklmnopqrstuvwxyz0123456789+/".
(** [alphabet[(chunk >> shift) & 63]] *)
Definition alphabet_at (chunk shift : Z) : N := nth (Z.to_nat (Z.land (Z.shiftr chunk shift) 63)) (units ALPHABET) 0%N.
(** @worker/src/utils/theme-package.ts:206-223 bytesToBase64 *)
Fixpoint bytesToBase64 (bytes : list Z) : list N :=
  match bytes with
  | a :: b :: c :: r =>
    let chunk := Z.lor (Z.lor (Z.shiftl a 16) (Z.shiftl b 8)) c in
    [alphabet_at chunk 18; alphabet_at chunk 12; alphabet_at chunk 6; alphabet_at chunk 0] ++ bytesToBase64 r
  | [a; b] =>
    let chunk := Z.lor (Z.shiftl a 16) (Z.shiftl b 8) in
    [alphabet_at chunk 18; alphabet_at chunk 12; alphabet_at chunk 6; 61%N]
  | [a] => let chunk := Z.lor (Z.shiftl a 16) (Z.shiftl 0 8) in [alphabet_at chunk 18; alphabet_at chunk 12; 61%N; 61%N]
  | [] => []
  end.
(** @worker/src/utils/theme-package.ts:225-230 base64ToBytes -- [None] is the
    exception of [atob] *)
Definition base64ToBytes (base64 : jstr) : option (list Z) := atob (units base64).
(** @worker/src/utils/theme-package.ts:232-235 themeFileByteLimit *)
Definition themeFileByteLimit (path : jstr) : Z :=
  if jeq path MANIFEST_FILE then MAX_MANIFEST_BYTES else if jeq (extensionOf path) ".css" then MAX_CSS_BYTES else MAX_IMAGE_BYTES.

(** ** Configuration *)

(** [/^#(?:[0-9a-fA-F]{3}|[0-9a-fA-F]{6}|[0-9a-fA-F]{8})$/] *)
Definition is_color (s : jstr) : bool :=
  match units s with
  | 35%N :: r => forallb is_hex r && bool_decide (length r ∈ [3; 6; 8]%nat)
  | _ => false
  end.
(** The choices of a [select]. *)
Definition select_options (i : ThemeConfigItem) : list jstr := List.filter nonempty (map trim (split_on (chr 44) (ci_options i))).
(** @worker/src/utils/theme-package.ts:359-365 defaultConfigForManifest *)
Definition defaultConfigForManifest (m : ThemeManifest) : fields :=
  fold_left (λ config i, match ci_key i with
                         | Some key => if nonempty key && negb (is_undef (ci_default i)) then set_field key (ci_default i) config else config
                         | None => config
                         end) (data m) [].

Section Config.
Context (URL : jstr → option url).

(** @worker/src/utils/theme-package.ts:163-173 isSafeImageConfigValue *)
Definition isSafeImageConfigValue (value : jstr) : bool :=
  if negb (nonempty value) then true
  else if any_unit (λ u, (u <=? 31) || (u =? 127))%N value then false
  else if starts_with "/" value && negb (starts_with "//" value) then true
  else match URL value with
  | Some u => jeq (protocol u) "https:" && negb (nonempty (username u)) && negb (nonempty (password u))
  | None => false
  end.
(** @worker/src/utils/theme-package.ts:385-410 validateThemeConfig (one value) *)
Definition normalize_config_value (i : ThemeConfigItem) (key : jstr) (value : jsval) : result jstr jsval :=
  match ci_type i with
  | Switch => Ok (JBool (truthy value))
  | Number | Range =>
    let n := to_num value in
    if negb (is_finite n) then Err (key +++ " 必须是数字")
    else if match ci_min i with Some lo => num_lt n lo | None => false end || match ci_max i with Some hi => num_lt hi n | None => false end
    then Err (key +++ " 不在可选范围内")
    else Ok (JNum n)
  | Color => let text := trim (to_str value) in if is_color text then Ok (JStr text) else Err (key +++ " 必须是十六进制颜色")
  | Select =>
    let text := to_str value in
    let options := select_options i in
    if negb (bool_decide (options = [])) && negb (mem text options) then Err (key +++ " 不在可选范围内") else Ok (JStr text)
  | Image =>
    let text := trim (to_str value) in
    if isSafeImageConfigValue text then Ok (JStr text) else Err (key +++ " 必须是 HTTPS 图片 URL 或同源路径")
  | Title | String | Richtext => Ok (JStr (to_str value))
  end.
(** @worker/src/utils/theme-package.ts:379-411 validateThemeConfig (loop) *)
Fixpoint config_values (items : list (jstr * ThemeConfigItem)) (input config : fields) : result jstr fields :=
  match items with
  | [] => Ok config
  | (key, i) :: r =>
    match fld input key with
    | JUndef => config_values r input (if is_undef (ci_default i) then config else set_field key (ci_default i) config)
    | value => let* v := normalize_config_value i key value in config_values r input (set_field key v config)
    end
  end.
(** The items with a key. *)
Definition keyed_items (m : ThemeManifest) : list (jstr * ThemeConfigItem) :=
  omap (λ i, match ci_key i with Some k => if nonempty k then Some (k, i) else None | None => None end) (data m).
(** @worker/src/utils/theme-package.ts:367-413 validateThemeConfig -- the outer error
    is thrown, the inner one is the answer [ok: false]; the keys read are those the
    input has of its own *)
Definition validateThemeConfig (manifestInput configInput : jsval) : result jstr (result jstr fields) :=
  let* manifest := normalizeThemeManifest manifestInput in
  let input := as_object configInput in
  let items := keyed_items manifest in
  match List.find (λ key, negb (mem key (map fst items))) (map fst input) with
  | Some key => Ok (Err ("未知主题配置: " +++ key))
  | None => Ok (config_values items input [])
  end.
End Config.

(** [[^;{}]] *)
Definition css_unit (u : N) : bool := negb ((u =? 59) || (u =? 123) || (u =? 125))%N.
(** @worker/src/utils/theme-package.ts:415-418 cssVarValue *)
Definition cssVarValue (value : jsval) : jstr :=
  match value with
  | JBool b => if b then "1" else "0"
  | _ => trim (JS (List.filter css_unit (units (to_str value))))
  end.
Definition newline : jstr := JS [10%N].
(** @worker/src/utils/theme-package.ts:420-437 buildThemeCss (variables) *)
Definition css_variables (config : fields) : list jstr :=
  map (λ p : jstr * jsval, "  --cf-theme-" +++ p.1 +++ ": " +++ cssVarValue p.2 +++ ";") (List.filter (λ p, is_slug p.1) config).
(** @worker/src/utils/theme-package.ts:420-437 buildThemeCss *)
Definition buildThemeCss (styleCss : jstr) (config : fields) (customCss : jstr) : jstr :=
  let variables := css_variables config in
  join (newline +++ newline)
    (List.filter nonempty
       [if bool_decide (variables = []) then "" else ":root {" +++ newline +++ join newline variables +++ newline +++ "}";
        styleCss; slice_to MAX_CUSTOM_CSS_BYTES customCss]).

(** ** Archives *)

(** What the library says of a file of the archive. *)
Record zip_file := { zf_name : jstr; zf_size : num; zf_compression : Z }.
(** @worker/src/utils/theme-package.ts:238-238 declared (an entry) *)
Record declared_file := { originalSize : Z; compression : Z }.

(** @worker/src/utils/theme-package.ts:243-263 unzipThemeWithLimits (directory) --
    the entries left, how many were counted, what is declared and its size *)
Fixpoint read_directory (files : list zip_file) (entryCount : nat) (declared : list (jstr * declared_file)) (declaredBytes : Z)
  : result jstr (list (jstr * declared_file)) :=
  match files with
  | [] => Ok declared
  | file :: r =>
    if (MAX_ZIP_ENTRIES <? S entryCount)%nat then Err "theme package has too many entries"
    else if ends_with "/" (zf_name file) then
      let* _ := normalizeThemePath (JStr (JS (removelast (units (zf_name file))))) in
      if negb (num_eqb (zf_size file) (of_Z 0)) then Err "theme directory size is invalid"
      else read_directory r (S entryCount) declared declaredBytes
    else
      let* path := normalizeThemePath (JStr (zf_name file)) in
      let* _ := assertAllowedFile path in
      if has_own declared path then Err ("duplicate theme path: " +++ path)
      else if (S MAX_ASSETS <=? length declared)%nat then Err "theme package has too many files"
      else if negb (zf_compression file =? 0) && negb (zf_compression file =? 8) then Err "theme compression is not supported"
      else match (if is_safe_integer (zf_size file) then num_Z (zf_size file) else None) with
      | None => Err ("theme asset is too large: " +++ path)
      | Some size =>
        if (size <? 0) || (themeFileByteLimit path <? size) then Err ("theme asset is too large: " +++ path)
        else if MAX_UNZIPPED_BYTES <? declaredBytes + size then Err "theme uncompressed size is too large"
        else read_directory r (S entryCount) (set_field path {| originalSize := size; compression := zf_compression file |} declared)
               (declaredBytes + size)
      end
  end.

(** What the streaming library calls back while a chunk is pushed: the header of a
    file, with a number that stands for its object; data of a file, or its error;
    or the push itself throws. *)
Inductive zip_event :=
| FileHeader (file : nat) (file_name : jstr) (size : option num) (method : Z)
| FileData (file : nat) (chunk : result jstr (list Z)) (final : bool)
| PushThrows (message : jstr).

(** @worker/src/utils/theme-package.ts:276-277 unzipThemeWithLimits (a started file) *)
Record open_file := { of_path : jstr; of_entry : declared_file; chunks : list (list Z); size : Z }.
(** @worker/src/utils/theme-package.ts:265-268 unzipThemeWithLimits (state) *)
Record unzip_state := {
  files : list (jstr * list Z); seen : list jstr; actualBytes : Z; failed : option jstr; started : gmap nat open_file
}.
Definition unzip_start : unzip_state := {| files := []; seen := []; actualBytes := 0; failed := None; started := ∅ |}.
Definition fail_with (message : jstr) (st : unzip_state) : unzip_state :=
  {| files := files st; seen := seen st; actualBytes := actualBytes st; failed := Some message; started := started st |}.

(** @worker/src/utils/theme-package.ts:269-277 unzipThemeWithLimits (a file) *)
Definition on_file (declared : list (jstr * declared_file)) (file : nat) (file_name : jstr) (size_ : option num) (method : Z) (st : unzip_state)
  : result jstr unzip_state :=
  if bool_decide (is_Some (failed st)) || ends_with "/" file_name then Ok st
  else
    let* path := normalizeThemePath (JStr file_name) in
    match lookup_field path declared with
    | None => Err "theme ZIP directory mismatch"
    | Some entry =>
      if mem path (seen st) || negb (compression entry =? method) then Err "theme ZIP directory mismatch"
      else if match size_ with Some s => negb (num_eqb s (of_Z (originalSize entry))) | None => false end then Err "theme ZIP size mismatch"
      else Ok {| files := files st; seen := path :: seen st; actualBytes := actualBytes st; failed := failed st;
                 started := <[file := {| of_path := path; of_entry := entry; chunks := []; size := 0 |}]> (started st) |}
    end.
(** @worker/src/utils/theme-package.ts:278-296 unzipThemeWithLimits (ondata) *)
Definition on_data (file : nat) (chunk : result jstr (list Z)) (final : bool) (st : unzip_state) : unzip_state :=
  match started st !! file with
  | None => st
  | Some f =>
    if bool_decide (is_Some (failed st)) then st
    else match chunk with
    | Err e => fail_with e st
    | Ok data =>
      let size := size f + Z.of_nat (length data) in
      let actual := actualBytes st + Z.of_nat (length data) in
      let path := of_path f in
      let grow chunks files failed :=
        {| files := files; seen := seen st; actualBytes := actual; failed := failed;
           started := <[file := {| of_path := path; of_entry := of_entry f; chunks := chunks; size := size |}]> (started st) |} in
      if (themeFileByteLimit path <? size) || (originalSize (of_entry f) <? size) || (MAX_UNZIPPED_BYTES <? actual)
      then grow (chunks f) (files st) (Some ("theme actual output size is too large: " +++ path))
      else
        let chunks := chunks f ++ [data] in
        if final then
          if negb (size =? originalSize (of_entry f)) then grow chunks (files st) (Some ("theme ZIP size mismatch: " +++ path))
          else grow chunks (set_field path (concat chunks) (files st)) None
        else grow chunks (files st) None
    end
  end.
(** One chunk's callbacks; an exception of a callback leaves the push. *)
Fixpoint on_push (declared : list (jstr * declared_file)) (events : list zip_event) (st : unzip_state) : result jstr unzip_state :=
  match events with
  | [] => Ok st
  | FileHeader file name size method :: r => let* st := on_file declared file name size method st in on_push declared r st
  | FileData file chunk final :: r => on_push declared r (on_data file chunk final st)
  | PushThrows message :: _ => Err message
  end.
(** The input in chunks of 256 bytes. *)
Fixpoint input_chunks (fuel : nat) (l : list Z) : list (list Z) :=
  match fuel, l with
  | S fuel, _ :: _ => take ZIP_INPUT_CHUNK_BYTES l :: input_chunks fuel (drop ZIP_INPUT_CHUNK_BYTES l)
  | _, _ => []
  end.

Section Archive.
(** The library: the directory, what pushing a chunk after others calls back, and
    the decoding of text. *)
Context (zip_directory : list Z → result jstr (list zip_file)).
Context (zip_push : list (list Z) → list Z → bool → list zip_event).
Context (strFromU8 : list Z → jstr).
Context (URL : jstr → option url).

(** @worker/src/utils/theme-package.ts:300-305 unzipThemeWithLimits (loop) *)
Fixpoint push_chunks (declared : list (jstr * declared_file)) (pushed rest : list (list Z)) (st : unzip_state) : result jstr unzip_state :=
  match rest with
  | [] => Ok st
  | chunk :: r =>
    let* st := on_push declared (zip_push pushed chunk (bool_decide (r = []))) st in
    match failed st with
    | Some failure => Err failure
    | None => push_chunks declared (pushed ++ [chunk]) r st
    end
  end.
(** @worker/src/utils/theme-package.ts:237-308 unzipThemeWithLimits *)
Definition unzipThemeWithLimits (zipBytes : list Z) : result jstr (list (jstr * list Z)) :=
  let* directory := zip_directory zipBytes in
  let* declared := read_directory directory 0 [] 0 in
  let* st := push_chunks declared [] (input_chunks (length zipBytes) zipBytes) unzip_start in
  if negb (length (files st) =? length declared)%nat then Err "theme ZIP is incomplete" else Ok (files st).

(** @worker/src/utils/theme-package.ts:329-341 parseThemeZip (assets) *)
Fixpoint theme_assets (entries : list (jstr * list Z)) : result jstr (list ThemeAssetInput) :=
  match entries with
  | [] => Ok []
  | (path, bytes) :: r =>
    if jeq path MANIFEST_FILE then theme_assets r
    else if negb (jeq (extensionOf path) ".css") && (MAX_IMAGE_BYTES <? Z.of_nat (length bytes)) then Err ("theme asset is too large: " +++ path)
    else
      let* assets := theme_assets r in
      Ok ({| as_path := path; content_type := contentTypeFor path; content_base64 := JS (bytesToBase64 bytes);
             size_bytes := Z.of_nat (length bytes) |} :: assets)
  end.
Fixpoint assert_allowed (entries : list (jstr * list Z)) : result jstr unit :=
  match entries with [] => Ok tt | (path, _) :: r => let* _ := assertAllowedFile path in assert_allowed r end.
(** @worker/src/utils/theme-package.ts:310-357 parseThemeZip *)
Definition parseThemeZip (zipBytes : list Z) : result jstr (ThemeRecordInput * list ThemeAssetInput) :=
  if MAX_ZIP_BYTES <? Z.of_nat (length zipBytes) then Err "theme zip is too large"
  else
    let* entries := unzipThemeWithLimits zipBytes in
    match lookup_field MANIFEST_FILE entries with
    | None => Err "theme manifest cf-monitor-theme.json is required"
    | Some manifestBytes =>
      match json_parse (strFromU8 manifestBytes) with
      | None => Err "SyntaxError"
      | Some value =>
        let* manifest := normalizeThemeManifest value in
        let* _ := assert_allowed entries in
        match lookup_field (style manifest) entries with
        | None => Err "theme style file is missing"
        | Some styleBytes =>
          if MAX_CSS_BYTES <? Z.of_nat (length styleBytes) then Err "theme CSS is too large"
          else if nonempty (preview manifest) && negb (has_own entries (preview manifest)) then Err "theme preview file is missing"
          else
            let* validation := validateThemeConfig URL (manifest_value manifest) (JObj (defaultConfigForManifest manifest)) in
            let* config := validation in
            let* assets := theme_assets entries in
            Ok ({| tr_short := short manifest; tr_name := name manifest; tr_description := description manifest;
                   tr_version := version manifest; tr_author := author manifest; tr_url := url_ manifest;
                   preview_path := preview manifest; style_path := style manifest;
                   manifest_json := json (manifest_value manifest); config_json := json (JObj config); custom_css := "" |}, assets)
        end
      end
    end.
End Archive.

(** ** Facts *)

(** *** Base64 is [btoa] *)

(** Bits [k .. k+5] of three bytes. *)
Lemma alphabet_64 v : 0 ≤ v < 64 → nth (Z.to_nat v) (units ALPHABET) 0%N = b64_char v.
Proof.
  intros Hv. assert (Hall : forallb (λ n, (nth n (units ALPHABET) 0 =? b64_char (Z.of_nat n))%N) (seq 0 64) = true) by (vm_compute; reflexivity).
  rewrite forallb_forall in Hall. specialize (Hall (Z.to_nat v)). rewrite Z2Nat.id in Hall by lia.
  apply N.eqb_eq, Hall, in_seq. lia.
Qed.
Lemma chunk_sum a b c : is_byte b → is_byte c → Z.lor (Z.lor (Z.shiftl a 16) (Z.shiftl b 8)) c = a * 65536 + b * 256 + c.
Proof.
  unfold is_byte. intros Hb Hc. rewrite !Z.shiftl_mul_pow2 by lia.
  assert (Hor : ∀ x y k, 0 ≤ k → 0 ≤ y < 2 ^ k → Z.lor (x * 2 ^ k) y = x * 2 ^ k + y).
  { intros x y k Hk Hy. rewrite <- Z.add_nocarry_lor; [done |]. apply Z.bits_inj'. intros n Hn. rewrite Z.land_spec, Z.bits_0.
    destruct (Z.ltb_spec n k) as [Hlt | Hge]; [by rewrite Z.mul_pow2_bits_low |].
    rewrite (proj1 (Z.bounded_iff_bits_nonneg k y Hk (proj1 Hy)) (proj2 Hy) n Hge). apply andb_false_r. }
  rewrite (Hor a (b * 2 ^ 8) 16) by lia. replace (a * 2 ^ 16 + b * 2 ^ 8) with ((a * 256 + b) * 2 ^ 8) by lia. rewrite (Hor _ c 8) by lia. lia.
Qed.
Lemma alphabet_at_div chunk k : 0 ≤ k → alphabet_at chunk k = b64_char (chunk / 2 ^ k mod 64).
Proof.
  intros Hk. unfold alphabet_at. rewrite Z.shiftr_div_pow2 by done. change 63 with (Z.ones 6). rewrite Z.land_ones by lia.
  apply alphabet_64. apply Z.mod_pos_bound. lia.
Qed.
Lemma bytesToBase64_btoa bytes : Forall is_byte bytes → bytesToBase64 bytes = btoa bytes.
Proof.
  assert (H0 : is_byte 0) by (unfold is_byte; lia).
  induction bytes as [|a|a b|a b c r IH] using list_ind3; intros H; cbn [bytesToBase64 btoa]; [done | | |].
  - apply Forall_cons in H as [Ha _]. pose proof (chunk_sum a 0 0 H0 H0) as Hs. rewrite Z.lor_0_r in Hs.
    rewrite Hs, !alphabet_at_div by lia. unfold is_byte in *. change (2 ^ 18) with 262144. change (2 ^ 12) with 4096. change (2 ^ 6) with 64.
    repeat f_equal; Z.to_euclidean_division_equations; lia.
  - apply Forall_cons in H as [Ha H]. apply Forall_cons in H as [Hb _]. pose proof (chunk_sum a b 0 Hb H0) as Hs. rewrite Z.lor_0_r in Hs.
    rewrite Hs, !alphabet_at_div by lia. unfold is_byte in *. change (2 ^ 18) with 262144. change (2 ^ 12) with 4096. change (2 ^ 6) with 64.
    repeat f_equal; Z.to_euclidean_division_equations; lia.
  - apply Forall_cons in H as [Ha H]. apply Forall_cons in H as [Hb H]. apply Forall_cons in H as [Hc H].
    rewrite chunk_sum, !alphabet_at_div, (IH H) by (done || lia). cbn [Datatypes.app]. unfold is_byte in *.
    change (2 ^ 18) with 262144. change (2 ^ 12) with 4096. change (2 ^ 6) with 64. change (2 ^ 0) with 1.
    assert (E4 : (a * 65536 + b * 256 + c) / 1 mod 64 = c mod 64) by (Z.to_euclidean_division_equations; lia).
    rewrite E4. do 3 (apply (f_equal2 cons); [apply f_equal; Z.to_euclidean_division_equations; lia |]). done.
Qed.

(** *** The directory *)

Lemma set_field_new {V} k (v : V) fs : has_own fs k = false → set_field k v fs = fs ++ [(k, v)].
Proof.
  unfold has_own. induction fs as [|[k' v'] fs IH]; [done |]. cbn. destruct (decide (k = k')); [done |]. intros H. f_equal. by apply IH.
Qed.
Lemma has_own_false {V} k (fs : list (jstr * V)) : has_own fs k = false → k ∉ map fst fs.
Proof.
  unfold has_own. induction fs as [|[k' v'] fs IH]; cbn; [intros _ H; by apply not_elem_of_nil in H |].
  destruct (decide (k = k')) as [-> | Hne]; [done |]. intros H [-> | Hin]%elem_of_cons; [done | by apply IH].
Qed.

(** A path of an archive that is accepted. *)
Definition asset_path (path : jstr) : Prop :=
  is_theme_path path = true ∧ mem (extensionOf path) ALLOWED_EXTENSIONS = true ∧ mem (extensionOf path) FORBIDDEN_EXTENSIONS = false.
Definition total (declared : list (jstr * declared_file)) : Z := foldr (λ p s, originalSize p.2 + s) 0 declared.
Definition directory_ok (declared : list (jstr * declared_file)) (bytes : Z) : Prop :=
  NoDup (map fst declared) ∧ (length declared ≤ 33)%nat ∧ total declared = bytes ∧ bytes ≤ MAX_UNZIPPED_BYTES
  ∧ Forall (λ p, asset_path p.1 ∧ 0 ≤ originalSize p.2 ≤ themeFileByteLimit p.1) declared.

Lemma normalizeThemePath_ok v p : normalizeThemePath v = Ok p → is_theme_path p = true.
Proof. destruct v; try done. cbn. by destruct (is_theme_path _) eqn:E; [intros [= <-] |]. Qed.
Lemma assertAllowedFile_ok p u : assertAllowedFile p = Ok u → mem (extensionOf p) ALLOWED_EXTENSIONS = true ∧ mem (extensionOf p) FORBIDDEN_EXTENSIONS = false.
Proof. unfold assertAllowedFile. destruct (_ || _) eqn:E; [done |]. apply orb_false_iff in E as [E1 E2]. by apply negb_false_iff in E2. Qed.

Lemma read_directory_ok zs n declared bytes d :
  read_directory zs n declared bytes = Ok d → directory_ok declared bytes → ∃ bytes', directory_ok d bytes'.
Proof.
  revert n declared bytes. induction zs as [|file zs IH]; intros n declared bytes; cbn [read_directory].
  { intros [= <-] H. by exists bytes. }
  destruct (MAX_ZIP_ENTRIES <? S n)%nat; [done |]. destruct (ends_with "/" (zf_name file)).
  { intros (x & _ & H)%rbind_Ok. destruct (negb _); [done |]. by apply (IH _ _ _ H). }
  intros (path & Hpath & H)%rbind_Ok. apply rbind_Ok in H as (u & Hallowed & H).
  destruct (has_own declared path) eqn:Eown; [done |]. destruct (S MAX_ASSETS <=? length declared)%nat eqn:Elen; [done |].
  destruct (_ && _); [done |]. destruct (if is_safe_integer _ then _ else _) as [size|]; [| done].
  destruct ((size <? 0) || _) eqn:Esize; [done |]. destruct (MAX_UNZIPPED_BYTES <? bytes + size) eqn:Etot; [done |].
  intros (Hnd & Hl & Ht & Hb & Hall). apply (IH _ _ _ H). rewrite set_field_new by done.
  apply orb_false_iff in Esize as [E1%Z.ltb_ge E2%Z.ltb_ge]. apply Z.ltb_ge in Etot. apply Nat.leb_gt in Elen.
  apply normalizeThemePath_ok in Hpath. apply assertAllowedFile_ok in Hallowed as [Ha1 Ha2].
  split; [| split; [| split; [| split]]].
  - rewrite map_app. apply NoDup_app. split; [done |]. split; [| apply NoDup_singleton].
    intros x Hx ->%list_elem_of_singleton. by apply has_own_false in Eown.
  - rewrite length_app. cbn. unfold MAX_ASSETS in Elen. lia.
  - unfold total in *. rewrite foldr_app. cbn [foldr snd originalSize]. rewrite <- Ht. clear. induction declared as [|p r IH]; [cbn; lia | cbn [foldr]; lia].
  - done.
  - apply Forall_app. split; [done |]. apply Forall_singleton. done.
Qed.

(** *** The files *)

(** What is kept of a declared file has its declared size. *)
Definition files_ok (declared : list (jstr * declared_file)) (fs : list (jstr * list Z)) : Prop :=
  NoDup (map fst fs) ∧ ∀ p b, (p, b) ∈ fs → ∃ e, (p, e) ∈ declared ∧ originalSize e = Z.of_nat (length b).
Definition started_ok (declared : list (jstr * declared_file)) (st : unzip_state) : Prop :=
  ∀ i f, started st !! i = Some f → (of_path f, of_entry f) ∈ declared ∧ size f = Z.of_nat (length (concat (chunks f))).
Definition unzip_ok (declared : list (jstr * declared_file)) (st : unzip_state) : Prop :=
  files_ok declared (files st) ∧ (failed st = None → started_ok declared st ∧ actualBytes st ≤ MAX_UNZIPPED_BYTES).

Lemma on_file_ok declared i n s m st st' : on_file declared i n s m st = Ok st' → unzip_ok declared st → unzip_ok declared st'.
Proof.
  unfold on_file. destruct (_ || _) eqn:E; [by intros [= <-] |]. apply orb_false_iff in E as [E _]. apply bool_decide_eq_false in E.
  assert (Hf : failed st = None) by (destruct (failed st); [exfalso; apply E; by eexists | done]).
  intros (path & _ & H)%rbind_Ok [Hfs Hst]. destruct (lookup_field path declared) as [e|] eqn:El; [| done].
  destruct (_ || _); [done |]. destruct (match s with Some _ => _ | None => _ end); [done |]. apply Ok_inj in H. subst st'.
  split; [done |]. intros _. destruct (Hst Hf) as [Hs Ha]. split; [| done]. intros j f. cbn [started]. rewrite lookup_insert.
  destruct (decide (i = j)); [intros [= <-]; cbn; split; [by apply lookup_field_elem | done] | apply Hs].
Qed.

Lemma set_field_files declared p b fs e :
  files_ok declared fs → (p, e) ∈ declared → originalSize e = Z.of_nat (length b) → files_ok declared (set_field p b fs).
Proof.
  intros [Hn Hf] He Hb. split; [by apply set_field_nodup |]. intros q c Hin. apply set_field_elem in Hin as [[= -> ->] | Hin]; [by exists e | by apply Hf].
Qed.

Lemma on_data_ok declared i c final st : unzip_ok declared st → unzip_ok declared (on_data i c final st).
Proof.
  intros [Hfs Hst]. unfold on_data. destruct (started st !! i) as [f|] eqn:Ef; [| done].
  destruct (bool_decide _) eqn:E; [done |]. apply bool_decide_eq_false in E.
  assert (Hf : failed st = None) by (destruct (failed st); [exfalso; apply E; by eexists | done]).
  destruct (Hst Hf) as [Hs Ha]. destruct c as [data|e]; [| by split].
  destruct (Hs i f Ef) as [He Hsz].
  set (size' := size f + Z.of_nat (length data)).
  assert (Hc : size' = Z.of_nat (length (concat (chunks f ++ [data])))).
  { unfold size'. rewrite Hsz, concat_app, length_app. cbn. rewrite app_nil_r. lia. }
  destruct (_ || _) eqn:Eb; [by split |]. apply orb_false_iff in Eb as [Eb E3%Z.ltb_ge]. apply orb_false_iff in Eb as [E1%Z.ltb_ge E2%Z.ltb_ge].
  assert (Hstarted : ∀ j g, <[i := {| of_path := of_path f; of_entry := of_entry f; chunks := chunks f ++ [data]; size := size' |}]> (started st) !! j = Some g →
            (of_path g, of_entry g) ∈ declared ∧ size g = Z.of_nat (length (concat (chunks g)))).
  { intros j g. rewrite lookup_insert. destruct (decide (i = j)); [intros [= <-]; done | apply Hs]. }
  destruct final; [| split; [done | intros _; split; [exact Hstarted | exact E3]]].
  destruct (negb _) eqn:En; [by split |]. apply negb_false_iff, Z.eqb_eq in En. split; [| intros _; split; [exact Hstarted | exact E3]].
  cbn [files]. eapply set_field_files; [done | exact He | by rewrite <- Hc].
Qed.

Lemma on_push_ok declared evs st st' : on_push declared evs st = Ok st' → unzip_ok declared st → unzip_ok declared st'.
Proof.
  revert st. induction evs as [|[i n s m|i c final|msg] evs IH]; intros st; cbn [on_push]; [by intros [= <-] | | | done].
  - intros (st1 & H1 & H)%rbind_Ok Hst. apply (IH st1 H). by eapply on_file_ok.
  - intros H Hst. apply (IH _ H). by apply on_data_ok.
Qed.

Lemma push_chunks_ok zip_push declared pushed rest st st' :
  push_chunks zip_push declared pushed rest st = Ok st' → unzip_ok declared st → unzip_ok declared st'.
Proof.
  revert pushed st. induction rest as [|c rest IH]; intros pushed st; cbn [push_chunks]; [by intros [= <-] |].
  intros (st1 & H1 & H)%rbind_Ok Hst. destruct (failed st1); [done |]. apply (IH _ _ H). by eapply on_push_ok.
Qed.
Lemma unzip_files zip_directory zip_push zipBytes fs :
  unzipThemeWithLimits zip_directory zip_push zipBytes = Ok fs →
  ∃ declared bytes, directory_ok declared bytes ∧ files_ok declared fs ∧ length fs = length declared.
Proof.
  unfold unzipThemeWithLimits. intros (dir & _ & H)%rbind_Ok. apply rbind_Ok in H as (declared & Hd & H). apply rbind_Ok in H as (st & Hs & H).
  destruct (negb _) eqn:El; [done |]. apply negb_false_iff, Nat.eqb_eq in El. injection H as <-.
  destruct (read_directory_ok _ _ _ _ _ Hd) as [bytes Hok].
  { split; [constructor |]. split; [cbn; lia |]. split; [done |]. split; [done | constructor]. }
  exists declared, bytes. split; [done |]. split; [| done]. eapply push_chunks_ok in Hs; [by apply Hs |].
  split; [split; [constructor | by intros p b ?%not_elem_of_nil] |]. intros _. split; [by intros i f |]. done.
Qed.

(** *** Sums *)

Definition sumZ (l : list Z) : Z := foldr Z.add 0 l.
Lemma sumZ_app a b : sumZ (a ++ b) = sumZ a + sumZ b.
Proof. unfold sumZ. induction a as [|x a IH]; [done |]. cbn [foldr Datatypes.app]. lia. Qed.
Lemma sumZ_perm a b : a ≡ₚ b → sumZ a = sumZ b.
Proof. induction 1 as [|x a b _ IH|x y a|a b c _ IH1 _ IH2]; unfold sumZ in *; cbn; lia. Qed.
Lemma sumZ_nonneg l : Forall (λ x, 0 ≤ x) l → 0 ≤ sumZ l.
Proof. induction 1; unfold sumZ in *; cbn; lia. Qed.
Lemma sumZ_sub {K} (a b : list (K * Z)) : NoDup a → (∀ p, p ∈ a → p ∈ b) → Forall (λ p, 0 ≤ p.2) b → sumZ (map snd a) ≤ sumZ (map snd b).
Proof.
  intros Hn Hsub Hb. destruct (submseteq_Permutation a b (NoDup_submseteq a b Hn Hsub)) as [k Hk].
  assert (Hp : map snd b ≡ₚ map snd a ++ map snd k) by (rewrite <- map_app; by rewrite Hk).
  rewrite (sumZ_perm _ _ Hp), sumZ_app. assert (0 ≤ sumZ (map snd k)); [| lia].
  apply sumZ_nonneg. rewrite Hk in Hb. apply Forall_app in Hb as [_ Hb]. by apply Forall_map.
Qed.

Definition sized (fs : list (jstr * list Z)) : list (jstr * Z) := map (λ p, (p.1, Z.of_nat (length p.2))) fs.
Lemma files_total declared bytes fs : directory_ok declared bytes → files_ok declared fs → sumZ (map snd (sized fs)) ≤ MAX_UNZIPPED_BYTES.
Proof.
  intros (_ & _ & Ht & Hb & Hall) [Hn Hf]. etransitivity; [| exact Hb]. rewrite <- Ht.
  assert (Hs : total declared = sumZ (map snd (map (λ p : jstr * declared_file, (p.1, originalSize p.2)) declared))).
  { unfold total, sumZ. clear. induction declared as [|p l IH]; [done |]. cbn. by rewrite IH. }
  rewrite Hs. apply sumZ_sub.
  - apply (NoDup_fmap_1 fst). change (NoDup (map fst (sized fs))). unfold sized. rewrite map_map. exact Hn.
  - intros p (q & -> & Hq)%list_elem_of_fmap. destruct q as [q b]. destruct (Hf q b Hq) as (e & He & Hsz). apply list_elem_of_fmap.
    exists (q, e). cbn. by rewrite Hsz.
  - apply Forall_map. eapply Forall_impl; [exact Hall |]. intros p (_ & H1 & _). exact H1.
Qed.

(** *** The assets *)

Lemma theme_assets_spec fs assets :
  theme_assets fs = Ok assets →
  map (λ a, (as_path a, size_bytes a)) assets = sized (List.filter (λ p, negb (jeq p.1 MANIFEST_FILE)) fs)
  ∧ ∀ a, a ∈ assets → as_path a ≠ MANIFEST_FILE
      ∧ ∃ bytes, (as_path a, bytes) ∈ fs ∧ content_type a = contentTypeFor (as_path a) ∧ content_base64 a = JS (bytesToBase64 bytes)
                 ∧ size_bytes a = Z.of_nat (length bytes).
Proof.
  revert assets. induction fs as [|[path bytes] fs IH]; intros assets; cbn [theme_assets List.filter fst].
  { intros [= <-]. split; [done | by intros a ?%not_elem_of_nil]. }
  destruct (jeq path MANIFEST_FILE) eqn:E; cbn [negb].
  { intros H. destruct (IH _ H) as [H1 H2]. split; [done |]. intros a Ha. destruct (H2 a Ha) as (Hne & b & Hb & Hr). split; [done |].
    exists b. split; [by right | done]. }
  apply jeq_false in E. destruct (_ && _); [done |]. intros (r & Hr & H)%rbind_Ok. injection H as <-. destruct (IH _ Hr) as [H1 H2].
  split; [unfold sized in *; cbn [map]; by rewrite H1 |]. intros a [-> | Ha]%elem_of_cons.
  - split; [done |]. exists bytes. split; [left | done].
  - destruct (H2 a Ha) as (Hne & b & Hb & Hr'). split; [done |]. exists b. split; [by right | done].
Qed.

(** *** The manifest read back *)

Lemma normalizeString_again v f f' n r s : normalizeString v f n r = Ok s → normalizeString (JStr s) f' n r = Ok s.
Proof.
  unfold normalizeString. destruct (is_blank v) eqn:E.
  - destruct r; [done |]. intros [= <-]. reflexivity.
  - destruct v; try done. destruct (r && negb (nonempty (trim s0))) eqn:Er; [done |]. destruct (n <? slen (trim s0)) eqn:El; [done |].
    intros [= <-]. cbn [is_blank is_undef is_null is_str orb]. rewrite trim_trim, Er, El.
    destruct (jeq (trim s0) "") eqn:Ej; [| done]. apply jeq_true in Ej. rewrite Ej in Er |- *. by destruct r.
Qed.
Lemma normalizeString_required v f n s : normalizeString v f n true = Ok s → nonempty s = true.
Proof.
  unfold normalizeString. destruct (is_blank v); [done |]. destruct v; try done. destruct (nonempty (trim s0)) eqn:E; cbn [negb andb]; [| done].
  destruct (n <? _); [done |]. by intros [= <-].
Qed.
Lemma normalizeOptionalNumber_again v f f' o : normalizeOptionalNumber v f = Ok o → normalizeOptionalNumber (opt_num_value o) f' = Ok o.
Proof.
  unfold normalizeOptionalNumber. destruct (is_blank v); [by intros [= <-] |]. destruct (is_finite (to_num v)) eqn:E; [| done].
  intros [= <-]. cbn. by rewrite E.
Qed.
Lemma read_type_name t : read_type (JStr (type_name t)) = Some t.
Proof. destruct t; vm_compute; reflexivity. Qed.

Lemma config_item_again i j v x : normalizeConfigItem i v = Ok x → normalizeConfigItem j (item_value x) = Ok x ∧ ∀ k, ci_key x = Some k → nonempty k = true.
Proof.
  unfold normalizeConfigItem at 1. destruct v as [| | | | | |fs]; try done. destruct (read_type (fld fs "type")) as [type|]; [| done].
  intros (key & Hk & H)%rbind_Ok. apply rbind_Ok in H as (mn & Hmn & H). apply rbind_Ok in H as (mx & Hmx & H). apply rbind_Ok in H as (st & Hst & H).
  destruct (bool_decide (type = Range) && opt_lt mx mn) eqn:E1; [done |].
  destruct (bool_decide (type = Range) && match st with Some s => num_le s (of_Z 0) | None => false end) eqn:E2; [done |].
  apply rbind_Ok in H as (name & Hname & H). apply rbind_Ok in H as (help & Hhelp & H). apply rbind_Ok in H as (options & Hopt & H).
  injection H as <-.
  assert (Hkey : ∀ k, key = Some k → nonempty k = true ∧ normalizeString (JStr k) "configuration.data.key" 96 true = Ok k).
  { intros k ->. destruct type; try done; apply rbind_Ok in Hk as (k' & Hk & [= <-]);
      (split; [by eapply normalizeString_required | by eapply normalizeString_again]). }
  split; [| intros k Hx; by apply Hkey].
  apply (normalizeOptionalNumber_again _ _ "min") in Hmn. apply (normalizeOptionalNumber_again _ _ "max") in Hmx.
  apply (normalizeOptionalNumber_again _ _ "step") in Hst. apply (normalizeString_again _ _ "configuration.data.name") in Hname.
  apply (normalizeString_again _ _ "configuration.data.help") in Hhelp. apply (normalizeString_again _ _ "configuration.data.options") in Hopt.
  unfold normalizeConfigItem, item_value. cbn [ci_type ci_key ci_name ci_help ci_options ci_min ci_max ci_step ci_default].
  set (keys := match key with Some k => _ | None => _ end).
  assert (Hkeys : keys = [] ∨ ∃ k, key = Some k ∧ keys = [("key", JStr k)]).
  { unfold keys. destruct key as [k|]; [| by left]. right. exists k. split; [done |]. by rewrite (proj1 (Hkey k eq_refl)). }
  set (L := _ ++ keys ++ _).
  assert (HL : fld L "type" = JStr (type_name type) ∧ fld L "min" = opt_num_value mn ∧ fld L "max" = opt_num_value mx
    ∧ fld L "step" = opt_num_value st ∧ fld L "name" = JStr name ∧ fld L "help" = JStr help ∧ fld L "options" = JStr options
    ∧ fld L "default" = fld fs "default") by (unfold L; destruct Hkeys as [-> | (k & _ & ->)]; repeat split; reflexivity).
  destruct HL as (-> & -> & -> & -> & -> & -> & -> & ->). rewrite read_type_name.
  assert (Hread : match type with
                  | Title => Ok None
                  | _ => let* k := normalizeString (fld L "key") "configuration.data.key" 96 true in Ok (Some k)
                  end = Ok key).
  { destruct type, key as [k|]; try (apply rbind_Ok in Hk as (k' & _ & [=])); try discriminate Hk; try reflexivity;
      destruct (Hkey k eq_refl) as [Hne Hs];
      assert (Hl : fld L "key" = JStr k) by (unfold L, keys; rewrite Hne; reflexivity); by rewrite Hl, Hs. }
  rewrite Hread. cbn [rbind]. rewrite Hmn. cbn [rbind]. rewrite Hmx. cbn [rbind]. rewrite Hst. cbn [rbind]. rewrite E1, E2, Hname.
  cbn [rbind]. rewrite Hhelp. cbn [rbind]. rewrite Hopt. reflexivity.
Qed.

Lemma config_items_again i vs xs :
  config_items i vs = Ok xs →
  config_items i (map item_value xs) = Ok xs ∧ Forall (λ x, ∀ k, ci_key x = Some k → nonempty k = true) xs.
Proof.
  revert i xs. induction vs as [|v vs IH]; intros i xs; cbn [config_items]; [by intros [= <-] |].
  intros (x & Hx & H)%rbind_Ok. apply rbind_Ok in H as (r & Hr & H). injection H as <-.
  destruct (config_item_again i i v x Hx) as [H1 H2]. destruct (IH _ _ Hr) as [H3 H4]. cbn [map config_items].
  rewrite H1. cbn [rbind]. rewrite H3. split; [done | by constructor].
Qed.

Lemma manifest_data v m :
  normalizeThemeManifest v = Ok m →
  is_slug (short m) = true ∧ short m ≠ "default" ∧ is_theme_path (style m) = true ∧ extensionOf (style m) = ".css"
  ∧ (preview m = "" ∨ is_theme_path (preview m) = true ∧ mem (extensionOf (preview m)) IMAGE_EXTENSIONS = true)
  ∧ (∀ m', normalizeThemeManifest (manifest_value m) = Ok m' → data m' = data m).
Proof.
  assert (Hi : ∀ m', normalizeThemeManifest (manifest_value m) = Ok m' → normalizeConfigItems (JArr (map item_value (data m))) = Ok (data m')).
  { intros m' Hm. unfold normalizeThemeManifest, manifest_value in Hm.
    set (d := JArr (map item_value (data m))) in *. change (fld (as_object (fld _ "configuration")) "data") with d in Hm.
    repeat (apply rbind_Ok in Hm as (? & ? & Hm) || (match type of Hm with (if ?b then _ else _) = _ => destruct b; [done |] end)).
    injection Hm as <-. done. }
  unfold normalizeThemeManifest. destruct v as [| | | | | |fs]; try done. intros (sh & Hsh & H)%rbind_Ok.
  destruct (_ || _) eqn:Es; [done |]. apply orb_false_iff in Es as [Es1%jeq_false Es2%negb_false_iff].
  apply rbind_Ok in H as (st & _ & H). apply rbind_Ok in H as (path & Hpath%normalizeThemePath_ok & H).
  destruct (negb _) eqn:Ee; [done |]. apply negb_false_iff, jeq_true in Ee. apply rbind_Ok in H as (pv & Hpv & H).
  destruct (nonempty pv && _) eqn:Ep; [discriminate H |].
  match type of H with (if ?b then _ else _) = _ => destruct b; [discriminate H |] end.
  apply rbind_Ok in H as (nm & _ & H). apply rbind_Ok in H as (ds & _ & H). apply rbind_Ok in H as (vs & _ & H).
  apply rbind_Ok in H as (au & _ & H). apply rbind_Ok in H as (ur & _ & H). apply rbind_Ok in H as (items & Hitems & H).
  injection H as <-. cbn [short style preview data] in *.
  split; [done |]. split; [done |]. split; [done |]. split; [done |]. split.
  - destruct (nonempty pv) eqn:En; [| left; by apply nonempty_false]. right. cbn [andb] in Ep. apply negb_false_iff in Ep. split; [| done].
    destruct (truthy (fld fs "preview")); [apply rbind_Ok in Hpv as (p & _ & Hp); by apply normalizeThemePath_ok in Hp |].
    injection Hpv as <-. vm_compute in En. discriminate En.
  - intros m' Hm'. specialize (Hi m' Hm'). unfold normalizeConfigItems in Hitems, Hi.
    destruct (fld (as_object (fld fs "configuration")) "data"); try discriminate Hitems.
    + injection Hitems as <-. by injection Hi as <-.
    + injection Hitems as <-. by injection Hi as <-.
    + destruct (config_items_again _ _ _ Hitems) as [Ha _]. rewrite Ha in Hi. by injection Hi as <-.
Qed.

(** *** Configurations *)

(** What a value of an item may be. *)
Definition config_value_ok (URL : jstr → option url) (i : ThemeConfigItem) (v : jsval) : Prop :=
  match ci_type i with
  | Switch => ∃ b, v = JBool b
  | Number | Range => ∃ n, v = JNum n ∧ is_finite n = true ∧ (∀ lo, ci_min i = Some lo → num_lt n lo = false)
                           ∧ (∀ hi, ci_max i = Some hi → num_lt hi n = false)
  | Color => ∃ s, v = JStr s ∧ is_color s = true
  | Select => ∃ s, v = JStr s ∧ (select_options i = [] ∨ s ∈ select_options i)
  | Image => ∃ s, v = JStr s ∧ (s = "" ∨ any_unit (λ u, (u <=? 31) || (u =? 127))%N s = false
                                         ∧ (starts_with "/" s = true ∧ starts_with "//" s = false
                                            ∨ ∃ u, URL s = Some u ∧ protocol u = "https:" ∧ username u = "" ∧ password u = ""))
  | Title | String | Richtext => ∃ s, v = JStr s
  end.

Lemma safe_image URL s :
  isSafeImageConfigValue URL s = true →
  s = "" ∨ any_unit (λ u, (u <=? 31) || (u =? 127))%N s = false
           ∧ (starts_with "/" s = true ∧ starts_with "//" s = false ∨ ∃ u, URL s = Some u ∧ protocol u = "https:" ∧ username u = "" ∧ password u = "").
Proof.
  unfold isSafeImageConfigValue. destruct (nonempty s) eqn:En; cbn [negb]; [| intros _; left; by apply nonempty_false].
  destruct (any_unit _ s); [done |]. destruct (starts_with "/" s && negb (starts_with "//" s)) eqn:Es.
  { apply andb_true_iff in Es as [E1 E2%negb_true_iff]. intros _. right. split; [done | by left]. }
  destruct (URL s) as [u|] eqn:Eu; [| done]. rewrite !andb_true_iff, !negb_true_iff, !nonempty_false, jeq_true. intros [[H1 H2] H3].
  right. split; [done |]. right. by exists u.
Qed.
Lemma config_value_typed URL i k v w : normalize_config_value URL i k v = Ok w → config_value_ok URL i w.
Proof.
  unfold normalize_config_value, config_value_ok. destruct (ci_type i); try (intros [= <-]; by eexists).
  - destruct (negb _ && _) eqn:E; [done |]. intros [= <-]. eexists. split; [done |].
    apply andb_false_iff in E as [E%negb_false_iff%bool_decide_eq_true | E%negb_false_iff%mem_spec]; [by left | by right].
  - destruct (is_finite (to_num v)) eqn:Ef; [| done]. cbn [negb]. destruct (_ || _) eqn:E; [done |]. intros [= <-].
    apply orb_false_iff in E as [E1 E2]. eexists. split; [done |]. split; [done |]. split; intros x Hx; [by rewrite Hx in E1 | by rewrite Hx in E2].
  - destruct (is_color _) eqn:E; [| done]. intros [= <-]. by eexists.
  - destruct (isSafeImageConfigValue URL (trim (to_str v))) eqn:E; [| done]. intros [= <-]. eexists. split; [done |]. by apply safe_image.
  - destruct (is_finite (to_num v)) eqn:Ef; [| done]. cbn [negb]. destruct (_ || _) eqn:E; [done |]. intros [= <-].
    apply orb_false_iff in E as [E1 E2]. eexists. split; [done |]. split; [done |]. split; intros x Hx; [by rewrite Hx in E1 | by rewrite Hx in E2].
Qed.

(** Where each value of a configuration comes from. *)
Lemma config_values_spec URL items input config out :
  config_values URL items input config = Ok out →
  ∀ k v, (k, v) ∈ out →
    (k, v) ∈ config ∨ ∃ i, (k, i) ∈ items ∧ (config_value_ok URL i v ∨ fld input k = JUndef ∧ v = ci_default i ∧ is_undef (ci_default i) = false).
Proof.
  revert config. induction items as [|[key i] items IH]; intros config; cbn [config_values].
  { intros [= <-] k v Hin. by left. }
  assert (Hstep : ∀ w, (config_value_ok URL i w ∨ fld input key = JUndef ∧ w = ci_default i ∧ is_undef (ci_default i) = false) →
    config_values URL items input (set_field key w config) = Ok out →
    ∀ k v, (k, v) ∈ out → (k, v) ∈ config ∨ ∃ j, (k, j) ∈ (key, i) :: items
       ∧ (config_value_ok URL j v ∨ fld input k = JUndef ∧ v = ci_default j ∧ is_undef (ci_default j) = false)).
  { intros w Hw H k v Hin. destruct (IH _ H k v Hin) as [Hc | (j & Hj & Hv)]; [| right; exists j; split; [by right | done]].
    apply set_field_elem in Hc as [[= -> ->] | Hc]; [right; exists i; split; [left | done] | by left]. }
  assert (Hval : ∀ value, fld input key = value → value ≠ JUndef → (let* v := normalize_config_value URL i key value in config_values URL items input (set_field key v config)) = Ok out →
    ∀ k v, (k, v) ∈ out → (k, v) ∈ config ∨ ∃ j, (k, j) ∈ (key, i) :: items
       ∧ (config_value_ok URL j v ∨ fld input k = JUndef ∧ v = ci_default j ∧ is_undef (ci_default j) = false)).
  { intros value _ _ (w & Hw & H)%rbind_Ok. apply (Hstep w); [left; by eapply config_value_typed | done]. }
  destruct (fld input key) eqn:Ef; try (apply Hval; [done | by intros [=]]).
  destruct (is_undef (ci_default i)) eqn:Eu; [| apply Hstep; by right].
  intros H k v Hin. destruct (IH _ H k v Hin) as [Hc | (j & Hj & Hv)]; [by left | right; exists j; split; [by right | done]].
Qed.

(** The default configuration gives every item with a default a value. *)
Lemma default_config_defined m k i : (k, i) ∈ keyed_items m → is_undef (ci_default i) = false → fld (defaultConfigForManifest m) k ≠ JUndef.
Proof.
  unfold keyed_items, defaultConfigForManifest. set (f := fold_left _). intros Hin Hd.
  assert (Hgen : ∀ items config, (∃ j, j ∈ items ∧ ci_key j = Some k ∧ nonempty k = true ∧ is_undef (ci_default j) = false) ∨ fld config k ≠ JUndef →
            fld (f items config) k ≠ JUndef).
  { unfold f. induction items as [|j items IH]; intros config [(j' & Hj & Hk) | Hc]; [by apply not_elem_of_nil in Hj | done | |]; cbn [fold_left]; apply IH.
    - apply elem_of_cons in Hj as [<- | Hj]; [| left; by exists j']. right. destruct Hk as (Hk & Hne & Hu). rewrite Hk, Hne, Hu. cbn [andb negb].
      rewrite fld_set_field. destruct (decide _); [| done]. intros E. by rewrite E in Hu.
    - right. destruct (ci_key j) as [k'|]; [| done]. destruct (nonempty k' && negb (is_undef (ci_default j))) eqn:E; [| done].
      apply andb_true_iff in E as [_ E%negb_true_iff]. rewrite fld_set_field. destruct (decide _); [| done]. intros E'. by rewrite E' in E. }
  apply Hgen. left. apply list_elem_of_omap in Hin as (j & Hj & Hk). exists j. split; [done |].
  destruct (ci_key j) as [k'|]; [| done]. destruct (nonempty k') eqn:En; [| done]. injection Hk as -> ->. done.
Qed.

(** ** Properties *)

(** A validated configuration: every value is one its item allows, or the item's own
    default for a key the input does not give. *)
Lemma validate_config_typed URL m c config :
  validateThemeConfig URL m c = Ok (Ok config) →
  ∃ manifest, normalizeThemeManifest m = Ok manifest
    ∧ ∀ k v, (k, v) ∈ config → ∃ i, (k, i) ∈ keyed_items manifest
        ∧ (config_value_ok URL i v ∨ fld (as_object c) k = JUndef ∧ v = ci_default i ∧ is_undef (ci_default i) = false).
Proof.
  unfold validateThemeConfig. intros (manifest & Hm & H)%rbind_Ok. exists manifest. split; [done |].
  destruct (List.find _ _); [done |]. injection H as H. intros k v Hin.
  destruct (config_values_spec URL _ _ _ _ H k v Hin) as [?%not_elem_of_nil | Hi]; [done | exact Hi].
Qed.

(** The assets stored for the files of an archive. *)
Lemma stored_assets declared bytes entries assets :
  directory_ok declared bytes → files_ok declared entries → length entries = length declared → MANIFEST_FILE ∈ map fst entries →
  theme_assets entries = Ok assets →
  (length assets ≤ 32)%nat ∧ NoDup (map as_path assets) ∧ sumZ (map size_bytes assets) ≤ MAX_UNZIPPED_BYTES
  ∧ (∀ path, path ∈ map fst entries → path ≠ MANIFEST_FILE → path ∈ map as_path assets).
Proof.
  intros Hdir Hfiles Hlen Hman Hassets. destruct (theme_assets_spec _ _ Hassets) as [Hsized _].
  set (kept := List.filter (λ p : jstr * list Z, negb (jeq p.1 MANIFEST_FILE)) entries) in *.
  assert (Hpaths : map as_path assets = map fst kept).
  { apply (f_equal (map fst)) in Hsized. unfold sized in Hsized. by rewrite !map_map in Hsized. }
  assert (Hsizes : map size_bytes assets = map snd (sized kept)).
  { apply (f_equal (map snd)) in Hsized. by rewrite map_map in Hsized. }
  assert (Hkept : ∀ p, p ∈ kept ↔ p ∈ entries ∧ p.1 ≠ MANIFEST_FILE).
  { intros p. unfold kept. rewrite list_elem_of_In, filter_In, <- list_elem_of_In, negb_true_iff, jeq_false. done. }
  destruct Hdir as (Hnd & Hl & Ht & Hb & Hall). destruct Hfiles as [Hfn Hff].
  assert (Hnodup : NoDup (map fst kept)).
  { clear -Hfn. unfold kept. induction entries as [|[k b] r IH]; [constructor |]. cbn [map List.filter fst] in *.
    apply NoDup_cons in Hfn as [Hk Hr]. destruct (negb (jeq k MANIFEST_FILE)); [| by apply IH]. cbn [map fst]. constructor; [| by apply IH].
    intros Hin. apply Hk. apply list_elem_of_fmap in Hin as (q & -> & Hq). apply list_elem_of_In, filter_In in Hq as [Hq _].
    apply list_elem_of_fmap. exists q. split; [done | by apply list_elem_of_In]. }
  split; [| split; [by rewrite Hpaths | split]].
  - rewrite <- (length_map as_path), Hpaths. assert (Hsub : MANIFEST_FILE :: map fst kept ⊆+ map fst entries).
    { apply NoDup_submseteq.
      - constructor; [| done]. intros Hin. apply list_elem_of_fmap in Hin as (q & Hq & Hin). apply Hkept in Hin as [_ Hne]. by rewrite <- Hq in Hne.
      - intros x [-> | Hx]%elem_of_cons; [done |]. apply list_elem_of_fmap in Hx as (q & -> & Hq). apply Hkept in Hq as [Hq _].
        apply list_elem_of_fmap. by exists q. }
    apply submseteq_length in Hsub. rewrite (length_map fst entries), Hlen in Hsub. cbn [length] in Hsub. lia.
  - rewrite Hsizes. apply (files_total declared bytes).
    + done.
    + split; [done |]. intros p b Hin. apply Hkept in Hin as [Hin _]. by apply Hff.
  - intros path Hin Hne. rewrite Hpaths. apply list_elem_of_fmap in Hin as (q & -> & Hq). apply list_elem_of_fmap. exists q. split; [done |].
    by apply Hkept.
Qed.

(** One of them. *)
Lemma stored_asset declared bytes entries assets a :
  directory_ok declared bytes → files_ok declared entries → theme_assets entries = Ok assets → a ∈ assets →
  starts_with "/" (as_path a) = false ∧ includes "\" (as_path a) = false
  ∧ (∀ part, part ∈ split_on (chr 47) (as_path a) → part ≠ "" ∧ part ≠ "." ∧ part ≠ "..")
  ∧ extensionOf (as_path a) ∈ ALLOWED_EXTENSIONS
  ∧ size_bytes a ≤ (if jeq (extensionOf (as_path a)) ".css" then 262144 else 524288)
  ∧ ∃ bytes, size_bytes a = Z.of_nat (length bytes) ∧ (Forall is_byte bytes → atob (units (content_base64 a)) = Some bytes).
Proof.
  intros (_ & _ & _ & _ & Hall) [_ Hff] Hassets Ha. destruct (theme_assets_spec _ _ Hassets) as [_ Hasset].
  destruct (Hasset a Ha) as (Hne & b & Hb & _ & Hc & Hs). destruct (Hff _ _ Hb) as (e & He & Hsz).
  rewrite Forall_forall in Hall. destruct (Hall _ He) as [(Hp & Hext & _) [_ Hlim]]. cbn [fst snd] in *.
  unfold is_theme_path in Hp. rewrite !andb_true_iff, !negb_true_iff in Hp. destruct Hp as [[[_ H1] H2] H3].
  split; [done |]. split; [done |]. split; [| split; [| split]].
  - intros part Hpart. rewrite existsb_false in H3. specialize (H3 part Hpart). rewrite !orb_false_iff, negb_false_iff, !jeq_false, nonempty_true in H3.
    naive_solver.
  - by apply mem_spec.
  - unfold themeFileByteLimit in Hlim. rewrite Hs, <- Hsz. destruct (jeq (as_path a) MANIFEST_FILE) eqn:E; [by apply jeq_true in E |].
    by destruct (jeq (extensionOf (as_path a)) ".css").
  - exists b. split; [done |]. intros Hbytes. rewrite Hc. cbn [units]. rewrite bytesToBase64_btoa by done. by apply atob_btoa.
Qed.



(** The variables a configuration puts into the page's style cannot end their
    declaration or the block. *)
Lemma theme_variables_closed config line :
  line ∈ css_variables config → ∃ body, line = body +++ ";" ∧ all_units css_unit body = true.
Proof.
  unfold css_variables. intros ([k v] & -> & Hin)%list_elem_of_fmap. apply list_elem_of_In, filter_In in Hin as [_ Hk]. cbn [fst snd] in *.
  exists ("  --cf-theme-" +++ k +++ ": " +++ cssVarValue v). split.
  { unfold app. cbn [units]. by rewrite <- !(assoc_L (++)). }
  assert (Hslug : forallb css_unit (units k) = true).
  { unfold is_slug, all_units1 in Hk. apply andb_true_iff in Hk as [_ Hk]. unfold all_units in Hk. rewrite forallb_forall in *. intros u Hu.
    specialize (Hk u Hu). unfold slug_unit, is_alnum, is_alpha, is_upper, is_lower, is_digit in Hk. unfold css_unit.
    apply negb_true_iff. rewrite !orb_false_iff, !N.eqb_neq. rewrite !orb_true_iff, !andb_true_iff, !N.leb_le, !N.eqb_eq in Hk. lia. }
  assert (Hval : forallb css_unit (units (cssVarValue v)) = true).
  { assert (Hf : ∀ l, forallb css_unit (units (trim (JS (List.filter css_unit l)))) = true).
    { intros l. apply trim_forallb. cbn [units]. apply forallb_forall. intros u Hu. by apply filter_In in Hu as [_ Hu]. }
    unfold cssVarValue. destruct v as [| |[]| | | |]; first [apply Hf | reflexivity]. }
  unfold all_units, app. cbn [units]. rewrite !forallb_app, Hslug, Hval. reflexivity.
Qed.

(** The prefix [./] is removed after trimming, so a path may keep a leading space:
    normalizing it again gives another path. *)
Lemma theme_path_not_idempotent :
  normalizeThemePath (JStr "./ a.css") = Ok " a.css" ∧ normalizeThemePath (JStr " a.css") = Ok "a.css".
Proof. split; vm_compute; reflexivity. Qed.
