(* ===== verification/Delivery.v ===== *)
(** * Delivering a notification once: [utils/notification-dispatch.ts],
    [index.ts] and the delivery ledger of the database

    A delivery is claimed in the ledger before it is sent and completed
    afterwards, under a token that expires.  Workers of different cron
    invocations interleave between any two of these calls, may stop anywhere and
    may lose the database's answer; rules and nodes may be edited or removed
    meanwhile.  Ledger times are microseconds, the times of workers
    milliseconds. *)

From S2P Require Import Prelude JsStr.
#[local] Open Scope Z_scope.

(** ** The ledger *)

Inductive delivery_status := Pending | Failed | Sent.
#[global] Instance delivery_status_eq_dec : EqDecision delivery_status.
Proof. solve_decision. Defined.
(** @supabase/migrations/4_rpc_api.sql:5565-5575 notification_delivery_state
    -- a row; its key is the key of the map *)
Record delivery_row := {
  event_id : jstr; status : delivery_status; attempts : Z; next_attempt_at : Z; claim_token : option jstr;
  delivered_at : option Z; updated_at : Z; retired_at : option Z;
}.
Abbreviation ledger := (gmap jstr delivery_row).

(** The rows of other tables that own deliveries: nodes by uuid, website
    monitors by the text of their id with [enabled], the offline and expiry rules
    of a node with [enable <> 0], and load rules by the text of their id with the
    nodes they name, none meaning all. *)
Record owners := {
  o_clients : gset jstr; o_websites : gmap jstr bool; o_offline : gmap jstr bool; o_expiry : gmap jstr bool;
  o_load : gmap jstr (list jstr);
}.
Definition offline_rule (o : owners) (client : jstr) : bool :=
  bool_decide (client ∈ o_clients o) && default false (o_offline o !! client).
Definition expiry_rule (o : owners) (client : jstr) : bool :=
  bool_decide (client ∈ o_clients o) && default false (o_expiry o !! client).
Definition load_rule (o : owners) (id client : jstr) : bool :=
  bool_decide (client ∈ o_clients o)
  && match o_load o !! id with Some [] => true | Some l => mem client l | None => false end.
Definition website_rule (o : owners) (id : jstr) : bool := default false (o_websites o !! id).

(** @supabase/migrations/4_rpc_api.sql:5585-5640 notification_delivery_entity_exists -- [None] is null *)
Definition entity_exists (o : owners) (key : jstr) : option bool :=
  if starts_with "website:" key && all_units1 is_digit (slice_from 8 key) then Some (website_rule o (slice_from 8 key))
  else if starts_with "offline:" key then
    if nonempty (slice_from 8 key) then Some (offline_rule o (slice_from 8 key)) else None
  else if starts_with "expiry:" key then
    if nonempty (slice_from 7 key) then Some (expiry_rule o (slice_from 7 key)) else None
  else if starts_with "load:" key then
    let rest := units (slice_from 5 key) in
    let id := take_while is_digit rest in
    match id, drop_while is_digit rest with
    | _ :: _, 58%N :: (_ :: _) as client => Some (load_rule o (JS id) (JS (tail client)))
    | _, _ => None
    end
  else None.

(** [char_length(t) between 1 and 512] *)
Definition valid_text (t : jstr) : bool :=
  let n := Z.of_nat (length (js_points (units t))) in (1 <=? n) && (n <=? 512).

Record claim_answer := { claimed : bool; delivered : bool; token : option jstr }.
Definition refused : claim_answer := {| claimed := false; delivered := false; token := None |}.
Definition SECOND : Z := 1000000.
(** @supabase/migrations/4_rpc_api.sql:5734-5734 interval '90 seconds' *)
Definition LEASE : Z := 90 * SECOND.
(** A claim that is not over: [status = 'pending' and claim_token is not null
    and next_attempt_at > input_now]. *)
Definition leased (now : Z) (r : delivery_row) : bool :=
  bool_decide (status r = Pending) && bool_decide (is_Some (claim_token r)) && (now <? next_attempt_at r).
(** [retired_at is null and event_id = input_event_id] *)
Definition same_event (event : jstr) (r : delivery_row) : bool :=
  bool_decide (retired_at r = None) && jeq (event_id r) event.
Definition claimed_row (now : Z) (event uuid : jstr) (r : delivery_row) : delivery_row :=
  {| event_id := event; status := Pending;
     attempts := if negb (same_event event r) || bool_decide (status r = Sent) then 1
                 else Z.min (attempts r + 1) 100000;
     next_attempt_at := now + LEASE; claim_token := Some uuid; delivered_at := None; updated_at := now;
     retired_at := None |}.
Definition with_token (t : jstr) (r : delivery_row) : delivery_row :=
  {| event_id := event_id r; status := status r; attempts := attempts r; next_attempt_at := next_attempt_at r;
     claim_token := Some t; delivered_at := delivered_at r; updated_at := updated_at r; retired_at := retired_at r |}.
(** @supabase/migrations/4_rpc_api.sql:5689-5738 cfm_claim_notification_delivery
    -- [uuid] is the token [gen_random_uuid()] returns, [None] an exception of a
    check on the row *)
Definition claim (o : owners) (key event : jstr) (now repeat_ms : Z) (uuid : jstr) (l : ledger) : option claim_answer * ledger :=
  if bool_decide (entity_exists o key = Some false) then (Some refused, l)
  else if negb (valid_text key && valid_text event) then (None, l)
  else
    let r := default {| event_id := event; status := Pending; attempts := 0; next_attempt_at := now; claim_token := None;
                        delivered_at := None; updated_at := now; retired_at := None |} (l !! key) in
    let l := <[key := r]> l in
    let grant := (Some {| claimed := true; delivered := false; token := Some uuid |},
                  <[key := claimed_row now event uuid r]> l) in
    if leased now r then (Some refused, l)
    else if same_event event r then
      if bool_decide (status r = Sent) && (repeat_ms <=? 0) then
        let t := default uuid (claim_token r) in
        (Some {| claimed := false; delivered := true; token := Some t |}, <[key := with_token t r]> l)
      else if now <? next_attempt_at r then (Some refused, l)
      else grant
    else grant.

(** @supabase/migrations/4_rpc_api.sql:5762-5764 backoff -- the delay after a
    failure, in microseconds *)
Definition backoff (attempts : Z) : Z := Z.min 1800 (120 * 2 ^ Z.min (Z.max (attempts - 1) 0) 4) * SECOND.
Definition holds_claim (event tok : jstr) (r : delivery_row) : bool :=
  jeq (event_id r) event && bool_decide (claim_token r = Some tok) && bool_decide (status r = Pending).
Definition completed_row (success : bool) (tok : jstr) (now repeat_ms : Z) (r : delivery_row) : delivery_row :=
  {| event_id := event_id r; status := if success then Sent else Failed; attempts := attempts r;
     next_attempt_at := now + (if success then Z.min (Z.max repeat_ms 0) 604800000 * 1000 else backoff (attempts r));
     claim_token := if success then Some tok else None;
     delivered_at := if success then Some now else delivered_at r; updated_at := now; retired_at := retired_at r |}.
(** @supabase/migrations/4_rpc_api.sql:5740-5771 cfm_complete_notification_delivery *)
Definition complete (key event tok : jstr) (success : bool) (now repeat_ms : Z) (l : ledger) : bool * ledger :=
  match l !! key with
  | Some r =>
    if holds_claim event tok r then
      match retired_at r with
      | Some _ => (false, delete key l)
      | None => (true, <[key := completed_row success tok now repeat_ms r]> l)
      end
    else (false, l)
  | None => (false, l)
  end.

Definition with_retired (t : Z) (r : delivery_row) : delivery_row :=
  {| event_id := event_id r; status := status r; attempts := attempts r; next_attempt_at := next_attempt_at r;
     claim_token := claim_token r; delivered_at := delivered_at r; updated_at := updated_at r;
     retired_at := Some (default t (retired_at r)) |}.
(** @supabase/migrations/4_rpc_api.sql:5656-5666 retire_notification_deliveries
    (one key) *)
Definition retire (now : Z) (key : jstr) (l : ledger) : ledger :=
  match l !! key with
  | Some r => if leased now r then <[key := with_retired now r]> l else delete key l
  | None => l
  end.
(** @supabase/migrations/4_rpc_api.sql:5648-5668 retire_notification_deliveries *)
Definition retire_notification_deliveries (now : Z) (keys : list jstr) (l : ledger) : ledger :=
  fold_left (λ l key, retire now key l) keys l.
(** @supabase/migrations/4_rpc_api.sql:5931-5949 cfm_cleanup_notification_delivery_state (one row) -- a candidate is retired
    while it is leased and removed otherwise *)
Definition cleanup (o : owners) (now : Z) (key : jstr) (l : ledger) : ledger :=
  match l !! key with
  | Some r =>
    let orphan := bool_decide (entity_exists o key = Some false) in
    match retired_at r with
    | Some _ => if leased now r then l else delete key l
    | None => if orphan then if leased now r then <[key := with_retired now r]> l else delete key l else l
    end
  | None => l
  end.
(** @supabase/migrations/4_rpc_api.sql:5913-5949 cfm_cleanup_notification_delivery_state -- [keys] are the rows its batches
    take, in key order *)
Definition cleanup_notification_delivery_state (o : owners) (now : Z) (keys : list jstr) (l : ledger) : ledger :=
  fold_left (λ l key, cleanup o now key l) keys l.
(** @supabase/migrations/4_rpc_api.sql:5966-5977 notification_delivery_token_matches *)
Definition token_matches (key tok : jstr) (l : ledger) : bool :=
  match l !! key with
  | Some r => bool_decide (claim_token r = Some tok) && bool_decide (status r = Sent) && bool_decide (retired_at r = None)
  | None => false
  end.

(** ** A delivery *)

(** What a failed call raises: [ScheduledBudgetExceeded] or another error. *)
Inductive raised := Exceeded | Error.
Definition outcome := result raised.
(** [claim.token] when it is truthy. *)
Definition given_token (c : claim_answer) : option jstr :=
  match token c with Some t => if nonempty t then Some t else None | None => None end.

Section Deliver.
Context {W : Type} (claim : W → outcome claim_answer * W) (complete : jstr → bool → W → outcome bool * W)
        (send : W → outcome bool * W) (onDelivered : option (jstr → W → outcome bool * W)).
(** @worker/src/utils/notification-dispatch.ts:11-34 deliverNotification *)
Definition deliverNotification (w : W) : outcome bool * W :=
  let '(c, w) := claim w in
  match c with
  | Err e => (Err e, w)
  | Ok c =>
    if delivered c then
      match onDelivered with
      | None => (Ok true, w)
      | Some f => match given_token c with Some t => f t w | None => (Ok false, w) end
      end
    else if negb (claimed c) then (Ok false, w)
    else match given_token c with
    | None => (Ok false, w)
    | Some t =>
      let '(r, w) := send w in
      match r with
      | Err Exceeded => (Err Exceeded, w)
      | _ =>
        let sent := match r with Ok b => b | Err _ => false end in
        let '(recorded, w) := complete t sent w in
        match recorded with
        | Err e => (Err e, w)
        | Ok recorded =>
          if negb sent || negb recorded then (Ok false, w)
          else match onDelivered with Some f => f t w | None => (Ok true, w) end
        end
      end
    end
  end.
End Deliver.

(** The same body cut at its [await]s: the phase a delivery is in between two
    calls, and the phase the answer of a call leads to. *)
Inductive phase :=
| Claiming
| Sending (tok : jstr)
| Completing (tok : jstr) (sent : bool)
| Confirming (tok : jstr)
| Finished (o : outcome bool).
Definition confirm_phase (confirms : bool) (tok : jstr) : phase := if confirms then Confirming tok else Finished (Ok true).
(** @worker/src/utils/notification-dispatch.ts:17-22 deliverNotification (claimed) *)
Definition after_claim (confirms : bool) (c : outcome claim_answer) : phase :=
  match c with
  | Err e => Finished (Err e)
  | Ok c =>
    if delivered c then
      if confirms then match given_token c with Some t => Confirming t | None => Finished (Ok false) end
      else Finished (Ok true)
    else if negb (claimed c) then Finished (Ok false)
    else match given_token c with Some t => Sending t | None => Finished (Ok false) end
  end.
(** @worker/src/utils/notification-dispatch.ts:23-29 deliverNotification (sent) *)
Definition after_send (tok : jstr) (r : outcome bool) : phase :=
  match r with
  | Ok sent => Completing tok sent
  | Err Exceeded => Finished (Err Exceeded)
  | Err Error => Completing tok false
  end.
(** @worker/src/utils/notification-dispatch.ts:30-33 deliverNotification (completed) *)
Definition after_complete (confirms : bool) (tok : jstr) (sent : bool) (r : outcome bool) : phase :=
  match r with
  | Err e => Finished (Err e)
  | Ok recorded => if negb sent || negb recorded then Finished (Ok false) else confirm_phase confirms tok
  end.

(** The phases are the body: driven to its end, a delivery gives what
    [deliverNotification] gives. *)
Section Drive.
Context {W : Type} (claim : W → outcome claim_answer * W) (complete : jstr → bool → W → outcome bool * W)
        (send : W → outcome bool * W) (onDelivered : option (jstr → W → outcome bool * W)).
Definition next_phase (x : phase * W) : phase * W :=
  let '(p, w) := x in
  let confirms := match onDelivered with Some _ => true | None => false end in
  match p with
  | Claiming => let '(c, w) := claim w in (after_claim confirms c, w)
  | Sending t => let '(r, w) := send w in (after_send t r, w)
  | Completing t sent => let '(r, w) := complete t sent w in (after_complete confirms t sent r, w)
  | Confirming t => match onDelivered with Some f => let '(r, w) := f t w in (Finished r, w) | None => (p, w) end
  | Finished _ => (p, w)
  end.
End Drive.
Lemma deliverNotification_phases {W} claim complete send onDelivered (w : W) :
  let next := next_phase claim complete send onDelivered in
  next (next (next (next (Claiming, w)))) =
  let '(r, w') := deliverNotification claim complete send onDelivered w in (Finished r, w').
Proof.
  cbv zeta. unfold deliverNotification. cbn [next_phase]. destruct (claim w) as [[c|e] w1]; [| done]. cbn [after_claim].
  destruct (delivered c).
  { destruct onDelivered as [f|]; [| done]. destruct (given_token c) as [t|]; [| done]. cbn. by destruct (f t w1). }
  destruct (claimed c), (given_token c) as [t|]; try done. cbn. destruct (send w1) as [[sent|[]] w2]; [| done |]; cbn.
  - destruct (complete t sent w2) as [[recorded|] w3]; [cbn | done].
    destruct sent, recorded; try done. cbn. destruct onDelivered as [f|]; [| done]. cbn. by destruct (f t w3).
  - by destruct (complete t false w2) as [[[]|] w3].
Qed.

(** ** Interleaved deliveries *)

(** What is notified: the key of the delivery and the rule it confirms. *)
Inductive job := Offline (client : jstr) | Expiry (client : jstr) | Load (id client : jstr) | Website (id : jstr).
(** @worker/src/index.ts:708-708 runOfflineCheck (key) -- with those of
    runExpiryCheck, runLoadCheck and notifyWebsiteMonitor *)
Definition job_key (j : job) : jstr :=
  match j with
  | Offline client => "offline:" +++ client
  | Expiry client => "expiry:" +++ client
  | Load id client => "load:" +++ id +++ ":" +++ client
  | Website id => "website:" +++ id
  end.
(** @worker/src/utils/website-notifications.ts:35-41 notifyWebsiteMonitor -- passes no
    [onDelivered]; the three others do *)
Definition confirms (j : job) : bool := match j with Website _ => false | _ => true end.
Definition rule_enabled (o : owners) (j : job) : bool :=
  match j with
  | Offline client => offline_rule o client
  | Expiry client => expiry_rule o client
  | Load id client => load_rule o id client
  | Website id => website_rule o id
  end.
(** @supabase/migrations/4_rpc_api.sql:1151-1169 cfm_mark_offline_notification_sent --
    with those of the expiry and load rules: whether the rule's [last_notified] is
    written *)
Definition mark_sent (o : owners) (j : job) (tok : jstr) (l : ledger) : bool :=
  rule_enabled o j && token_matches (job_key j) tok l.

(** @worker/src/index.ts:530-551 sendNotification -- one call of it, [w_now] its
    [now] *)
Record worker := { w_job : job; w_event : jstr; w_repeat : Z; w_now : Z; w_phase : phase }.
Definition in_phase (p : phase) (w : worker) : worker :=
  {| w_job := w_job w; w_event := w_event w; w_repeat := w_repeat w; w_now := w_now w; w_phase := p |}.
Definition w_key (w : worker) : jstr := job_key (w_job w).
Definition w_time (w : worker) : Z := 1000 * w_now w.
(** [marked] are the deliveries whose rule was written, in order. *)
Record system := {
  s_ledger : ledger; s_owners : owners; s_workers : gmap nat worker; s_issued : gset jstr; s_marked : list (jstr * jstr);
}.
Definition init (o : owners) : system :=
  {| s_ledger := ∅; s_owners := o; s_workers := ∅; s_issued := ∅; s_marked := [] |}.
Definition set_ledger (l : ledger) (s : system) : system :=
  {| s_ledger := l; s_owners := s_owners s; s_workers := s_workers s; s_issued := s_issued s; s_marked := s_marked s |}.
Definition set_worker (i : nat) (w : worker) (s : system) : system :=
  {| s_ledger := s_ledger s; s_owners := s_owners s; s_workers := <[i := w]> (s_workers s); s_issued := s_issued s;
     s_marked := s_marked s |}.

(** One event.  A call of the database either answers, or takes effect without
    its answer arriving ([reply] is false); a worker that stops does nothing
    more. *)
Inductive op :=
| Start (i : nat) (j : job) (event : jstr) (repeat_ms now : Z)
| Claim (i : nat) (uuid : jstr) (reply : bool)
| Send (i : nat) (r : outcome bool)
| Complete (i : nat) (reply : bool)
| Confirm (i : nat) (reply : bool)
| Stop (i : nat)
| Retire (keys : list jstr) (now : Z)
| Cleanup (keys : list jstr) (now : Z)
| Edit (o : owners).
Definition answer {A} (reply : bool) (r : option A) : outcome A :=
  match r with Some a => if reply then Ok a else Err Error | None => Err Error end.

Definition step_claim (i : nat) (uuid : jstr) (reply : bool) (w : worker) (s : system) : option system :=
  if bool_decide (uuid ∈ s_issued s) || negb (nonempty uuid) then None
  else
    let '(a, l) := claim (s_owners s) (w_key w) (w_event w) (w_time w) (w_repeat w) uuid (s_ledger s) in
    Some {| s_ledger := l; s_owners := s_owners s;
            s_workers := <[i := in_phase (after_claim (confirms (w_job w)) (answer reply a)) w]> (s_workers s);
            s_issued := {[uuid]} ∪ s_issued s; s_marked := s_marked s |}.
Definition step_complete (i : nat) (reply : bool) (tok : jstr) (sent : bool) (w : worker) (s : system) : system :=
  let '(b, l) := complete (w_key w) (w_event w) tok sent (w_time w) (w_repeat w) (s_ledger s) in
  set_worker i (in_phase (after_complete (confirms (w_job w)) tok sent (answer reply (Some b))) w) (set_ledger l s).
Definition step_confirm (i : nat) (reply : bool) (tok : jstr) (w : worker) (s : system) : system :=
  let b := mark_sent (s_owners s) (w_job w) tok (s_ledger s) in
  let s := set_worker i (in_phase (Finished (answer reply (Some b))) w) s in
  {| s_ledger := s_ledger s; s_owners := s_owners s; s_workers := s_workers s; s_issued := s_issued s;
     s_marked := s_marked s ++ if b then [(w_key w, w_event w)] else [] |}.
(** [None]: the event cannot happen in this state. *)
Definition step (s : system) (e : op) : option system :=
  match e with
  | Start i j event repeat_ms now =>
    match s_workers s !! i with
    | Some _ => None
    | None => Some (set_worker i {| w_job := j; w_event := event; w_repeat := repeat_ms; w_now := now; w_phase := Claiming |} s)
    end
  | Claim i uuid reply =>
    match s_workers s !! i with
    | Some w => match w_phase w with Claiming => step_claim i uuid reply w s | _ => None end
    | None => None
    end
  | Send i r =>
    match s_workers s !! i with
    | Some w => match w_phase w with Sending t => Some (set_worker i (in_phase (after_send t r) w) s) | _ => None end
    | None => None
    end
  | Complete i reply =>
    match s_workers s !! i with
    | Some w => match w_phase w with Completing t sent => Some (step_complete i reply t sent w s) | _ => None end
    | None => None
    end
  | Confirm i reply =>
    match s_workers s !! i with
    | Some w => match w_phase w with Confirming t => Some (step_confirm i reply t w s) | _ => None end
    | None => None
    end
  | Stop i =>
    match s_workers s !! i with
    | Some w => Some (set_worker i (in_phase (Finished (Err Error)) w) s)
    | None => None
    end
  | Retire keys now => Some (set_ledger (retire_notification_deliveries now keys (s_ledger s)) s)
  | Cleanup keys now => Some (set_ledger (cleanup_notification_delivery_state (s_owners s) now keys (s_ledger s)) s)
  | Edit o => Some {| s_ledger := s_ledger s; s_owners := o; s_workers := s_workers s; s_issued := s_issued s; s_marked := s_marked s |}
  end.
Fixpoint run (es : list op) (s : system) : option system :=
  match es with
  | [] => Some s
  | e :: es => match step s e with Some s => run es s | None => None end
  end.

Lemma run_app es1 es2 s : run (es1 ++ es2) s = match run es1 s with Some s => run es2 s | None => None end.
Proof. revert s. induction es1 as [|e es1 IH]; intros s; simpl; [done |]. destruct (step s e); [apply IH | done]. Qed.

(** The clock reading an event brings with it, in microseconds. *)
Definition op_time (e : op) : option Z :=
  match e with
  | Start _ _ _ _ now => Some (1000 * now)
  | Retire _ now | Cleanup _ now => Some now
  | _ => None
  end.
(** The token a delivery has claimed and not given back. *)
Definition held (w : worker) : option jstr :=
  match w_phase w with Sending t | Completing t _ => Some t | _ => None end.

(** ** What each call does to the ledger *)

Definition new_row (event : jstr) (now : Z) : delivery_row :=
  {| event_id := event; status := Pending; attempts := 0; next_attempt_at := now; claim_token := None;
     delivered_at := None; updated_at := now; retired_at := None |}.
Definition row_or_new (event : jstr) (now : Z) (key : jstr) (l : ledger) : delivery_row := default (new_row event now) (l !! key).

(** The five ways a claim ends. *)
Inductive claim_spec (o : owners) (key event : jstr) (now rep : Z) (uuid : jstr) (l : ledger) : option claim_answer → ledger → Prop :=
| claim_unowned : entity_exists o key = Some false → claim_spec o key event now rep uuid l (Some refused) l
| claim_invalid : valid_text key && valid_text event = false → claim_spec o key event now rep uuid l None l
| claim_waits r :
    l !! key = Some r → (leased now r = true ∨ same_event event r = true ∧ now < next_attempt_at r) →
    ¬ (same_event event r = true ∧ status r = Sent ∧ rep ≤ 0) →
    claim_spec o key event now rep uuid l (Some refused) l
| claim_done r :
    l !! key = Some r → same_event event r = true → status r = Sent → rep ≤ 0 →
    claim_spec o key event now rep uuid l
      (Some {| claimed := false; delivered := true; token := Some (default uuid (claim_token r)) |})
      (<[key := with_token (default uuid (claim_token r)) r]> l)
| claim_granted :
    let r := row_or_new event now key l in
    valid_text key && valid_text event = true → leased now r = false →
    (same_event event r = true → next_attempt_at r ≤ now ∧ ¬ (status r = Sent ∧ rep ≤ 0)) →
    claim_spec o key event now rep uuid l (Some {| claimed := true; delivered := false; token := Some uuid |})
      (<[key := claimed_row now event uuid r]> l).

Lemma leased_pending now r : leased now r = true → status r = Pending ∧ is_Some (claim_token r) ∧ now < next_attempt_at r.
Proof. unfold leased. intros. zlia. done. Qed.
Lemma leased_false now r t :
  leased now r = false → claim_token r = Some t → status r = Pending → next_attempt_at r ≤ now.
Proof.
  unfold leased. intros H Ht Hs. rewrite bool_decide_true, bool_decide_true in H by (rewrite ?Ht; eauto). simpl in H. zlia.
Qed.
Lemma claim_correct o key event now rep uuid l :
  claim_spec o key event now rep uuid l (claim o key event now rep uuid l).1 (claim o key event now rep uuid l).2.
Proof.
  unfold claim. fold (new_row event now) (row_or_new event now key l). set (r := row_or_new event now key l).
  case_bool_decide; [by constructor |].
  destruct (valid_text key && valid_text event) eqn:Hv; simpl; [| by constructor].
  assert (Hr : l !! key = Some r ∨ l !! key = None ∧ r = new_row event now).
  { subst r. unfold row_or_new. destruct (l !! key); simpl; auto. }
  assert (Hid : l !! key = Some r → <[key := r]> l = l) by (intros; by apply insert_id).
  assert (Hnew : l !! key = None → leased now r = false ∧ (now <? next_attempt_at r) = false ∧ status r ≠ Sent).
  { intros E. destruct Hr as [|[_ ->]]; [congruence |]. simpl. split; [done |]. split; [lia | done]. }
  destruct (leased now r) eqn:Hl.
  { destruct Hr as [E|[E _]]; [| by apply Hnew in E as []]. rewrite (Hid E). cbn. apply (claim_waits _ _ _ _ _ _ _ r); auto.
    intros (_ & Hs & _). apply leased_pending in Hl as [? _]. congruence. }
  destruct (same_event event r) eqn:He.
  2:{ cbn [fst snd]. rewrite insert_insert_eq. apply claim_granted; fold r; congruence. }
  destruct (bool_decide (status r = Sent) && (rep <=? 0)) eqn:Hs.
  { destruct Hr as [E|[E _]]; [| apply Hnew in E as (_ & _ & ?); zlia; congruence]. rewrite (Hid E). cbn [fst snd].
    apply claim_done; zlia; congruence. }
  assert (Hs' : ¬ (status r = Sent ∧ rep ≤ 0)).
  { intros [Hs1 Hs2]. rewrite bool_decide_true in Hs by done. simpl in Hs. zlia. }
  destruct (now <? next_attempt_at r) eqn:Hn.
  - destruct Hr as [E|[E _]]; [| apply Hnew in E as (_ & ? & _); congruence]. rewrite (Hid E). cbn. apply (claim_waits _ _ _ _ _ _ _ r); [done | |].
    + right. split; [done | zlia].
    + naive_solver.
  - cbn [fst snd]. rewrite insert_insert_eq. apply claim_granted; fold r; [done | done |]. intros _. split; [zlia | done].
Qed.

(** What a call may change: no token appears but the fresh one, and a claim other
    than the one given back ends only at or after its time. *)
Record ledger_step (T : Z) (fresh back : option jstr) (l l' : ledger) := {
  ls_tokens : ∀ k r t, l' !! k = Some r → claim_token r = Some t →
    Some t = fresh ∨ ∃ r0, l !! k = Some r0 ∧ claim_token r0 = Some t;
  ls_lease : ∀ k r t, l !! k = Some r → claim_token r = Some t → status r = Pending → Some t ≠ back → Some t ≠ fresh →
    (∃ r', l' !! k = Some r' ∧ claim_token r' = Some t ∧ status r' = Pending ∧ next_attempt_at r' = next_attempt_at r)
    ∨ (∀ r', l' !! k = Some r' → claim_token r' ≠ Some t) ∧ next_attempt_at r ≤ T;
}.
Lemma ledger_step_refl T f b l : ledger_step T f b l l.
Proof. split; [| intros; left]; eauto. Qed.
Lemma ledger_step_trans T b l1 l2 l3 : ledger_step T None b l1 l2 → ledger_step T None b l2 l3 → ledger_step T None b l1 l3.
Proof.
  intros [T1 L1] [T2 L2]. split.
  - intros k r t H3 Ht. destruct (T2 _ _ _ H3 Ht) as [|(r0 & H2 & Ht0)]; [done | eauto].
  - intros k r t H1 Ht Hs Hb Hf. destruct (L1 _ _ _ H1 Ht Hs Hb Hf) as [(r' & H2 & Ht' & Hs' & Hn')|[H2 Hn]].
    + destruct (L2 _ _ _ H2 Ht' Hs' Hb Hf) as [(r'' & ? & ? & ? & ?)|[? ?]]; [left | right; split; [done | lia]].
      exists r''. repeat split; congruence.
    + right. split; [| done]. intros r' H3 Ht'. destruct (T2 _ _ _ H3 Ht') as [|(r0 & H2' & Ht0)]; [done |]. by apply (H2 r0).
Qed.
(** A call that changes one row. *)
Lemma ledger_step_row T f b k l r1 :
  (∀ t, claim_token r1 = Some t → Some t = f ∨ ∃ r0, l !! k = Some r0 ∧ claim_token r0 = Some t) →
  (∀ r t, l !! k = Some r → claim_token r = Some t → status r = Pending → Some t ≠ b → Some t ≠ f →
     claim_token r1 = Some t ∧ status r1 = Pending ∧ next_attempt_at r1 = next_attempt_at r
     ∨ claim_token r1 ≠ Some t ∧ next_attempt_at r ≤ T) →
  ledger_step T f b l (<[k := r1]> l).
Proof.
  intros Ht Hl. split.
  - intros k' r t. destruct (decide (k' = k)) as [->|Hk]; [rewrite lookup_insert_eq | rewrite lookup_insert_ne by done]; [| eauto].
    intros [= <-]. auto.
  - intros k' r t Hr Htok Hs Hb Hf. destruct (decide (k' = k)) as [->|Hk]; [rewrite lookup_insert_eq | rewrite lookup_insert_ne by done; left; eauto].
    destruct (Hl _ _ Hr Htok Hs Hb Hf) as [?|[? ?]]; [left; eauto | right; split; [by intros ? [= <-] | done]].
Qed.
Lemma ledger_step_delete T f b k l :
  (∀ r t, l !! k = Some r → claim_token r = Some t → status r = Pending → Some t ≠ b → next_attempt_at r ≤ T) →
  ledger_step T f b l (delete k l).
Proof.
  intros Hl. split.
  - intros k' r t [? ?]%lookup_delete_Some. eauto.
  - intros k' r t Hr Htok Hs Hb Hf. destruct (decide (k' = k)) as [->|Hk].
    + right. split; [intros r'; by rewrite lookup_delete_eq | eauto].
    + left. exists r. by rewrite lookup_delete_ne by done.
Qed.
Lemma claim_step o key event now rep uuid l : ledger_step now (Some uuid) None l (claim o key event now rep uuid l).2.
Proof.
  destruct (claim_correct o key event now rep uuid l) as [| | | r Hr He Hs Hrep | r Hv Hl He]; try apply ledger_step_refl.
  - apply ledger_step_row.
    + intros t [= <-]. destruct (claim_token r) eqn:E; simpl; eauto.
    + intros r0 t Hr0. simplify_eq. congruence.
  - apply ledger_step_row; [intros t [= <-]; auto |]. intros r0 t Hr0 Ht Hp _ Hf. right. split; [simpl; congruence |].
    unfold r, row_or_new in Hl. rewrite Hr0 in Hl. by apply (leased_false _ _ t).
Qed.
Lemma complete_step key event tok success now rep l : ledger_step now None (Some tok) l (complete key event tok success now rep l).2.
Proof.
  unfold complete. destruct (l !! key) as [r|] eqn:Hr; [| apply ledger_step_refl].
  destruct (holds_claim event tok r) eqn:Hh; [| apply ledger_step_refl]. unfold holds_claim in Hh. des.
  destruct (retired_at r); cbn [snd]; [apply ledger_step_delete | apply ledger_step_row].
  - intros. congruence.
  - intros t. simpl. destruct success; intros [= <-]. eauto.
  - intros. congruence.
Qed.
Lemma retire_step now key l : ledger_step now None None l (retire now key l).
Proof.
  unfold retire. destruct (l !! key) as [r|] eqn:Hr; [| apply ledger_step_refl]. destruct (leased now r) eqn:Hl.
  - apply ledger_step_row; [simpl; eauto |]. intros r0 t Hr0. simplify_eq. auto.
  - apply ledger_step_delete. intros r0 t Hr0 Ht Hs _. simplify_eq. by apply (leased_false _ _ t).
Qed.
Lemma cleanup_step o now key l : ledger_step now None None l (cleanup o now key l).
Proof.
  assert (Hd := retire_step now key l). unfold cleanup. unfold retire in Hd.
  destruct (l !! key) as [r|] eqn:Hr; [| apply ledger_step_refl].
  destruct (retired_at r), (leased now r); try case_bool_decide; try done; apply ledger_step_refl.
Qed.
Lemma fold_step {A} T b (f : A → ledger → ledger) (keys : list A) l :
  (∀ key l, ledger_step T None b l (f key l)) → ledger_step T None b l (fold_left (λ l key, f key l) keys l).
Proof.
  intros Hf. revert l. induction keys as [|k keys IH]; intros l; simpl; [apply ledger_step_refl |].
  eapply ledger_step_trans; [apply Hf | apply IH].
Qed.

(** ** The invariant of interleaved deliveries *)

(** [tok] is the current claim of [key] and ends at [till]; or it is not and
    [till] was reached. *)
Definition lease (times : list Z) (l : ledger) (key tok : jstr) (till : Z) : Prop :=
  (∃ r, l !! key = Some r ∧ claim_token r = Some tok ∧ status r = Pending ∧ next_attempt_at r = till)
  ∨ (∀ r, l !! key = Some r → claim_token r ≠ Some tok) ∧ ∃ t, t ∈ times ∧ till ≤ t.
Record inv (times : list Z) (s : system) := {
  inv_time : ∀ i w, s_workers s !! i = Some w → w_time w ∈ times;
  inv_tokens : ∀ k r t, s_ledger s !! k = Some r → claim_token r = Some t → t ∈ s_issued s;
  inv_held : ∀ i w t, s_workers s !! i = Some w → held w = Some t → t ∈ s_issued s;
  inv_distinct : ∀ i j wi wj t, i ≠ j → s_workers s !! i = Some wi → s_workers s !! j = Some wj →
    held wi = Some t → held wj = Some t → False;
  inv_lease : ∀ i w t, s_workers s !! i = Some w → held w = Some t →
    lease times (s_ledger s) (w_key w) t (w_time w + LEASE);
}.

Lemma lease_mono times times' l key tok till :
  (∀ t, t ∈ times → t ∈ times') → lease times l key tok till → lease times' l key tok till.
Proof. intros H [?|[? (t & ? & ?)]]; [by left | right; eauto]. Qed.
(** A call made at a time known keeps every lease but the one given back. *)
Lemma lease_step times T f b l l' key tok till :
  T ∈ times → ledger_step T f b l l' → Some tok ≠ f → Some tok ≠ b →
  lease times l key tok till → lease times l' key tok till.
Proof.
  intros HT [Ht Hl] Hf Hb [(r & Hr & Htok & Hs & Hn)|[Hno Htime]].
  - destruct (Hl _ _ _ Hr Htok Hs Hb Hf) as [(r' & ? & ? & ? & ?)|[? ?]]; [left; exists r'; naive_solver | right].
    split; [done |]. exists T. split; [done | lia].
  - right. split; [| done]. intros r Hr Htok. destruct (Ht _ _ _ Hr Htok) as [|(r0 & ? & ?)]; [done | naive_solver].
Qed.
Lemma tokens_step T f b l l' (issued issued' : gset jstr) :
  ledger_step T f b l l' → (∀ k r t, l !! k = Some r → claim_token r = Some t → t ∈ issued) →
  issued ⊆ issued' → (∀ t, Some t = f → t ∈ issued') →
  ∀ k r t, l' !! k = Some r → claim_token r = Some t → t ∈ issued'.
Proof. intros [Ht _] Hi Hsub Hf k r t Hr Htok. destruct (Ht _ _ _ Hr Htok) as [?|(r0 & ? & ?)]; [auto | set_solver]. Qed.

(** One rule for every event: the ledger makes a step, worker [i] becomes [w'],
    which holds what it held before or the fresh token. *)
Lemma inv_update times T f b s l' issued' marked' i w' :
  inv times s → T ∈ times → ledger_step T f b (s_ledger s) l' → s_issued s ⊆ issued' →
  (∀ t, f = Some t → t ∈ issued' ∧ t ∉ s_issued s) →
  w_time w' ∈ times →
  (∀ t, b = Some t → ∃ w, s_workers s !! i = Some w ∧ held w = Some t ∧ held w' = None) →
  (∀ t, held w' = Some t →
     (∃ w, s_workers s !! i = Some w ∧ held w = Some t ∧ w_key w = w_key w' ∧ w_time w = w_time w')
     ∨ f = Some t ∧ lease times l' (w_key w') t (w_time w' + LEASE)) →
  inv times {| s_ledger := l'; s_owners := s_owners s; s_workers := <[i := w']> (s_workers s); s_issued := issued'; s_marked := marked' |}.
Proof.
  intros [It Ik Ih Id Il] HT Hstep Hsub Hfresh Htime Hback Hheld.
  assert (Hother : ∀ j w t, j ≠ i → s_workers s !! j = Some w → held w = Some t → Some t ≠ f ∧ Some t ≠ b).
  { intros j w t Hj Hw Ht. split; intros E; symmetry in E.
    - apply Hfresh in E as [_ E]. eauto.
    - apply Hback in E as (w0 & ? & ? & _). eauto. }
  assert (Hmine : ∀ j w t, j ≠ i → s_workers s !! j = Some w → held w = Some t → held w' = Some t → False).
  { intros j w t Hj Hw Ht Ht'. destruct (Hheld _ Ht') as [(w0 & ? & ? & _)|[E _]]; [eauto |].
    by destruct (Hother _ _ _ Hj Hw Ht) as [[] _]. }
  split; cbn [s_ledger s_workers s_issued].
  - intros j w [[<- <-]|[_ Hw]]%lookup_insert_Some; eauto.
  - eapply tokens_step; [done | done | done |]. intros t E. symmetry in E. by apply Hfresh in E as [? _].
  - intros j w t [[<- <-]|[Hj Hw]]%lookup_insert_Some Ht; [| set_solver].
    destruct (Hheld _ Ht) as [(w & ? & ? & _)|[E _]]; [set_solver | by apply Hfresh in E as [? _]].
  - intros j k wj wk t Hjk [[<- <-]|[Hj Hwj]]%lookup_insert_Some [[<- <-]|[Hk Hwk]]%lookup_insert_Some; [done | | |]; eauto.
  - intros j w t [[<- <-]|[Hj Hw]]%lookup_insert_Some Ht.
    + destruct (Hheld _ Ht) as [(w & Hw & Htw & <- & <-)|[E ?]]; [| done].
      assert (Some t ≠ b) by (intros E; symmetry in E; apply Hback in E as (w0 & ? & ? & ?); congruence).
      assert (Some t ≠ f) by (intros E; symmetry in E; apply Hfresh in E as [_ E]; eauto).
      eauto using lease_step.
    + destruct (Hother j w t) as [? ?]; eauto using lease_step.
Qed.
(** The ledger alone makes a step. *)
Lemma inv_ledger times T s l' : inv times s → T ∈ times → ledger_step T None None (s_ledger s) l' → inv times (set_ledger l' s).
Proof.
  intros [It Ik Ih Id Il] HT Hstep. split; cbn; eauto.
  - eapply tokens_step; eauto. done.
  - intros. by eapply lease_step; eauto.
Qed.
Lemma inv_mono times times' s : (∀ t, t ∈ times → t ∈ times') → inv times s → inv times' s.
Proof. intros H [It Ik Ih Id Il]. split; eauto using lease_mono. Qed.
Lemma inv_init o : inv [] (init o).
Proof. split; cbn; intros; simplify_map_eq. Qed.

Lemma held_after_claim c reply a w t :
  held (in_phase (after_claim c (answer reply a)) w) = Some t →
  ∃ x, a = Some x ∧ reply = true ∧ claimed x = true ∧ delivered x = false ∧ token x = Some t.
Proof.
  unfold held, after_claim, answer, given_token. destruct a as [x|], reply; simpl; try done.
  destruct (delivered x) eqn:Hd; [destruct c, (token x) as [t'|]; simpl; try destruct (nonempty t'); done |].
  destruct (claimed x) eqn:Hx; simpl; [| done]. destruct (token x) as [t'|] eqn:Ht; [| done].
  destruct (nonempty t'); simpl; [| done]. intros [= <-]. by exists x.
Qed.
Lemma held_after_complete c t sent r w : held (in_phase (after_complete c t sent r) w) = None.
Proof. destruct r as [[]|], c, sent; done. Qed.
Lemma held_after_send t r w t' : held (in_phase (after_send t r) w) = Some t' → t' = t.
Proof. destruct r as [[]|[]]; simpl; by intros [= ->]. Qed.

(** A granted claim is the current one, for as long as the lease says. *)
Lemma claim_lease times o key event now rep uuid l x :
  (claim o key event now rep uuid l).1 = Some x → claimed x = true →
  token x = Some uuid ∧ lease times (claim o key event now rep uuid l).2 key uuid (now + LEASE).
Proof.
  destruct (claim_correct o key event now rep uuid l); intros [= <-]; try done. intros _. split; [done |].
  left. eexists. rewrite lookup_insert_eq. split; [done |]. done.
Qed.

Definition times_of (es : list op) : list Z := omap op_time es.
Lemma inv_step times s e s' :
  inv times s → step s e = Some s' → inv (times ++ times_of [e]) s'.
Proof.
  intros Hinv. assert (Hinv' : inv (times ++ times_of [e]) s) by (eapply inv_mono; [| done]; set_solver).
  assert (Hold : ∀ i w, s_workers s !! i = Some w → w_time w ∈ times ++ times_of [e]).
  { intros i w. apply (inv_time _ _ Hinv'). }
  destruct e as [i j event rep now|i uuid reply|i r|i reply|i reply|i|keys now|keys now|o]; simpl; intros Hs.
  1: destruct (s_workers s !! i) eqn:E; simplify_eq.
  2-6: destruct (s_workers s !! i) as [w|] eqn:E; [| done].
  2-5: destruct (w_phase w) as [|t|t sent|t|] eqn:Hp; simplify_eq.
  - apply (inv_update _ (1000 * now) None None); [done | set_solver | apply ledger_step_refl | done | done | set_solver | done | done].
  - unfold step_claim in Hs. case_match eqn:Hu; [done |]. des.
    destruct (claim _ _ _ _ _ _ _) as [a l] eqn:Hc. simplify_eq.
    assert (Hst := claim_step (s_owners s) (w_key w) (w_event w) (w_time w) (w_repeat w) uuid (s_ledger s)). rewrite Hc in Hst.
    eapply (inv_update _ (w_time w) (Some uuid) None); [done | exact (Hold _ _ E) | done | set_solver | | exact (Hold _ _ E) | done |].
    { intros t [= <-]. set_solver. }
    intros t (x & -> & -> & Hx & _ & Ht)%held_after_claim. right.
    assert (Hl := claim_lease (times ++ []) (s_owners s) (w_key w) (w_event w) (w_time w) (w_repeat w) uuid (s_ledger s) x).
    rewrite Hc in Hl. destruct (Hl eq_refl Hx) as [Hu' Hl']. rewrite Ht in Hu'. by simplify_eq.
  - apply (inv_update _ (w_time w) None None s (s_ledger s)); [done | exact (Hold _ _ E) | apply ledger_step_refl | done | done | exact (Hold _ _ E) | done |].
    intros t' ->%held_after_send. left. exists w. unfold held. by rewrite Hp.
  - unfold step_complete. destruct (complete _ _ _ _ _ _ _) as [b l] eqn:Hc.
    assert (Hst := complete_step (w_key w) (w_event w) t sent (w_time w) (w_repeat w) (s_ledger s)). rewrite Hc in Hst.
    apply (inv_update _ (w_time w) None (Some t) s l); [done | exact (Hold _ _ E) | done | done | done | exact (Hold _ _ E) | |].
    + intros t' [= <-]. exists w. unfold held at 1. rewrite Hp. split; [done |]. split; [done |]. apply held_after_complete.
    + intros t'. by rewrite held_after_complete.
  - apply (inv_update _ (w_time w) None None s (s_ledger s)); [done | exact (Hold _ _ E) | apply ledger_step_refl | done | done | exact (Hold _ _ E) | done | done].
  - simplify_eq. apply (inv_update _ (w_time w) None None s (s_ledger s)); [done | exact (Hold _ _ E) | apply ledger_step_refl | done | done | exact (Hold _ _ E) | done | done].
  - simplify_eq. eapply inv_ledger; [done | | apply fold_step, retire_step]. set_solver.
  - simplify_eq. eapply inv_ledger; [done | | apply (fold_step _ _ (cleanup (s_owners s) now)), cleanup_step]. set_solver.
  - simplify_eq. by destruct Hinv'.
Qed.
Lemma inv_run es times s s' : inv times s → run es s = Some s' → inv (times ++ times_of es) s'.
Proof.
  revert times s. induction es as [|e es IH]; intros times s Hi; simpl; [intros [= <-]; by rewrite app_nil_r |].
  destruct (step s e) as [s1|] eqn:E; [| done]. intros Hr. apply (IH _ _ (inv_step _ _ _ _ Hi E)) in Hr.
  eapply inv_mono; [| done]. unfold times_of. simpl. destruct (op_time e); set_solver.
Qed.
Lemma inv_reachable es o s : run es (init o) = Some s → inv (times_of es) s.
Proof. apply (inv_run es [] (init o)), inv_init. Qed.

Lemma complete_recorded key event tok b now rep l :
  (complete key event tok b now rep l).1 = true → ∃ r, l !! key = Some r ∧ claim_token r = Some tok.
Proof.
  unfold complete. destruct (l !! key) as [r|]; [| done]. destruct (holds_claim event tok r) eqn:Hh; [| done].
  unfold holds_claim in Hh. des. eauto.
Qed.

(** C7: A delivery has one sender at a time.  However the workers of several
    cron invocations interleave, stop or lose answers, and whatever nodes and
    rules are edited, removed or cleaned up meanwhile: two deliveries that have
    claimed one key and not completed it coexist only when some clock has reached
    the end of the earlier one's lease of ninety seconds, and at most one of them
    can still record that it sent its message. *)
Theorem one_sender_per_lease (o : owners) (es : list op) (s : system) (i j : nat) (wi wj : worker) (ti tj : jstr) :
  run es (init o) = Some s → i ≠ j →
  s_workers s !! i = Some wi → s_workers s !! j = Some wj → w_key wi = w_key wj →
  held wi = Some ti → held wj = Some tj →
  (∃ t, t ∈ times_of es ∧ Z.min (w_time wi) (w_time wj) + LEASE ≤ t)
  ∧ ∀ bi bj,
      (complete (w_key wi) (w_event wi) ti bi (w_time wi) (w_repeat wi) (s_ledger s)).1 = true →
      (complete (w_key wj) (w_event wj) tj bj (w_time wj) (w_repeat wj) (s_ledger s)).1 = false.
Proof.
  intros Hrun Hij Hwi Hwj Hk Hi Hj. apply inv_reachable in Hrun as [_ _ _ Hd Hl].
  assert (Hne : ti ≠ tj) by (intros ->; eapply (Hd i j); eauto).
  split.
  - destruct (Hl _ _ _ Hwi Hi) as [(ri & Hri & Hti & _)|[_ (t & ? & ?)]]; [| exists t; split; [done | lia]].
    destruct (Hl _ _ _ Hwj Hj) as [(rj & Hrj & Htj & _)|[_ (t & ? & ?)]]; [| exists t; split; [done | lia]].
    rewrite Hk in Hri. by simplify_eq.
  - intros bi bj (ri & Hri & Hti)%complete_recorded. apply not_true_iff_false. intros (rj & Hrj & Htj)%complete_recorded.
    rewrite Hk in Hri. by simplify_eq.
Qed.

(** ** Events that were delivered *)

(** [r] records that [event] was delivered. *)
Definition settled (event : jstr) (r : delivery_row) : Prop := status r = Sent ∧ event_id r = event ∧ retired_at r = None.
(** Events that leave the deliveries of [key] alone: no other event is announced
    under it, its rule is neither edited nor removed. *)
Definition quiet (key event : jstr) (e : op) : Prop :=
  match e with
  | Start _ j ev rep _ => job_key j = key → ev = event ∧ rep ≤ 0
  | Retire keys _ => key ∉ keys
  | Edit o => entity_exists o key ≠ Some false
  | _ => True
  end.
(** The deliveries of [key] that have not claimed yet announce [event]. *)
Definition waiting_for (key event : jstr) (s : system) : Prop :=
  ∀ i w, s_workers s !! i = Some w → w_key w = key → w_phase w = Claiming → w_event w = event ∧ w_repeat w ≤ 0.
Record quieted (key event : jstr) (s1 s : system) := {
  q_owner : entity_exists (s_owners s) key ≠ Some false;
  q_row : ∃ r, s_ledger s !! key = Some r ∧ settled event r;
  q_waiting : waiting_for key event s;
  q_sending : ∀ i w t, s_workers s !! i = Some w → w_key w = key → w_phase w = Sending t → s_workers s1 !! i = Some w;
}.

Lemma settled_same event r : settled event r → same_event event r = true.
Proof. intros (_ & <- & Hr). unfold same_event. by rewrite Hr, jeq_refl, bool_decide_true. Qed.
Lemma settled_claim o key event now rep uuid l r :
  l !! key = Some r → settled event r → rep ≤ 0 → entity_exists o key ≠ Some false →
  let x := claim o key event now rep uuid l in
  (∃ r', x.2 !! key = Some r' ∧ settled event r')
  ∧ match x.1 with
    | None => valid_text key && valid_text event = false
    | Some a => a = {| claimed := false; delivered := true; token := Some (default uuid (claim_token r)) |}
                ∧ x.2 !! key = Some (with_token (default uuid (claim_token r)) r)
    end.
Proof.
  intros Hr Hset Hrep Ho. assert (He := settled_same _ _ Hset). cbv zeta.
  destruct (claim_correct o key event now rep uuid l) as [| | r0 Hr0 _ Hn | r0 Hr0 _ _ _ | r0 Hv _ Hn]; cbn.
  - done.
  - eauto.
  - simplify_eq. destruct Hset as (? & _ & _). naive_solver.
  - simplify_eq. rewrite lookup_insert_eq. split; [| done]. eexists. split; [done |]. by destruct Hset.
  - unfold r0, row_or_new in Hn. rewrite Hr in Hn. destruct Hset as (? & _ & _). naive_solver.
Qed.
Lemma claim_elsewhere o k key event now rep uuid l : k ≠ key → (claim o key event now rep uuid l).2 !! k = l !! k.
Proof. intros. destruct (claim_correct o key event now rep uuid l); try done; by rewrite lookup_insert_ne. Qed.
Lemma settled_complete k key event ev tok b now rep l r :
  l !! k = Some r → settled event r → (complete key ev tok b now rep l).2 !! k = Some r.
Proof.
  intros Hr (Hs & _). unfold complete. destruct (l !! key) as [r0|] eqn:E; [| done]. destruct (holds_claim ev tok r0) eqn:Hh; [| done].
  assert (k ≠ key) by (intros ->; simplify_eq; unfold holds_claim in Hh; des; congruence).
  destruct (retired_at r0); cbn [snd]; by rewrite ?lookup_delete_ne, ?lookup_insert_ne by done.
Qed.
Lemma fold_lookup {A} (f : A → ledger → ledger) (keys : list A) k l :
  (∀ x l, x ∈ keys → f x l !! k = l !! k) → fold_left (λ l x, f x l) keys l !! k = l !! k.
Proof.
  revert l. induction keys as [|x keys IH]; intros l Hf; simpl; [done |]. rewrite IH.
  - apply Hf. left.
  - intros. apply Hf. by right.
Qed.
Lemma retire_elsewhere now keys k l : k ∉ keys → retire_notification_deliveries now keys l !! k = l !! k.
Proof.
  intros Hk. apply fold_lookup. intros x l0 Hx. assert (x ≠ k) by (intros ->; done).
  unfold retire. repeat case_match; by rewrite ?lookup_insert_ne, ?lookup_delete_ne by done.
Qed.
Lemma settled_cleanup o now keys k event l r :
  entity_exists o k ≠ Some false → l !! k = Some r → settled event r →
  cleanup_notification_delivery_state o now keys l !! k = Some r.
Proof.
  intros Ho Hr Hs. unfold cleanup_notification_delivery_state. revert l Hr. induction keys as [|x keys IH]; intros l Hr; simpl; [done |].
  apply IH. unfold cleanup. destruct (decide (x = k)) as [->|Hx].
  - rewrite Hr. destruct Hs as (_ & _ & ->). by rewrite bool_decide_false.
  - repeat case_match; by rewrite ?lookup_insert_ne, ?lookup_delete_ne by done.
Qed.

(** Worker [i] becomes [w'], which neither waits nor sends, or [key] is not its. *)
Lemma quieted_update key event s1 s l' issued' marked' i w' :
  quieted key event s1 s → (∃ r, l' !! key = Some r ∧ settled event r) →
  (w_key w' = key → w_phase w' = Claiming → w_event w' = event ∧ w_repeat w' ≤ 0) →
  (w_key w' = key → ∀ t, w_phase w' ≠ Sending t) →
  quieted key event s1
    {| s_ledger := l'; s_owners := s_owners s; s_workers := <[i := w']> (s_workers s); s_issued := issued'; s_marked := marked' |}.
Proof.
  intros [Ho Hr Hw Hs] Hr' Hc Hn. split; unfold waiting_for; cbn; [done | done | |].
  - intros j w [[<- <-]|[_ ?]]%lookup_insert_Some; eauto.
  - intros j w t [[<- <-]|[_ ?]]%lookup_insert_Some Hk Hp; [by destruct (Hn Hk t) | eauto].
Qed.
Lemma after_claim_settled c reply a w :
  (∀ x, a = Some x → claimed x = false) → (∀ t, w_phase (in_phase (after_claim c (answer reply a)) w) ≠ Sending t)
  ∧ w_phase (in_phase (after_claim c (answer reply a)) w) ≠ Claiming.
Proof.
  intros Ha. cbn. unfold after_claim, answer. destruct a as [x|], reply; simpl; try done. rewrite (Ha x eq_refl). simpl.
  destruct (delivered x), c; simpl; try done. by destruct (given_token x).
Qed.
Lemma after_complete_done c t sent r t' :
  after_complete c t sent r ≠ Claiming ∧ after_complete c t sent r ≠ Sending t'.
Proof. by destruct r as [[]|], c, sent. Qed.
Lemma quieted_step key event s1 s e s' :
  quieted key event s1 s → quiet key event e → step s e = Some s' → quieted key event s1 s'.
Proof.
  intros Hq He Hs. assert (Hq' := Hq). destruct Hq' as [Ho (r & Hr & Hset) Hw Hsend].
  destruct e as [i j ev rep now|i uuid reply|i a|i reply|i reply|i|keys now|keys now|o]; simpl in Hs, He.
  1: destruct (s_workers s !! i) eqn:E; simplify_eq.
  2-6: destruct (s_workers s !! i) as [w|] eqn:E; [| done].
  2-5: destruct (w_phase w) as [|t|t sent|t|] eqn:Hp; simplify_eq.
  - apply quieted_update; [done | by exists r | exact (λ H _, He H) | done].
  - unfold step_claim in Hs. case_match; [done |].
    destruct (claim _ _ _ _ _ _ _) as [x l] eqn:Hc. simplify_eq. destruct (decide (w_key w = key)) as [Hk|Hk].
    + destruct (Hw _ _ E Hk Hp) as [<- Hrep]. rewrite Hk in Hc.
      assert (Hcl := settled_claim (s_owners s) key (w_event w) (w_time w) (w_repeat w) uuid _ _ Hr Hset Hrep Ho).
      rewrite Hc in Hcl. cbn in Hcl. destruct Hcl as [Hr' Hx].
      destruct (after_claim_settled (confirms (w_job w)) reply x w) as [Hn Hn'].
      { intros y ->. by destruct Hx as [-> _]. }
      apply quieted_update; done.
    + apply quieted_update; [done | | done | done]. exists r. split; [| done].
      assert (H' := claim_elsewhere (s_owners s) key (w_key w) (w_event w) (w_time w) (w_repeat w) uuid (s_ledger s)).
      rewrite Hc in H'. cbn in H'. by rewrite H'.
  - apply quieted_update; [done | by exists r | |]; intros _; destruct a as [[]|[]]; done.
  - unfold step_complete. destruct (complete _ _ _ _ _ _ _) as [b l] eqn:Hc.
    apply (quieted_update _ _ _ s l); [done | | intros _; cbn .. ].
    + exists r. split; [| done]. erewrite <- (settled_complete _ (w_key w)) by done. by rewrite Hc.
    + intros H. by destruct (after_complete_done (confirms (w_job w)) t sent (answer reply (Some b)) t) as [[] _].
    + intros t' H. by destruct (after_complete_done (confirms (w_job w)) t sent (answer reply (Some b)) t') as [_ []].
  - apply (quieted_update _ _ _ s (s_ledger s)); [done | by exists r | done | done].
  - simplify_eq. apply (quieted_update _ _ _ s (s_ledger s)); [done | by exists r | done | done].
  - simplify_eq. split; cbn; [done | | done | done]. exists r. by rewrite retire_elsewhere.
  - simplify_eq. split; cbn; [done | | done | done]. exists r. split; [| done]. by apply (settled_cleanup _ _ _ _ event).
  - simplify_eq. split; cbn; eauto.
Qed.
Lemma quieted_run key event s1 es s s' :
  quieted key event s1 s → Forall (quiet key event) es → run es s = Some s' → quieted key event s1 s'.
Proof.
  intros Hq He. revert s Hq. induction He as [|e es He Hes IH]; intros s Hq; simpl; [by intros [= <-] |].
  destruct (step s e) eqn:E; [| done]. eauto using quieted_step.
Qed.

(** ** Rows stay valid and never wait long *)

Lemma backoff_bounds n : 120 * SECOND ≤ backoff n ≤ 1800 * SECOND.
Proof.
  unfold backoff. assert (1 ≤ 2 ^ Z.min (Z.max (n - 1) 0) 4); [| unfold SECOND; lia].
  assert (2 ^ 0 ≤ 2 ^ Z.min (Z.max (n - 1) 0) 4) by (apply Z.pow_le_mono_r; lia). lia.
Qed.
(** The milliseconds after which an event repeats. *)
Definition repeat_time (repeat_ms : Z) : Z := Z.min (Z.max repeat_ms 0) 604800000.
Section Rows.
(** [R] bounds the repetition of each key. *)
Context (R : jstr → Z).
Definition longest_wait (key : jstr) : Z := Z.max (1800 * SECOND) (R key * 1000).
Definition row_ok (times : list Z) (key : jstr) (r : delivery_row) : Prop :=
  valid_text key && valid_text (event_id r) = true ∧ ∃ t, t ∈ times ∧ next_attempt_at r ≤ t + longest_wait key.
Definition rows_ok (times : list Z) (l : ledger) : Prop := ∀ k r, l !! k = Some r → row_ok times k r.
Record calm (times : list Z) (s : system) := {
  calm_rows : rows_ok times (s_ledger s);
  calm_workers : ∀ i w, s_workers s !! i = Some w → w_time w ∈ times ∧ repeat_time (w_repeat w) ≤ R (w_key w);
}.
Lemma rows_insert times k r l : rows_ok times l → row_ok times k r → rows_ok times (<[k := r]> l).
Proof. intros Hl Hr k' r' [[<- <-]|[_ ?]]%lookup_insert_Some; auto. Qed.
Lemma rows_delete times k l : rows_ok times l → rows_ok times (delete k l).
Proof. intros Hl k' r' [_ ?]%lookup_delete_Some. auto. Qed.
Lemma rows_claim times o key event now rep uuid l :
  rows_ok times l → now ∈ times → rows_ok times (claim o key event now rep uuid l).2.
Proof.
  intros Hl Ht. destruct (claim_correct o key event now rep uuid l) as [| | | r Hr _ _ _ | r Hv _ _]; cbn; try done.
  - apply rows_insert; [done |]. by apply (Hl key r).
  - apply rows_insert; [done |]. split; [done |]. exists now. split; [done |]. cbn. unfold longest_wait, LEASE, SECOND. lia.
Qed.
Lemma rows_complete times key event tok b now rep l :
  rows_ok times l → now ∈ times → repeat_time rep ≤ R key → rows_ok times (complete key event tok b now rep l).2.
Proof.
  intros Hl Ht HR. unfold complete. destruct (l !! key) as [r|] eqn:Hr; [| done]. destruct (holds_claim event tok r); [| done].
  destruct (retired_at r); cbn [snd]; [by apply rows_delete |]. apply rows_insert; [done |].
  destruct (Hl _ _ Hr) as [Hv _]. split; [done |]. exists now. split; [done |]. cbn. fold (repeat_time rep).
  assert (Hb := backoff_bounds (attempts r)). unfold longest_wait. destruct b; lia.
Qed.
Lemma rows_retire times now key l : rows_ok times l → rows_ok times (retire now key l).
Proof.
  intros Hl. unfold retire. destruct (l !! key) as [r|] eqn:Hr; [| done].
  case_match; [apply rows_insert; [done | by apply (Hl key r)] | by apply rows_delete].
Qed.
Lemma rows_cleanup times o now key l : rows_ok times l → rows_ok times (cleanup o now key l).
Proof.
  intros Hl. assert (Hr := rows_retire times now key l Hl). unfold cleanup. unfold retire in Hr.
  destruct (l !! key) as [r|]; [| done]. 
  destruct (retired_at r), (leased now r); try case_bool_decide; done.
Qed.
Lemma rows_fold {A} times (f : A → ledger → ledger) (keys : list A) l :
  (∀ x l, rows_ok times l → rows_ok times (f x l)) → rows_ok times l → rows_ok times (fold_left (λ l x, f x l) keys l).
Proof. intros Hf Hl. by apply fold_left_invariant; [| auto]. Qed.
Lemma row_ok_mono times times' k r : (∀ t, t ∈ times → t ∈ times') → row_ok times k r → row_ok times' k r.
Proof. intros H [? (t & ? & ?)]. split; eauto. Qed.
(** Every repetition announced is within [R]. *)
Definition repeats (e : op) : Prop :=
  match e with Start _ j _ rep _ => repeat_time rep ≤ R (job_key j) | _ => True end.
Lemma calm_update times s l' issued' marked' i w' :
  calm times s → rows_ok times l' → w_time w' ∈ times → repeat_time (w_repeat w') ≤ R (w_key w') →
  calm times {| s_ledger := l'; s_owners := s_owners s; s_workers := <[i := w']> (s_workers s); s_issued := issued'; s_marked := marked' |}.
Proof. intros [Hr Hw] Hl Ht HR. split; cbn; [done |]. intros j w [[<- <-]|[_ ?]]%lookup_insert_Some; eauto. Qed.
Lemma calm_step times s e s' : calm times s → repeats e → step s e = Some s' → calm (times ++ times_of [e]) s'.
Proof.
  intros [Hr Hw] He Hs. assert (Hc : calm (times ++ times_of [e]) s).
  { split; [intros k r Hk; eapply row_ok_mono, Hr; [set_solver | done] | intros i w Hi; destruct (Hw i w Hi); set_solver]. }
  destruct Hc as [Hr' Hw']. assert (Hc := Build_calm _ _ Hr' Hw').
  destruct e as [i j ev rep now|i uuid reply|i a|i reply|i reply|i|keys now|keys now|o]; simpl in Hs, He.
  1: destruct (s_workers s !! i) eqn:E; simplify_eq.
  2-6: destruct (s_workers s !! i) as [w|] eqn:E; [destruct (Hw' _ _ E) as [Ht HR] | done].
  2-5: destruct (w_phase w) as [|t|t sent|t|] eqn:Hp; simplify_eq.
  - apply calm_update; [done | done | set_solver | done].
  - unfold step_claim in Hs. case_match; [done |].
    assert (Hl := rows_claim _ (s_owners s) (w_key w) (w_event w) (w_time w) (w_repeat w) uuid _ Hr' Ht).
    destruct (claim _ _ _ _ _ _ _) as [x l]. simplify_eq. by apply calm_update.
  - by apply calm_update.
  - unfold step_complete. assert (Hl := rows_complete _ (w_key w) (w_event w) t sent (w_time w) (w_repeat w) _ Hr' Ht HR).
    destruct (complete _ _ _ _ _ _ _) as [b l]. by apply (calm_update _ s l).
  - by apply (calm_update _ s (s_ledger s)).
  - simplify_eq. by apply (calm_update _ s (s_ledger s)).
  - simplify_eq. split; [| done]. apply rows_fold; [apply rows_retire | done].
  - simplify_eq. split; [| done]. apply (rows_fold _ (cleanup (s_owners s) now)); [apply rows_cleanup | done].
  - simplify_eq. by split.
Qed.
Lemma calm_run es times s s' :
  calm times s → Forall repeats es → run es s = Some s' → calm (times ++ times_of es) s'.
Proof.
  revert times s. induction es as [|e es IH]; intros times s Hc; simpl; [intros _ [= <-]; by rewrite app_nil_r |].
  intros [He Hes]%Forall_cons. destruct (step s e) as [s1|] eqn:E; [| done]. intros Hr.
  assert (Hc' := IH _ _ (calm_step _ _ _ _ Hc He E) Hes Hr). clear -Hc'. unfold times_of in *. simpl in *.
  destruct (op_time e); simpl in *; [by rewrite <- (assoc_L (++)) in Hc' | by rewrite app_nil_r in Hc'].
Qed.
Lemma calm_init o : calm [] (init o).
Proof. split; cbn; [intros k r | intros i w]; by rewrite lookup_empty. Qed.
End Rows.


(** C9: No delivery is lost.  Whatever happened before - workers that stopped
    holding a claim, attempts that failed, answers that were lost, rules edited and
    removed -, half an hour after the last clock reading a delivery whose node and
    rule exist is either given to the worker that asks for it or known to be
    delivered, when the key does not repeat its events; a failed attempt waits at
    least two minutes and at most half an hour before the next. *)
Theorem delivery_never_stuck (o : owners) (es : list op) (s : system) (key event uuid : jstr) (now rep : Z) :
  run es (init o) = Some s →
  (∀ i j ev r t, Start i j ev r t ∈ es → job_key j = key → r ≤ 0) →
  (∀ t, t ∈ times_of es → t + 1800 * SECOND ≤ now) →
  entity_exists (s_owners s) key ≠ Some false → valid_text key = true → valid_text event = true →
  (∃ x, (claim (s_owners s) key event now rep uuid (s_ledger s)).1 = Some x ∧ (claimed x = true ∨ delivered x = true))
  ∧ ∀ tok t l r', complete key event tok false t rep (s_ledger s) = (true, l) → l !! key = Some r' →
      t + 120 * SECOND ≤ next_attempt_at r' ≤ t + 1800 * SECOND.
Proof.
  intros Hrun Hrep Ht Ho Hk He. split.
  - set (R := λ k, if decide (k = key) then 0 else 604800000).
    assert (Hc : calm R (times_of es) s).
    { apply (calm_run _ es [] (init o)); [apply calm_init | | done]. apply Forall_forall. intros e He'.
      destruct e; try done. cbn. unfold R, repeat_time. case_decide; [| lia].
      assert (repeat_ms ≤ 0) by eauto. lia. }
    destruct Hc as [Hc _]. destruct (claim_correct (s_owners s) key event now rep uuid (s_ledger s)) as [| Hv | r Hr Hwait _ | | ].
    + done.
    + by rewrite Hk, He in Hv.
    + exfalso. destruct (Hc _ _ Hr) as [_ (t & Hin & Hle)]. specialize (Ht _ Hin).
      assert (Hlong : longest_wait R key = 1800 * SECOND).
      { unfold longest_wait, R. rewrite decide_True by done. unfold SECOND. lia. }
      assert (now < next_attempt_at r) by (destruct Hwait as [(_ & _ & ?)%leased_pending|[_ ?]]; done). lia.
    + eexists. split; [done |]. by right.
    + eexists. split; [done |]. by left.
  - intros tok t l r' Hcomp Hr'. unfold complete in Hcomp. destruct (s_ledger s !! key) as [r|]; [| done].
    destruct (holds_claim event tok r), (retired_at r); try done. injection Hcomp as <-. rewrite lookup_insert_eq in Hr'.
    injection Hr' as <-. cbn. assert (Hb := backoff_bounds (attempts r)). lia.
Qed.

(** ** Examples *)

Definition ex_owners : owners :=
  {| o_clients := {["a"]}; o_websites := ∅; o_offline := {["a" := true]}; o_expiry := ∅; o_load := ∅ |}.
Definition after (es : list op) : system := default (init ex_owners) (run es (init ex_owners)).
Definition ex_two : list op :=
  [Start 0 (Offline "a") "offline:t" 0 0; Claim 0 "u0" true; Start 1 (Offline "a") "offline:t" 0 120000; Claim 1 "u1" true].
(** The first worker sends and stops before its answer; the second asks again. *)
Definition ex_sent : list op :=
  [Start 0 (Offline "a") "offline:t" 0 0; Claim 0 "u0" true; Send 0 (Ok true); Complete 0 false].
Definition ex_again : list op := [Start 1 (Offline "a") "offline:t" 0 120000; Claim 1 "u1" true; Confirm 1 true].
Definition worker_of (i : nat) (s : system) : worker :=
  default {| w_job := Website ""; w_event := ""; w_repeat := 0; w_now := 0; w_phase := Claiming |} (s_workers s !! i).
Definition row_of (key : jstr) (s : system) : delivery_row := default (new_row "" 0) (s_ledger s !! key).
Example the_rule_is_marked : s_marked (after (ex_sent ++ ex_again)) = [("offline:a", "offline:t")].
Proof. vm_compute. reflexivity. Qed.

Lemma one_sender_per_lease_witness :
  (∃ t, t ∈ times_of ex_two ∧ Z.min 0 120000000 + LEASE ≤ t)
  ∧ ∀ bi bj,
      (complete "offline:a" "offline:t" "u0" bi 0 0 (s_ledger (after ex_two))).1 = true →
      (complete "offline:a" "offline:t" "u1" bj 120000000 0 (s_ledger (after ex_two))).1 = false.
Proof.
  apply (one_sender_per_lease ex_owners ex_two (after ex_two) 0 1 (worker_of 0 (after ex_two)) (worker_of 1 (after ex_two)) "u0" "u1");
    vm_compute; reflexivity || discriminate.
Defined.
Lemma delivery_never_stuck_witness :
  ∃ x, (claim ex_owners "offline:a" "offline:t" (3600 * SECOND) 0 "u2" (s_ledger (after ex_two))).1 = Some x
       ∧ (claimed x = true ∨ delivered x = true).
Proof.
  apply (delivery_never_stuck ex_owners ex_two (after ex_two) "offline:a" "offline:t" "u2" (3600 * SECOND) 0).
  - vm_compute. reflexivity.
  - intros i j ev r t Hin Hk. unfold ex_two in Hin. rewrite !elem_of_cons, elem_of_nil in Hin. naive_solver lia.
  - intros t. assert (times_of ex_two = [0; 120000000]) as -> by reflexivity. intros Ht. unfold SECOND. rewrite !elem_of_cons, elem_of_nil in Ht. naive_solver lia.
  - vm_compute. done.
  - vm_compute. reflexivity.
  - vm_compute. reflexivity.
Defined.
