(* ===== verification/View.v ===== *)
(** * What a viewer's page shows: [contexts/LiveDataContext.tsx] and
    [utils/liveDataResponse.ts] of the frontend

    The page keeps one view of the nodes.  Complete snapshots arrive over HTTP and
    over the socket, patches over the socket; a snapshot that was requested before
    patches arrived is older than they are, and a failed or superseded request
    must leave no trace.  Parsed objects have no repeated keys; the name of a
    patch is a string and its data an object, as the server sends them. *)

From S2P Require Import Prelude JsStr JsNum JsVal JsList.
#[local] Open Scope Z_scope.

(** ** Reading what the server sends *)

Definition asFiniteNumber (v : jsval) : option num :=
  match v with JNum n => if is_finite n then Some n else None | _ => None end.
Definition METRICS : list jstr := ["cpu"; "ram"; "swap"; "network"].
Definition is_reason (v : jsval) : bool :=
  is_str v "collection_failed" || is_str v "container_scope_unavailable" || is_str v "warming_up".
(** The errors a report names: those of a known metric with a known reason. *)
Definition error_of (record : fields) (metric : jstr) : option jsval :=
  let reason := fld (as_object (fld record "metric_errors")) metric in
  if is_reason reason then Some reason else None.
Definition capacity_of (record : fields) : option num :=
  match asFiniteNumber (fld record "cpu_capacity") with
  | Some c => if num_lt (of_Z 0) c then Some c else None
  | None => None
  end.
Definition optional (k : jstr) (v : option jsval) : fields := match v with Some v => [(k, v)] | None => [] end.
(** @frontend/src/utils/liveDataResponse.ts:28-41 selectMetricAvailability *)
Definition selectMetricAvailability (record : fields) : fields :=
  let errors := pick (error_of record) METRICS in
  optional "metric_errors" (if bool_decide (errors = []) then None else Some (JObj errors))
  ++ optional "cpu_capacity" (option_map JNum (capacity_of record)).
(** @frontend/src/utils/liveDataResponse.ts:43-46 normalizeLiveMetricMetadata *)
Definition normalizeLiveMetricMetadata (record : fields) : fields :=
  spread (del_field "metric_errors" (del_field "cpu_capacity" record)) (selectMetricAvailability record).

(** @frontend/src/utils/diskMeasurement.ts:1-13 diskMeasurementMetadata *)
Definition diskMeasurementMetadata (record : fields) : bool * option num :=
  let attempted := negb (is_undef (fld record "disk_source")) || negb (is_undef (fld record "disk_sampled_at")) in
  let valid :=
    is_str (fld record "disk_source") "directory"
    && match fld record "disk", fld record "disk_sampled_at" with
       | JNum disk, JNum at_ =>
         is_finite disk && num_le (of_Z 0) disk && num_le disk (of_Z 1000000000000000)
         && is_safe_integer at_ && num_lt (of_Z 0) at_ && num_le at_ (of_Z 8640000000000000)
       | _, _ => false
       end in
  (attempted, if valid then match fld record "disk_sampled_at" with JNum n => Some n | _ => None end else None).

(** @frontend/src/utils/liveDataResponse.ts:23-24 lastKnownMetrics *)
Definition lastKnownMetrics : list jstr :=
  ["cpu"; "gpu"; "ram"; "ram_total"; "swap"; "swap_total"; "disk"; "disk_total"; "net_in"; "net_out"; "net_total_up";
   "net_total_down"; "load"; "temp"; "uptime"; "process_count"; "connections"; "connections_udp"].
(** @frontend/src/utils/liveDataResponse.ts:25-26 nullableMetrics *)
Definition nullableMetrics : list jstr :=
  ["cpu"; "ram"; "ram_total"; "swap"; "swap_total"; "net_in"; "net_out"; "net_total_up"; "net_total_down"; "disk";
   "disk_total"; "load"; "temp"; "uptime"].
Definition known_metric (record : fields) (key : jstr) : option jsval :=
  let value := fld record key in
  if is_null value && mem key nullableMetrics || bool_decide (is_Some (asFiniteNumber value)) then Some value else None.
(** @frontend/src/utils/liveDataResponse.ts:57-73 normalizeLastKnownRecord (metrics) *)
Definition last_known_fields (record : fields) (uuid name : jstr) (lastReportTime : num) : fields :=
  let result := [("uuid", JStr uuid); ("name", JStr name); ("lastReportTime", JNum lastReportTime)] in
  let result := spread result (pick (known_metric record) lastKnownMetrics) in
  let result := spread result (selectMetricAvailability record) in
  let result := match diskMeasurementMetadata record with
                | (_, Some at_) => set_field "disk_sampled_at" (JNum at_) (set_field "disk_source" (JStr "directory") result)
                | (true, None) => set_field "disk" JNull result
                | (false, None) => result
                end in
  let result := match fld record "message" with JStr m => set_field "message" (JStr m) result | _ => result end in
  match asFiniteNumber (fld record "sort_order") with
  | Some order => set_field "sort_order" (JNum order) result
  | None => result
  end.
(** @frontend/src/utils/liveDataResponse.ts:48-74 normalizeLastKnownRecord *)
Definition normalizeLastKnownRecord (payload : jsval) (uuid : jstr) : option fields :=
  match payload with
  | JObj record =>
    if negb (is_str (fld record "uuid") uuid) || negb (nonempty (trim uuid)) then None
    else match fld record "name", asFiniteNumber (fld record "lastReportTime") with
    | JStr name, Some t => if num_lt t (of_Z 0) then None else Some (last_known_fields record uuid name t)
    | _, _ => None
    end
  | _ => None
  end.

(** @frontend/src/contexts/LiveDataContext.tsx:61-69 LiveDataResponse *)
Record live_view := {
  online : list jstr; v_clients : list fields; data : list (jstr * fields); last_known : list (jstr * fields);
  count : num; timestamp : num; metadata_version : option jstr;
}.
(** @frontend/src/utils/liveDataResponse.ts:84-92 normalizeLiveDataResponse (clients) *)
Definition normalize_client (client : jsval) : option fields :=
  match client with
  | JObj entry =>
    match fld entry "uuid", fld entry "name", asFiniteNumber (fld entry "lastReportTime") with
    | JStr uuid, JStr name, Some t =>
      Some (spread (normalizeLiveMetricMetadata entry) [("uuid", JStr uuid); ("name", JStr name); ("lastReportTime", JNum t)])
    | _, _, _ => None
    end
  | _ => None
  end.
(** @frontend/src/utils/liveDataResponse.ts:76-110 normalizeLiveDataResponse *)
Definition normalizeLiveDataResponse (now : num) (payload : jsval) : option live_view :=
  match payload with
  | JObj record =>
    let texts := match fld record "online" with
                 | JArr l => mapM (λ v, match v with JStr s => Some s | _ => None end) l
                 | _ => None
                 end in
    match texts, asFiniteNumber (fld record "count") with
    | Some online, Some count =>
      if num_lt count (of_Z 0) then None
      else Some {|
        online := online;
        v_clients := match fld record "clients" with JArr l => omap normalize_client l | _ => [] end;
        data := omap (λ p, match p.2 with JObj entry => Some (p.1, normalizeLiveMetricMetadata entry) | _ => None end)
                     (as_object (fld record "data"));
        last_known := omap (λ p, match normalizeLastKnownRecord p.2 p.1 with
                                 | Some item => if mem p.1 online then None else Some (p.1, item)
                                 | None => None
                                 end) (as_object (fld record "last_known"));
        count := num_floor count;
        timestamp := default now (asFiniteNumber (fld record "timestamp"));
        metadata_version := match fld record "metadata_version" with JStr s => if nonempty (trim s) then Some s else None | _ => None end;
      |}
    | _, _ => None
    end
  | _ => None
  end.

(** ** Patches *)

(** @frontend/src/contexts/LiveDataContext.tsx:73-87 LiveDataUpdateMessage *)
Inductive patch :=
| Update (client : jstr) (name : option jstr) (report : fields) (at_ : num)
| Remove (client : jstr) (at_ : num) (offline : bool) (last : jsval).
Definition patch_client (p : patch) : jstr := match p with Update u _ _ _ | Remove u _ _ _ => u end.
Definition patch_time (p : patch) : num := match p with Update _ _ _ t | Remove _ t _ _ => t end.
Definition empty_view : live_view :=
  {| online := []; v_clients := []; data := []; last_known := []; count := of_Z 0; timestamp := of_Z 0; metadata_version := None |}.

(** The fields that tell a metric was measured. *)
Definition metric_fields (metric : jstr) : list jstr :=
  if jeq metric "cpu" then ["cpu"]
  else if jeq metric "ram" then ["ram"; "ram_total"]
  else if jeq metric "swap" then ["swap"; "swap_total"]
  else if jeq metric "network" then ["net_in"; "net_out"; "net_total_up"; "net_total_down"]
  else [].
Definition measured (report : fields) (metric : jstr) : bool := existsb (has_own report) (metric_fields metric).
(** @frontend/src/contexts/LiveDataContext.tsx:170-178 applyLiveUpdate (metricErrors) *)
Definition metric_errors (old report : fields) : fields :=
  let incoming := as_object (fld (selectMetricAvailability report) "metric_errors") in
  fold_left (λ errors metric,
    if measured report metric && negb (truthy (fld incoming metric)) then del_field metric errors else errors)
    METRICS (spread (as_object (fld old "metric_errors")) incoming).
(** @frontend/src/contexts/LiveDataContext.tsx:161-169 applyLiveUpdate (nextRecord) *)
Definition updated_fields (old report : fields) (at_ : num) : fields :=
  let next := set_field "lastReportTime" (JNum at_) (spread old report) in
  if has_own report "cpu" then set_field "cpu_capacity" (fld (selectMetricAvailability report) "cpu_capacity") next else next.
(** @frontend/src/contexts/LiveDataContext.tsx:161-182 applyLiveUpdate (nextRecord) *)
Definition next_record (old report : fields) (at_ : num) : fields :=
  let next := updated_fields old report at_ in
  let availability := selectMetricAvailability (set_field "metric_errors" (JObj (metric_errors old report)) next) in
  spread (del_field "metric_errors" (del_field "cpu_capacity" next)) availability.
Definition is_client (uuid : jstr) (c : fields) : bool := is_str (fld c "uuid") uuid.
(** [message.name || previousClient?.name || uuid] *)
Definition shown_name (name : option jstr) (previous : option fields) (uuid : jstr) : jsval :=
  js_or (match name with Some n => JStr n | None => JUndef end)
    (js_or (match previous with Some c => fld c "name" | None => JUndef end) (JStr uuid)).
(** @frontend/src/contexts/LiveDataContext.tsx:184-191 applyLiveUpdate (nextClient) *)
Definition next_client (previous : option fields) (next : fields) (uuid : jstr) (name : option jstr) (at_ : num) : fields :=
  set_field "lastReportTime" (JNum at_)
    (set_field "name" (shown_name name previous uuid)
      (set_field "uuid" (JStr uuid)
        (spread (del_field "metric_errors" (del_field "cpu_capacity" (default [] previous))) next))).
(** @frontend/src/contexts/LiveDataContext.tsx:148-208 applyLiveUpdate *)
Definition applyLiveUpdate (current : option live_view) (uuid : jstr) (name : option jstr) (report : fields) (at_ : num) : live_view :=
  let base := default empty_view current in
  let previousClient := List.find (is_client uuid) (v_clients base) in
  let next := next_record (default [] (lookup_field uuid (data base))) report at_ in
  let nextOnline := if mem uuid (online base) then online base else online base ++ [uuid] in
  {| online := nextOnline;
     v_clients := List.filter (λ c, negb (is_client uuid c)) (v_clients base) ++ [next_client previousClient next uuid name at_];
     data := set_field uuid next (data base);
     last_known := del_field uuid (last_known base);
     count := of_Z (Z.of_nat (length nextOnline));
     timestamp := at_;
     metadata_version := metadata_version base |}.

(** @frontend/src/contexts/LiveDataContext.tsx:220-223 applyLiveRemove (previous) *)
Definition previous_record (client removed : option fields) (uuid : jstr) : fields :=
  let c := default [] client in
  let r := default [] removed in
  set_field "lastReportTime" (coalesce (fld c "lastReportTime") (fld r "lastReportTime"))
    (set_field "name" (fld c "name") (set_field "uuid" (JStr uuid) (spread (spread [] c) r))).
Definition report_time (r : fields) : num := match fld r "lastReportTime" with JNum t => t | _ => NaN end.
(** @frontend/src/contexts/LiveDataContext.tsx:224-225 applyLiveRemove (last) *)
Definition last_record (explicit previous : option fields) : option fields :=
  match explicit, previous with
  | Some e, Some p => if num_le (report_time p) (report_time e) then Some e else Some p
  | Some e, None => Some e
  | None, p => p
  end.
(** @frontend/src/contexts/LiveDataContext.tsx:210-237 applyLiveRemove *)
Definition applyLiveRemove (current : option live_view) (uuid : jstr) (at_ : num) (offline : bool) (last : jsval) : option live_view :=
  let explicitLast := if offline then normalizeLastKnownRecord last uuid else None in
  match current, explicitLast with
  | None, None => None
  | _, _ =>
    let base := default empty_view current in
    let removed := lookup_field uuid (data base) in
    let previousLast := lookup_field uuid (last_known base) in
    let online := List.filter (λ u, negb (jeq u uuid)) (online base) in
    let lastKnown := del_field uuid (last_known base) in
    let client := List.find (is_client uuid) (v_clients base) in
    let previous := match normalizeLastKnownRecord (JObj (previous_record client removed uuid)) uuid with
                    | Some p => Some p
                    | None => previousLast
                    end in
    Some {| online := online;
            v_clients := List.filter (λ c, negb (is_client uuid c)) (v_clients base);
            data := del_field uuid (data base);
            last_known := if offline then match last_record explicitLast previous with
                                          | Some l => set_field uuid l lastKnown
                                          | None => lastKnown
                                          end
                          else lastKnown;
            count := of_Z (Z.of_nat (length online));
            timestamp := at_;
            metadata_version := metadata_version base |}
  end.

(** ** The snapshot scope *)

(** @frontend/src/contexts/LiveDataContext.tsx:250-251 apply *)
Definition apply (current : option live_view) (p : patch) : option live_view :=
  match p with
  | Update u name report t => Some (applyLiveUpdate current u name report t)
  | Remove u t offline last => applyLiveRemove current u t offline last
  end.
(** @frontend/src/contexts/LiveDataContext.tsx:252-254 merge *)
Definition merge (snapshot : live_view) (updates : list patch) : live_view :=
  fold_left (λ value update, default value (apply (Some value) update)) updates snapshot.
(** @frontend/src/contexts/LiveDataContext.tsx:257-259 mergePrior *)
Definition mergePrior (snapshot : live_view) (updates : list patch) : live_view :=
  merge snapshot (List.filter (λ p, num_lt (timestamp snapshot) (patch_time p)) updates).
(** A request is the object [beginRead] returns; its number stands for its
    identity. *)
Record request := { rq_id : nat; priorUpdates : list patch; updates : list patch }.
(** @frontend/src/contexts/LiveDataContext.tsx:244-249 createLiveSnapshotScope *)
Record scope := {
  active : bool; hasSnapshot : bool; current : option live_view; pending : option request; initialUpdates : list patch;
}.
Definition new_scope : scope := {| active := true; hasSnapshot := false; current := None; pending := None; initialUpdates := [] |}.
(** @frontend/src/contexts/LiveDataContext.tsx:265-268 beginRead *)
Definition beginRead (id : nat) (s : scope) : scope :=
  {| active := active s; hasSnapshot := hasSnapshot s; current := current s;
     pending := Some {| rq_id := id; priorUpdates := initialUpdates s; updates := [] |}; initialUpdates := initialUpdates s |}.
(** @frontend/src/contexts/LiveDataContext.tsx:269-269 isCurrent *)
Definition isCurrent (id : nat) (s : scope) : bool :=
  active s && match pending s with Some r => bool_decide (rq_id r = id) | None => false end.
(** @frontend/src/contexts/LiveDataContext.tsx:270-272 canReportError *)
Definition canReportError (id : nat) (s : scope) : bool :=
  isCurrent id s && (negb (hasSnapshot s) || match pending s with Some r => bool_decide (updates r = []) | None => false end).
(** @frontend/src/contexts/LiveDataContext.tsx:273-273 finishRead *)
Definition finishRead (id : nat) (s : scope) : scope :=
  match pending s with
  | Some r =>
    if bool_decide (rq_id r = id)
    then {| active := active s; hasSnapshot := hasSnapshot s; current := current s; pending := None; initialUpdates := initialUpdates s |}
    else s
  | None => s
  end.
Definition showing (v : live_view) : scope :=
  {| active := true; hasSnapshot := true; current := Some v; pending := None; initialUpdates := [] |}.
(** @frontend/src/contexts/LiveDataContext.tsx:274-281 complete *)
Definition complete (id : nat) (snapshot : live_view) (s : scope) : option live_view * scope :=
  match pending s with
  | Some r =>
    if active s && bool_decide (rq_id r = id) then
      let v := merge (mergePrior snapshot (priorUpdates r)) (updates r) in (Some v, showing v)
    else (None, s)
  | None => (None, s)
  end.
(** @frontend/src/contexts/LiveDataContext.tsx:282-289 snapshot *)
Definition snapshot (v : live_view) (s : scope) : option live_view * scope :=
  if active s then (Some v, showing v) else (None, s).
(** @frontend/src/contexts/LiveDataContext.tsx:290-296 seed *)
Definition seed (v : live_view) (s : scope) : option live_view * scope :=
  if active s && negb (hasSnapshot s) then
    let v := mergePrior v (initialUpdates s) in
    (Some v, {| active := true; hasSnapshot := true; current := Some v; pending := pending s; initialUpdates := [] |})
  else (None, s).
(** @frontend/src/contexts/LiveDataContext.tsx:297-303 patch *)
Definition receive (p : patch) (s : scope) : option (option live_view) * scope :=
  if active s then
    let v := apply (current s) p in
    (Some v, {| active := true; hasSnapshot := hasSnapshot s; current := v;
                pending := option_map (λ r, {| rq_id := rq_id r; priorUpdates := priorUpdates r; updates := updates r ++ [p] |}) (pending s);
                initialUpdates := if hasSnapshot s then initialUpdates s else initialUpdates s ++ [p] |})
  else (None, s).
(** @frontend/src/contexts/LiveDataContext.tsx:304-309 dispose *)
Definition dispose (s : scope) : scope :=
  {| active := false; hasSnapshot := hasSnapshot s; current := None; pending := None; initialUpdates := [] |}.

#[local] Arguments normalizeLastKnownRecord : simpl never.

(** ** What the server announces *)

(** A node the server shows: its name, its last report and the report's time. *)
Record node := { n_name : option jstr; n_report : fields; n_time : num }.
(** The nodes online, and for the others the time of their last known report. *)
Record board := { up : gmap jstr node; down : gmap jstr num }.
Definition board_step (b : board) (p : patch) : board :=
  match p with
  | Update u name report t => {| up := <[u := {| n_name := name; n_report := report; n_time := t |}]> (up b); down := delete u (down b) |}
  | Remove u _ offline last =>
    {| up := delete u (up b);
       down := match (if offline then normalizeLastKnownRecord last u else None) with
               | Some r => <[u := report_time r]> (down b)
               | None => delete u (down b)
               end |}
  end.
Definition board_after (b : board) (log : list patch) : board := fold_left board_step log b.

(** A record shows a report: its fields, its errors - those of a metric measured
    without an error are gone - and the capacity measured with the processor. *)
Definition shows_report (report r : fields) : Prop :=
  (∀ k v, lookup_field k report = Some v → k ∉ (["cpu_capacity"; "metric_errors"; "lastReportTime"] : list jstr) → lookup_field k r = Some v)
  ∧ (∀ metric, metric ∈ METRICS →
       match error_of report metric with
       | Some e => error_of r metric = Some e
       | None => measured report metric = true → error_of r metric = None
       end)
  ∧ (has_own report "cpu" = true → capacity_of r = capacity_of report).
Definition entries (u : jstr) (v : live_view) : list fields := List.filter (is_client u) (v_clients v).
Definition shows_node (u : jstr) (n : node) (v : live_view) : Prop :=
  ∃ r c, lookup_field u (data v) = Some r ∧ entries u v = [c]
    ∧ shows_report (n_report n) r ∧ fld r "lastReportTime" = JNum (n_time n) ∧ fld c "lastReportTime" = JNum (n_time n)
    ∧ (∀ name, n_name n = Some name → name ≠ "" → fld c "name" = JStr name).
(** The view agrees with the board about one node. *)
Definition agrees_at (u : jstr) (b : board) (v : live_view) : Prop :=
  match up b !! u with
  | Some n => u ∈ online v ∧ shows_node u n v
  | None => (u ∉ online v) ∧ lookup_field u (data v) = None ∧ entries u v = []
  end
  ∧ (∀ t, down b !! u = Some t → ∃ r, lookup_field u (last_known v) = Some r ∧ num_le t (report_time r) = true).
Definition timed (r : fields) : Prop := ∃ t, fld r "lastReportTime" = JNum t ∧ is_finite t = true.
Record well_formed (v : live_view) : Prop := {
  wf_online : NoDup (online v);
  wf_count : count v = of_Z (Z.of_nat (length (online v)));
  wf_data : Forall (λ p, NoDup (map fst p.2)) (data v);
  wf_last : Forall (λ p, timed p.2) (last_known v);
}.
Definition agrees (b : board) (v : live_view) : Prop := well_formed v ∧ ∀ u, agrees_at u b v.
(** A patch as a parsed message holds it. *)
Definition patch_ok (p : patch) : Prop :=
  match p with Update _ _ report t => NoDup (map fst report) ∧ is_finite t = true | _ => True end.

(** ** One patch *)

Lemma spread_nodup {V} (a b : list (jstr * V)) : NoDup (map fst a) → NoDup (map fst (spread a b)).
Proof.
  unfold spread. revert a. induction b as [|[k v] b IH]; intros a H; cbn [fold_left]; [done |].
  by apply IH, set_field_nodup.
Qed.
Lemma del_field_nodup {V} k (fs : list (jstr * V)) : NoDup (map fst fs) → NoDup (map fst (del_field k fs)).
Proof.
  unfold del_field. induction fs as [|[k0 v0] fs IH]; [done |]. cbn [map fst]. intros [Hk H]%NoDup_cons. rewrite filter_cons.
  case_decide; [| auto]. cbn [map fst]. apply NoDup_cons. split; [| auto]. intros (p & -> & Hp)%list_elem_of_fmap.
  apply list_elem_of_filter in Hp as [_ Hp]. apply Hk. apply list_elem_of_fmap. by exists p.
Qed.
Lemma pick_nodup {V} (g : jstr → option V) keys : NoDup (map fst (pick g keys)).
Proof.
  unfold pick. assert (H : ∀ acc, NoDup (map fst acc) → NoDup (map fst (fold_left (λ result key,
      match g key with Some v => set_field key v result | None => result end) keys acc))).
  { induction keys as [|k keys IH]; intros acc Ha; cbn [fold_left]; [done |]. apply IH. destruct (g k); [by apply set_field_nodup | done]. }
  apply H. constructor.
Qed.
Lemma availability_nodup r : NoDup (map fst (selectMetricAvailability r)).
Proof.
  unfold selectMetricAvailability. destruct (bool_decide _), (capacity_of r); cbn; repeat constructor; set_solver.
Qed.
Lemma lookup_availability r k :
  lookup_field k (selectMetricAvailability r) =
  if decide (k = "metric_errors") then let e := pick (error_of r) METRICS in if bool_decide (e = []) then None else Some (JObj e)
  else if decide (k = "cpu_capacity") then option_map JNum (capacity_of r) else None.
Proof.
  unfold selectMetricAvailability. destruct (decide (k = "metric_errors")) as [->|H1]; [| destruct (decide (k = "cpu_capacity")) as [->|H2]].
  - cbv zeta. case_bool_decide; cbn [optional Datatypes.app lookup_field]; [by destruct (capacity_of r) |]. by rewrite decide_True.
  - case_bool_decide; [| cbn [optional Datatypes.app lookup_field]; rewrite decide_False by done];
      cbn [optional Datatypes.app]; destruct (capacity_of r); cbn [option_map optional lookup_field]; by rewrite ?decide_True.
  - case_bool_decide; destruct (capacity_of r); cbn [optional option_map Datatypes.app lookup_field]; by rewrite ?decide_False.
Qed.
(** What reading the availability back gives. *)
Lemma error_of_pick r k metric :
  as_object (fld r "metric_errors") = pick (error_of k) METRICS → metric ∈ METRICS → error_of r metric = error_of k metric.
Proof.
  intros H Hm. assert (Hf : fld (pick (error_of k) METRICS) metric = default JUndef (error_of k metric)).
  { unfold fld. by rewrite lookup_pick, decide_True. }
  unfold error_of at 1. rewrite H, Hf. destruct (error_of k metric) as [e|] eqn:E; [| done]. unfold error_of in E.
  destruct (is_reason (fld (as_object (fld k "metric_errors")) metric)) eqn:Er; [| done]. injection E as <-.
  cbn [default from_option]. unfold id. by rewrite Er.
Qed.
Lemma availability_errors r :
  as_object (fld (selectMetricAvailability r) "metric_errors") = pick (error_of r) METRICS.
Proof. unfold fld. rewrite lookup_availability, decide_True by done. cbv zeta. by case_bool_decide. Qed.

Lemma error_is_reason r metric e : error_of r metric = Some e → is_reason e = true ∧ truthy e = true.
Proof.
  unfold error_of. destruct (is_reason _) eqn:E; [| done]. intros [= <-]. split; [done |].
  destruct (fld _ metric); try done. cbn in *. apply nonempty_true. intros ->. done.
Qed.
Lemma error_of_set r errs metric :
  error_of (set_field "metric_errors" (JObj errs) r) metric =
  match lookup_field metric errs with Some e => if is_reason e then Some e else None | None => None end.
Proof. unfold error_of. rewrite fld_set_field, decide_True by done. cbn [as_object]. unfold fld. by destruct (lookup_field metric errs). Qed.
Lemma lookup_fold_del {V} (f : jstr → bool) k l (fs : list (jstr * V)) :
  lookup_field k (fold_left (λ acc x, if f x then del_field x acc else acc) l fs) =
  if bool_decide (k ∈ l) && f k then None else lookup_field k fs.
Proof.
  revert fs. induction l as [|x l IH]; intros fs; cbn [fold_left]; [done |]. rewrite IH.
  destruct (decide (k = x)) as [->|Hne].
  - rewrite (bool_decide_true (x ∈ x :: l)) by left. destruct (f x) eqn:Hf; [| by rewrite !andb_false_r].
    rewrite lookup_del_field, decide_True by done. by destruct (_ && _).
  - assert (Hd : lookup_field k (if f x then del_field x fs else fs) = lookup_field k fs).
    { destruct (f x); [| done]. by rewrite lookup_del_field, decide_False. }
    rewrite Hd. do 2 case_bool_decide; try done; set_solver.
Qed.
(** Which errors a metric has after an update. *)
Lemma metric_errors_lookup old report metric :
  metric ∈ METRICS →
  lookup_field metric (metric_errors old report) =
  match error_of report metric with
  | Some e => Some e
  | None => if measured report metric then None else lookup_field metric (as_object (fld old "metric_errors"))
  end.
Proof.
  intros Hm. unfold metric_errors. rewrite availability_errors.
  rewrite (lookup_fold_del (λ x, measured report x && negb (truthy (fld (pick (error_of report) METRICS) x)))).
  rewrite bool_decide_true by done. rewrite lookup_spread by apply pick_nodup. rewrite !lookup_pick, decide_True by done.
  unfold fld. rewrite lookup_pick, decide_True by done. destruct (error_of report metric) as [e|] eqn:E.
  - apply error_is_reason in E as [_ E]. cbn [from_option id]. rewrite E. by rewrite andb_false_r.
  - cbn. by destruct (measured report metric).
Qed.
Lemma capacity_of_num r c : fld r "cpu_capacity" = JNum c → is_finite c = true → num_lt (of_Z 0) c = true → capacity_of r = Some c.
Proof. intros H Hf Hc. unfold capacity_of. rewrite H. cbn. by rewrite Hf, Hc. Qed.
Lemma capacity_of_field r r' :
  fld r' "cpu_capacity" = match option_map JNum (capacity_of r) with Some v => v | None => JUndef end → capacity_of r' = capacity_of r.
Proof.
  intros H. destruct (capacity_of r) as [c|] eqn:E; cbn in H; [| unfold capacity_of; by rewrite H].
  apply capacity_of_num; [done | |]; unfold capacity_of, asFiniteNumber in E;
    destruct (fld r "cpu_capacity") as [| | |n| | |]; try done; destruct (is_finite n) eqn:Hn; try done; destruct (num_lt _ n) eqn:Hl; by simplify_eq.
Qed.

Lemma next_record_field old report t k v :
  NoDup (map fst report) → lookup_field k report = Some v → k ∉ (["cpu_capacity"; "metric_errors"; "lastReportTime"] : list jstr) →
  lookup_field k (next_record old report t) = Some v.
Proof.
  intros Hnd Hk Hn. assert (k ≠ "cpu_capacity" ∧ k ≠ "metric_errors" ∧ k ≠ "lastReportTime") as (H1 & H2 & H3) by set_solver.
  unfold next_record. rewrite lookup_spread by apply availability_nodup.
  rewrite lookup_availability, !decide_False, !lookup_del_field, !decide_False by done.
  unfold updated_fields.
  destruct (has_own report "cpu"); rewrite ?lookup_set_field, ?decide_False by done; rewrite lookup_spread by done; by rewrite Hk.
Qed.
Lemma next_record_time old report t : fld (next_record old report t) "lastReportTime" = JNum t.
Proof.
  unfold fld, next_record. rewrite lookup_spread by apply availability_nodup.
  rewrite lookup_availability, !decide_False, !lookup_del_field, !decide_False by done.
  unfold updated_fields.
  destruct (has_own report "cpu"); rewrite ?(lookup_set_field _ "cpu_capacity"), ?(decide_False (P := "lastReportTime" = "cpu_capacity")) by done;
    by rewrite lookup_set_field, decide_True.
Qed.
Lemma next_record_nodup old report t : NoDup (map fst old) → NoDup (map fst (next_record old report t)).
Proof.
  intros H. unfold next_record. apply spread_nodup, del_field_nodup, del_field_nodup. unfold updated_fields.
  destruct (has_own report "cpu"); repeat apply set_field_nodup; by apply spread_nodup.
Qed.
Lemma next_record_shows old report t : NoDup (map fst report) → shows_report report (next_record old report t).
Proof.
  intros Hnd. split; [| split].
  - intros k v Hk Hn. by apply next_record_field.
  - intros metric Hm. set (next := updated_fields old report t).
    assert (He : error_of (next_record old report t) metric = error_of (set_field "metric_errors" (JObj (metric_errors old report)) next) metric).
    { apply error_of_pick; [| done]. unfold next_record. cbv zeta. fold next. rewrite fld_spread by apply availability_nodup.
      rewrite lookup_availability, decide_True by done. cbv zeta. case_bool_decide as Hb; [| done].
      rewrite Hb, fld_del_field, decide_True by done. done. }
    rewrite He, error_of_set, metric_errors_lookup by done. destruct (error_of report metric) as [e|] eqn:E.
    + apply error_is_reason in E as [-> _]. done.
    + intros ->. done.
  - intros Hc. unfold next_record. set (next := updated_fields old report t).
    transitivity (capacity_of (set_field "metric_errors" (JObj (metric_errors old report)) next)).
    + apply capacity_of_field. rewrite fld_spread by apply availability_nodup.
      rewrite lookup_availability, decide_False, decide_True by done.
      destruct (capacity_of _); cbn [option_map]; [done |]. by rewrite fld_del_field, decide_False, fld_del_field, decide_True.
    + apply capacity_of_field. unfold next, updated_fields. rewrite Hc, fld_set_field, decide_False, fld_set_field, decide_True by done.
      unfold fld. rewrite lookup_availability, decide_False, decide_True by done. by destruct (capacity_of report).
Qed.

Lemma num_le_total a b : is_finite a = true → is_finite b = true → num_le a b = false → num_le b a = true.
Proof.
  intros Ha Hb H. apply num_lt_false_le; [done | done |]. destruct a as [| |p], b as [| |q]; try done.
  apply not_true_iff_false. intros Hlt. apply Qlt_bool_lt in Hlt.
  assert (Qle_bool p q = true) by (apply Qle_bool_iff; lra). unfold num_le in H. congruence.
Qed.
Lemma last_known_timed record uuid name t : is_finite t = true → fld (last_known_fields record uuid name t) "lastReportTime" = JNum t.
Proof.
  intros _. unfold last_known_fields. cbv zeta. set (r0 := spread (spread _ _) _).
  assert (H0 : fld r0 "lastReportTime" = JNum t).
  { unfold r0, fld. rewrite lookup_spread by apply availability_nodup. rewrite lookup_availability, !decide_False by done.
    rewrite lookup_spread by apply pick_nodup. rewrite lookup_pick, decide_False; [done |]. by apply (mem_false _ lastKnownMetrics). }
  clearbody r0. destruct (diskMeasurementMetadata record) as [[] [at_|]], (fld record "message"), (asFiniteNumber (fld record "sort_order"));
    by rewrite ?(fld_set_field "lastReportTime"), ?decide_False.
Qed.
Lemma normalize_timed p u r : normalizeLastKnownRecord p u = Some r → timed r ∧ is_finite (report_time r) = true.
Proof.
  unfold normalizeLastKnownRecord. destruct p as [| | | | | |record]; try done. destruct (_ || _); [done |].
  destruct (fld record "name"); try done. destruct (asFiniteNumber _) as [t|] eqn:Ht; [| done]. destruct (num_lt t _); [done |]. intros [= <-].
  assert (Hf : is_finite t = true).
  { unfold asFiniteNumber in Ht. destruct (fld record "lastReportTime"); try done. destruct (is_finite n) eqn:E; by simplify_eq. }
  unfold timed, report_time. rewrite last_known_timed by done. split; [by exists t | done].
Qed.
Lemma timed_finite r : timed r → is_finite (report_time r) = true.
Proof. unfold report_time. by intros (t & -> & ?). Qed.

(** *** Entries of the list of nodes *)

Lemma entries_without u w l :
  List.filter (is_client u) (List.filter (λ c, negb (is_client w c)) l) = if decide (u = w) then [] else List.filter (is_client u) l.
Proof.
  induction l as [|c l IH]; cbn [List.filter]; [by case_decide |].
  assert (Hx : is_client u c = true → is_client w c = true → u = w).
  { unfold is_client, is_str. destruct (fld c "uuid"); try done. intros <-%jeq_true <-%jeq_true. done. }
  destruct (is_client w c) eqn:Hw; cbn [negb List.filter]; rewrite IH; destruct (is_client u c) eqn:Hu, (decide (u = w)) as [->|]; try done.
  - by destruct Hx.
  - congruence.
Qed.
Lemma forall_filter {A} (P : A → Prop) f (l : list A) : Forall P l → Forall P (List.filter f l).
Proof. induction 1; cbn [List.filter]; [constructor |]. by case_match; [constructor |]. Qed.
Lemma nodup_filter {A} f (l : list A) : NoDup l → NoDup (List.filter f l).
Proof.
  induction 1 as [|x l Hx Hl IH]; cbn [List.filter]; [constructor |]. case_match; [| done]. constructor; [| done].
  rewrite list_elem_of_In, List.filter_In, <- list_elem_of_In. naive_solver.
Qed.
Lemma forall_set_field {V} (P : jstr * V → Prop) k v fs : Forall P fs → P (k, v) → Forall P (set_field k v fs).
Proof. rewrite !Forall_forall. intros H Hk p [->|Hp]%set_field_elem; auto. Qed.
Lemma forall_del_field {V} (P : jstr * V → Prop) k fs : Forall P fs → Forall P (del_field k fs).
Proof. unfold del_field. rewrite !Forall_forall. intros H p [_ Hp]%list_elem_of_filter. auto. Qed.
Lemma forall_lookup {V} (P : jstr * V → Prop) k v fs : Forall P fs → lookup_field k fs = Some v → P (k, v).
Proof. rewrite Forall_forall. intros H Hk%lookup_field_elem. auto. Qed.

(** *** One patch *)

Definition apply1 (v : live_view) (p : patch) : live_view := default v (apply (Some v) p).
Lemma last_record_timed e p : (∀ r, e = Some r → timed r) → (∀ r, p = Some r → timed r) → ∀ r, last_record e p = Some r → timed r.
Proof. intros He Hp r. unfold last_record. destruct e as [e|], p as [p|]; try case_match; intros [= <-]; auto. Qed.
Lemma old_record_nodup u v : well_formed v → NoDup (map fst (default [] (lookup_field u (data v)))).
Proof.
  intros [_ _ Hd _]. destruct (lookup_field u (data v)) as [r|] eqn:E; [| constructor]. by apply (forall_lookup _ _ _ _ Hd) in E.
Qed.
Lemma previous_timed u v r w :
  well_formed v →
  (match normalizeLastKnownRecord w u with Some p => Some p | None => lookup_field u (last_known v) end) = Some r → timed r.
Proof.
  intros [_ _ _ Hl]. destruct (normalizeLastKnownRecord w u) as [p|] eqn:E; [intros [= <-]; by apply normalize_timed in E as [? _] |].
  intros H. by apply (forall_lookup _ _ _ _ Hl) in H.
Qed.
Lemma apply_well_formed v p : patch_ok p → well_formed v → well_formed (apply1 v p).
Proof.
  intros Hp Hv. assert (Hv' := Hv). destruct Hv' as [Ho Hc Hd Hl]. destruct p as [u name report t|u t offline last]; cbn in *.
  - split; cbn; [| done | |].
    + destruct (mem u (online v)) eqn:E; [done |]. apply mem_false in E. apply NoDup_app. split; [done |]. split; [| apply NoDup_singleton].
      intros x Hx ->%list_elem_of_singleton. done.
    + apply forall_set_field; [done |]. apply next_record_nodup, (old_record_nodup _ _ Hv).
    + by apply forall_del_field.
  - unfold apply1. cbn. assert (Hl' := forall_del_field _ u _ Hl).
    assert (Hlast : ∀ e r, (∀ x, e = Some x → timed x) → last_record e (match normalizeLastKnownRecord (JObj (previous_record
        (List.find (is_client u) (v_clients v)) (lookup_field u (data v)) u)) u with Some p => Some p | None => lookup_field u (last_known v) end)
        = Some r → timed r).
    { intros e r He. apply last_record_timed; [done |]. intros x. by apply previous_timed. }
    split; cbn; [by apply nodup_filter | done | by apply forall_del_field |].
    destruct offline; [| done]. destruct (last_record _ _) as [r|] eqn:E; [| done]. apply forall_set_field; [done |].
    apply (Hlast _ _) in E; [done |]. intros x Hx. by apply normalize_timed in Hx as [? _].
Qed.

Lemma entries_app u l1 l2 : List.filter (is_client u) (l1 ++ l2) = List.filter (is_client u) l1 ++ List.filter (is_client u) l2.
Proof. apply List.filter_app. Qed.
Lemma next_client_uuid prev next u name t w : is_client w (next_client prev next u name t) = bool_decide (w = u).
Proof.
  unfold is_client, next_client. rewrite fld_set_field, decide_False, fld_set_field, decide_False, fld_set_field, decide_True by done.
  cbn. unfold jeq. apply bool_decide_ext. naive_solver.
Qed.
(** A patch about [u] makes the view agree with the board about it, whatever both
    were. *)
Lemma apply_touched b v p : patch_ok p → well_formed v → agrees_at (patch_client p) (board_step b p) (apply1 v p).
Proof.
  intros Hp Hv. unfold agrees_at. destruct p as [u name report t|u t offline last]; cbn [board_step patch_client up down].
  - rewrite lookup_insert_eq, lookup_delete_eq. split; [| done]. destruct Hp as [Hnd Hf]. split.
    { cbn. destruct (mem u (online v)) eqn:E; [by apply mem_spec | set_solver]. }
    exists (next_record (default [] (lookup_field u (data v))) report t), (next_client (List.find (is_client u) (v_clients v))
      (next_record (default [] (lookup_field u (data v))) report t) u name t).
    unfold entries. cbn. rewrite lookup_set_field, decide_True, entries_app, entries_without, decide_True by done.
    cbn [List.filter Datatypes.app]. rewrite next_client_uuid, bool_decide_true by done.
    split; [done |]. split; [done |]. split; [by apply next_record_shows |]. split; [by apply next_record_time |].
    unfold next_client. split; [by rewrite fld_set_field, decide_True |]. intros nm -> Hn.
    rewrite fld_set_field, decide_False, fld_set_field, decide_True by done. unfold shown_name, js_or, truthy.
    by rewrite (proj2 (nonempty_true nm) Hn).
  - rewrite lookup_delete_eq. split.
    + unfold apply1, entries. cbn. rewrite lookup_del_field, decide_True, entries_without, decide_True by done.
      split; [| done]. rewrite list_elem_of_In, List.filter_In. intros [_ H]. by rewrite jeq_refl in H.
    + intros t'. destruct offline; cbn; [| by rewrite lookup_delete_eq]. destruct (normalizeLastKnownRecord last u) as [e|] eqn:E.
      2:{ by rewrite lookup_delete_eq. }
      rewrite lookup_insert_eq. intros [= <-]. destruct (normalize_timed _ _ _ E) as [_ Hfe].
      set (previous := match normalizeLastKnownRecord (JObj (previous_record (List.find (is_client u) (v_clients v))
                                (lookup_field u (data v)) u)) u with Some p => Some p | None => lookup_field u (last_known v) end).
      assert (Hprev : ∀ x, previous = Some x → is_finite (report_time x) = true).
      { intros x Hx. eapply timed_finite, previous_timed; [exact Hv | exact Hx]. }
      unfold apply1. cbn. destruct previous as [p|]; cbn.
      * specialize (Hprev _ eq_refl). destruct (num_le (report_time p) (report_time e)) eqn:Hle; rewrite lookup_set_field, decide_True by done;
          eexists; (split; [done |]); [by apply num_le_refl | by apply num_le_total].
      * rewrite lookup_set_field, decide_True by done. eexists. split; [done |]. by apply num_le_refl.
Qed.
(** A patch about another node changes nothing about [u]. *)
Lemma board_untouched b p u : patch_client p ≠ u → up (board_step b p) !! u = up b !! u ∧ down (board_step b p) !! u = down b !! u.
Proof.
  intros Hu. destruct p as [w ? ? ?|w ? ? ?]; cbn in *; [by rewrite lookup_insert_ne, lookup_delete_ne |].
  rewrite lookup_delete_ne by done. split; [done |]. case_match; by rewrite ?lookup_insert_ne, ?lookup_delete_ne.
Qed.
Lemma agrees_same b b' u v : up b' !! u = up b !! u → down b' !! u = down b !! u → agrees_at u b v → agrees_at u b' v.
Proof. unfold agrees_at. by intros -> ->. Qed.
Lemma apply_untouched b v p u : patch_client p ≠ u → agrees_at u b v → agrees_at u b (apply1 v p).
Proof.
  intros Hu [Hup Hdown]. unfold agrees_at.
  assert (Hon : u ∈ online (apply1 v p) ↔ u ∈ online v).
  { destruct p as [w ? ? ?|w ? ? ?]; cbn in *.
    - destruct (mem w (online v)); [done | set_solver].
    - unfold apply1. cbn. rewrite !list_elem_of_In, List.filter_In, <- !list_elem_of_In. rewrite negb_true_iff, jeq_false. naive_solver. }
  assert (Hdata : lookup_field u (data (apply1 v p)) = lookup_field u (data v)).
  { destruct p; cbn in *; [rewrite lookup_set_field | rewrite lookup_del_field]; by rewrite decide_False. }
  assert (Hent : entries u (apply1 v p) = entries u v).
  { unfold entries. destruct p as [w ? ? ?|w ? ? ?]; cbn in *; [rewrite entries_app |]; rewrite entries_without, decide_False by done; [| done].
    cbn [List.filter]. by rewrite next_client_uuid, bool_decide_false, app_nil_r. }
  assert (Hlast : lookup_field u (last_known (apply1 v p)) = lookup_field u (last_known v)).
  { destruct p as [w ? ? ?|w ? offline ?]; cbn in *; [by rewrite lookup_del_field, decide_False |]. unfold apply1. cbn.
    destruct offline; cbn; [| by rewrite lookup_del_field, decide_False].
    destruct (last_record _ _); rewrite ?lookup_set_field, ?lookup_del_field, ?decide_False; done. }
  rewrite Hlast. split; [| done]. destruct (up b !! u) as [n|].
  - destruct Hup as [? (r & c & H)]. split; [by apply Hon |]. exists r, c. by rewrite Hdata, Hent.
  - by rewrite Hon, Hdata, Hent.
Qed.

(** ** Patches replayed over a snapshot *)

Definition replay (v : live_view) (log : list patch) : live_view := fold_left apply1 log v.
Lemma merge_replay v l : merge v l = replay v l.
Proof. done. Qed.
Lemma replay_well_formed v log : Forall patch_ok log → well_formed v → well_formed (replay v log).
Proof.
  intros Hl Hv. unfold replay. apply (fold_left_invariant well_formed); [done |]. intros v' p Hin Hv'. apply apply_well_formed; [| done].
  by apply (proj1 (Forall_forall _ _) Hl).
Qed.
Lemma replay_touched u log b v :
  Forall patch_ok log → well_formed v → u ∈ map patch_client log → agrees_at u (board_after b log) (replay v log).
Proof.
  intros Hl Hv. induction log as [|p log IH] using rev_ind; [by intros ?%not_elem_of_nil |].
  apply Forall_app in Hl as [Hl Hp]. apply Forall_cons_1 in Hp as [Hp _]. unfold board_after, replay. rewrite !fold_left_app. cbn [fold_left].
  fold (board_after b log) (replay v log). rewrite map_app, elem_of_app. cbn [map]. rewrite list_elem_of_singleton. intros Hu.
  destruct (decide (patch_client p = u)) as [<-|Hne].
  - apply apply_touched; [done | by apply replay_well_formed].
  - destruct (board_untouched (board_after b log) p u Hne). apply apply_untouched; [done |].
    eapply agrees_same; [done | done |]. apply IH; [done |]. by destruct Hu.
Qed.
Lemma board_after_untouched u log b :
  u ∉ map patch_client log → up (board_after b log) !! u = up b !! u ∧ down (board_after b log) !! u = down b !! u.
Proof.
  unfold board_after. revert b. induction log as [|p log IH]; intros b Hu; [done |]. cbn [fold_left].
  destruct (IH (board_step b p)) as [-> ->]; [set_solver |]. apply board_untouched. set_solver.
Qed.
Lemma replay_untouched u log b v : u ∉ map patch_client log → agrees_at u b v → agrees_at u b (replay v log).
Proof.
  unfold replay. revert v. induction log as [|p log IH]; intros v Hu Ha; [done |]. cbn [fold_left]. apply IH; [set_solver |].
  apply apply_untouched; [set_solver | done].
Qed.
(** The patches [l1] are in the snapshot already and [l2] are not: replaying
    both over it gives what the server shows after both. *)
Lemma replay_agrees b l1 l2 v :
  Forall patch_ok (l1 ++ l2) → agrees (board_after b l1) v → agrees (board_after b (l1 ++ l2)) (replay v (l1 ++ l2)).
Proof.
  intros Hl [Hv Ha]. split; [by apply replay_well_formed |]. intros u.
  destruct (decide (u ∈ map patch_client (l1 ++ l2))) as [Hin|Hin]; [by apply replay_touched |].
  apply replay_untouched; [done |]. destruct (board_after_untouched u _ b Hin) as [H1 H2].
  assert (Hin1 : u ∉ map patch_client l1) by (rewrite map_app in Hin; set_solver).
  destruct (board_after_untouched u _ b Hin1) as [H3 H4]. eapply agrees_same; [| | apply Ha]; congruence.
Qed.

(** ** A page and its connections *)

(** [pos] is how many patches of the server the socket has passed; [since] the
    position the pending request began at, when the socket missed nothing from
    there on; [synced] the position of the latest snapshot the view is built on,
    when nothing was missed since it was asked for. *)
Record viewer := { v_scope : scope; pos : nat; since : option nat; synced : option nat; begun : gset nat }.
Section Viewer.
(** The patches the server sends, in order, from what it showed before them. *)
Context (log : list patch) (b0 : board).
Definition board_at (j : nat) : board := board_after b0 (take j log).
(** A snapshot the server takes after [j] patches: it agrees with what the server
    shows, and no patch in it is of a later time. *)
Definition snapshot_at (j : nat) (v : live_view) : Prop :=
  (j ≤ length log)%nat ∧ agrees (board_at j) v ∧ ∀ p, p ∈ take j log → num_lt (timestamp v) (patch_time p) = false.
Definition accepted (id : nat) (s : viewer) : bool := isCurrent id (v_scope s).

Inductive viewer_step : viewer → viewer → Prop :=
| on_patch s p :
    log !! pos s = Some p →
    viewer_step s {| v_scope := (receive p (v_scope s)).2; pos := S (pos s); since := since s; synced := synced s; begun := begun s |}
| on_begin s id :
    id ∉ begun s →
    viewer_step s {| v_scope := beginRead id (v_scope s); pos := pos s; since := Some (pos s); synced := synced s;
                     begun := {[id]} ∪ begun s |}
| on_answer s id j v :
    snapshot_at j v →
    (∀ b, accepted id s = true → since s = Some b → (b ≤ j)%nat) →
    viewer_step s {| v_scope := (complete id v (v_scope s)).2; pos := pos s;
                     since := if accepted id s then None else since s;
                     synced := if accepted id s then (match since s with Some _ => Some j | None => None end) else synced s;
                     begun := begun s |}
| on_failure s id :
    viewer_step s {| v_scope := finishRead id (v_scope s); pos := pos s; since := since s; synced := synced s; begun := begun s |}
| on_snapshot s j v :
    snapshot_at j v → (pos s ≤ j)%nat → active (v_scope s) = true →
    viewer_step s {| v_scope := (snapshot v (v_scope s)).2; pos := j; since := None; synced := Some j; begun := begun s |}
| on_seed s v :
    viewer_step s {| v_scope := (seed v (v_scope s)).2; pos := pos s; since := since s;
                     synced := if hasSnapshot (v_scope s) then synced s else None; begun := begun s |}
| on_reconnect s j :
    (pos s ≤ j ≤ length log)%nat →
    viewer_step s {| v_scope := v_scope s; pos := j; since := None; synced := None; begun := begun s |}
| on_dispose s :
    viewer_step s {| v_scope := dispose (v_scope s); pos := pos s; since := None; synced := None; begun := begun s |}.
Definition opened (j : nat) : viewer := {| v_scope := new_scope; pos := j; since := None; synced := None; begun := ∅ |}.
Definition reachable (s : viewer) : Prop := ∃ j, (j ≤ length log)%nat ∧ rtc viewer_step (opened j) s.

(** The patches between two positions. *)
Definition between (lo hi : nat) : list patch := drop lo (take hi log).
Record viewer_inv (s : viewer) : Prop := {
  vi_pos : (pos s ≤ length log)%nat;
  vi_initial : ∀ p, p ∈ initialUpdates (v_scope s) → p ∈ take (pos s) log;
  vi_pending : ∀ r b, active (v_scope s) = true → pending (v_scope s) = Some r → since s = Some b →
    (b ≤ pos s)%nat ∧ updates r = between b (pos s) ∧ ∀ p, p ∈ priorUpdates r → p ∈ take b log;
  vi_synced : ∀ j, synced s = Some j → active (v_scope s) = true ∧ ∃ v0 lo, (lo ≤ j ≤ length log)%nat ∧ (lo ≤ pos s)%nat ∧
    current (v_scope s) = Some (replay v0 (between lo (pos s))) ∧ agrees (board_at j) v0;
  vi_disposed : active (v_scope s) = false → current (v_scope s) = None;
}.

Lemma between_snoc lo hi p : (lo ≤ hi)%nat → log !! hi = Some p → between lo (S hi) = between lo hi ++ [p].
Proof.
  intros Hle Hp. unfold between. rewrite (take_S_r _ _ _ Hp), drop_app_le; [done |].
  rewrite length_take. apply lookup_lt_Some in Hp. lia.
Qed.
Lemma between_split lo j hi : (lo ≤ j ≤ hi)%nat → between lo hi = between lo j ++ between j hi.
Proof.
  intros H. unfold between. destruct (decide (j ≤ length log)%nat) as [Hj|Hj].
  - rewrite <- (take_drop j (take hi log)) at 1. rewrite take_take, Nat.min_l by lia. rewrite drop_app_le; [done |].
    rewrite length_take. lia.
  - rewrite !(take_ge log) by lia. rewrite (drop_ge log j) by lia. by rewrite app_nil_r.
Qed.
Lemma between_self j : between j j = [].
Proof. unfold between. apply drop_ge. rewrite length_take. lia. Qed.
Lemma elem_of_take_mono {A} (l : list A) i j x : (i ≤ j)%nat → x ∈ take i l → x ∈ take j l.
Proof.
  intros H Hx. rewrite <- (take_drop i (take j l)), take_take, Nat.min_l by done. apply elem_of_app. by left.
Qed.
Lemma apply_some v p : apply (Some v) p = Some (apply1 v p).
Proof. by destruct p. Qed.

Lemma viewer_inv_patch s p :
  viewer_inv s → log !! pos s = Some p →
  viewer_inv {| v_scope := (receive p (v_scope s)).2; pos := S (pos s); since := since s; synced := synced s; begun := begun s |}.
Proof.
  intros [Ipos Iinit Ipend Isync Idis] Hp. assert (Hlt := lookup_lt_Some _ _ _ Hp). unfold receive.
  assert (Hin : p ∈ take (S (pos s)) log) by (rewrite (take_S_r _ _ _ Hp); set_solver).
  assert (Hmono : ∀ x, x ∈ take (pos s) log → x ∈ take (S (pos s)) log) by (intros x; apply elem_of_take_mono; lia).
  destruct (active (v_scope s)) eqn:Ha; split; cbn [v_scope pos since synced snd initialUpdates pending current active]; try done; try lia.
  - destruct (hasSnapshot (v_scope s)); [auto |]. intros x [Hx|Hx%list_elem_of_singleton]%elem_of_app; [auto | by subst].
  - intros r b _ Hr Hb. destruct (pending (v_scope s)) as [r0|] eqn:E; [| done]. injection Hr as <-. cbn.
    destruct (Ipend r0 b eq_refl eq_refl Hb) as (? & -> & ?). split; [lia |]. split; [by rewrite (between_snoc _ _ p) by done | done].
  - intros j Hj. destruct (Isync j Hj) as (_ & v0 & lo & ? & ? & Hc & ?). split; [done |]. exists v0, lo.
    split; [done |]. split; [lia |]. split; [| done].
    rewrite Hc, apply_some, (between_snoc _ _ p) by done. unfold replay. by rewrite fold_left_app.
  - intros x Hx. apply Hmono. auto.
  - intros r b Hact. congruence.
  - intros j Hj. destruct (Isync j Hj) as (? & _). congruence.
  - auto.
Qed.
(** Patches the snapshot holds are not replayed before the others. *)
Lemma mergePrior_none j v l : snapshot_at j v → (∀ p, p ∈ l → p ∈ take j log) → mergePrior v l = v.
Proof.
  intros (_ & _ & Ht) Hl. unfold mergePrior. assert (Hnil : List.filter (λ p, num_lt (timestamp v) (patch_time p)) l = []).
  { induction l as [|p l IH]; [done |]. cbn [List.filter]. rewrite Ht by (apply Hl; left). apply IH. intros x Hx. apply Hl. by right. }
  by rewrite Hnil.
Qed.
Lemma viewer_inv_answer s id j v :
  viewer_inv s → snapshot_at j v → (∀ b, accepted id s = true → since s = Some b → (b ≤ j)%nat) →
  viewer_inv {| v_scope := (complete id v (v_scope s)).2; pos := pos s; since := if accepted id s then None else since s;
                synced := if accepted id s then (match since s with Some _ => Some j | None => None end) else synced s; begun := begun s |}.
Proof.
  intros [Ipos Iinit Ipend Isync Idis] Hsnap Hj. unfold complete. unfold accepted, isCurrent in *.
  destruct (pending (v_scope s)) as [r|] eqn:Hr; [| rewrite andb_false_r; split; cbn; rewrite ?Hr; done].
  destruct (active (v_scope s) && bool_decide (rq_id r = id)) eqn:Hacc; [| split; cbn; rewrite ?Hr; done].
  split; cbn [v_scope pos since synced snd showing initialUpdates pending current active]; try done.
  - intros p Hp. by apply not_elem_of_nil in Hp.
  - intros j' Hj'. split; [done |]. destruct (since s) as [b|] eqn:Hb; [injection Hj' as <- | done].
    apply andb_true_iff in Hacc as [Ha _]. destruct (Ipend r b Ha eq_refl eq_refl) as (Hbp & Hu & Hprior).
    exists v, b. specialize (Hj b eq_refl eq_refl). destruct Hsnap as (Hlen & Hagr & Ht). split; [lia |]. split; [done |]. split; [| done].
    rewrite merge_replay, Hu, (mergePrior_none j); [done | done |]. intros p Hp. apply (elem_of_take_mono _ b); [done | auto].
Qed.
Lemma viewer_inv_step s s' : viewer_inv s → viewer_step s s' → viewer_inv s'.
Proof.
  intros Hinv Hstep. revert Hinv. destruct Hstep as [s0 p Hp|s0 id Hid|s0 id j v Hs Hj|s0 id|s0 j v Hs Hj Ha|s0 v|s0 j Hj|s0];
    intros Hinv; assert (Hi := Hinv); destruct Hi as [Ipos Iinit Ipend Isync Idis].
  - by apply viewer_inv_patch.
  - split; cbn; try done. intros r b _ [= <-] [= <-]. cbn. by rewrite between_self.
  - by apply viewer_inv_answer.
  - unfold finishRead. destruct (pending (v_scope s0)) as [r|] eqn:Hr; [| by split; cbn; rewrite ?Hr].
    case_bool_decide; split; cbn; rewrite ?Hr; done.
  - unfold snapshot. rewrite Ha. destruct Hs as (Hlen & Hagr & _). split; cbn; try done.
    + intros p Hp. by apply not_elem_of_nil in Hp.
    + intros j' [= <-]. split; [done |]. exists v, j. rewrite between_self. done.
  - unfold seed. destruct (active (v_scope s0) && negb (hasSnapshot (v_scope s0))) eqn:Hacc; cbn [snd].
    + apply andb_true_iff in Hacc as [Ha Hh]. apply negb_true_iff in Hh. rewrite Hh. split; cbn; try done.
      * intros p Hp. by apply not_elem_of_nil in Hp.
      * intros r b _. by apply Ipend.
    + split; cbn; try done. intros j. destruct (hasSnapshot (v_scope s0)); [apply Isync | done].
  - destruct Hj as [Hj1 Hj2]. split; cbn; try done. intros p Hp. apply (elem_of_take_mono _ (pos s0)); [done | auto].
  - split; cbn; try done. intros p Hp. by apply not_elem_of_nil in Hp.
Qed.
Lemma viewer_inv_reachable s : reachable s → viewer_inv s.
Proof.
  intros (j & Hj & Hr). assert (H0 : viewer_inv (opened j)).
  { split; cbn; try done. intros p Hp. by apply not_elem_of_nil in Hp. }
  revert H0. induction Hr; eauto using viewer_inv_step.
Qed.
End Viewer.


(** ** Example *)

(** A patch arrives while the request is under way; its answer is older. *)
Definition ex_log : list patch := [Update "a" (Some "A") [("cpu", JNum 5); ("temp", JNull)] 1].
Definition ex_board : board := {| up := ∅; down := ∅ |}.
Definition ex_begun : viewer :=
  {| v_scope := beginRead 0 new_scope; pos := 0; since := Some 0%nat; synced := None; begun := {[0%nat]} ∪ ∅ |}.
Definition ex_before : viewer :=
  {| v_scope := (receive (Update "a" (Some "A") [("cpu", JNum 5); ("temp", JNull)] 1) (v_scope ex_begun)).2;
     pos := S (pos ex_begun); since := since ex_begun; synced := synced ex_begun; begun := begun ex_begun |}.
Definition ex_viewer : viewer :=
  {| v_scope := (complete 0 empty_view (v_scope ex_before)).2; pos := pos ex_before;
     since := if accepted 0 ex_before then None else since ex_before;
     synced := if accepted 0 ex_before then (match since ex_before with Some _ => Some 0%nat | None => None end) else synced ex_before;
     begun := begun ex_before |}.
Lemma ex_snapshot : snapshot_at ex_log ex_board 0 empty_view.
Proof.
  split; [cbn; lia |]. split; [| intros p Hp; by apply not_elem_of_nil in Hp]. split.
  - split; cbn; [constructor | reflexivity | constructor | constructor].
  - intros u. unfold agrees_at. cbn. rewrite !lookup_empty. split; [| done]. split; [apply not_elem_of_nil | done].
Qed.
Lemma ex_reachable : reachable ex_log ex_board ex_viewer.
Proof.
  exists 0%nat. split; [lia |]. apply (rtc_l _ _ ex_begun); [apply (on_begin _ _ (opened 0) 0); set_solver |].
  apply (rtc_l _ _ ex_before); [apply (on_patch _ _ ex_begun); reflexivity |]. apply (rtc_l _ _ ex_viewer); [| apply rtc_refl].
  apply (on_answer ex_log ex_board ex_before 0 0 empty_view); [apply ex_snapshot |]. intros b _ [= <-]. cbn. lia.
Qed.
