(* ===== verification/JsJson.v ===== *)
(** * JSON texts read back

    [JSON.parse(JSON.stringify(v))] for any value: the properties that are
    undefined are gone, undefined elements of arrays are null, and everything else
    is what it was.  Numbers are those whose text reads back; every safe integer is
    one. *)

From S2P Require Import Prelude JsStr JsNum JsVal JsBytes.
#[local] Open Scope Z_scope.

(** ** Induction on nested values *)

Section Induction.
Context (P : jsval → Prop) (Hundef : P JUndef) (Hnull : P JNull) (Hbool : ∀ b, P (JBool b)) (Hnum : ∀ n, P (JNum n))
        (Hstr : ∀ s, P (JStr s)) (Harr : ∀ l, Forall P l → P (JArr l)) (Hobj : ∀ fs, Forall (λ p, P p.2) fs → P (JObj fs)).
Fixpoint jsval_nested_ind (v : jsval) : P v :=
  match v with
  | JUndef => Hundef
  | JNull => Hnull
  | JBool b => Hbool b
  | JNum n => Hnum n
  | JStr s => Hstr s
  | JArr l => Harr l ((fix all (l : list jsval) : Forall P l :=
                         match l with [] => Forall_nil_2 _ | x :: r => Forall_cons_2 _ _ _ (jsval_nested_ind x) (all r) end) l)
  | JObj fs => Hobj fs ((fix all (fs : fields) : Forall (λ p, P p.2) fs :=
                           match fs with [] => Forall_nil_2 _ | p :: r => Forall_cons_2 _ _ _ (jsval_nested_ind p.2) (all r) end) fs)
  end.
End Induction.

(** ** Values without undefined parts *)

Fixpoint strip (v : jsval) : jsval :=
  match v with
  | JUndef => JNull
  | JArr l => JArr (map strip l)
  | JObj fs => JObj (omap (λ p, if is_undef p.2 then None else Some (p.1, strip p.2)) fs)
  | _ => v
  end.
Lemma stringify_some v : v ≠ JUndef → ∃ t, stringify v = Some t.
Proof. destruct v; cbn; eauto. done. Qed.
(** [JSON.stringify] does not see the difference. *)
Lemma stringify_strip v : stringify (strip v) = Some (default "null" (stringify v)).
Proof.
  induction v as [| | | | |l Hl|fs Hfs] using jsval_nested_ind; try done.
  - cbn [strip stringify default from_option id]. f_equal. do 3 f_equal. rewrite map_map.
    induction Hl as [|x l Hx Hl IH]; [done |]. cbn [map]. rewrite Hx, IH. done.
  - cbn [strip stringify default from_option id]. do 4 f_equal.
    induction Hfs as [|[k x] fs Hx Hfs IH]; [done |]. cbn [fst snd] in *. destruct x; cbn [omap list_omap fst snd is_undef]; [exact IH |..];
      rewrite Hx; cbn [default from_option id]; rewrite IH; done.
Qed.

(** ** The text of a value *)

(** [n] reads back from its text before a separator or at the end. *)
Definition reads_back (n : num) : Prop :=
  is_finite n = true ∧ (∃ c r, units (num_str n) = c :: r ∧ (is_digit c = true ∨ c = 45%N))
  ∧ ∀ rest, (rest = [] ∨ ∃ u r, rest = u :: r ∧ u ∈ [44; 93; 125]%N) → json_number (units (num_str n) ++ rest) = Some (n, rest).
Fixpoint plain (v : jsval) : Prop :=
  match v with
  | JUndef => False
  | JNull | JBool _ => True
  | JNum n => reads_back n
  | JStr s => Forall is_unit (units s)
  | JArr l => (fix all (l : list jsval) : Prop := match l with [] => True | x :: r => plain x ∧ all r end) l
  | JObj fs =>
    NoDup (map fst fs)
    ∧ (fix all (fs : fields) : Prop := match fs with [] => True | p :: r => (Forall is_unit (units p.1) ∧ plain p.2) ∧ all r end) fs
  end.
Lemma plain_arr l : plain (JArr l) ↔ Forall plain l.
Proof. induction l as [|x l IH]; [split; [constructor | done] |]. rewrite Forall_cons, <- IH. done. Qed.
Lemma plain_obj fs : plain (JObj fs) ↔ NoDup (map fst fs) ∧ Forall (λ p, Forall is_unit (units p.1) ∧ plain p.2) fs.
Proof.
  cbn [plain]. apply and_iff_compat_l. induction fs as [|p fs IH]; [split; [constructor | done] |]. rewrite Forall_cons, <- IH. done.
Qed.

Fixpoint commas (l : list (list N)) : list N :=
  match l with
  | [] => []
  | [x] => x
  | x :: r => x ++ 44%N :: commas r
  end.
Lemma units_join l : units (join "," l) = commas (map units l).
Proof.
  induction l as [|x l IH]; [done |]. destruct l as [|y l]; [done |].
  change (units (join "," (x :: y :: l))) with (units x ++ 44%N :: units (join "," (y :: l))). by rewrite IH.
Qed.
Definition text (v : jsval) : list N := units (json v).
Definition member_text (p : jstr * jsval) : list N := units (quote p.1) ++ 58%N :: text p.2.
Lemma json_some v : v ≠ JUndef → stringify v = Some (json v).
Proof. unfold json. by destruct v. Qed.
Lemma plain_defined v : plain v → v ≠ JUndef.
Proof. by destruct v. Qed.
Lemma text_arr l : Forall plain l → text (JArr l) = 91%N :: commas (map text l) ++ [93%N].
Proof.
  intros Hl. unfold text at 1, json. cbn [stringify default from_option id]. unfold app. cbn [units Datatypes.app]. rewrite units_join, map_map.
  do 3 f_equal. induction Hl as [|x l Hx Hl IH]; [done |]. cbn [map]. by rewrite json_some, IH by (by apply plain_defined).
Qed.
Lemma text_obj fs :
  Forall (λ p, Forall is_unit (units p.1) ∧ plain p.2) fs → text (JObj fs) = 123%N :: commas (map member_text fs) ++ [125%N].
Proof.
  intros Hl. unfold text at 1, json. cbn [stringify default from_option id]. unfold app at 1 2. cbn [units Datatypes.app]. rewrite units_join.
  do 3 f_equal. induction Hl as [|[k x] l [_ Hx] Hl IH]; [done |]. cbn [fst snd] in *. cbn [omap list_omap fst snd map].
  rewrite json_some by (by apply plain_defined). cbn [map]. by rewrite IH.
Qed.

(** The first unit of a text. *)
Definition starter (c : N) : Prop := json_space c = false ∧ c ≠ 93%N ∧ c ≠ 125%N ∧ c ≠ 65279%N.
Lemma text_head v : plain v → ∃ c r, text v = c :: r ∧ starter c.
Proof.
  assert (Hst : ∀ c, bool_decide (c ∈ [93; 125; 65279; 32; 9; 10; 13]%N) = false → starter c).
  { intros c Hc. apply bool_decide_eq_false in Hc. rewrite !not_elem_of_cons in Hc. unfold starter, json_space.
    rewrite !orb_false_iff, !N.eqb_neq. naive_solver. }
  destruct v as [| |[]|n|s|l|fs]; intros Hv; try done; try (eexists _, _; split; [reflexivity | by apply Hst]).
  destruct Hv as (Hf & (c & r & Hn & Hc) & _). exists c, r. unfold text, json. cbn [stringify]. rewrite Hf. cbn [default from_option id].
  split; [done |]. apply Hst. destruct Hc as [Hd| ->]; [| done]. apply is_digit_spec in Hd. apply bool_decide_eq_false.
  rewrite !not_elem_of_cons. repeat split; lia || (intros ?%not_elem_of_nil; done).
Qed.

(** ** Reading a text back *)

Definition ended (rest : list N) : Prop := rest = [] ∨ ∃ u r, rest = u :: r ∧ u ∈ [44; 93; 125]%N.
Lemma ended_cons u r : u ∈ [44; 93; 125]%N → ended (u :: r).
Proof. intros. right. eauto. Qed.
(** [v] is read from its text, with this much fuel, whatever follows it. *)
Definition reads (v : jsval) : Prop :=
  ∀ k rest, (2 * length (text v) + 1 ≤ k)%nat → ended rest → json_value k (text v ++ rest) = Some (v, rest).

Lemma skip_ws_starter c r : starter c → skip_ws (c :: r) = c :: r.
Proof. intros [H _]. unfold skip_ws. cbn [drop_while]. by rewrite H. Qed.
Lemma skip_ws_text v rest : plain v → skip_ws (text v ++ rest) = text v ++ rest.
Proof. intros Hv. destruct (text_head v Hv) as (c & r & -> & Hc). cbn [Datatypes.app]. by apply skip_ws_starter. Qed.
Lemma skip_ws_ended u r : u ∈ [44; 93; 125; 58]%N → skip_ws (u :: r) = u :: r.
Proof. intros Hu. list_cases Hu; done. Qed.
Lemma text_length v : plain v → (1 ≤ length (text v))%nat.
Proof. intros Hv. destruct (text_head v Hv) as (c & r & -> & _). simpl. lia. Qed.
Lemma commas_cons x y l : commas (x :: y :: l) = x ++ 44%N :: commas (y :: l).
Proof. done. Qed.

Lemma reads_num n : plain (JNum n) → reads (JNum n).
Proof.
  intros (Hf & (c & r & Hn & Hc) & Hread) k rest Hk Hrest. specialize (Hread rest Hrest). revert Hk Hread.
  assert (Ht : text (JNum n) = units (num_str n)) by (unfold text, json; cbn [stringify]; by rewrite Hf).
  rewrite Ht, Hn. intros Hk Hread. destruct k as [|k]; [simpl in Hk; lia |]. cbn [Datatypes.app] in *.
  assert (Hin : c ∈ [48; 49; 50; 51; 52; 53; 54; 55; 56; 57; 45]%N).
  { destruct Hc as [Hc%digit_cases| ->]; [| do 10 right; left]. rewrite !elem_of_cons in *. tauto. }
  list_cases Hin; cbn [json_value]; change (skip_ws (?x :: ?y)) with (x :: y); cbn [skip_ws drop_while json_space N.eqb Pos.eqb orb is_prefix andb units];
    rewrite Hread; done.
Qed.
Lemma reads_str s : plain (JStr s) → reads (JStr s).
Proof.
  intros Hs k rest Hk _. unfold text, json in *. cbn [stringify default] in *. unfold id, quote in *. cbn [units] in *.
  destruct k as [|k]; [lia |]. cbn [Datatypes.app] in *. cbn [json_value]. rewrite <- (assoc_L (++)). cbn [Datatypes.app].
  cbn [skip_ws drop_while json_space N.eqb Pos.eqb orb is_prefix andb units].
  rewrite json_string_quote; [by destruct s | done |]. cbn [length] in Hk. rewrite length_app in Hk.
  pose proof (quote_units_length (units s)). simpl in Hk. lia.
Qed.
Lemma reads_items l k rest :
  l ≠ [] → Forall plain l → Forall reads l → (2 * length (commas (map text l)) + 2 ≤ k)%nat →
  json_items k (commas (map text l) ++ 93%N :: rest) = Some (l, rest).
Proof.
  revert k. induction l as [|v l IH]; intros k Hne Hp Hr Hk; [done |]. clear Hne.
  apply Forall_cons in Hp as [Hpv Hp]. apply Forall_cons in Hr as [Hrv Hr]. destruct k as [|k]; [lia |].
  destruct l as [|w l].
  - cbn [map commas] in *. cbn [json_items]. rewrite Hrv by (lia || by apply ended_cons; list_elem). by rewrite skip_ws_ended by list_elem.
  - cbn [map] in *. rewrite commas_cons in *. rewrite length_app in Hk. cbn [length] in Hk. rewrite <- (assoc_L (++)). cbn [Datatypes.app json_items].
    rewrite Hrv by (lia || by apply ended_cons; list_elem). rewrite skip_ws_ended by list_elem. by rewrite IH by (done || lia).
Qed.
Lemma reads_arr l : plain (JArr l) → Forall reads l → reads (JArr l).
Proof.
  rewrite plain_arr. intros Hp Hr k rest Hk _. rewrite text_arr in * by done. destruct k as [|k]; [lia |]. cbn [length] in Hk. rewrite length_app in Hk.
  destruct l as [|v l]; [by cbn |]. cbn [Datatypes.app length] in *. rewrite <- (assoc_L (++)). cbn [Datatypes.app json_value].
  change (skip_ws (91%N :: ?y)) with (91%N :: y). cbn [skip_ws drop_while json_space N.eqb Pos.eqb orb is_prefix andb units].
  assert (Hitems := reads_items (v :: l) k rest ltac:(done) Hp Hr ltac:(lia)).
  assert (Hhead : ∃ c r, commas (map text (v :: l)) ++ 93%N :: rest = c :: r ∧ starter c).
  { apply Forall_cons in Hp as [Hv _]. destruct (text_head v Hv) as (c & r & Ht & Hc). cbn [map].
    destruct (map text l) as [|x xs]; [cbn [commas] | rewrite commas_cons]; rewrite Ht; cbn [Datatypes.app]; eauto. }
  destruct Hhead as (c & r & Hh & Hc). rewrite Hh in *. fold (skip_ws (c :: r)). rewrite skip_ws_starter by done. destruct Hc as (_ & H93 & _).
  rewrite Hitems. destruct c as [|p]; [done |]. repeat (destruct p as [p|p|]; try done).
Qed.
Lemma reads_members fs k rest :
  fs ≠ [] → Forall (λ p, Forall is_unit (units p.1) ∧ plain p.2) fs → Forall (λ p, reads p.2) fs →
  (2 * length (commas (map member_text fs)) + 2 ≤ k)%nat →
  json_members k (commas (map member_text fs) ++ 125%N :: rest) = Some (fs, rest).
Proof.
  revert k. induction fs as [|[key v] fs IH]; intros k Hne Hp Hr Hk; [done |]. clear Hne.
  apply Forall_cons in Hp as [[Hkey Hpv] Hp]. apply Forall_cons in Hr as [Hrv Hr]. cbn [fst snd] in *. destruct k as [|k]; [lia |].
  pose proof (quote_units_length (units key)) as Hql.
  assert (Hmember : ∀ tail, (2 * length (member_text (key, v)) ≤ S k)%nat → ended tail →
    json_string k (quote_units (units key) ++ 34%N :: 58%N :: text v ++ tail) = Some (units key, 58%N :: text v ++ tail)
    ∧ json_value k (text v ++ tail) = Some (v, tail)).
  { intros tail Hlen Htail. unfold member_text, quote in Hlen. cbn [fst snd units] in Hlen. repeat (rewrite ?length_app in Hlen; cbn [length] in Hlen). split; [apply json_string_quote; [done | lia] | apply Hrv; [lia | done]]. }
  assert (Htext : ∀ tail, member_text (key, v) ++ tail = 34%N :: quote_units (units key) ++ 34%N :: 58%N :: text v ++ tail).
  { intros tail. unfold member_text, quote. cbn [fst snd units Datatypes.app]. rewrite <- !(assoc_L (++)). cbn [Datatypes.app]. done. }
  destruct fs as [|p fs].
  - cbn [map commas] in *. rewrite Htext. cbn [json_members]. change (skip_ws (34%N :: ?y)) with (34%N :: y). cbv iota.
    destruct (Hmember (125%N :: rest)) as [-> Hv]; [lia | apply ended_cons; list_elem |].
    rewrite skip_ws_ended by list_elem. rewrite Hv, skip_ws_ended by list_elem. by destruct key.
  - cbn [map] in *. rewrite commas_cons in *. rewrite length_app in Hk. cbn [length] in Hk. rewrite <- (assoc_L (++)), Htext. cbn [Datatypes.app json_members].
    change (skip_ws (34%N :: ?y)) with (34%N :: y). cbv iota.
    destruct (Hmember (44%N :: commas (member_text p :: map member_text fs) ++ 125%N :: rest)) as [-> Hv]; [lia | apply ended_cons; list_elem |].
    rewrite skip_ws_ended by list_elem. rewrite Hv, skip_ws_ended by list_elem. rewrite IH by (done || lia). by destruct key.
Qed.
Lemma reads_obj fs : plain (JObj fs) → Forall (λ p, reads p.2) fs → reads (JObj fs).
Proof.
  rewrite plain_obj. intros [Hnd Hp] Hr k rest Hk _. rewrite text_obj in * by done. destruct k as [|k]; [lia |]. cbn [length] in Hk. rewrite length_app in Hk.
  destruct fs as [|p fs]; [by cbn |]. cbn [Datatypes.app length] in *. rewrite <- (assoc_L (++)). cbn [Datatypes.app json_value].
  change (skip_ws (123%N :: ?y)) with (123%N :: y). cbn [skip_ws drop_while json_space N.eqb Pos.eqb orb is_prefix andb units].
  assert (Hm := reads_members (p :: fs) k rest ltac:(done) Hp Hr ltac:(lia)).
  assert (Hhead : ∃ r, commas (map member_text (p :: fs)) ++ 125%N :: rest = 34%N :: r).
  { cbn [map]. destruct (map member_text fs) as [|x xs]; [cbn [commas] | rewrite commas_cons]; unfold member_text, quote; cbn [units Datatypes.app]; eauto. }
  destruct Hhead as (r & Hh). rewrite Hh in *. cbn [drop_while json_space N.eqb Pos.eqb orb]. rewrite Hm. by rewrite spread_nil_nodup.
Qed.
Lemma plain_reads v : plain v → reads v.
Proof.
  induction v as [| |b|n|s|l Hl|fs Hfs] using jsval_nested_ind; intros Hv.
  - done.
  - intros k rest Hk _. destruct k as [|k]; [lia |]. reflexivity.
  - intros k rest Hk _. destruct k as [|k]; [lia |]. by destruct b.
  - by apply reads_num.
  - by apply reads_str.
  - apply reads_arr; [done |]. apply plain_arr in Hv. rewrite Forall_forall in *. auto.
  - apply reads_obj; [done |]. apply plain_obj in Hv as [_ Hv]. rewrite Forall_forall in *. intros p Hp. apply Hfs; [done |]. by apply Hv.
Qed.
(** [JSON.parse(JSON.stringify(v))] *)
Lemma json_roundtrip v : plain v → json_parse (json v) = Some v.
Proof.
  intros Hv. unfold json_parse. fold (text v).
  assert (Hr := plain_reads v Hv (3 * length (text v) + 3)%nat [] ltac:(lia) ltac:(by left)). rewrite app_nil_r in Hr. by rewrite Hr.
Qed.
Lemma json_roundtrip_strip v : v ≠ JUndef → plain (strip v) → json_parse (json v) = Some (strip v).
Proof.
  intros Hv Hp. rewrite <- (json_roundtrip (strip v) Hp). f_equal. unfold json. rewrite stringify_strip.
  destruct (stringify_some v Hv) as [t ->]. done.
Qed.

(** ** Numbers that read back *)

Lemma ended_cases rest : ended rest → rest = [] ∨ ∃ u r, rest = u :: r ∧ (u = 44 ∨ u = 93 ∨ u = 125)%N.
Proof. intros [-> | (u & r & -> & Hu)]; [by left | right]. exists u, r. split; [done |]. list_cases Hu; auto. Qed.
Lemma digits_before l rest :
  ended rest → take_while is_digit (l ++ rest) = take_while is_digit l ∧ drop_while is_digit (l ++ rest) = drop_while is_digit l ++ rest.
Proof.
  intros Hr. induction l as [|x l [IH1 IH2]]; cbn [Datatypes.app take_while drop_while].
  - apply ended_cases in Hr as [-> | (u & r & -> & [-> | [-> | ->]])]; done.
  - destruct (is_digit x); [by rewrite IH1, IH2 | done].
Qed.
(** A number that is read whole is read before a separator too. *)
Lemma json_number_ended t n rest : json_number t = Some (n, []) → ended rest → json_number (t ++ rest) = Some (n, rest).
Proof.
  intros H Hr. unfold json_number in *.
  assert (Hsign : match t ++ rest with u :: r => if (u =? 45)%N then (true, r) else (false, t ++ rest) | [] => (false, []) end
    = let '(neg, r) := match t with u :: r => if (u =? 45)%N then (true, r) else (false, t) | [] => (false, []) end in (neg, r ++ rest)).
  { destruct t as [|u t]; [done |]. cbn [Datatypes.app]. by destruct (u =? 45)%N. }
  rewrite Hsign. clear Hsign. destruct (match t with u :: r => if (u =? 45)%N then (true, r) else (false, t) | [] => (false, []) end) as [neg r].
  destruct (digits_before r rest Hr) as [-> ->].
  assert (Hfrac : ∀ r1 : list N, match r1 ++ rest with
      | u :: t => if (u =? 46)%N then (46%N :: take_while is_digit t, drop_while is_digit t) else ([], r1 ++ rest) | [] => ([], []) end
    = let '(f, r2) := match r1 with u :: t => if (u =? 46)%N then (46%N :: take_while is_digit t, drop_while is_digit t) else ([], r1) | [] => ([], []) end in
      (f, r2 ++ rest)).
  { intros [|u r1]; cbn [Datatypes.app]; [by apply ended_cases in Hr as [-> | (u & r' & -> & [-> | [-> | ->]])] |].
    destruct (u =? 46)%N; [| done]. by destruct (digits_before r1 rest Hr) as [-> ->]. }
  rewrite Hfrac. clear Hfrac.
  destruct (match drop_while is_digit r with u :: t => if (u =? 46)%N then (46%N :: take_while is_digit t, drop_while is_digit t) else ([], drop_while is_digit r) | [] => ([], []) end) as [frac r2].
  assert (Hsg : ∀ t, match t ++ rest with 43%N :: t' => ([43%N], t') | 45%N :: t' => ([45%N], t') | _ => ([], t ++ rest) end
    = let '(sg, t') := match t with 43%N :: t' => ([43%N], t') | 45%N :: t' => ([45%N], t') | _ => ([], t) end in (sg, t' ++ rest)).
  { intros [|u t']; cbn [Datatypes.app]; [by apply ended_cases in Hr as [-> | (u & r' & -> & [-> | [-> | ->]])] |].
    destruct u as [|u]; [done |]. repeat (destruct u as [u|u|]; try done). }
  destruct r2 as [|e r2]; cbn [Datatypes.app].
  - destruct rest as [|u rest']; [rewrite <- H; break_goal; congruence |].
    assert (He : ((u =? 101) || (u =? 69))%N = false) by (apply ended_cases in Hr as [? | (u' & r' & [= -> ->] & [-> | [-> | ->]])]; done).
    rewrite He. break_in H; congruence.
  - destruct ((e =? 101) || (e =? 69))%N; [| break_in H; done]. rewrite Hsg. clear Hsg.
    destruct (match r2 with 43%N :: t' => ([43%N], t') | 45%N :: t' => ([45%N], t') | _ => ([], r2) end) as [sg t'].
    destruct (digits_before t' rest Hr) as [-> ->].
    destruct (take_while is_digit r); [done |]. destruct (_ && negb _); [done |]. destruct (bool_decide _); [done |].
    destruct (parse_decimal _); [| done]. injection H as <- ->. done.
Qed.
Definition reads_backb (n : num) : bool :=
  is_finite n && bool_decide (json_number (units (num_str n)) = Some (n, []))
  && match units (num_str n) with c :: _ => is_digit c || (c =? 45)%N | [] => false end.
Lemma reads_backb_sound n : reads_backb n = true → reads_back n.
Proof.
  unfold reads_backb. intros H. des. destruct (units (num_str n)) as [|c r] eqn:E; [done |]. split; [done |]. rewrite E. split; [| by intros; apply json_number_ended].
  exists c, r. split; [done |]. rewrite orb_true_iff, N.eqb_eq in *. done.
Qed.
Fixpoint plainb (v : jsval) : bool :=
  match v with
  | JUndef => false
  | JNull | JBool _ => true
  | JNum n => reads_backb n
  | JStr s => forallb (λ u, bool_decide (is_unit u)) (units s)
  | JArr l => forallb plainb l
  | JObj fs =>
    bool_decide (NoDup (map fst fs)) && forallb (λ p, forallb (λ u, bool_decide (is_unit u)) (units p.1)) fs && forallb (λ p, plainb p.2) fs
  end.
Lemma units_bounded l : forallb (λ u, bool_decide (is_unit u)) l = true → Forall is_unit l.
Proof. rewrite forallb_true, Forall_forall. intros H x Hx%H. by apply (bool_decide_eq_true_1 _). Qed.
Lemma plainb_sound v : plainb v = true → plain v.
Proof.
  induction v as [| |b|n|s|l Hl|fs Hfs] using jsval_nested_ind; try done.
  - apply reads_backb_sound.
  - apply units_bounded.
  - intros H. apply plain_arr. cbn [plainb] in H. rewrite Forall_forall in *. rewrite forallb_true in H. auto.
  - intros H. apply plain_obj. cbn [plainb] in H. des. split; [done |]. rewrite !forallb_true in *. rewrite Forall_forall in *.
    intros p Hp. split; [apply units_bounded |]; auto.
Qed.

(** ** JSON texts as bytes *)

Definition ascii (l : list N) : Prop := Forall (λ u, (u < 128)%N) l.
Lemma dec_digits_ascii k n : ascii (dec_digits k n).
Proof.
  revert n. induction k as [|k IH]; intros n; cbn [dec_digits]; [constructor |]. destruct (n <? 10) eqn:E.
  - constructor; [zlia | constructor].
  - apply Forall_app. split; [apply IH |]. constructor; [| constructor]. pose proof (Z.mod_pos_bound n 10). lia.
Qed.
Lemma dec_nat_below128 n : ascii (dec_nat n).
Proof. apply dec_digits_ascii. Qed.
Lemma pos_str_ascii a : ascii (pos_str a).
Proof.
  unfold pos_str. destruct (shortest _ _ _ _) as [s0 k]. destruct (if s0 =? 10 ^ k then _ else _) as [s n].
  pose proof (dec_nat_below128 s) as Hs. unfold ascii, zeros in *.
  assert (H45 : ∀ (b : bool), Forall (λ u, (u < 128)%N) (if b then [45%N] else [43%N])) by (intros []; repeat constructor).
  repeat case_match; repeat (apply Forall_app_2 || apply Forall_take || apply Forall_drop || (apply Forall_replicate; lia) || apply dec_nat_below128 || done
    || (apply Forall_cons_2; [lia |]) || constructor).
Qed.
Lemma num_str_ascii n : ascii (units (num_str n)).
Proof.
  unfold num_str, dec_Z. repeat case_match; cbn [units]; repeat (apply Forall_cons_2; [lia |]); first [apply pos_str_ascii | apply dec_nat_below128 | repeat constructor].
Qed.

(** A text the encoder keeps. *)
Definition text_ok (l : list N) : Prop := paired l = true ∧ Forall is_unit l.
Lemma text_ok_app a b : text_ok a → text_ok b → text_ok (a ++ b).
Proof. intros [H1 H2] [H3 H4]. split; [by apply paired_app | by apply Forall_app]. Qed.
Lemma text_ok_ascii l : ascii l → text_ok l.
Proof.
  intros Hl. split; [| eapply Forall_impl; [exact Hl |]; intros u Hu; cbn beta in *; unfold is_unit; lia]. apply paired_plain, forallb_true.
  unfold ascii in Hl. rewrite Forall_forall in Hl. intros u Hu%Hl. cbn beta in *. apply negb_true_iff, orb_false_iff. unfold is_high, is_low. split; apply andb_false_iff; left; apply N.leb_gt; lia.
Qed.
Lemma text_ok_cons u l : (u < 128)%N → text_ok l → text_ok (u :: l).
Proof. intros Hu Hl. apply (text_ok_app [u] l); [apply text_ok_ascii; by constructor | done]. Qed.
Lemma text_ok_commas ls : Forall text_ok ls → text_ok (commas ls).
Proof.
  induction 1 as [|x ls Hx Hls IH]; [done |]. destruct ls as [|y ls]; [done |]. rewrite commas_cons.
  apply text_ok_app; [done |]. by apply text_ok_cons.
Qed.
Lemma hex4_ascii u : is_unit u → ascii (hex4 u).
Proof.
  intros Hu. unfold hex4, ascii. apply Forall_map, Forall_forall. intros k _. cbn beta. set (d := Z.land _ _).
  assert (0 ≤ d < 16) by (subst d; change 15 with (Z.ones 4); rewrite Z.land_ones by lia; apply Z.mod_pos_bound; lia).
  unfold hex_digit. destruct (d <? 10); lia.
Qed.
Lemma quote_unit_ok u : is_unit u → is_high u || is_low u = false → text_ok (quote_unit u).
Proof.
  intros Hu Hs. unfold quote_unit. repeat case_match; try (apply text_ok_ascii; by repeat constructor).
  - apply text_ok_ascii, Forall_app_2; [repeat constructor | by apply hex4_ascii].
  - split; [cbn; by rewrite Hs | by apply Forall_singleton].
Qed.
Lemma quote_units_ok l : Forall is_unit l → text_ok (quote_units l).
Proof.
  assert (Hlone : ∀ u, is_unit u → text_ok (if is_high u || is_low u then [92; 117]%N ++ hex4 u else quote_unit u)).
  { intros u Hu. destruct (_ || _) eqn:E; [| by apply quote_unit_ok]. apply text_ok_ascii, Forall_app_2; [repeat constructor | by apply hex4_ascii]. }
  revert l. apply (list_pair_ind (λ l, Forall is_unit l → text_ok (quote_units l))); [done | |].
  - intros u Hu. apply Forall_cons in Hu as [Hu _]. cbn [quote_units]. by apply Hlone.
  - intros u v r IH1 IH2 Hl. apply Forall_cons in Hl as [Hu Hl]. change (quote_units (u :: v :: r)) with
      (if is_high u && is_low v then u :: v :: quote_units r else (if is_high u || is_low u then [92; 117]%N ++ hex4 u else quote_unit u) ++ quote_units (v :: r)).
    destruct (is_high u && is_low v) eqn:E; [| apply text_ok_app; [by apply Hlone | by apply IH2]].
    apply Forall_cons in Hl as [Hv Hl]. apply (text_ok_app [u; v]); [| by apply IH1]. split; [cbn; by rewrite E | by repeat constructor].
Qed.
Lemma quote_ok s : Forall is_unit (units s) → text_ok (units (quote s)).
Proof. intros Hs. unfold quote. cbn [units Datatypes.app]. apply text_ok_cons; [lia |]. apply text_ok_app; [by apply quote_units_ok | by apply text_ok_ascii; repeat constructor]. Qed.
Lemma plain_text_ok v : plain v → text_ok (text v).
Proof.
  induction v as [| |b|n|s|l Hl|fs Hfs] using jsval_nested_ind; intros Hv.
  - done.
  - apply text_ok_ascii. repeat constructor.
  - destruct b; apply text_ok_ascii; repeat constructor.
  - apply text_ok_ascii. destruct Hv as (Hf & _). unfold text, json. cbn [stringify]. rewrite Hf. apply num_str_ascii.
  - by apply quote_ok.
  - apply plain_arr in Hv. rewrite text_arr by done. apply text_ok_cons; [lia |]. apply text_ok_app; [| apply text_ok_ascii; repeat constructor].
    apply text_ok_commas, Forall_map. rewrite Forall_forall in *. auto.
  - apply plain_obj in Hv as [_ Hv]. rewrite text_obj by done. apply text_ok_cons; [lia |]. apply text_ok_app; [| apply text_ok_ascii; repeat constructor].
    apply text_ok_commas, Forall_map. rewrite Forall_forall in *. intros p Hp. destruct (Hv p Hp) as [Hk Hpv]. unfold member_text.
    apply text_ok_app; [by apply quote_ok |]. apply text_ok_cons; [lia |]. by apply Hfs.
Qed.
Lemma json_text_ok v : v ≠ JUndef → plain (strip v) → text_ok (units (json v)).
Proof.
  intros Hv Hp. assert (Hj : units (json v) = text (strip v)) by (unfold text, json; rewrite stringify_strip; by destruct (stringify_some v Hv) as [t ->]).
  rewrite Hj. by apply plain_text_ok.
Qed.
(** [JSON.parse(new TextDecoder().decode(new TextEncoder().encode(JSON.stringify(v))))] *)
Lemma json_bytes_roundtrip v : v ≠ JUndef → plain (strip v) → json_parse (utf8_decode (utf8 (json v))) = Some (strip v).
Proof.
  intros Hv Hp. assert (Hj : units (json v) = text (strip v)).
  { unfold text, json. rewrite stringify_strip. cbn [default from_option]. unfold id. by destruct (stringify_some v Hv) as [t ->]. }
  rewrite <- (json_roundtrip_strip v Hv Hp). f_equal. destruct (plain_text_ok _ Hp) as [H1 H2]. destruct (json v) as [l] eqn:E. cbn [units] in Hj. subst l.
  apply utf8_decode_utf8; [done | done |]. destruct (text_head _ Hp) as (c & r & Ht & Ht2). rewrite Ht.
  intros [= ->]. by destruct Ht2 as (_ & _ & _ & ?).
Qed.
