(* ===== verification/Effects.v ===== *)
(** * Asynchronous handlers

    A request handler is a program over the calls it awaits (storage, other
    services), the state its isolate shares between requests, the clock, the headers
    of its response and the tasks it leaves in the background.  Between two awaited
    calls it runs without interruption; during one, other requests may change the
    shared state.  A program is run against an environment, or judged for every
    environment by its weakest precondition. *)

From S2P Require Import Prelude JsStr JsNum JsVal.
#[local] Open Scope Z_scope.

Section Programs.
Context (call : Type) (ans : call → Type) (state task : Type).

(** An awaited call answers or rejects; [Local] updates the shared state and hands
    over what it was. *)
Inductive prog (A : Type) :=
| Ret (a : A)
| Throw (e : jstr)
| Act (c : call) (k : result jstr (ans c) → prog A)
| Yield (k : prog A)
| Local (u : state → state) (k : state → prog A)
| Clock (k : Z → prog A)
| Header (h : jstr * jstr) (k : prog A)
| Spawn (t : task) (k : prog A).
#[global] Arguments Ret {A}. #[global] Arguments Throw {A}. #[global] Arguments Act {A}. #[global] Arguments Yield {A}.
#[global] Arguments Local {A}. #[global] Arguments Clock {A}. #[global] Arguments Header {A}. #[global] Arguments Spawn {A}.

Section Sequence.
Context {A B : Type}.
Fixpoint bind (p : prog A) (f : A → prog B) : prog B :=
  match p with
  | Ret a => f a
  | Throw e => Throw e
  | Act c k => Act c (λ x, bind (k x) f)
  | Yield k => Yield (bind k f)
  | Local u k => Local u (λ s, bind (k s) f)
  | Clock k => Clock (λ t, bind (k t) f)
  | Header h k => Header h (bind k f)
  | Spawn t k => Spawn t (bind k f)
  end.
End Sequence.
(** [try { p } catch (e) { h }] *)
Fixpoint catch {A} (p : prog A) (h : jstr → prog A) : prog A :=
  match p with
  | Ret a => Ret a
  | Throw e => h e
  | Act c k => Act c (λ x, catch (k x) h)
  | Yield k => Yield (catch k h)
  | Local u k => Local u (λ s, catch (k s) h)
  | Clock k => Clock (λ t, catch (k t) h)
  | Header x k => Header x (catch k h)
  | Spawn t k => Spawn t (catch k h)
  end.
(** [await call], and with its rejection as a value. *)
Definition act (c : call) : prog (ans c) := Act c (λ x, match x with Ok a => Ret a | Err e => Throw e end).
Definition attempt_act (c : call) : prog (result jstr (ans c)) := Act c Ret.
Definition clock : prog Z := Clock Ret.
Definition get : prog state := Local id Ret.
Definition modify (u : state → state) : prog state := Local u Ret.
Definition header (k v : jstr) : prog unit := Header (k, v) (Ret tt).
Definition spawn (t : task) : prog unit := Spawn t (Ret tt).

(** ** Running a program *)

Definition event : Type := {c : call & result jstr (ans c)}.
(** Answers, time and what the others do to the state, by the number of the step. *)
Record env := { e_answer : nat → ∀ c, result jstr (ans c); e_clock : nat → Z; e_others : nat → state → state }.
Record run (A : Type) := {
  r_value : result jstr A; r_state : state; r_log : list event; r_headers : list (jstr * jstr); r_tasks : list task; r_steps : nat;
}.
#[global] Arguments r_value {A}. #[global] Arguments r_state {A}. #[global] Arguments r_log {A}. #[global] Arguments r_headers {A}.
#[global] Arguments r_tasks {A}. #[global] Arguments r_steps {A}.
Definition add_event {A} (ev : event) (r : run A) : run A :=
  {| r_value := r_value r; r_state := r_state r; r_log := ev :: r_log r; r_headers := r_headers r; r_tasks := r_tasks r; r_steps := r_steps r |}.
Definition add_header {A} (h : jstr * jstr) (r : run A) : run A :=
  {| r_value := r_value r; r_state := r_state r; r_log := r_log r; r_headers := h :: r_headers r; r_tasks := r_tasks r; r_steps := r_steps r |}.
Definition add_task {A} (t : task) (r : run A) : run A :=
  {| r_value := r_value r; r_state := r_state r; r_log := r_log r; r_headers := r_headers r; r_tasks := t :: r_tasks r; r_steps := r_steps r |}.
Definition stop {A} (v : result jstr A) (s : state) (n : nat) : run A :=
  {| r_value := v; r_state := s; r_log := []; r_headers := []; r_tasks := []; r_steps := n |}.
Fixpoint exec {A} (e : env) (n : nat) (s : state) (p : prog A) : run A :=
  match p with
  | Ret a => stop (Ok a) s n
  | Throw x => stop (Err x) s n
  | Act c k => let x := e_answer e n c in add_event (existT c x) (exec e (S n) (e_others e n s) (k x))
  | Yield k => exec e (S n) (e_others e n s) k
  | Local u k => exec e n (u s) (k s)
  | Clock k => exec e (S n) s (k (e_clock e n))
  | Header h k => add_header h (exec e n s k)
  | Spawn t k => add_task t (exec e n s k)
  end.

Lemma exec_bind {A B} e n s (p : prog A) (f : A → prog B) :
  r_value (exec e n s (bind p f))
  = match r_value (exec e n s p) with
    | Ok a => r_value (exec e (r_steps (exec e n s p)) (r_state (exec e n s p)) (f a))
    | Err x => Err x
    end.
Proof.
  revert n s. induction p as [a|x|c k IH|k IH|u k IH|k IH|hd k IH|t k IH]; intros n s; cbn [exec bind]; try done; try apply IH.
Qed.

Lemma exec_bind_log {A B} e n s (p : prog A) (f : A → prog B) :
  r_log (exec e n s (bind p f))
  = r_log (exec e n s p) ++ match r_value (exec e n s p) with
                            | Ok a => r_log (exec e (r_steps (exec e n s p)) (r_state (exec e n s p)) (f a))
                            | Err _ => []
                            end.
Proof.
  revert n s. induction p as [a|x|c k IH|k IH|u k IH|k IH|hd k IH|t k IH]; intros n s; cbn [exec bind]; try done; try apply IH.
  cbn [r_log add_event Datatypes.app]. f_equal. apply IH.
Qed.
Lemma exec_bind_headers {A B} e n s (p : prog A) (f : A → prog B) :
  r_headers (exec e n s (bind p f))
  = r_headers (exec e n s p) ++ match r_value (exec e n s p) with
                                | Ok a => r_headers (exec e (r_steps (exec e n s p)) (r_state (exec e n s p)) (f a))
                                | Err _ => []
                                end.
Proof.
  revert n s. induction p as [a|x|c k IH|k IH|u k IH|k IH|hd k IH|t k IH]; intros n s; cbn [exec bind]; try done; try apply IH.
  cbn [r_headers add_header Datatypes.app]. f_equal. apply IH.
Qed.

(** The answers of a run are the environment's, at increasing steps. *)
Lemma exec_log_steps {A} e n s (p : prog A) :
  ∃ l : list (nat * call), r_log (exec e n s p) = map (λ x, existT x.2 (e_answer e x.1 x.2)) l
    ∧ StronglySorted lt (map fst l) ∧ Forall (λ x, (n ≤ x.1)%nat) l.
Proof.
  revert n s. induction p as [a|x|c k IH|k IH|u k IH|k IH|hd k IH|t k IH]; intros n s; cbn [exec].
  1,2: exists []; split_and!; [done | constructor | done].
  - destruct (IH (e_answer e n c) (S n) (e_others e n s)) as (l & Hl & Hs & Hn). exists ((n, c) :: l). cbn [r_log add_event map fst snd]. rewrite Hl.
    assert (Hlt : Forall (λ x, (n < x.1)%nat) l) by (eapply Forall_impl; [exact Hn | cbn; lia]).
    split_and!; [done | |].
    + constructor; [done |]. rewrite Forall_map. exact Hlt.
    + apply Forall_cons. split; [cbn; lia |]. eapply Forall_impl; [exact Hlt | cbn; lia].
  - destruct (IH (S n) (e_others e n s)) as (l & Hl & Hs & Hn). exists l. split_and!; [done | done |]. eapply Forall_impl; [exact Hn | cbn; lia].
  - apply IH.
  - destruct (IH (e_clock e n) (S n) s) as (l & Hl & Hs & Hn). exists l. split_and!; [done | done |]. eapply Forall_impl; [exact Hn | cbn; lia].
  - apply IH.
  - apply IH.
Qed.
Lemma exec_log_order {A} e n s (p : prog A) before ev1 mid ev2 after :
  r_log (exec e n s p) = before ++ ev1 :: mid ++ ev2 :: after →
  ∃ i j, (i < j)%nat ∧ projT2 ev1 = e_answer e i (projT1 ev1) ∧ projT2 ev2 = e_answer e j (projT1 ev2).
Proof.
  destruct (exec_log_steps e n s p) as (l & -> & Hs & _). intros H.
  apply map_eq_app in H as (l1 & l2 & -> & <- & H). apply map_eq_cons in H as (x & l3 & -> & <- & H).
  apply map_eq_app in H as (l4 & l5 & -> & <- & H). apply map_eq_cons in H as (y & l6 & -> & <- & H).
  exists x.1, y.1. split_and!; [| done | done]. rewrite map_app in Hs. cbn [map] in Hs. rewrite map_app in Hs. cbn [map] in Hs.
  apply StronglySorted_app_1_r in Hs. inversion Hs as [|? ? _ Hall]; subst. rewrite Forall_forall in Hall. apply Hall, elem_of_app. right. list_elem.
Qed.

(** ** Every run of a program *)

(** [Q] holds of what was called, what was handed to the background and the value,
    whatever the environment; [Inv] holds of the state whenever the program gives it
    up, if others keep it. *)
Context (Inv : state → Prop).
Definition post (A : Type) : Type := list event → list task → result jstr A → Prop.
Fixpoint wp {A} (p : prog A) (h : list event) (b : list task) (Q : post A) : Prop :=
  match p with
  | Ret a => Q h b (Ok a)
  | Throw x => Q h b (Err x)
  | Act c k => ∀ x, wp (k x) (h ++ [existT c x]) b Q
  | Yield k => wp k h b Q
  | Local u k => ∀ s, Inv s → Inv (u s) ∧ wp (k s) h b Q
  | Clock k => ∀ t, wp (k t) h b Q
  | Header _ k => wp k h b Q
  | Spawn t k => wp k h (b ++ [t]) Q
  end.
Lemma wp_sound {A} (p : prog A) h b Q e n s :
  Inv s → (∀ i s, Inv s → Inv (e_others e i s)) → wp p h b Q →
  let r := exec e n s p in Q (h ++ r_log r) (b ++ r_tasks r) (r_value r) ∧ Inv (r_state r).
Proof.
  intros Hs He. revert h b n s Hs. induction p as [a|x|c k IH|k IH|u k IH|k IH|hd k IH|t k IH]; intros h b n s Hs Hp; cbn [wp exec] in *.
  - cbn. by rewrite !app_nil_r.
  - cbn. by rewrite !app_nil_r.
  - cbn [r_log r_value r_state r_tasks add_event]. destruct (IH (e_answer e n c) (h ++ [existT c (e_answer e n c)]) b (S n) _ (He n s Hs) (Hp _)) as [H1 H2].
    by rewrite <- (assoc_L (++)) in H1.
  - apply IH; auto.
  - destruct (Hp s Hs) as [H1 H2]. by apply IH.
  - by apply IH.
  - by apply IH.
  - cbn [r_log r_value r_state r_tasks add_task]. destruct (IH h (b ++ [t]) n s Hs Hp) as [H1 H2]. by rewrite <- (assoc_L (++)) in H1.
Qed.
Lemma wp_mono {A} (p : prog A) h b (Q R : post A) : (∀ h b r, Q h b r → R h b r) → wp p h b Q → wp p h b R.
Proof.
  intros HQR. revert h b. induction p as [a|x|c k IH|k IH|u k IH|k IH|hd k IH|t k IH]; intros h b; cbn [wp]; auto.
  intros H s Hs. destruct (H s Hs). auto.
Qed.
Lemma wp_bind {A B} (p : prog A) (f : A → prog B) h b Q :
  wp p h b (λ h b r, match r with Ok a => wp (f a) h b Q | Err e => Q h b (Err e) end) → wp (bind p f) h b Q.
Proof.
  revert h b. induction p as [a|x|c k IH|k IH|u k IH|k IH|hd k IH|t k IH]; intros h b; cbn [wp bind]; auto.
  intros H s Hs. destruct (H s Hs). auto.
Qed.
Lemma wp_catch {A} (p : prog A) (g : jstr → prog A) h b Q :
  wp p h b (λ h b r, match r with Ok a => Q h b (Ok a) | Err e => wp (g e) h b Q end) → wp (catch p g) h b Q.
Proof.
  revert h b. induction p as [a|x|c k IH|k IH|u k IH|k IH|hd k IH|t k IH]; intros h b; cbn [wp catch]; auto.
  intros H s Hs. destruct (H s Hs). auto.
Qed.
Lemma wp_act c h b Q :
  (∀ a, Q (h ++ [existT c (Ok a)]) b (Ok a)) → (∀ e, Q (h ++ [existT c (Err e)]) b (Err e)) → wp (act c) h b Q.
Proof. intros H1 H2. cbn [wp act]. intros [a|e]; cbn [wp]; auto. Qed.

(** ** What a program may do at all

    Every call it issues satisfies [P], every task it leaves [T], and it keeps [Inv]. *)
Context (P : call → Prop) (T : task → Prop).
Fixpoint obeys {A} (p : prog A) : Prop :=
  match p with
  | Ret _ | Throw _ => True
  | Act c k => P c ∧ ∀ x, obeys (k x)
  | Yield k | Header _ k => obeys k
  | Local u k => ∀ s, Inv s → Inv (u s) ∧ obeys (k s)
  | Clock k => ∀ t, obeys (k t)
  | Spawn t k => T t ∧ obeys k
  end.
Lemma obeys_bind {A B} (p : prog A) (f : A → prog B) : obeys p → (∀ a, obeys (f a)) → obeys (bind p f).
Proof.
  intros Hp Hf. induction p as [a|x|c k IH|k IH|u k IH|k IH|hd k IH|t k IH]; cbn [obeys bind] in *; naive_solver.
Qed.
Lemma obeys_catch {A} (p : prog A) (g : jstr → prog A) : obeys p → (∀ e, obeys (g e)) → obeys (catch p g).
Proof.
  intros Hp Hg. induction p as [a|x|c k IH|k IH|u k IH|k IH|hd k IH|t k IH]; cbn [obeys catch] in *; naive_solver.
Qed.
Lemma obeys_act c : P c → obeys (act c).
Proof. intros Hc. split; [done | by intros []]. Qed.
Lemma obeys_wp {A} (p : prog A) h b (Q : post A) :
  obeys p → (∀ l t r, Forall (λ ev, P (projT1 ev)) l → Forall T t → Q (h ++ l) (b ++ t) r) → wp p h b Q.
Proof.
  revert h b. induction p as [a|x|c k IH|k IH|u k IH|k IH|hd k IH|t k IH]; intros h b Hp HQ; cbn [obeys wp] in *.
  - generalize (HQ [] [] (Ok a) (Forall_nil_2 _) (Forall_nil_2 _)). by rewrite !app_nil_r.
  - generalize (HQ [] [] (Err x) (Forall_nil_2 _) (Forall_nil_2 _)). by rewrite !app_nil_r.
  - destruct Hp as [Hc Hp]. intros x. apply IH; [done |]. intros l t r Hl Ht. rewrite <- (assoc_L (++)). apply HQ; [| done].
    by apply Forall_cons.
  - by apply IH.
  - intros s Hs. destruct (Hp s Hs) as [H1 H2]. split; [done |]. by apply IH.
  - intros t. by apply IH.
  - by apply IH.
  - destruct Hp as [Hc Hp]. apply IH; [done |]. intros l t' r Hl Ht. rewrite <- (assoc_L (++)). apply HQ; [done |].
    by apply Forall_cons.
Qed.

(** ** Programs side by side

    Requests in progress, background tasks and whatever else an isolate runs: one of
    them takes a step at a time, and programs [starts] allows may begin at any moment.
    Any answer may come; a task becomes a program of its own. *)
Context (run_task : task → prog unit) (starts : prog unit → Prop).
Inductive advance : state → prog unit → state → prog unit → list (prog unit) → Prop :=
| adv_act s c k x : advance s (Act c k) s (k x) []
| adv_yield s k : advance s (Yield k) s k []
| adv_local s u k : advance s (Local u k) (u s) (k s) []
| adv_clock s k t : advance s (Clock k) s (k t) []
| adv_header s h k : advance s (Header h k) s k []
| adv_spawn s t k : advance s (Spawn t k) s k [run_task t].
Inductive pool_step : state * list (prog unit) → state * list (prog unit) → Prop :=
| pool_start s l p : starts p → pool_step (s, l) (s, p :: l)
| pool_run s l1 p l2 s' p' new : advance s p s' p' new → pool_step (s, l1 ++ p :: l2) (s', l1 ++ p' :: l2 ++ new).
Lemma pool_invariant s l s' l' :
  (∀ p, starts p → obeys p) → (∀ t, T t → obeys (run_task t)) → Inv s → Forall obeys l →
  rtc pool_step (s, l) (s', l') → Inv s' ∧ Forall obeys l'.
Proof.
  intros Hstart Htask Hs Hl H. remember (s, l) as x eqn:Ex. remember (s', l') as y eqn:Ey.
  revert s l Ex Hs Hl. induction H as [?|x z y Hstep _ IH]; intros s l -> Hs Hl; simplify_eq; [done |].
  inversion Hstep as [s0 l0 p Hp|s0 l1 p l2 s1 p' new Hadv]; subst; [eapply IH; [done | done | done | constructor; auto] |].
  apply Forall_app in Hl as [H1 H2]. apply Forall_cons in H2 as [Hp H2].
  assert (Inv s1 ∧ obeys p' ∧ Forall obeys new) as (? & ? & ?).
  { destruct Hadv; cbn [obeys] in Hp; des; naive_solver. }
  eapply IH; [done | done | done |]. apply Forall_app. split; [done |]. constructor; [done |]. by apply Forall_app.
Qed.
(** A program that runs alone takes the steps of its execution. *)
Lemma pool_exec (p : prog unit) e n s l :
  (∀ i s, e_others e i s = s) → ∃ l', rtc pool_step (s, p :: l) (r_state (exec e n s p), l').
Proof.
  intros He. revert n s l. induction p as [a|x|c k IH|k IH|u k IH|k IH|hd k IH|t k IH]; intros n s l; cbn [exec];
    try (by exists (Ret a :: l)); try (by exists (Throw x :: l)).
  - cbn [r_state add_event]. rewrite He. destruct (IH (e_answer e n c) (S n) s l) as [l' H]. exists l'.
    eapply rtc_l; [| exact H]. generalize (pool_run s [] _ l _ _ _ (adv_act s c k (e_answer e n c))). by rewrite app_nil_r.
  - rewrite He. destruct (IH (S n) s l) as [l' H]. exists l'.
    eapply rtc_l; [| exact H]. generalize (pool_run s [] _ l _ _ _ (adv_yield s k)). by rewrite app_nil_r.
  - destruct (IH s n (u s) l) as [l' H]. exists l'.
    eapply rtc_l; [| exact H]. generalize (pool_run s [] _ l _ _ _ (adv_local s u k)). by rewrite app_nil_r.
  - destruct (IH (e_clock e n) (S n) s l) as [l' H]. exists l'.
    eapply rtc_l; [| exact H]. generalize (pool_run s [] _ l _ _ _ (adv_clock s k (e_clock e n))). by rewrite app_nil_r.
  - cbn [r_state add_header]. destruct (IH n s l) as [l' H]. exists l'.
    eapply rtc_l; [| exact H]. generalize (pool_run s [] _ l _ _ _ (adv_header s hd k)). by rewrite app_nil_r.
  - cbn [r_state add_task]. destruct (IH n s (l ++ [run_task t])) as [l' H]. exists l'.
    eapply rtc_l; [| exact H]. apply (pool_run s [] _ l _ _ _ (adv_spawn s t k)).
Qed.
End Programs.
Lemma obeys_mono {call : Type} {ans : call → Type} {state task A : Type} (Inv : state → Prop) (P P' : call → Prop) (T T' : task → Prop)
    (p : prog call ans state task A) :
  (∀ c, P c → P' c) → (∀ t, T t → T' t) → obeys call ans state task Inv P T p → obeys call ans state task Inv P' T' p.
Proof. intros HP HT. induction p as [a|x|c k IH|k IH|u k IH|k IH|hd k IH|t k IH]; cbn [obeys]; naive_solver. Qed.

#[global] Arguments Ret {call ans state task A}. #[global] Arguments Throw {call ans state task A}.
#[global] Arguments Act {call ans state task A}. #[global] Arguments Yield {call ans state task A}.
#[global] Arguments Local {call ans state task A}. #[global] Arguments Clock {call ans state task A}.
#[global] Arguments Header {call ans state task A}. #[global] Arguments Spawn {call ans state task A}.
#[global] Arguments bind {call ans state task A B}. #[global] Arguments catch {call ans state task A}.
#[global] Arguments act {call ans state task}. #[global] Arguments attempt_act {call ans state task}.
#[global] Arguments clock {call ans state task}. #[global] Arguments get {call ans state task}.
#[global] Arguments modify {call ans state task}. #[global] Arguments header {call ans state task}.
#[global] Arguments spawn {call ans state task}. #[global] Arguments exec {call ans state task A}.
#[global] Arguments stop {call ans state task A}. #[global] Arguments wp {call ans state task} Inv {A}.
#[global] Arguments advance {call ans state task}. #[global] Arguments pool_step {call ans state task}.
#[global] Arguments obeys {call ans state task} Inv P T {A}.
#[global] Arguments e_answer {call ans state}. #[global] Arguments e_clock {call ans state}. #[global] Arguments e_others {call ans state}.
#[global] Arguments r_value {call ans state task A}. #[global] Arguments r_state {call ans state task A}.
#[global] Arguments r_log {call ans state task A}. #[global] Arguments r_headers {call ans state task A}.
#[global] Arguments r_tasks {call ans state task A}. #[global] Arguments r_steps {call ans state task A}.

Section Headers.
Context {call : Type} {ans : call → Type} {state task : Type} (allowed : jstr * jstr → Prop).
(** Every header a program sets satisfies [allowed]. *)
Fixpoint announces {A} (p : prog call ans state task A) : Prop :=
  match p with
  | Ret _ | Throw _ => True
  | Act _ k => ∀ x, announces (k x)
  | Yield k | Spawn _ k => announces k
  | Local _ k => ∀ s, announces (k s)
  | Clock k => ∀ t, announces (k t)
  | Header h k => allowed h ∧ announces k
  end.
Lemma announces_bind {A B} (p : prog call ans state task A) (f : A → prog call ans state task B) : announces p → (∀ a, announces (f a)) → announces (bind p f).
Proof. intros Hp Hf. induction p as [a|x|c k IH|k IH|u k IH|k IH|hd k IH|t k IH]; cbn [announces bind] in *; naive_solver. Qed.
Lemma announces_catch {A} (p : prog call ans state task A) (g : jstr → prog call ans state task A) : announces p → (∀ e, announces (g e)) → announces (catch p g).
Proof. intros Hp Hf. induction p as [a|x|c k IH|k IH|u k IH|k IH|hd k IH|t k IH]; cbn [announces catch] in *; naive_solver. Qed.
Lemma announces_exec {A} (p : prog call ans state task A) e n s : announces p → Forall allowed (r_headers (exec e n s p)).
Proof.
  revert n s. induction p as [a|x|c k IH|k IH|u k IH|k IH|hd k IH|t k IH]; intros n s Hp; cbn [exec announces] in *; try (by apply Forall_nil_2);
    cbn [r_headers add_event add_header add_task]; auto. destruct Hp. apply Forall_cons. auto.
Qed.
End Headers.

Notation "'let!' x ':=' p 'in' k" := (bind p (λ x, k))
  (at level 10, x name, p at level 200, k at level 200) : cfvm_scope.
Notation "'do!' p 'in' k" := (bind p (λ _ : unit, k)) (at level 10, p at level 200, k at level 200) : cfvm_scope.
