(* ===== verification/AgentHttp.v ===== *)
(** * The agent's HTTP protocol: [worker/src/routes/client.ts]

    What the Worker answers an agent over HTTP: its authentication with the caches an
    isolate keeps, the rate limits, the reading of a body, and the handlers of reports,
    of basic information, of ping tasks and of ping results.  A handler is a program of
    [Effects] over the calls it awaits (the live object, the rate limiter, the database)
    and the state of the module; the bindings, the request, SHA-256 and the URL parser are
    parameters. *)

From S2P Require Import Prelude JsStr JsNum JsVal JsList JsBytes JsDate Webhook Net PingTask Settings Report Client LivePersist Effects.
#[local] Open Scope Z_scope.

(** @worker/src/routes/client.ts:29-50 HTTP_LIVE_TTL_FALLBACK_MS (constants) *)
Definition HTTP_LIVE_TTL_FALLBACK_MS : Z := 180000.
Definition HTTP_LIVE_TTL_MAX_MS : Z := 24 * 60 * 60 * 1000.
Definition AGENT_AUTH_CACHE_MS : Z := 120000.
Definition AGENT_AUTH_NEGATIVE_CACHE_MS : Z := 10000.
Definition AGENT_AUTH_CACHE_MAX_ENTRIES : nat := 512.
Definition AGENT_TOKEN_USAGE_CACHE_MS : Z := 15 * 60000.
Definition AGENT_PING_TASK_CACHE_MS : Z := 120000.
Definition AGENT_PING_TASK_EMPTY_POLL_SEC : Z := 3600.
Definition AGENT_PING_TASK_MAX_POLL_SEC : Z := 3600.
Definition AGENT_PING_TASK_MIN_POLL_SEC : Z := 60.
Definition AGENT_PING_TASK_DEFAULT_INTERVAL_SEC : Z := 120.
Definition AGENT_PING_INTERVAL_SETTING_CACHE_MS : Z := 120000.
Definition AGENT_BASIC_INFO_MAX_BODY_BYTES : Z := 64 * 1024.
Definition AGENT_REPORT_MAX_BODY_BYTES : Z := 512 * 1024.
Definition AGENT_PING_RESULT_MAX_BODY_BYTES : Z := 64 * 1024.
Definition AGENT_REPORT_MAX_BATCH : nat := 300.
Definition AGENT_RATE_LIMIT_WINDOW_MS : Z := 60000.
Definition AGENT_AUTH_ATTEMPT_RATE_LIMIT_MAX : Z := 240.
Definition AGENT_AUTH_FAILURE_RATE_LIMIT_MAX : Z := 6.
Definition AGENT_BASIC_INFO_RATE_LIMIT_MAX : Z := 30.
Definition AGENT_REPORT_RATE_LIMIT_MAX : Z := 120.
Definition AGENT_PING_RESULT_RATE_LIMIT_MAX : Z := 180.
(** @worker/src/utils/notification-dispatch.ts:36-59 NOTIFICATION_DISPATCH_SETTING_KEYS *)
Definition NOTIFICATION_DISPATCH_SETTING_KEYS : list jstr :=
  ["notification_method"; "telegram_bot_token"; "telegram_chat_id"; "email_smtp_host"; "email_smtp_port"; "email_smtp_security";
   "email_smtp_username"; "email_smtp_password"; "email_smtp_from_address"; "email_smtp_from_name"; "email_smtp_recipients";
   "email_smtp_auth_method"; "webhook_url"; "webhook_format"; "webhook_secret"; "webhook_method"; "webhook_content_type";
   "webhook_headers_json"; "webhook_body_template"; "webhook_username"; "webhook_password"; "webhook_retry_count"].
(** @worker/src/routes/client.ts:51-61 IP_CHANGE_NOTIFICATION_SETTING_KEYS,
    AGENT_POLICY_SETTING_KEYS, AGENT_PING_INTERVAL_SETTING_KEYS *)
Definition IP_CHANGE_NOTIFICATION_SETTING_KEYS : list jstr := "enable_ip_change_notification" :: NOTIFICATION_DISPATCH_SETTING_KEYS.
Definition AGENT_POLICY_SETTING_KEYS : list jstr :=
  ["live_poll_active_interval_sec"; "live_poll_idle_interval_sec"; "live_poll_active_max_duration_sec"; "ping_record_persist_interval_sec"].
Definition AGENT_PING_INTERVAL_SETTING_KEYS : list jstr := ["ping_record_persist_interval_sec"].

(** ** What an isolate keeps, and what a request carries *)

(** @worker/src/db/types.ts:216-225 PingTask *)
Record PingTaskRow := {
  pt_id : option num; pt_name : jstr; pt_clients : list jstr; pt_all_clients : bool; pt_type : jstr; pt_target : jstr;
  pt_interval_sec : num; pt_sort_order : option num;
}.
(** A [Map] of [AgentAuthCacheEntry]: the identifying row or [null], and its end. *)
Abbreviation auth_cache := (list (jstr * (option fields * Z))).
(** @worker/src/routes/public.ts:181-188 invalidatePublicMetadataCache (state) *)
Record public_caches := {
  publicSettingsCache : option jsval; publicClientsSnapshotCache : option jsval; publicPingTasksCache : option jsval;
  publicMetadataResponseCache : fields; publicHistoryCache : fields; publicClientVisibilityCache : fields;
}.
(** @worker/src/routes/client.ts:67-72 agentAuthCache (module state) -- with the counter
    and the buckets of [websocket.ts], lines 38-39 *)
Record agent_state := {
  agentAuthCache : auth_cache; agentIdentityAuthCache : auth_cache;
  agentTokenUsageCache : list (jstr * (jstr * Z));
  agentPingTasksCache : option (list PingTaskRow * Z); agentPingIntervalCache : option (num * Z);
  localAgentRateLimitBuckets : list (jstr * (Z * Z));
  publicCaches : public_caches;
  localWsRateLimit : Z * list (jstr * (Z * Z * Z));
}.
Definition with_auth v st := {| agentAuthCache := v; agentIdentityAuthCache := agentIdentityAuthCache st; agentTokenUsageCache := agentTokenUsageCache st;
  agentPingTasksCache := agentPingTasksCache st; agentPingIntervalCache := agentPingIntervalCache st;
  localAgentRateLimitBuckets := localAgentRateLimitBuckets st; publicCaches := publicCaches st; localWsRateLimit := localWsRateLimit st |}.
Definition with_identity v st := {| agentAuthCache := agentAuthCache st; agentIdentityAuthCache := v; agentTokenUsageCache := agentTokenUsageCache st;
  agentPingTasksCache := agentPingTasksCache st; agentPingIntervalCache := agentPingIntervalCache st;
  localAgentRateLimitBuckets := localAgentRateLimitBuckets st; publicCaches := publicCaches st; localWsRateLimit := localWsRateLimit st |}.
Definition with_usage v st := {| agentAuthCache := agentAuthCache st; agentIdentityAuthCache := agentIdentityAuthCache st; agentTokenUsageCache := v;
  agentPingTasksCache := agentPingTasksCache st; agentPingIntervalCache := agentPingIntervalCache st;
  localAgentRateLimitBuckets := localAgentRateLimitBuckets st; publicCaches := publicCaches st; localWsRateLimit := localWsRateLimit st |}.
Definition with_pings tasks interval st := {| agentAuthCache := agentAuthCache st; agentIdentityAuthCache := agentIdentityAuthCache st;
  agentTokenUsageCache := agentTokenUsageCache st; agentPingTasksCache := tasks; agentPingIntervalCache := interval;
  localAgentRateLimitBuckets := localAgentRateLimitBuckets st; publicCaches := publicCaches st; localWsRateLimit := localWsRateLimit st |}.
Definition with_buckets v st := {| agentAuthCache := agentAuthCache st; agentIdentityAuthCache := agentIdentityAuthCache st;
  agentTokenUsageCache := agentTokenUsageCache st; agentPingTasksCache := agentPingTasksCache st; agentPingIntervalCache := agentPingIntervalCache st;
  localAgentRateLimitBuckets := v; publicCaches := publicCaches st; localWsRateLimit := localWsRateLimit st |}.
Definition with_public v st := {| agentAuthCache := agentAuthCache st; agentIdentityAuthCache := agentIdentityAuthCache st;
  agentTokenUsageCache := agentTokenUsageCache st; agentPingTasksCache := agentPingTasksCache st; agentPingIntervalCache := agentPingIntervalCache st;
  localAgentRateLimitBuckets := localAgentRateLimitBuckets st; publicCaches := v; localWsRateLimit := localWsRateLimit st |}.
Definition with_ws v st := {| agentAuthCache := agentAuthCache st; agentIdentityAuthCache := agentIdentityAuthCache st;
  agentTokenUsageCache := agentTokenUsageCache st; agentPingTasksCache := agentPingTasksCache st; agentPingIntervalCache := agentPingIntervalCache st;
  localAgentRateLimitBuckets := localAgentRateLimitBuckets st; publicCaches := publicCaches st; localWsRateLimit := v |}.

(** The bindings a handler touches: whether the two objects are bound, and what
    opening the database throws. *)
Record bindings := { LIVE_DATA : bool; RATE_LIMIT : bool; db_error : option jstr }.
(** A request: headers, [request.cf], the chunks of its body and, when reading fails,
    the error after them. *)
Record request := {
  rq_authorization : option jstr; rq_ip : option jstr; rq_length : option jstr; rq_ip_country : option jstr;
  rq_cf : option fields; rq_body : option (list (option (list Z)) * option jstr); rq_format : option jstr;
}.
Record response := { status : Z; content : jsval }.
(** What [fetch] of an object answers; [None] when its body is not JSON. *)
Record reply := { rp_status : Z; rp_json : option jsval }.
Definition rp_ok (r : reply) : bool := (200 <=? rp_status r) && (rp_status r <=? 299).

Inductive call :=
| LiveFetch (path : jstr) (body : jsval)
| RateFetch (object : jstr) (body : jsval)
| LiveUpgrade (params : list (jstr * jstr))
| LiveSnapshotRead (include_hidden : bool)
| HasAdminSession
| GetClientByToken (token : jstr)
| GetClientIdentityByToken (token : jstr)
| GetClient (uuid : jsval)
| MarkClientTokenUsed (uuid : jsval) (ip : jstr)
| UpdateClient (uuid : jsval) (data : fields)
| InsertAuditLog (user action detail level : jstr)
| ListPingTasks
| GetSettingsByKeys (keys : list jstr)
| ListAgentWebsiteProbeTasks (client : jsval) (now : jstr) (limit : Z)
| DispatchNotification (settings : list (jstr * jstr)) (notification : NotificationMessage)
| RecordHealth (component health : jstr) (error : jstr).
Definition ans (c : call) : Type :=
  match c with
  | LiveFetch _ _ | RateFetch _ _ | LiveUpgrade _ | LiveSnapshotRead _ => reply
  | GetClientByToken _ | GetClientIdentityByToken _ | GetClient _ => option fields
  | MarkClientTokenUsed _ _ | UpdateClient _ _ | HasAdminSession => bool
  | ListPingTasks => list PingTaskRow
  | GetSettingsByKeys _ => list (jstr * jstr)
  | ListAgentWebsiteProbeTasks _ _ _ => list jsval
  | InsertAuditLog _ _ _ _ | DispatchNotification _ _ | RecordHealth _ _ _ => unit
  end.
(** What a handler leaves in the background. *)
Inductive task :=
| TokenUsed (client : fields) (ip : jstr)
| SyncIps (req : request) (uuid name : jsval) (report : fields) (old : option fields)
| IpChange (name : jsval) (parts : list jstr)
| VersionChange (uuid : jsval) (version : jsval).
Abbreviation agent := (prog call ans agent_state task).
Definition await (c : call) : agent (ans c) := act c.
Definition settle (c : call) : agent (result jstr (ans c)) := attempt_act c.

(** [a === b] of values that are not the same object *)
Definition strict_eq (a b : jsval) : bool :=
  match a, b with
  | JUndef, JUndef | JNull, JNull => true
  | JBool x, JBool y => Bool.eqb x y
  | JNum x, JNum y => num_eqb x y
  | JStr x, JStr y => jeq x y
  | _, _ => false
  end.
(** [entry.value?.uuid === client.uuid] *)
Definition entry_of (uuid : jsval) (entry : jstr * (option fields * Z)) : bool :=
  strict_eq (match entry.2.1 with Some c => fld c "uuid" | None => JUndef end) uuid.
(** @worker/src/routes/client.ts:82-99 invalidateAgentClientAuthCache -- [None] without
    an argument; of a client, only its identifier is used *)
Definition invalidateAgentClientAuthCache (client : option jsval) (st : agent_state) : agent_state :=
  match client with
  | None => with_usage [] (with_identity [] (with_auth [] st))
  | Some uuid =>
    let keep := List.filter (λ e, negb (entry_of uuid e)) in
    with_identity (keep (agentIdentityAuthCache st)) (with_auth (keep (agentAuthCache st)) st)
  end.
(** @worker/src/routes/client.ts:129-132 invalidateAgentPingTaskCache *)
Definition invalidateAgentPingTaskCache (st : agent_state) : agent_state := with_pings None None st.
(** @worker/src/routes/public.ts:181-188 invalidatePublicMetadataCache *)
Definition invalidatePublicMetadataCache (st : agent_state) : agent_state :=
  with_public {| publicSettingsCache := None; publicClientsSnapshotCache := None; publicPingTasksCache := None;
                 publicMetadataResponseCache := []; publicHistoryCache := []; publicClientVisibilityCache := [] |} st.
(** [if (map.size >= max) map.delete(map.keys().next().value); map.set(key, value)] *)
Definition bounded_set {V} (max : nat) (key : jstr) (value : V) (m : list (jstr * V)) : list (jstr * V) :=
  set_field key value (if (max <=? length m)%nat then drop 1 m else m).
(** @worker/src/routes/client.ts:134-149 setAgentAuthCache *)
Definition setAgentAuthCache (cacheKey : jstr) (value : option fields) (ttlMs now : Z) (cache : auth_cache) : auth_cache :=
  bounded_set AGENT_AUTH_CACHE_MAX_ENTRIES cacheKey (value, now + ttlMs) cache.
(** @worker/src/routes/client.ts:151-153 stripCachedAgentToken *)
Definition stripCachedAgentToken (client : fields) : fields :=
  if truthy (fld client "token") then set_field "token" (JStr "") client else client.

(** ** Values of a row and of a body *)

Definition text_of (v : jsval) : jstr := match v with JStr s => s | _ => "" end.
(** [client?.[key]] *)
Definition fldo (client : option fields) (key : jstr) : jsval := match client with Some c => fld c key | None => JUndef end.
(** @worker/src/routes/client.ts:155-158 clientStringField *)
Definition clientStringField (source : fields) (key : jstr) : jstr := text_of (fld source key).
(** @worker/src/routes/client.ts:160-163 clientNullableStringField *)
Definition clientNullableStringField (source : fields) (key : jstr) : jsval :=
  match fld source key with JStr s => if nonempty (trim s) then JStr s else JNull | _ => JNull end.
(** @worker/src/routes/client.ts:165-168 clientNumberField *)
Definition clientNumberField (source : fields) (key : jstr) : num :=
  match fld source key with JNum n => if is_finite n then n else of_Z 0 | _ => of_Z 0 end.
(** @worker/src/routes/client.ts:170-179 clientBooleanField *)
Definition clientBooleanField (source : fields) (key : jstr) : bool :=
  match fld source key with
  | JBool b => b
  | JNum n => negb (num_eqb n (of_Z 0))
  | JStr s => let normalized := lower (trim s) in jeq normalized "true" || jeq normalized "1"
  | _ => false
  end.
(** @worker/src/routes/client.ts:499-501 isJsonObjectPayload *)
Definition isJsonObjectPayload (value : jsval) : option fields := match value with JObj fs => Some fs | _ => None end.
(** @worker/src/routes/client.ts:503-505 isJsonObjectArray *)
Definition isJsonObjectArray (value : jsval) : bool := match value with JArr l => forallb is_object l | _ => false end.
(** @worker/src/routes/client.ts:181-225 normalizeLiveAgentAuthClient *)
Definition normalizeLiveAgentAuthClient (value : jsval) : option fields :=
  match isJsonObjectPayload value with
  | None => None
  | Some v =>
    let uuid := trim (clientStringField v "uuid") in
    let tokenHash := trim (clientStringField v "token_hash") in
    if negb (nonempty uuid) || negb (nonempty tokenHash) then None
    else
      let text k := (k, JStr (clientStringField v k)) in
      let number k := (k, JNum (clientNumberField v k)) in
      let flag k := (k, JBool (clientBooleanField v k)) in
      Some [("uuid", JStr uuid); ("token", JStr ""); ("token_hash", JStr tokenHash);
            ("token_last_used_at", clientNullableStringField v "token_last_used_at"); text "token_last_used_ip";
            ("token_rotated_at", clientNullableStringField v "token_rotated_at");
            ("name", JStr (or_str (clientStringField v "name") uuid)); text "cpu_name"; text "virtualization"; text "arch";
            number "cpu_cores"; text "os"; text "kernel_version"; text "gpu_name"; text "ipv4"; text "ipv6"; text "region";
            text "remark"; text "public_remark"; number "mem_total"; number "swap_total"; number "disk_total"; text "version";
            number "price"; number "billing_cycle"; flag "auto_renewal"; text "currency"; text "expired_at"; text "group";
            text "tags"; flag "hidden"; number "traffic_limit";
            ("traffic_limit_type", JStr (or_str (clientStringField v "traffic_limit_type") "sum"));
            ("traffic_reset_day", js_or (JNum (clientNumberField v "traffic_reset_day")) (JNum (of_Z 1)));
            ("sort_order", match fld v "sort_order" with JNum n => if is_finite n then JNum n else JUndef | _ => JUndef end);
            text "created_at"; text "updated_at"]
  end.
(** @worker/src/routes/client.ts:464-466 nonEmptyString *)
Definition nonEmptyString (value fallback : jsval) : jsval :=
  match value with JStr s => if nonempty (trim s) then JStr (trim s) else fallback | _ => fallback end.
Definition trimmed_text (value : jsval) : jstr := text_of (nonEmptyString value (JStr "")).
(** [/^(unknown|未知)$/i] *)
Definition unknown_region (text : jstr) : bool :=
  jeq text "未知" || jeq (JS (map (λ u, if is_upper u then (u + 32)%N else u) (units text))) "unknown".
(** @worker/src/routes/client.ts:468-471 nonUnknownRegion -- with the fallback [''] *)
Definition nonUnknownRegion (value : jsval) : jstr :=
  let text := trimmed_text value in
  if nonempty text && negb (unknown_region text) then text else "".
(** @worker/src/routes/client.ts:473-475 isCountryCodeRegion *)
Definition isCountryCodeRegion (value : jstr) : bool := let t := trim value in (slen t =? 2) && all_units is_alpha t.
(** @worker/src/routes/client.ts:477-482 preferredRegion *)
Definition preferredRegion (values : list jsval) : jstr :=
  let candidates := List.filter nonempty (map nonUnknownRegion values) in
  match List.find (λ v, negb (isCountryCodeRegion v)) candidates with
  | Some v => v
  | None => match candidates with v :: _ => v | [] => "" end
  end.
(** @worker/src/routes/client.ts:485-489 preferredPublicIp (loop) *)
Fixpoint first_public (values : list jsval) : jstr :=
  match values with
  | [] => ""
  | value :: rest =>
    let ip := trimmed_text value in
    if nonempty ip && isPublicIpAddress ip then ip else first_public rest
  end.
(** @worker/src/routes/client.ts:484-490 preferredPublicIp *)
Definition preferredPublicIp (reported fallback current : jsval) : jstr := first_public [reported; fallback; current].
(** @worker/src/routes/client.ts:492-497 publicIpPatch -- every path returns a text,
    never the [undefined] its type allows *)
Definition publicIpPatch (reported fallback current : jsval) : jstr :=
  let preferred := preferredPublicIp reported fallback current in
  let currentIp := trimmed_text current in
  if nonempty preferred || negb (nonempty currentIp) || isPublicIpAddress currentIp then preferred else "".
(** @worker/src/routes/client.ts:507-509 positiveNumber *)
Definition positiveNumber (value fallback : jsval) : jsval :=
  match value with JNum n => if is_finite n && num_lt (of_Z 0) n then value else fallback | _ => fallback end.
(** @worker/src/routes/client.ts:511-513 nonNegativeNumber *)
Definition nonNegativeNumber (value fallback : jsval) : jsval :=
  match value with JNum n => if is_finite n && num_le (of_Z 0) n then value else fallback | _ => fallback end.
(** @worker/src/routes/client.ts:515-519 diskTotalFromReport *)
Definition diskTotalFromReport (value fallback : jsval) : jsval :=
  if is_undef value then fallback else positiveNumber value (JNum (of_Z 0)).
(** @worker/src/routes/client.ts:521-524 clientFieldChanged *)
Definition clientFieldChanged (current next : jsval) : bool :=
  match next with
  | JNum n => negb (num_eqb (to_num (js_or current (JNum (of_Z 0)))) n)
  | _ => negb (jeq (to_str (coalesce current (JStr ""))) (to_str (coalesce next (JStr ""))))
  end.
(** @worker/src/routes/client.ts:526-535 buildChangedClientPatch *)
Definition buildChangedClientPatch (client : option fields) (nextValues : fields) : fields :=
  fold_left (λ patch p, if clientFieldChanged (fldo client p.1) p.2 then set_field p.1 p.2 patch else patch) nextValues [].
(** @worker/src/routes/client.ts:541-543 isIPv6 *)
Definition isIPv6 (ip : jstr) : bool := includes ":" ip.
(** @worker/src/routes/client.ts:555-559 liveReportTtlMs *)
Definition liveReportTtlMs (report : fields) : num :=
  let intervalSec := to_num (coalesce (coalesce (fld report "report_interval") (fld report "interval_sec")) (fld report "interval")) in
  if negb (is_finite intervalSec) || num_le intervalSec (of_Z 0) then of_Z HTTP_LIVE_TTL_FALLBACK_MS
  else num_min (num_max (num_mul (num_mul intervalSec (of_Z 3)) (of_Z 1000)) (of_Z 30000)) (of_Z HTTP_LIVE_TTL_MAX_MS).
(** @worker/src/routes/client.ts:561-570 ipChangeParts *)
Definition ipChangeParts (oldIpv4 oldIpv6 newIpv4 newIpv6 : jstr) : list jstr :=
  (if nonempty oldIpv4 && nonempty newIpv4 && negb (jeq oldIpv4 newIpv4) then ["IPv4: " +++ oldIpv4 +++ " → " +++ newIpv4] else [])
  ++ (if nonempty oldIpv6 && nonempty newIpv6 && negb (jeq oldIpv6 newIpv6)
      then ["IPv6: " +++ slice_to 10 oldIpv6 +++ "… → " +++ slice_to 10 newIpv6 +++ "…"] else []).

(** ** Notifications of a changed address: [notification-templates.ts] *)

(** @worker/src/utils/notification-templates.ts:17-32 formatNotificationTime -- of a
    time in milliseconds *)
Definition formatNotificationTime (ms : Z) : jstr :=
  let beijing := ms + 8 * 60 * 60 * 1000 in
  let '(y, m, d) := civil (beijing / 86400000) in
  let t := beijing mod 86400000 in
  dec_Z y +++ "-" +++ pad 2 m +++ "-" +++ pad 2 d +++ " "
  +++ pad 2 (t / 3600000) +++ ":" +++ pad 2 (t / 60000 mod 60) +++ ":" +++ pad 2 (t / 1000 mod 60).
(** @worker/src/utils/notification-templates.ts:38-60 eventMessage -- without an event
    time: [new Date()] is evaluated once for the record and once for the text *)
Definition eventMessage (emoji event clients message : jstr) (now1 now2 : Z) : NotificationMessage :=
  {| nm_subject := emoji +++ " CF VPS Monitor " +++ event;
     nm_body := join (JS [10%N]) ([repeat_str 3 emoji; "事件: " +++ event] ++ (if nonempty clients then ["节点: " +++ clients] else [])
                                  ++ ["消息: " +++ message; "时间: " +++ formatNotificationTime now2]);
     nm_event := event; nm_clients := clients; nm_message := message; nm_time := formatNotificationTime now1; nm_emoji := emoji |}.
(** @worker/src/utils/notification-templates.ts:164-176 buildIpChangeNotification *)
Definition buildIpChangeNotification (nodeName : jstr) (parts : list jstr) (now1 now2 : Z) : NotificationMessage :=
  eventMessage "🔁" "IP 变更通知" nodeName (join "；" parts) now1 now2.

(** ** Answers of the objects: [do-response.ts] *)

(** @worker/src/utils/do-response.ts:28-30 isRecord *)
Definition isRecord (value : jsval) : option fields := match value with JObj fs => Some fs | _ => None end.
(** [await response.json().catch(() => null)] *)
Definition json_or_null (r : reply) : agent jsval := Yield (Ret (default JNull (rp_json r))).
(** @worker/src/utils/do-response.ts:32-35 readJsonObject *)
Definition readJsonObject (r : reply) : agent (option fields) := let! value := json_or_null r in Ret (isRecord value).
(** @worker/src/utils/do-response.ts:37-40 finiteNumber *)
Definition finiteNumber (value : jsval) (fallback : num) : num :=
  let numberValue := to_num value in if is_finite numberValue then numberValue else fallback.
(** @worker/src/utils/do-response.ts:1-9 LiveSnapshot *)
Record LiveSnapshot := {
  ls_online : list jstr; ls_clients : option (list fields); ls_data : option fields; ls_last_known : option fields; ls_count : num;
  ls_timestamp : option num; ls_metadata_version : option jstr;
}.
(** @worker/src/utils/do-response.ts:44-71 readLiveSnapshot (the object) *)
Definition live_snapshot (value : fields) : option LiveSnapshot :=
  match fld value "online", fld value "count" with
  | JArr online, JNum count =>
    match mapM (λ item, match item with JStr s => Some s | _ => None end) online with
    | Some names =>
      if negb (is_finite count) || num_lt count (of_Z 0) then None
      else Some {|
        ls_online := names; ls_count := num_floor count;
        ls_clients := match fld value "clients" with JArr l => Some (omap isRecord l) | _ => None end;
        ls_data := isRecord (fld value "data"); ls_last_known := isRecord (fld value "last_known");
        ls_timestamp := match fld value "timestamp" with JNum n => if is_finite n then Some n else None | _ => None end;
        ls_metadata_version :=
          match fld value "metadata_version" with JStr s => if nonempty (trim s) then Some s else None | _ => None end |}
    | None => None
    end
  | _, _ => None
  end.
(** @worker/src/utils/do-response.ts:42-72 readLiveSnapshot *)
Definition readLiveSnapshot (r : reply) : agent (option LiveSnapshot) :=
  let! value := readJsonObject r in Ret (match value with Some v => live_snapshot v | None => None end).
(** @worker/src/utils/do-response.ts:74-78 readClientReportResult *)
Definition readClientReportResult (r : reply) : agent (option bool) :=
  let! value := readJsonObject r in
  Ret (match value with Some v => match fld v "persisted" with JBool b => Some b | _ => None end | None => None end).
(** @worker/src/utils/do-response.ts:80-85 readAcceptedCount *)
Definition readAcceptedCount (r : reply) : agent (option num) :=
  let! value := readJsonObject r in
  Ret (match value with
       | Some v => let accepted := to_num (fld v "accepted") in
                   if is_finite accepted && num_le (of_Z 0) accepted then Some (num_floor accepted) else None
       | None => None
       end).
(** @worker/src/utils/do-response.ts:11-17 RateLimitResult *)
Record RateLimitResult := { rl_allowed : bool; rl_limit : num; rl_remaining : num; rl_reset : num; rl_retryAfter : num }.
(** @worker/src/utils/do-response.ts:87-100 readRateLimitResult -- the defaults for
    [reset] and [retryAfter] are absent *)
Definition readRateLimitResult (r : reply) (limit remaining : num) : agent (option RateLimitResult) :=
  let! value := readJsonObject r in
  match value with
  | None => Ret None
  | Some v =>
    match fld v "allowed" with
    | JBool allowed =>
      let! now := clock in
      Ret (Some {| rl_allowed := allowed;
                   rl_limit := num_max (of_Z 1) (num_floor (finiteNumber (fld v "limit") limit));
                   rl_remaining := num_max (of_Z 0) (num_floor (finiteNumber (fld v "remaining") remaining));
                   rl_reset := num_ceil (finiteNumber (fld v "reset") (num_div (of_Z now) (of_Z 1000)));
                   rl_retryAfter := num_max (of_Z 1) (num_ceil (finiteNumber (fld v "retry_after") (of_Z 60))) |})
    | _ => Ret None
    end
  end.

(** [a < b] of strings compares code units: the order of [[...l].sort()]. *)
Fixpoint compare_units (a b : list N) : Z :=
  match a, b with
  | [], [] => 0
  | [], _ :: _ => -1
  | _ :: _, [] => 1
  | u :: r, v :: t => if (u <? v)%N then -1 else if (v <? u)%N then 1 else compare_units r t
  end.
Definition sort_texts (l : list jstr) : list jstr := stable_sort (λ a b, compare_units (units a) (units b)) l.
Definition opt_num (n : option num) : jsval := match n with Some n => JNum n | None => JUndef end.
Definition texts (l : list jstr) : jsval := JArr (map JStr l).
Definition task_json (t : PingTaskRow) : jsval :=
  JObj [("id", opt_num (pt_id t)); ("name", JStr (pt_name t)); ("clients", texts (pt_clients t)); ("all_clients", JBool (pt_all_clients t));
        ("type", JStr (pt_type t)); ("target", JStr (pt_target t)); ("interval_sec", JNum (pt_interval_sec t));
        ("sort_order", opt_num (pt_sort_order t))].
(** The columns [validatePingResults] reads. *)
Definition assigned (t : PingTaskRow) : assigned_task :=
  {| at_id := pt_id t; at_all := pt_all_clients t; at_clients := pt_clients t; at_interval := pt_interval_sec t |}.
(** [task.all_clients || task.clients.includes(uuid)] *)
Definition task_for (uuid : jsval) (t : PingTaskRow) : bool :=
  pt_all_clients t || match uuid with JStr u => mem u (pt_clients t) | _ => false end.
(** @worker/src/routes/client.ts:423-425 withUnifiedPingInterval *)
Definition withUnifiedPingInterval (tasks : list PingTaskRow) (intervalSec : num) : list PingTaskRow :=
  map (λ t, {| pt_id := pt_id t; pt_name := pt_name t; pt_clients := pt_clients t; pt_all_clients := pt_all_clients t; pt_type := pt_type t;
               pt_target := pt_target t; pt_interval_sec := intervalSec; pt_sort_order := pt_sort_order t |}) tasks.
(** @worker/src/routes/client.ts:427-430 estimateNextPingTaskPollSec *)
Definition estimateNextPingTaskPollSec (tasks : list PingTaskRow) : Z :=
  match tasks with [] => AGENT_PING_TASK_EMPTY_POLL_SEC | _ => AGENT_PING_TASK_MAX_POLL_SEC end.
(** @worker/src/routes/client.ts:432-437 agentPingTasksForClient *)
Definition agentPingTasksForClient (tasks : list PingTaskRow) (uuid : jsval) (intervalSec : num) : list PingTaskRow :=
  withUnifiedPingInterval (List.filter (task_for uuid) tasks) intervalSec.

Definition json_error (code : Z) (error : jstr) : response := {| status := code; content := JObj [("error", JStr error)] |}.
Definition json_ok (content : jsval) : response := {| status := 200; content := content |}.
(** What reading a property of an absent binding throws. *)
Definition missing_binding : jstr := "Cannot read properties of undefined (reading 'idFromName')".

Section Handlers.
Context (sha256 : list Z → list Z) (URL : jstr → option url) (env : bindings) (req : request).

Definition digest (message : jstr) : agent (list Z) := Yield (Ret (sha256 (utf8 message))).
Definition need_database : agent unit := match db_error env with Some e => Throw e | None => Ret tt end.
(** [c.env.LIVE_DATA.get(c.env.LIVE_DATA.idFromName('global')).fetch(...)] *)
Definition live_fetch (path : jstr) (body : jsval) : agent reply :=
  if LIVE_DATA env then await (LiveFetch path body) else Throw missing_binding.
(** @worker/src/routes/client.ts:537-539 requestClientIp *)
Definition requestClientIp : jstr := getCloudflareClientIp (rq_ip req) "".
(** @worker/src/routes/client.ts:545-553 requestRegion *)
Definition requestRegion : jstr :=
  let cf := default [] (rq_cf req) in
  let country := js_or (fld cf "country") (match rq_ip_country req with Some h => JStr h | None => JUndef end) in
  join ", " (omap (λ part, match part with JStr s => if nonempty (trim s) then Some s else None | _ => None end)
                  [fld cf "city"; fld cf "region"; country]).
(** @worker/src/routes/client.ts:824-827 bearerToken *)
Definition bearerToken : jstr :=
  let authHeader := default "" (rq_authorization req) in
  if starts_with "Bearer " authHeader then slice_from 7 authHeader else "".

(** ** Rate limits *)

(** @worker/src/routes/client.ts:829-834 rateLimitResponse *)
Definition rateLimitResponse (retryAfter limit remaining : num) : agent response :=
  do! header "Retry-After" (num_str retryAfter) in
  do! header "X-RateLimit-Limit" (num_str limit) in
  do! header "X-RateLimit-Remaining" (num_str (num_max (of_Z 0) remaining)) in
  Ret (json_error 429 ("请求过于频繁，请 " +++ num_str retryAfter +++ " 秒后重试")).
(** @worker/src/routes/client.ts:838-847 localAgentRateLimit (sweep and count) *)
Definition hit_bucket (now : Z) (key : jstr) (windowMs : Z) (buckets : list (jstr * (Z * Z))) : (Z * Z) * list (jstr * (Z * Z)) :=
  let live := List.filter (λ e, negb (e.2.2 <=? now)) buckets in
  let '(count, resetAt) := match lookup_field key live with
                           | Some (count, resetAt) => if resetAt <=? now then (0, now + windowMs) else (count, resetAt)
                           | None => (0, now + windowMs)
                           end in
  let state := (count + 1, resetAt) in
  (state, set_field key state live).
(** @worker/src/routes/client.ts:836-854 localAgentRateLimit *)
Definition localAgentRateLimit (key : jstr) (max windowMs : Z) : agent (option response) :=
  let! now := clock in
  let! st := Local (λ st, with_buckets (hit_bucket now key windowMs (localAgentRateLimitBuckets st)).2 st) Ret in
  let '(count, resetAt) := (hit_bucket now key windowMs (localAgentRateLimitBuckets st)).1 in
  let retryAfter := Z.max 1 (- ((now - resetAt) / 1000)) in
  let remaining := Z.max 0 (max - count) in
  do! header "X-RateLimit-Limit" (dec_Z max) in
  do! header "X-RateLimit-Remaining" (dec_Z remaining) in
  if max <? count then let! r := rateLimitResponse (of_Z retryAfter) (of_Z max) (of_Z remaining) in Ret (Some r) else Ret None.
(** @worker/src/routes/client.ts:856-864 agentTokenKey *)
Definition agentTokenKey (token : jstr) : agent jstr := let! bytes := digest token in Ret ("sha256:" +++ base64url bytes).
(** @worker/src/routes/client.ts:866-898 enforceAgentBucketRateLimit *)
Definition enforceAgentBucketRateLimit (bucket key : jstr) (max : Z) : agent (option response) :=
  let local := localAgentRateLimit (bucket +++ ":" +++ key) max AGENT_RATE_LIMIT_WINDOW_MS in
  if negb (RATE_LIMIT env) then local
  else catch
    (let! r := await (RateFetch "agent-ingress" (JObj [("bucket", JStr bucket); ("ip", JStr key); ("max", JNum (of_Z max));
                                     ("windowMs", JNum (of_Z AGENT_RATE_LIMIT_WINDOW_MS))])) in
     if negb (rp_ok r) then Throw ("DO rate limit HTTP " +++ dec_Z (rp_status r))
     else
       let! result := readRateLimitResult r (of_Z max) (of_Z 0) in
       match result with
       | None => Throw "DO rate limit returned an invalid response"
       | Some result =>
         do! header "X-RateLimit-Limit" (num_str (rl_limit result)) in
         do! header "X-RateLimit-Remaining" (num_str (rl_remaining result)) in
         if rl_allowed result then Ret None
         else let! r := rateLimitResponse (rl_retryAfter result) (rl_limit result) (rl_remaining result) in Ret (Some r)
       end)
    (λ _, local).
(** @worker/src/routes/client.ts:909-915 agentPresentedTokenKey *)
Definition agentPresentedTokenKey (token : jstr) : agent jstr :=
  let ip := or_str requestClientIp "unknown" in
  let! tokenPart := (if negb (nonempty token) then Ret "missing" else if isAgentTokenShape token then agentTokenKey token else Ret "malformed") in
  Ret (ip +++ ":" +++ tokenPart).
(** @worker/src/routes/client.ts:917-931 enforceAgentAuthAttemptLimit *)
Definition enforceAgentAuthAttemptLimit (token : jstr) : agent (option response) :=
  let! ipLimited := localAgentRateLimit ("agent-auth-attempt:" +++ or_str requestClientIp "unknown")
                      AGENT_AUTH_ATTEMPT_RATE_LIMIT_MAX AGENT_RATE_LIMIT_WINDOW_MS in
  match ipLimited with
  | Some r => Ret (Some r)
  | None =>
    let! key := agentPresentedTokenKey token in
    localAgentRateLimit ("agent-auth-presented-token:" +++ key) AGENT_AUTH_ATTEMPT_RATE_LIMIT_MAX AGENT_RATE_LIMIT_WINDOW_MS
  end.
(** @worker/src/routes/client.ts:933-940 enforceAgentAuthFailureLimit *)
Definition enforceAgentAuthFailureLimit (token : jstr) : agent (option response) :=
  let! key := agentPresentedTokenKey token in
  enforceAgentBucketRateLimit "agent-auth-failure" key AGENT_AUTH_FAILURE_RATE_LIMIT_MAX.

(** ** Reading a body *)

(** @worker/src/routes/client.ts:953-966 readJsonBodyWithLimit (chunks) -- [None]
    when they exceed the limit: the reader is cancelled *)
Fixpoint read_chunks (maxBytes total : Z) (bytes : list Z) (chunks : list (option (list Z))) (error : option jstr) : agent (option (list Z)) :=
  match chunks with
  | [] => Yield (match error with Some e => Throw e | None => Ret (Some bytes) end)
  | None :: rest => Yield (read_chunks maxBytes total bytes rest error)
  | Some chunk :: rest =>
    let total := total + Z.of_nat (length chunk) in
    Yield (if maxBytes <? total then Yield (Ret None) else read_chunks maxBytes total (bytes ++ chunk) rest error)
  end.
(** @worker/src/routes/client.ts:942-980 readJsonBodyWithLimit *)
Definition readJsonBodyWithLimit (maxBytes : Z) : agent (result response jsval) :=
  let declaredLength := to_num (js_or (match rq_length req with Some h => JStr h | None => JUndef end) (JNum (of_Z 0))) in
  if is_finite declaredLength && num_lt (of_Z maxBytes) declaredLength then Ret (Err (json_error 413 "请求体过大"))
  else match rq_body req with
  | None => Ret (Err (json_error 400 "请求体不能为空"))
  | Some (chunks, error) =>
    let! bytes := read_chunks maxBytes 0 [] chunks error in
    match bytes with
    | None => Ret (Err (json_error 413 "请求体过大"))
    | Some bytes =>
      match json_parse (utf8_decode bytes) with
      | Some body => Ret (Ok body)
      | None => Ret (Err (json_error 400 "请求格式错误"))
      end
    end
  end.
(** @worker/src/routes/client.ts:982-986 requireJsonObjectBody *)
Definition requireJsonObjectBody (body : jsval) : result response fields :=
  match isJsonObjectPayload body with Some fs => Ok fs | None => Err (json_error 400 "请求内容必须是 JSON 对象") end.

(** ** Authentication *)

(** @worker/src/routes/client.ts:101-103 agentTokenLookupHash *)
Definition agentTokenLookupHash (token : jstr) : agent jstr := Yield (Ret (hashAgentToken sha256 token)).
(** @worker/src/routes/client.ts:236-248 readLiveAgentAuthClient *)
Definition readLiveAgentAuthClient (tokenHash : jstr) : agent (option fields) :=
  if negb (LIVE_DATA env) then Ret None
  else
    let! r := settle (LiveFetch "agent-auth/lookup" (JObj [("token_hash", JStr tokenHash)])) in
    match r with
    | Err _ => Ret None
    | Ok r =>
      if negb (rp_ok r) then Ret None
      else
        let! payload := json_or_null r in
        Ret (match payload with
             | JObj p => match fld p "client" with JObj client => normalizeLiveAgentAuthClient (JObj client) | _ => None end
             | _ => None
             end)
    end.
(** @worker/src/routes/client.ts:250-262 upsertLiveAgentAuthClient *)
Definition upsertLiveAgentAuthClient (client : fields) : agent bool :=
  if negb (truthy (fld client "token_hash")) then Ret false
  else if negb (LIVE_DATA env) then Ret true
  else
    let! r := await (LiveFetch "agent-auth" (JObj [("client", JObj (set_field "token" (JStr "") (del_field "token" client)))])) in
    let! body := json_or_null r in
    Ret (rp_ok r && match body with JObj b => is_bool (fld b "success") true | _ => false end).
(** @worker/src/routes/client.ts:264-269 sourceIpFingerprint -- an address is ASCII *)
Definition sourceIpFingerprint (ip : jstr) : agent jstr :=
  let normalized := lower (trim ip) in
  if negb (nonempty normalized) then Ret ""
  else let! bytes := digest normalized in Ret ("sha256:" +++ hex_bytes (take 8 bytes)).
(** @worker/src/routes/client.ts:271-291 recordAgentTokenSourceIpChange *)
Definition recordAgentTokenSourceIpChange (client : fields) (ip : jstr) : agent unit :=
  let previousIp := trim (text_of (js_or (fld client "token_last_used_ip") (JStr ""))) in
  let nextIp := trim ip in
  if negb (nonempty previousIp) || negb (nonempty nextIp) || jeq previousIp nextIp then Ret tt
  else
    let! previous := sourceIpFingerprint previousIp in
    let! next := sourceIpFingerprint nextIp in
    await (InsertAuditLog "system" "agent_token_source_ip_change"
           ("Agent token source IP changed: uuid=" +++ to_str (fld client "uuid") +++ "; name=" +++ to_str (js_or (fld client "name") (JStr "-"))
            +++ "; previous_ip_fp=" +++ previous +++ "; new_ip_fp=" +++ next) "warning").
(** @worker/src/routes/client.ts:123-126 markAgentTokenUsedIfDue (once due) *)
Definition markTokenUsed (client : fields) (normalizedIp : jstr) : agent unit :=
  let! tokenUsageUpdated := catch (await (MarkClientTokenUsed (fld client "uuid") normalizedIp)) (λ _, Ret false) in
  if tokenUsageUpdated then catch (recordAgentTokenSourceIpChange client normalizedIp) (λ _, Ret tt) else Ret tt.
(** @worker/src/routes/client.ts:113-114 markAgentTokenUsedIfDue (the cached use) *)
Definition usage_current (cacheKey ip : jstr) (now : Z) (st : agent_state) : bool :=
  match lookup_field cacheKey (agentTokenUsageCache st) with Some (ip', expiresAt) => (now <? expiresAt) && jeq ip' ip | None => false end.
(** @worker/src/routes/client.ts:105-127 markAgentTokenUsedIfDue -- its part before the
    first [await] runs in the request, the rest as a task when [deferBackground] is given *)
Definition markAgentTokenUsedIfDue (defer : bool) (client : fields) (cacheKey ip : jstr) (now : Z) : agent unit :=
  let normalizedIp := trim ip in
  let! st := Local (λ st, if usage_current cacheKey normalizedIp now st then st
                          else with_usage (bounded_set AGENT_AUTH_CACHE_MAX_ENTRIES cacheKey (normalizedIp, now + AGENT_TOKEN_USAGE_CACHE_MS)
                                             (agentTokenUsageCache st)) st) Ret in
  if usage_current cacheKey normalizedIp now st then Ret tt
  else if defer then spawn (TokenUsed client normalizedIp) else markTokenUsed client normalizedIp.

Section ByToken.
Context (cache : agent_state → auth_cache) (with_cache : auth_cache → agent_state → agent_state) (query : agent (option fields)).
Definition set_cache (cacheKey : jstr) (value : option fields) (ttlMs now : Z) : agent unit :=
  let! _st := modify (λ st, with_cache (setAgentAuthCache cacheKey value ttlMs now (cache st)) st) in Ret tt.
(** @worker/src/routes/client.ts:342-389 getAgentClientIdentityByToken (the text both
    functions share) -- the source of the identity, and the identity *)
Definition agent_by_token (defer : bool) (token ip : jstr) : agent (jstr * option fields) :=
  let! now := clock in
  let! cacheKey := agentTokenLookupHash token in
  let! st := get in
  if match lookup_field cacheKey (cache st) with Some (None, expiresAt) => now <? expiresAt | _ => false end then Ret ("memory", None)
  else
    let! liveAuthClient := readLiveAgentAuthClient cacheKey in
    match liveAuthClient with
    | Some liveClient =>
      let cachedClient := stripCachedAgentToken liveClient in
      do! set_cache cacheKey (Some cachedClient) AGENT_AUTH_CACHE_MS now in
      do! markAgentTokenUsedIfDue defer liveClient cacheKey ip now in
      Ret ("do", Some cachedClient)
    | None =>
      let! row := query in
      match row with
      | Some client =>
        let! stored := match normalizeLiveAgentAuthClient (JObj (set_field "token_hash" (JStr cacheKey) client)) with
                       | Some snapshot => upsertLiveAgentAuthClient snapshot
                       | None => Ret false
                       end in
        if negb stored then
          let! _st := modify (λ st, with_cache (del_field cacheKey (cache st)) st) in Ret ("miss", None)
        else
          let cachedClient := stripCachedAgentToken client in
          do! set_cache cacheKey (Some cachedClient) AGENT_AUTH_CACHE_MS now in
          do! markAgentTokenUsedIfDue defer client cacheKey ip now in
          Ret ("db", Some cachedClient)
      | None =>
        do! set_cache cacheKey None AGENT_AUTH_NEGATIVE_CACHE_MS now in
        Ret ("miss", None)
      end
    end.
End ByToken.
(** @worker/src/routes/client.ts:293-340 getAgentClientByToken *)
Definition getAgentClientByToken (defer : bool) (token ip : jstr) : agent (jstr * option fields) :=
  agent_by_token agentAuthCache with_auth (await (GetClientByToken token)) defer token ip.
(** @worker/src/routes/client.ts:342-389 getAgentClientIdentityByToken *)
Definition getAgentClientIdentityByToken (defer : bool) (token ip : jstr) : agent (jstr * option fields) :=
  agent_by_token agentIdentityAuthCache with_identity (await (GetClientIdentityByToken token)) defer token ip.

(** What a middleware sets for its handler: [c.set('clientUuid', ...)] and the others. *)
Record identity := {
  clientUuid : jsval; clientName : jsval; clientHidden : bool; clientRecord : option fields; id_tokenKey : jstr; clientAuthTokenHash : jstr;
}.
Section Middleware.
Context (full : bool).
(** @worker/src/routes/client.ts:995-999 clientAuth (refusals) *)
Definition refuse (token error : jstr) : agent response :=
  let! failureLimited := enforceAgentAuthFailureLimit token in
  match failureLimited with Some r => Ret r | None => Ret (json_error 401 error) end.
(** @worker/src/routes/client.ts:989-1030 clientAuth; with [full] false it is
    clientIdentityAuth, lines 1032-1073, which keeps no row *)
Definition authenticated_by (next : identity → agent response) : agent response :=
  let token := trim bearerToken in
  let! attemptLimited := enforceAgentAuthAttemptLimit token in
  match attemptLimited with
  | Some r => Ret r
  | None =>
    if negb (nonempty token) then refuse token "缺少认证 Token"
    else if negb (isAgentTokenShape token) then refuse token "无效的 Token"
    else
      do! need_database in
      let! found := (if full then getAgentClientByToken else getAgentClientIdentityByToken) true token requestClientIp in
      do! header "X-CF-VPS-Monitor-Agent-Auth" found.1 in
      match found.2 with
      | None => refuse token "无效的 Token"
      | Some client =>
        let! key := agentTokenKey token in
        let! tokenHash := agentTokenLookupHash token in
        next {| clientUuid := fld client "uuid"; clientName := fld client "name"; clientHidden := truthy (fld client "hidden");
                clientRecord := if full then Some client else None; id_tokenKey := key; clientAuthTokenHash := tokenHash |}
      end
  end.
End Middleware.
(** @worker/src/routes/client.ts:989-1030 clientAuth *)
Definition clientAuth (next : identity → agent response) : agent response := authenticated_by true next.
(** @worker/src/routes/client.ts:1032-1073 clientIdentityAuth *)
Definition clientIdentityAuth (next : identity → agent response) : agent response := authenticated_by false next.
(** @worker/src/routes/client.ts:900-907 enforceAgentRateLimit *)
Definition enforceAgentRateLimit (id : identity) (bucket : jstr) (max : Z) : agent (option response) :=
  enforceAgentBucketRateLimit bucket (or_str (id_tokenKey id) (or_str requestClientIp "unknown")) max.

(** ** Ping tasks and policies *)

(** @worker/src/routes/client.ts:391-403 listAgentPingTasks *)
Definition listAgentPingTasks : agent (list PingTaskRow) :=
  let! now := clock in
  let! st := get in
  let load :=
    let! tasks := await ListPingTasks in
    let! _st := modify (λ st, with_pings (Some (tasks, now + AGENT_PING_TASK_CACHE_MS)) (agentPingIntervalCache st) st) in
    Ret tasks in
  match agentPingTasksCache st with
  | Some (tasks, expiresAt) => if now <? expiresAt then Ret tasks else load
  | None => load
  end.
Definition setting_value (settings : list (jstr * jstr)) (key : jstr) : jsval :=
  match lookup_field key settings with Some s => JStr s | None => JUndef end.
(** @worker/src/routes/client.ts:413-415 getUnifiedPingIntervalSec (the bounds) *)
Definition bounded_interval (intervalSec : num) : num :=
  if is_finite intervalSec
  then num_min (num_max (num_floor intervalSec) (of_Z AGENT_PING_TASK_MIN_POLL_SEC)) (of_Z AGENT_PING_TASK_MAX_POLL_SEC)
  else of_Z AGENT_PING_TASK_DEFAULT_INTERVAL_SEC.
(** @worker/src/routes/client.ts:405-421 getUnifiedPingIntervalSec *)
Definition getUnifiedPingIntervalSec : agent num :=
  let! now := clock in
  let! st := get in
  let load :=
    let! stored := await (GetSettingsByKeys AGENT_PING_INTERVAL_SETTING_KEYS) in
    let settings := buildAdminSettings URL stored in
    let bounded := bounded_interval (to_num (setting_value settings "ping_record_persist_interval_sec")) in
    let! _st := modify (λ st, with_pings (agentPingTasksCache st) (Some (bounded, now + AGENT_PING_INTERVAL_SETTING_CACHE_MS)) st) in
    Ret bounded in
  match agentPingIntervalCache st with
  | Some (value, expiresAt) => if now <? expiresAt then Ret value else load
  | None => load
  end.
(** @worker/src/routes/client.ts:439-442 agentWebsiteProbeTasksForClient *)
Definition agentWebsiteProbeTasksForClient (uuid : jsval) : agent (list jsval) :=
  if negb (truthy uuid) then Ret []
  else let! now := clock in await (ListAgentWebsiteProbeTasks uuid (iso_string now) 20).
(** @worker/src/routes/client.ts:444-462 pingPolicyVersion *)
Definition pingPolicyVersion (tasks : list PingTaskRow) (intervalSec : num) : agent jstr :=
  let digestInput := json (JObj [
    ("interval_sec", JNum intervalSec);
    ("tasks", JArr (map (λ t, JObj [("id", opt_num (pt_id t)); ("name", JStr (pt_name t)); ("type", JStr (pt_type t));
                                    ("target", JStr (pt_target t)); ("interval_sec", JNum (pt_interval_sec t));
                                    ("all_clients", JBool (pt_all_clients t)); ("clients", texts (sort_texts (pt_clients t)))]) tasks))]) in
  let! bytes := digest digestInput in Ret (hex_bytes (take 8 bytes)).
(** [Math.min(Math.max(Number(settings[key] || 120), 60), 3600)] *)
Definition policy_seconds (settings : list (jstr * jstr)) (key : jstr) : num :=
  num_min (num_max (to_num (js_or (setting_value settings key) (JNum (of_Z 120)))) (of_Z 60)) (of_Z 3600).
(** @worker/src/routes/client.ts:792-822 fallbackAgentPolicy *)
Definition fallbackAgentPolicy (uuid : jsval) : agent jsval :=
  let! stored := await (GetSettingsByKeys AGENT_POLICY_SETTING_KEYS) in
  let settings := buildAdminSettings URL stored in
  let reportIntervalSec := policy_seconds settings "live_poll_idle_interval_sec" in
  let viewerTtlSec := policy_seconds settings "live_poll_active_max_duration_sec" in
  let pingIntervalSec := policy_seconds settings "ping_record_persist_interval_sec" in
  let! pingTasks := (if truthy uuid
                     then let! tasks := listAgentPingTasks in Ret (agentPingTasksForClient tasks uuid (num_floor pingIntervalSec))
                     else Ret []) in
  let! websiteProbeTasks := agentWebsiteProbeTasksForClient uuid in
  let! client := (if truthy uuid then catch (await (GetClient uuid)) (λ _, Ret None) else Ret None) in
  let trafficResetDay := to_num (fldo client "traffic_reset_day") in
  let! version := pingPolicyVersion pingTasks (num_floor pingIntervalSec) in
  let! now := clock in
  Ret (JObj ([("type", JStr "policy"); ("mode", JStr "idle"); ("sample_interval_sec", JNum (num_floor reportIntervalSec));
              ("report_interval_sec", JNum (num_floor reportIntervalSec)); ("ping_interval_sec", JNum (num_floor pingIntervalSec));
              ("ping_policy_version", JStr version); ("ping_tasks", JArr (map task_json pingTasks));
              ("website_probe_tasks", JArr websiteProbeTasks); ("report_now", JBool false); ("viewer_count", JNum (of_Z 0));
              ("viewer_ttl_sec", JNum (num_floor viewerTtlSec)); ("policy_ttl_sec", JNum (of_Z 120)); ("idle_policy_ttl_sec", JNum (of_Z 120))]
             ++ (if is_integer trafficResetDay && num_le (of_Z 1) trafficResetDay && num_le trafficResetDay (of_Z 31)
                 then [("traffic_reset_day", JNum trafficResetDay)] else [])
             ++ [("timestamp", JNum (of_Z now))])).

(** ** Addresses and basic information *)

(** @worker/src/routes/client.ts:572-586 recordIpChangeIfEnabled *)
Definition recordIpChangeIfEnabled (clientName : jsval) (parts : list jstr) : agent unit :=
  if (length parts =? 0)%nat then Ret tt
  else
    let! settings := await (GetSettingsByKeys IP_CHANGE_NOTIFICATION_SETTING_KEYS) in
    if negb (is_str (setting_value settings "enable_ip_change_notification") "true") then Ret tt
    else
      let! now1 := clock in
      let! now2 := clock in
      let notification := buildIpChangeNotification (to_str clientName) parts now1 now2 in
      do! await (DispatchNotification (buildAdminSettings URL settings) notification) in
      await (InsertAuditLog "system" "ip_change" ("IP 变更: " +++ to_str clientName +++ " " +++ join ", " parts) "info").
(** [fallbackIp && !isIPv6(fallbackIp) ? fallbackIp : ''] and its IPv6 counterpart *)
Definition fallback_ipv4 : jsval := JStr (if nonempty requestClientIp && negb (isIPv6 requestClientIp) then requestClientIp else "").
Definition fallback_ipv6 : jsval := JStr (if nonempty requestClientIp && isIPv6 requestClientIp then requestClientIp else "").
(** @worker/src/routes/client.ts:598-614 syncClientIpsFromReport (the addresses and the updates) *)
Definition ip_updates (report oldClient : fields) : jstr * jstr * fields :=
  let nextIpv4 := publicIpPatch (nonEmptyString (fld report "ipv4") (JStr "")) fallback_ipv4 (fld oldClient "ipv4") in
  let nextIpv6 := publicIpPatch (nonEmptyString (fld report "ipv6") (JStr "")) fallback_ipv6 (fld oldClient "ipv6") in
  let changed4 := negb (strict_eq (fld oldClient "ipv4") (JStr nextIpv4)) in
  let changed6 := negb (strict_eq (fld oldClient "ipv6") (JStr nextIpv6)) in
  let edgeRegion := JStr requestRegion in
  let nextRegion := if changed4 || changed6 then preferredRegion [fld report "region"; edgeRegion; fld oldClient "region"]
                    else preferredRegion [fld report "region"; fld oldClient "region"; edgeRegion] in
  (nextIpv4, nextIpv6,
   (if changed4 then [("ipv4", JStr nextIpv4)] else []) ++ (if changed6 then [("ipv6", JStr nextIpv6)] else [])
   ++ (if nonempty nextRegion && negb (strict_eq (fld oldClient "region") (JStr nextRegion)) then [("region", JStr nextRegion)] else [])).
(** @worker/src/routes/client.ts:588-627 syncClientIpsFromReport *)
Definition syncClientIpsFromReport (uuid clientName : jsval) (report : fields) (oldClient : option fields) : agent unit :=
  match oldClient with
  | None => Ret tt
  | Some oldClient =>
    let '(nextIpv4, nextIpv6, updates) := ip_updates report oldClient in
    if (length updates =? 0)%nat then Ret tt
    else
      let! _updated := await (UpdateClient uuid updates) in
      let! _st := modify (λ st, invalidateAgentClientAuthCache (Some uuid) (invalidatePublicMetadataCache st)) in
      recordIpChangeIfEnabled clientName
        (ipChangeParts (text_of (js_or (fld oldClient "ipv4") (JStr ""))) (text_of (js_or (fld oldClient "ipv6") (JStr ""))) nextIpv4 nextIpv6)
  end.
(** @worker/src/routes/client.ts:748-774 syncBasicInfoFromReportBatch (the values;
    the upload has the same text in lines 1123-1151) *)
Definition basic_info_values (info : fields) (oldClient : option fields) : fields :=
  let old k := js_or (fldo oldClient k) (JStr "") in
  let old_number k := js_or (fldo oldClient k) (JNum (of_Z 0)) in
  let inferredIpv4 := publicIpPatch (fld info "ipv4") fallback_ipv4 (old "ipv4") in
  let inferredIpv6 := publicIpPatch (fld info "ipv6") fallback_ipv6 (old "ipv6") in
  let ipChanged := negb (strict_eq (old "ipv4") (JStr inferredIpv4)) || negb (strict_eq (old "ipv6") (JStr inferredIpv6)) in
  let edgeRegion := JStr requestRegion in
  let text k := (k, nonEmptyString (fld info k) (old k)) in
  [text "cpu_name"; text "virtualization"; text "arch"; ("cpu_cores", positiveNumber (fld info "cpu_cores") (old_number "cpu_cores"));
   text "os"; text "kernel_version"; text "gpu_name"; ("ipv4", JStr inferredIpv4); ("ipv6", JStr inferredIpv6);
   ("region", JStr (if ipChanged then preferredRegion [fld info "region"; edgeRegion; fldo oldClient "region"]
                    else preferredRegion [fld info "region"; fldo oldClient "region"; edgeRegion]));
   ("mem_total", positiveNumber (fld info "mem_total") (old_number "mem_total"));
   ("swap_total", nonNegativeNumber (fld info "swap_total") (old_number "swap_total"));
   ("disk_total", diskTotalFromReport (fld info "disk_total") (old_number "disk_total"));
   text "version"].
(** @worker/src/routes/client.ts:757-774 syncBasicInfoFromReportBatch (the patch) *)
Definition basic_info_patch (info : fields) (oldClient : option fields) : fields :=
  buildChangedClientPatch oldClient (basic_info_values info oldClient).
(** @worker/src/routes/client.ts:775-780 syncBasicInfoFromReportBatch (the addresses that changed) *)
Definition basic_info_ip_change (info : fields) (oldClient : option fields) : list jstr :=
  let old k := js_or (fldo oldClient k) (JStr "") in
  ipChangeParts (text_of (old "ipv4")) (text_of (old "ipv6"))
    (publicIpPatch (fld info "ipv4") fallback_ipv4 (old "ipv4")) (publicIpPatch (fld info "ipv6") fallback_ipv6 (old "ipv6")).
(** @worker/src/routes/client.ts:672-710 buildSafeLiveBasicInfoClient *)
Definition buildSafeLiveBasicInfoClient (uuid name : jsval) (hidden : bool) (oldClient : option fields) (patch : fields) : fields :=
  let text k := (k, js_or (fldo oldClient k) (JStr "")) in
  let number k := (k, js_or (fldo oldClient k) (JNum (of_Z 0))) in
  let public v := JBool (isPublicIpAddress (text_of v)) in
  let address k := match fld patch k with JStr s => JStr (trim s) | _ => js_or (fldo oldClient k) (JStr "") end in
  let meta := spread
    [("uuid", uuid); ("name", js_or name (js_or (fldo oldClient "name") uuid)); ("hidden", JBool hidden); text "cpu_name";
     text "virtualization"; text "arch"; number "cpu_cores"; text "os"; text "kernel_version"; text "gpu_name"; text "region";
     text "public_remark"; number "mem_total"; number "swap_total"; number "disk_total"; text "version"; text "group"; text "tags";
     number "traffic_limit"; text "traffic_limit_type"; number "sort_order";
     ("has_ipv4", public (js_or (fldo oldClient "ipv4") (JStr ""))); ("has_ipv6", public (js_or (fldo oldClient "ipv6") (JStr "")))] patch in
  set_field "has_ipv6" (public (address "ipv6")) (set_field "has_ipv4" (public (address "ipv4")) meta).
(** @worker/src/routes/client.ts:712-727 syncLiveBasicInfoMetadata *)
Definition syncLiveBasicInfoMetadata (client : fields) : agent unit :=
  let uuid := clientStringField client "uuid" in
  if negb (nonempty uuid) then Ret tt
  else
    let! _r := live_fetch "client-meta" (JObj [
      ("source", JStr "agent"); ("client", JObj client); ("uuid", JStr uuid);
      ("name", match fld client "name" with JStr s => JStr s | _ => JStr uuid end);
      ("hidden", JBool (clientBooleanField client "hidden"))]) in
    Ret tt.
(** @worker/src/routes/client.ts:781-789 syncBasicInfoFromReportBatch (the writes;
    the upload has the same text in lines 1158-1166) *)
Definition write_basic_info (uuid displayName : jsval) (hidden : bool) (info : fields) (oldClient : option fields) : agent unit :=
  let patch := basic_info_patch info oldClient in
  let ipChange := basic_info_ip_change info oldClient in
  if (0 <? length patch)%nat then
    let! _updated := await (UpdateClient uuid patch) in
    do! catch (syncLiveBasicInfoMetadata (buildSafeLiveBasicInfoClient uuid displayName hidden oldClient patch)) (λ _, Ret tt) in
    let! _st := modify (λ st, invalidateAgentClientAuthCache (Some uuid) (invalidatePublicMetadataCache st)) in
    spawn (IpChange displayName ipChange)
  else spawn (IpChange displayName ipChange).
(** @worker/src/routes/client.ts:738-745 syncBasicInfoFromReportBatch (the last
    [basic_info] of the batch) *)
Definition last_basic_info (reports : list fields) : option fields :=
  match omap (λ r, isJsonObjectPayload (fld r "basic_info")) (rev reports) with info :: _ => Some info | [] => None end.
(** @worker/src/routes/client.ts:729-790 syncBasicInfoFromReportBatch *)
Definition syncBasicInfoFromReportBatch (uuid displayName : jsval) (hidden : bool) (oldClient : option fields) (reports : list fields) : agent unit :=
  match last_basic_info reports with
  | Some info => write_basic_info uuid displayName hidden info oldClient
  | None => Ret tt
  end.

(** @worker/src/routes/client.ts:629-670 updateLiveReport -- of at least one report:
    several are sent as a batch *)
Definition updateLiveReport (id : identity) (name : jsval) (hidden : bool) (reports : list fields) (nowMs : Z) : agent bool :=
  match last reports with
  | None => Ret false
  | Some report =>
    let reportBody := if (1 <? length reports)%nat then ("reports", JArr (map JObj reports)) else ("report", JObj report) in
    let! r := live_fetch "client-report" (JObj [
      ("uuid", clientUuid id); ("name", name); ("hidden", JBool hidden); ("auth_hash", JStr (clientAuthTokenHash id));
      ("source_ip", JStr requestClientIp); ("region", JStr requestRegion); reportBody;
      ("timestamp", JNum (of_Z nowMs)); ("ttl_ms", JNum (liveReportTtlMs report))]) in
    let! result := readClientReportResult r in
    match result with
    | Some persisted => if rp_ok r then Ret persisted else Throw "Live report persistence was not acknowledged"
    | None => Throw "Live report persistence was not acknowledged"
    end
  end.

(** ** The routes *)

(** @worker/src/routes/client.ts:1075-1077 /register *)
Definition register : agent response := Ret (json_error 410 "Agent 自动注册已移除，请在后台创建节点并使用节点 Token 安装 Agent").
(** @worker/src/routes/client.ts:1080-1105 /policy *)
Definition policy (id : identity) : agent response :=
  let answer := do! need_database in let! p := fallbackAgentPolicy (clientUuid id) in Ret (json_ok p) in
  catch answer (λ _, catch answer (λ _,
    let! now := clock in
    Ret (json_ok (JObj [("type", JStr "policy"); ("mode", JStr "idle"); ("sample_interval_sec", JNum (of_Z 120));
      ("report_interval_sec", JNum (of_Z 120)); ("ping_interval_sec", JNum (of_Z 120)); ("ping_policy_version", JStr "fallback");
      ("ping_tasks", JArr []); ("website_probe_tasks", JArr []); ("report_now", JBool false); ("viewer_count", JNum (of_Z 0));
      ("viewer_ttl_sec", JNum (of_Z 120)); ("policy_ttl_sec", JNum (of_Z 120)); ("idle_policy_ttl_sec", JNum (of_Z 120));
      ("timestamp", JNum (of_Z now))])))).
(** The head of the routes that read a body: its rate limit, and the body. *)
Definition with_body (id : identity) (bucket : jstr) (max maxBytes : Z) (k : jsval → agent response) : agent response :=
  let! limited := enforceAgentRateLimit id bucket max in
  match limited with
  | Some r => Ret r
  | None =>
    let! parsed := readJsonBodyWithLimit maxBytes in
    match parsed with Ok body => k body | Err r => Ret r end
  end.
(** @worker/src/routes/client.ts:1108-1172 /uploadBasicInfo *)
Definition uploadBasicInfo (id : identity) : agent response :=
  catch
    (with_body id "agent-basic-info" AGENT_BASIC_INFO_RATE_LIMIT_MAX AGENT_BASIC_INFO_MAX_BODY_BYTES (λ parsed,
     match requireJsonObjectBody parsed with
     | Err r => Ret r
     | Ok body =>
       let uuid := clientUuid id in
       do! need_database in
       let! oldClient := (match clientRecord id with Some c => Ret (Some c) | None => await (GetClient uuid) end) in
       let displayName := js_or (fldo oldClient "name") (js_or (clientName id) uuid) in
       do! write_basic_info uuid displayName (clientHidden id) body oldClient in
       Ret (json_ok (JObj [("success", JBool true)]))
     end))
    (λ _, Ret (json_error 500 "上传失败")).
(** @worker/src/routes/client.ts:1186-1188 /report (the raw reports) *)
Definition raw_reports (body : fields) : list fields :=
  match fld body "reports" with
  | JArr l => omap isJsonObjectPayload (take AGENT_REPORT_MAX_BATCH l)
  | _ => [body]
  end.
(** @worker/src/routes/client.ts:1175-1217 /report *)
Definition report_route (id : identity) : agent response :=
  catch
    (with_body id "agent-report" AGENT_REPORT_RATE_LIMIT_MAX AGENT_REPORT_MAX_BODY_BYTES (λ parsed,
     match requireJsonObjectBody parsed with
     | Err r => Ret r
     | Ok body =>
       let uuid := clientUuid id in
       let! nowMs := clock in
       match last (raw_reports body) with
       | None => Ret (json_error 400 "上报数据不能为空")
       | Some raw =>
         let reports := map (λ item, normalizeMonitorReport (JObj item)) (raw_reports body) in
         let report := normalizeMonitorReport (JObj raw) in
         let liveName := js_or (clientName id) uuid in
         do! need_database in
         do! spawn (SyncIps req uuid liveName report (clientRecord id)) in
         do! syncBasicInfoFromReportBatch uuid liveName (clientHidden id) (clientRecord id) reports in
         let! persisted := updateLiveReport id liveName (clientHidden id) reports nowMs in
         do! (if truthy (fld report "version") && clientFieldChanged (fldo (clientRecord id) "version") (fld report "version")
              then spawn (VersionChange uuid (fld report "version")) else Ret tt) in
         Ret (json_ok (JObj [("success", JBool true); ("persisted", JBool persisted)]))
       end
     end))
    (λ _, Ret (json_error 500 "上报失败")).
(** @worker/src/routes/client.ts:1220-1245 /ping/tasks *)
Definition ping_tasks (id : identity) : agent response :=
  catch
    (do! need_database in
     let! allTasks := listAgentPingTasks in
     let tasks := List.filter (task_for (clientUuid id)) allTasks in
     let! unifiedPingIntervalSec := getUnifiedPingIntervalSec in
     let responseTasks := withUnifiedPingInterval tasks unifiedPingIntervalSec in
     let rows := JArr (map task_json responseTasks) in
     Ret (json_ok (if match rq_format req with Some f => jeq f "v2" | None => false end
                   then JObj [("tasks", rows); ("next_poll_sec", JNum (of_Z (estimateNextPingTaskPollSec responseTasks)))]
                   else rows)))
    (λ _, Ret (json_error 500 "获取失败")).
(** @worker/src/routes/client.ts:1275-1279 /ping/result (a forwarded result) *)
Definition result_json (tasks : list PingTaskRow) (r : ping_result) : jsval :=
  JObj [("task_id", JNum (of_Z (pr_task r))); ("value", JNum (pr_value r));
        ("interval_sec", js_or (match find_task (map assigned tasks) (pr_task r) with Some t => JNum (at_interval t) | None => JUndef end)
                               (JNum (of_Z 60)))].
(** @worker/src/routes/client.ts:1248-1302 /ping/result *)
Definition ping_result_route (id : identity) : agent response :=
  catch
    (with_body id "agent-ping-result" AGENT_PING_RESULT_RATE_LIMIT_MAX AGENT_PING_RESULT_MAX_BODY_BYTES (λ body,
     if negb (is_object body) && negb (isJsonObjectArray body) then Ret (json_error 400 "Ping 结果参数无效")
     else
       let uuid := clientUuid id in
       do! need_database in
       let! tasks := listAgentPingTasks in
       match validatePingResults body (map assigned tasks) (text_of uuid) with
       | Err (code, error) => Ret (json_error code error)
       | Ok results =>
         if negb (LIVE_DATA env) then Throw missing_binding
         else
           let! now := clock in
           let! r := live_fetch "ping-result" (JObj [
             ("client_id", uuid); ("results", JArr (map (result_json tasks) results)); ("timestamp", JNum (of_Z now))]) in
           if negb (rp_ok r) then Ret (json_error 500 "上报失败")
           else
             let! accepted := readAcceptedCount r in
             Ret (json_ok (JObj [("success", JBool true); ("accepted", JNum (default (of_Z 0) accepted))]))
       end))
    (λ error,
     do! catch (do! need_database in await (RecordHealth "ping_persistence" "error" error)) (λ _, Ret tt) in
     Ret (json_error 500 "上报失败")).

Inductive route := Register | Policy | UploadBasicInfo | ReportRoute | PingTasks | PingResult.
(** @worker/src/routes/client.ts:1075-1302 clientRoutes (the table) *)
Definition handle (r : route) : agent response :=
  match r with
  | Register => register
  | Policy => clientIdentityAuth policy
  | UploadBasicInfo => clientAuth uploadBasicInfo
  | ReportRoute => clientAuth report_route
  | PingTasks => clientIdentityAuth ping_tasks
  | PingResult => clientIdentityAuth ping_result_route
  end.
End Handlers.

(** What the tasks do; a task that throws is only logged. *)
Definition run_task (sha256 : list Z → list Z) (URL : jstr → option url) (t : task) : agent unit :=
  match t with
  | TokenUsed client ip => markTokenUsed sha256 client ip
  | SyncIps req uuid name report old => syncClientIpsFromReport URL req uuid name report old
  | IpChange name parts => recordIpChangeIfEnabled URL name parts
  | VersionChange uuid version =>
    let! _updated := await (UpdateClient uuid [("version", version)]) in
    let! _st := modify (λ st, invalidateAgentClientAuthCache (Some uuid) (invalidatePublicMetadataCache st)) in
    Ret tt
  end.
