(* ===== verification/RequestBody.v ===== *)
(** * Limited request bodies: [utils/request-body.ts]

    The reading of a body, chunk by chunk, as a program of any handler's type, and what a
    request carries. *)

From S2P Require Import Prelude JsStr JsNum JsVal JsList JsBytes Effects AgentHttp.
#[local] Open Scope Z_scope.

(** @worker/src/utils/request-body.ts:5-7 LimitedJsonResult *)
Inductive limited_json := Parsed (body : jsval) | TooLarge | InvalidJson.

(** The bytes a request carries, and the object they denote. *)
Definition sent_bytes (req : request) : option (list Z) :=
  match rq_body req with None => Some [] | Some (chunks, None) => Some (concat (omap id chunks)) | Some (_, Some _) => None end.
Definition sent_json (req : request) : option jsval :=
  match sent_bytes req with Some bytes => json_parse (utf8_decode bytes) | None => None end.
Definition sent_fields (req : request) : option fields :=
  match sent_json req with Some (JObj body) => Some body | _ => None end.

(** @worker/src/routes/admin.ts:208-208 MAX_ADMIN_JSON_BYTES *)
Definition MAX_ADMIN_JSON_BYTES : Z := 256 * 1024.
(** @worker/src/routes/admin.ts:272-274 isJsonObjectBody *)
Definition isJsonObjectBody (value : jsval) : option fields := isRecord value.

Section Bodies.
Context {call : Type} {ans : call → Type} {state task : Type}.
Abbreviation program := (prog call ans state task).

(** @worker/src/utils/request-body.ts:21-31 readRequestBytesWithLimit (chunks) -- [None]
    when they exceed the limit *)
Fixpoint read_chunks (maxBytes total : Z) (bytes : list Z) (chunks : list (option (list Z))) (error : option jstr) : program (option (list Z)) :=
  match chunks with
  | [] => Yield (match error with Some e => Throw e | None => Ret (Some bytes) end)
  | None :: rest => Yield (read_chunks maxBytes total bytes rest error)
  | Some chunk :: rest =>
    let total := total + Z.of_nat (length chunk) in
    Yield (if maxBytes <? total then Yield (Ret None) else read_chunks maxBytes total (bytes ++ chunk) rest error)
  end.
(** @worker/src/utils/request-body.ts:9-40 readRequestBytesWithLimit *)
Definition readRequestBytesWithLimit (req : request) (maxBytes : Z) : program (option (list Z)) :=
  let declaredLength := str_num (or_str (default "" (rq_length req)) "0") in
  if is_finite declaredLength && num_lt (of_Z maxBytes) declaredLength then Ret None
  else match rq_body req with
       | None => Ret (Some [])
       | Some (chunks, error) => read_chunks maxBytes 0 [] chunks error
       end.
(** @worker/src/utils/request-body.ts:42-50 readJsonWithLimit *)
Definition readJsonWithLimit (req : request) (maxBytes : Z) : program limited_json :=
  let! bytes := readRequestBytesWithLimit req maxBytes in
  Ret (match bytes with
       | None => TooLarge
       | Some bytes => match json_parse (utf8_decode bytes) with Some body => Parsed body | None => InvalidJson end
       end).

(** @worker/src/routes/admin.ts:303-321 readAdminJsonBody -- [accepts] is the type guard *)
Definition readAdminJsonBody {A} (req : request) (invalidJson invalidShape : jstr) (accepts : jsval → option A) (maxBytes : Z) : program (result response A) :=
  let! parsed := readJsonWithLimit req maxBytes in
  Ret (match parsed with
       | TooLarge => Err (json_error 413 ("请求内容不能超过 " +++ dec_Z maxBytes +++ " 字节"))
       | InvalidJson => Err (json_error 400 invalidJson)
       | Parsed body => match accepts body with Some a => Ok a | None => Err (json_error 400 invalidShape) end
       end).

(** ** Facts *)

(** Reading calls nothing, leaves nothing in the background and keeps the state. *)
Lemma read_chunks_obeys Inv P T maxBytes total bytes chunks error : obeys Inv P T (read_chunks maxBytes total bytes chunks error).
Proof.
  revert total bytes. induction chunks as [|[chunk|] chunks IH]; intros total bytes; cbn [read_chunks]; cbv zeta; cbn [obeys]; [by destruct error | | apply IH].
  destruct (maxBytes <? _); [exact I | apply IH].
Qed.
Lemma read_bytes_obeys Inv P T req maxBytes : obeys Inv P T (readRequestBytesWithLimit req maxBytes).
Proof.
  unfold readRequestBytesWithLimit. cbv zeta. destruct (_ && _); [exact I |]. destruct (rq_body req) as [[chunks error]|]; [apply read_chunks_obeys | exact I].
Qed.
Lemma read_json_obeys Inv P T req maxBytes : obeys Inv P T (readJsonWithLimit req maxBytes).
Proof. apply obeys_bind; [apply read_bytes_obeys | intros; exact I]. Qed.

(** What is read is what was sent. *)
Lemma read_chunks_wp Inv maxBytes total bytes chunks error h b (Q : post call ans task (option (list Z))) :
  (error = None → Q h b (Ok (Some (bytes ++ concat (omap id chunks))))) → Q h b (Ok None) → (∀ e, Q h b (Err e)) →
  wp Inv (read_chunks maxBytes total bytes chunks error) h b Q.
Proof.
  revert total bytes. induction chunks as [|[chunk|] chunks IH]; intros total bytes H1 H2 H3; cbn [read_chunks]; cbv zeta; cbn [wp].
  - destruct error; cbn [wp]; [done |]. specialize (H1 eq_refl). cbn in H1. by rewrite app_nil_r in H1.
  - destruct (maxBytes <? _); cbn [wp]; [done |]. apply IH; [| done | done]. intros He. rewrite <- (assoc_L (++)). exact (H1 He).
  - by apply IH.
Qed.
Lemma read_bytes_wp Inv req maxBytes h b (Q : post call ans task (option (list Z))) :
  (∀ bytes, sent_bytes req = Some bytes → Q h b (Ok (Some bytes))) → Q h b (Ok None) → (∀ e, Q h b (Err e)) →
  wp Inv (readRequestBytesWithLimit req maxBytes) h b Q.
Proof.
  unfold readRequestBytesWithLimit, sent_bytes. cbv zeta. intros H1 H2 H3. destruct (_ && _); [done |]. destruct (rq_body req) as [[chunks error]|].
  - apply read_chunks_wp; [intros ->; by apply H1 | done | done].
  - by apply H1.
Qed.
Lemma read_json_wp Inv req maxBytes h b (Q : post call ans task limited_json) :
  (∀ v, sent_json req = Some v → Q h b (Ok (Parsed v))) → Q h b (Ok TooLarge) → Q h b (Ok InvalidJson) → (∀ e, Q h b (Err e)) →
  wp Inv (readJsonWithLimit req maxBytes) h b Q.
Proof.
  intros H1 H2 H3 H4. apply wp_bind, read_bytes_wp; [| exact H2 | exact H4]. intros bytes Hb. cbn [wp]. unfold sent_json in H1. rewrite Hb in H1.
  destruct (json_parse _) as [v|]; [by apply H1 | done].
Qed.
End Bodies.

(** The members of an object that was parsed are distinct. *)
Lemma json_value_nodup fuel l fs t : json_value fuel l = Some (JObj fs, t) → NoDup (map fst fs).
Proof.
  assert (Hs : ∀ b : fields, NoDup (map fst (spread [] b))).
  { intros b. unfold spread. apply (fold_left_invariant (λ acc : fields, NoDup (map fst acc))); [constructor |]. intros acc p _. apply set_field_nodup. }
  destruct fuel as [|k]; [done |]. cbn [json_value]. intros H.
  repeat (match type of H with context [match ?x with _ => _ end] => destruct x eqn:? end; try done; simplify_eq); try done; constructor.
Qed.
Lemma sent_fields_nodup req body : sent_fields req = Some body → NoDup (map fst body).
Proof.
  unfold sent_fields, sent_json. destruct (sent_bytes req) as [bytes|]; [| done]. destruct (json_parse _) as [v|] eqn:E; [| done].
  destruct v; try done. intros [= ->]. unfold json_parse in E. destruct (json_value _ _) as [[v t]|] eqn:E'; [| done].
  destruct (bool_decide _); [| done]. injection E as ->. by eapply json_value_nodup.
Qed.
