(* ===== verification/Trace.v ===== *)
(** * What a handler does, in order

    The calls of a program with their answers, the times it reads, the headers it sets and
    the tasks it leaves, as one list; and the judgement of every run of a program by that
    list and its value, for the handlers whose headers and times matter. *)

From S2P Require Import Prelude JsStr JsNum JsVal JsList JsBytes Effects AgentHttp RequestBody.
#[local] Open Scope Z_scope.

Section Traces.
Context {call : Type} {ans : call → Type} {state task : Type}.
Abbreviation program := (prog call ans state task).
Abbreviation event := (event call ans).
Abbreviation env := (env call ans state).

Inductive item := Called (ev : event) | Told (t : Z) | Sent (h : jstr * jstr) | Left (t : task).
Fixpoint trace {A} (e : env) (n : nat) (s : state) (p : program A) : list item :=
  match p with
  | Ret _ | Throw _ => []
  | Act c k => Called (existT c (e_answer e n c)) :: trace e (S n) (e_others e n s) (k (e_answer e n c))
  | Yield k => trace e (S n) (e_others e n s) k
  | Local u k => trace e n (u s) (k s)
  | Clock k => Told (e_clock e n) :: trace e (S n) s (k (e_clock e n))
  | Header h k => Sent h :: trace e n s k
  | Spawn t k => Left t :: trace e n s k
  end.
(** The parts of a trace. *)
Definition called (l : list item) : list event := omap (λ i, match i with Called ev => Some ev | _ => None end) l.
Definition told (l : list item) : list Z := omap (λ i, match i with Told t => Some t | _ => None end) l.
Definition sent (l : list item) : list (jstr * jstr) := omap (λ i, match i with Sent h => Some h | _ => None end) l.
Definition left_over (l : list item) : list task := omap (λ i, match i with Left t => Some t | _ => None end) l.

Lemma called_app l l' : called (l ++ l') = called l ++ called l'.
Proof. apply omap_app. Qed.
Lemma told_app l l' : told (l ++ l') = told l ++ told l'.
Proof. apply omap_app. Qed.
Lemma sent_app l l' : sent (l ++ l') = sent l ++ sent l'.
Proof. apply omap_app. Qed.
Lemma trace_log {A} e n s (p : program A) : called (trace e n s p) = r_log (exec e n s p).
Proof. revert n s. induction p as [a|x|c k IH|k IH|u k IH|k IH|hd k IH|t k IH]; intros n s; cbn; auto. by rewrite <- IH. Qed.
Lemma trace_headers {A} e n s (p : program A) : sent (trace e n s p) = r_headers (exec e n s p).
Proof. revert n s. induction p as [a|x|c k IH|k IH|u k IH|k IH|hd k IH|t k IH]; intros n s; cbn; auto. by rewrite <- IH. Qed.
Lemma trace_tasks {A} e n s (p : program A) : left_over (trace e n s p) = r_tasks (exec e n s p).
Proof. revert n s. induction p as [a|x|c k IH|k IH|u k IH|k IH|hd k IH|t k IH]; intros n s; cbn; auto. by rewrite <- IH. Qed.
(** Under a clock that does not go back, later readings are later. *)
Lemma trace_clock {A} e n s (p : program A) :
  (∀ i j, (i ≤ j)%nat → e_clock e i ≤ e_clock e j) →
  StronglySorted Z.le (told (trace e n s p)) ∧ Forall (λ t, e_clock e n ≤ t) (told (trace e n s p)).
Proof.
  intros Hc. revert n s. induction p as [a|x|c k IH|k IH|u k IH|k IH|hd k IH|t k IH]; intros n s; cbn; auto using SSorted_nil.
  - destruct (IH (e_answer e n c) (S n) (e_others e n s)) as [H1 H2]. split; [done |]. eapply Forall_impl; [exact H2 |]. intros t Ht. cbn in Ht. specialize (Hc n (S n)). lia.
  - destruct (IH (S n) (e_others e n s)) as [H1 H2]. split; [done |]. eapply Forall_impl; [exact H2 |]. intros t Ht. cbn in Ht. specialize (Hc n (S n)). lia.
  - destruct (IH (e_clock e n) (S n) s) as [H1 H2].
    assert (Hle : Forall (λ t, e_clock e n ≤ t) (told (trace e (S n) s (k (e_clock e n))))).
    { eapply Forall_impl; [exact H2 |]. intros t Ht. cbn in Ht. specialize (Hc n (S n)). lia. }
    split; [by constructor | by apply Forall_cons].
Qed.

(** ** Every run of a program

    [Q] holds of the trace and the value, whatever the environment and the shared state. *)
Fixpoint traced {A} (p : program A) (h : list item) (Q : list item → result jstr A → Prop) : Prop :=
  match p with
  | Ret a => Q h (Ok a)
  | Throw x => Q h (Err x)
  | Act c k => ∀ x, traced (k x) (h ++ [Called (existT c x)]) Q
  | Yield k => traced k h Q
  | Local u k => ∀ s, traced (k s) h Q
  | Clock k => ∀ t, traced (k t) (h ++ [Told t]) Q
  | Header x k => traced k (h ++ [Sent x]) Q
  | Spawn t k => traced k (h ++ [Left t]) Q
  end.
Lemma traced_sound {A} (p : program A) h (Q : list item → result jstr A → Prop) e n s :
  traced p h Q → Q (h ++ trace e n s p) (r_value (exec e n s p)).
Proof.
  revert h n s. induction p as [a|x|c k IH|k IH|u k IH|k IH|hd k IH|t k IH]; intros h n s Hp; cbn [traced exec trace r_value add_event add_header add_task stop] in *;
    rewrite ?app_nil_r; auto.
  - specialize (IH _ _ (S n) (e_others e n s) (Hp (e_answer e n c))). by rewrite <- (assoc_L (++)) in IH.
  - specialize (IH _ _ (S n) s (Hp (e_clock e n))). by rewrite <- (assoc_L (++)) in IH.
  - specialize (IH _ n s Hp). by rewrite <- (assoc_L (++)) in IH.
  - specialize (IH _ n s Hp). by rewrite <- (assoc_L (++)) in IH.
Qed.
Lemma traced_mono {A} (p : program A) h (Q R : list item → result jstr A → Prop) : (∀ h r, Q h r → R h r) → traced p h Q → traced p h R.
Proof. intros HQR. revert h. induction p as [a|x|c k IH|k IH|u k IH|k IH|hd k IH|t k IH]; intros h; cbn [traced]; auto. Qed.
Lemma traced_bind {A B} (p : program A) (f : A → program B) h (Q : list item → result jstr B → Prop) :
  traced p h (λ h r, match r with Ok a => traced (f a) h Q | Err e => Q h (Err e) end) → traced (bind p f) h Q.
Proof. revert h. induction p as [a|x|c k IH|k IH|u k IH|k IH|hd k IH|t k IH]; intros h; cbn [traced bind]; auto. Qed.
Lemma traced_catch {A} (p : program A) (g : jstr → program A) h (Q : list item → result jstr A → Prop) :
  traced p h (λ h r, match r with Ok a => Q h (Ok a) | Err e => traced (g e) h Q end) → traced (catch p g) h Q.
Proof. revert h. induction p as [a|x|c k IH|k IH|u k IH|k IH|hd k IH|t k IH]; intros h; cbn [traced catch]; auto. Qed.
Lemma traced_act c h (Q : list item → result jstr (ans c) → Prop) :
  (∀ a, Q (h ++ [Called (existT c (Ok a))]) (Ok a)) → (∀ e, Q (h ++ [Called (existT c (Err e))]) (Err e)) → traced (act c) h Q.
Proof. intros H1 H2. cbn [traced act]. intros [a|e]; cbn [traced]; auto. Qed.

(** Every item a program can add satisfies [N]. *)
Context (N : item → Prop).
Fixpoint emits {A} (p : program A) : Prop :=
  match p with
  | Ret _ | Throw _ => True
  | Act c k => ∀ x, N (Called (existT c x)) ∧ emits (k x)
  | Yield k => emits k
  | Local u k => ∀ s, emits (k s)
  | Clock k => ∀ t, N (Told t) ∧ emits (k t)
  | Header h k => N (Sent h) ∧ emits k
  | Spawn t k => N (Left t) ∧ emits k
  end.
Lemma emits_bind {A B} (p : program A) (f : A → program B) : emits p → (∀ a, emits (f a)) → emits (bind p f).
Proof. intros Hp Hf. induction p as [a|x|c k IH|k IH|u k IH|k IH|hd k IH|t k IH]; cbn [emits bind] in *; naive_solver. Qed.
Lemma emits_catch {A} (p : program A) (g : jstr → program A) : emits p → (∀ e, emits (g e)) → emits (catch p g).
Proof. intros Hp Hf. induction p as [a|x|c k IH|k IH|u k IH|k IH|hd k IH|t k IH]; cbn [emits catch] in *; naive_solver. Qed.
Lemma emits_act c : (∀ x, N (Called (existT c x))) → emits (act c).
Proof. intros Hc x. split; [apply Hc | by destruct x]. Qed.
Lemma emits_traced {A} (p : program A) h (Q : list item → result jstr A → Prop) :
  emits p → (∀ l r, Forall N l → Q (h ++ l) r) → traced p h Q.
Proof.
  revert h. induction p as [a|x|c k IH|k IH|u k IH|k IH|hd k IH|t k IH]; intros h Hp HQ; cbn [emits traced] in *.
  - generalize (HQ [] (Ok a) (Forall_nil_2 _)). by rewrite app_nil_r.
  - generalize (HQ [] (Err x) (Forall_nil_2 _)). by rewrite app_nil_r.
  - intros x. destruct (Hp x) as [Hx Hk]. apply IH; [done |]. intros l r Hl. rewrite <- (assoc_L (++)). apply HQ. by apply Forall_cons.
  - by apply IH.
  - intros s. by apply IH.
  - intros t. destruct (Hp t) as [Hx Hk]. apply IH; [done |]. intros l r Hl. rewrite <- (assoc_L (++)). apply HQ. by apply Forall_cons.
  - destruct Hp as [Hx Hk]. apply IH; [done |]. intros l r Hl. rewrite <- (assoc_L (++)). apply HQ. by apply Forall_cons.
  - destruct Hp as [Hx Hk]. apply IH; [done |]. intros l r Hl. rewrite <- (assoc_L (++)). apply HQ. by apply Forall_cons.
Qed.

(** Reading a body leaves no trace. *)
Lemma read_json_traced req maxBytes h (Q : list item → result jstr limited_json → Prop) :
  (∀ v, sent_json req = Some v → Q h (Ok (Parsed v))) → Q h (Ok TooLarge) → Q h (Ok InvalidJson) → (∀ e, Q h (Err e)) →
  traced (readJsonWithLimit req maxBytes) h Q.
Proof.
  intros H1 H2 H3 H4. apply traced_bind. unfold readRequestBytesWithLimit, sent_json, sent_bytes in *. cbv zeta.
  destruct (_ && _); [exact H2 |]. destruct (rq_body req) as [[chunks error]|]; cbn [traced] in *; [| destruct (json_parse _); auto].
  assert (Hg : ∀ bytes total cs, (error = None → concat (omap id chunks) = bytes ++ concat (omap id cs)) →
    traced (read_chunks (call := call) (ans := ans) (state := state) (task := task) maxBytes total bytes cs error) h
      (λ h r, match r with Ok a => traced (Ret match a with None => TooLarge | Some bytes => match json_parse (utf8_decode bytes) with Some body => Parsed body | None => InvalidJson end end) h Q
                         | Err e => Q h (Err e) end)).
  { intros bytes total cs. revert bytes total. induction cs as [|[c|] cs IH]; intros bytes total Hb; cbn [read_chunks]; cbv zeta; cbn [traced].
    - destruct error; cbn [traced]; [done |]. specialize (Hb eq_refl). cbn in Hb. rewrite app_nil_r in Hb. subst bytes. destruct (json_parse _); auto.
    - destruct (maxBytes <? _); cbn [traced]; [done |]. apply IH. intros He. rewrite (Hb He). cbn. by rewrite (assoc_L (++)).
    - by apply IH. }
  by apply Hg.
Qed.
End Traces.
#[global] Arguments item call ans task : clear implicits.
