(* ===== verification/Access.v ===== *)
(** * Signing in: what the login and account routes share

    The calls, the module state and the tasks of the authentication parts of
    [routes/public.ts], with [auth/password-service.ts], [db/auth-confirmation.ts],
    [auth/mfa-factor.ts] and the cookies of [auth/session.ts]: limits on failed logins,
    their audit, the edge cache of sessions and the confirmation of a second factor.
    Cookies are headers with their name; their attributes are left out. *)

From S2P Require Import Prelude JsStr JsNum JsVal JsList JsBytes JsDate Net Effects AgentHttp RequestBody.
From S2P Require Admin Totp Mfa Password Webhook.
#[local] Open Scope Z_scope.

(** @worker/src/routes/public.ts:37-42 LOGIN_RATE_LIMIT_CLEANUP_AGE_MS (constants) *)
Definition LOGIN_RATE_LIMIT_CLEANUP_AGE_MS : Z := 24 * 60 * 60 * 1000.
Definition LOGIN_RATE_LIMIT_CLEANUP_INTERVAL_MS : Z := 10 * 60 * 1000.
Definition LOGIN_FAILURE_AUDIT_THROTTLE_MS : Z := 60 * 1000.
Definition LOGIN_FAILURE_AUDIT_THROTTLE_MAX_ENTRIES : nat := 512.
Definition MAX_LOGIN_USERNAME_LENGTH : nat := 128.
Definition MAX_LOGIN_PASSWORD_LENGTH : Z := 4096.
(** @worker/src/routes/public.ts:43-45 MAX_MFA_CHALLENGE_LENGTH (constants) *)
Definition MAX_MFA_CHALLENGE_LENGTH : Z := 4096.
Definition MAX_MFA_CODE_LENGTH : Z := 128.
Definition MAX_PUBLIC_JSON_BYTES : Z := 8 * 1024.
(** @worker/src/routes/public.ts:48-52 PUBLIC_RATE_LIMIT_WINDOW_MS (constants) *)
Definition PUBLIC_RATE_LIMIT_WINDOW_MS : Z := 60 * 1000.
Definition PUBLIC_ADMIN_RECOVERY_RATE_LIMIT_MAX : Z := 5.
(** @worker/src/routes/public.ts:64-66 DUMMY_ADMIN_PASSWORD_HASH (constants) *)
Definition DUMMY_ADMIN_PASSWORD_HASH : jstr := "pbkdf2_sha256$100000$AAAAAAAAAAAAAAAAAAAAAA==$AAAAAAAAAAAAAAAAAAAAAAAAAAAAAAAAAAAAAAAAAAA=".
Definition MAX_ADMIN_RECOVERY_KEY_LENGTH : Z := 8192.
Definition MAX_ADMIN_RECOVERY_USERNAME_BYTES : Z := 64.
(** @worker/src/auth/session.ts:4-6 ADMIN_SESSION_COOKIE (names) *)
Definition ADMIN_SESSION_COOKIE : jstr := "cf_monitor_session".
Definition ADMIN_CSRF_COOKIE : jstr := "cf_monitor_csrf".
Definition MFA_STEP_UP_COOKIE : jstr := "cf_monitor_mfa_stepup".

(** ** Calls, state and tasks *)

(** @worker/src/db/types.ts:150-162 User *)
Record user_row := { ur_user : Admin.user; ur_passwd : jstr; ur_recovery : option (list jstr) }.
Definition user_uuid (u : user_row) : jstr := Admin.uuid (ur_user u).
Definition user_name (u : user_row) : jstr := Admin.username (ur_user u).
Definition user_version (u : user_row) : Z := Admin.session_version (ur_user u).
Definition user_identity (u : user_row) : Admin.identity :=
  {| Admin.userId := user_uuid u; Admin.id_username := user_name u; Admin.sessionVersion := user_version u |}.
(** [user.totp_enabled_at && user.totp_secret_enc] *)
Definition has_factor (u : user_row) : bool := Admin.present (Admin.totp_enabled_at (ur_user u)) && Admin.present (Admin.totp_secret_enc (ur_user u)).
(** @worker/src/db/types.ts:164-171 LoginRateLimit *)
Record LoginRateLimit := {
  lr_bucket : jstr; lr_failure_revision : jstr; lr_failures : Z; lr_first_failed_at : jstr; lr_last_failed_at : jstr; lr_locked_until : option jstr;
}.
(** The stored procedures of the user and login tables. *)
Inductive user_call :=
| GetUserByUsername (username : jstr)
| GetUserByUuid (uuid : jstr)
| CountUsers
| GetLoginRateLimits (buckets : list jstr)
| RecordLoginFailures (buckets : list jstr) (failedAt : jstr)
| ClearObservedLoginRateLimits (states : list LoginRateLimit)
| DeleteLoginRateLimitsBefore (time : jstr)
| AuditLogEntry (user action detail level : jstr)
| ConsumeMfaFactor (a : Mfa.consume_args)
| ReencryptTotpSecret (uuid expected next : jstr)
| RehashUserPassword (uuid expected next : jstr)
| ValidateAdminSession (userId : jstr) (version : Z)
| RotateUserSession (uuid : jstr)
| UpdateUsernameAndRotate (uuid username : jstr)
| UpdatePasswordAndRotate (uuid hash : jstr)
| EnableUserTotp (uuid secret : jstr) (hashes : list jstr) (step : Z)
| ReplaceRecoveryCodes (uuid : jstr) (hashes : list jstr)
| DisableUserTotp (uuid : jstr)
| CreateInitialAdmin (uuid username hash : jstr)
| RecoverSingleAdmin (uuid username hash : jstr).
Definition user_ans (c : user_call) : Type :=
  match c with
  | GetUserByUsername _ | GetUserByUuid _ | RotateUserSession _ | UpdateUsernameAndRotate _ _ | UpdatePasswordAndRotate _ _
  | EnableUserTotp _ _ _ _ | ReplaceRecoveryCodes _ _ | DisableUserTotp _ => option user_row
  | CountUsers => Z
  | GetLoginRateLimits _ => list LoginRateLimit
  | ConsumeMfaFactor _ | ReencryptTotpSecret _ _ _ | RehashUserPassword _ _ _ => jsval
  | ValidateAdminSession _ _ => option Admin.session_user
  | CreateInitialAdmin _ _ _ => bool
  | RecoverSingleAdmin _ _ _ => user_row
  | _ => unit
  end.
(** The password objects are called by name; the edge cache of sessions is keyed by the
    user and the version of the session. *)
Inductive access_call :=
| User (c : user_call)
| HashPassword (account password : jstr)
| VerifyPassword (account password hash : jstr)
| LimitFetch (body : jsval)
| SessionMatch (userId : jstr) (version : Z)
| SessionPut (userId : jstr) (version : Z)
| SessionDelete (userId : jstr) (version : Z).
Definition access_ans (c : access_call) : Type :=
  match c with
  | User c => user_ans c
  | HashPassword _ _ | VerifyPassword _ _ _ => jsval
  | LimitFetch _ => reply
  | SessionMatch _ _ | SessionDelete _ _ => bool
  | SessionPut _ _ => unit
  end.
(** @worker/src/routes/public.ts:98-99 lastLoginRateLimitCleanupAt (module state) -- with
    the buckets of lines 76-77 and the session cache of [auth/admin-session.ts] *)
Record access_state := {
  lastLoginRateLimitCleanupAt : Z;
  loginFailureAuditThrottle : list (jstr * Z);
  publicRateLimitBuckets : list (jstr * (Z * Z * Z));
  publicRateLimitSweepCounter : Z;
  adminSessionCache : Admin.session_cache;
}.
Definition with_cleanup v st := {| lastLoginRateLimitCleanupAt := v; loginFailureAuditThrottle := loginFailureAuditThrottle st;
  publicRateLimitBuckets := publicRateLimitBuckets st; publicRateLimitSweepCounter := publicRateLimitSweepCounter st; adminSessionCache := adminSessionCache st |}.
Definition with_throttle v st := {| lastLoginRateLimitCleanupAt := lastLoginRateLimitCleanupAt st; loginFailureAuditThrottle := v;
  publicRateLimitBuckets := publicRateLimitBuckets st; publicRateLimitSweepCounter := publicRateLimitSweepCounter st; adminSessionCache := adminSessionCache st |}.
Definition with_buckets n v st := {| lastLoginRateLimitCleanupAt := lastLoginRateLimitCleanupAt st; loginFailureAuditThrottle := loginFailureAuditThrottle st;
  publicRateLimitBuckets := v; publicRateLimitSweepCounter := n; adminSessionCache := adminSessionCache st |}.
Definition with_sessions v st := {| lastLoginRateLimitCleanupAt := lastLoginRateLimitCleanupAt st; loginFailureAuditThrottle := loginFailureAuditThrottle st;
  publicRateLimitBuckets := publicRateLimitBuckets st; publicRateLimitSweepCounter := publicRateLimitSweepCounter st; adminSessionCache := v |}.
Inductive access_task :=
| CleanupLoginRateLimits (nowMs : Z)
| Rehash (uuid password passwd : jstr)
| ClearFailures (states : list LoginRateLimit)
| AuditTask (user action detail level : jstr)
| PutSession (userId : jstr) (version : Z).
Abbreviation access := (prog access_call access_ans access_state access_task).
Definition user_call_of (c : user_call) : access (user_ans c) := act (User c : access_call).
Definition updated (u : access_state → access_state) : access unit := Local u (λ _, Ret tt).

(** The configuration, and a request with its cookies; the administrator is the one the
    gate let in, for the account routes. *)
Record access_env := {
  xe_secrets : Mfa.mfa_env; xe_caches : bool; xe_rate_limit : bool; xe_database : option jstr; xe_service_key : jstr;
}.
Record access_request := {
  xq_base : request; xq_head : bool; xq_session : option jstr; xq_csrf_cookie : option jstr; xq_csrf_header : option jstr;
  xq_userId : jstr; xq_username : jstr;
}.

(** ** Limits on failed logins *)

(** @worker/src/routes/public.ts:767-769 normalizeLoginUsername *)
Definition normalizeLoginUsername (username : jstr) : jstr := slice_to MAX_LOGIN_USERNAME_LENGTH (lower (trim username)).
(** @worker/src/routes/public.ts:807-813 loginRateLimitBuckets *)
Definition loginRateLimitBuckets (ip username : jstr) : list jstr :=
  ["login:ip:" +++ ip; "login:ip-user:" +++ ip +++ ":" +++ normalizeLoginUsername username].
(** @worker/src/routes/public.ts:917-922 mfaRateLimitBuckets *)
Definition mfaRateLimitBuckets (ip userId : jstr) : list jstr := ["mfa:ip:" +++ ip; "mfa:ip-user:" +++ ip +++ ":" +++ userId].
(** @worker/src/routes/public.ts:821-821 LoginRateLimitStateByBucket *)
Definition limit_states := list (jstr * option LoginRateLimit).

Section Access.
Context (date_parse : jstr → option Z) (env : access_env) (rq : access_request).

Definition need_database : access unit := match xe_database env with Some e => Throw e | None => Ret tt end.
Definition clientIp : jstr := getCloudflareClientIp (rq_ip (xq_base rq)) "unknown".
(** @worker/src/routes/public.ts:815-819 parseTimeMs *)
Definition parseTimeMs (value : option jstr) : Z :=
  match value with Some s => if nonempty s then default 0 (date_parse s) else 0 | None => 0 end.
(** @worker/src/routes/public.ts:827-832 loadLoginRateLimitStates (the map) -- a later row
    of a bucket replaces an earlier one *)
Definition states_of (buckets : list jstr) (loaded : list LoginRateLimit) : limit_states :=
  let rows := fold_left (λ m row, set_field (lr_bucket row) row m) loaded [] in
  fold_left (λ m bucket, set_field bucket (lookup_field bucket rows) m) buckets [].
(** @worker/src/routes/public.ts:823-833 loadLoginRateLimitStates *)
Definition loadLoginRateLimitStates (buckets : list jstr) : access limit_states :=
  let! loaded := user_call_of (GetLoginRateLimits buckets) in Ret (states_of buckets loaded).
(** @worker/src/routes/public.ts:835-845 getLoginRetryAfterSeconds *)
Definition getLoginRetryAfterSeconds (states : limit_states) (nowMs : Z) : Z :=
  let lockedUntilMs := fold_left (λ locked s, Z.max locked (parseTimeMs (match s.2 with Some row => lr_locked_until row | None => None end))) states 0 in
  if lockedUntilMs <=? nowMs then 0 else - ((nowMs - lockedUntilMs) / 1000).
(** @worker/src/routes/public.ts:847-854 recordLoginFailure *)
Definition recordLoginFailure (buckets : list jstr) (nowMs : Z) : access unit := user_call_of (RecordLoginFailures buckets (iso_string nowMs)).
(** @worker/src/routes/public.ts:861-865 clearLoginFailures (observed states) *)
Definition observed (buckets : list jstr) (states : limit_states) : list LoginRateLimit :=
  omap (λ bucket, default None (lookup_field bucket states)) (Mfa.dedup [] buckets).
(** @worker/src/routes/public.ts:856-867 clearLoginFailures -- with the call that is left
    out for no states ([db/queries.ts], lines 242-245) *)
Definition clearLoginFailures (buckets : list jstr) (states : limit_states) : access unit :=
  match observed buckets states with [] => Ret tt | rows => user_call_of (ClearObservedLoginRateLimits rows) end.

(** ** The audit of failed logins *)

(** @worker/src/routes/public.ts:942-944 loginFailureAuditThrottleKey *)
Definition loginFailureAuditThrottleKey (username ip reason : jstr) : jstr := reason +++ ":" +++ ip +++ ":" +++ normalizeLoginUsername username.
(** @worker/src/routes/public.ts:962-967 auditLoginFailure (eviction) *)
Fixpoint evict_failures (nowMs : Z) (scan m : list (jstr * Z)) : list (jstr * Z) :=
  match scan with
  | [] => m
  | (k, expiresAt) :: r =>
    let m := if (expiresAt <=? nowMs) || (LOGIN_FAILURE_AUDIT_THROTTLE_MAX_ENTRIES <=? length m)%nat then del_field k m else m in
    if (length m <? LOGIN_FAILURE_AUDIT_THROTTLE_MAX_ENTRIES)%nat then m else evict_failures nowMs r m
  end.
(** @worker/src/routes/public.ts:957-972 auditLoginFailure (throttle) -- whether the failure is
    written, and the throttle after it *)
Definition throttle_failure (key : jstr) (nowMs : Z) (m : list (jstr * Z)) : bool * list (jstr * Z) :=
  if match lookup_field key m with Some expiresAt => nowMs <? expiresAt | None => false end then (false, m)
  else
    let m := if (LOGIN_FAILURE_AUDIT_THROTTLE_MAX_ENTRIES <=? length m)%nat then evict_failures nowMs m m else m in
    (true, set_field key (nowMs + LOGIN_FAILURE_AUDIT_THROTTLE_MS) m).
(** @worker/src/routes/public.ts:950-984 auditLoginFailure *)
Definition auditLoginFailure (username ip reason : jstr) (nowMs : Z) : access unit :=
  let key := loginFailureAuditThrottleKey username ip reason in
  let! st := Local (λ st, with_throttle (throttle_failure key nowMs (loginFailureAuditThrottle st)).2 st) Ret in
  if (throttle_failure key nowMs (loginFailureAuditThrottle st)).1 then
    let shown := slice_to MAX_LOGIN_USERNAME_LENGTH username in
    user_call_of (AuditLogEntry (or_str shown "anonymous") "login_failed"
      (json (JObj [("username", JStr shown); ("ip", JStr ip); ("reason", JStr reason)])) "warn")
  else Ret tt.

(** ** Passwords: [auth/password-service.ts] *)

Definition unavailable : jstr := "Password service unavailable".
(** @worker/src/auth/password-service.ts:3-8 passwordStub *)
Definition passwordStub (account : jstr) : access unit :=
  if negb (nonempty account) || (256 <? slen account) then Throw "Invalid password account" else Ret tt.
(** @worker/src/auth/password-service.ts:10-19 hashAdminPassword *)
Definition hashAdminPassword (account password : jstr) : access jstr :=
  catch (do! passwordStub account in
         let! hash := act (HashPassword account password : access_call) in
         match hash with
         | JStr h => if negb (nonempty h) || (1024 <? slen h) then Throw "Invalid password RPC result" else Ret h
         | _ => Throw "Invalid password RPC result"
         end)
        (λ _, Throw unavailable).
(** @worker/src/auth/password-service.ts:21-29 verifyAdminPassword *)
Definition verifyAdminPassword (account password hash : jstr) : access bool :=
  catch (do! passwordStub account in
         let! valid := act (VerifyPassword account password hash : access_call) in
         match valid with JBool b => Ret b | _ => Throw "Invalid password RPC result" end)
        (λ _, Throw unavailable).

(** ** Sessions and cookies *)

Definition set_cookie (name value : jstr) : access unit := header ("Set-Cookie " +++ name) value.
Definition delete_cookie (name : jstr) : access unit := header ("Delete-Cookie " +++ name) "".
(** @worker/src/auth/session.ts:15-17 getAdminSessionToken *)
Definition getAdminSessionToken : option jstr := xq_session rq.
(** @worker/src/auth/session.ts:19-27 setAdminSessionCookie *)
Definition setAdminSessionCookie (token : jstr) : access unit := set_cookie ADMIN_SESSION_COOKIE token.
(** @worker/src/auth/session.ts:79-87 setMfaStepUpCookie *)
Definition setMfaStepUpCookie (token : jstr) : access unit := set_cookie MFA_STEP_UP_COOKIE token.
(** @worker/src/auth/session.ts:89-93 clearMfaStepUpCookie *)
Definition clearMfaStepUpCookie : access unit := delete_cookie MFA_STEP_UP_COOKIE.
(** @worker/src/auth/session.ts:94-102 clearAdminSessionCookie *)
Definition clearAdminSessionCookie : access unit :=
  do! clearMfaStepUpCookie in do! delete_cookie ADMIN_SESSION_COOKIE in delete_cookie ADMIN_CSRF_COOKIE.
(** @worker/src/routes/public.ts:122-129 getAdminSessionEdgeCache *)
Definition getAdminSessionEdgeCache (userId : jstr) (version : Z) : access bool :=
  if xe_caches env then catch (act (SessionMatch userId version : access_call)) (λ _, Ret false) else Yield (Ret false).
(** @worker/src/routes/public.ts:131-138 putAdminSessionEdgeCache *)
Definition putAdminSessionEdgeCache (userId : jstr) (version : Z) : access unit :=
  if xe_caches env then spawn (PutSession userId version) else Ret tt.
(** @worker/src/routes/public.ts:140-153 deleteAdminSessionEdgeCache *)
Definition deleteAdminSessionEdgeCache (userId : jstr) (version : Z) : access unit :=
  if xe_caches env then catch (let! _ := act (SessionDelete userId version : access_call) in Ret tt) (λ _, Ret tt) else Yield (Ret tt).
Definition forget_sessions (userId : jstr) : access unit :=
  updated (λ st, with_sessions (Admin.invalidateAdminSessionCache (Some userId) (adminSessionCache st)) st).
(** [validateAdminSession(database, payload)]: the cache, or the stored procedure and what
    [Admin.readAdminSession] makes of its answer *)
Definition validate_session (i : Admin.identity) : access (option Admin.session_user) :=
  let key := Admin.cacheKey i in
  let! now := clock in
  let! st := get in
  match lookup_field key (adminSessionCache st) with
  | Some (u, expiresAt) =>
    if now <? expiresAt then Ret (Some u)
    else let! answer := user_call_of (ValidateAdminSession (Admin.userId i) (Admin.sessionVersion i)) in
         let! later := clock in
         let! st := Local (λ st, with_sessions (Admin.readAdminSession (λ _, None) (Some (λ _ _, answer)) i key true later (adminSessionCache st)).2 st) Ret in
         Ret (Admin.readAdminSession (λ _, None) (Some (λ _ _, answer)) i key true later (adminSessionCache st)).1
  | None =>
    let! answer := user_call_of (ValidateAdminSession (Admin.userId i) (Admin.sessionVersion i)) in
    let! later := clock in
    let! st := Local (λ st, with_sessions (Admin.readAdminSession (λ _, None) (Some (λ _ _, answer)) i key true later (adminSessionCache st)).2 st) Ret in
    Ret (Admin.readAdminSession (λ _, None) (Some (λ _ _, answer)) i key true later (adminSessionCache st)).1
  end.
Definition jwt_misconfigured : response := json_error 500 "服务端 JWT_SECRET 未正确配置".
Definition coded (code : Z) (name error : jstr) : response := {| status := code; content := JObj [("code", JStr name); ("error", JStr error)] |}.
End Access.
