(* ===== verification/Login.v ===== *)
(** * Signing in: [routes/public.ts]

    The login, its second step, the logout, the description of the session and the recovery
    of the only administrator.  Timings of the calls, and their header, are left out; the
    random values of a request are parameters. *)

From S2P Require Import Prelude JsStr JsNum JsVal JsList JsBytes JsDate Net Effects AgentHttp RequestBody Access.
From S2P Require Admin Totp Mfa Password Webhook.
#[local] Open Scope Z_scope.

(** What the confirmation of a factor throws: by its class. *)
Inductive factor_failure := Jwt_misconfigured | Mfa_misconfigured | Unavailable.
(** @worker/src/routes/public.ts:785-788 readRecoverySecretKey *)
Definition readRecoverySecretKey (body : fields) : jstr :=
  let or_null v k := match v with JUndef | JNull => fld body k | v => v end in
  match or_null (or_null (fld body "supabase_secret_key") "supabase_service_role_key") "service_role_key" with JStr s => trim s | _ => "" end.
(** @worker/src/routes/public.ts:790-792 readRecoveryUsername *)
Definition readRecoveryUsername (body : fields) : jstr := trim (text_of (fld body "username")).
(** @worker/src/routes/public.ts:794-796 readRecoveryPassword *)
Definition readRecoveryPassword (body : fields) : jstr := text_of (fld body "password").
(** @worker/src/routes/public.ts:798-805 validateRecoveryUsername *)
Definition validateRecoveryUsername (username : jstr) : option jstr :=
  if negb (nonempty username) then Some "用户名不能为空"
  else if MAX_ADMIN_RECOVERY_USERNAME_BYTES <? byte_length username then Some ("用户名不能超过 " +++ dec_Z MAX_ADMIN_RECOVERY_USERNAME_BYTES +++ " 字节")
  else if existsb (λ u, (u <? 32)%N || (u =? 127)%N) (units username) then Some "用户名包含无效字符" else None.
(** @worker/src/routes/public.ts:383-389 cleanupPublicRateLimitBuckets *)
Definition cleanupPublicRateLimitBuckets (nowMs : Z) (buckets : list (jstr * (Z * Z * Z))) : list (jstr * (Z * Z * Z)) :=
  List.filter (λ e, let '(_, resetAt, lastSeenAt) := e.2 in
    negb ((resetAt <=? nowMs) || (PUBLIC_RATE_LIMIT_WINDOW_MS * 5 <? nowMs - lastSeenAt))) buckets.
(** @worker/src/routes/public.ts:641-659 localPublicApiRateLimit (sweep and count) -- the
    bucket after the request, the counter of sweeps and the buckets *)
Definition hit_public (nowMs : Z) (key : jstr) (counter : Z) (all : list (jstr * (Z * Z * Z))) : (Z * Z) * Z * list (jstr * (Z * Z * Z)) :=
  let counter := counter + 1 in
  let buckets := if counter mod 256 =? 0 then cleanupPublicRateLimitBuckets nowMs all else all in
  let '(count, resetAt) := match lookup_field key buckets with
                           | Some (count, resetAt, _) => if resetAt <=? nowMs then (0, nowMs + PUBLIC_RATE_LIMIT_WINDOW_MS) else (count, resetAt)
                           | None => (0, nowMs + PUBLIC_RATE_LIMIT_WINDOW_MS)
                           end in
  ((count + 1, resetAt), counter, set_field key (count + 1, resetAt, nowMs) buckets).

Section Login.
Context `{Admin.Jwt, Mfa.MfaCrypto}.
Context (hmacSha1 : list Z → list Z → list Z) (date_parse : jstr → option Z) (env : access_env) (rq : access_request).
Context (iv csrf_random : list Z) (randomUUID : jstr).

Abbreviation JWT := (Mfa.JWT_SECRET (xe_secrets env)).

(** @worker/src/routes/public.ts:159-172 readPublicJsonObject *)
Definition readPublicJsonObject : access (response + fields) :=
  let! parsed := readJsonWithLimit (xq_base rq) MAX_PUBLIC_JSON_BYTES in
  Ret (match parsed with
       | TooLarge => inl (json_error 413 ("请求内容不能超过 " +++ dec_Z MAX_PUBLIC_JSON_BYTES +++ " 字节"))
       | InvalidJson => inl (json_error 400 "请求格式错误")
       | Parsed body => match isJsonObjectPayload body with Some body => inr body | None => inl (json_error 400 "请求内容必须是 JSON 对象") end
       end).
(** @worker/src/auth/session.ts:56-67 ensureAdminCsrfCookie -- and the cookie it sets *)
Definition ensure_csrf_cookie : access jstr :=
  let token := Totp.ensureAdminCsrfCookie (xq_csrf_cookie rq) csrf_random in
  do! set_cookie ADMIN_CSRF_COOKIE token in Ret token.

(** ** The confirmation of a factor *)

(** @worker/src/db/auth-confirmation.ts:19-27 consumeMfaFactor (the answer) *)
Definition consume_answer (answer : jsval) : result jstr (option jstr) :=
  match answer with
  | JObj fs =>
    match fld fs "verified" with
    | JBool false => Ok None
    | JBool true =>
      match fld fs "verified_at" with
      | JStr at_ => match date_parse at_ with Some _ => Ok (Some at_) | None => Err "MFA confirmation timestamp is invalid" end
      | _ => Err "MFA confirmation timestamp is invalid"
      end
    | _ => Err "MFA confirmation was not acknowledged"
    end
  | _ => Err "MFA confirmation was not acknowledged"
  end.
(** @worker/src/db/auth-confirmation.ts:9-28 consumeMfaFactor -- the time of a confirmed
    factor *)
Definition consumeMfaFactor (a : Mfa.consume_args) : access (result factor_failure (option jstr)) :=
  let! answer := attempt_act (User (ConsumeMfaFactor a) : access_call) in
  Ret (match answer with
       | Ok answer => match consume_answer answer with Ok v => Ok v | Err _ => Err Unavailable end
       | Err _ => Err Unavailable
       end).
Definition factor_failed (e : Mfa.mfa_error) : factor_failure :=
  match e with Mfa.Mfa_configuration => Mfa_misconfigured | Mfa.Auth_configuration => Jwt_misconfigured | Mfa.Bad_recovery_code => Unavailable end.
(** @worker/src/auth/mfa-factor.ts:46-53 confirmUserMfaFactor (re-encryption) -- and the
    acknowledgement of [reencryptTotpSecret] *)
Definition reencrypt (u : Admin.user) (stored secret : jstr) : access (option factor_failure) :=
  match Mfa.needsTotpReencryption stored (xe_secrets env) with
  | Err e => Ret (Some (factor_failed e))
  | Ok false => Ret None
  | Ok true =>
    match Mfa.encryptTotpSecret secret (Admin.uuid u) (xe_secrets env) iv with
    | Err e => Ret (Some (factor_failed e))
    | Ok encrypted =>
      let! answer := attempt_act (User (ReencryptTotpSecret (Admin.uuid u) stored encrypted) : access_call) in
      Ret (match answer with Ok (JBool true) => None | _ => Some Unavailable end)
    end
  end.
(** @worker/src/auth/mfa-factor.ts:17-61 confirmUserMfaFactor *)
Definition confirmUserMfaFactor (u : Admin.user) (input : Mfa.factor_input) : access (result factor_failure (option jstr)) :=
  let! nowMs := clock in
  if negb (Admin.present (Admin.totp_enabled_at u)) || negb (Admin.present (Admin.totp_secret_enc u)) || negb (nonempty (Mfa.fi_operationToken input))
  then Ret (Ok None)
  else match Mfa.normalize_factor input with
  | None => Ret (Ok None)
  | Some normalizedCode =>
    let '(factorKey, operationId) := Mfa.factor_keys u input normalizedCode in
    let consume step codeHashes :=
      consumeMfaFactor {| Mfa.ca_userId := Admin.uuid u; Mfa.ca_sessionVersion := Admin.session_version u; Mfa.ca_operationId := operationId;
                          Mfa.ca_factorKey := factorKey; Mfa.ca_method := Mfa.fi_method input; Mfa.ca_step := step; Mfa.ca_codeHashes := codeHashes |} in
    match Mfa.fi_method input with
    | Mfa.Totp =>
      let stored := default "" (Admin.totp_secret_enc u) in
      match Mfa.decryptTotpSecret stored (Admin.uuid u) (xe_secrets env) with
      | Err e => Ret (Err (factor_failed e))
      | Ok secret =>
        match Totp.verifyTotpCode hmacSha1 secret normalizedCode nowMs with
        | None => Ret (Err Unavailable)
        | Some None => consume None None
        | Some (Some step) =>
          let! failed := reencrypt u stored secret in
          match failed with Some f => Ret (Err f) | None => consume (Some step) None end
        end
      end
    | Mfa.Recovery_code =>
      match Mfa.hashRecoveryCodeCandidates normalizedCode (xe_secrets env) with
      | Ok hashes => consume None (Some hashes)
      | Err e => Ret (Err (factor_failed e))
      end
    end
  end.
(** @worker/src/routes/public.ts:1223-1231 /login/mfa (failures) -- as lines 2751-2759 of
    [routes/admin.ts] *)
Definition factor_failure_response (f : factor_failure) : response :=
  match f with
  | Jwt_misconfigured => jwt_misconfigured
  | Mfa_misconfigured => coded 500 "MFA_CONFIGURATION_ERROR" "服务端双重验证密钥配置不可用，请检查当前及保留的加密密钥"
  | Unavailable => coded 503 "MFA_TEMPORARY_UNAVAILABLE" "暂时无法确认验证结果，请稍后使用同一验证码或恢复码重试"
  end.

(** ** The login *)

(** @worker/src/routes/public.ts:880-915 completeAdminLogin *)
Definition completeAdminLogin (user : user_row) (observedStates : limit_states) : access response :=
  let! now := clock in
  match Admin.generateToken (user_identity user) JWT now with
  | Err _ => Ret jwt_misconfigured
  | Ok token =>
    do! setAdminSessionCookie token in
    let! csrfToken := ensure_csrf_cookie in
    do! putAdminSessionEdgeCache env (user_uuid user) (user_version user) in
    do! (if existsb (λ s : jstr * option LoginRateLimit, match s.2 with Some _ => true | None => false end) observedStates
         then spawn (ClearFailures (observed (map fst observedStates) observedStates)) else Ret tt) in
    do! spawn (AuditTask (user_name user) "login" "用户登录" "info") in
    Ret (json_ok (JObj [("csrf_token", JStr csrfToken); ("user", JObj [("uuid", JStr (user_uuid user)); ("username", JStr (user_name user))])]))
  end.
(** @worker/src/routes/public.ts:1069-1075 /login (its fields) *)
Definition login_fields (body : fields) : response + (jstr * jstr) :=
  match fld body "username", fld body "password" with
  | JStr username, JStr password =>
    if negb (nonempty username) || negb (nonempty password) then inl (json_error 400 "用户名和密码不能为空")
    else if (Z.of_nat MAX_LOGIN_USERNAME_LENGTH <? slen username) || (MAX_LOGIN_PASSWORD_LENGTH <? slen password)
    then inl (json_error 400 "用户名或密码长度超出限制")
    else inr (username, password)
  | _, _ => inl (json_error 400 "用户名和密码不能为空")
  end.
Definition cleanup_due (nowMs last : Z) : bool := (last =? 0) || (LOGIN_RATE_LIMIT_CLEANUP_INTERVAL_MS <=? nowMs - last).
(** @worker/src/routes/public.ts:1091-1091 /login (limited) -- as lines 1211-1214 and those
    of the account routes *)
Definition retry_after (seconds : Z) : access unit := header "Retry-After" (dec_Z seconds).
(** @worker/src/routes/public.ts:1113-1115 /login (a failed attempt) -- as lines 1111-1114 *)
Definition failed_attempt (buckets : list jstr) (username reason : jstr) : access unit :=
  let! failedAt := clock in
  do! recordLoginFailure buckets failedAt in
  auditLoginFailure username (clientIp rq) reason failedAt.
(** @worker/src/routes/public.ts:1127-1149 /login (the challenge) *)
Definition mfa_challenge (user : user_row) : access response :=
  let! now := clock in
  match Admin.generateMfaToken (user_identity user) Admin.mfa_login JWT randomUUID now with
  | Err _ => Ret jwt_misconfigured
  | Ok challenge => Ret (json_ok (JObj [("code", JStr "MFA_REQUIRED"); ("mfa_required", JBool true); ("challenge", JStr challenge);
                                        ("methods", JArr [JStr "totp"; JStr "recovery_code"])]))
  end.
(** @worker/src/routes/public.ts:1097-1157 /login (the attempt) *)
Definition login_attempt (username password : jstr) (rateLimitBuckets : list jstr) (rateLimitStates : limit_states) : access response :=
  let! user := user_call_of (GetUserByUsername username) in
  match user with
  | None =>
    let! userCount := user_call_of CountUsers in
    let! _ := verifyAdminPassword username password DUMMY_ADMIN_PASSWORD_HASH in
    do! failed_attempt rateLimitBuckets username "unknown_user" in
    if userCount =? 0 then Ret (json_error 409 "请先在登录页创建管理员账号") else Ret (json_error 401 "用户名或密码错误")
  | Some user =>
    let! valid := verifyAdminPassword (user_uuid user) password (ur_passwd user) in
    if negb valid then do! failed_attempt rateLimitBuckets username "invalid_password" in Ret (json_error 401 "用户名或密码错误")
    else
      do! (if Password.needsPasswordRehash (ur_passwd user) then spawn (Rehash (user_uuid user) password (ur_passwd user)) else Ret tt) in
      if has_factor user then mfa_challenge user else completeAdminLogin user rateLimitStates
  end.
(** @worker/src/routes/public.ts:1063-1158 /login *)
Definition login : access response :=
  let! parsed := readPublicJsonObject in
  match parsed with
  | inl r => Ret r
  | inr body =>
    match login_fields body with
    | inl r => Ret r
    | inr (username, password) =>
      let rateLimitBuckets := loginRateLimitBuckets (clientIp rq) username in
      let! nowMs := clock in
      do! need_database env in
      let! st := get in
      do! (if cleanup_due nowMs (lastLoginRateLimitCleanupAt st) then spawn (CleanupLoginRateLimits nowMs) else Ret tt) in
      let! rateLimitStates := loadLoginRateLimitStates rateLimitBuckets in
      let retryAfter := getLoginRetryAfterSeconds date_parse rateLimitStates nowMs in
      if 0 <? retryAfter then
        do! retry_after retryAfter in
        do! auditLoginFailure username (clientIp rq) "rate_limited" nowMs in
        Ret (json_error 429 ("登录尝试过于频繁，请 " +++ dec_Z retryAfter +++ " 秒后再试"))
      else login_attempt username password rateLimitBuckets rateLimitStates
    end
  end.
(** @worker/src/routes/public.ts:1165-1176 /login/mfa (its fields) *)
Definition mfa_fields (body : fields) : option (jstr * Mfa.factor_method * jstr) :=
  let challenge := text_of (fld body "challenge") in
  let code := trim (text_of (fld body "code")) in
  let method := match fld body "method" with
                | JStr m => if jeq m "totp" then Some Mfa.Totp else if jeq m "recovery_code" then Some Mfa.Recovery_code else None
                | _ => None
                end in
  if negb (nonempty challenge) || (MAX_MFA_CHALLENGE_LENGTH <? slen challenge) then None
  else match method with
       | None => None
       | Some method => if negb (nonempty code) || (MAX_MFA_CODE_LENGTH <? slen code) then None else Some (challenge, method, code)
       end.
(** @worker/src/routes/public.ts:1194-1202 /login/mfa (the user) *)
Definition challenged (payload : Admin.identity) (user : option user_row) : option user_row :=
  match user with
  | Some u => if negb (jeq (user_name u) (Admin.id_username payload)) || negb (user_version u =? Admin.sessionVersion payload) || negb (has_factor u)
              then None else Some u
  | None => None
  end.
Definition challenge_invalid : response := coded 401 "MFA_CHALLENGE_INVALID" "登录验证已失效，请重新登录".
(** @worker/src/routes/public.ts:1204-1241 /login/mfa (the attempt) *)
Definition mfa_attempt (user : user_row) (challenge : jstr) (method : Mfa.factor_method) (code : jstr) : access response :=
  let mfaBuckets := mfaRateLimitBuckets (clientIp rq) (user_uuid user) in
  let loginBuckets := loginRateLimitBuckets (clientIp rq) (user_name user) in
  let! nowMs := clock in
  let! rateLimitStates := loadLoginRateLimitStates (loginBuckets ++ mfaBuckets) in
  let mfaStates := fold_left (λ m bucket, set_field bucket (default None (lookup_field bucket rateLimitStates)) m) mfaBuckets [] in
  let retryAfter := getLoginRetryAfterSeconds date_parse mfaStates nowMs in
  if 0 <? retryAfter then
    do! retry_after retryAfter in
    do! auditLoginFailure (user_name user) (clientIp rq) "mfa_rate_limited" nowMs in
    Ret (coded 429 "MFA_RATE_LIMITED" ("验证尝试过于频繁，请 " +++ dec_Z retryAfter +++ " 秒后再试"))
  else
    let! confirmation := confirmUserMfaFactor (ur_user user)
      {| Mfa.fi_method := method; Mfa.fi_code := code; Mfa.fi_purpose := Admin.mfa_login; Mfa.fi_operationToken := challenge |} in
    match confirmation with
    | Err f => Ret (factor_failure_response f)
    | Ok None => do! failed_attempt mfaBuckets (user_name user) "invalid_mfa" in Ret (coded 401 "MFA_INVALID" "验证码或恢复码无效")
    | Ok (Some _) => completeAdminLogin user rateLimitStates
    end.
(** @worker/src/routes/public.ts:1160-1242 /login/mfa *)
Definition login_mfa : access response :=
  let! parsed := readPublicJsonObject in
  match parsed with
  | inl r => Ret r
  | inr body =>
    match mfa_fields body with
    | None => Ret (coded 400 "MFA_INPUT_INVALID" "双重身份验证参数无效")
    | Some (challenge, method, code) =>
      let! now := clock in
      match Admin.verifyMfaToken challenge Admin.mfa_login JWT now with
      | Err _ => Ret jwt_misconfigured
      | Ok None => Ret challenge_invalid
      | Ok (Some payload) =>
        do! need_database env in
        let! user := user_call_of (GetUserByUuid (Admin.userId payload)) in
        match challenged payload user with
        | None => Ret challenge_invalid
        | Some user => mfa_attempt user challenge method code
        end
      end
    end
  end.

(** ** The session *)

(** The identity of the session a request carries, when its token verifies; what the
    verification throws is its class. *)
Definition session_payload : access (result Admin.token_error (option Admin.identity)) :=
  match getAdminSessionToken rq with
  | Some token => let! now := clock in Ret (Admin.verifyAdminToken token JWT now)
  | None => Ret (Ok None)
  end.
Definition has_session : bool := match getAdminSessionToken rq with Some t => nonempty t | None => false end.
(** @worker/src/routes/public.ts:1244-1270 /logout *)
Definition logout : access response :=
  if has_session && negb (Totp.verifyAdminCsrfToken (xq_csrf_cookie rq) (xq_csrf_header rq))
  then Ret (json_error 403 "CSRF token 无效，请刷新页面后重试")
  else
    let! payload := (if has_session then session_payload else Ret (Ok None)) in
    do! (match payload with
         | Ok (Some payload) =>
           do! deleteAdminSessionEdgeCache env (Admin.userId payload) (Admin.sessionVersion payload) in
           do! need_database env in
           let! user := validate_session payload in
           match user with
           | Some user =>
             let! _ := user_call_of (RotateUserSession (Admin.su_uuid user)) in
             do! forget_sessions (Admin.su_uuid user) in
             deleteAdminSessionEdgeCache env (Admin.userId payload) (Admin.sessionVersion payload)
           | None => Ret tt
           end
         | _ => Ret tt
         end) in
    do! clearAdminSessionCookie in
    do! header "Clear-Site-Data" (JS [34; 99; 97; 99; 104; 101; 34]%N) in
    Ret (json_ok (JObj [("success", JBool true)])).
(** What [/me] answers of a session that is valid. *)
Definition session_answer (uuid username : jstr) : access response :=
  let! csrfToken := ensure_csrf_cookie in
  Ret (json_ok (JObj [("uuid", JStr uuid); ("username", JStr username); ("csrf_token", JStr csrfToken)])).
(** The user of a session: whether the edge cache knows it, or the row. *)
Definition session_of (payload : Admin.identity) : access (option (jstr * jstr)) :=
  let! hit := getAdminSessionEdgeCache env (Admin.userId payload) (Admin.sessionVersion payload) in
  if hit then Ret (Some (Admin.userId payload, Admin.id_username payload))
  else
    do! need_database env in
    let! user := validate_session payload in
    match user with
    | Some user =>
      do! putAdminSessionEdgeCache env (Admin.su_uuid user) (Admin.su_version user) in
      Ret (Some (Admin.su_uuid user, Admin.su_username user))
    | None => Ret None
    end.
Definition authenticated (v : bool) : access response :=
  do! header "X-CF-VPS-Monitor-Authenticated" (if v then "1" else "0") in Ret {| status := 204; content := JNull |}.
(** @worker/src/routes/public.ts:1272-1297 authSessionHeadResponse *)
Definition authSessionHeadResponse : access response :=
  if negb has_session then authenticated false
  else
    let! payload := session_payload in
    match payload with
    | Err Admin.Configuration => Ret {| status := 500; content := JNull |}
    | Err Admin.Invalid_token => authenticated false
    | Ok None => authenticated false
    | Ok (Some payload) =>
      let! known := catch (session_of payload) (λ _, Ret None) in
      authenticated (match known with Some _ => true | None => false end)
    end.
(** @worker/src/routes/public.ts:1300-1340 /me *)
Definition me : access response :=
  if xq_head rq then authSessionHeadResponse
  else if negb has_session then Ret (json_error 401 "未登录")
  else
    let! payload := session_payload in
    match payload with
    | Err Admin.Configuration => Ret jwt_misconfigured
    | Err Admin.Invalid_token => Ret (json_error 401 "Token 无效")
    | Ok None => Ret (json_error 401 "Token 无效")
    | Ok (Some payload) =>
      let! known := catch (session_of payload) (λ _, Ret None) in
      match known with Some (uuid, username) => session_answer uuid username | None => Ret (json_error 401 "Token 无效") end
    end.

(** ** The recovery of the administrator *)

(** @worker/src/routes/public.ts:639-674 localPublicApiRateLimit *)
Definition localPublicApiRateLimit (bucket : jstr) (maxRequests : Z) : access (option response) :=
  let! nowMs := clock in
  let key := "public:" +++ bucket +++ ":" +++ clientIp rq in
  let hit st := hit_public nowMs key (publicRateLimitSweepCounter st) (publicRateLimitBuckets st) in
  let! st := Local (λ st, with_buckets (hit st).1.2 (hit st).2 st) Ret in
  let '(count, resetAt) := (hit st).1.1 in
  let retryAfter := Z.max 1 (- ((nowMs - resetAt) / 1000)) in
  do! header "X-RateLimit-Limit" (dec_Z maxRequests) in
  do! header "X-RateLimit-Remaining" (dec_Z (Z.max 0 (maxRequests - count))) in
  do! header "X-RateLimit-Reset" (dec_Z (- ((- resetAt) / 1000))) in
  if count <=? maxRequests then Ret None
  else
    do! retry_after retryAfter in
    do! header "Cache-Control" "no-store" in
    Ret (Some (json_error 429 ("公开 API 请求过于频繁，请 " +++ dec_Z retryAfter +++ " 秒后再试"))).
(** @worker/src/utils/do-response.ts:87-100 readRateLimitResult -- with the default one for
    [retryAfter], and none for [reset] *)
Definition read_limit (r : reply) (limit : Z) : access (option RateLimitResult) :=
  Yield (match isRecord (default JNull (rp_json r)) with
         | Some v =>
           match fld v "allowed" with
           | JBool allowed =>
             let! now := clock in
             Ret (Some {| rl_allowed := allowed;
                          rl_limit := num_max (of_Z 1) (num_floor (finiteNumber (fld v "limit") (of_Z limit)));
                          rl_remaining := num_max (of_Z 0) (num_floor (finiteNumber (fld v "remaining") (of_Z 0)));
                          rl_reset := num_ceil (finiteNumber (fld v "reset") (num_div (of_Z now) (of_Z 1000)));
                          rl_retryAfter := num_max (of_Z 1) (num_ceil (finiteNumber (fld v "retry_after") (of_Z 1))) |})
           | _ => Ret None
           end
         | None => Ret None
         end).
(** @worker/src/routes/public.ts:676-709 publicApiRateLimit *)
Definition publicApiRateLimit (bucket : jstr) (maxRequests : Z) : access (option response) :=
  let local := localPublicApiRateLimit bucket maxRequests in
  if negb (xe_rate_limit env) then local
  else catch
    (let! r := act (LimitFetch (JObj [("bucket", JStr bucket); ("ip", JStr (clientIp rq)); ("max", JNum (of_Z maxRequests));
                                      ("windowMs", JNum (of_Z PUBLIC_RATE_LIMIT_WINDOW_MS))]) : access_call) in
     if negb (rp_ok r) then Throw ("DO rate limit HTTP " +++ dec_Z (rp_status r))
     else
       let! result := read_limit r maxRequests in
       match result with
       | None => Throw "DO rate limit returned an invalid response"
       | Some result =>
         do! header "X-RateLimit-Limit" (dec_Z maxRequests) in
         do! header "X-RateLimit-Remaining" (num_str (rl_remaining result)) in
         do! header "X-RateLimit-Reset" (num_str (rl_reset result)) in
         if rl_allowed result then Ret None
         else
           do! header "Retry-After" (num_str (rl_retryAfter result)) in
           do! header "Cache-Control" "no-store" in
           Ret (Some (json_error 429 ("公开 API 请求过于频繁，请 " +++ num_str (rl_retryAfter result) +++ " 秒后再试")))
       end)
    (λ _, local).
(** @worker/src/routes/public.ts:723-725 guardAdminRecovery *)
Definition guardAdminRecovery : access (option response) := publicApiRateLimit "admin-recovery" PUBLIC_ADMIN_RECOVERY_RATE_LIMIT_MAX.
(** @worker/src/routes/public.ts:986-994 /admin/recovery/status *)
Definition recovery_status : access response :=
  let! limited := guardAdminRecovery in
  match limited with
  | Some r => Ret r
  | None =>
    do! need_database env in
    let! userCount := user_call_of CountUsers in
    Ret (json_ok (JObj [("admin_present", JBool (0 <? userCount)); ("recoverable", JBool (userCount <=? 1))]))
  end.
(** @worker/src/routes/public.ts:775-783 timingSafeEqualString -- the digests are equal
    and so are the lengths *)
Definition timingSafeEqualString (actual expected : jstr) : access bool :=
  if negb (nonempty actual) || negb (nonempty expected) then Ret false
  else Yield (Ret ((slen actual =? slen expected) && bool_decide (Mfa.sha256 (utf8 actual) = Mfa.sha256 (utf8 expected)))).
(** @worker/src/routes/public.ts:1015-1021 /admin/recovery (the deployment secret) *)
Definition recovery_key_ok (key : jstr) : access bool :=
  if negb (nonempty key) || (MAX_ADMIN_RECOVERY_KEY_LENGTH <? slen key) then Ret false else timingSafeEqualString key (xe_service_key env).
(** @worker/src/routes/public.ts:1006-1011 /admin/recovery (refusals) *)
Definition recovery_refused (fold_case : jstr → jstr) (username password : jstr) : option response :=
  if MAX_LOGIN_PASSWORD_LENGTH <? slen password then Some (json_error 400 "密码长度超出限制")
  else match validateRecoveryUsername username with
       | Some e => Some (json_error 400 e)
       | None => option_map (json_error 400) (Password.validateAdminPasswordStrength fold_case password username)
       end.
(** @worker/src/routes/public.ts:1022-1059 /admin/recovery (the account) *)
Definition recover_account (username password : jstr) : access response :=
  do! need_database env in
  let! userCount := user_call_of CountUsers in
  if 1 <? userCount then Ret (json_error 409 "当前存在多个管理员账号，请登录后在账户管理中修改密码")
  else
    let! hash := hashAdminPassword username password in
    let finish (uuid name : jstr) (version : Z) : access response :=
      do! forget_sessions uuid in
      do! (if 1 <? version then deleteAdminSessionEdgeCache env uuid (version - 1) else Ret tt) in
      do! spawn (AuditTask username "admin_recovery" (if userCount =? 0 then "首次创建管理员账号" else "通过 Supabase Secret key 重置管理员账号") "warning") in
      Ret (json_ok (JObj [("success", JBool true); ("mode", JStr (if userCount =? 0 then "created" else "reset"));
                          ("user", JObj [("uuid", JStr uuid); ("username", JStr name)])])) in
    if userCount =? 0 then
      let! created := user_call_of (CreateInitialAdmin randomUUID username hash) in
      if created then finish randomUUID username 1 else Ret (json_error 409 "管理员已创建，请刷新后登录或使用账号恢复")
    else
      let! user := user_call_of (RecoverSingleAdmin randomUUID username hash) in
      finish (user_uuid user) (user_name user) (user_version user).
(** @worker/src/routes/public.ts:996-1060 /admin/recovery *)
Definition recovery (fold_case : jstr → jstr) : access response :=
  let! limited := guardAdminRecovery in
  match limited with
  | Some r => Ret r
  | None =>
    let! parsed := readPublicJsonObject in
    match parsed with
    | inl r => Ret r
    | inr body =>
      let username := readRecoveryUsername body in
      let password := readRecoveryPassword body in
      match recovery_refused fold_case username password with
      | Some r => Ret r
      | None =>
        let! ok := recovery_key_ok (readRecoverySecretKey body) in
        if ok then recover_account username password else Ret (json_error 403 "Supabase Secret key 无效")
      end
    end
  end.
End Login.

(** ** The tasks *)

(** @worker/src/routes/public.ts:923-936 cleanupExpiredLoginRateLimits *)
Definition cleanupExpiredLoginRateLimits (nowMs : Z) : access bool :=
  let! st := get in
  if negb (cleanup_due nowMs (lastLoginRateLimitCleanupAt st)) then Ret false
  else
    do! user_call_of (DeleteLoginRateLimitsBefore (iso_string (nowMs - LOGIN_RATE_LIMIT_CLEANUP_AGE_MS))) in
    do! updated (with_cleanup nowMs) in
    Ret true.
(** @worker/src/routes/public.ts:869-878 runLoginBackground (the tasks) -- what each of them
    does; its failure is caught *)
Definition access_task_program (t : access_task) : access unit :=
  catch (match t with
         | CleanupLoginRateLimits nowMs => let! _ := cleanupExpiredLoginRateLimits nowMs in Ret tt
         | Rehash uuid password passwd =>
           let! hashed := hashAdminPassword uuid password in
           let! _ := user_call_of (RehashUserPassword uuid passwd hashed) in Ret tt
         | ClearFailures states => match states with [] => Ret tt | _ => user_call_of (ClearObservedLoginRateLimits states) end
         | AuditTask user action detail level => user_call_of (AuditLogEntry user action detail level)
         | PutSession userId version => act (SessionPut userId version : access_call)
         end)
        (λ _, Ret tt).
