(* ===== verification/LoginLimit.v ===== *)
(** * Failed logins in the database: [supabase/migrations/4_rpc_api.sql]

    The rows of the limiter of logins and the procedures that count a failure, forget the
    failures a successful login observed and remove old rows, with the rate of guesses a
    bucket allows.  Instants are milliseconds. *)

From S2P Require Import Prelude JsStr JsNum JsVal JsList Mfa.
#[local] Open Scope Z_scope.

(** @supabase/migrations/1_core_schema.sql:115-127 login_rate_limits *)
Record limit_row := { lw_failures : Z; lw_first : Z; lw_last : Z; lw_locked : option Z; lw_revision : jstr }.
Abbreviation limit_table := (gmap jstr limit_row).

Definition LIMIT_WINDOW_MS : Z := 15 * 60 * 1000.
(** @supabase/migrations/4_rpc_api.sql:3857-3859 cfm_record_login_failures (next_lock) *)
Definition lock_ms (failures : Z) : Z := 1000 * Z.min 900 (30 * 2 ^ Z.min (failures - 5) 5).
(** [greatest(a, b)], which ignores nulls *)
Definition greatest (a b : option Z) : option Z :=
  match a, b with Some x, Some y => Some (Z.max x y) | Some x, None => Some x | None, _ => b end.
(** @supabase/migrations/4_rpc_api.sql:3841-3864 cfm_record_login_failures (a bucket) --
    [revision] is the fresh identifier *)
Definition count_failure (failed_at : Z) (revision : jstr) (old : option limit_row) : limit_row :=
  let saved :=
    match old with
    | None => {| lw_failures := 1; lw_first := failed_at; lw_last := failed_at; lw_locked := None; lw_revision := revision |}
    | Some limits =>
      let last := Z.max failed_at (lw_last limits) in
      let inside := last - lw_first limits <=? LIMIT_WINDOW_MS in
      {| lw_failures := if inside then Z.min (lw_failures limits) 2147483646 + 1 else 1;
         lw_first := if inside then lw_first limits else last;
         lw_last := last; lw_locked := lw_locked limits; lw_revision := revision |}
    end in
  let next_lock := if 5 <=? lw_failures saved then Some (lw_last saved + lock_ms (lw_failures saved)) else None in
  {| lw_failures := lw_failures saved; lw_first := lw_first saved; lw_last := lw_last saved;
     lw_locked := greatest next_lock (match lw_locked saved with Some l => if lw_last saved <? l then Some l else None | None => None end);
     lw_revision := lw_revision saved |}.
Definition blank (bucket : jstr) : bool := forallb (λ u, (u =? 32)%N) (units bucket).
(** @supabase/migrations/4_rpc_api.sql:3820-3866 cfm_record_login_failures -- the buckets
    are independent of each other, so their order does not matter *)
Definition record_failures (buckets : list jstr) (failed_at : Z) (fresh : jstr → jstr) (table : limit_table) : limit_table :=
  fold_left (λ t b, <[b := count_failure failed_at (fresh b) (t !! b)]> t) (List.filter (λ b, negb (blank b)) (dedup [] buckets)) table.
(** @supabase/migrations/4_rpc_api.sql:3868-3878 cfm_clear_observed_login_failures *)
Definition clear_observed (states : list (jstr * jstr)) (table : limit_table) : limit_table :=
  filter (λ p, ¬ ((p.1, lw_revision p.2) ∈ states)) table.
Definition outdated (before now : Z) (row : limit_row) : bool :=
  (lw_last row <? before) && match lw_locked row with None => true | Some l => l <? now end.
(** @supabase/migrations/4_rpc_api.sql:3885-3893 cfm_delete_login_rate_limits_before *)
Definition delete_before (before now : Z) (table : limit_table) : limit_table := filter (λ p, outdated before now p.2 = false) table.

(** Whether a bucket is locked at a time: what the login asks of its row. *)
Definition locked_at (now : Z) (row : option limit_row) : bool :=
  match row with Some r => match lw_locked r with Some l => now <? l | None => false end | None => false end.

(** ** Facts *)

Lemma dedup_spec seen l x : x ∈ dedup seen l ↔ x ∈ l ∧ x ∉ seen.
Proof.
  revert seen. induction l as [|y l IH]; intros seen; cbn [dedup]; [set_solver |]. destruct (mem y seen) eqn:E.
  - apply mem_spec in E. rewrite IH. set_solver.
  - assert (Hn : y ∉ seen) by (intros H; apply mem_spec in H; congruence). rewrite elem_of_cons, IH, elem_of_cons. destruct (decide (x = y)); set_solver.
Qed.
Lemma dedup_nodup seen l : NoDup (dedup seen l).
Proof.
  revert seen. induction l as [|y l IH]; intros seen; cbn [dedup]; [constructor |]. destruct (mem y seen); [done |].
  constructor; [| done]. rewrite dedup_spec. set_solver.
Qed.
(** What a recorded failure makes of each row. *)
Lemma record_failures_lookup buckets at_ fresh table b :
  record_failures buckets at_ fresh table !! b
  = if decide (b ∈ buckets ∧ blank b = false) then Some (count_failure at_ (fresh b) (table !! b)) else table !! b.
Proof.
  unfold record_failures. assert (Hin : b ∈ List.filter (λ b, negb (blank b)) (dedup [] buckets) ↔ b ∈ buckets ∧ blank b = false).
  { rewrite list_elem_of_In, filter_In, <- list_elem_of_In, dedup_spec, negb_true_iff. set_solver. }
  assert (Hnd : NoDup (List.filter (λ b, negb (blank b)) (dedup [] buckets))).
  { apply NoDup_ListNoDup, List.NoDup_filter, NoDup_ListNoDup, dedup_nodup. }
  revert Hin Hnd. generalize (List.filter (λ b, negb (blank b)) (dedup [] buckets)) as l. intros l Hin Hnd.
  assert (Hg : ∀ t : limit_table, fold_left (λ t b, <[b := count_failure at_ (fresh b) (t !! b)]> t) l t !! b
    = if decide (b ∈ l) then Some (count_failure at_ (fresh b) (t !! b)) else t !! b).
  { clear Hin. induction Hnd as [|x l Hx Hnd IH]; intros t; cbn [fold_left]; [done |]. rewrite IH. destruct (decide (x = b)) as [-> | Hne].
    - rewrite decide_False by done. rewrite lookup_insert_eq. rewrite decide_True by set_solver. done.
    - rewrite lookup_insert_ne by done. destruct (decide (b ∈ l)); [rewrite decide_True by set_solver | rewrite decide_False by set_solver]; done. }
  rewrite Hg. destruct (decide (b ∈ l)); [rewrite decide_True by tauto | rewrite decide_False by tauto]; done.
Qed.

(** ** The rate of failures *)

(** The failures of a bucket one after another, each counted while the bucket was not
    locked, and the removal of rows a day old: the row, the instants of the failures (the
    last one first) and the time that has been reached. *)
Inductive history : option limit_row → list Z → Z → Prop :=
| history_start now : history None [] now
| history_time row ts now later : history row ts now → now ≤ later → history row ts later
| history_failure row ts now at_ revision :
    history row ts now → locked_at now row = false → now ≤ at_ → history (Some (count_failure at_ revision row)) (at_ :: ts) at_
| history_removal row ts now db_now : history (Some row) ts now → outdated (now - 24 * 60 * 60 * 1000) db_now row = true → history None ts now.

(** The time the locks of a window of failures take, at least. *)
Definition locked_ms (failures : Z) : Z := if failures <=? 5 then 0 else fold_right Z.add 0 (map (λ i, lock_ms (Z.of_nat i)) (seq 5 (Z.to_nat failures - 5))).
Definition first_of (ts : list Z) : Z := List.last ts 0.

(** A row after [m] complete windows: at most nine failures fit in one. *)
Record window_row (ts : list Z) (now : Z) (m : Z) (row : limit_row) : Prop := {
  wr_ts : head ts = Some (lw_last row);
  wr_count : Z.of_nat (length ts) ≤ 9 * m + lw_failures row;
  wr_range : 1 ≤ lw_failures row ≤ 9;
  wr_start : first_of ts + LIMIT_WINDOW_MS * m ≤ lw_first row;
  wr_span : lw_first row + locked_ms (lw_failures row) ≤ lw_last row ≤ lw_first row + LIMIT_WINDOW_MS;
  wr_now : lw_last row ≤ now;
  wr_lock : 5 ≤ lw_failures row → ∃ l, lw_locked row = Some l ∧ lw_last row + lock_ms (lw_failures row) ≤ l;
}.
Definition bounded (row : option limit_row) (ts : list Z) (now : Z) : Prop :=
  match row with
  | Some row => ∃ m, 0 ≤ m ∧ window_row ts now m row
  | None => ts = [] ∨ ∃ m last, 0 ≤ m ∧ head ts = Some last ∧ Z.of_nat (length ts) ≤ 9 * (m + 1)
                                ∧ first_of ts + LIMIT_WINDOW_MS * m ≤ last ∧ first_of ts + LIMIT_WINDOW_MS * (m + 1) ≤ now
  end.

Lemma first_of_cons at_ ts : ts ≠ [] → first_of (at_ :: ts) = first_of ts.
Proof. by destruct ts. Qed.
Lemma greatest_left l o : ∃ l', greatest (Some l) o = Some l' ∧ l ≤ l'.
Proof. destruct o as [x|]; cbn; eexists; (split; [reflexivity | lia]). Qed.
Lemma locked_ms_pos f : 1 ≤ f ≤ 9 → 0 ≤ locked_ms f.
Proof. intros Hf. assert (f = 1 ∨ f = 2 ∨ f = 3 ∨ f = 4 ∨ f = 5 ∨ f = 6 ∨ f = 7 ∨ f = 8 ∨ f = 9) as Hc by lia. destruct_or! Hc; subst; vm_compute; done. Qed.
(** A window that begins with a failure. *)
Lemma window_begins ts now m at_ revision (locked : option Z) saved_lock :
  0 ≤ m → Z.of_nat (length ts) ≤ 9 * m → first_of (at_ :: ts) + LIMIT_WINDOW_MS * m ≤ at_ → at_ ≤ now →
  window_row (at_ :: ts) now m {| lw_failures := 1; lw_first := at_; lw_last := at_; lw_locked := greatest locked saved_lock; lw_revision := revision |}.
Proof. intros Hm Hc Hf Hn. split; cbn [lw_failures lw_first lw_last lw_locked length head]; try done; try lia. unfold LIMIT_WINDOW_MS. change (locked_ms 1) with 0. lia. Qed.
(** One more failure in a window takes the time of the lock before it; the tenth would
    take more than the window. *)
Lemma locked_ms_step f : 1 ≤ f ≤ 9 → locked_ms (f + 1) = locked_ms f + (if 5 <=? f then lock_ms f else 0).
Proof. intros Hf. assert (f = 1 ∨ f = 2 ∨ f = 3 ∨ f = 4 ∨ f = 5 ∨ f = 6 ∨ f = 7 ∨ f = 8 ∨ f = 9) as Hc by lia. destruct_or! Hc; subst; reflexivity. Qed.
Lemma window_goes_on ts now m row at_ revision :
  0 ≤ m → window_row ts now m row → locked_at now (Some row) = false → now ≤ at_ → at_ - lw_first row ≤ LIMIT_WINDOW_MS →
  window_row (at_ :: ts) at_ m (count_failure at_ revision (Some row)).
Proof.
  intros Hm [Hts Hc Hr Hs Hsp Hn Hl] Hu Ha Hw. unfold count_failure. cbn [lw_failures lw_first lw_last lw_locked lw_revision].
  rewrite !Z.max_l by lia. rewrite (proj2 (Z.leb_le _ _) Hw). rewrite Z.min_l by lia.
  assert (Hts' : ts ≠ []) by (intros ->; done).
  assert (Hspan : lw_first row + locked_ms (lw_failures row + 1) ≤ at_).
  { rewrite locked_ms_step by done. destruct (5 <=? lw_failures row) eqn:E; [| lia]. apply Z.leb_le in E. destruct (Hl E) as (l & Hlk & Hle).
    unfold locked_at in Hu. rewrite Hlk in Hu. apply Z.ltb_ge in Hu. lia. }
  assert (Hf : lw_failures row < 9).
  { destruct (decide (lw_failures row = 9)) as [E9 |]; [| lia]. rewrite E9 in Hspan. change (locked_ms (9 + 1)) with 930000 in Hspan. unfold LIMIT_WINDOW_MS in Hw. lia. }
  split; cbn [lw_failures lw_first lw_last lw_locked length head]; try done; try lia.
  - by rewrite first_of_cons.
  - intros H5. rewrite (proj2 (Z.leb_le _ _) H5).
    edestruct (greatest_left (at_ + lock_ms (lw_failures row + 1))) as (l & Hg & Hle). exists l. split; [exact Hg | done].
Qed.
Lemma bounded_failure row ts now at_ revision :
  bounded row ts now → locked_at now row = false → now ≤ at_ → bounded (Some (count_failure at_ revision row)) (at_ :: ts) at_.
Proof.
  intros Hb Hu Ha. destruct row as [row|]; cbn [bounded] in Hb.
  - destruct Hb as (m & Hm & Hw). destruct (decide (at_ - lw_first row ≤ LIMIT_WINDOW_MS)) as [Hi | Ho].
    + exists m. split; [done |]. by eapply window_goes_on.
    + exists (m + 1). split; [lia |]. pose proof Hw as [Hts Hc Hr Hs Hsp Hn Hl]. assert (Hne : ts ≠ []) by (intros ->; done).
      unfold count_failure. rewrite !Z.max_l by lia. cbn [lw_failures lw_first lw_last lw_locked lw_revision].
      rewrite (proj2 (Z.leb_gt _ _)) by lia. change (5 <=? 1) with false. apply window_begins; [lia | lia | | lia].
      rewrite first_of_cons by done. lia.
  - unfold count_failure. cbn [lw_failures lw_first lw_last lw_locked lw_revision]. change (5 <=? 1) with false. destruct Hb as [-> | (m & last & Hm & Hh & Hc & Hf & Hn)].
    + exists 0. split; [done |]. apply window_begins; cbn; lia.
    + exists (m + 1). split; [lia |]. apply window_begins; [lia | lia | | lia]. rewrite first_of_cons by (intros ->; done). lia.
Qed.
Lemma history_bounded row ts now : history row ts now → bounded row ts now.
Proof.
  induction 1 as [now | row ts now later H IH Hle | row ts now at_ revision H IH Hu Ha | row ts now db_now H IH Ho].
  - by left.
  - destruct row as [row|]; cbn [bounded] in *.
    + destruct IH as (m & Hm & [Hts Hc Hr Hs Hsp Hn Hl]). exists m. split; [done |]. split; try done. lia.
    + destruct IH as [-> | (m & last & Hm & Hh & Hc & Hf & Hn)]; [by left |]. right. exists m, last. split_and!; try done. lia.
  - by apply bounded_failure with now.
  - destruct IH as (m & Hm & [Hts Hc Hr Hs Hsp Hn Hl]). pose proof (locked_ms_pos _ Hr). right. exists m, (lw_last row). split_and!; [done | done | lia | lia |].
    unfold outdated in Ho. apply andb_true_iff in Ho as [Ho%Z.ltb_lt _]. unfold LIMIT_WINDOW_MS in *. lia.
Qed.
(** Nine failures for every quarter of an hour since the first, and nine more. *)
Lemma history_rate row ts now last : history row ts now → head ts = Some last → Z.of_nat (length ts) ≤ 9 * ((last - first_of ts) / LIMIT_WINDOW_MS + 1).
Proof.
  intros H Hh. apply history_bounded in H. assert (Hg : ∃ m, 0 ≤ m ∧ Z.of_nat (length ts) ≤ 9 * (m + 1) ∧ first_of ts + LIMIT_WINDOW_MS * m ≤ last).
  { destruct row as [row|]; cbn [bounded] in H.
    - destruct H as (m & Hm & [Hts Hc Hr Hs Hsp Hn Hl]). exists m. rewrite Hts in Hh. injection Hh as <-. split_and!; [done | lia |].
      pose proof (locked_ms_pos _ Hr). lia.
    - destruct H as [-> | (m & last' & Hm & Hh' & Hc & Hf & Hn)]; [done |]. rewrite Hh' in Hh. injection Hh as ->. by exists m. }
  destruct Hg as (m & Hm & Hc & Hf). assert (m ≤ (last - first_of ts) / LIMIT_WINDOW_MS); [| lia]. apply Z.div_le_lower_bound; unfold LIMIT_WINDOW_MS in *; lia.
Qed.
(** A table in which a login clears what it observed keeps every failure counted since:
    its row has another revision. *)
Lemma clear_observed_keeps states table b row :
  table !! b = Some row → (b, lw_revision row) ∉ states → clear_observed states table !! b = Some row.
Proof. intros Hb Hs. by apply map_lookup_filter_Some. Qed.
