(* ===== verification/LoginSpec.v ===== *)
(** * What signing in promises

    The session cookie is set only for who proved a password, and a factor when there is
    one; and who guesses passwords or codes is counted in the database and locked out. *)

From S2P Require Import Prelude JsStr JsNum JsVal JsList JsBytes JsDate Net Effects AgentHttp RequestBody Trace Access Login LoginLimit.
From S2P Require Admin Totp Mfa Password Webhook.
#[local] Open Scope Z_scope.

Abbreviation access_item := (item access_call access_ans access_task).
Abbreviation access_event := (event access_call access_ans).
Definition event_of (c : access_call) (x : result jstr (access_ans c)) : access_event := existT c x.
Definition user_event (c : user_call) (x : result jstr (user_ans c)) : access_event := existT (User c : access_call) x.
(** The session tokens among the headers of a response. *)
Definition session_cookies (headers : list (jstr * jstr)) : list jstr :=
  omap (λ h : jstr * jstr, if jeq h.1 ("Set-Cookie " +++ ADMIN_SESSION_COOKIE) then Some h.2 else None) headers.
Definition no_cookie (i : access_item) : Prop := match i with Sent h => session_cookies [h] = [] | _ => True end.

Lemma session_cookies_app l l' : session_cookies (l ++ l') = session_cookies l ++ session_cookies l'.
Proof. apply omap_app. Qed.
Lemma no_cookies l : Forall no_cookie l → session_cookies (sent l) = [].
Proof.
  induction 1 as [|i l Hi _ IH]; [done |]. destruct i as [ev|t|h|t]; try exact IH.
  transitivity (session_cookies ([h] ++ sent l)); [done |]. by rewrite session_cookies_app, Hi.
Qed.

Ltac emit := repeat first
  [ apply emits_bind; [| intros] | apply emits_catch; [| intros] | apply emits_act; intros
  | match goal with |- emits _ (match ?x with _ => _ end) => destruct x end
  | split; [done |] | exact I | progress cbn [emits] | progress intros ].

(** Items that are neither headers, readings of the clock nor calls to the limiter. *)
Definition limiter_call (c : access_call) : bool :=
  match c with
  | User (GetLoginRateLimits _) | User (RecordLoginFailures _ _) | User (ClearObservedLoginRateLimits _) | User (DeleteLoginRateLimitsBefore _) => true
  | _ => false
  end.
Definition neutral (i : access_item) : Prop :=
  match i with Sent _ | Told _ => False | Called ev => limiter_call (projT1 ev) = false | _ => True end.
Lemma neutral_no_cookie l : Forall neutral l → Forall no_cookie l.
Proof. intros H. eapply Forall_impl; [exact H |]. by intros [ | | | ]. Qed.

Lemma user_traced c h (Q : list access_item → result jstr (user_ans c) → Prop) :
  (∀ a, Q (h ++ [Called (user_event c (Ok a))]) (Ok a)) → (∀ e, Q (h ++ [Called (user_event c (Err e))]) (Err e)) → traced (user_call_of c) h Q.
Proof. exact (@traced_act access_call access_ans access_state access_task (User c) h Q). Qed.
Lemma user_emits N c : (∀ x, N (Called (user_event c x))) → emits N (user_call_of c).
Proof. exact (@emits_act access_call access_ans access_state access_task N (User c)). Qed.

Section Spec.
Context `{Admin.Jwt, Mfa.MfaCrypto}.
Context (hmacSha1 : list Z → list Z → list Z) (date_parse : jstr → option Z) (env : access_env) (rq : access_request).
Context (iv csrf_random : list Z) (randomUUID : jstr).
Abbreviation JWT := (Mfa.JWT_SECRET (xe_secrets env)).
Abbreviation login := (login date_parse env rq csrf_random randomUUID).
Abbreviation login_mfa := (login_mfa hmacSha1 date_parse env rq iv csrf_random).

Lemma audit_neutral username ip reason nowMs : emits neutral (auditLoginFailure username ip reason nowMs).
Proof. unfold auditLoginFailure. emit; try (apply user_emits; intros; done). Qed.
Lemma verify_traced account password hash h (Q : list access_item → result jstr bool → Prop) :
  (∀ b, Q (h ++ [Called (event_of (VerifyPassword account password hash) (Ok (JBool b)))]) (Ok b)) →
  (∀ l e, Forall neutral l → Q (h ++ l) (Err e)) → traced (verifyAdminPassword account password hash) h Q.
Proof.
  intros H1 H2. unfold verifyAdminPassword. apply traced_catch, traced_bind. unfold passwordStub.
  destruct (_ || _); cbn [traced]; [generalize (H2 [] unavailable (Forall_nil_2 _)); by rewrite app_nil_r |].
  apply traced_bind, traced_act; intros a; cbn [traced].
  - destruct a; cbn [traced]; try (by apply H2, Forall_singleton). apply H1.
  - by apply H2, Forall_singleton.
Qed.
(** A failed attempt is counted before it is answered. *)
Lemma failed_traced buckets username reason h (Q : list access_item → result jstr unit → Prop) :
  (∀ at_ l r, Forall neutral l →
     Q (h ++ [Told at_; Called (user_event (RecordLoginFailures buckets (iso_string at_)) (Ok tt))] ++ l) r) →
  (∀ l e, Forall no_cookie l → Q (h ++ l) (Err e)) → traced (failed_attempt rq buckets username reason) h Q.
Proof.
  intros H1 H2. unfold failed_attempt. apply traced_bind. cbn [traced clock]. intros at_. apply traced_bind. unfold recordLoginFailure. apply user_traced.
  - intros []. apply (emits_traced neutral); [apply audit_neutral |]. intros l r Hl. rewrite <- !(assoc_L (++)). by apply H1.
  - intros e. rewrite <- (assoc_L (++)). apply H2. by repeat apply Forall_cons_2.
Qed.
Lemma complete_traced user states h (Q : list access_item → result jstr response → Prop) :
  (∀ now token l r, Admin.generateToken (user_identity user) JWT now = Ok token → called l = [] → session_cookies (sent l) = [token] → status r = 200 →
     Q (h ++ l) (Ok r)) →
  (∀ now, Q (h ++ [Told now]) (Ok jwt_misconfigured)) →
  traced (completeAdminLogin env rq csrf_random user states) h Q.
Proof.
  intros H1 H2. unfold completeAdminLogin. apply traced_bind. cbn [traced clock]. intros now. destruct (Admin.generateToken _ _ now) as [token|] eqn:E; [| apply H2].
  unfold setAdminSessionCookie, ensure_csrf_cookie, putAdminSessionEdgeCache, set_cookie. 
  destruct (xe_caches env); cbn [bind traced header spawn]; (destruct (existsb _ _); cbn [bind traced header spawn json_ok]; rewrite <- !(assoc_L (++)); by eapply H1).
Qed.

(** The locks of the buckets, as the limiter answered them. *)
Definition row_of (all : list jstr) (rows : list LoginRateLimit) (b : jstr) : option LoginRateLimit := default None (lookup_field b (states_of all rows)).
Definition free_at (now : Z) (row : option LoginRateLimit) : Prop := parseTimeMs date_parse (match row with Some r => lr_locked_until r | None => None end) ≤ now.
Lemma free_states states now : (0 <? getLoginRetryAfterSeconds date_parse states now) = false → ∀ s, s ∈ states → free_at now s.2.
Proof.
  unfold getLoginRetryAfterSeconds. intros Hr.
  assert (Hg : ∀ m s, m ≤ fold_left (λ locked (s : jstr * option LoginRateLimit), Z.max locked (parseTimeMs date_parse (match s.2 with Some row => lr_locked_until row | None => None end))) states m
    ∧ (s ∈ states → parseTimeMs date_parse (match s.2 with Some row => lr_locked_until row | None => None end)
         ≤ fold_left (λ locked (s : jstr * option LoginRateLimit), Z.max locked (parseTimeMs date_parse (match s.2 with Some row => lr_locked_until row | None => None end))) states m)).
  { clear Hr. induction states as [|x l IH]; intros m s; cbn [fold_left]; [split; [lia | by intros ?%not_elem_of_nil] |].
    destruct (IH (Z.max m (parseTimeMs date_parse (match x.2 with Some row => lr_locked_until row | None => None end))) s) as [H1 H2].
    split; [lia |]. intros [-> | Hs]%elem_of_cons; [lia | by apply H2]. }
  intros s Hs. destruct (Hg 0 s) as [_ H2]. specialize (H2 Hs). unfold free_at. cbv zeta in Hr. destruct (_ <=? now) eqn:E.
  - apply Z.leb_le in E. lia.
  - apply Z.leb_gt in E. apply Z.ltb_ge in Hr. assert ((now - fold_left (λ locked (s : jstr * option LoginRateLimit), Z.max locked
      (parseTimeMs date_parse (match s.2 with Some row => lr_locked_until row | None => None end))) states 0) / 1000 < 0) by (apply Z.div_lt_upper_bound; lia). lia.
Qed.
Lemma states_of_row all rows b : b ∈ all → (b, row_of all rows b) ∈ states_of all rows.
Proof.
  intros Hb. apply lookup_field_elem. unfold row_of, states_of. cbv zeta. set (m := fold_left _ rows []).
  change (lookup_field b (pick (λ bucket, Some (lookup_field bucket m)) all) = Some (default None (lookup_field b (pick (λ bucket, Some (lookup_field bucket m)) all)))).
  rewrite lookup_pick. by rewrite decide_True.
Qed.
Lemma free_buckets all rows now :
  (0 <? getLoginRetryAfterSeconds date_parse (states_of all rows) now) = false → ∀ b, b ∈ all → free_at now (row_of all rows b).
Proof. intros Hr b Hb. exact (free_states _ _ Hr _ (states_of_row all rows b Hb)). Qed.
Lemma free_picked all rows part now :
  let states := fold_left (λ m bucket, set_field bucket (default None (lookup_field bucket (states_of all rows))) m) part [] in
  (0 <? getLoginRetryAfterSeconds date_parse states now) = false → ∀ b, b ∈ part → free_at now (row_of all rows b).
Proof.
  cbv zeta. change (fold_left _ part []) with (pick (λ bucket, Some (row_of all rows bucket)) part). intros Hr b Hb.
  apply (free_states _ _ Hr (b, row_of all rows b)), lookup_field_elem. rewrite lookup_pick. by rewrite decide_True.
Qed.

(** Nothing, or the acknowledged re-encryption of a secret. *)
Definition reencrypted (l : list access_event) : Prop :=
  l = [] ∨ ∃ uuid stored next, l = [user_event (ReencryptTotpSecret uuid stored next) (Ok (JBool true))].
(** What proves an administrator, by the calls of the login and of its second step. *)
Inductive earned_password : list access_event → jstr → Prop :=
| password_proved body username password rows nowMs u now token :
    sent_fields (xq_base rq) = Some body → fld body "username" = JStr username → fld body "password" = JStr password →
    (∀ b, b ∈ loginRateLimitBuckets (clientIp rq) username → free_at nowMs (row_of (loginRateLimitBuckets (clientIp rq) username) rows b)) →
    has_factor u = false → Admin.generateToken (user_identity u) JWT now = Ok token →
    earned_password [user_event (GetLoginRateLimits (loginRateLimitBuckets (clientIp rq) username)) (Ok rows); user_event (GetUserByUsername username) (Ok (Some u));
                     event_of (VerifyPassword (user_uuid u) password (ur_passwd u)) (Ok (JBool true))] token.
Inductive earned_factor : list access_event → jstr → Prop :=
| factor_proved body challenge method code presented payload u rows nowMs confirmed a reencryption answer at_ now token :
    sent_fields (xq_base rq) = Some body → mfa_fields body = Some (challenge, method, code) →
    Admin.verifyMfaToken challenge Admin.mfa_login JWT presented = Ok (Some payload) →
    user_name u = Admin.id_username payload → user_version u = Admin.sessionVersion payload → has_factor u = true →
    (∀ b, b ∈ mfaRateLimitBuckets (clientIp rq) (user_uuid u) →
       free_at nowMs (row_of (loginRateLimitBuckets (clientIp rq) (user_name u) ++ mfaRateLimitBuckets (clientIp rq) (user_uuid u)) rows b)) →
    Mfa.confirmUserMfaFactor hmacSha1 (λ _ _ _, true) (ur_user u)
      {| Mfa.fi_method := method; Mfa.fi_code := code; Mfa.fi_purpose := Admin.mfa_login; Mfa.fi_operationToken := challenge |} (xe_secrets env) iv confirmed = Mfa.Consume a →
    reencrypted reencryption →
    consume_answer date_parse answer = Ok (Some at_) → Admin.generateToken (user_identity u) JWT now = Ok token →
    earned_factor ([user_event (GetUserByUuid (Admin.userId payload)) (Ok (Some u));
                    user_event (GetLoginRateLimits (loginRateLimitBuckets (clientIp rq) (user_name u) ++ mfaRateLimitBuckets (clientIp rq) (user_uuid u))) (Ok rows)]
                   ++ reencryption ++ [user_event (ConsumeMfaFactor a) (Ok answer)]) token.
(** A failure that was counted: the buckets were free when they were read, and the time
    recorded is the last one the request read. *)
Definition counted (B : list jstr) (t : list access_item) : Prop :=
  ∃ all c1 rows c2 at_ c3 l1 nowMs l2,
    called t = c1 ++ [user_event (GetLoginRateLimits all) (Ok rows)] ++ c2 ++ [user_event (RecordLoginFailures B (iso_string at_)) (Ok tt)] ++ c3
    ∧ Forall (λ ev, limiter_call (projT1 ev) = false) (c1 ++ c2 ++ c3)
    ∧ told t = l1 ++ nowMs :: l2 ++ [at_] ∧ ∀ b, b ∈ B → b ∈ all ∧ free_at nowMs (row_of all rows b).
(** The answers that refuse a guess. *)
Definition refused_password (r : result jstr response) : Prop := ∃ resp, r = Ok resp ∧ status resp = 401.
Definition refused_factor (r : result jstr response) : Prop := r = Ok (coded 401 "MFA_INVALID" "验证码或恢复码无效").
Definition outcome (earned : list access_event → jstr → Prop) (refused : result jstr response → Prop) (b : jstr) (t : list access_item) (r : result jstr response) : Prop :=
  (session_cookies (sent t) = [] ∧ ¬ refused r)
  ∨ (∃ token, session_cookies (sent t) = [token] ∧ earned (called t) token ∧ ¬ refused r)
  ∨ (session_cookies (sent t) = [] ∧ ∃ B, b ∈ B ∧ counted B t).

Lemma refused_password_not r : status r ≠ 401 → ¬ refused_password (Ok r).
Proof. intros Hr (resp & [= <-] & Hs). done. Qed.
Lemma refused_password_err e : ¬ refused_password (Err e).
Proof. by intros (resp & ? & _). Qed.
Lemma refused_factor_err e : ¬ refused_factor (Err e).
Proof. done. Qed.
Lemma neutral_called l : Forall neutral l → Forall (λ ev, limiter_call (projT1 ev) = false) (called l).
Proof. induction 1 as [|i l Hi _ IH]; [constructor |]. destruct i as [ev|t|x|t]; try exact IH. by apply Forall_cons. Qed.

Lemma neutral_told l : Forall neutral l → told l = [].
Proof. induction 1 as [|i l Hi _ IH]; [done |]. by destruct i. Qed.

Lemma neutral_sent l : Forall neutral l → sent l = [].
Proof. induction 1 as [|i l Hi _ IH]; [done |]. by destruct i. Qed.

Section Outcomes.
Context (earned : list access_event → jstr → Prop) (refused : result jstr response → Prop) (b : jstr) (refused_err : ∀ e, ¬ refused (Err e)).
Lemma quiet_outcome h l r : sent h = [] → Forall no_cookie l → ¬ refused r → outcome earned refused b (h ++ l) r.
Proof. intros Hs Hl Hr. left. split; [| done]. rewrite sent_app, Hs. by apply no_cookies. Qed.
Lemma quiet_outcome_nil h r : sent h = [] → ¬ refused r → outcome earned refused b h r.
Proof. intros Hs Hr. left. by rewrite Hs. Qed.
Lemma failed_outcome B username reason resp h c1 all rows c2 l1 nowMs l2 :
  b ∈ B → called h = c1 ++ user_event (GetLoginRateLimits all) (Ok rows) :: c2 →
  Forall (λ ev, limiter_call (projT1 ev) = false) (c1 ++ c2) → told h = l1 ++ nowMs :: l2 → sent h = [] →
  (∀ b, b ∈ B → b ∈ all ∧ free_at nowMs (row_of all rows b)) →
  traced (do! failed_attempt rq B username reason in Ret resp) h (outcome earned refused b).
Proof.
  intros Hb Hc Hn Ht Hs Hf. apply traced_bind, failed_traced.
  - intros at_ l r Hl. destruct r as [[]|e]; cbn [traced].
    + right; right. split.
      { rewrite !sent_app, Hs. by apply no_cookies, neutral_no_cookie. }
      exists B. split; [done |]. exists all, c1, rows, c2, at_, (called l), l1, nowMs, (l2). split_and!; [| | | done].
      * rewrite !called_app, Hc, <- (assoc_L (++)). done.
      * rewrite (assoc_L (++)). apply Forall_app. split; [done | by apply neutral_called].
      * rewrite !told_app, Ht, (neutral_told l Hl). cbn. by rewrite <- (assoc_L (++)).
    + apply quiet_outcome; [done | | apply refused_err]. repeat apply Forall_cons_2; try done. by apply neutral_no_cookie.
  - intros l e Hl. by apply quiet_outcome.
Qed.
End Outcomes.

Lemma password_completes username password body rows nowMs u h :
  sent_fields (xq_base rq) = Some body → fld body "username" = JStr username → fld body "password" = JStr password →
  (∀ b, b ∈ loginRateLimitBuckets (clientIp rq) username → free_at nowMs (row_of (loginRateLimitBuckets (clientIp rq) username) rows b)) →
  has_factor u = false → sent h = [] →
  called h = [user_event (GetLoginRateLimits (loginRateLimitBuckets (clientIp rq) username)) (Ok rows); user_event (GetUserByUsername username) (Ok (Some u));
              event_of (VerifyPassword (user_uuid u) password (ur_passwd u)) (Ok (JBool true))] →
  traced (completeAdminLogin env rq csrf_random u (states_of (loginRateLimitBuckets (clientIp rq) username) rows)) h
    (outcome earned_password refused_password ("login:ip:" +++ clientIp rq)).
Proof.
  intros Hb Hu Hp Hf Hn Hs Hc. apply complete_traced.
  - intros now token l r Ht Hl Hk Hr. right; left. exists token. split_and!.
    + rewrite sent_app, Hs. exact Hk.
    + rewrite called_app, Hl, app_nil_r, Hc. by econstructor.
    + apply refused_password_not. by rewrite Hr.
  - intros now. apply quiet_outcome; [done | by apply Forall_singleton | by apply refused_password_not].
Qed.
Lemma login_attempt_traced username password body rows nowMs h :
  let B := loginRateLimitBuckets (clientIp rq) username in
  sent_fields (xq_base rq) = Some body → fld body "username" = JStr username → fld body "password" = JStr password →
  (∀ b, b ∈ B → free_at nowMs (row_of B rows b)) →
  called h = [user_event (GetLoginRateLimits B) (Ok rows)] → told h = [nowMs] → sent h = [] →
  traced (login_attempt env rq csrf_random randomUUID username password B (states_of B rows)) h
    (outcome earned_password refused_password ("login:ip:" +++ clientIp rq)).
Proof.
  cbv zeta. intros Hb Hu Hp Hfree Hc Ht Hs. unfold login_attempt.
  apply traced_bind, user_traced; [intros [u|] | intros e; apply quiet_outcome; [done | by apply Forall_singleton | apply refused_password_err]].
  - apply traced_bind, verify_traced; [intros [] | intros l e Hl; rewrite <- (assoc_L (++)); apply quiet_outcome; [done | apply Forall_cons_2; [done | by apply neutral_no_cookie] | apply refused_password_err]].
    + rewrite <- (assoc_L (++)). set (h' := h ++ _).
      assert (Hc' : called h' = [user_event (GetLoginRateLimits (loginRateLimitBuckets (clientIp rq) username)) (Ok rows); user_event (GetUserByUsername username) (Ok (Some u));
              event_of (VerifyPassword (user_uuid u) password (ur_passwd u)) (Ok (JBool true))]) by (unfold h'; by rewrite called_app, Hc).
      assert (Hs' : sent h' = []) by (unfold h'; by rewrite sent_app, Hs).
      cbn [negb]. apply traced_bind.
      assert (Hgo : ∀ l, called l = [] → sent l = [] → traced (if has_factor u then mfa_challenge env randomUUID u else
        completeAdminLogin env rq csrf_random u (states_of (loginRateLimitBuckets (clientIp rq) username) rows)) (h' ++ l)
        (outcome earned_password refused_password ("login:ip:" +++ clientIp rq))).
      { intros l Hl1 Hl2. destruct (has_factor u) eqn:Ef.
        - unfold mfa_challenge. apply traced_bind. cbn [traced clock]. intros now. destruct (Admin.generateMfaToken _ _ _ _ _) as [c|]; cbn [traced];
            (apply quiet_outcome; [by rewrite sent_app, Hs', Hl2 | by apply Forall_singleton | by apply refused_password_not]).
        - eapply password_completes; try done; [by rewrite sent_app, Hs', Hl2 | by rewrite called_app, Hl1, app_nil_r]. }
      destruct (Password.needsPasswordRehash _); cbn [traced spawn]; [by apply Hgo |]. specialize (Hgo [] eq_refl eq_refl). by rewrite app_nil_r in Hgo.
    + cbn [negb]. eapply (failed_outcome _ _ _ refused_password_err _ _ _ _ _ [] (loginRateLimitBuckets (clientIp rq) username) rows _ [] nowMs []); [left | | | | | by intros b Hb'; split; [| by apply Hfree]].
      * rewrite !called_app, Hc. reflexivity.
      * by repeat apply Forall_cons_2.
      * by rewrite !told_app, Ht.
      * by rewrite !sent_app, Hs.
  - apply traced_bind, user_traced; [intros count | intros e; rewrite <- (assoc_L (++)); apply quiet_outcome; [done | by repeat apply Forall_cons_2 | apply refused_password_err]].
    apply traced_bind, verify_traced; [intros valid | intros l e Hl; rewrite <- !(assoc_L (++)); apply quiet_outcome; [done | | apply refused_password_err]].
    + destruct (count =? 0);
        (eapply (failed_outcome _ _ _ refused_password_err _ _ _ _ _ [] (loginRateLimitBuckets (clientIp rq) username) rows _ [] nowMs []); [left | | | | | by intros b Hb'; split; [| by apply Hfree]];
         [rewrite !called_app, Hc; reflexivity | by repeat apply Forall_cons_2 | by rewrite !told_app, Ht | by rewrite !sent_app, Hs]).
    + repeat apply Forall_cons_2; try done. by apply neutral_no_cookie.
Qed.
Lemma read_body_traced (Q : list access_item → result jstr (response + fields) → Prop) :
  (∀ body, sent_fields (xq_base rq) = Some body → Q [] (Ok (inr body))) → (∀ resp, status resp ≠ 401 → Q [] (Ok (inl resp))) → (∀ e, Q [] (Err e)) →
  traced (readPublicJsonObject rq) [] Q.
Proof.
  intros H1 H2 H3. unfold readPublicJsonObject. apply traced_bind, read_json_traced; cbn [traced]; [| by apply H2 | by apply H2 | done].
  intros v Hv. destruct v; cbn [isJsonObjectPayload]; try (by apply H2). apply H1. unfold sent_fields. by rewrite Hv.
Qed.
Lemma login_traced : traced login [] (outcome earned_password refused_password ("login:ip:" +++ clientIp rq)).
Proof.
  assert (Hq : ∀ h r, sent h = [] → ¬ refused_password r → outcome earned_password refused_password ("login:ip:" +++ clientIp rq) h r).
  { intros h r. apply quiet_outcome_nil. }
  unfold Login.login. apply traced_bind, read_body_traced; [intros body Hb | intros resp Hr; by apply Hq, refused_password_not | intros e; by apply Hq, refused_password_err].
  unfold login_fields. destruct (fld body "username") as [| | | |username| |] eqn:Hu; try (by apply Hq, refused_password_not).
  destruct (fld body "password") as [| | | |password| |] eqn:Hp; try (by apply Hq, refused_password_not).
  destruct (_ || _); [by apply Hq, refused_password_not |]. destruct (_ || _); [by apply Hq, refused_password_not |]. cbv beta iota zeta.
  apply traced_bind. cbn [traced clock]. intros nowMs. apply traced_bind. unfold need_database. destruct (xe_database env); cbn [traced]; [by apply Hq, refused_password_err |].
  apply traced_bind. cbn [traced get]. intros st. apply traced_bind.
  assert (Hgo : ∀ l, called l = [] → told l = [] → sent l = [] →
    traced (let! states := loadLoginRateLimitStates (loginRateLimitBuckets (clientIp rq) username) in
            let retryAfter := getLoginRetryAfterSeconds date_parse states nowMs in
            if 0 <? retryAfter then
              do! retry_after retryAfter in do! auditLoginFailure username (clientIp rq) "rate_limited" nowMs in
              Ret (json_error 429 ("登录尝试过于频繁，请 " +++ dec_Z retryAfter +++ " 秒后再试"))
            else login_attempt env rq csrf_random randomUUID username password (loginRateLimitBuckets (clientIp rq) username) states) ([Told nowMs] ++ l)
      (outcome earned_password refused_password ("login:ip:" +++ clientIp rq))).
  { intros l H1 H2 H3. apply traced_bind. unfold loadLoginRateLimitStates. apply traced_bind, user_traced; [intros rows | intros e; apply Hq; [by rewrite !sent_app, H3 | apply refused_password_err]].
    cbn [traced]. cbv zeta. destruct (0 <? _) eqn:Er.
    - apply traced_bind. cbn [traced retry_after header]. apply traced_bind, (emits_traced neutral); [apply audit_neutral |]. intros l' r Hl'.
      assert (Hk : session_cookies (sent ((((([Told nowMs] ++ l) ++ [Called (user_event (GetLoginRateLimits (loginRateLimitBuckets (clientIp rq) username)) (Ok rows))]) ++
        [Sent ("Retry-After", dec_Z (getLoginRetryAfterSeconds date_parse (states_of (loginRateLimitBuckets (clientIp rq) username) rows) nowMs))]) ++ l'))) = []).
      { rewrite !sent_app, H3. cbn [Datatypes.app sent]. change (session_cookies ([("Retry-After", dec_Z (getLoginRetryAfterSeconds date_parse
          (states_of (loginRateLimitBuckets (clientIp rq) username) rows) nowMs))] ++ sent l') = []). rewrite session_cookies_app, (no_cookies l') by (by apply neutral_no_cookie). done. }
      destruct r; cbn [traced]; left; (split; [exact Hk |]); [by apply refused_password_not | apply refused_password_err].
    - eapply login_attempt_traced; [done | done | done | by apply free_buckets | | |].
      + by rewrite !called_app, H1.
      + by rewrite !told_app, H2.
      + by rewrite !sent_app, H3. }
  destruct (cleanup_due _ _); cbn [traced spawn]; [by apply Hgo |]. specialize (Hgo [] eq_refl eq_refl eq_refl). by rewrite app_nil_r in Hgo.
Qed.

(** ** The second step *)

Lemma attempt_traced c h (Q : list access_item → result jstr (result jstr (user_ans c)) → Prop) :
  (∀ x, Q (h ++ [Called (user_event c x)]) (Ok x)) → traced (attempt_act (User c : access_call) : access (result jstr (user_ans c))) h Q.
Proof. intros HQ. exact HQ. Qed.
Abbreviation unconfirmed r := (∀ at_ : jstr, r ≠ (Ok (Ok (Some at_)) : result jstr (result factor_failure (option jstr)))).
Lemma consume_traced a h (Q : list access_item → result jstr (result factor_failure (option jstr)) → Prop) :
  (∀ answer at_, consume_answer date_parse answer = Ok (Some at_) → Q (h ++ [Called (user_event (ConsumeMfaFactor a) (Ok answer))]) (Ok (Ok (Some at_)))) →
  (∀ l r, Forall neutral l → unconfirmed r → Q (h ++ l) r) → traced (consumeMfaFactor date_parse a) h Q.
Proof.
  intros H1 H2. unfold consumeMfaFactor. apply traced_bind, attempt_traced. intros [answer|e]; cbn [traced]; [| apply H2; [by apply Forall_singleton | done]].
  destruct (consume_answer date_parse answer) as [[at_|]|] eqn:E; [by apply H1 | |]; (apply H2; [by apply Forall_singleton | done]).
Qed.
Lemma reencrypt_traced u stored secret h (Q : list access_item → result jstr (option factor_failure) → Prop) :
  (∀ l, (Mfa.needsTotpReencryption stored (xe_secrets env) = Ok false ∧ l = []
         ∨ Mfa.needsTotpReencryption stored (xe_secrets env) = Ok true
           ∧ ∃ next, Mfa.encryptTotpSecret secret (Admin.uuid u) (xe_secrets env) iv = Ok next
                     ∧ l = [user_event (ReencryptTotpSecret (Admin.uuid u) stored next) (Ok (JBool true))]) → Q (h ++ map Called l) (Ok None)) →
  (∀ l f, Forall neutral l → Q (h ++ l) (Ok (Some f))) → traced (Login.reencrypt env iv u stored secret) h Q.
Proof.
  intros H1 H2. unfold Login.reencrypt. destruct (Mfa.needsTotpReencryption _ _) as [[]|e] eqn:E; cbn [traced].
  - destruct (Mfa.encryptTotpSecret _ _ _ _) as [next|e] eqn:E'; cbn [traced].
    + apply traced_bind, attempt_traced. intros x. cbn [traced].
      assert (Hn : Forall neutral [Called (user_event (ReencryptTotpSecret (Admin.uuid u) stored next) x)]) by (by apply Forall_singleton).
      destruct x as [[| |[]| | | |]|e]; try (by apply H2). apply (H1 [user_event _ _]). right. split; [done |]. by exists next.
    + generalize (H2 [] (factor_failed e) (Forall_nil_2 _)). by rewrite app_nil_r.
  - generalize (H1 []). cbn. rewrite app_nil_r. intros H1'. apply H1'. by left.
  - generalize (H2 [] (factor_failed e) (Forall_nil_2 _)). by rewrite app_nil_r.
Qed.
(** The program of the confirmation agrees with the function that describes it. *)
Lemma confirm_traced u input h (Q : list access_item → result jstr (result factor_failure (option jstr)) → Prop) :
  (∀ now a l answer at_, Mfa.confirmUserMfaFactor hmacSha1 (λ _ _ _, true) u input (xe_secrets env) iv now = Mfa.Consume a → reencrypted l →
     consume_answer date_parse answer = Ok (Some at_) →
     Q (h ++ [Told now] ++ map Called l ++ [Called (user_event (ConsumeMfaFactor a) (Ok answer))]) (Ok (Ok (Some at_)))) →
  (∀ now l r, Forall neutral l → unconfirmed r → Q (h ++ [Told now] ++ l) r) →
  traced (confirmUserMfaFactor hmacSha1 date_parse env iv u input) h Q.
Proof.
  intros H1 H2. unfold confirmUserMfaFactor. apply traced_bind. cbn [traced clock]. intros now. specialize (H1 now). specialize (H2 now).
  unfold Mfa.confirmUserMfaFactor in H1. destruct (_ || _); [by apply (H2 [])|].
  destruct (Mfa.normalize_factor input) as [code|]; [| by apply (H2 [])]. cbv zeta. destruct (Mfa.factor_keys u input code) as [factorKey operationId].
  assert (Hend : ∀ a l, reencrypted l →
    (∀ answer at_, consume_answer date_parse answer = Ok (Some at_) → Q (h ++ [Told now] ++ map Called l ++ [Called (user_event (ConsumeMfaFactor a) (Ok answer))]) (Ok (Ok (Some at_)))) →
    traced (consumeMfaFactor date_parse a) ((h ++ [Told now]) ++ map Called l) Q).
  { intros a l Hl Ha. apply consume_traced.
    - intros answer at_ Hat. rewrite <- !(assoc_L (++)). by apply Ha.
    - intros l' r Hl' Hr. rewrite <- !(assoc_L (++)). apply H2; [| done]. apply Forall_app. split; [| done].
      destruct Hl as [-> | (? & ? & ? & ->)]; [constructor | by apply Forall_singleton]. }
  assert (Hend0 : ∀ a, (∀ answer at_, consume_answer date_parse answer = Ok (Some at_) → Q (h ++ [Told now] ++ [Called (user_event (ConsumeMfaFactor a) (Ok answer))]) (Ok (Ok (Some at_)))) →
    traced (consumeMfaFactor date_parse a) (h ++ [Told now]) Q).
  { intros a Ha. generalize (Hend a [] (or_introl eq_refl) Ha). by rewrite app_nil_r. }
  destruct (Mfa.fi_method input).
  - destruct (Mfa.decryptTotpSecret _ _ _) as [secret|e] eqn:Ed; [| by apply (H2 [])].
    destruct (Totp.verifyTotpCode _ _ _ _) as [[step|]|] eqn:Ev; [| | by apply (H2 [])].
    + apply traced_bind, reencrypt_traced.
      * intros l Hl. cbv beta iota.
        apply Hend; [destruct Hl as [[_ ->] | (_ & next & _ & ->)]; [by left | right; eauto] |]. intros answer at_ Hat. apply (H1 _ l); [| | done].
        -- unfold Mfa.totp_step. rewrite Ed, Ev. destruct Hl as [[-> _] | (-> & next & -> & _)]; reflexivity.
        -- destruct Hl as [[_ ->] | (_ & next & _ & ->)]; [by left | right; eauto].
      * intros l f Hl. cbv beta iota. cbn [traced]. rewrite <- (assoc_L (++)). by apply H2.
    + apply Hend0. intros answer at_ Hat. eapply (H1 _ []); [| by left | done]. unfold Mfa.totp_step. by rewrite Ed, Ev.
  - destruct (Mfa.hashRecoveryCodeCandidates _ _) as [hashes|e] eqn:Eh; [| by apply (H2 [])].
    apply Hend0. intros answer at_ Hat. by eapply (H1 _ []); [| by left | done].
Qed.
Lemma factor_completes body challenge method code presented payload u rows nowMs h :
  let B := mfaRateLimitBuckets (clientIp rq) (user_uuid u) in
  let all := loginRateLimitBuckets (clientIp rq) (user_name u) ++ B in
  sent_fields (xq_base rq) = Some body → mfa_fields body = Some (challenge, method, code) →
  Admin.verifyMfaToken challenge Admin.mfa_login JWT presented = Ok (Some payload) →
  user_name u = Admin.id_username payload → user_version u = Admin.sessionVersion payload → has_factor u = true →
  (∀ b, b ∈ B → free_at nowMs (row_of all rows b)) →
  called h = [user_event (GetUserByUuid (Admin.userId payload)) (Ok (Some u)); user_event (GetLoginRateLimits all) (Ok rows)] →
  told h = [presented; nowMs] → sent h = [] →
  traced (let! confirmation := confirmUserMfaFactor hmacSha1 date_parse env iv (ur_user u)
            {| Mfa.fi_method := method; Mfa.fi_code := code; Mfa.fi_purpose := Admin.mfa_login; Mfa.fi_operationToken := challenge |} in
          match confirmation with
          | Err f => Ret (factor_failure_response f)
          | Ok None => do! failed_attempt rq B (user_name u) "invalid_mfa" in Ret (coded 401 "MFA_INVALID" "验证码或恢复码无效")
          | Ok (Some _) => completeAdminLogin env rq csrf_random u (states_of all rows)
          end) h (outcome earned_factor refused_factor ("mfa:ip:" +++ clientIp rq)).
Proof.
  cbv zeta. intros Hb Hm Hv Hn Hsv Hf Hfree Hc Ht Hs. apply traced_bind, confirm_traced.
  - intros now a l answer at_ Ha Hl Hat. cbn [traced].
    assert (Hk : sent (map Called l : list access_item) = [] ∧ called (map Called l : list access_item) = l) by (destruct Hl as [-> | (? & ? & ? & ->)]; done).
    destruct Hk as [Hk1 Hk2]. apply complete_traced.
    + intros now' token l' r Htok Hl' Hk Hr. right; left. exists token. split_and!; [| | intros [= ->]; discriminate Hr].
      * rewrite !sent_app, Hs, Hk1. exact Hk.
      * rewrite !called_app, Hc, Hk2, Hl', app_nil_r. cbn [called omap list_omap]. by econstructor.
    + intros now'. apply quiet_outcome; [by rewrite !sent_app, Hs, Hk1 | by apply Forall_singleton | done].
  - intros now l r Hl Hr. destruct r as [[[at_|]|f]|e].
    + by destruct (Hr at_).
    + eapply (failed_outcome _ _ _ refused_factor_err _ _ _ _ _ [_] (loginRateLimitBuckets (clientIp rq) (user_name u) ++ mfaRateLimitBuckets (clientIp rq) (user_uuid u)) rows (called l) [presented] nowMs [now]); [left | | | | | intros b Hb'; split; [apply elem_of_app; by right | by apply Hfree]].
      * rewrite !called_app, Hc. reflexivity.
      * apply Forall_cons_2; [done |]. by apply neutral_called.
      * by rewrite !told_app, Ht, (neutral_told l Hl).
      * by rewrite !sent_app, Hs, (neutral_sent l Hl).
    + cbn [traced]. apply quiet_outcome; [done | | by destruct f]. apply Forall_cons_2; [done |]. by apply neutral_no_cookie.
    + apply quiet_outcome; [done | | apply refused_factor_err]. apply Forall_cons_2; [done |]. by apply neutral_no_cookie.
Qed.
Lemma login_mfa_traced : traced login_mfa [] (outcome earned_factor refused_factor ("mfa:ip:" +++ clientIp rq)).
Proof.
  assert (Hq : ∀ h r, sent h = [] → ¬ refused_factor r → outcome earned_factor refused_factor ("mfa:ip:" +++ clientIp rq) h r).
  { intros h r. apply quiet_outcome_nil. }
  unfold Login.login_mfa. apply traced_bind, read_body_traced; [intros body Hb | intros resp Hr; apply Hq; [done | by intros [= ->]] | intros e; by apply Hq].
  destruct (mfa_fields body) as [[[challenge method] code]|] eqn:Hm; [| by apply Hq]. cbv beta iota.
  apply traced_bind. cbn [traced clock]. intros presented. destruct (Admin.verifyMfaToken _ _ _ _) as [[payload|]|] eqn:Hv; [| by apply Hq | by apply Hq].
  apply traced_bind. unfold need_database. destruct (xe_database env); cbn [traced]; [by apply Hq |].
  apply traced_bind, user_traced; [intros user | intros e; by apply Hq].
  destruct (challenged payload user) as [u|] eqn:Hu; [| by apply Hq].
  assert (Hu' : user = Some u ∧ user_name u = Admin.id_username payload ∧ user_version u = Admin.sessionVersion payload ∧ has_factor u = true).
  { unfold challenged in Hu. destruct user as [v|]; [| done]. destruct (jeq (user_name v) _) eqn:E1; [| done]. destruct (user_version v =? _) eqn:E2; [| done].
    destruct (has_factor v) eqn:E3; [| done]. injection Hu as ->. apply jeq_true in E1. apply Z.eqb_eq in E2. done. }
  destruct Hu' as (-> & Hn & Hsv & Hf). unfold mfa_attempt. cbv zeta. apply traced_bind. cbn [traced clock]. intros nowMs.
  apply traced_bind. unfold loadLoginRateLimitStates. apply traced_bind, user_traced; [intros rows | intros e; by apply Hq]. cbn [traced].
  destruct (0 <? _) eqn:Er.
  - apply traced_bind. cbn [traced retry_after header]. apply traced_bind, (emits_traced neutral); [apply audit_neutral |]. intros l r Hl.
    destruct r; cbn [traced]; left; (split; [| done]); rewrite sent_app, (neutral_sent l Hl), app_nil_r; reflexivity.
  - eapply factor_completes; try done. exact (free_picked _ _ _ _ Er).
Qed.
End Spec.

(** C5: The session cookie is earned.  Whatever the database and the other services answer,
    a login sets a session token only when the buckets of its address and user were not
    locked, the database gave the user of that name, the password service accepted the
    password sent for that user, and the user has no second factor; the second step sets one
    only for a challenge this server signed for a login, whose user still has that name,
    session version and factor, while the buckets of the factor were free, and after the
    database consumed the factor the code proves.  The token is the one of that user, and
    these are all the calls that are awaited. *)
Theorem session_cookie_earned `{Admin.Jwt, Mfa.MfaCrypto} hmacSha1 date_parse env rq iv csrf_random randomUUID e n s token :
  (token ∈ session_cookies (r_headers (exec e n s (login date_parse env rq csrf_random randomUUID))) →
   earned_password date_parse env rq (r_log (exec e n s (login date_parse env rq csrf_random randomUUID))) token)
  ∧ (token ∈ session_cookies (r_headers (exec e n s (login_mfa hmacSha1 date_parse env rq iv csrf_random))) →
     earned_factor hmacSha1 date_parse env rq iv (r_log (exec e n s (login_mfa hmacSha1 date_parse env rq iv csrf_random))) token).
Proof.
  rewrite <- !trace_headers, <- !trace_log. split; intros Ht.
  - destruct (traced_sound _ _ _ e n s (login_traced date_parse env rq csrf_random randomUUID)) as [[Hc _] | [(token' & Hc & He & _) | [Hc _]]];
      cbn [Datatypes.app] in *; rewrite Hc in Ht; try (by apply not_elem_of_nil in Ht). by apply list_elem_of_singleton in Ht as ->.
  - destruct (traced_sound _ _ _ e n s (login_mfa_traced hmacSha1 date_parse env rq iv csrf_random)) as [[Hc _] | [(token' & Hc & He & _) | [Hc _]]];
      cbn [Datatypes.app] in *; rewrite Hc in Ht; try (by apply not_elem_of_nil in Ht). by apply list_elem_of_singleton in Ht as ->.
Qed.

(** ** The rate of guesses *)

Section Rate.
Context `{Admin.Jwt, Mfa.MfaCrypto} (hmacSha1 : list Z → list Z → list Z) (date_parse : jstr → option Z).
(** [text::timestamptz] of the database *)
Context (timestamptz : jstr → option Z).

(** The answer of the limiter shows the row of a bucket. *)
Definition shows (b : jstr) (row : option limit_row) (rows : list LoginRateLimit) : Prop :=
  match row with
  | None => Forall (λ r, lr_bucket r ≠ b) rows
  | Some w => Exists (λ r, lr_bucket r = b) rows
              ∧ Forall (λ r, lr_bucket r = b → match lw_locked w with
                                              | None => lr_locked_until r = None
                                              | Some l => ∃ text, lr_locked_until r = Some text ∧ nonempty text = true ∧ date_parse text = Some l
                                              end) rows
  end.
(** What a call of a login does to the row of a bucket, and what it may answer of it; a
    call whose answer is lost may have been carried out.  A guess clears and removes nothing. *)
Inductive serves (b : jstr) (row : option limit_row) : access_event → option limit_row → Prop :=
| serves_read all rows : (b ∈ all → shows b row rows) → serves b row (user_event (GetLoginRateLimits all) (Ok rows)) row
| serves_no_read all e : serves b row (user_event (GetLoginRateLimits all) (Err e)) row
| serves_record bs text at_ revision : timestamptz text = Some at_ →
    serves b row (user_event (RecordLoginFailures bs text) (Ok tt)) (if decide (b ∈ bs) then Some (count_failure at_ revision row) else row)
| serves_lost bs text e row' : (row' = row ∨ ∃ at_ revision, row' = Some (count_failure at_ revision row)) →
    serves b row (user_event (RecordLoginFailures bs text) (Err e)) row'
| serves_other ev : limiter_call (projT1 ev) = false → serves b row ev row.
Inductive served (b : jstr) : option limit_row → list access_event → option limit_row → Prop :=
| served_nil row : served b row [] row
| served_cons row ev row1 l row2 : serves b row ev row1 → served b row1 l row2 → served b row (ev :: l) row2.

Inductive guess_kind := By_password | By_factor.
Definition guess_bucket (k : guess_kind) (ip : jstr) : jstr := match k with By_password => "login:ip:" | By_factor => "mfa:ip:" end +++ ip.
Definition guess_program (k : guess_kind) env rq iv csrf_random randomUUID : access response :=
  match k with
  | By_password => login date_parse env rq csrf_random randomUUID
  | By_factor => login_mfa hmacSha1 date_parse env rq iv csrf_random
  end.
Definition refused (k : guess_kind) : result jstr response → Prop := match k with By_password => refused_password | By_factor => refused_factor end.
(** Guesses from one address, one after another: the row of the address, the times at which
    they were refused (the last one first) and the time reached; old rows may be removed
    in between. *)
Inductive guesses (k : guess_kind) (ip : jstr) : option limit_row → list Z → Z → Prop :=
| guesses_start now : guesses k ip None [] now
| guesses_time row ts now later : guesses k ip row ts now → now ≤ later → guesses k ip row ts later
| guesses_removal row ts now db_now :
    guesses k ip (Some row) ts now → outdated (now - LOGIN_RATE_LIMIT_CLEANUP_AGE_MS) db_now row = true → guesses k ip None ts now
| guesses_guess row ts now env rq iv csrf_random randomUUID (e : Effects.env access_call access_ans access_state) n s row' at_ :
    guesses k ip row ts now → clientIp rq = ip →
    now ≤ e_clock e n → (∀ i j, (i ≤ j)%nat → e_clock e i ≤ e_clock e j) → (∀ i, timestamptz (iso_string (e_clock e i)) = Some (e_clock e i)) →
    let p := guess_program k env rq iv csrf_random randomUUID in
    refused k (r_value (exec e n s p)) → served (guess_bucket k ip) row (r_log (exec e n s p)) row' → last (told (trace e n s p)) = Some at_ →
    guesses k ip row' (at_ :: ts) at_.

Lemma served_app b row l1 l2 row2 : served b row (l1 ++ l2) row2 → ∃ row1, served b row l1 row1 ∧ served b row1 l2 row2.
Proof.
  revert row. induction l1 as [|ev l1 IH]; intros row Hs; [exists row; split; [constructor | done] |].
  cbn [Datatypes.app] in Hs. inversion Hs as [|? ? row1 ? ? H1 H2]; subst. apply IH in H2 as (row' & H2 & H3). exists row'. split; [by econstructor | done].
Qed.
Lemma serves_inv b row ev row' : serves b row ev row' →
  match ev with
  | existT (User (GetLoginRateLimits all)) x => row' = row ∧ match x with Ok rows => b ∈ all → shows b row rows | Err _ => True end
  | existT (User (RecordLoginFailures bs text)) (Ok _) =>
    ∃ at_ revision, timestamptz text = Some at_ ∧ row' = if decide (b ∈ bs) then Some (count_failure at_ revision row) else row
  | existT c _ => limiter_call c = false → row' = row
  end.
Proof.
  intros Hs. destruct Hs as [all rows Hr|all x|bs text at_ revision Ht|bs text x row1 Hl|ev0 He]; cbn; eauto; try done.
  destruct ev0 as [[[]| | | | | |] []]; cbn in *; done.
Qed.
Lemma served_neutral b row l row' : Forall (λ ev, limiter_call (projT1 ev) = false) l → served b row l row' → row' = row.
Proof.
  intros Hl. induction 1 as [row|row ev row1 l row2 H1 H2 IH]; [done |]. apply Forall_cons in Hl as [He Hl].
  rewrite (IH Hl). apply serves_inv in H1. destruct ev as [[[]| | | | | |] []]; cbn in *; try done; by apply H1.
Qed.

Lemma last_row b rows acc (P : LoginRateLimit → Prop) :
  (∀ r, r ∈ rows → lr_bucket r = b → P r) → (∀ r, lookup_field b acc = Some r → P r) → Exists (λ r, lr_bucket r = b) rows ∨ is_Some (lookup_field b acc) →
  ∃ r, lookup_field b (fold_left (λ m row, set_field (lr_bucket row) row m) rows acc) = Some r ∧ P r.
Proof.
  revert acc. induction rows as [|x rows IH]; intros acc Hr Ha Hs; cbn [fold_left].
  - destruct Hs as [Hs%Exists_nil | [r Hs]]; [done | eauto].
  - apply IH; [intros r Hin; apply Hr; by right | |].
    + intros r. rewrite lookup_set_field. destruct (decide (b = lr_bucket x)) as [E|]; [intros [= <-]; apply Hr; [left | done] | apply Ha].
    + rewrite lookup_set_field. destruct (decide (b = lr_bucket x)) as [E|]; [by right |]. destruct Hs as [Hs | Hs]; [| by right].
      apply Exists_cons in Hs as [Hs | Hs]; [congruence | by left].
Qed.
Lemma shows_free b row all rows now : b ∈ all → shows b row rows → free_at date_parse now (row_of all rows b) → locked_at now row = false.
Proof.
  intros Hb Hs Hf. unfold locked_at. destruct row as [w|]; [| done]. destruct (lw_locked w) as [l|] eqn:El; [| done].
  destruct Hs as [He Ha]. rewrite El in Ha.
  assert (Hr : ∃ r, row_of all rows b = Some r ∧ r ∈ rows ∧ lr_bucket r = b).
  { unfold row_of, states_of. cbv zeta. set (m := fold_left _ rows []). change (fold_left _ all []) with (pick (λ k, Some (lookup_field k m)) all).
    rewrite lookup_pick, decide_True by done. cbn [default].
    apply (last_row b rows [] (λ r, r ∈ rows ∧ lr_bucket r = b)); [done | done | by left]. }
  destruct Hr as (r & Hrow & Hin & Hbk). rewrite Forall_forall in Ha. destruct (Ha r Hin Hbk) as (text & Ht & Hne & Hp).
  unfold free_at in Hf. rewrite Hrow, Ht in Hf. unfold parseTimeMs in Hf. rewrite Hne, Hp in Hf. cbn in Hf. by apply Z.ltb_ge.
Qed.
(** A counted failure of a bucket: when it was free, and the row after it. *)
Lemma counted_served B b t row row' :
  counted date_parse B t → b ∈ B → served b row (called t) row' → (∀ x, x ∈ told t → timestamptz (iso_string x) = Some x) →
  ∃ l1 nowMs l2 at_ revision, told t = l1 ++ nowMs :: l2 ++ [at_] ∧ locked_at nowMs row = false ∧ row' = Some (count_failure at_ revision row).
Proof.
  intros (all & c1 & rows & c2 & at_ & c3 & l1 & nowMs & l2 & Hc & Hn & Ht & Hf) Hb Hs Hts. rewrite Hc in Hs.
  apply Forall_app in Hn as [Hn1 Hn]. apply Forall_app in Hn as [Hn2 Hn3].
  apply served_app in Hs as (row1 & H1 & Hs). apply (served_neutral _ _ _ _ Hn1) in H1 as ->.
  cbn [Datatypes.app] in Hs. inversion Hs as [|? ? row2 ? ? H2 Hs2]; subst. apply serves_inv in H2 as [-> Hshow].
  apply served_app in Hs2 as (row3 & H3 & Hs3). apply (served_neutral _ _ _ _ Hn2) in H3 as ->.
  inversion Hs3 as [|? ? row4 ? ? H4 Hs4]; subst. apply serves_inv in H4 as (at' & revision & Hat & ->).
  rewrite Hts in Hat by (rewrite Ht, !elem_of_app, elem_of_cons; right; right; apply elem_of_app; right; left). injection Hat as <-.
  rewrite decide_True in Hs4 by done. apply (served_neutral _ _ _ _ Hn3) in Hs4 as ->.
  destruct (Hf b Hb) as [Hall Hfree]. exists l1, nowMs, l2, at_, revision. split_and!; [done | | done].
  eapply shows_free; [exact Hall | by apply Hshow | exact Hfree].
Qed.
Lemma trace_told_env {A} e n s (p : access A) x : x ∈ told (trace e n s p) → ∃ i, x = e_clock e i.
Proof.
  revert n s. induction p as [a|y|c k IH|k IH|u k IH|k IH|hd k IH|t k IH]; intros n s Hx; cbn in Hx; try (by apply not_elem_of_nil in Hx); try (by eapply IH).
  apply elem_of_cons in Hx as [-> | Hx]; [by eexists | by eapply IH].
Qed.
Lemma refused_counted k env rq iv csrf_random randomUUID e n s :
  let p := guess_program k env rq iv csrf_random randomUUID in
  refused k (r_value (exec e n s p)) → ∃ B, guess_bucket k (clientIp rq) ∈ B ∧ counted date_parse B (trace e n s p).
Proof.
  cbv zeta. intros Hr. destruct k; cbn [guess_program refused guess_bucket] in *.
  - destruct (traced_sound _ _ _ e n s (login_traced date_parse env rq csrf_random randomUUID)) as [[_ H1] | [(? & _ & _ & H1) | [_ H1]]]; [done | done | exact H1].
  - destruct (traced_sound _ _ _ e n s (login_mfa_traced hmacSha1 date_parse env rq iv csrf_random)) as [[_ H1] | [(? & _ & _ & H1) | [_ H1]]]; [done | done | exact H1].
Qed.
Lemma guesses_history k ip row ts now : guesses k ip row ts now → history row ts now.
Proof.
  induction 1 as [now|row ts now later H1 IH Hle|row ts now db_now H1 IH Ho|row ts now env rq iv csrf randomUUID e n s row' at_ H1 IH Hip Hn Hm Hts p Hr Hs Hl].
  - constructor.
  - by eapply history_time.
  - by eapply history_removal.
  - destruct (refused_counted k env rq iv csrf randomUUID e n s Hr) as (B & Hb & Hc). rewrite Hip in Hb. fold p in Hc. rewrite <- trace_log in Hs.
    destruct (counted_served B _ _ row row' Hc Hb Hs) as (l1 & nowMs & l2 & at' & revision & Ht & Hu & ->).
    { intros x Hx. apply trace_told_env in Hx as (i & ->). apply Hts. }
    destruct (trace_clock e n s p Hm) as [Hsort Hlow]. rewrite Ht in Hsort, Hlow, Hl.
    assert (at' = at_) as -> by (rewrite app_comm_cons, (assoc_L (++)), last_snoc in Hl; congruence).
    apply history_failure with nowMs; [| done |].
    + apply history_time with now; [done |]. rewrite Forall_app, Forall_cons in Hlow. destruct Hlow as (_ & Hlow & _). lia.
    + apply StronglySorted_app_1_r in Hsort. inversion Hsort as [|? ? _ Hall]; subst. rewrite Forall_app, Forall_singleton in Hall. by destruct Hall.
Qed.
End Rate.


(** ** Examples *)

(** A token library, an administrator with or without a factor, and services that answer. *)
Definition ex_jwt : Admin.Jwt :=
  {| Admin.jwt_sign := λ p _, json (JObj p);
     Admin.jwt_verify := λ _ token _, if jeq token "challenge" then Some (JObj (Admin.mfa_payload Admin.sample_identity Admin.mfa_login "j" 0)) else None |}.
Definition ex_env : access_env :=
  {| xe_secrets := {| Mfa.JWT_SECRET := Admin.sample_env; Mfa.MFA_SECRET := None; Mfa.MFA_PREVIOUS_SECRET := None; Mfa.MFA_LEGACY_SECRET := None |};
     xe_caches := false; xe_rate_limit := false; xe_database := None; xe_service_key := "" |}.
Definition ex_request (body : fields) : access_request :=
  {| xq_base := {| rq_authorization := None; rq_ip := Some "203.0.113.7"; rq_length := None; rq_ip_country := None; rq_cf := None;
                   rq_body := Some ([Some (utf8 (json (JObj body)))], None); rq_format := None |};
     xq_head := false; xq_session := None; xq_csrf_cookie := None; xq_csrf_header := None; xq_userId := ""; xq_username := "" |}.
Definition ex_user (factor : bool) : user_row :=
  {| ur_user := if factor then Admin.sample_row
                else {| Admin.uuid := "u-1"; Admin.username := "admin"; Admin.session_version := 3; Admin.totp_enabled_at := None; Admin.totp_secret_enc := None |};
     ur_passwd := DUMMY_ADMIN_PASSWORD_HASH; ur_recovery := None |}.
Definition ex_user_answer (factor : bool) (c : user_call) : result jstr (user_ans c) :=
  match c with
  | GetLoginRateLimits _ => Ok []
  | GetUserByUsername _ => Ok (Some (ex_user factor))
  | GetUserByUuid _ => Ok (Some (ex_user factor))
  | RecordLoginFailures _ _ => Ok tt
  | AuditLogEntry _ _ _ _ => Ok tt
  | ConsumeMfaFactor _ => Ok (JObj [("verified", JBool true); ("verified_at", JStr "2024-01-01T00:00:00Z")])
  | _ => Err "unavailable"
  end.
Definition ex_run_env (factor valid : bool) (now : Z) : Effects.env access_call access_ans access_state :=
  {| e_answer := λ _ c, match c return result jstr (access_ans c) with User c => ex_user_answer factor c | VerifyPassword _ _ _ => Ok (JBool valid) | _ => Err "unavailable" end;
     e_clock := λ _, now; e_others := λ _ s, s |}.
Definition ex_state : access_state :=
  {| lastLoginRateLimitCleanupAt := 0; loginFailureAuditThrottle := []; publicRateLimitBuckets := []; publicRateLimitSweepCounter := 0; adminSessionCache := [] |}.
Definition ex_password : access_request := ex_request [("username", JStr "admin"); ("password", JStr "correct horse battery staple")].
Definition ex_code : access_request :=
  ex_request [("challenge", JStr "challenge"); ("method", JStr "recovery_code"); ("code", JStr "AAAA-BBBB-CCCC-DDDD-EEEE-FFFF")].
Definition ex_date (s : jstr) : option Z := if jeq s "2024-01-01T00:00:00Z" then Some 1704067200000 else None.
Definition ex_timestamptz (s : jstr) : option Z := if jeq s (iso_string 1704067200000) then Some 1704067200000 else None.
Definition first_cookie (headers : list (jstr * jstr)) : jstr := default "" (head (session_cookies headers)).

Lemma session_cookie_earned_witness :
  (∃ token, earned_password (H := ex_jwt) ex_date ex_env ex_password
     (r_log (exec (ex_run_env false true 0) 0 ex_state (login (H := ex_jwt) ex_date ex_env ex_password [] "r"))) token)
  ∧ (∃ token, earned_factor (H := ex_jwt) (H0 := Mfa.sample_crypto) (λ _ _, []) ex_date ex_env ex_code []
     (r_log (exec (ex_run_env true true 0) 0 ex_state (login_mfa (H := ex_jwt) (H0 := Mfa.sample_crypto) (λ _ _, []) ex_date ex_env ex_code [] []))) token).
Proof.
  split.
  - eexists. apply (@session_cookie_earned ex_jwt Mfa.sample_crypto (λ _ _, []) ex_date ex_env ex_password [] [] "r" (ex_run_env false true 0) 0 ex_state
      (first_cookie (r_headers (exec (ex_run_env false true 0) 0 ex_state (login (H := ex_jwt) ex_date ex_env ex_password [] "r"))))).
    apply (bool_decide_eq_true_1 _). vm_compute. reflexivity.
  - eexists. apply (@session_cookie_earned ex_jwt Mfa.sample_crypto (λ _ _, []) ex_date ex_env ex_code [] [] "r" (ex_run_env true true 0) 0 ex_state
      (first_cookie (r_headers (exec (ex_run_env true true 0) 0 ex_state (login_mfa (H := ex_jwt) (H0 := Mfa.sample_crypto) (λ _ _, []) ex_date ex_env ex_code [] []))))).
    apply (bool_decide_eq_true_1 _). vm_compute. reflexivity.
Defined.

Definition ex_buckets : list jstr := loginRateLimitBuckets "203.0.113.7" "admin".
Definition ex_refused_log : list access_event :=
  [user_event (GetLoginRateLimits ex_buckets) (Ok []); user_event (GetUserByUsername "admin") (Ok (Some (ex_user false)));
   event_of (VerifyPassword "u-1" "correct horse battery staple" DUMMY_ADMIN_PASSWORD_HASH) (Ok (JBool false));
   user_event (RecordLoginFailures ex_buckets (iso_string 1704067200000)) (Ok tt);
   user_event (AuditLogEntry "admin" "login_failed" (json (JObj [("username", JStr "admin"); ("ip", JStr "203.0.113.7"); ("reason", JStr "invalid_password")])) "warn") (Ok tt)].
Lemma ex_refused_served : served ex_date ex_timestamptz "login:ip:203.0.113.7" None ex_refused_log (Some (count_failure 1704067200000 "r" None)).
Proof.
  eapply served_cons; [apply serves_read; intros _; constructor |].
  eapply served_cons; [by apply serves_other |]. eapply served_cons; [by apply serves_other |].
  eapply served_cons; [apply serves_record with (revision := "r"); vm_compute; reflexivity |].
  rewrite decide_True by left. eapply served_cons; [by apply serves_other | constructor].
Qed.

