(* ===== verification/Account.v ===== *)
(** * The administrator's account: [routes/admin.ts]

    Enrolling, confirming and removing a second factor, and changing the name or the
    password: every change of what a session rests on rotates the version of the user's
    sessions.  Random values are parameters of a request. *)

From S2P Require Import Prelude JsStr JsNum JsVal JsList JsBytes JsDate Net Effects AgentHttp RequestBody Access Login.
From S2P Require Admin Totp Mfa Password Webhook.
#[local] Open Scope Z_scope.

(** @worker/src/routes/admin.ts:88-88 MAX_ADMIN_USERNAME_BYTES *)
Definition MAX_ADMIN_USERNAME_BYTES : Z := 64.
Definition MAX_ACCOUNT_PASSWORD : Z := 4096.
(** What the signers and the sealing of secrets throw. *)
Definition AuthConfigurationError : jstr := "JWT_SECRET must be configured with at least 32 bytes".
Definition MfaConfigurationError : jstr := "MFA encryption material is unavailable; verify the configured data keys".
Definition signed (r : result unit jstr) : access jstr := match r with Ok token => Ret token | Err _ => Throw AuthConfigurationError end.
Definition sealed {A} (r : result Mfa.mfa_error A) : access A :=
  match r with
  | Ok a => Ret a
  | Err Mfa.Mfa_configuration => Throw MfaConfigurationError
  | Err Mfa.Auth_configuration => Throw AuthConfigurationError
  | Err Mfa.Bad_recovery_code => Throw "恢复码格式无效"
  end.
(** [new URLSearchParams(...).toString()] of a value *)
Definition form_encode (s : jstr) : jstr :=
  JS (flat_map (λ b, let u := Z.to_N b in
        if is_alnum u || bool_decide (u ∈ units "*-._") then [u] else if (u =? 32)%N then units "+" else Webhook.percent b) (utf8 s)).
(** @worker/src/auth/totp.ts:109-121 buildTotpUri -- with the default issuer; an error is
    that of [encodeURIComponent] *)
Definition buildTotpUri (secret username : jstr) : result jstr jstr :=
  let issuer : jstr := "CF VPS Monitor" in
  let* label := Webhook.encodeURIComponent (issuer +++ ":" +++ trim username) in
  Ok ("otpauth://totp/" +++ label +++ "?secret=" +++ form_encode secret +++ "&issuer=" +++ form_encode issuer
      +++ "&algorithm=SHA1&digits=" +++ dec_Z (Z.of_nat Totp.TOTP_DIGITS) +++ "&period=" +++ dec_Z Totp.TOTP_PERIOD_SECONDS).
(** @worker/src/routes/admin.ts:2607-2609 readMfaMethod *)
Definition readMfaMethod (value : jsval) : option Mfa.factor_method :=
  match value with
  | JStr m => if jeq m "totp" then Some Mfa.Totp else if jeq m "recovery_code" then Some Mfa.Recovery_code else None
  | _ => None
  end.

Section Account.
Context `{Admin.Jwt, Mfa.MfaCrypto}.
Context (hmacSha1 : list Z → list Z → list Z) (date_parse : jstr → option Z) (fold_case : jstr → jstr) (env : access_env) (rq : access_request).
Context (secret_random iv : list Z) (code_random : list (list Z)) (randomUUID : jstr).

Abbreviation JWT := (Mfa.JWT_SECRET (xe_secrets env)).
Definition ok_true : response := json_ok (JObj [("success", JBool true)]).
Definition no_user : response := json_error 404 "用户不存在".

(** @worker/src/routes/admin.ts:323-330 readAdminJsonObject -- and the return of its
    response *)
Definition with_account_body (k : fields → access response) : access response :=
  let! parsed := readAdminJsonBody (xq_base rq) "请求 JSON 格式错误" "请求内容必须是 JSON 对象" isJsonObjectBody MAX_ADMIN_JSON_BYTES in
  match parsed with Err r => Ret r | Ok body => k body end.
(** The row of the administrator, or the answer that there is none. *)
Definition with_user (k : user_row → access response) : access response :=
  let! user := user_call_of (GetUserByUuid (xq_userId rq)) in
  match user with Some user => k user | None => Ret no_user end.
(** @worker/src/routes/admin.ts:2611-2617 replaceRotatedAdminSession *)
Definition replaceRotatedAdminSession (previousSessionVersion : Z) (user : user_row) : access unit :=
  do! deleteAdminSessionEdgeCache env (user_uuid user) previousSessionVersion in
  do! forget_sessions (user_uuid user) in
  let! now := clock in
  let! token := signed (Admin.generateToken (user_identity user) JWT now) in
  do! setAdminSessionCookie token in
  clearMfaStepUpCookie.
(** @worker/src/routes/admin.ts:2640-2646 /account/mfa/setup (the limit) -- as lines
    2690-2696 and 2764-2770 *)
Definition unlimited (buckets : list jstr) (k : limit_states → access response) : access response :=
  let! nowMs := clock in
  let! states := loadLoginRateLimitStates buckets in
  let retryAfter := getLoginRetryAfterSeconds date_parse states nowMs in
  if 0 <? retryAfter then
    do! retry_after retryAfter in
    Ret (coded 429 "MFA_RATE_LIMITED" ("验证尝试过于频繁，请 " +++ dec_Z retryAfter +++ " 秒后再试"))
  else k states.
Definition buckets_of (user : user_row) : list jstr := mfaRateLimitBuckets (clientIp rq) (user_uuid user).

(** ** The second factor *)

(** @worker/src/routes/admin.ts:2619-2627 /account/mfa *)
Definition account_mfa : access response :=
  do! need_database env in
  with_user (λ user,
    Ret (json_ok (JObj [("enabled", JBool (has_factor user));
                        ("enabled_at", match Admin.totp_enabled_at (ur_user user) with Some t => JStr t | None => JNull end);
                        ("recovery_codes_remaining", JNum (of_Z (match ur_recovery user with Some l => Z.of_nat (length l) | None => 0 end)))]))).
(** @worker/src/routes/admin.ts:2655-2667 /account/mfa/setup (the secret) *)
Definition enroll (user : user_row) : access response :=
  let secret := Totp.generateTotpSecret secret_random in
  let! encryptedSecret := sealed (Mfa.encryptTotpSecret secret (user_uuid user) (xe_secrets env) iv) in
  let! now := clock in
  let! setupToken := signed (Admin.generateMfaSetupToken (user_identity user) encryptedSecret JWT randomUUID now) in
  match buildTotpUri secret (user_name user) with
  | Ok uri => Ret (json_ok (JObj [("setup_token", JStr setupToken); ("secret", JStr secret); ("uri", JStr uri)]))
  | Err e => Throw e
  end.
(** @worker/src/routes/admin.ts:2629-2668 /account/mfa/setup *)
Definition mfa_setup : access response :=
  with_account_body (λ body,
    let password := text_of (fld body "password") in
    if negb (nonempty password) || (MAX_ACCOUNT_PASSWORD <? slen password) then Ret (json_error 400 "当前密码无效")
    else
      do! need_database env in
      with_user (λ user,
        unlimited (buckets_of user) (λ states,
          let! valid := verifyAdminPassword (user_uuid user) password (ur_passwd user) in
          if negb valid then do! failed_attempt rq (buckets_of user) (user_name user) "invalid_mfa_setup_password" in Ret (json_error 401 "当前密码错误")
          else do! clearLoginFailures (buckets_of user) states in enroll user))).
(** @worker/src/routes/admin.ts:2698-2718 /account/mfa/enable (the code) *)
Definition enable_with (user : user_row) (encryptedSecret code : jstr) (states : limit_states) : access response :=
  let! secret := sealed (Mfa.decryptTotpSecret encryptedSecret (user_uuid user) (xe_secrets env)) in
  let! now := clock in
  match Totp.verifyTotpCode hmacSha1 secret code now with
  | None => Throw "Base32 密钥格式无效"
  | Some None => do! failed_attempt rq (buckets_of user) (user_name user) "invalid_mfa_enrollment_code" in Ret (json_error 401 "验证码无效，请确认服务器时间准确")
  | Some (Some step) =>
    do! clearLoginFailures (buckets_of user) states in
    let! recovery := sealed (Mfa.generateRecoveryCodes (xe_secrets env) code_random) in
    let! updated := user_call_of (EnableUserTotp (user_uuid user) encryptedSecret recovery.2 step) in
    match updated with
    | None => Ret no_user
    | Some updated =>
      do! replaceRotatedAdminSession (user_version user) updated in
      Ret (json_ok (JObj [("success", JBool true); ("recovery_codes", texts recovery.1)]))
    end
  end.
(** @worker/src/routes/admin.ts:2684-2686 /account/mfa/enable (the setup token) *)
Definition setup_of (user : user_row) (setup : option (Admin.identity * jstr)) : option jstr :=
  match setup with
  | Some (i, encryptedSecret) =>
    if negb (jeq (Admin.userId i) (user_uuid user)) || negb (jeq (Admin.id_username i) (user_name user)) || negb (Admin.sessionVersion i =? user_version user)
    then None else Some encryptedSecret
  | None => None
  end.
(** @worker/src/routes/admin.ts:2670-2719 /account/mfa/enable *)
Definition mfa_enable : access response :=
  with_account_body (λ body,
    let setupToken := text_of (fld body "setup_token") in
    let code := trim (text_of (fld body "code")) in
    if negb (nonempty setupToken) || (4096 <? slen setupToken) || negb (all_units is_digit code && (slen code =? 6)) then Ret (json_error 400 "绑定参数无效")
    else
      do! need_database env in
      with_user (λ user,
        let! now := clock in
        match Admin.verifyMfaSetupToken setupToken JWT now with
        | Err _ => Throw AuthConfigurationError
        | Ok setup =>
          match setup_of user setup with
          | None => Ret (json_error 401 "绑定信息已失效，请重新开始")
          | Some encryptedSecret => unlimited (buckets_of user) (enable_with user encryptedSecret code)
          end
        end)).
(** @worker/src/routes/admin.ts:2721-2732 /account/mfa/recovery-codes *)
Definition mfa_recovery_codes : access response :=
  do! need_database env in
  with_user (λ user,
    if negb (Admin.present (Admin.totp_enabled_at (ur_user user))) then Ret (json_error 409 "尚未启用双重身份验证")
    else
      let! recovery := sealed (Mfa.generateRecoveryCodes (xe_secrets env) code_random) in
      let! updated := user_call_of (ReplaceRecoveryCodes (user_uuid user) recovery.2) in
      match updated with
      | None => Ret (json_error 409 "无法更新恢复码")
      | Some updated =>
        do! replaceRotatedAdminSession (user_version user) updated in
        Ret (json_ok (JObj [("success", JBool true); ("recovery_codes", texts recovery.1)]))
      end).
(** @worker/src/routes/admin.ts:2734-2744 /account/mfa/disable *)
Definition mfa_disable : access response :=
  do! need_database env in
  with_user (λ user,
    if negb (Admin.present (Admin.totp_enabled_at (ur_user user))) then Ret ok_true
    else
      let! updated := user_call_of (DisableUserTotp (user_uuid user)) in
      match updated with
      | None => Ret no_user
      | Some updated => do! replaceRotatedAdminSession (user_version user) updated in Ret ok_true
      end).
(** @worker/src/routes/admin.ts:2749-2753 /account/mfa/step-up (its fields) *)
Definition step_up_fields (body : fields) : option (Mfa.factor_method * jstr) :=
  let code := trim (text_of (fld body "code")) in
  match readMfaMethod (fld body "method") with
  | Some method => if negb (nonempty code) || (128 <? slen code) then None else Some (method, code)
  | None => None
  end.
(** @worker/src/routes/admin.ts:2793-2802 /account/mfa/step-up (the token) -- it is as old
    as the confirmation *)
Definition step_up_confirmed (user : user_row) (verified_at : jstr) (states : limit_states) : access response :=
  let verifiedAt := default 0 (date_parse verified_at) in
  let! token := signed (Admin.generateMfaToken (user_identity user) Admin.mfa_step_up JWT randomUUID verifiedAt) in
  do! setMfaStepUpCookie token in
  do! (if existsb (λ s : jstr * option LoginRateLimit, match s.2 with Some _ => true | None => false end) states
       then spawn (ClearFailures (observed (buckets_of user) states)) else Ret tt) in
  let! now := clock in
  Ret (json_ok (JObj [("success", JBool true); ("expires_in", JNum (of_Z (Z.max 0 ((verifiedAt + 300000 - now) / 1000))))])).
(** @worker/src/routes/admin.ts:2746-2803 /account/mfa/step-up *)
Definition step_up : access response :=
  with_account_body (λ body,
    match step_up_fields body with
    | None => Ret (coded 400 "MFA_INPUT_INVALID" "双重身份验证参数无效")
    | Some (method, code) =>
      do! need_database env in
      with_user (λ user,
        if negb (has_factor user) then Ret (json_error 409 "尚未启用双重身份验证")
        else
          unlimited (buckets_of user) (λ states,
            let! confirmation := confirmUserMfaFactor hmacSha1 date_parse env iv (ur_user user)
              {| Mfa.fi_method := method; Mfa.fi_code := code; Mfa.fi_purpose := Admin.mfa_step_up;
                 Mfa.fi_operationToken := default "" (getAdminSessionToken rq) |} in
            match confirmation with
            | Err f => Ret (factor_failure_response f)
            | Ok None => do! failed_attempt rq (buckets_of user) (user_name user) "invalid_mfa_step_up" in Ret (coded 401 "MFA_INVALID" "验证码或恢复码无效")
            | Ok (Some verified_at) => step_up_confirmed user verified_at states
            end))
    end).

(** ** The name and the password *)

(** @worker/src/routes/admin.ts:2853-2867 /account/username (the new session) -- as lines
    2919-2932: the token of the new row, the cookies and the audit *)
Definition renewed (updated : user_row) (action detail : jstr) (content : jsval) : access response :=
  let! now := clock in
  match Admin.generateToken (user_identity updated) JWT now with
  | Err _ => Ret jwt_misconfigured
  | Ok token =>
    do! setAdminSessionCookie token in
    do! clearMfaStepUpCookie in
    do! user_call_of (AuditLogEntry (xq_username rq) action detail "info") in
    Ret (json_ok content)
  end.
(** @worker/src/routes/admin.ts:2816-2826 /account/username (refusals) *)
Definition username_error (nextUsername : jstr) : option response :=
  if negb (nonempty nextUsername) then Some (json_error 400 "用户名不能为空")
  else if MAX_ADMIN_USERNAME_BYTES <? byte_length nextUsername then Some (json_error 400 ("用户名不能超过 " +++ dec_Z MAX_ADMIN_USERNAME_BYTES +++ " 字节"))
  else if existsb (λ u, (u <? 32)%N || (u =? 127)%N) (units nextUsername) then Some (json_error 400 "用户名包含无效字符")
  else None.
Definition user_json (uuid username : jstr) : jsval := JObj [("success", JBool true); ("user", JObj [("uuid", JStr uuid); ("username", JStr username)])].
(** @worker/src/routes/admin.ts:2840-2870 /account/username (the change) *)
Definition rename (current : user_row) (nextUsername : jstr) : access response :=
  let! existing := user_call_of (GetUserByUsername nextUsername) in
  if match existing with Some other => negb (jeq (user_uuid other) (xq_userId rq)) | None => false end then Ret (json_error 409 "用户名已存在")
  else
    do! deleteAdminSessionEdgeCache env (xq_userId rq) (user_version current) in
    let! updated := user_call_of (UpdateUsernameAndRotate (xq_userId rq) nextUsername) in
    match updated with
    | None => Ret (json_error 404 "User not found")
    | Some updated =>
      do! forget_sessions (xq_userId rq) in
      renewed updated "account_username_edit" ("修改用户名: " +++ xq_username rq +++ " -> " +++ nextUsername) (user_json (xq_userId rq) nextUsername)
    end.
(** @worker/src/routes/admin.ts:2805-2877 /account/username *)
Definition account_username : access response :=
  catch
    (with_account_body (λ body,
       do! need_database env in
       let nextUsername := trim (text_of (fld body "username")) in
       match username_error nextUsername with
       | Some r => Ret r
       | None =>
         with_user (λ current,
           if jeq (user_name current) nextUsername then Ret (json_ok (user_json (user_uuid current) (user_name current)))
           else rename current nextUsername)
       end))
    (λ e, if includes "UNIQUE" e then Ret (json_error 409 "用户名已存在") else Ret (json_error 500 "修改用户名失败")).
(** @worker/src/routes/admin.ts:2890-2893 /account/chpasswd (its fields) *)
Definition password_fields (body : fields) : option (jstr * jstr) :=
  match fld body "old_password", fld body "new_password" with
  | JStr old, JStr new =>
    if negb (nonempty old) || (MAX_ACCOUNT_PASSWORD <? slen old) || (MAX_ACCOUNT_PASSWORD <? slen new) then None else Some (old, new)
  | _, _ => None
  end.
(** @worker/src/routes/admin.ts:2904-2932 /account/chpasswd (the change) *)
Definition change_password (user : user_row) (old new : jstr) : access response :=
  let! valid := verifyAdminPassword (user_uuid user) old (ur_passwd user) in
  if negb valid then Ret (json_error 400 "旧密码错误")
  else
    let! newHash := hashAdminPassword (user_uuid user) new in
    let! updated := user_call_of (UpdatePasswordAndRotate (xq_userId rq) newHash) in
    match updated with
    | None => Ret no_user
    | Some updated =>
      do! deleteAdminSessionEdgeCache env (xq_userId rq) (user_version user) in
      do! forget_sessions (xq_userId rq) in
      renewed updated "chpasswd" "修改密码" (JObj [("success", JBool true)])
    end.
(** @worker/src/routes/admin.ts:2880-2936 /account/chpasswd *)
Definition account_chpasswd : access response :=
  catch
    (with_account_body (λ body,
       do! need_database env in
       let! user := user_call_of (GetUserByUsername (xq_username rq)) in
       match password_fields body with
       | None => Ret (json_error 400 "密码格式错误")
       | Some (old, new) =>
         match Password.validateAdminPasswordStrength fold_case new (xq_username rq) with
         | Some e => Ret (json_error 400 ("新密码不符合强度要求：" +++ e))
         | None => match user with Some user => change_password user old new | None => Ret no_user end
         end
       end))
    (λ _, Ret (json_error 500 "修改失败")).
End Account.
