(* ===== verification/AccountSpec.v ===== *)
(** * What changing an account promises

    A new session is given only for a rotation the database acknowledged, and a rotation is
    asked for only with the proof its change needs; a step-up only for a confirmed factor. *)

From S2P Require Import Prelude JsStr JsNum JsVal JsList JsBytes JsDate Net Effects AgentHttp RequestBody Trace Access Login LoginLimit LoginSpec Account.
From S2P Require Admin Totp Mfa Password Webhook.
#[local] Open Scope Z_scope.

Definition step_up_cookies (headers : list (jstr * jstr)) : list jstr :=
  omap (λ h : jstr * jstr, if jeq h.1 ("Set-Cookie " +++ MFA_STEP_UP_COOKIE) then Some h.2 else None) headers.
(** Items that set neither cookie. *)
Definition plain (i : access_item) : Prop := match i with Sent h => session_cookies [h] = [] ∧ step_up_cookies [h] = [] | _ => True end.
Lemma plain_cookies l : Forall plain l → session_cookies (sent l) = [] ∧ step_up_cookies (sent l) = [].
Proof.
  induction 1 as [|i l Hi _ [IH1 IH2]]; [done |]. destruct i as [ev|t|h|t]; try done. destruct Hi as [H1 H2]. split.
  - transitivity (session_cookies ([h] ++ sent l)); [done |]. by rewrite session_cookies_app, H1.
  - transitivity (step_up_cookies ([h] ++ sent l)); [done |]. unfold step_up_cookies. rewrite omap_app. fold (step_up_cookies [h]). by rewrite H2.
Qed.
Lemma neutral_plain l : Forall neutral l → Forall plain l.
Proof. intros H. eapply Forall_impl; [exact H |]. by intros [ | | | ]. Qed.

Section Spec.
Context `{Admin.Jwt, Mfa.MfaCrypto}.
Context (hmacSha1 : list Z → list Z → list Z) (date_parse : jstr → option Z) (fold_case : jstr → jstr) (env : access_env) (rq : access_request).
Context (secret_random iv : list Z) (code_random : list (list Z)) (randomUUID : jstr).
Abbreviation JWT := (Mfa.JWT_SECRET (xe_secrets env)).

(** What was awaited before a rotation is asked for. *)
Inductive proved : list access_event → user_call → Prop :=
| proved_password body u old new hash :
    sent_fields (xq_base rq) = Some body → password_fields body = Some (old, new) →
    Password.validateAdminPasswordStrength fold_case new (xq_username rq) = None →
    proved [user_event (GetUserByUsername (xq_username rq)) (Ok (Some u)); event_of (VerifyPassword (user_uuid u) old (ur_passwd u)) (Ok (JBool true));
            event_of (HashPassword (user_uuid u) new) (Ok (JStr hash))] (UpdatePasswordAndRotate (xq_userId rq) hash)
| proved_name body u name existing l :
    sent_fields (xq_base rq) = Some body → name = trim (text_of (fld body "username")) → username_error name = None →
    match existing with Some other => user_uuid other = xq_userId rq | None => True end →
    proved (user_event (GetUserByUuid (xq_userId rq)) (Ok (Some u)) :: user_event (GetUserByUsername name) (Ok existing) :: l) (UpdateUsernameAndRotate (xq_userId rq) name)
| proved_factor body u setupToken presented i encryptedSecret rows nowMs secret code verified step hashes cleared :
    sent_fields (xq_base rq) = Some body → setupToken = text_of (fld body "setup_token") → code = trim (text_of (fld body "code")) →
    Admin.verifyMfaSetupToken setupToken JWT presented = Ok (Some (i, encryptedSecret)) → i = user_identity u →
    (∀ b, b ∈ mfaRateLimitBuckets (clientIp rq) (user_uuid u) → free_at date_parse nowMs (row_of (mfaRateLimitBuckets (clientIp rq) (user_uuid u)) rows b)) →
    Mfa.decryptTotpSecret encryptedSecret (user_uuid u) (xe_secrets env) = Ok secret →
    Totp.verifyTotpCode hmacSha1 secret code verified = Some (Some step) →
    proved (user_event (GetUserByUuid (xq_userId rq)) (Ok (Some u)) :: user_event (GetLoginRateLimits (mfaRateLimitBuckets (clientIp rq) (user_uuid u))) (Ok rows) :: cleared)
           (EnableUserTotp (user_uuid u) encryptedSecret hashes step)
| proved_codes u codes hashes :
    Admin.present (Admin.totp_enabled_at (ur_user u)) = true → Mfa.generateRecoveryCodes (xe_secrets env) code_random = Ok (codes, hashes) →
    proved [user_event (GetUserByUuid (xq_userId rq)) (Ok (Some u))] (ReplaceRecoveryCodes (user_uuid u) hashes)
| proved_removal u : proved [user_event (GetUserByUuid (xq_userId rq)) (Ok (Some u))] (DisableUserTotp (user_uuid u)).
(** The acknowledgement of a rotation, with the row it made. *)
Inductive rotated : access_event → user_call → user_row → Prop :=
| rotated_name uuid name u : rotated (user_event (UpdateUsernameAndRotate uuid name) (Ok (Some u))) (UpdateUsernameAndRotate uuid name) u
| rotated_password uuid hash u : rotated (user_event (UpdatePasswordAndRotate uuid hash) (Ok (Some u))) (UpdatePasswordAndRotate uuid hash) u
| rotated_enabled uuid secret hashes step u : rotated (user_event (EnableUserTotp uuid secret hashes step) (Ok (Some u))) (EnableUserTotp uuid secret hashes step) u
| rotated_codes uuid hashes u : rotated (user_event (ReplaceRecoveryCodes uuid hashes) (Ok (Some u))) (ReplaceRecoveryCodes uuid hashes) u
| rotated_disabled uuid u : rotated (user_event (DisableUserTotp uuid) (Ok (Some u))) (DisableUserTotp uuid) u.
Definition renewal (t : list access_item) : Prop :=
  ∀ token, token ∈ session_cookies (sent t) →
    ∃ before ev c updated after now, called t = before ++ ev :: after ∧ rotated ev c updated ∧ proved before c
                                     ∧ Admin.generateToken (user_identity updated) JWT now = Ok token.
Lemma renewal_plain t : Forall plain t → renewal t.
Proof. intros Ht token Hin. rewrite (proj1 (plain_cookies t Ht)) in Hin. by apply not_elem_of_nil in Hin. Qed.

Lemma delete_plain userId version : emits plain (deleteAdminSessionEdgeCache env userId version).
Proof. unfold deleteAdminSessionEdgeCache. emit. Qed.
(** The end of a rotation: the new cookie. *)
Lemma cookies_renew h before ev c updated token now after l (r : result jstr response) :
  Forall plain h → called h = before ++ ev :: after → rotated ev c updated → proved before c →
  Admin.generateToken (user_identity updated) JWT now = Ok token →
  Forall plain l → renewal (h ++ [Sent ("Set-Cookie " +++ ADMIN_SESSION_COOKIE, token)] ++ l).
Proof.
  intros Hh Hc Hr Hp Ht Hl tok Hin. rewrite !sent_app, !session_cookies_app, (proj1 (plain_cookies h Hh)), (proj1 (plain_cookies l Hl)) in Hin.
  apply list_elem_of_singleton in Hin as ->. rewrite !called_app, Hc. do 6 eexists. rewrite <- (assoc_L (++)). split; [reflexivity | done].
Qed.
Lemma replaced_traced before ev c updated previous (resp : response) h :
  Forall plain h → called h = before ++ [ev] → rotated ev c updated → proved before c →
  traced (do! replaceRotatedAdminSession env previous updated in Ret resp) h (λ t (_ : result jstr response), renewal t).
Proof.
  intros Hh Hc Hr Hp. apply traced_bind. unfold replaceRotatedAdminSession. apply traced_bind.
  apply (emits_traced plain); [apply delete_plain |]. intros l [[]|e] Hl; [| by apply renewal_plain, Forall_app].
  apply traced_bind. unfold forget_sessions, Access.updated. cbn [traced]. intros st. apply traced_bind. cbn [traced clock]. intros now.
  apply traced_bind. destruct (Admin.generateToken _ _ now) as [token|] eqn:Et; cbn [traced signed].
  - apply traced_bind. unfold setAdminSessionCookie, set_cookie, clearMfaStepUpCookie, delete_cookie. cbn [traced header]. rewrite <- (assoc_L (++)).
    eapply (cookies_renew _ before ev c updated token now (called (l ++ [Told now])) _ (Ok resp)); try done.
    + rewrite !Forall_app. by repeat constructor.
    + rewrite !called_app, Hc. by rewrite <- !(assoc_L (++)).
    + by apply Forall_singleton.
  - apply renewal_plain. rewrite !Forall_app. by repeat constructor.
Qed.
Lemma renewed_traced before ev c updated action detail content after h :
  Forall plain h → called h = before ++ ev :: after → rotated ev c updated → proved before c →
  traced (renewed env rq updated action detail content) h (λ t (_ : result jstr response), renewal t).
Proof.
  intros Hh Hc Hr Hp. unfold renewed. apply traced_bind. cbn [traced clock]. intros now.
  destruct (Admin.generateToken _ _ now) as [token|] eqn:Et; cbn [traced]; [| apply renewal_plain, Forall_app; by repeat constructor].
  apply traced_bind. unfold setAdminSessionCookie, set_cookie. cbn [traced header]. apply traced_bind. unfold clearMfaStepUpCookie, delete_cookie. cbn [traced header].
  assert (Hgo : ∀ l, Forall plain l → renewal (((h ++ [Told now]) ++ [Sent ("Set-Cookie " +++ ADMIN_SESSION_COOKIE, token)]) ++ l)).
  { intros l Hl. rewrite <- (assoc_L (++) (h ++ [Told now])). eapply (cookies_renew _ before ev c updated token now after l (Ok jwt_misconfigured)); try done.
    - rewrite Forall_app. by repeat constructor.
    - by rewrite called_app, Hc, app_nil_r. }
  apply traced_bind, user_traced; [intros [] | intros e]; cbn [traced]; rewrite <- !(assoc_L (++)), (assoc_L (++) h), (assoc_L (++) (h ++ [Told now])); by apply Hgo; repeat constructor.
Qed.
Lemma plain_done {A} (p : access A) h (Q : list access_item → result jstr A → Prop) :
  Forall plain h → emits plain p → (∀ t r, Forall plain t → Q t r) → traced p h Q.
Proof. intros Hh Hp HQ. apply (emits_traced plain); [done |]. intros l r Hl. apply HQ, Forall_app. done. Qed.
Lemma body_traced k (Q : list access_item → result jstr response → Prop) :
  (∀ body, sent_fields (xq_base rq) = Some body → traced (k body) [] Q) → (∀ r, Q [] r) → traced (with_account_body rq k) [] Q.
Proof.
  intros Hk HQ. unfold with_account_body, readAdminJsonBody. apply traced_bind, traced_bind, read_json_traced; cbn [traced]; try done; try (intros; apply HQ).
  intros v Hv. unfold isJsonObjectBody, isRecord. destruct v; cbn [traced]; try apply HQ. apply Hk. unfold sent_fields. by rewrite Hv.
Qed.
Lemma database_traced (k : access response) h (Q : list access_item → result jstr response → Prop) :
  traced k h Q → (∀ e, Q h (Err e)) → traced (do! need_database env in k) h Q.
Proof. intros Hk HQ. apply traced_bind. unfold need_database. by destruct (xe_database env); cbn [traced]. Qed.
Lemma row_traced k h (Q : list access_item → result jstr response → Prop) :
  (∀ u, traced (k u) (h ++ [Called (user_event (GetUserByUuid (xq_userId rq)) (Ok (Some u)))]) Q) →
  (∀ x r, Q (h ++ [Called (user_event (GetUserByUuid (xq_userId rq)) x)]) r) → traced (with_user rq k) h Q.
Proof. intros Hk HQ. unfold with_user. apply traced_bind, user_traced; [intros [u|]; [apply Hk | apply HQ] | intros e; apply HQ]. Qed.
Lemma unlimited_traced B k h (Q : list access_item → result jstr response → Prop) :
  (∀ nowMs rows, (∀ b, b ∈ B → free_at date_parse nowMs (row_of B rows b)) →
     traced (k (states_of B rows)) (h ++ [Told nowMs; Called (user_event (GetLoginRateLimits B) (Ok rows))]) Q) →
  (∀ l r, Forall plain l → Q (h ++ l) r) → traced (unlimited date_parse B k) h Q.
Proof.
  intros Hk HQ. unfold unlimited. apply traced_bind. cbn [traced clock]. intros nowMs. apply traced_bind. unfold loadLoginRateLimitStates.
  apply traced_bind, user_traced; [intros rows | intros e; rewrite <- (assoc_L (++)); by apply HQ; repeat constructor]. cbn [traced]. destruct (0 <? _) eqn:Er.
  - apply traced_bind. cbn [traced retry_after header]. rewrite <- !(assoc_L (++)). apply HQ. by repeat constructor.
  - rewrite <- (assoc_L (++)). apply Hk. by apply free_buckets.
Qed.
Abbreviation R := (λ (t : list access_item) (_ : result jstr response), renewal t).

Lemma mfa_disable_renews : traced (mfa_disable env rq) [] R.
Proof.
  unfold mfa_disable. apply database_traced; [| by intros; apply renewal_plain]. apply row_traced; [intros u | intros x r; apply renewal_plain; by repeat constructor].
  destruct (negb _); [by apply renewal_plain; repeat constructor |]. apply traced_bind, user_traced; [intros [updated|] | intros e]; try (by apply renewal_plain; repeat constructor).
  eapply (replaced_traced [_]); [by repeat constructor | reflexivity | constructor | constructor].
Qed.
Lemma mfa_recovery_codes_renews : traced (mfa_recovery_codes env rq code_random) [] R.
Proof.
  unfold mfa_recovery_codes. apply database_traced; [| by intros; apply renewal_plain]. apply row_traced; [intros u | intros x r; apply renewal_plain; by repeat constructor].
  destruct (Admin.present _) eqn:Ep; cbn [negb]; [| by apply renewal_plain; repeat constructor]. apply traced_bind.
  destruct (Mfa.generateRecoveryCodes _ _) as [[codes hashes]|[]] eqn:Eg; cbn [traced sealed]; try (by apply renewal_plain; repeat constructor).
  apply traced_bind, user_traced; [intros [updated|] | intros e]; try (by apply renewal_plain; repeat constructor).
  eapply (replaced_traced [_]); [by repeat constructor | reflexivity | constructor | by econstructor].
Qed.

Lemma hash_traced account password h (Q : list access_item → result jstr jstr → Prop) :
  (∀ hash, Q (h ++ [Called (event_of (HashPassword account password) (Ok (JStr hash)))]) (Ok hash)) →
  (∀ l e, Forall neutral l → Q (h ++ l) (Err e)) → traced (hashAdminPassword account password) h Q.
Proof.
  intros H1 H2. unfold hashAdminPassword. apply traced_catch, traced_bind. unfold passwordStub.
  destruct (_ || _); cbn [traced]; [generalize (H2 [] unavailable (Forall_nil_2 _)); by rewrite app_nil_r |].
  apply traced_bind, traced_act; intros a; cbn [traced]; [| by apply H2, Forall_singleton].
  destruct a; cbn [traced]; try (by apply H2, Forall_singleton). destruct (_ || _); cbn [traced]; [by apply H2, Forall_singleton | apply H1].
Qed.
(** A handler whose failures are answered. *)
Lemma caught_traced (p : access response) (g : jstr → access response) :
  traced p [] R → (∀ e, ∃ resp, g e = Ret resp) → traced (catch p g) [] R.
Proof. intros Hp Hg. apply traced_catch. eapply traced_mono; [| exact Hp]. intros t [a|e] Ht; [exact Ht |]. destruct (Hg e) as [resp ->]. exact Ht. Qed.
Lemma plain_app h l : Forall plain h → Forall plain l → renewal (h ++ l).
Proof. intros. by apply renewal_plain, Forall_app. Qed.

Lemma rename_renews body current name h :
  sent_fields (xq_base rq) = Some body → name = trim (text_of (fld body "username")) → username_error name = None →
  Forall plain h → called h = [user_event (GetUserByUuid (xq_userId rq)) (Ok (Some current))] → traced (rename env rq current name) h R.
Proof.
  intros Hb Hn He Hh Hc. unfold rename. apply traced_bind, user_traced; [intros existing | intros e; by apply plain_app; [| repeat constructor]].
  assert (Hh1 : Forall plain (h ++ [Called (user_event (GetUserByUsername name) (Ok existing))])) by (apply Forall_app; by repeat constructor).
  destruct (match existing with Some _ => _ | None => _ end) eqn:Ex; [by apply renewal_plain |].
  apply traced_bind, (emits_traced plain); [apply delete_plain |]. intros l [[]|e] Hl; [| by apply plain_app].
  assert (Hh2 : Forall plain ((h ++ [Called (user_event (GetUserByUsername name) (Ok existing))]) ++ l)) by (by apply Forall_app).
  apply traced_bind, user_traced; [intros [updated|] | intros e]; try (by apply plain_app; [| repeat constructor]).
  apply traced_bind. unfold forget_sessions, Access.updated. cbn [traced]. intros st.
  eapply (renewed_traced (user_event (GetUserByUuid (xq_userId rq)) (Ok (Some current)) :: user_event (GetUserByUsername name) (Ok existing) :: called l) _ _ _ _ _ _ []).
  - apply Forall_app. split; [done | by repeat constructor].
  - by rewrite !called_app, Hc.
  - constructor.
  - eapply proved_name; try done. destruct existing as [other|]; [| done]. apply negb_false_iff, jeq_true in Ex. done.
Qed.
Lemma account_username_renews : traced (account_username env rq) [] R.
Proof.
  unfold account_username. apply caught_traced; [| intros e; destruct (includes _ _); eauto].
  apply body_traced; [intros body Hb | intros r; by apply renewal_plain]. apply database_traced; [| by intros; apply renewal_plain].
  destruct (username_error _) as [r|] eqn:He; [by apply renewal_plain |]. apply row_traced; [intros u | intros x r; by apply renewal_plain; repeat constructor].
  destruct (jeq _ _); [by apply renewal_plain; repeat constructor |]. eapply rename_renews; try done. by repeat constructor.
Qed.
Lemma account_chpasswd_renews : traced (account_chpasswd fold_case env rq) [] R.
Proof.
  unfold account_chpasswd. apply caught_traced; [| eauto].
  apply body_traced; [intros body Hb | intros r; by apply renewal_plain]. apply database_traced; [| by intros; apply renewal_plain].
  apply traced_bind, user_traced; [intros user | intros e; by apply renewal_plain; repeat constructor].
  assert (Hp : ∀ l, Forall neutral l → Forall plain l) by apply neutral_plain.
  set (h := [] ++ _). assert (Hh : Forall plain h) by (by repeat constructor).
  destruct (password_fields body) as [[old new]|] eqn:Ef; [| by apply renewal_plain].
  destruct (Password.validateAdminPasswordStrength _ _ _) eqn:Es; [by apply renewal_plain |]. destruct user as [u|]; [| by apply renewal_plain].
  unfold change_password. apply traced_bind, verify_traced; [intros valid | intros l e Hl; apply plain_app; auto].
  assert (Hh1 : Forall plain (h ++ [Called (event_of (VerifyPassword (user_uuid u) old (ur_passwd u)) (Ok (JBool valid)))])) by (apply Forall_app; by repeat constructor).
  destruct valid; cbn [negb]; [| by apply renewal_plain].
  apply traced_bind, hash_traced; [intros hash | intros l e Hl; apply plain_app; auto].
  set (h2 := _ ++ [Called (event_of (HashPassword _ _) _)]). assert (Hh2 : Forall plain h2) by (apply Forall_app; by repeat constructor).
  apply traced_bind, user_traced; [intros [updated|] | intros e]; try (by apply plain_app; [| repeat constructor]).
  set (h3 := h2 ++ _). assert (Hh3 : Forall plain h3) by (apply Forall_app; by repeat constructor).
  apply traced_bind, (emits_traced plain); [apply delete_plain |]. intros l [[]|e] Hl; [| by apply plain_app].
  apply traced_bind. unfold forget_sessions, Access.updated. cbn [traced]. intros st.
  eapply (renewed_traced [_; _; _] _ _ _ _ _ _ (called l)).
  - by apply Forall_app.
  - rewrite called_app. reflexivity.
  - constructor.
  - by econstructor.
Qed.

Lemma failed_plain buckets username reason : emits plain (failed_attempt rq buckets username reason).
Proof. unfold failed_attempt, recordLoginFailure, auditLoginFailure. emit; try (apply user_emits; intros; done); done. Qed.
Lemma clear_plain buckets states : emits plain (clearLoginFailures buckets states).
Proof. unfold clearLoginFailures. destruct (observed _ _); [done |]. by apply user_emits. Qed.
Lemma mfa_enable_renews : traced (mfa_enable hmacSha1 date_parse env rq code_random) [] R.
Proof.
  unfold mfa_enable. apply body_traced; [intros body Hb | intros r; by apply renewal_plain]. cbv zeta.
  destruct (_ || _); [by apply renewal_plain |]. apply database_traced; [| by intros; apply renewal_plain].
  apply row_traced; [intros u | intros x r; by apply renewal_plain; repeat constructor].
  apply traced_bind. cbn [traced clock]. intros presented. destruct (Admin.verifyMfaSetupToken _ _ _) as [setup|] eqn:Ev; [| by apply renewal_plain; repeat constructor].
  destruct (setup_of u setup) as [encryptedSecret|] eqn:Es; [| by apply renewal_plain; repeat constructor].
  assert (Hs : setup = Some (user_identity u, encryptedSecret)).
  { unfold setup_of in Es. destruct setup as [[i s0]|]; [| done]. destruct (jeq (Admin.userId i) _) eqn:E1; [| done]. destruct (jeq (Admin.id_username i) _) eqn:E2; [| done].
    destruct (Admin.sessionVersion i =? _) eqn:E3; [| done]. injection Es as ->. apply jeq_true in E1, E2. apply Z.eqb_eq in E3. destruct i; cbn in *. by subst. }
  subst setup. apply unlimited_traced; [intros nowMs rows Hf | intros l r Hl; apply plain_app; [by repeat constructor | done]].
  unfold enable_with. set (h := _ ++ [Told nowMs; _]). assert (Hh : Forall plain h) by (by repeat constructor).
  apply traced_bind. destruct (Mfa.decryptTotpSecret _ _ _) as [secret|[]] eqn:Ed; cbn [traced sealed]; try (by apply renewal_plain).
  apply traced_bind. cbn [traced clock]. intros verified. assert (Hh1 : Forall plain (h ++ [Told verified])) by (apply Forall_app; by repeat constructor).
  destruct (Totp.verifyTotpCode _ _ _ _) as [[step|]|] eqn:Et; [| | by apply renewal_plain].
  - apply traced_bind, (emits_traced plain); [apply clear_plain |]. intros l [[]|e] Hl; [| by apply plain_app]. apply traced_bind.
    destruct (Mfa.generateRecoveryCodes _ _) as [[codes hashes]|[]] eqn:Eg; cbn [traced sealed]; try (by apply plain_app).
    apply traced_bind, user_traced; [intros [updated|] | intros e]; try (apply plain_app; [by apply Forall_app | by repeat constructor]).
    eapply (replaced_traced (_ :: _ :: called l)).
    + rewrite !Forall_app. split_and!; [done | by repeat constructor | done | by repeat constructor].
    + rewrite !called_app. reflexivity.
    + constructor.
    + by eapply proved_factor.
  - apply plain_done; [done | | intros t r; apply renewal_plain]. apply emits_bind; [apply failed_plain | done].
Qed.
(** The enrolment gives no session, and its secret only for the password. *)
Lemma mfa_setup_plain h : Forall plain h → traced (mfa_setup date_parse env rq secret_random iv randomUUID) h (λ t _, Forall plain t).
Proof.
  intros Hh. apply (emits_traced plain); [| intros l r Hl; by apply Forall_app].
  unfold mfa_setup, with_account_body. apply emits_bind.
  { unfold readAdminJsonBody, readJsonWithLimit, readRequestBytesWithLimit. cbv zeta. apply emits_bind; [| done]. apply emits_bind; [| done].
    destruct (_ && _); [done |]. destruct (rq_body (xq_base rq)) as [[chunks error]|]; [| done]. generalize 0 as total. generalize (@nil Z) as bytes.
    induction chunks as [|[c|] cs IH]; intros bytes total; cbn [read_chunks]; cbv zeta; cbn [emits]; [by destruct error | | apply IH]. destruct (MAX_ADMIN_JSON_BYTES <? _); [done | apply IH]. }
  intros [body|r]; [| done]. cbv zeta. destruct (_ || _); [done |]. apply emits_bind; [unfold need_database; by destruct (xe_database env) | intros _].
  unfold with_user. apply emits_bind; [by apply user_emits | intros [u|]; [| done]].
  unfold unlimited, loadLoginRateLimitStates. apply emits_bind; [done | intros now]. apply emits_bind; [apply emits_bind; [by apply user_emits | done] | intros states].
  cbv zeta. destruct (0 <? _); [done |]. apply emits_bind.
  { unfold verifyAdminPassword, passwordStub. emit. }
  intros valid. destruct (negb valid); [apply emits_bind; [apply failed_plain | done] |]. apply emits_bind; [apply clear_plain | intros _].
  unfold enroll. apply emits_bind; [by destruct (Mfa.encryptTotpSecret _ _ _ _) as [|[]] | intros s]. apply emits_bind; [done | intros now'].
  apply emits_bind; [by destruct (Admin.generateMfaSetupToken _ _ _ _ _) | intros token]. by destruct (buildTotpUri _ _).
Qed.

(** The step-up of a confirmed factor. *)
Inductive stepped_up : list access_event → jstr → Prop :=
| factor_confirmed body method code u rows nowMs confirmed a reencryption answer verified_at token :
    sent_fields (xq_base rq) = Some body → step_up_fields body = Some (method, code) → has_factor u = true →
    (∀ b, b ∈ mfaRateLimitBuckets (clientIp rq) (user_uuid u) → free_at date_parse nowMs (row_of (mfaRateLimitBuckets (clientIp rq) (user_uuid u)) rows b)) →
    Mfa.confirmUserMfaFactor hmacSha1 (λ _ _ _, true) (ur_user u)
      {| Mfa.fi_method := method; Mfa.fi_code := code; Mfa.fi_purpose := Admin.mfa_step_up; Mfa.fi_operationToken := default "" (getAdminSessionToken rq) |}
      (xe_secrets env) iv confirmed = Mfa.Consume a →
    reencrypted reencryption → consume_answer date_parse answer = Ok (Some verified_at) →
    Admin.generateMfaToken (user_identity u) Admin.mfa_step_up JWT randomUUID (default 0 (date_parse verified_at)) = Ok token →
    stepped_up ([user_event (GetUserByUuid (xq_userId rq)) (Ok (Some u)); user_event (GetLoginRateLimits (mfaRateLimitBuckets (clientIp rq) (user_uuid u))) (Ok rows)]
                ++ reencryption ++ [user_event (ConsumeMfaFactor a) (Ok answer)]) token.
Definition step_up_post (t : list access_item) : Prop :=
  session_cookies (sent t) = [] ∧ ∀ token, token ∈ step_up_cookies (sent t) → stepped_up (called t) token.
Lemma step_up_plain t : Forall plain t → step_up_post t.
Proof. intros Ht. destruct (plain_cookies t Ht) as [H1 H2]. split; [done |]. intros token Hin. rewrite H2 in Hin. by apply not_elem_of_nil in Hin. Qed.
Lemma step_up_traced : traced (step_up hmacSha1 date_parse env rq iv randomUUID) [] (λ t (_ : result jstr response), step_up_post t).
Proof.
  unfold step_up. apply body_traced; [intros body Hb | intros r; by apply step_up_plain].
  destruct (step_up_fields body) as [[method code]|] eqn:Ef; [| by apply step_up_plain]. apply database_traced; [| by intros; apply step_up_plain].
  apply row_traced; [intros u | intros x r; by apply step_up_plain; repeat constructor].
  destruct (has_factor u) eqn:Eu; cbn [negb]; [| by apply step_up_plain; repeat constructor].
  apply unlimited_traced; [intros nowMs rows Hfree | intros l r Hl; apply step_up_plain, Forall_app; split; [by repeat constructor | done]].
  set (h := _ ++ [Told nowMs; _]). assert (Hh : Forall plain h) by (by repeat constructor).
  apply traced_bind, confirm_traced.
  - intros now a l answer at_ Ha Hl Hat. unfold step_up_confirmed. set (h2 := h ++ _).
    assert (Hh2 : Forall plain h2).
    { unfold h2. rewrite !Forall_app. split_and!; [done | by repeat constructor | destruct Hl as [-> | (? & ? & ? & ->)]; by repeat constructor | by repeat constructor]. }
    assert (Hc2 : called h2 = [user_event (GetUserByUuid (xq_userId rq)) (Ok (Some u)); user_event (GetLoginRateLimits (mfaRateLimitBuckets (clientIp rq) (user_uuid u))) (Ok rows)]
                ++ l ++ [user_event (ConsumeMfaFactor a) (Ok answer)]) by (unfold h2; rewrite !called_app; destruct Hl as [-> | (? & ? & ? & ->)]; reflexivity).
    clearbody h2. apply traced_bind. destruct (Admin.generateMfaToken _ _ _ _ _) as [token|] eqn:Et; cbn [traced signed]; [| by apply step_up_plain].
    apply traced_bind. unfold setMfaStepUpCookie, set_cookie. cbn [traced header].
    assert (Hgo : ∀ l', Forall plain l' → called l' = [] → step_up_post ((h2 ++ [Sent ("Set-Cookie " +++ MFA_STEP_UP_COOKIE, token)]) ++ l')).
    { intros l' Hl' Hc'. destruct (plain_cookies h2 Hh2) as [K1 K2]. destruct (plain_cookies l' Hl') as [K3 K4]. split.
      - rewrite !sent_app, !session_cookies_app, K1, K3. done.
      - intros tok. rewrite !sent_app. unfold step_up_cookies. rewrite !omap_app. fold (step_up_cookies (sent h2)) (step_up_cookies (sent l')). rewrite K2, K4.
        intros Hin. apply list_elem_of_singleton in Hin as ->. rewrite !called_app, Hc2, Hc'. cbn [called omap list_omap Datatypes.app]. rewrite !app_nil_r.
        by eapply factor_confirmed. }
    apply traced_bind. destruct (existsb _ _); cbn [traced spawn].
    + apply traced_bind. cbn [traced clock]. intros now'. rewrite <- !(assoc_L (++)), (assoc_L (++) h2). by apply Hgo; repeat constructor.
    + apply traced_bind. cbn [traced clock]. intros now'. by apply Hgo; repeat constructor.
  - intros now l r Hl Hr. assert (Hp : Forall plain (h ++ [Told now] ++ l)) by (rewrite !Forall_app; split_and!; [done | by repeat constructor | by apply neutral_plain]).
    destruct r as [[[at_|]|f]|e]; [by destruct (Hr at_) | | by apply step_up_plain | by apply step_up_plain].
    apply plain_done; [done | | intros t r; apply step_up_plain]. apply emits_bind; [apply failed_plain | done].
Qed.
End Spec.

(** The handlers that may answer with a new session. *)
Definition rotating `{Admin.Jwt, Mfa.MfaCrypto} hmacSha1 date_parse fold_case env rq code_random : list (access response) :=
  [mfa_enable hmacSha1 date_parse env rq code_random; mfa_recovery_codes env rq code_random; mfa_disable env rq;
   account_username env rq; account_chpasswd fold_case env rq].

(** C13: A change of the account renews the session only when it happened.  Whatever the
    services answer, a handler of the account sets a session cookie only after the database
    acknowledged the change with the rotated row, whose token it is, and asks for a change
    only with its proof: a new password only after the password service accepted the current
    one and made the hash that is stored; a new name only when no other user has it; a second
    factor only for the secret this server sealed for this user and session version, with a
    valid code of it while the buckets were free; new recovery codes only as generated.  A
    step-up cookie is set only after the database consumed the factor of this session, and is
    as old as that confirmation; neither the step-up nor the enrolment renews the session. *)
Theorem account_cookies_earned `{Admin.Jwt, Mfa.MfaCrypto} hmacSha1 date_parse fold_case env rq secret_random iv code_random randomUUID e n s :
  (∀ p token, p ∈ rotating hmacSha1 date_parse fold_case env rq code_random → token ∈ session_cookies (r_headers (exec e n s p)) →
     ∃ before ev c updated after now, r_log (exec e n s p) = before ++ ev :: after ∧ rotated ev c updated
       ∧ proved hmacSha1 date_parse fold_case env rq code_random before c
       ∧ Admin.generateToken (user_identity updated) (Mfa.JWT_SECRET (xe_secrets env)) now = Ok token)
  ∧ (∀ token, token ∈ step_up_cookies (r_headers (exec e n s (step_up hmacSha1 date_parse env rq iv randomUUID))) →
       stepped_up hmacSha1 date_parse env rq iv randomUUID (r_log (exec e n s (step_up hmacSha1 date_parse env rq iv randomUUID))) token)
  ∧ session_cookies (r_headers (exec e n s (step_up hmacSha1 date_parse env rq iv randomUUID))) = []
  ∧ session_cookies (r_headers (exec e n s (mfa_setup date_parse env rq secret_random iv randomUUID))) = [].
Proof.
  split_and!.
  - intros p token Hp. assert (Hr : traced p [] (λ t (_ : result jstr response), renewal hmacSha1 date_parse fold_case env rq code_random t)).
    { unfold rotating in Hp. list_cases Hp; [apply mfa_enable_renews | apply mfa_recovery_codes_renews | apply mfa_disable_renews | apply account_username_renews | apply account_chpasswd_renews]. }
    rewrite <- trace_headers, <- trace_log. exact (traced_sound _ _ _ e n s Hr token).
  - intros token. rewrite <- trace_headers, <- trace_log. exact (proj2 (traced_sound _ _ _ e n s (step_up_traced hmacSha1 date_parse env rq iv randomUUID)) token).
  - rewrite <- trace_headers. exact (proj1 (traced_sound _ _ _ e n s (step_up_traced hmacSha1 date_parse env rq iv randomUUID))).
  - rewrite <- trace_headers. exact (proj1 (plain_cookies _ (traced_sound _ _ _ e n s (mfa_setup_plain date_parse env rq secret_random iv randomUUID [] (Forall_nil_2 _))))).
Qed.

(** The sample administrator removes the factor, and confirms it with a recovery code. *)
Definition ex_account : access_request :=
  let rq := ex_request [("method", JStr "recovery_code"); ("code", JStr "AAAA-BBBB-CCCC-DDDD-EEEE-FFFF")] in
  {| xq_base := xq_base rq; xq_head := false; xq_session := Some "session"; xq_csrf_cookie := None; xq_csrf_header := None; xq_userId := "u-1"; xq_username := "admin" |}.
Definition ex_account_env : Effects.env access_call access_ans access_state :=
  {| e_answer := λ _ c, match c return result jstr (access_ans c) with
                        | User (DisableUserTotp _) => Ok (Some (ex_user false))
                        | User c => ex_user_answer true c
                        | _ => Err "unavailable"
                        end;
     e_clock := λ _, 1704067200000; e_others := λ _ s, s |}.
Abbreviation ex_exec p := (exec ex_account_env 0 ex_state p).
Abbreviation ex_disable := (mfa_disable (H := ex_jwt) ex_env ex_account).
Abbreviation ex_step_up := (step_up (H := ex_jwt) (H0 := Mfa.sample_crypto) (λ _ _, []) ex_date ex_env ex_account [] "r").

Lemma account_cookies_earned_witness :
  (∃ before ev c updated after, r_log (ex_exec ex_disable) = before ++ ev :: after ∧ rotated ev c updated)
  ∧ ∃ token, stepped_up (H := ex_jwt) (H0 := Mfa.sample_crypto) (λ _ _, []) ex_date ex_env ex_account [] "r" (r_log (ex_exec ex_step_up)) token.
Proof.
  destruct (@account_cookies_earned ex_jwt Mfa.sample_crypto (λ _ _, []) ex_date id ex_env ex_account [] [] [] "r" ex_account_env 0 ex_state) as (H1 & H2 & _).
  split.
  - destruct (H1 ex_disable (first_cookie (r_headers (ex_exec ex_disable)))) as (before & ev & c & updated & after & now & Hl & Hr & _).
    + right. right. left.
    + apply (bool_decide_eq_true_1 _). vm_compute. reflexivity.
    + by exists before, ev, c, updated, after.
  - eexists. apply (H2 (default "" (head (step_up_cookies (r_headers (ex_exec ex_step_up)))))).
    apply (bool_decide_eq_true_1 _). vm_compute. reflexivity.
Defined.
