(* ===== verification/AgentSpec.v ===== *)
(** * What agents can do over HTTP

    Properties of [AgentHttp]: a request acts only for the node whose token it presents,
    the isolate's caches stay bounded whatever runs side by side, basic information
    settles, bodies are read within their limits. *)

From S2P Require Import Prelude JsStr JsNum JsVal JsList JsBytes JsDate Webhook Net PingTask Settings Report Client LivePersist Effects AgentHttp.
#[local] Open Scope Z_scope.

(** ** Who a request acts for *)

(** The columns an agent's report may write. *)
Definition AGENT_COLUMNS : list jstr :=
  ["cpu_name"; "virtualization"; "arch"; "cpu_cores"; "os"; "kernel_version"; "gpu_name"; "ipv4"; "ipv6"; "region"; "mem_total";
   "swap_total"; "disk_total"; "version"].
Definition public_or_empty (s : jstr) : Prop := s = "" ∨ isPublicIpAddress s = true.
Definition agent_column (p : jstr * jsval) : Prop :=
  p.1 ∈ AGENT_COLUMNS ∧ (p.1 ∈ (["ipv4"; "ipv6"] : list jstr) → ∃ s, p.2 = JStr s ∧ public_or_empty s).
(** The node a message to the live object is about. *)
Definition body_owner (path : jstr) (body : jsval) : option jsval :=
  if jeq path "client-report" || jeq path "client-meta" then Some (fld (as_object body) "uuid")
  else if jeq path "ping-result" then Some (fld (as_object body) "client_id")
  else None.
(** What may be called on behalf of the node [u]. *)
Definition permitted (u : jsval) (c : call) : Prop :=
  match c with
  | UpdateClient v data => v = u ∧ Forall agent_column data
  | GetClient v | MarkClientTokenUsed v _ | ListAgentWebsiteProbeTasks v _ _ => v = u
  | LiveFetch path body => body_owner path body = Some u
  | LiveUpgrade params => lookup_field "id" params = Some (to_str u) ∧ lookup_field "role" params = Some ("agent" : jstr)
  | GetClientByToken _ | GetClientIdentityByToken _ | LiveSnapshotRead _ | HasAdminSession => False
  | RateFetch _ _ | InsertAuditLog _ _ _ _ | ListPingTasks | GetSettingsByKeys _ | DispatchNotification _ _ | RecordHealth _ _ _ => True
  end.
Definition task_of (u : jsval) (t : task) : Prop :=
  match t with
  | TokenUsed client _ => fld client "uuid" = u
  | SyncIps _ v _ _ _ | VersionChange v _ => v = u
  | IpChange _ _ => True
  end.

(** Invariants of the module's state that each of its updates keeps. *)
Record kept (Inv : agent_state → Prop) := {
  kept_auth : ∀ k v ttl now st, Inv st → Inv (with_auth (setAgentAuthCache k v ttl now (agentAuthCache st)) st);
  kept_auth_del : ∀ k st, Inv st → Inv (with_auth (del_field k (agentAuthCache st)) st);
  kept_identity : ∀ k v ttl now st, Inv st → Inv (with_identity (setAgentAuthCache k v ttl now (agentIdentityAuthCache st)) st);
  kept_identity_del : ∀ k st, Inv st → Inv (with_identity (del_field k (agentIdentityAuthCache st)) st);
  kept_usage : ∀ k v st, Inv st → Inv (with_usage (bounded_set AGENT_AUTH_CACHE_MAX_ENTRIES k v (agentTokenUsageCache st)) st);
  kept_tasks : ∀ v st, Inv st → Inv (with_pings v (agentPingIntervalCache st) st);
  kept_interval : ∀ n t st, Inv st → Inv (with_pings (agentPingTasksCache st) (Some (bounded_interval n, t)) st);
  kept_ws : ∀ v st, Inv st → Inv (with_ws v st);
  kept_buckets : ∀ v st, Inv st → Inv (with_buckets v st);
  kept_clients : ∀ c st, Inv st → Inv (invalidateAgentClientAuthCache c st);
  kept_pings : ∀ st, Inv st → Inv (invalidateAgentPingTaskCache st);
  kept_public : ∀ st, Inv st → Inv (invalidatePublicMetadataCache st);
}.
Lemma kept_true : kept (λ _, True).
Proof. by split. Qed.

(** Step through a program: sequences, handlers, branches. *)
Ltac obey :=
  repeat first
    [ apply obeys_bind; [| intros ?]
    | apply obeys_catch; [| intros ?]
    | match goal with
      | |- obeys _ _ _ (match ?x with _ => _ end) => destruct x
      | |- True => exact I
      | |- obeys _ _ _ (Ret _) => exact I
      | |- obeys _ _ _ (Throw _) => exact I
      | |- obeys _ _ _ (header _ _) => exact I
      | |- obeys _ _ _ clock => intros ?; exact I
      | |- obeys _ _ _ get => intros ? ?; split; [assumption | exact I]
      | |- obeys _ _ _ (await _) => apply obeys_act
      | |- obeys _ _ _ (Yield _) => cbn [obeys]
      end ].

Section Programs.
Context (sha256 : list Z → list Z) (URL : jstr → option url) (env : bindings) (req : request).
Context (Inv : agent_state → Prop) (K : kept Inv) (P : call → Prop) (T : task → Prop).

Lemma modify_obeys u : (∀ st, Inv st → Inv (u st)) → obeys Inv P T (modify u : agent agent_state).
Proof. intros H s Hs. split; [auto | exact I]. Qed.
Lemma local_obeys key max windowMs : obeys Inv P T (localAgentRateLimit key max windowMs).
Proof.
  unfold localAgentRateLimit. apply obeys_bind; [intros ?; exact I | intros now]. apply obeys_bind.
  - intros s Hs. split; [by apply (kept_buckets _ K) | exact I].
  - intros st. destruct (hit_bucket _ _ _ _).1 as [count resetAt]. unfold rateLimitResponse. cbv zeta. obey.
Qed.
Context (HR : ∀ object body, P (RateFetch object body)).
Lemma bucket_obeys bucket key max : obeys Inv P T (enforceAgentBucketRateLimit env bucket key max).
Proof.
  unfold enforceAgentBucketRateLimit. destruct (negb _); [apply local_obeys |]. apply obeys_catch; [| intros _; apply local_obeys].
  unfold readRateLimitResult, readJsonObject, json_or_null, rateLimitResponse. obey. apply HR.
Qed.
Lemma token_key_obeys token : obeys Inv P T (agentPresentedTokenKey sha256 req token).
Proof. unfold agentPresentedTokenKey, agentTokenKey, digest. cbv zeta. obey. Qed.
Lemma attempt_obeys token : obeys Inv P T (enforceAgentAuthAttemptLimit sha256 req token).
Proof.
  unfold enforceAgentAuthAttemptLimit. apply obeys_bind; [apply local_obeys |]. intros [r|]; [exact I |].
  apply obeys_bind; [apply token_key_obeys | intros key; apply local_obeys].
Qed.
Lemma refuse_obeys token error : obeys Inv P T (refuse sha256 env req token error).
Proof.
  unfold refuse, enforceAgentAuthFailureLimit. apply obeys_bind; [| intros [r|]; exact I].
  apply obeys_bind; [apply token_key_obeys | intros key; apply bucket_obeys].
Qed.
Lemma body_obeys maxBytes : obeys Inv P T (readJsonBodyWithLimit req maxBytes).
Proof.
  unfold readJsonBodyWithLimit. cbv zeta. destruct (_ && _); [exact I |]. destruct (rq_body req) as [[chunks error]|]; [| exact I].
  apply obeys_bind; [| intros [bytes|]; [destruct (json_parse _) |]; exact I].
  generalize (@nil Z). generalize 0. induction chunks as [|[chunk|] rest IH]; intros total bytes; cbn [read_chunks]; cbv zeta; obey; apply IH.
Qed.
Lemma with_body_obeys id bucket max maxBytes k :
  (∀ body, obeys Inv P T (k body)) → obeys Inv P T (with_body env req id bucket max maxBytes k).
Proof.
  intros Hk. unfold with_body, enforceAgentRateLimit. apply obeys_bind; [apply bucket_obeys |]. intros [r|]; [exact I |].
  apply obeys_bind; [apply body_obeys |]. intros [body|r]; [apply Hk | exact I].
Qed.
End Programs.

Lemma patch_elem old next p : p ∈ buildChangedClientPatch old next → p ∈ next ∧ clientFieldChanged (fldo old p.1) p.2 = true.
Proof.
  unfold buildChangedClientPatch. revert p. apply fold_left_invariant; [by intros p ?%elem_of_nil |].
  intros patch q Hq IH p. destruct (clientFieldChanged (fldo old q.1) q.2) eqn:E; [| apply IH].
  intros [->|Hp]%set_field_elem; [by destruct q | by apply IH].
Qed.
Lemma first_public_ok l : public_or_empty (first_public l).
Proof. induction l as [|v l IH]; cbn [first_public]; [by left |]. cbv zeta. destruct (_ && _) eqn:E; [des; by right | done]. Qed.
Lemma publicIpPatch_eq reported fallback current : publicIpPatch reported fallback current = preferredPublicIp reported fallback current.
Proof.
  unfold publicIpPatch. cbv zeta. destruct (_ || _) eqn:E; [done |]. apply orb_false_iff in E as [E _]. apply orb_false_iff in E as [E _].
  by apply nonempty_false in E.
Qed.
Lemma publicIpPatch_ok reported fallback current : public_or_empty (publicIpPatch reported fallback current).
Proof. rewrite publicIpPatch_eq. apply first_public_ok. Qed.
Lemma column_plain k v : k ∈ AGENT_COLUMNS → k ∉ (["ipv4"; "ipv6"] : list jstr) → agent_column (k, v).
Proof. intros H1 H2. split; [done | by intros ?]. Qed.
Lemma column_ip k s : k ∈ (["ipv4"; "ipv6"] : list jstr) → public_or_empty s → agent_column (k, JStr s).
Proof. intros H1 H2. split; [| intros _; by exists s]. revert H1. cbn [fst]. rewrite !elem_of_cons. intros [->|[->|[]%elem_of_nil]]; list_elem. Qed.
Ltac column :=
  first [ apply column_ip; [list_elem | apply publicIpPatch_ok]
        | apply column_plain; [list_elem | apply (bool_decide_eq_true _); vm_compute; reflexivity] ].
Lemma basic_info_columns req info old : Forall agent_column (basic_info_patch req info old).
Proof.
  apply Forall_forall. intros p Hp. apply patch_elem in Hp as [Hp _]. revert p Hp. apply Forall_forall.
  unfold basic_info_values. cbv zeta. repeat (apply Forall_cons; split; [column |]). apply Forall_nil_2.
Qed.
Lemma ip_updates_columns req report old : Forall agent_column (ip_updates req report old).2.
Proof.
  unfold ip_updates. cbv zeta. cbn [snd]. repeat apply Forall_app_2;
    match goal with |- Forall _ (if ?b then _ else _) => destruct b end; try apply Forall_nil_2;
    (apply Forall_cons; split; [column | apply Forall_nil_2]).
Qed.
Lemma spread_other {V} k (a b : list (jstr * V)) : k ∉ map fst b → lookup_field k (spread a b) = lookup_field k a.
Proof.
  unfold spread. revert a. induction b as [|[k' v] b IH]; intros a Hk; cbn [fold_left]; [done |].
  cbn [map fst] in Hk. rewrite IH by (intros ?; apply Hk; by right). rewrite lookup_set_field. cbn [fst].
  rewrite decide_False; [done |]. intros ->. apply Hk. left.
Qed.
Lemma meta_uuid_kept uuid name hidden old patch :
  Forall agent_column patch → fld (buildSafeLiveBasicInfoClient uuid name hidden old patch) "uuid" = uuid.
Proof.
  intros Hp. unfold buildSafeLiveBasicInfoClient. cbv zeta. rewrite !fld_set_field. rewrite !decide_False by done.
  unfold fld. rewrite spread_other; [done |]. intros Hin. apply list_elem_of_fmap in Hin as (p & Ek & Hin).
  rewrite Forall_forall in Hp. destruct (Hp p Hin) as [Hc _]. rewrite <- Ek in Hc. revert Hc.
  apply (bool_decide_eq_false _). vm_compute. reflexivity.
Qed.

(** ** What each handler calls *)

Section Authenticated.
Context (sha256 : list Z → list Z) (URL : jstr → option url) (env : bindings) (req : request).
Context (Inv : agent_state → Prop) (K : kept Inv) (u : jsval).
Abbreviation does := (obeys Inv (permitted u) (task_of u)).

Lemma rate_permitted object body : permitted u (RateFetch object body).
Proof. exact I. Qed.
Lemma database_obeys : does (need_database env).
Proof. unfold need_database. obey. Qed.
Lemma live_fetch_obeys path body : body_owner path body = Some u → does (live_fetch env path body).
Proof. intros H. unfold live_fetch. obey. exact H. Qed.
Lemma tasks_obeys : does listAgentPingTasks.
Proof.
  assert (Hl : ∀ now, does (let! tasks := await ListPingTasks in
    let! _st := modify (λ st, with_pings (Some (tasks, now + AGENT_PING_TASK_CACHE_MS)) (agentPingIntervalCache st) st) in Ret tasks)).
  { intros now. apply obeys_bind; [by apply obeys_act | intros tasks]. apply obeys_bind; [| intros; exact I].
    apply modify_obeys. intros st. apply (kept_tasks _ K). }
  unfold listAgentPingTasks. cbv zeta. apply obeys_bind; [intros ?; exact I | intros now]. apply obeys_bind; [by intros s | intros st].
  destruct (agentPingTasksCache st) as [[tasks expires]|]; [destruct (now <? expires); [exact I |] |]; apply Hl.
Qed.
Lemma interval_obeys : does (getUnifiedPingIntervalSec URL).
Proof.
  assert (Hl : ∀ now, does (let! stored := await (GetSettingsByKeys AGENT_PING_INTERVAL_SETTING_KEYS) in
    let! _st := modify (λ st, with_pings (agentPingTasksCache st)
      (Some (bounded_interval (to_num (setting_value (buildAdminSettings URL stored) "ping_record_persist_interval_sec")),
             now + AGENT_PING_INTERVAL_SETTING_CACHE_MS)) st) in
    Ret (bounded_interval (to_num (setting_value (buildAdminSettings URL stored) "ping_record_persist_interval_sec"))))).
  { intros now. apply obeys_bind; [by apply obeys_act | intros stored]. apply obeys_bind; [| intros; exact I].
    apply modify_obeys. intros st. apply (kept_interval _ K). }
  unfold getUnifiedPingIntervalSec. cbv zeta. apply obeys_bind; [intros ?; exact I | intros now]. apply obeys_bind; [by intros s | intros st].
  destruct (agentPingIntervalCache st) as [[v expires]|]; [destruct (now <? expires); [exact I |] |]; apply Hl.
Qed.
Lemma policy_obeys : does (fallbackAgentPolicy sha256 URL u).
Proof.
  unfold fallbackAgentPolicy. cbv zeta. apply obeys_bind; [by apply obeys_act | intros stored]. apply obeys_bind; [| intros tasks].
  { destruct (truthy u); [| exact I]. apply obeys_bind; [apply tasks_obeys | intros; exact I]. }
  apply obeys_bind; [unfold agentWebsiteProbeTasksForClient; obey; reflexivity | intros probes].
  apply obeys_bind; [destruct (truthy u); [apply obeys_catch; [by apply obeys_act |] |]; intros; exact I | intros client].
  unfold pingPolicyVersion, digest. cbv zeta. obey.
Qed.
Lemma ip_change_obeys name parts : does (recordIpChangeIfEnabled URL name parts).
Proof. unfold recordIpChangeIfEnabled. cbv zeta. obey; exact I. Qed.
Lemma forget_obeys : does (modify (λ st, invalidateAgentClientAuthCache (Some u) (invalidatePublicMetadataCache st)) : agent agent_state).
Proof. apply modify_obeys. intros st Hs. by apply (kept_clients _ K), (kept_public _ K). Qed.
Lemma sync_ips_obeys name report old : does (syncClientIpsFromReport URL req u name report old).
Proof.
  unfold syncClientIpsFromReport. destruct old as [old|]; [| exact I].
  destruct (ip_updates req report old) as [[v4 v6] updates] eqn:E. destruct (length updates =? 0)%nat; [exact I |].
  apply obeys_bind; [| intros updated; apply obeys_bind; [apply forget_obeys | intros; apply ip_change_obeys]].
  apply obeys_act. split; [done |]. generalize (ip_updates_columns req report old). by rewrite E.
Qed.
Lemma meta_obeys name hidden old patch :
  Forall agent_column patch → does (syncLiveBasicInfoMetadata env (buildSafeLiveBasicInfoClient u name hidden old patch)).
Proof.
  intros Hp. unfold syncLiveBasicInfoMetadata, clientStringField. rewrite (meta_uuid_kept _ _ _ _ _ Hp). cbv zeta.
  destruct (nonempty (text_of u)) eqn:E; cbn [negb]; [| exact I]. apply obeys_bind; [| intros; exact I].
  apply live_fetch_obeys. change (Some (JStr (text_of u)) = Some u). by destruct u.
Qed.
Lemma basic_info_obeys name hidden info old : does (write_basic_info env req u name hidden info old).
Proof.
  unfold write_basic_info. cbv zeta. destruct (0 <? _)%nat; [| by split].
  apply obeys_bind; [apply obeys_act; split; [done | apply basic_info_columns] | intros updated].
  apply obeys_bind; [apply obeys_catch; [apply meta_obeys, basic_info_columns | intros; exact I] | intros _].
  apply obeys_bind; [apply forget_obeys | intros; by split].
Qed.

Context (id : identity) (Hid : clientUuid id = u).
Lemma live_report_obeys name hidden reports now : does (updateLiveReport env req id name hidden reports now).
Proof.
  unfold updateLiveReport. destruct (last reports); [| exact I]. cbv zeta.
  apply obeys_bind; [apply live_fetch_obeys; rewrite Hid; reflexivity |].
  intros r. unfold readClientReportResult, readJsonObject, json_or_null. obey.
Qed.
Lemma upload_obeys : does (uploadBasicInfo env req id).
Proof.
  unfold uploadBasicInfo. apply obeys_catch; [| intros; exact I]. apply with_body_obeys; [done | apply rate_permitted |].
  intros body. destruct (requireJsonObjectBody body) as [info|r]; [| exact I]. cbv zeta. rewrite Hid.
  apply obeys_bind; [apply database_obeys | intros _].
  apply obeys_bind; [destruct (clientRecord id); [exact I | by apply obeys_act] | intros old].
  apply obeys_bind; [apply basic_info_obeys | intros; exact I].
Qed.
Lemma report_obeys : does (report_route env req id).
Proof.
  unfold report_route. apply obeys_catch; [| intros; exact I]. apply with_body_obeys; [done | apply rate_permitted |].
  intros body. destruct (requireJsonObjectBody body) as [fs|r]; [| exact I]. cbv zeta. apply obeys_bind; [intros ?; exact I | intros now].
  destruct (last (raw_reports fs)); [| exact I]. rewrite Hid.
  apply obeys_bind; [apply database_obeys | intros _]. apply obeys_bind; [by split | intros _].
  apply obeys_bind; [unfold syncBasicInfoFromReportBatch; destruct (last_basic_info _); [apply basic_info_obeys | exact I] | intros _].
  apply obeys_bind; [apply live_report_obeys | intros persisted].
  apply obeys_bind; [destruct (_ && _); [by split | exact I] | intros; exact I].
Qed.
Lemma ping_tasks_obeys : does (ping_tasks URL env req id).
Proof.
  unfold ping_tasks. apply obeys_catch; [| intros; exact I]. apply obeys_bind; [apply database_obeys | intros _].
  apply obeys_bind; [apply tasks_obeys | intros tasks]. apply obeys_bind; [apply interval_obeys | intros; exact I].
Qed.
Lemma ping_result_obeys : does (ping_result_route env req id).
Proof.
  unfold ping_result_route. apply obeys_catch.
  - apply with_body_obeys; [done | apply rate_permitted |]. intros body. destruct (_ && _); [exact I |]. cbv zeta.
    apply obeys_bind; [apply database_obeys | intros _]. apply obeys_bind; [apply tasks_obeys | intros tasks].
    destruct (validatePingResults _ _ _) as [results|[code error]]; [| exact I]. destruct (negb (LIVE_DATA env)); [exact I |].
    apply obeys_bind; [intros ?; exact I | intros now]. apply obeys_bind; [apply live_fetch_obeys; rewrite Hid; reflexivity | intros r].
    unfold readAcceptedCount, readJsonObject, json_or_null. obey.
  - intros error. apply obeys_bind; [| intros; exact I]. apply obeys_catch; [| intros; exact I].
    apply obeys_bind; [apply database_obeys | intros _; by apply obeys_act].
Qed.
Lemma policy_route_obeys : does (policy sha256 URL env id).
Proof.
  assert (H : does (do! need_database env in let! p := fallbackAgentPolicy sha256 URL (clientUuid id) in Ret (json_ok p))).
  { apply obeys_bind; [apply database_obeys | intros _]. rewrite Hid. apply obeys_bind; [apply policy_obeys | intros; exact I]. }
  unfold policy. cbv zeta. apply obeys_catch; [exact H | intros _]. apply obeys_catch; [exact H | intros _]. by intros now.
Qed.
End Authenticated.

Lemma mark_obeys sha256 Inv u client ip T :
  fld client "uuid" = u → obeys Inv (permitted u) T (markTokenUsed sha256 client ip).
Proof.
  intros Hu. unfold markTokenUsed. apply obeys_bind; [apply obeys_catch; [by apply obeys_act | intros; exact I] |].
  intros updated. destruct (updated : bool); [| exact I]. apply obeys_catch; [| intros; exact I].
  unfold recordAgentTokenSourceIpChange, sourceIpFingerprint, digest. cbv zeta. obey. exact I.
Qed.
(** A task of the node [u] calls only for [u], and leaves tasks of [u]. *)
Lemma task_obeys sha256 URL Inv (K : kept Inv) u t :
  task_of u t → obeys Inv (permitted u) (task_of u) (run_task sha256 URL t).
Proof.
  destruct t as [client ip|req v name report old|name parts|v version]; cbn [task_of run_task].
  - intros Hu. by apply mark_obeys.
  - intros ->. by apply sync_ips_obeys.
  - intros _. apply ip_change_obeys.
  - intros ->. apply obeys_bind; [| intros _; apply obeys_bind; [by apply forget_obeys | intros; exact I]].
    apply obeys_act. split; [done |]. apply Forall_cons. split; [column | apply Forall_nil_2].
Qed.

(** ** The identity behind a token *)

Section Proof_of_identity.
Context (sha256 : list Z → list Z) (env : bindings) (token : jstr).
Definition presented_hash : jstr := hashAgentToken sha256 token.
(** What is called to find whose token was presented. *)
Definition presented (c : call) : Prop :=
  match c with
  | LiveFetch path body =>
    isAgentTokenShape token = true
    ∧ (path = "agent-auth/lookup" ∧ body = JObj [("token_hash", JStr presented_hash)]
       ∨ path = "agent-auth" ∧ ∃ c, body = JObj [("client", JObj c)] ∧ fld c "token_hash" = JStr (trim presented_hash) ∧ fld c "token" = JStr "")
  | GetClientByToken t | GetClientIdentityByToken t => isAgentTokenShape token = true ∧ t = token
  | RateFetch _ _ => True
  | _ => False
  end.
(** The live object answered the hash of the token with a client. *)
Definition live_says (row : fields) (ev : event call ans) : Prop :=
  ∃ r p client, ev = existT (LiveFetch "agent-auth/lookup" (JObj [("token_hash", JStr presented_hash)])) (Ok r)
    ∧ rp_ok r = true ∧ rp_json r = Some (JObj p) ∧ fld p "client" = JObj client ∧ normalizeLiveAgentAuthClient (JObj client) = Some row.
(** The database answered the token with a row. *)
Definition database_says (row : fields) (ev : event call ans) : Prop :=
  ev = existT (GetClientByToken token) (Ok (Some row)) ∨ ev = existT (GetClientIdentityByToken token) (Ok (Some row)).
(** The live object, where there is one, acknowledged the credential of a snapshot. *)
Definition live_accepts (snapshot : fields) (ev : event call ans) : Prop :=
  ∃ r b, ev = existT (LiveFetch "agent-auth" (JObj [("client", JObj (set_field "token" (JStr "") (del_field "token" snapshot)))])) (Ok r)
    ∧ rp_ok r = true ∧ rp_json r = Some (JObj b) ∧ is_bool (fld b "success") true = true.
(** [row] identifies the bearer of the token, as far as [h] tells. *)
Definition bearer (row : fields) (h : list (event call ans)) : Prop :=
  isAgentTokenShape token = true ∧
  ((∃ ev, ev ∈ h ∧ live_says row ev)
   ∨ ∃ ev snapshot, ev ∈ h ∧ database_says row ev
       ∧ normalizeLiveAgentAuthClient (JObj (set_field "token_hash" (JStr presented_hash) row)) = Some snapshot
       ∧ (LIVE_DATA env = false ∨ ∃ ev', ev' ∈ h ∧ live_accepts snapshot ev')).
Lemma bearer_mono row h l : bearer row h → bearer row (h ++ l).
Proof.
  assert (Hin : ∀ ev : event call ans, ev ∈ h → ev ∈ h ++ l) by (intros; apply elem_of_app; by left).
  intros (Hs & [(ev & He & H)|(ev & sn & He & H1 & H2 & H3)]); (split; [done |]); [left; eauto | right].
  exists ev, sn. split; [auto | split; [done | split; [done |]]]. destruct H3 as [H3|(ev' & He' & H3)]; [by left | right; eauto].
Qed.

(** A history is accounted for: each call looks the token up, or acts for its bearer. *)
Definition call_justified (h : list (event call ans)) (c : call) : Prop :=
  presented c ∨ ∃ row, bearer row h ∧ permitted (fld row "uuid") c.
Definition accounted (h : list (event call ans)) (b : list task) : Prop :=
  (∀ l1 ev l2, h = l1 ++ ev :: l2 → call_justified l1 (projT1 ev)) ∧ (∀ t, t ∈ b → ∃ row, bearer row h ∧ task_of (fld row "uuid") t).
Lemma accounted_nil : accounted [] [].
Proof. split; [by intros [] | by intros t ?%elem_of_nil]. Qed.
Lemma accounted_app h b l t :
  accounted h b →
  (∀ l1 ev l2, l = l1 ++ ev :: l2 → call_justified (h ++ l1) (projT1 ev)) →
  (∀ x, x ∈ t → ∃ row, bearer row (h ++ l) ∧ task_of (fld row "uuid") x) → accounted (h ++ l) (b ++ t).
Proof.
  intros [H1 H2] Hl Ht. split.
  - intros l1 ev l2 E. destruct (app_eq_inv _ _ _ _ E) as [(k & -> & E2)|(k & -> & E2)].
    + destruct k as [|ev' k]; cbn in E2.
      * generalize (Hl [] ev l2 (eq_sym E2)). by rewrite !app_nil_r.
      * injection E2 as -> ->. by apply (H1 l1 ev' k).
    + by apply (Hl k ev l2).
  - intros x [Hx|Hx]%elem_of_app; [| by apply Ht]. destruct (H2 x Hx) as (row & Hb & Hx2). exists row. split; [by apply bearer_mono | done].
Qed.
Lemma accounted_presented h b l : accounted h b → Forall (λ ev, presented (projT1 ev)) l → accounted (h ++ l) b.
Proof.
  intros Ha Hl. rewrite <- (app_nil_r b). apply accounted_app; [done | | by intros x ?%elem_of_nil].
  intros l1 ev l2 ->. left. by apply Forall_app in Hl as [_ [Hl _]%Forall_cons].
Qed.
Lemma accounted_permitted row h b l t :
  accounted h b → bearer row h → Forall (λ ev, permitted (fld row "uuid") (projT1 ev)) l → Forall (task_of (fld row "uuid")) t →
  accounted (h ++ l) (b ++ t).
Proof.
  intros Ha Hb Hl Ht. apply accounted_app; [done | |].
  - intros l1 ev l2 ->. right. exists row. split; [by apply bearer_mono |]. by apply Forall_app in Hl as [_ [Hl _]%Forall_cons].
  - intros x Hx. exists row. split; [by apply bearer_mono |]. rewrite Forall_forall in Ht. auto.
Qed.
End Proof_of_identity.

Lemma normalized_hash fs row :
  normalizeLiveAgentAuthClient (JObj fs) = Some row → fld row "token_hash" = JStr (trim (clientStringField fs "token_hash")).
Proof. unfold normalizeLiveAgentAuthClient. cbn [isJsonObjectPayload]. cbv zeta. destruct (_ || _); [done | by intros [= <-]]. Qed.
Lemma strip_uuid row : fld (stripCachedAgentToken row) "uuid" = fld row "uuid".
Proof. unfold stripCachedAgentToken. destruct (truthy _); [by rewrite fld_set_field, decide_False | done]. Qed.

Section Lookup.
Context (sha256 : list Z → list Z) (env : bindings) (Inv : agent_state → Prop) (K : kept Inv) (token : jstr) (Hshape : isAgentTokenShape token = true).
Abbreviation hash := (presented_hash sha256 token).
Abbreviation accounted := (accounted sha256 env token).
Abbreviation bearer := (bearer sha256 env token).

Lemma read_live_wp h b :
  accounted h b →
  wp Inv (readLiveAgentAuthClient env hash) h b
     (λ h b' r, b' = b ∧ accounted h b ∧ ∀ row, r = Ok (Some row) → bearer row h).
Proof.
  intros Ha. unfold readLiveAgentAuthClient. destruct (LIVE_DATA env) eqn:EL; cbn [negb]; [| by split].
  cbn [wp bind settle attempt_act]. intros x.
  assert (Hp : accounted (h ++ [existT (LiveFetch "agent-auth/lookup" (JObj [("token_hash", JStr hash)])) x]) b).
  { apply accounted_presented; [done |]. apply Forall_singleton. split; [done | left; done]. }
  destruct x as [r|e]; [| by split]. destruct (rp_ok r) eqn:Er; cbn [negb]; [| by split]. cbn [wp bind json_or_null].
  split; [done | split; [done |]]. intros row [= Hrow]. split; [done |]. left.
  destruct (rp_json r) as [[| | | | | |p]|] eqn:Ej; try done. unfold id, default in Hrow. destruct (fld p "client") as [| | | | | |client] eqn:Ec; try done.
  eexists. split; [apply elem_of_app; right; apply list_elem_of_singleton; reflexivity |]. by exists r, p, client.
Qed.
Lemma upsert_wp snapshot h b :
  accounted h b → fld snapshot "token_hash" = JStr (trim hash) →
  wp Inv (upsertLiveAgentAuthClient env snapshot) h b
     (λ h' b' r, b' = b ∧ accounted h' b ∧ (∃ l, h' = h ++ l)
        ∧ (r = Ok true → LIVE_DATA env = false ∨ ∃ ev, ev ∈ h' ∧ live_accepts snapshot ev)).
Proof.
  intros Ha Hs. unfold upsertLiveAgentAuthClient. destruct (negb (truthy _)); [split; [done | split; [done | split; [by exists []; rewrite app_nil_r | done]]] |].
  destruct (LIVE_DATA env) eqn:EL; cbn [negb]; [| split; [done | split; [done | split; [by exists []; rewrite app_nil_r | by left]]]].
  cbn [wp bind await act]. intros x.
  set (ev := existT _ _).
  assert (Hp : accounted (h ++ [ev]) b).
  { apply accounted_presented; [done |]. apply Forall_singleton. split; [done | right]. split; [done |]. eexists. split; [reflexivity |].
    rewrite !fld_set_field, fld_del_field. by repeat case_decide. }
  destruct x as [r|e]; [| by split; [| split; [| split; [eexists |]]]].
  cbn [wp bind json_or_null]. split; [done | split; [done | split; [by eexists |]]]. intros [= Hok]. right. apply andb_true_iff in Hok as [Hr Hb].
  exists ev. split; [apply elem_of_app; right; apply list_elem_of_singleton; done |].
  destruct (rp_json r) as [[| | | | | |bd]|] eqn:Ej; try done. by exists r, bd.
Qed.
Lemma mark_due_wp defer row key ip now h b (Q : post call ans task unit) :
  accounted h b → bearer row h →
  (∀ h' b' r, accounted h' b' → (∃ l, h' = h ++ l) → Q h' b' r) → wp Inv (markAgentTokenUsedIfDue sha256 defer row key ip now) h b Q.
Proof.
  intros Ha Hb HQ. apply (obeys_wp _ _ _ _ Inv (permitted (fld row "uuid")) (task_of (fld row "uuid"))).
  - unfold markAgentTokenUsedIfDue. cbv zeta. apply obeys_bind.
    + intros s Hs. destruct (usage_current _ _ _ _); [by split |]. split; [by apply (kept_usage _ K) | exact I].
    + intros st. destruct (usage_current _ _ _ _); [exact I |]. destruct defer; [by split | by apply mark_obeys].
  - intros l t r Hl Ht. apply HQ; [by eapply accounted_permitted | by exists l].
Qed.

Context (cache : agent_state → auth_cache) (with_cache : auth_cache → agent_state → agent_state) (query : agent (option fields)).
Context (Hset : ∀ k v ttl now st, Inv st → Inv (with_cache (setAgentAuthCache k v ttl now (cache st)) st)).
Context (Hdel : ∀ k st, Inv st → Inv (with_cache (del_field k (cache st)) st)).
Context (Hquery : ∀ h b (Q : post call ans task (option fields)),
  (∀ ev r, presented sha256 token (projT1 ev) → (∀ row, r = Ok (Some row) → database_says token row ev) → Q (h ++ [ev]) b r) → wp Inv query h b Q).
Definition found_post : post call ans task (jstr * option fields) := λ h b r,
  accounted h b ∧ ∀ src c, r = Ok (src, Some c) → ∃ row, c = stripCachedAgentToken row ∧ bearer row h.
Lemma set_cache_wp k v ttl now h b Q : Q h b (Ok tt) → wp Inv (set_cache cache with_cache k v ttl now) h b Q.
Proof. intros HQ st Hst. split; [by apply Hset | done]. Qed.
Lemma found_wp defer src row ip now h b :
  accounted h b → bearer row h →
  wp Inv (do! set_cache cache with_cache hash (Some (stripCachedAgentToken row)) AGENT_AUTH_CACHE_MS now in
          do! markAgentTokenUsedIfDue sha256 defer row hash ip now in Ret (src, Some (stripCachedAgentToken row))) h b found_post.
Proof.
  intros Ha Hb. apply wp_bind, set_cache_wp. apply wp_bind. apply mark_due_wp; [done | done |].
  intros h' b' [[]|e] Ha' [l ->]; (split; [done |]); [| done]. intros s c [= _ <-]. exists row. split; [done | by apply bearer_mono].
Qed.
Lemma by_token_wp defer ip h b :
  accounted h b → wp Inv (agent_by_token sha256 env cache with_cache query defer token ip) h b found_post.
Proof.
  intros Ha. unfold agent_by_token. cbn [wp bind clock agentTokenLookupHash get]. intros now st Hst. split; [done |].
  destruct (match lookup_field _ _ with Some _ => _ | None => _ end); [by split |].
  apply wp_bind. eapply wp_mono; [| by apply read_live_wp]. cbv beta. intros h1 b1 [[row|]|e] (-> & H1 & Hrow); [by apply found_wp; auto | | by split].
  apply wp_bind, Hquery. intros ev r Hev Hr.
  assert (H2 : accounted (h1 ++ [ev]) b) by (apply accounted_presented; [done | by apply Forall_singleton]).
  destruct r as [[row|]|e]; [| apply wp_bind, set_cache_wp; by split | by split]. specialize (Hr row eq_refl).
  apply wp_bind.
  set (Qs := λ (h2 : list (event call ans)) (b2 : list task) (r : result jstr bool), b2 = b ∧ accounted h2 b ∧ (r = Ok true → bearer row h2)).
  assert (Hstored : wp Inv (match normalizeLiveAgentAuthClient (JObj (set_field "token_hash" (JStr hash) row)) with
                            | Some snapshot => upsertLiveAgentAuthClient env snapshot | None => Ret false end) (h1 ++ [ev]) b Qs).
  { destruct (normalizeLiveAgentAuthClient _) as [snapshot|] eqn:En; [| by split].
    eapply wp_mono; [| apply upsert_wp; [done |]].
    - intros h2 b2 r (-> & H3 & [l ->] & H4). split; [done | split; [done |]]. intros Hok. split; [done |]. right. exists ev, snapshot.
      split; [apply elem_of_app; left; apply elem_of_app; right; by apply list_elem_of_singleton |]. auto.
    - rewrite (normalized_hash _ _ En). unfold clientStringField. by rewrite fld_set_field, decide_True. }
  eapply wp_mono; [| exact Hstored]. unfold Qs. cbv beta. intros h2 b2 [[|]|e] (-> & H3 & H4); cbn [negb]; [by apply found_wp; auto | | by split].
  cbn [wp bind modify]. intros s Hs. split; [by apply Hdel | by split].
Qed.
End Lookup.

Section Requests.
Context (sha256 : list Z → list Z) (URL : jstr → option url) (env : bindings) (req : request) (Inv : agent_state → Prop) (K : kept Inv).
Abbreviation token := (trim (bearerToken req)).
Abbreviation accounted := (accounted sha256 env token).

Lemma presented_wp {A} (p : agent A) h b (Q : post call ans task A) :
  obeys Inv (presented sha256 token) (λ _, False) p → accounted h b → (∀ h r, accounted h b → Q h b r) → wp Inv p h b Q.
Proof.
  intros Hp Ha HQ. eapply obeys_wp; [exact Hp |]. intros l t r Hl Ht.
  destruct t as [|x t]; [| by apply Forall_cons in Ht as [[] _]]. rewrite app_nil_r. apply HQ. by apply accounted_presented.
Qed.
Lemma query_wp (full : bool) h b (Q : post call ans task (option fields)) :
  isAgentTokenShape token = true →
  (∀ ev r, presented sha256 token (projT1 ev) → (∀ row, r = Ok (Some row) → database_says token row ev) → Q (h ++ [ev]) b r) →
  wp Inv (if full then await (GetClientByToken token) else await (GetClientIdentityByToken token)) h b Q.
Proof.
  intros Hs HQ. destruct full; intros [r|e]; cbn [wp]; apply HQ; try done; intros row [= ->]; [by left | by right].
Qed.
Lemma lookup_wp (full : bool) h b :
  isAgentTokenShape token = true → accounted h b →
  wp Inv ((if full then getAgentClientByToken sha256 env else getAgentClientIdentityByToken sha256 env) true token (requestClientIp req)) h b
     (found_post sha256 env token).
Proof.
  intros Hs Ha. destruct full.
  - apply by_token_wp; [done | done | apply (kept_auth _ K) | apply (kept_auth_del _ K) | | done]. intros. by apply (query_wp true).
  - apply by_token_wp; [done | done | apply (kept_identity _ K) | apply (kept_identity_del _ K) | | done]. intros. by apply (query_wp false).
Qed.
Lemma authenticated_wp full next h b :
  (∀ u id, clientUuid id = u → obeys Inv (permitted u) (task_of u) (next id)) → accounted h b →
  wp Inv (authenticated_by sha256 env req full next) h b (λ h b _, accounted h b).
Proof.
  intros Hnext Ha. unfold authenticated_by. cbv zeta.
  assert (Hrefuse : ∀ h b error, accounted h b → wp Inv (refuse sha256 env req token error) h b (λ h b _, accounted h b)).
  { intros h' b' error Ha'. apply presented_wp; [by apply refuse_obeys | done | done]. }
  apply wp_bind, presented_wp; [by apply attempt_obeys | done |]. intros h1 [[r|]|e] H1; [done | | done].
  destruct (negb (nonempty token)); [by apply Hrefuse |].
  destruct (isAgentTokenShape token) eqn:Hs; cbn [negb]; [| by apply Hrefuse].
  apply wp_bind, presented_wp; [unfold need_database; obey | done |]. intros h2 [[]|e] H2; [| done].
  apply wp_bind. eapply wp_mono; [| by apply lookup_wp].
  intros h3 b3 [[src [client|]]|e] [H3 Hrow]; [| cbn [wp bind header fst snd]; by apply Hrefuse | done].
  destruct (Hrow src client eq_refl) as (row & -> & Hb). cbn [wp bind header fst snd agentTokenKey digest agentTokenLookupHash].
  eapply obeys_wp; [apply (Hnext (fld row "uuid")), strip_uuid |].
  intros l t r Hl Ht. by apply (accounted_permitted _ _ _ row).
Qed.
Lemma handle_wp r : wp Inv (handle sha256 URL env req r) [] [] (λ h b _, accounted h b).
Proof.
  destruct r; cbn [handle]; unfold clientAuth, clientIdentityAuth; try (apply authenticated_wp; [| apply accounted_nil]; intros u id Hid).
  - split; [by intros [] | by intros t ?%elem_of_nil].
  - by apply policy_route_obeys.
  - by apply upload_obeys.
  - by apply report_obeys.
  - by apply ping_tasks_obeys.
  - by apply ping_result_obeys.
Qed.
End Requests.

(** C16: Whatever the live object, the database and the rate limiter answer, and whatever
    the caches of the isolate hold, every call a request of an agent makes either looks
    up the token it presents or acts for a node that, at that point, the live object has
    named for the token's hash, or the database has named for the token with the live
    object accepting the credential; such a call reads or writes that node only, writes
    only the columns a report may write and only public addresses.  The tasks the request
    leaves behind act for such a node too, whatever happens while they run. *)
Theorem agent_request_confined sha256 URL env req r e n s :
  let token := trim (bearerToken req) in
  let run := exec e n s (handle sha256 URL env req r) in
  (∀ before ev after, r_log run = before ++ ev :: after → call_justified sha256 env token before (projT1 ev))
  ∧ ∀ t, t ∈ r_tasks run →
      ∃ row, bearer sha256 env token row (r_log run)
        ∧ ∀ e n s, Forall (λ ev, permitted (fld row "uuid") (projT1 ev)) (r_log (exec e n s (run_task sha256 URL t))).
Proof.
  cbv zeta. destruct (wp_sound _ _ _ _ (λ _, True) _ [] [] _ e n s I (λ _ _ _, I) (handle_wp sha256 URL env req _ kept_true r)) as [[H1 H2] _].
  cbn [Datatypes.app] in H1, H2. split; [exact H1 |]. intros t Ht. destruct (H2 t Ht) as (row & Hb & Hrow). exists row. split; [done |].
  intros e' n' s'.
  destruct (wp_sound _ _ _ _ (λ _, True) (run_task sha256 URL t) [] [] (λ l _ _, Forall (λ ev, permitted (fld row "uuid") (projT1 ev)) l) e' n' s' I (λ _ _ _, I)) as [H _].
  - eapply obeys_wp; [by eapply task_obeys, Hrow; apply kept_true |]. by intros l b _ Hl _.
  - exact H.
Qed.

(** ** What the isolate keeps *)

Definition small {V} (m : list (jstr * V)) : Prop := (length m ≤ AGENT_AUTH_CACHE_MAX_ENTRIES)%nat ∧ NoDup (map fst m).
Definition policy_range (n : num) : Prop := ∃ z, n = of_Z z ∧ 60 ≤ z ≤ 3600.
Definition bounded (st : agent_state) : Prop :=
  small (agentAuthCache st) ∧ small (agentIdentityAuthCache st) ∧ small (agentTokenUsageCache st)
  ∧ match agentPingIntervalCache st with Some (n, _) => policy_range n | None => True end.
Definition fresh_state : agent_state :=
  {| agentAuthCache := []; agentIdentityAuthCache := []; agentTokenUsageCache := []; agentPingTasksCache := None;
     agentPingIntervalCache := None; localAgentRateLimitBuckets := [];
     publicCaches := {| publicSettingsCache := None; publicClientsSnapshotCache := None; publicPingTasksCache := None;
                        publicMetadataResponseCache := []; publicHistoryCache := []; publicClientVisibilityCache := [] |};
     localWsRateLimit := (0, []) |}.

Lemma set_field_length {V} k (v : V) m : (length (set_field k v m) ≤ S (length m))%nat.
Proof. induction m as [|[k' v'] m IH]; cbn [set_field length]; [lia |]. destruct (decide _); cbn [length]; lia. Qed.
Lemma keys_filter {V} (f : jstr * V → bool) m : NoDup (map fst m) → NoDup (map fst (List.filter f m)).
Proof.
  induction m as [|p m IH]; intros H; [done |]. cbn [map fst] in H. apply NoDup_cons in H as [H1 H2]. cbn [List.filter].
  destruct (f p); [| auto]. cbn [map]. apply NoDup_cons. split; [| auto]. intros (q & E & Hq)%list_elem_of_fmap.
  apply H1. rewrite E. apply list_elem_of_fmap. exists q. split; [done |]. apply list_elem_of_In, List.filter_In in Hq as [Hq _]. by apply list_elem_of_In.
Qed.
Lemma filter_small {V} (f : jstr * V → bool) m : small m → small (List.filter f m).
Proof. intros [H1 H2]. split; [generalize (List.filter_length_le f m); lia | by apply keys_filter]. Qed.
Lemma set_small {V} k (v : V) m : small m → small (bounded_set AGENT_AUTH_CACHE_MAX_ENTRIES k v m).
Proof.
  intros [H1 H2]. unfold bounded_set. split.
  - etrans; [apply set_field_length |]. destruct (_ <=? _)%nat eqn:E; [apply Nat.leb_le in E | apply Nat.leb_gt in E; lia].
    rewrite length_drop. assert (AGENT_AUTH_CACHE_MAX_ENTRIES = 512%nat) by done. lia.
  - apply set_field_nodup. destruct (_ <=? _)%nat; [| done]. destruct m as [|p m]; [done |]. by apply NoDup_cons in H2 as [_ ?].
Qed.
Lemma small_nil {V} : small ([] : list (jstr * V)).
Proof. split; [cbn; lia | constructor]. Qed.
Lemma del_field_filter {V} k (m : list (jstr * V)) : del_field k m = List.filter (λ p, bool_decide (p.1 ≠ k)) m.
Proof.
  unfold del_field. induction m as [|p m IH]; [done |]. rewrite filter_cons. cbn [List.filter]. rewrite IH.
  unfold bool_decide. by destruct (decide_rel _ _ _), (decide _).
Qed.
Lemma del_small {V} k (m : list (jstr * V)) : small m → small (del_field k m).
Proof. rewrite del_field_filter. apply filter_small. Qed.
Lemma interval_range n : policy_range (bounded_interval n).
Proof.
  unfold bounded_interval. destruct (is_finite n) eqn:E; [| by exists 120].
  destruct (num_Z_floor n E) as [z ->]. rewrite num_max_Z, num_min_Z. eexists. split; [reflexivity |].
  assert (AGENT_PING_TASK_MIN_POLL_SEC = 60 ∧ AGENT_PING_TASK_MAX_POLL_SEC = 3600) as [-> ->] by done. lia.
Qed.
Lemma kept_bounded : kept bounded.
Proof.
  split; intros; unfold bounded in *; cbn in *; try tauto;
    try (destruct_and!; split_and!; try done; first [by apply set_small | by apply del_small | apply interval_range]).
  destruct c as [v|]; cbn; destruct_and!; split_and!; try done; first [by apply filter_small | apply small_nil].
Qed.

(** What runs in the isolate: requests of agents, and the invalidations of the
    administrator's routes. *)
Definition agent_program (sha256 : list Z → list Z) (URL : jstr → option url) (p : agent unit) : Prop :=
  (∃ env req r, p = (let! _r := handle sha256 URL env req r in Ret tt))
  ∨ (∃ client, p = (let! _st := modify (invalidateAgentClientAuthCache client) in Ret tt))
  ∨ p = (let! _st := modify invalidateAgentPingTaskCache in Ret tt)
  ∨ p = (let! _st := modify invalidatePublicMetadataCache in Ret tt).

Section Kept.
Context (sha256 : list Z → list Z) (URL : jstr → option url) (Inv : agent_state → Prop) (K : kept Inv).
Abbreviation any := (obeys Inv (λ _, True) (λ _, True)).
Lemma by_token_any env cache with_cache query defer token ip :
  (∀ k v ttl now st, Inv st → Inv (with_cache (setAgentAuthCache k v ttl now (cache st)) st)) →
  (∀ k st, Inv st → Inv (with_cache (del_field k (cache st)) st)) → any query →
  any (agent_by_token sha256 env cache with_cache query defer token ip).
Proof.
  intros Hset Hdel Hq. unfold agent_by_token.
  assert (Hs : ∀ k v ttl now, any (set_cache cache with_cache k v ttl now)).
  { intros. apply obeys_bind; [apply modify_obeys; auto | intros; exact I]. }
  assert (Hm : ∀ row k now, any (markAgentTokenUsedIfDue sha256 defer row k ip now)).
  { intros. unfold markAgentTokenUsedIfDue. cbv zeta. apply obeys_bind.
    - intros s Hst. destruct (usage_current _ _ _ _); [by split |]. split; [by apply (kept_usage _ K) | exact I].
    - intros st. destruct (usage_current _ _ _ _); [exact I |]. destruct defer; [by split |].
      eapply obeys_mono; [| | by apply (mark_obeys _ _ (fld row "uuid") _ _ (λ _, True))]; done. }
  apply obeys_bind; [intros ?; exact I | intros now]. apply obeys_bind; [exact I | intros key]. apply obeys_bind; [by intros s | intros st].
  destruct (match lookup_field _ _ with Some _ => _ | None => _ end); [exact I |].
  apply obeys_bind; [unfold readLiveAgentAuthClient, json_or_null; obey; split; [exact I |]; intros; exact I | intros [row|]].
  - cbv zeta. apply obeys_bind; [apply Hs | intros _]. apply obeys_bind; [apply Hm | intros; exact I].
  - apply obeys_bind; [exact Hq | intros [row|]]; [| apply obeys_bind; [apply Hs | intros; exact I]].
    apply obeys_bind; [unfold upsertLiveAgentAuthClient, json_or_null; obey; exact I | intros stored].
    destruct (negb stored); [apply obeys_bind; [apply modify_obeys; auto | intros; exact I] |].
    cbv zeta. apply obeys_bind; [apply Hs | intros _]. apply obeys_bind; [apply Hm | intros; exact I].
Qed.
Lemma authenticated_any env req full next :
  (∀ u id, clientUuid id = u → obeys Inv (permitted u) (task_of u) (next id)) → any (authenticated_by sha256 env req full next).
Proof.
  intros Hnext. unfold authenticated_by. cbv zeta. apply obeys_bind; [by apply attempt_obeys | intros [r|]; [exact I |]].
  destruct (negb _); [by apply refuse_obeys |]. destruct (negb _); [by apply refuse_obeys |].
  apply obeys_bind; [unfold need_database; obey | intros _]. apply obeys_bind.
  - destruct full.
    + apply by_token_any; [apply (kept_auth _ K) | apply (kept_auth_del _ K) | by apply obeys_act].
    + apply by_token_any; [apply (kept_identity _ K) | apply (kept_identity_del _ K) | by apply obeys_act].
  - intros [src [client|]]; cbn [fst snd bind header obeys]; [| by apply refuse_obeys].
    apply obeys_bind; [exact I | intros key]. apply obeys_bind; [exact I | intros tokenHash].
    eapply obeys_mono; [| | by apply (Hnext (fld client "uuid"))]; done.
Qed.
Lemma handle_any env req r : any (handle sha256 URL env req r).
Proof.
  destruct r; cbn [handle]; [exact I | ..]; apply authenticated_any; intros u id Hid.
  - by apply policy_route_obeys.
  - by apply upload_obeys.
  - by apply report_obeys.
  - by apply ping_tasks_obeys.
  - by apply ping_result_obeys.
Qed.
Lemma agent_program_any p : agent_program sha256 URL p → any p.
Proof.
  intros [(env & req & r & ->)|[(client & ->)|[->| ->]]]; (apply obeys_bind; [| intros; exact I]).
  - apply handle_any.
  - apply modify_obeys. apply (kept_clients _ K).
  - apply modify_obeys. apply (kept_pings _ K).
  - apply modify_obeys. apply (kept_public _ K).
Qed.
Lemma run_task_any t : any (run_task sha256 URL t).
Proof.
  destruct t as [client ip|req v name report old|name parts|v version].
  - eapply obeys_mono; [| | by apply (task_obeys _ _ _ K (fld client "uuid"))]; done.
  - eapply obeys_mono; [| | by apply (task_obeys _ _ _ K v)]; done.
  - eapply obeys_mono; [| | by apply (task_obeys _ _ _ K JNull)]; done.
  - eapply obeys_mono; [| | by apply (task_obeys _ _ _ K v)]; done.
Qed.
End Kept.

(** C30: However many requests of agents, background tasks and invalidations by the
    administrator interleave in an isolate, and whatever is answered to them, each of
    its three token caches has at most 512 entries and one per token, and the ping
    interval it keeps is a whole number of seconds from a minute to an hour. *)
Theorem agent_caches_bounded sha256 URL st programs :
  rtc (pool_step (run_task sha256 URL) (agent_program sha256 URL)) (fresh_state, []) (st, programs) → bounded st.
Proof.
  intros H. eapply (pool_invariant _ _ _ _ bounded (λ _, True) (λ _, True)); [| | | apply Forall_nil_2 | exact H].
  - intros p. apply agent_program_any, kept_bounded.
  - intros t _. apply run_task_any, kept_bounded.
  - repeat split; cbn; try lia; constructor.
Qed.

(** ** Basic information settles *)

Definition TEXT_COLUMNS : list jstr := ["cpu_name"; "virtualization"; "arch"; "os"; "kernel_version"; "gpu_name"; "ipv4"; "ipv6"; "region"; "version"].
Definition NUMBER_COLUMNS : list jstr := ["cpu_cores"; "mem_total"; "swap_total"; "disk_total"].
Definition text_cell (v : jsval) : Prop := match v with JUndef | JNull | JStr _ => True | _ => False end.
Definition number_cell (v : jsval) : Prop := match v with JUndef | JNull => True | JNum n => is_finite n = true | _ => False end.
(** A row of the table: the columns have their types, or are absent. *)
Definition client_row (row : fields) : Prop :=
  (∀ k, k ∈ TEXT_COLUMNS → text_cell (fld row k)) ∧ (∀ k, k ∈ NUMBER_COLUMNS → number_cell (fld row k)).

Lemma patch_keys old next : NoDup (map fst (buildChangedClientPatch old next)).
Proof.
  unfold buildChangedClientPatch. apply fold_left_invariant; [constructor |]. intros patch p _ IH.
  destruct (clientFieldChanged _ _); [by apply set_field_nodup | done].
Qed.
Lemma patch_lookup old next k :
  NoDup (map fst next) →
  lookup_field k (buildChangedClientPatch old next)
  = match lookup_field k next with Some v => if clientFieldChanged (fldo old k) v then Some v else None | None => None end.
Proof.
  unfold buildChangedClientPatch. intros Hn.
  assert (H : ∀ acc, lookup_field k (fold_left (λ patch p, if clientFieldChanged (fldo old p.1) p.2 then set_field p.1 p.2 patch else patch) next acc)
    = match lookup_field k next with Some v => if clientFieldChanged (fldo old k) v then Some v else lookup_field k acc | None => lookup_field k acc end).
  { induction next as [|[k' v] next IH]; intros acc; cbn [fold_left lookup_field]; [done |]. cbn [map fst] in Hn. apply NoDup_cons in Hn as [Hk Hn].
    rewrite IH by done. cbn [fst snd]. destruct (decide (k = k')) as [-> |Hne].
    - destruct (lookup_field k' next) as [w|] eqn:E.
      + exfalso. apply Hk. apply list_elem_of_fmap. exists (k', w). split; [done |]. by apply lookup_field_elem.
      + destruct (clientFieldChanged (fldo old k') v) eqn:Ec; [| done]. by rewrite lookup_set_field, decide_True.
    - destruct (clientFieldChanged (fldo old k') v) eqn:Ec; [| done]. by rewrite lookup_set_field, decide_False. }
  rewrite H. done.
Qed.
Lemma patch_nil old next : Forall (λ p, clientFieldChanged (fldo old p.1) p.2 = false) next → buildChangedClientPatch old next = [].
Proof.
  unfold buildChangedClientPatch. intros H. apply fold_left_invariant; [done |]. intros patch p Hp ->.
  rewrite Forall_forall in H. by rewrite (H p Hp).
Qed.
Lemma Qeq_zero q : Qeq_bool q 0 = true → Qeq_bool 0 q = true.
Proof. rewrite !Qeq_bool_iff. by intros ->. Qed.
Lemma number_self n : is_finite n = true → num_eqb (to_num (js_or (JNum n) (JNum (of_Z 0)))) n = true.
Proof.
  destruct n as [|q|]; try done. intros _. unfold js_or. cbn [truthy num_truthy]. destruct (Qeq_bool q 0) eqn:E; cbn [negb to_num num_eqb of_Z].
  - by apply Qeq_zero.
  - apply Qeq_bool_iff. reflexivity.
Qed.
Lemma text_fallback c : text_cell c → clientFieldChanged c (js_or c (JStr "")) = false.
Proof.
  destruct c as [| | | |s| |]; try done. intros _. unfold js_or. cbn [truthy]. destruct (nonempty s) eqn:E; cbn.
  - by rewrite jeq_refl.
  - apply nonempty_false in E. by rewrite E.
Qed.
Lemma number_fallback c : number_cell c → clientFieldChanged c (js_or c (JNum (of_Z 0))) = false.
Proof.
  destruct c as [| | |n| | |]; try done. cbn [number_cell]. intros Hn. unfold js_or at 1. cbn [truthy].
  destruct (num_truthy n) eqn:E; cbn [clientFieldChanged]; [by rewrite number_self |].
  unfold js_or. cbn [truthy]. rewrite E. done.
Qed.
Lemma text_reads c s : text_cell c → clientFieldChanged c (JStr s) = false → js_or c (JStr "") = JStr s.
Proof.
  intros Hc H. apply negb_false_iff, jeq_true in H. destruct c as [| | | |t| |]; try done; cbn in H; subst; try done.
  unfold js_or. cbn [truthy]. destruct (nonempty s) eqn:E; [done |]. apply nonempty_false in E. by rewrite E.
Qed.
Lemma first_public_again a b c : first_public [a; b; JStr (first_public [a; b; c])] = first_public [a; b; c].
Proof.
  cbn [first_public]. cbv zeta. destruct (nonempty (trimmed_text a) && _); [done |]. destruct (nonempty (trimmed_text b) && _); [done |].
  destruct (nonempty (trimmed_text c) && _) eqn:E; [| done].
  assert (Ht : trimmed_text (JStr (trimmed_text c)) = trimmed_text c).
  { unfold trimmed_text, nonEmptyString. destruct c as [| | | |s| |]; try done. destruct (nonempty (trim s)) eqn:En; [| done].
    cbn [text_of]. by rewrite trim_trim, En. }
  by rewrite Ht, E.
Qed.

Lemma known_region_again v : nonUnknownRegion (JStr (nonUnknownRegion v)) = nonUnknownRegion v.
Proof.
  unfold nonUnknownRegion. cbv zeta. destruct (nonempty (trimmed_text v) && _) eqn:E; [| done].
  assert (Ht : trimmed_text (JStr (trimmed_text v)) = trimmed_text v).
  { unfold trimmed_text, nonEmptyString in *. destruct v as [| | | |s| |]; try done. destruct (nonempty (trim s)) eqn:En; [| done].
    cbn [text_of]. by rewrite trim_trim, En. }
  by rewrite Ht, E.
Qed.
Definition pick_region (l : list jstr) : jstr :=
  let candidates := List.filter nonempty l in
  match List.find (λ v, negb (isCountryCodeRegion v)) candidates with
  | Some v => v
  | None => match candidates with v :: _ => v | [] => "" end
  end.
Lemma pick_region_again a b c x y :
  (x = b ∧ y = c) ∨ (x = c ∧ y = b) → pick_region [a; pick_region [a; x; y]; b] = pick_region [a; x; y].
Proof.
  intros Hxy. unfold pick_region. cbn [List.filter].
  destruct (nonempty a) eqn:Ha, (nonempty b) eqn:Hb, (nonempty c) eqn:Hc; destruct Hxy as [[-> ->]|[-> ->]];
    rewrite ?Ha, ?Hb, ?Hc; cbn [List.find];
    destruct (isCountryCodeRegion a) eqn:Ea, (isCountryCodeRegion b) eqn:Eb, (isCountryCodeRegion c) eqn:Ec; cbn [negb];
    rewrite ?Ha, ?Hb, ?Hc; cbn [List.find]; rewrite ?Ea, ?Eb, ?Ec; cbn [negb]; rewrite ?Ea, ?Eb, ?Ec; cbn [negb];
    rewrite ?Ea, ?Eb, ?Ec; done.
Qed.
Lemma pick_region_elem l : pick_region l = "" ∨ pick_region l ∈ l.
Proof.
  unfold pick_region. cbv zeta. assert (Hin : ∀ v, v ∈ List.filter nonempty l → v ∈ l).
  { intros v Hv. apply list_elem_of_In, List.filter_In in Hv as [Hv _]. by apply list_elem_of_In. }
  destruct (List.find _ _) as [v|] eqn:E.
  - apply List.find_some in E as [E _]. right. by apply Hin, list_elem_of_In.
  - destruct (List.filter nonempty l) as [|v r]; [by left |]. right. apply Hin. left.
Qed.
Lemma region_again info edge old c x y :
  text_cell c → js_or c (JStr "") = JStr (preferredRegion [info; x; y]) → (x = edge ∧ y = old) ∨ (x = old ∧ y = edge) →
  preferredRegion [info; c; edge] = preferredRegion [info; x; y].
Proof.
  intros Hc Hj Hxy.
  change (preferredRegion [info; x; y]) with (pick_region [nonUnknownRegion info; nonUnknownRegion x; nonUnknownRegion y]) in *.
  change (preferredRegion [info; c; edge]) with (pick_region [nonUnknownRegion info; nonUnknownRegion c; nonUnknownRegion edge]).
  assert (Hn : nonUnknownRegion c = pick_region [nonUnknownRegion info; nonUnknownRegion x; nonUnknownRegion y]).
  { assert (Hs : nonUnknownRegion c = nonUnknownRegion (js_or c (JStr ""))).
    { destruct c as [| | | |s| |]; try done. unfold js_or. cbn [truthy]. destruct (nonempty s) eqn:E; [done |].
      apply nonempty_false in E. by rewrite E. }
    rewrite Hs, Hj. destruct (pick_region_elem [nonUnknownRegion info; nonUnknownRegion x; nonUnknownRegion y]) as [-> |H]; [done |].
    rewrite !elem_of_cons in H. destruct H as [-> |[-> |[-> |[]%elem_of_nil]]]; apply known_region_again. }
  rewrite Hn. apply (pick_region_again _ _ (nonUnknownRegion old)). destruct Hxy as [[-> ->]|[-> ->]]; auto.
Qed.

Section Settles.
Context (req : request) (info row : fields) (Hrow : client_row row).
Abbreviation values := (basic_info_values req info (Some row)).
Abbreviation patch := (basic_info_patch req info (Some row)).
Definition settled_row : fields := spread row patch.
Lemma values_keys r : map fst (basic_info_values req info r) = AGENT_COLUMNS.
Proof. done. Qed.
Lemma columns_nodup : NoDup AGENT_COLUMNS.
Proof. apply (bool_decide_eq_true _). vm_compute. reflexivity. Qed.
Lemma settled_cell k v :
  lookup_field k values = Some v → fld settled_row k = if clientFieldChanged (fld row k) v then v else fld row k.
Proof.
  intros Hv. unfold settled_row. rewrite fld_spread by apply patch_keys.
  unfold basic_info_patch. rewrite patch_lookup by (rewrite values_keys; apply columns_nodup). rewrite Hv. cbn [fldo]. by destruct (clientFieldChanged _ _).
Qed.
Lemma settled_text k s :
  lookup_field k values = Some (JStr s) → k ∈ TEXT_COLUMNS → text_cell (fld settled_row k) ∧ clientFieldChanged (fld settled_row k) (JStr s) = false.
Proof.
  intros Hv Hk. rewrite (settled_cell _ _ Hv). destruct (clientFieldChanged (fld row k) (JStr s)) eqn:E.
  - split; [done |]. cbn. by rewrite jeq_refl.
  - split; [by apply (proj1 Hrow) | done].
Qed.
Lemma settled_number k n :
  lookup_field k values = Some (JNum n) → is_finite n = true → k ∈ NUMBER_COLUMNS →
  number_cell (fld settled_row k) ∧ clientFieldChanged (fld settled_row k) (JNum n) = false.
Proof.
  intros Hv Hn Hk. rewrite (settled_cell _ _ Hv). destruct (clientFieldChanged (fld row k) (JNum n)) eqn:E.
  - split; [done |]. cbn [clientFieldChanged]. by rewrite number_self.
  - split; [by apply (proj2 Hrow) | done].
Qed.
(** A text column keeps the reported value, or whatever it has. *)
Lemma text_settles k :
  lookup_field k values = Some (nonEmptyString (fld info k) (js_or (fld row k) (JStr ""))) → k ∈ TEXT_COLUMNS →
  clientFieldChanged (fld settled_row k) (nonEmptyString (fld info k) (js_or (fld settled_row k) (JStr ""))) = false.
Proof.
  intros Hv Hk. assert (Hold : ∃ s, js_or (fld row k) (JStr "") = JStr s).
  { generalize (proj1 Hrow k Hk). destruct (fld row k) as [| | | |s| |]; try done; intros _; [by exists "" | by exists "" |].
    unfold js_or. destruct (truthy _); eauto. }
  destruct Hold as [o Ho]. rewrite Ho in Hv. assert (Hfall : ∀ c, text_cell c → clientFieldChanged c (js_or c (JStr "")) = false) by apply text_fallback.
  unfold nonEmptyString in *. destruct (fld info k) as [| | | |s| |]; [.. | |].
  all: try (apply Hfall, (settled_text _ _ Hv Hk)).
  destruct (nonempty (trim s)); [by apply settled_text | apply Hfall, (settled_text _ _ Hv Hk)].
Qed.
Lemma number_settles k f :
  ((∀ v, f v = v) ∨ ∃ n, is_finite n = true ∧ ∀ v, f v = JNum n) →
  lookup_field k values = Some (f (js_or (fld row k) (JNum (of_Z 0)))) → k ∈ NUMBER_COLUMNS →
  clientFieldChanged (fld settled_row k) (f (js_or (fld settled_row k) (JNum (of_Z 0)))) = false.
Proof.
  intros [Hf|(n & Hn & Hf)] Hv Hk; rewrite Hf in *; [| by apply settled_number].
  assert (Hold : ∃ n, js_or (fld row k) (JNum (of_Z 0)) = JNum n ∧ is_finite n = true).
  { generalize (proj2 Hrow k Hk). destruct (fld row k) as [| | |n| | |]; try done; intros Hn; [by eexists | by eexists |].
    unfold js_or. destruct (truthy _); by eexists. }
  destruct Hold as (o & Ho & Hfin). rewrite Ho in Hv. apply number_fallback. by apply (settled_number _ _ Hv).
Qed.
Lemma ip_settles k fallback :
  lookup_field k values = Some (JStr (publicIpPatch (fld info k) fallback (js_or (fld row k) (JStr "")))) → k ∈ TEXT_COLUMNS →
  js_or (fld settled_row k) (JStr "") = JStr (publicIpPatch (fld info k) fallback (js_or (fld row k) (JStr "")))
  ∧ publicIpPatch (fld info k) fallback (js_or (fld settled_row k) (JStr "")) = publicIpPatch (fld info k) fallback (js_or (fld row k) (JStr ""))
  ∧ clientFieldChanged (fld settled_row k) (JStr (publicIpPatch (fld info k) fallback (js_or (fld row k) (JStr "")))) = false.
Proof.
  intros Hv Hk. destruct (settled_text _ _ Hv Hk) as [Hc Hu]. pose proof (text_reads _ _ Hc Hu) as Hr. split; [done | split; [| done]].
  rewrite Hr. rewrite !publicIpPatch_eq. apply first_public_again.
Qed.
End Settles.
Lemma positive_cases v : (∀ w, positiveNumber v w = w) ∨ ∃ n, is_finite n = true ∧ ∀ w, positiveNumber v w = JNum n.
Proof. destruct v as [| | |n| | |]; try (by left). unfold positiveNumber. destruct (is_finite n && _) eqn:E; [des; right; eauto | by left]. Qed.
Lemma nonnegative_cases v : (∀ w, nonNegativeNumber v w = w) ∨ ∃ n, is_finite n = true ∧ ∀ w, nonNegativeNumber v w = JNum n.
Proof. destruct v as [| | |n| | |]; try (by left). unfold nonNegativeNumber. destruct (is_finite n && _) eqn:E; [des; right; eauto | by left]. Qed.
Lemma disk_cases v : (∀ w, diskTotalFromReport v w = w) ∨ ∃ n, is_finite n = true ∧ ∀ w, diskTotalFromReport v w = JNum n.
Proof.
  unfold diskTotalFromReport. destruct (is_undef v); [by left |]. right. destruct (positive_cases v) as [H|(n & Hn & H)]; [| eauto].
  exists (of_Z 0). split; [done |]. intros _. apply H.
Qed.

Ltac each_column :=
  lazymatch goal with
  | |- Forall _ (_ :: _) => apply Forall_cons_2; [cbn [fst snd] | each_column]
  | |- _ => apply Forall_nil_2
  end.

(** C31: Once the patch an agent's basic information asks for is stored, the same
    information asks for nothing more: whatever was reported and stored, and although
    the preferred region depends on whether an address changed, the next upload neither
    writes the row nor drops the caches. *)
Theorem basic_info_settles req info row :
  client_row row →
  basic_info_patch req info (Some (spread row (basic_info_patch req info (Some row)))) = [].
Proof.
  intros Hrow. change (basic_info_patch req info (Some (settled_row req info row)) = []). unfold basic_info_patch at 1. apply patch_nil.
  destruct (ip_settles req info row Hrow "ipv4" (fallback_ipv4 req)) as (H4 & H4' & H4c); [done | list_elem |].
  destruct (ip_settles req info row Hrow "ipv6" (fallback_ipv6 req)) as (H6 & H6' & H6c); [done | list_elem |].
  unfold basic_info_values. cbv zeta. cbn [fldo]. rewrite H4', H6', H4, H6. unfold strict_eq at 1 2. rewrite !jeq_refl. cbn [negb orb].
  assert (Hregion : ∃ x y, lookup_field "region" (basic_info_values req info (Some row)) = Some (JStr (preferredRegion [fld info "region"; x; y]))
     ∧ (x = JStr (requestRegion req) ∧ y = fld row "region" ∨ x = fld row "region" ∧ y = JStr (requestRegion req))).
  { cbn [lookup_field basic_info_values]. cbv zeta. destruct (_ || _); eexists _, _; (split; [reflexivity |]); auto. }
  destruct Hregion as (x & y & Hv & Hxy). destruct (settled_text req info row Hrow _ _ Hv ltac:(list_elem)) as [Hc Hu].
  rewrite (region_again _ _ _ _ _ _ Hc (text_reads _ _ Hc Hu) Hxy).
  each_column; first
    [ exact H4c | exact H6c | exact Hu
    | refine (text_settles req info row Hrow _ _ _); [reflexivity | list_elem] | idtac ].
  - refine (number_settles req info row Hrow _ (positiveNumber _) (positive_cases _) _ _); [reflexivity | list_elem].
  - refine (number_settles req info row Hrow _ (positiveNumber _) (positive_cases _) _ _); [reflexivity | list_elem].
  - refine (number_settles req info row Hrow _ (nonNegativeNumber _) (nonnegative_cases _) _ _); [reflexivity | list_elem].
  - refine (number_settles req info row Hrow _ (diskTotalFromReport _) (disk_cases _) _ _); [reflexivity | list_elem].
Qed.

(** ** Bodies *)

Definition received (chunks : list (option (list Z))) : list Z := concat (omap id chunks).
Lemma read_chunks_exec e maxBytes chunks error :
  ∀ total bytes n s, total ≤ maxBytes →
  r_value (exec e n s (read_chunks maxBytes total bytes chunks error))
  = if maxBytes <? total + Z.of_nat (length (received chunks)) then Ok None
    else match error with Some x => Err x | None => Ok (Some (bytes ++ received chunks)) end.
Proof.
  induction chunks as [|[chunk|] rest IH]; intros total bytes n s Ht; cbn [read_chunks].
  - cbn [exec received concat omap list_omap length]. rewrite Z.add_0_r, app_nil_r. destruct (maxBytes <? total) eqn:E; [zlia |]. by destruct error.
  - cbv zeta. cbn [exec]. unfold received in *. cbn [omap list_omap id concat]. rewrite length_app, Nat2Z.inj_add, Z.add_assoc.
    destruct (maxBytes <? total + Z.of_nat (length chunk)) eqn:E.
    + cbn [exec stop r_value]. zify_bool. destruct (maxBytes <? _) eqn:E2; [done | zlia].
    + zify_bool. rewrite IH by lia. by rewrite <- (assoc_L (++)).
  - cbn [exec]. unfold received in *. cbn [omap list_omap id]. by apply IH.
Qed.

(** Reading a body depends on its bytes only, not on how they arrive: beyond the
    limit, declared or received, it is refused with status 413 whatever follows, even a
    failing stream; within the limit it is the parsed text of all the chunks, or status
    400, and no more than the limit is ever kept. *)
Theorem readJsonBodyWithLimit_spec req maxBytes e n s :
  0 ≤ maxBytes →
  r_value (exec e n s (readJsonBodyWithLimit req maxBytes))
  = let declared := to_num (js_or (match rq_length req with Some h => JStr h | None => JUndef end) (JNum (of_Z 0))) in
    if is_finite declared && num_lt (of_Z maxBytes) declared then Ok (Err (json_error 413 "请求体过大"))
    else match rq_body req with
         | None => Ok (Err (json_error 400 "请求体不能为空"))
         | Some (chunks, error) =>
           if maxBytes <? Z.of_nat (length (received chunks)) then Ok (Err (json_error 413 "请求体过大"))
           else match error with
                | Some x => Err x
                | None => Ok (match json_parse (utf8_decode (received chunks)) with
                              | Some body => Ok body
                              | None => Err (json_error 400 "请求格式错误")
                              end)
                end
         end.
Proof.
  intros Hm. unfold readJsonBodyWithLimit. cbv zeta. destruct (_ && _); [done |].
  destruct (rq_body req) as [[chunks error]|]; [| done]. rewrite exec_bind, read_chunks_exec by done. rewrite Z.add_0_l.
  destruct (maxBytes <? _); [done |]. destruct error as [x|]; [done |]. cbn [Datatypes.app]. by destruct (json_parse _).
Qed.

(** ** Policies *)

Lemma policy_seconds_range URL stored k lo hi pub dflt :
  lookup_field k SETTING_SCHEMA = Some (int dflt pub lo hi) → 60 ≤ lo → hi ≤ 3600 →
  policy_range (policy_seconds (buildAdminSettings URL stored) k).
Proof.
  intros Hk Hlo Hhi. destruct (admin_setting URL stored k _ Hk) as (v & Hv & [(z & -> & Hz) _]). cbn in Hz.
  unfold policy_seconds, setting_value. rewrite Hv. exists z. split; [| lia].
  assert (Hn : js_or (JStr (dec_Z z)) (JNum (of_Z 120)) = JStr (dec_Z z)).
  { unfold js_or. cbn [truthy]. destruct (nonempty (dec_Z z)) eqn:E; [done |]. apply nonempty_false in E.
    assert (Hs : str_num (dec_Z z) = of_Z 0) by (rewrite E; reflexivity). rewrite str_num_dec_Z in Hs by (unfold max_safe; lia).
    injection Hs as Hs. lia. }
  rewrite Hn. cbn [to_num]. rewrite str_num_dec_Z by (unfold max_safe; lia). rewrite num_max_Z, num_min_Z. f_equal. lia.
Qed.
Lemma floor_range n : policy_range n → policy_range (num_floor n).
Proof. intros (z & -> & Hz). exists z. split; [| done]. cbn. by rewrite Qfloor_Z. Qed.
Definition POLICY_SECONDS : list jstr := ["sample_interval_sec"; "report_interval_sec"; "ping_interval_sec"; "viewer_ttl_sec"; "policy_ttl_sec"].
(** A policy for the node [u]: every period in range, and ping tasks assigned to [u]
    at the period of the policy. *)
Definition policy_for (u : jsval) (content : jsval) : Prop :=
  ∃ fs tasks, content = JObj fs
    ∧ Forall (λ k, ∃ n, fld fs k = JNum n ∧ policy_range n) POLICY_SECONDS
    ∧ fld fs "ping_tasks" = JArr (map task_json tasks)
    ∧ Forall (λ t, task_for u t = true ∧ fld fs "ping_interval_sec" = JNum (pt_interval_sec t)) tasks.

Section Policy.
Context (sha256 : list Z → list Z) (URL : jstr → option url) (env : bindings).
Abbreviation wpt := (wp (λ _ : agent_state, True)).
Lemma wp_any {A} (p : agent A) h b (Q : post call ans task A) : (∀ h b r, Q h b r) → wpt p h b Q.
Proof.
  intros HQ. revert h b. induction p as [a|x|c k IH|k IH|u k IH|k IH|hd k IH|t k IH]; intros h b; cbn [wp]; auto.
Qed.
Lemma fallback_policy_wp u h b : wpt (fallbackAgentPolicy sha256 URL u) h b (λ _ _ r, match r with Ok p => policy_for u p | Err _ => True end).
Proof.
  unfold fallbackAgentPolicy. apply wp_bind. apply wp_any. intros h1 b1 [stored|e]; [| done]. cbv zeta.
  pose proof (λ k lo hi pub d, policy_seconds_range URL stored k lo hi pub d) as Hr.
  set (settings := buildAdminSettings URL stored) in *.
  assert (R1 : policy_range (policy_seconds settings "live_poll_idle_interval_sec")) by (eapply Hr; [reflexivity | lia | lia]).
  assert (R2 : policy_range (policy_seconds settings "live_poll_active_max_duration_sec")) by (eapply Hr; [reflexivity | lia | lia]).
  assert (R3 : policy_range (policy_seconds settings "ping_record_persist_interval_sec")) by (eapply Hr; [reflexivity | lia | lia]).
  clearbody settings. apply floor_range in R1, R2, R3. revert R1 R2 R3.
  generalize (num_floor (policy_seconds settings "live_poll_idle_interval_sec")) (num_floor (policy_seconds settings "live_poll_active_max_duration_sec"))
    (num_floor (policy_seconds settings "ping_record_persist_interval_sec")). intros report viewer ping R1 R2 R3.
  apply wp_bind. eapply (wp_mono _ _ _ _ _ _ _ _ (λ _ _ r, match r with
    | Ok tasks => Forall (λ t, task_for u t = true ∧ pt_interval_sec t = ping) tasks | Err _ => True end)).
  2:{ destruct (truthy u); [| apply Forall_nil_2]. apply wp_bind, wp_any. intros h2 b2 [tasks|e]; [| done]. cbn [wp].
      unfold agentPingTasksForClient, withUnifiedPingInterval. apply Forall_forall. intros t (t0 & -> & Ht)%list_elem_of_fmap.
      apply list_elem_of_In, List.filter_In in Ht as [_ Ht]. by split. }
  intros h2 b2 [tasks|e] Htasks; [| done].
  apply wp_bind, wp_any. intros h3 b3 [probes|e]; [| done]. apply wp_bind, wp_any. intros h4 b4 [client|e]; [| done].
  apply wp_bind, wp_any. intros h5 b5 [version|e]; [| done]. cbn [wp bind clock]. intros now.
  eexists _, tasks. split; [reflexivity |]. split; [| split; [reflexivity |]].
  - repeat apply Forall_cons_2; try apply Forall_nil_2; (eexists; split; [reflexivity |]); first [done | by exists 120].
  - eapply Forall_impl; [exact Htasks |]. intros t [H1 ->]. by split.
Qed.
End Policy.

(** Once an agent is authenticated, asking for its policy always succeeds, whatever
    fails behind it: the answer has status 200, its periods of reporting and pinging are
    whole numbers of seconds from a minute to an hour whatever the settings hold, and
    its ping tasks are tasks of this node at the policy's period. *)
Theorem policy_always_answers sha256 URL env id e n s :
  ∃ content, r_value (exec e n s (policy sha256 URL env id)) = Ok (json_ok content) ∧ policy_for (clientUuid id) content.
Proof.
  destruct (wp_sound _ _ _ _ (λ _, True) (policy sha256 URL env id) [] []
    (λ _ _ r, ∃ content, r = Ok (json_ok content) ∧ policy_for (clientUuid id) content) e n s I (λ _ _ _, I)) as [H _]; [| exact H].
  assert (Ha : ∀ h b, wp (λ _, True) (do! need_database env in let! p := fallbackAgentPolicy sha256 URL (clientUuid id) in Ret (json_ok p)) h b
    (λ _ _ r, match r with Ok x => ∃ content, x = json_ok content ∧ policy_for (clientUuid id) content | Err _ => True end)).
  { intros h b. apply wp_bind, wp_any. intros h1 b1 [[]|x]; [| done]. apply wp_bind. eapply wp_mono; [| apply fallback_policy_wp].
    intros h2 b2 [p|x] Hp; [| done]. by exists p. }
  unfold policy. cbv zeta. apply wp_catch. eapply wp_mono; [| apply Ha]. cbv beta. intros h1 b1 [x|x]; [intros (c & -> & Hc); by exists c | intros _].
  apply wp_catch. eapply wp_mono; [| apply Ha]. cbv beta. intros h2 b2 [y|y]; [intros (c & -> & Hc); by exists c | intros _].
  cbn [wp bind clock]. intros now. eexists. split; [reflexivity |]. eexists _, []. split; [reflexivity |]. split; [| split; [reflexivity | apply Forall_nil_2]].
  repeat apply Forall_cons_2; try apply Forall_nil_2; (eexists; split; [reflexivity |]); by exists 120.
Qed.

(** ** Examples *)

Definition sample_sha (m : list Z) : list Z := take 32 (map (λ x, x mod 256) m ++ replicate 32 0).
Definition sample_token : jstr := repeat_str 8 "01234567".
Definition sample_bindings : bindings := {| LIVE_DATA := true; RATE_LIMIT := false; db_error := None |}.
Definition sample_row : fields :=
  [("uuid", JStr "node-1"); ("token_hash", JStr "h"); ("name", JStr "Node"); ("cpu_cores", JNum (of_Z 2)); ("ipv4", JStr "10.0.0.1");
   ("region", JStr "US"); ("hidden", JBool false)].
Definition sample_info : fields :=
  [("cpu_name", JStr " EPYC "); ("cpu_cores", JNum (of_Z 4)); ("ipv4", JStr "1.1.1.1"); ("region", JStr "Tokyo"); ("disk_total", JNull)].
Definition sample_bytes : list Z := utf8 (json (JObj sample_info)).
Definition sample_request : request :=
  {| rq_authorization := Some ("Bearer " +++ sample_token); rq_ip := Some "8.8.8.8"; rq_length := None; rq_ip_country := Some "JP"; rq_cf := None;
     rq_body := Some ([Some (take 20 sample_bytes); None; Some (drop 20 sample_bytes)], None); rq_format := None |}.
Definition sample_answer (n : nat) (c : call) : result jstr (ans c) :=
  match c with
  | LiveFetch _ _ | RateFetch _ _ | LiveUpgrade _ | LiveSnapshotRead _ =>
    Ok {| rp_status := 200; rp_json := Some (JObj [("client", JObj sample_row); ("success", JBool true); ("persisted", JBool true)]) |}
  | GetClientByToken _ | GetClientIdentityByToken _ | GetClient _ => Ok None
  | MarkClientTokenUsed _ _ | UpdateClient _ _ | HasAdminSession => Ok true
  | ListPingTasks => Ok []
  | GetSettingsByKeys _ => Ok []
  | ListAgentWebsiteProbeTasks _ _ _ => Ok []
  | InsertAuditLog _ _ _ _ | DispatchNotification _ _ | RecordHealth _ _ _ => Ok tt
  end.
Definition sample_world : Effects.env call ans agent_state :=
  Effects.Build_env call ans agent_state sample_answer (λ n, 1700000000000 + Z.of_nat n) (λ _ st, st).
Definition no_urls (s : jstr) : option url := None.
Definition sample_run (r : route) := exec sample_world 0 fresh_state (handle sample_sha no_urls sample_bindings sample_request r).
Definition updates_node (u : jstr) (c : call) : bool :=
  match c with UpdateClient (JStr v) data => jeq v u && (0 <? length data)%nat | _ => false end.

Lemma agent_request_confined_witness :
  ∃ i ev, r_log (sample_run UploadBasicInfo) !! i = Some ev ∧ updates_node "node-1" (projT1 ev) = true
    ∧ call_justified sample_sha sample_bindings (trim (bearerToken sample_request)) (take i (r_log (sample_run UploadBasicInfo))) (projT1 ev).
Proof.
  assert (H : option_map (λ ev, updates_node "node-1" (projT1 ev)) (r_log (sample_run UploadBasicInfo) !! 1%nat) = Some true)
    by (vm_compute; reflexivity).
  destruct (r_log (sample_run UploadBasicInfo) !! 1%nat) as [ev|] eqn:E; [| discriminate H]. exists 1%nat, ev. split; [exact E |].
  split; [by injection H |].
  apply (proj1 (agent_request_confined sample_sha no_urls sample_bindings sample_request UploadBasicInfo sample_world 0 fresh_state)
           _ _ (drop 2 (r_log (sample_run UploadBasicInfo)))). symmetry. by apply take_drop_middle.
Defined.

Definition sample_program : agent unit := let! _r := handle sample_sha no_urls sample_bindings sample_request PingTasks in Ret tt.
Lemma agent_caches_bounded_witness :
  length (agentIdentityAuthCache (r_state (exec sample_world 0 fresh_state sample_program))) = 1%nat
  ∧ bounded (r_state (exec sample_world 0 fresh_state sample_program)).
Proof.
  split; [vm_compute; reflexivity |].
  destruct (pool_exec _ _ _ _ (run_task sample_sha no_urls) (agent_program sample_sha no_urls) sample_program sample_world 0 fresh_state [] (λ _ _, eq_refl))
    as [l H].
  apply (agent_caches_bounded sample_sha no_urls _ l). eapply rtc_l; [| exact H]. constructor. left. by eexists _, _, _.
Defined.

Lemma basic_info_settles_witness :
  length (basic_info_patch sample_request sample_info (Some sample_row)) = 4%nat
  ∧ basic_info_patch sample_request sample_info
      (Some (spread sample_row (basic_info_patch sample_request sample_info (Some sample_row)))) = [].
Proof.
  split; [vm_compute; reflexivity |]. apply basic_info_settles. split.
  - apply Forall_forall. repeat apply Forall_cons_2; first [exact I | apply Forall_nil_2].
  - apply Forall_forall. repeat apply Forall_cons_2; first [exact I | reflexivity | apply Forall_nil_2].
Defined.

Lemma readJsonBodyWithLimit_spec_witness :
  r_value (exec sample_world 0 fresh_state (readJsonBodyWithLimit sample_request 512)) = Ok (Ok (JObj sample_info))
  ∧ r_value (exec sample_world 0 fresh_state (readJsonBodyWithLimit sample_request 64)) = Ok (Err (json_error 413 "请求体过大")).
Proof. split; (rewrite readJsonBodyWithLimit_spec by lia); vm_compute; reflexivity. Defined.

(** A refusal outlives the invalidation of the node the token is given to: the entry
    of a refused token names no node, and the token passed along is not used. *)
Lemma refusal_survives key expiresAt uuid st :
  (key, (None, expiresAt)) ∈ agentAuthCache st →
  (key, (None, expiresAt)) ∈ agentAuthCache (invalidateAgentClientAuthCache (Some (JStr uuid)) st).
Proof. intros H. cbn. apply list_elem_of_In, List.filter_In. split; [by apply list_elem_of_In | done]. Qed.
