(* ===== verification/Outbox.v ===== *)
(** * Saved changes of nodes reach the live object: [utils/client-sync.ts]

    A transaction that changes a node's row queues the node with a fresh revision; a
    worker lists queued changes, posts them to the live object and acknowledges what it
    applied.  Workers interleave with transactions and with whatever else the live
    object does, and may lose any answer.  The queue is that of
    supabase/migrations/4_rpc_api.sql, the live object that of [LiveSync]. *)

From S2P Require Import Prelude JsStr JsNum JsVal JsList Client LiveAuth LiveAdmin LiveSync Effects AgentHttp.
#[local] Open Scope Z_scope.

(** ** The queue *)

(** @supabase/migrations/4_rpc_api.sql:6006-6015 client_sync_queue -- with the rows of
    [clients] by their primary key, and the last value of the revision sequence *)
Record database := { rows : gmap jstr fields; queue : gmap jstr Z; sequence : Z }.
(** @supabase/migrations/4_rpc_api.sql:6031-6041 enqueue_client_sync -- the default of the
    inserted row is drawn from the sequence before the conflict is found *)
Definition enqueue_client_sync (uuid : jstr) (db : database) : database :=
  let revision := match queue db !! uuid with None => sequence db + 1 | Some _ => sequence db + 2 end in
  {| rows := rows db; queue := <[uuid := revision]> (queue db); sequence := revision |}.
(** @supabase/migrations/4_rpc_api.sql:6052-6062 queue_client_control_change (columns) *)
Definition control_columns : list jstr :=
  ["token"; "token_hash"; "token_rotated_at"; "name"; "hidden"; "sort_order"; "remark"; "public_remark"; "group"; "tags"; "ipv4"; "ipv6";
   "region"; "price"; "billing_cycle"; "auto_renewal"; "currency"; "expired_at"; "traffic_limit"; "traffic_limit_type";
   "traffic_reset_day"].
Definition control_changed (old new : fields) : bool := existsb (λ k, negb (strict_eq (fld new k) (fld old k))) control_columns.
(** A statement on one row, with the trigger it fires; a transaction is a list of
    them. *)
Inductive statement :=
| InsertRow (uuid : jstr) (row : fields)
| UpdateRow (uuid : jstr) (row : fields)
| DeleteRow (uuid : jstr)
| EnqueueRow (uuid : jstr).
Definition statement_uuid (s : statement) : jstr :=
  match s with InsertRow u _ | UpdateRow u _ | DeleteRow u | EnqueueRow u => u end.
Definition with_rows (r : gmap jstr fields) (db : database) : database := {| rows := r; queue := queue db; sequence := sequence db |}.
(** @supabase/migrations/4_rpc_api.sql:6045-6073 queue_client_control_change -- [None]: the
    transaction fails and changes nothing *)
Definition execute (s : statement) (db : database) : option database :=
  match s with
  | InsertRow u row =>
    match rows db !! u with Some _ => None | None => Some (enqueue_client_sync u (with_rows (<[u := row]> (rows db)) db)) end
  | UpdateRow u row =>
    Some (match rows db !! u with
          | Some old => let db := with_rows (<[u := row]> (rows db)) db in if control_changed old row then enqueue_client_sync u db else db
          | None => db
          end)
  | DeleteRow u =>
    Some (match rows db !! u with Some _ => enqueue_client_sync u (with_rows (delete u (rows db)) db) | None => db end)
  | EnqueueRow u => Some (enqueue_client_sync u db)
  end.
Fixpoint execute_all (l : list statement) (db : database) : option database :=
  match l with
  | [] => Some db
  | s :: l => match execute s db with Some db => execute_all l db | None => None end
  end.
Definition transaction (l : list statement) (db : database) : database := default db (execute_all l db).
(** [trim(uuid)] of SQL takes off spaces only. *)
Definition sql_blank (u : jstr) : bool := forallb (λ c, (c =? 32)%N) (units u).
(** @supabase/migrations/4_rpc_api.sql:447-494 cfm_delete_clients -- the nodes and the queue;
    [uuids] without repetitions, in order *)
Definition cfm_delete_clients (uuids : list jstr) : list statement :=
  let ids := List.filter (λ u, negb (sql_blank u)) uuids in map DeleteRow ids ++ map EnqueueRow ids.
(** @supabase/migrations/4_rpc_api.sql:354-368 cfm_rotate_client_token *)
Definition cfm_rotate_client_token (now : jstr) (uuid token token_hash : jstr) (row : fields) : list statement :=
  [UpdateRow uuid (spread row [("token", JStr token); ("token_hash", JStr token_hash); ("token_last_used_at", JNull);
                               ("token_last_used_ip", JStr ""); ("token_rotated_at", JStr now); ("updated_at", JStr now)])].

Section Pending.
Context (sha256 : list Z → list Z).
(** @supabase/migrations/4_rpc_api.sql:6086-6089 cfm_pending_client_syncs (token_hash) *)
Definition row_hash (row : fields) : jstr :=
  let hash := text_of (fld row "token_hash") in
  let token := text_of (fld row "token") in
  if nonempty hash then hash else if nonempty token then hashAgentToken sha256 token else "".
(** @worker/src/db/types.ts:51-56 ClientSyncChange *)
Record pending := { pd_uuid : jstr; pd_revision : jstr; pd_client : jsval }.
Definition pending_fields (p : pending) : fields :=
  [("uuid", JStr (pd_uuid p)); ("revision", JStr (pd_revision p)); ("client", pd_client p)].
(** @worker/src/db/supabase-api/client.ts:82-90 readRpcBoolean *)
Definition readRpcBoolean (value : jsval) : bool :=
  match value with
  | JBool b => b
  | JNum n => negb (num_eqb n (of_Z 0))
  | JStr s => let normalized := lower (trim s) in jeq normalized "true" || jeq normalized "1"
  | _ => false
  end.
(** @worker/src/db/supabase-api/client.ts:92-100 normalizeClientBooleans *)
Definition normalizeClientBooleans (client : jsval) : jsval :=
  match client with
  | JObj record =>
    let flag k fs := if has_own record k then set_field k (JBool (readRpcBoolean (fld record k))) fs else fs in
    JObj (flag "auto_renewal" (flag "hidden" record))
  | _ => client
  end.
(** @supabase/migrations/4_rpc_api.sql:6081-6090 cfm_pending_client_syncs (an entry) *)
Definition pending_entry (db : database) (e : jstr * Z) : pending :=
  {| pd_uuid := e.1; pd_revision := dec_Z e.2;
     pd_client := match rows db !! e.1 with
                  | Some row => JObj (spread (spread row [("uuid", JStr e.1)]) [("token", JStr ""); ("token_hash", JStr (row_hash row))])
                  | None => JNull
                  end |}.
Definition by_revision (a b : jstr * Z) : Z := a.2 - b.2.
(** @supabase/migrations/4_rpc_api.sql:6091-6098 cfm_pending_client_syncs (the entries) *)
Definition pending_rows (uuids : option (list jstr)) (limit : Z) (db : database) : list (jstr * Z) :=
  take (Z.to_nat (Z.min (Z.max limit 1) 200))
    (stable_sort by_revision (List.filter (λ e, match uuids with Some l => mem e.1 l | None => true end) (map_to_list (queue db)))).
(** @worker/src/db/supabase-api/client.ts:173-182 listSupabasePendingClientSyncs *)
Definition listPendingClientSyncs (uuids : option (list jstr)) (limit : Z) (db : database) : list pending :=
  map (λ e, let p := pending_entry db e in {| pd_uuid := pd_uuid p; pd_revision := pd_revision p; pd_client := normalizeClientBooleans (pd_client p) |})
      (pending_rows uuids limit db).
End Pending.

(** @supabase/migrations/4_rpc_api.sql:6142-6147 cfm_acknowledge_client_syncs (one entry) *)
Definition acknowledge (n_db : Z * database) (change : jstr * jstr) : Z * database :=
  let '(n, db) := n_db in
  match queue db !! change.1 with
  | Some r => if jeq (dec_Z r) change.2 then (n + 1, {| rows := rows db; queue := delete change.1 (queue db); sequence := sequence db |}) else n_db
  | None => n_db
  end.
Definition decimal (s : jstr) : bool :=
  match units s with d :: r => is_digit d && negb (d =? 48)%N && forallb is_digit r | [] => false end.
(** @supabase/migrations/4_rpc_api.sql:6119-6151 cfm_acknowledge_client_syncs -- [None]: it
    raises *)
Definition acknowledgeClientSyncs (changes : list (jstr * jstr)) (db : database) : option (Z * database) :=
  if (200 <? length changes)%nat || existsb (λ c, negb (nonempty c.1) || negb (decimal c.2)) changes then None
  else Some (fold_left acknowledge changes (0, db)).

(** ** A worker *)

Inductive sync_call :=
| ListPending (uuids : option (list jstr)) (limit : Z)
| PostChanges (changes : list pending)
| Acknowledge (changes : list (jstr * jstr)).
Definition sync_ans (c : sync_call) : Type :=
  match c with ListPending _ _ => list pending | PostChanges _ => reply | Acknowledge _ => Z end.
Abbreviation sync := (prog sync_call sync_ans unit Empty_set).
(** @worker/src/utils/client-sync.ts:15-15 synchronizePendingClientChanges (options) *)
Record sync_options := { so_uuids : option (list jstr); so_limit : option Z; so_drain : bool }.
(** @worker/src/utils/client-sync.ts:4-9 ClientSynchronizationError *)
Definition ClientSynchronizationError : jstr := "Client changes are saved; durable synchronization is pending".
(** @worker/src/utils/client-sync.ts:19-19 synchronizePendingClientChanges (limit) *)
Definition sync_limit (o : sync_options) : Z :=
  Z.min 200 (match so_limit o, so_uuids o with
             | Some l, _ => l
             | None, Some u => Z.of_nat (length u)
             | None, None => if so_drain o then 200 else 10
             end).
(** [item.uuid !== pending[index].uuid || ...] of the items in turn, which throws on null *)
Fixpoint some_differ (applied : list jsval) (changes : list pending) : result jstr bool :=
  match applied, changes with
  | item :: applied, p :: changes =>
    match item with
    | JUndef | JNull => Err "TypeError"
    | _ =>
      let item := as_object item in
      if strict_eq (fld item "uuid") (JStr (pd_uuid p)) && strict_eq (fld item "revision") (JStr (pd_revision p)) then some_differ applied changes
      else Ok true
    end
  | _, _ => Ok false
  end.
(** @worker/src/utils/client-sync.ts:27-28 synchronizePendingClientChanges (the answer) *)
Definition refused_batch (r : reply) (body : jsval) (changes : list pending) : result jstr bool :=
  if negb (rp_ok r) || negb (is_bool (fld (as_object body) "success") true) then Ok true
  else match fld (as_object body) "applied" with
       | JArr applied => if negb (length applied =? length changes)%nat then Ok true else some_differ applied changes
       | _ => Ok true
       end.
(** @worker/src/utils/client-sync.ts:20-40 synchronizePendingClientChanges (batches) *)
Fixpoint sync_batches (o : sync_options) (batches : nat) (synchronized : Z) : sync Z :=
  match batches with
  | S batches =>
    let! changes := act (ListPending (so_uuids o) (sync_limit o)) in
    if (length changes =? 0)%nat then Ret synchronized
    else
      let! response := act (PostChanges changes) in
      Yield
        (match refused_batch response (default JNull (rp_json response)) changes with
         | Err e => Throw e
         | Ok true => Throw ClientSynchronizationError
         | Ok false =>
           let! acknowledged := act (Acknowledge (map (λ p, (pd_uuid p, pd_revision p)) changes)) in
           if negb (acknowledged =? Z.of_nat (length changes)) then Throw ClientSynchronizationError
           else sync_batches o batches (synchronized + Z.of_nat (length changes))
         end)
  | O =>
    if match so_uuids o with Some _ => true | None => so_drain o end then
      let! rest := act (ListPending (so_uuids o) 1) in
      if (0 <? length rest)%nat then Throw ClientSynchronizationError else Ret synchronized
    else Ret synchronized
  end.
(** @worker/src/utils/client-sync.ts:12-41 synchronizePendingClientChanges *)
Definition synchronizePendingClientChanges (live : bool) (o : sync_options) : sync Z :=
  if negb live then Throw missing_binding else sync_batches o (if so_drain o then 10 else 1) 0.

(** ** The system *)

Section System.
Context (sha256 : list Z → list Z) (date_parse : jstr → option Z).

(** A worker between two of its calls, or waiting while the live object applies the
    changes it posted one by one, with those applied and those left. *)
Inductive thread :=
| Running (p : sync Z)
| Posting (done todo : list pending) (k : result jstr reply → sync Z).
Record system := { s_db : database; s_live : live_state; s_threads : list thread }.
Definition applied_reply (l : list pending) : reply :=
  {| rp_status := 200;
     rp_json := Some (JObj [("success", JBool true);
       ("applied", JArr (map (λ p, JObj [("uuid", JStr (pd_uuid p)); ("revision", JStr (pd_revision p))]) l))]) |}.
Definition refusal (status : Z) : reply := {| rp_status := status; rp_json := None |}.
(** What else happens to the live object: agents' credentials and metadata, reports,
    and whatever leaves credentials and records of changes as they are. *)
Inductive live_other (now : Z) (st : live_state) : live_state → Prop :=
| other_auth body : live_other now st (LiveSync.step date_parse now (Agent_auth body) st)
| other_meta meta : live_other now st (LiveSync.step date_parse now (Meta meta) st)
| other_rest st' : controls (auth st') = controls (auth st) → syncs st' = syncs st → live_other now st st'.

(** One step of a worker, with the database and the live object. *)
Inductive work : database → live_state → thread → database → live_state → list thread → Prop :=
| work_yield db st k : work db st (Running (Yield k)) db st [Running k]
| work_local db st u k : work db st (Running (Local u k)) db st [Running (k tt)]
| work_clock db st t k : work db st (Running (Clock k)) db st [Running (k t)]
| work_header db st h k : work db st (Running (Header h k)) db st [Running k]
| work_list db st u l k : work db st (Running (Act (ListPending u l) k)) db st [Running (k (Ok (listPendingClientSyncs sha256 u l db)))]
| work_post db st l k : l ≠ [] → (length l ≤ 200)%nat → work db st (Running (Act (PostChanges l) k)) db st [Posting [] l k]
| work_refuse db st l k : l = [] ∨ (200 < length l)%nat → work db st (Running (Act (PostChanges l) k)) db st [Running (k (Ok (refusal 400)))]
| work_ack db st l k n db' : acknowledgeClientSyncs l db = Some (n, db') →
    work db st (Running (Act (Acknowledge l) k)) db' st [Running (k (Ok n))]
| work_ack_lost db st l k n db' e : acknowledgeClientSyncs l db = Some (n, db') →
    work db st (Running (Act (Acknowledge l) k)) db' st [Running (k (Err e))]
| work_fail db st c k e : work db st (Running (Act c k)) db st [Running (k (Err e))]
| work_apply db st now d p t k st' b : applyClientSynchronization date_parse now (pending_fields p) st = (200, b, st') →
    work db st (Posting d (p :: t) k) db st' [Posting (d ++ [p]) t k]
| work_reject db st now d p t k status st' b : applyClientSynchronization date_parse now (pending_fields p) st = (status, b, st') → status ≠ 200 →
    work db st (Posting d (p :: t) k) db st' [Running (k (Ok (refusal status)))]
| work_answer db st d k : work db st (Posting d [] k) db st [Running (k (Ok (applied_reply d)))]
| work_answer_lost db st d t k e : work db st (Posting d t k) db st [Running (k (Err e)); Posting d t (λ _, Throw e)]
| work_interrupt db st now n d p t k e :
    work db st (Posting d (p :: t) k) db (LiveSync.step date_parse now (Interrupt n (pending_fields p)) st) [Running (k (Err e))].

(** The uuid of a node has no white space around it. *)
Definition tidy (u : jstr) : Prop := trim u = u.
Inductive sys_step : system → system → Prop :=
| sys_start s o : sys_step s {| s_db := s_db s; s_live := s_live s; s_threads := Running (synchronizePendingClientChanges true o) :: s_threads s |}
| sys_work s db st l1 t l2 new : s_threads s = l1 ++ t :: l2 → work (s_db s) (s_live s) t db st new →
    sys_step s {| s_db := db; s_live := st; s_threads := l1 ++ new ++ l2 |}
| sys_transaction s l : Forall (λ x, tidy (statement_uuid x)) l →
    sys_step s {| s_db := transaction l (s_db s); s_live := s_live s; s_threads := s_threads s |}
| sys_live s now st : live_other now (s_live s) st → sys_step s {| s_db := s_db s; s_live := st; s_threads := s_threads s |}.
(** The migration queues the nodes there are; the live object knows of no change. *)
Definition initial (s : system) : Prop :=
  s_threads s = [] ∧ syncs (s_live s) = ∅ ∧ revisions_ok (s_live s) ∧ 0 ≤ sequence (s_db s)
  ∧ (∀ u r, queue (s_db s) !! u = Some r → 0 < r ≤ sequence (s_db s) ∧ tidy u)
  ∧ ∀ u, is_Some (rows (s_db s) !! u) → is_Some (queue (s_db s) !! u).
Definition reachable (s : system) : Prop := ∃ s0, initial s0 ∧ rtc sys_step s0 s.

(** ** What holds of every reachable system *)

(** What the database says of a node's credentials: their hash, or that it is gone. *)
Definition hash_now (db : database) (u : jstr) : option jstr := match rows db !! u with Some row => Some (trim (row_hash sha256 row)) | None => None end.
Definition change_of (u : jstr) (h : option jstr) : change :=
  {| ch_uuid := u; ch_revision := 0; ch_client := match h with Some h => Some [("uuid", JStr u); ("token_hash", JStr h)] | None => None end |}.
Definition secured (u : jstr) (h : option jstr) (a : auth_store) : Prop := settled (change_of u h) a ∧ h ≠ Some "".
(** Which credentials each revision of a node stands for. *)
Abbreviation history := (gmap (jstr * Z) (option jstr)).
Definition faithful (log : history) (p : pending) : Prop :=
  ∃ r h, pd_revision p = dec_Z r ∧ 0 < r ∧ log !! (pd_uuid p, r) = Some h
    ∧ ∀ c, read_change (pending_fields p) = Some c → ch_uuid c = pd_uuid p ∧ ch_revision c = r ∧ option_map s_hash (ch_client c) = h.
(** The live object has applied this revision of the node, or a later one arrived. *)
Definition landed (st : live_state) (p : pending) : Prop :=
  ∃ r r' b, pd_revision p = dec_Z r ∧ 0 < r ∧ syncs st !! pd_uuid p = Some (r', b) ∧ (r < r' ∨ r = r' ∧ b = true).

(** A worker posts only what it listed and acknowledges only what was applied,
    whatever it is answered. *)
Fixpoint careful (listed posted : list pending) (p : sync Z) : Prop :=
  match p with
  | Ret _ | Throw _ => True
  | Act c k =>
    match c return (result jstr (sync_ans c) → sync Z) → Prop with
    | ListPending _ _ => λ k, (∀ l, careful (l ++ listed) posted (k (Ok l))) ∧ ∀ e, careful listed posted (k (Err e))
    | PostChanges l => λ k,
        (∀ p, p ∈ l → p ∈ listed)
        ∧ (∀ r, careful listed (if rp_ok r then l ++ posted else posted) (k (Ok r))) ∧ ∀ e, careful listed posted (k (Err e))
    | Acknowledge l => λ k, (∀ c, c ∈ l → ∃ p, p ∈ posted ∧ c = (pd_uuid p, pd_revision p)) ∧ ∀ x, careful listed posted (k x)
    end k
  | Yield k => careful listed posted k
  | Local u k => ∀ s, careful listed posted (k s)
  | Clock k => ∀ t, careful listed posted (k t)
  | Header _ k => careful listed posted k
  | Spawn _ k => careful listed posted k
  end.
Definition thread_ok (log : history) (st : live_state) (t : thread) : Prop :=
  match t with
  | Running p => ∃ listed posted, careful listed posted p ∧ Forall (faithful log) listed ∧ Forall (landed st) posted
  | Posting d t k =>
    ∃ listed posted, (∀ p, p ∈ d ++ t → p ∈ listed)
      ∧ (∀ r, careful listed (if rp_ok r then (d ++ t) ++ posted else posted) (k (Ok r))) ∧ (∀ e, careful listed posted (k (Err e)))
      ∧ Forall (faithful log) listed ∧ Forall (landed st) (d ++ posted)
  end.
(** [latest] is the last revision of each node. *)
Record db_ok (log : history) (latest : gmap jstr Z) (db : database) : Prop := {
  latest_hash : ∀ u r, latest !! u = Some r → 0 < r ≤ sequence db ∧ log !! (u, r) = Some (hash_now db u) ∧ tidy u;
  log_latest : ∀ u r h, log !! (u, r) = Some h → ∃ l, latest !! u = Some l ∧ r ≤ l;
  queue_latest : ∀ u r, queue db !! u = Some r → latest !! u = Some r;
  row_latest : ∀ u, is_Some (rows db !! u) → is_Some (latest !! u);
  sequence_nonneg : 0 ≤ sequence db;
}.
Definition live_ok (log : history) (st : live_state) : Prop :=
  revisions_ok st ∧ ∀ u r b, syncs st !! u = Some (r, b) → ∃ h, log !! (u, r) = Some h ∧ (b = true → secured u h (auth st)).
Definition arrived (latest : gmap jstr Z) (db : database) (st : live_state) : Prop :=
  ∀ u r, latest !! u = Some r → queue db !! u = None → syncs st !! u = Some (r, true).
Definition inv (s : system) : Prop :=
  ∃ log latest, db_ok log latest (s_db s) ∧ live_ok log (s_live s) ∧ arrived latest (s_db s) (s_live s)
    ∧ Forall (thread_ok log (s_live s)) (s_threads s).

Lemma refused_batch_ok r body l : refused_batch r body l = Ok false → rp_ok r = true.
Proof. unfold refused_batch. by destruct (rp_ok r). Qed.
Lemma careful_sync o n total listed posted : careful listed posted (sync_batches o n total).
Proof.
  revert total listed posted. induction n as [|n IH]; intros total listed posted; cbn [sync_batches].
  - destruct (match so_uuids o with Some _ => _ | None => _ end); [| done]. cbn [act bind careful]. split; [| done]. intros l. by case_match.
  - cbn [act bind careful]. split; [| done]. intros l. case_match; [done |]. cbn [act bind careful].
    split; [intros p Hp; apply elem_of_app; by left |]. split; [| done].
    intros r. destruct (refused_batch _ _ l) as [[|]|] eqn:E; [done | | done]. apply refused_batch_ok in E as ->.
    cbn [act bind careful]. split.
    + intros c (p & <- & Hp)%list_elem_of_In%in_map_iff. exists p. split; [| done]. apply elem_of_app. left. by apply list_elem_of_In.
    + intros [a|e]; [| done]. cbn [bind]. case_match; [done | apply IH].
Qed.

(** *** Credentials *)

Lemma settled_change c a : settled c a ↔ settled (change_of (ch_uuid c) (option_map s_hash (ch_client c))) a.
Proof. unfold settled. destruct (ch_client c) as [client|]; cbn; [| done]. unfold s_hash, stringField at 2. cbn. done. Qed.
Lemma secured_current u h a hash : secured u h a → isAgentCredentialCurrent u hash a = match h with Some h => jeq hash h | None => false end.
Proof.
  intros [Hs Hh]. rewrite (settled_current (change_of u h) a u hash Hs); [by destruct h | | done].
  destruct h as [[[|c l]]|]; [congruence | done | done].
Qed.

(** *** Transactions *)

Lemma strict_eq_text a b : strict_eq a b = true → text_of a = text_of b.
Proof. destruct a, b; try done. cbn. by intros ->%jeq_true. Qed.
Lemma control_same_hash old new : control_changed old new = false → row_hash sha256 new = row_hash sha256 old.
Proof.
  intros H. assert (Hk : ∀ k, k ∈ control_columns → text_of (fld new k) = text_of (fld old k)).
  { intros k Hk. apply strict_eq_text. apply (proj1 (existsb_false _ _) H) in Hk. by apply negb_false_iff in Hk. }
  unfold row_hash. rewrite !Hk by list_elem. done.
Qed.

(** Queueing a node records what its row, changed or not, says now. *)
Lemma enqueue_ok log latest db u r :
  db_ok log latest db → tidy u → (∀ v, v ≠ u → r !! v = rows db !! v) →
  let db' := enqueue_client_sync u (with_rows r db) in
  ∃ log' latest', log ⊆ log' ∧ db_ok log' latest' db' ∧ ∀ st, arrived latest db st → arrived latest' db' st.
Proof.
  intros Hdb Hu Hr. cbv zeta. set (db' := enqueue_client_sync u (with_rows r db)).
  assert (Hseq : sequence db < sequence db' ∧ queue db' = <[u := sequence db']> (queue db) ∧ rows db' = r).
  { unfold db', enqueue_client_sync. cbn. destruct (queue db !! u); cbn; split; [lia | done | lia | done]. }
  destruct Hseq as (Hseq & Hq & Hrows). clearbody db'. pose proof (sequence_nonneg _ _ _ Hdb) as H0.
  assert (Hfresh : ∀ v z h, log !! (v, z) = Some h → z ≤ sequence db).
  { intros v z h Hl. apply (log_latest _ _ _ Hdb) in Hl as (l & Hl & ?). apply (latest_hash _ _ _ Hdb) in Hl. lia. }
  exists (<[(u, sequence db') := hash_now db' u]> log), (<[u := sequence db']> latest). split; [| split].
  - apply insert_subseteq. destruct (log !! (u, sequence db')) eqn:E; [| done]. apply Hfresh in E. lia.
  - split.
    + intros v z. rewrite lookup_insert. destruct (decide (u = v)) as [<- | Hne].
      * intros [= <-]. rewrite lookup_insert_eq. split; [lia | done].
      * intros Hl. destruct (latest_hash _ _ _ Hdb v z Hl) as (Hz & Hh & Hv). split; [lia |]. split; [| done].
        rewrite lookup_insert_ne by congruence. rewrite Hh. unfold hash_now. by rewrite Hrows, Hr.
    + intros v z h. rewrite !lookup_insert. destruct (decide (u = v)) as [<- | Hne].
      * intros Hl. exists (sequence db'). split; [done |]. destruct (decide ((u, sequence db') = (u, z))) as [Hz | _]; [injection Hz; lia |].
        apply Hfresh in Hl. lia.
      * rewrite decide_False by congruence. apply (log_latest _ _ _ Hdb).
    + intros v z. rewrite Hq, !lookup_insert. destruct (decide (u = v)); [done | apply (queue_latest _ _ _ Hdb)].
    + intros v. rewrite Hrows, lookup_insert. destruct (decide (u = v)) as [<- | Hne]; [eauto |]. rewrite Hr by done. apply (row_latest _ _ _ Hdb).
    + lia.
  - intros st Ha v z. rewrite Hq, !lookup_insert. destruct (decide (u = v)); [done | apply Ha].
Qed.

Lemma statement_ok log latest s db db' :
  db_ok log latest db → tidy (statement_uuid s) → execute s db = Some db' →
  ∃ log' latest', log ⊆ log' ∧ db_ok log' latest' db' ∧ ∀ st, arrived latest db st → arrived latest' db' st.
Proof.
  intros Hdb Hu He. assert (Hsame : ∃ log' latest', log ⊆ log' ∧ db_ok log' latest' db ∧ ∀ st, arrived latest db st → arrived latest' db st) by eauto.
  destruct s as [u row|u row|u|u]; cbn [execute statement_uuid] in *.
  - destruct (rows db !! u); [done |]. injection He as <-. apply enqueue_ok; [done | done |]. intros v Hv. by rewrite lookup_insert_ne.
  - injection He as <-. destruct (rows db !! u) as [old|] eqn:Eu; [| done]. destruct (control_changed old row) eqn:Ec.
    { apply enqueue_ok; [done | done |]. intros v Hv. by rewrite lookup_insert_ne. }
    exists log, latest. split; [done |]. split; [| done]. destruct Hdb as [H1 H2 H3 H4 H5]. split; cbn; try done.
    + intros v z Hz. destruct (H1 v z Hz) as (? & -> & ?). split; [done |]. split; [| done]. f_equal. unfold hash_now. cbn.
      destruct (decide (u = v)) as [<- | Hne]; [| by rewrite lookup_insert_ne]. rewrite Eu, lookup_insert_eq. by rewrite (control_same_hash _ _ Ec).
    + intros v. rewrite lookup_insert. destruct (decide (u = v)) as [<- | Hne]; [| apply H4]. intros _. apply H4. by rewrite Eu.
  - injection He as <-. destruct (rows db !! u); [| done]. apply enqueue_ok; [done | done |]. intros v Hv. by rewrite lookup_delete_ne.
  - injection He as <-. by apply (enqueue_ok log latest db u (rows db)).
Qed.
Lemma transaction_ok log latest l db :
  db_ok log latest db → Forall (λ x, tidy (statement_uuid x)) l →
  ∃ log' latest', log ⊆ log' ∧ db_ok log' latest' (transaction l db) ∧ ∀ st, arrived latest db st → arrived latest' (transaction l db) st.
Proof.
  intros Hdb Hl. unfold transaction. destruct (execute_all l db) as [db'|] eqn:E; [| cbn; eauto]. cbn [default].
  revert log latest db Hdb E. induction Hl as [|s l Hs Hl IH]; intros log latest db Hdb E; cbn [execute_all] in E; [injection E as <-; eauto |].
  destruct (execute s db) as [db1|] eqn:E1; [| done].
  destruct (statement_ok _ _ _ _ _ Hdb Hs E1) as (log1 & latest1 & Hlog1 & Hdb1 & Ha1).
  destruct (IH _ _ _ Hdb1 E) as (log2 & latest2 & Hlog2 & Hdb2 & Ha2). exists log2, latest2. split; [by etrans |]. auto.
Qed.

(** *** The live object *)

(** An event that carries no change the database did not make. *)
Definition event_known (log : history) (e : LiveSync.event) : Prop :=
  (∀ c, event_change e = Some c → log !! (ch_uuid c, ch_revision c) = Some (option_map s_hash (ch_client c))) ∧ ∀ u, ¬ removes u e.
(** The records of changes only go on, and the last one stays. *)
Record advanced (log : history) (st st' : live_state) : Prop := {
  goes_on : ∀ u r b, syncs st !! u = Some (r, b) → ∃ r' b', syncs st' !! u = Some (r', b') ∧ (r < r' ∨ r = r' ∧ (b = true → b' = true));
  last_stays : ∀ u r, syncs st !! u = Some (r, true) → (∀ r' h, log !! (u, r') = Some h → r' ≤ r) → syncs st' !! u = Some (r, true);
}.
Lemma advanced_same log st st' : syncs st' = syncs st → advanced log st st'.
Proof. intros E. split; rewrite E; [| done]. intros u r b ->. exists r, b. auto. Qed.
Lemma settled_controls c a a' : controls a' !! ch_uuid c = controls a !! ch_uuid c → settled c a → settled c a'.
Proof. unfold settled. by intros ->. Qed.
Lemma event_change_ok e c : event_change e = Some c → change_ok c.
Proof. destruct e; try done; apply read_change_ok. Qed.

Lemma live_event log now e st :
  live_ok log st → event_known log e → live_ok log (LiveSync.step date_parse now e st) ∧ advanced log st (LiveSync.step date_parse now e st).
Proof.
  intros [Hok Hst] [Hlog Hrm]. destruct (match event_change e with Some c => superseded c st | None => true end) eqn:Hs.
  - destruct (step_quiet date_parse now e st) as [Hsy Hq]; [by destruct (event_change e) |]. split; [| by apply advanced_same].
    split; [by apply step_revisions_ok |]. intros u r b. rewrite Hsy. intros Hu. destruct (Hst u r b Hu) as (h & Hl & Hb). exists h.
    split; [done |]. intros Hb1. destruct (Hb Hb1) as [H1 H2]. split; [| done]. by apply (Hq u).
  - destruct (event_change e) as [c|] eqn:He; [| done]. destruct (step_applied date_parse now e c st Hok He Hs) as (b & Hsy & Hset & Ho & _).
    unfold superseded in Hs. split; [split; [by apply step_revisions_ok |] | split].
    + intros u r b'. rewrite Hsy, lookup_insert. destruct (decide (ch_uuid c = u)) as [<- | Hne].
      * intros [= <- <-]. eexists. split; [by apply Hlog |]. intros Hb. split; [by apply (proj1 (settled_change c _)), Hset |].
        destruct (event_change_ok _ _ He) as [_ Hc]. destruct (ch_client c) as [client|]; [| done]. destruct Hc as [_ Hc]. cbn.
        intros [= E]. by rewrite E in Hc.
      * intros Hu. destruct (Hst u r b' Hu) as (h & Hl & Hb). exists h. split; [done |]. intros Hb1. destruct (Hb Hb1) as [H1 H2]. split; [| done].
        eapply settled_controls; [| exact H1]. by apply Ho.
    + intros u r b'. rewrite Hsy, lookup_insert. destruct (decide (ch_uuid c = u)) as [<- | Hne]; [| intros Hu; exists r, b'; auto].
      intros Hu. rewrite Hu in Hs. eexists _, _. split; [done |]. apply orb_false_iff in Hs as [H1 H2]. apply Z.ltb_ge in H1.
      destruct (Z.eqb_spec r (ch_revision c)) as [-> | Hne]; [| lia]. right. split; [done |]. by intros ->.
    + intros u r. rewrite Hsy, lookup_insert. destruct (decide (ch_uuid c = u)) as [<- | Hne]; [| done].
      intros Hu Hmax. exfalso. rewrite Hu in Hs. specialize (Hmax _ _ (Hlog c eq_refl)). apply orb_false_iff in Hs as [H1 H2].
      apply Z.ltb_ge in H1. apply andb_false_iff in H2 as [H2%Z.eqb_neq | ?]; [lia | done].
Qed.
Lemma live_other_ok log now st st' : live_ok log st → live_other now st st' → live_ok log st' ∧ advanced log st st'.
Proof.
  intros Hst [body|meta|st2 Hc Hs].
  1,2: apply live_event; [done |]; split; [done | by intros ? []].
  split; [| by apply advanced_same].
  destruct Hst as [Hok Hst]. split.
  - intros u r. unfold rev_of. rewrite Hc, Hs. apply Hok.
  - intros u r b. rewrite Hs. intros Hu. destruct (Hst u r b Hu) as (h & Hl & Hb). exists h. split; [done |]. intros Hb1.
    destruct (Hb Hb1) as [H1 H2]. split; [| done]. eapply settled_controls; [| exact H1]. by rewrite Hc.
Qed.
Lemma advanced_landed log st st' p : advanced log st st' → landed st p → landed st' p.
Proof.
  intros Ha (r & r1 & b & Hr & H0 & Hu & Hp). destruct (goes_on _ _ _ Ha _ _ _ Hu) as (r2 & b2 & Hu2 & H). exists r, r2, b2.
  split; [done |]. split; [done |]. split; [done |]. destruct Hp as [? | [<- ->]], H as [? | [<- Hb]]; try lia; auto.
Qed.
Lemma advanced_arrived log latest db st st' : db_ok log latest db → advanced log st st' → arrived latest db st → arrived latest db st'.
Proof.
  intros Hdb Ha Harr u r Hl Hq. apply (last_stays _ _ _ Ha); [by apply Harr |]. intros r' h Hh.
  apply (log_latest _ _ _ Hdb) in Hh as (l & Hl' & ?). congruence.
Qed.

(** A posted change is known, and once applied it has landed. *)
Lemma faithful_known log p : faithful log p →
  (∀ c, read_change (pending_fields p) = Some c → log !! (ch_uuid c, ch_revision c) = Some (option_map s_hash (ch_client c))).
Proof. intros (r & h & _ & _ & Hl & Hc) c Hr. by destruct (Hc c Hr) as (-> & -> & ->). Qed.
Lemma deliver_landed now p st b st' log :
  live_ok log st → faithful log p → applyClientSynchronization date_parse now (pending_fields p) st = (200, b, st') → landed st' p.
Proof.
  intros [Hok _] (r & h & Hrev & H0 & Hl & Hc) Happ. unfold applyClientSynchronization in Happ.
  destruct (read_change (pending_fields p)) as [c|] eqn:Ec; [| done]. destruct (Hc c eq_refl) as (Hu & Hr & Hh). unfold landed.
  destruct (superseded c st) eqn:Es.
  - unfold apply_change in Happ. rewrite Es in Happ. injection Happ as _ <-. unfold superseded in Es. rewrite Hu, Hr in Es.
    destruct (syncs st !! pd_uuid p) as [[r' b']|]; [| done]. exists r, r', b'. repeat split; [done | done |].
    apply orb_true_iff in Es as [?%Z.ltb_lt | [->%Z.eqb_eq ->]%andb_true_iff]; auto.
  - destruct (apply_change_spec date_parse now c st Hok (read_change_ok _ _ Ec) Es) as (st2 & Heq & Hsy & _). rewrite Heq in Happ.
    injection Happ as _ <-. exists r, r, true. rewrite Hsy, Hu, Hr, lookup_insert_eq. split_and!; auto.
Qed.

(** *** What a worker lists *)

Lemma dec_Z_units r : 0 ≤ r → units (dec_Z r) = dec_nat r.
Proof. intros Hr. unfold dec_Z. replace (r <? 0) with false; [done |]. symmetry. by apply Z.ltb_ge. Qed.
Lemma dec_Z_inj r r' : 0 ≤ r → 0 ≤ r' → dec_Z r = dec_Z r' → r = r'.
Proof.
  intros Hr Hr' E. destruct (dec_nat_spec r Hr) as [H1 _], (dec_nat_spec r' Hr') as [H2 _].
  rewrite <- dec_Z_units in H1, H2 by done. congruence.
Qed.
Lemma parse_revision_dec r z : 0 ≤ r → parse_revision (dec_Z r) = Some z → z = r.
Proof.
  intros Hr. unfold parse_revision. rewrite dec_Z_units by done. destruct (dec_nat_spec r Hr) as [H1 _].
  destruct (dec_nat r) as [|d l]; [done |]. destruct (_ && _ && _ && _); [| done]. intros [= <-]. done.
Qed.
Lemma fld_client_booleans record k :
  k ≠ "auto_renewal" → k ≠ "hidden" → fld (as_object (normalizeClientBooleans (JObj record))) k = fld record k.
Proof.
  intros H1 H2. unfold normalizeClientBooleans. cbn [as_object].
  destruct (has_own _ "auto_renewal"), (has_own record "hidden"); rewrite ?fld_set_field, ?decide_False by done; done.
Qed.
Lemma nodup_keys (l : list jstr) : bool_decide (NoDup l) = true → NoDup l.
Proof. apply bool_decide_eq_true. Qed.
Lemma pending_record row u k v :
  k ≠ "auto_renewal" → k ≠ "hidden" →
  lookup_field k [("token", JStr ""); ("token_hash", JStr (row_hash sha256 row))] = Some v ∨ k = "uuid" ∧ v = JStr u →
  fld (as_object (normalizeClientBooleans (JObj
    (spread (spread row [("uuid", JStr u)]) [("token", JStr ""); ("token_hash", JStr (row_hash sha256 row))])))) k = v.
Proof.
  intros H1 H2 H. rewrite fld_client_booleans by done. rewrite fld_spread by (by apply nodup_keys).
  destruct H as [-> | [-> ->]]; [done |]. cbn [lookup_field]. rewrite !decide_False by done. by rewrite fld_spread by (by apply nodup_keys).
Qed.
Lemma read_change_inv body c : read_change body = Some c →
  ch_uuid c = trim (stringField body "uuid") ∧ parse_revision (stringField body "revision") = Some (ch_revision c)
  ∧ option_map s_hash (ch_client c)
    = if is_null (fld body "client") then None else Some (trim (stringField (as_object (fld body "client")) "token_hash")).
Proof.
  unfold read_change. destruct (parse_revision _) as [r|]; [| done]. cbv zeta. destruct (negb (nonempty _)); [done |]. cbn [orb].
  destruct (is_null (fld body "client")) eqn:En; cbn [negb andb]; [by intros [= <-] |].
  destruct (normalizeAgentAuthSnapshot _) as [client|] eqn:E; [| done]. destruct (negb _); [done |]. intros [= <-]. cbn [ch_uuid ch_revision ch_client].
  split; [done |]. split; [done |]. cbn [option_map]. f_equal. unfold normalizeAgentAuthSnapshot in E. destruct (negb _); [done |].
  cbv zeta in E. destruct (_ || _); [done |]. injection E as <-. done.
Qed.
Lemma pending_rows_queue u l db e : e ∈ pending_rows u l db → queue db !! e.1 = Some e.2 ∧ match u with Some us => e.1 ∈ us | None => True end.
Proof.
  intros He. unfold pending_rows in He. apply elem_of_take in He as (i & He & _). apply list_elem_of_lookup_2 in He.
  rewrite stable_sort_perm in He. apply list_elem_of_In, filter_In in He as [He%list_elem_of_In Hf]. destruct e as [v r].
  apply elem_of_map_to_list in He. split; [done |]. destruct u; [by apply mem_spec in Hf | done].
Qed.
Lemma listed_faithful log latest db u l :
  db_ok log latest db → Forall (faithful log) (listPendingClientSyncs sha256 u l db).
Proof.
  intros Hdb. apply Forall_forall. intros p Hp. unfold listPendingClientSyncs in Hp.
  apply list_elem_of_In, in_map_iff in Hp as ([v r] & <- & He%list_elem_of_In). apply pending_rows_queue in He as [He _]. cbn [fst snd] in He.
  apply (queue_latest _ _ _ Hdb) in He. destruct (latest_hash _ _ _ Hdb v r He) as (Hr & Hl & Hv).
  exists r, (hash_now db v). cbn [pd_uuid pd_revision pd_client pending_entry fst snd]. split; [done |]. split; [lia |]. split; [done |].
  intros c (H1 & H2 & H3)%read_change_inv. cbn in H1. apply parse_revision_dec in H2; [| lia]. split; [by etrans; [exact H1 | exact Hv] |]. split; [done |].
  rewrite H3. unfold hash_now, pending_fields. cbn [pd_uuid pd_revision pd_client].
  change (fld _ "client") with (normalizeClientBooleans match rows db !! v with
    Some row => JObj (spread (spread row [("uuid", JStr v)]) [("token", JStr ""); ("token_hash", JStr (row_hash sha256 row))]) | None => JNull end).
  destruct (rows db !! v) as [row|]; [| done]. change (is_null _) with false. cbv iota. do 2 f_equal. unfold stringField.
  by rewrite (pending_record row v "token_hash" (JStr (row_hash sha256 row))) by auto.
Qed.

(** *** Acknowledgements *)

Lemma acknowledge_all_spec l n db n' db' :
  fold_left acknowledge l (n, db) = (n', db') →
  rows db' = rows db ∧ sequence db' = sequence db
  ∧ (∀ u r, queue db' !! u = Some r → queue db !! u = Some r)
  ∧ ∀ u r, queue db !! u = Some r → queue db' !! u = None → (u, dec_Z r) ∈ l.
Proof.
  revert n db. induction l as [|[u0 rev] l IH]; intros n db; cbn [fold_left]; [intros [= <- <-]; split_and!; [done | done | done | congruence] |].
  cbn [acknowledge fst snd]. destruct (queue db !! u0) as [r0|] eqn:E0; [destruct (jeq (dec_Z r0) rev) eqn:Ej |].
  - intros H. apply IH in H as (H1 & H2 & H3 & H4). cbn [rows queue sequence] in *. apply jeq_true in Ej as <-. split_and!; [done | done | |].
    + intros u r Hq. apply H3 in Hq. rewrite lookup_delete in Hq. by destruct (decide _).
    + intros u r Hq Hn. destruct (decide (u0 = u)) as [<- | Hne]; [simplify_eq; left |]. right. apply H4; [by rewrite lookup_delete_ne | done].
  - intros H. apply IH in H as (H1 & H2 & H3 & H4). split_and!; try done. intros u r Hq Hn. right. auto.
  - intros H. apply IH in H as (H1 & H2 & H3 & H4). split_and!; try done. intros u r Hq Hn. right. auto.
Qed.
Lemma acknowledge_ok log latest l db n db' st posted :
  db_ok log latest db → live_ok log st → arrived latest db st → Forall (landed st) posted →
  (∀ c, c ∈ l → ∃ p, p ∈ posted ∧ c = (pd_uuid p, pd_revision p)) →
  acknowledgeClientSyncs l db = Some (n, db') → db_ok log latest db' ∧ arrived latest db' st.
Proof.
  intros Hdb [_ Hst] Ha Hp Hl. unfold acknowledgeClientSyncs. destruct (_ || _); [done |]. intros [= E].
  apply acknowledge_all_spec in E as (Hr & Hs & Hq & Hd). split.
  - destruct Hdb as [H1 H2 H3 H4 H5]. split; rewrite ?Hs; unfold hash_now in *; rewrite ?Hr; try done. intros u r Hu. by apply H3, Hq.
  - intros u r Hu Hn. destruct (queue db !! u) as [r0|] eqn:E0; [| by apply Ha]. pose proof (queue_latest _ _ _ Hdb _ _ E0) as Hu0.
    assert (r0 = r) as -> by congruence. destruct (Hl _ (Hd u r E0 Hn)) as (p & Hin & [= -> Hrev]). rewrite Forall_forall in Hp.
    destruct (Hp p Hin) as (r1 & r2 & b & Hr1 & H0 & Hsy & Hle). destruct (latest_hash _ _ _ Hdb _ _ Hu) as (Hr0 & _).
    assert (r1 = r) as -> by (apply dec_Z_inj; [lia | lia | congruence]). destruct (Hst _ _ _ Hsy) as (h & Hh & _).
    apply (log_latest _ _ _ Hdb) in Hh as (l' & Hl' & ?). assert (l' = r) as -> by congruence.
    destruct Hle as [? | [<- ->]]; [lia | done].
Qed.

(** *** Every step keeps the invariant *)

Lemma faithful_mono log log' p : log ⊆ log' → faithful log p → faithful log' p.
Proof. intros Hs (r & h & H1 & H0 & H2 & H3). exists r, h. split_and!; try done. by eapply lookup_weaken. Qed.
Lemma live_ok_mono log log' st : log ⊆ log' → live_ok log st → live_ok log' st.
Proof. intros Hs [H1 H2]. split; [done |]. intros u r b Hu. destruct (H2 u r b Hu) as (h & Hl & Hb). exists h. split; [by eapply lookup_weaken | done]. Qed.
Lemma thread_mono log log' st st' t : log ⊆ log' → advanced log st st' → thread_ok log st t → thread_ok log' st' t.
Proof.
  intros Hs Ha. assert (Hf : ∀ l, Forall (faithful log) l → Forall (faithful log') l) by (intros l Hl; eapply Forall_impl; [exact Hl |]; intros p; by apply faithful_mono).
  assert (Hl : ∀ l, Forall (landed st) l → Forall (landed st') l) by (intros l Hl; eapply Forall_impl; [exact Hl |]; intros p; by apply (advanced_landed log)).
  destruct t as [p|d t k]; [intros (listed & posted & H1 & H2 & H3) | intros (listed & posted & H0 & H1 & H2 & H3 & H4)]; exists listed, posted; auto 10.
Qed.
(** What one worker's step does to the rest. *)
Definition work_kept (log : history) (latest : gmap jstr Z) (st : live_state) (db' : database) (st' : live_state) (new : list thread) : Prop :=
  db_ok log latest db' ∧ live_ok log st' ∧ arrived latest db' st' ∧ advanced log st st' ∧ Forall (thread_ok log st') new.
Lemma live_work log latest db st st' new :
  db_ok log latest db → arrived latest db st → live_ok log st' → advanced log st st' → Forall (thread_ok log st') new →
  work_kept log latest st db st' new.
Proof. intros Hdb Ha Hst Hadv Hnew. split_and!; try done. by eapply advanced_arrived. Qed.
Lemma running_ok log st p listed posted :
  careful listed posted p → Forall (faithful log) listed → Forall (landed st) posted → Forall (thread_ok log st) [Running p].
Proof. intros H1 H2 H3. apply Forall_singleton. by exists listed, posted. Qed.
Lemma apply_status now body st status b st' :
  applyClientSynchronization date_parse now body st = (status, b, st') → status ≠ 200 → rp_ok (refusal status) = false.
Proof.
  unfold applyClientSynchronization, apply_change. destruct (read_change body) as [c|]; [| by intros [= <- _ _]].
  destruct (superseded c st); [by intros [= <- _ _] |]. destruct (sync_store _ _ _) as [[|] st2]; by intros [= <- _ _].
Qed.
(** The worker and the database. *)
Lemma work_running_ok log latest db st p db' st' new :
  db_ok log latest db → live_ok log st → arrived latest db st → thread_ok log st (Running p) →
  work db st (Running p) db' st' new → work_kept log latest st db' st' new.
Proof.
  intros Hdb Hst Ha (listed & posted & H1 & H2 & H3) Hw. assert (Hsame : advanced log st st) by by apply advanced_same.
  inversion Hw as [? ? k|? ? u k|? ? c k|? ? h k|? ? u l k|? ? l k Hne Hlen|? ? l k Hl|? ? l k n ? Hack|? ? l k n ? e Hack|? ? c k e| | | | |]; subst.
  1-4: by apply live_work, (running_ok _ _ _ listed posted).
  - destruct H1 as [H1 _]. apply live_work, (running_ok _ _ _ (listPendingClientSyncs sha256 u l db' ++ listed) posted); try done.
    apply Forall_app. split; [by eapply listed_faithful | done].
  - destruct H1 as (H0 & H1 & H1'). apply live_work, Forall_singleton; try done. by exists listed, posted.
  - destruct H1 as (H0 & H1 & H1'). apply live_work, (running_ok _ _ _ listed posted); try done. apply (H1 (refusal 400)).
  - destruct H1 as [H0 H1]. destruct (acknowledge_ok _ _ _ _ _ _ _ _ Hdb Hst Ha H3 H0 Hack). by apply live_work, (running_ok _ _ _ listed posted).
  - destruct H1 as [H0 H1]. destruct (acknowledge_ok _ _ _ _ _ _ _ _ Hdb Hst Ha H3 H0 Hack). by apply live_work, (running_ok _ _ _ listed posted).
  - apply live_work, (running_ok _ _ _ listed posted); try done. destruct c; apply H1.
Qed.
(** The live object at work on a batch. *)
Lemma work_posting_ok log latest db st d t k db' st' new :
  db_ok log latest db → live_ok log st → arrived latest db st → thread_ok log st (Posting d t k) →
  work db st (Posting d t k) db' st' new → work_kept log latest st db' st' new.
Proof.
  intros Hdb Hst Ha (listed & posted & H0 & H1 & H1' & H2 & H3) Hw. pose proof (proj1 (Forall_app _ _ _) H3) as [H4 H5].
  assert (Hp : ∀ p, p ∈ t → faithful log p) by (intros p Hp; rewrite Forall_forall in H2; apply H2, H0, elem_of_app; by right).
  assert (Hev : ∀ now e p, e = Deliver (pending_fields p) ∨ (∃ n, e = Interrupt n (pending_fields p)) → p ∈ t →
            live_ok log (LiveSync.step date_parse now e st) ∧ advanced log st (LiveSync.step date_parse now e st)).
  { intros now e p He Hpt. apply live_event; [done |]. destruct He as [-> | [n ->]]; (split; [by apply faithful_known, Hp | by intros ? []]). }
  inversion Hw as [| | | | | | | | | |? ? now ? p t' ? ? b Happ|? ? now ? p t' ? status ? b Happ Hstatus|? ? ? ?|? ? ? ? ? e|? ? now n ? p t' ? e]; subst.
  - destruct (Hev now _ p (or_introl eq_refl)) as [H6 H7]; [left |]. cbn [LiveSync.step] in H6, H7. rewrite Happ in H6, H7. cbn [snd] in H6, H7.
    apply live_work; try done. apply Forall_singleton. exists listed, posted.
    rewrite <- (assoc_L (++) d [p] t'), <- (assoc_L (++) d [p] posted). split_and!; try done.
    assert (Hl : ∀ l, Forall (landed st) l → Forall (landed st') l) by (intros l Hl; eapply Forall_impl; [exact Hl |]; intros q; by apply (advanced_landed log)).
    apply Forall_app. split; [auto |]. constructor; [| auto]. apply (deliver_landed now p st b st' log); [done | apply Hp; left | done].
  - destruct (Hev now _ p (or_introl eq_refl)) as [H6 H7]; [left |]. cbn [LiveSync.step] in H6, H7. rewrite Happ in H6, H7. cbn [snd] in H6, H7.
    apply live_work; try done. apply Forall_singleton, (thread_mono log log st); try done. exists listed, posted. split_and!; try done.
    specialize (H1 (refusal status)). by rewrite (apply_status _ _ _ _ _ _ Happ Hstatus) in H1.
  - apply live_work; try done; [by apply advanced_same |]. apply (running_ok _ _ _ listed (d ++ posted)); [| done | done].
    specialize (H1 (applied_reply d)). by rewrite app_nil_r in H1.
  - apply live_work; try done; [by apply advanced_same |].
    apply Forall_cons_2; [by exists listed, posted |]. apply Forall_singleton. by exists listed, posted.
  - destruct (Hev now _ p (or_intror (ex_intro _ n eq_refl))) as [H6 H7]; [left |].
    apply live_work; try done. apply Forall_singleton, (thread_mono log log st); try done. by exists listed, posted.
Qed.

Lemma outbox_step s s' : inv s → sys_step s s' → inv s'.
Proof.
  intros (log & latest & Hdb & Hst & Ha & Ht) Hstep. destruct Hstep as [s o|s db st l1 t l2 new Hl Hw|s l Hl|s now st Ho].
  - exists log, latest. split_and!; try done. cbn. constructor; [| done]. exists [], []. split_and!; [| done | done]. apply careful_sync.
  - rewrite Hl in Ht. apply Forall_app in Ht as [H1 [H2 H3]%Forall_cons].
    assert (work_kept log latest (s_live s) db st new) as (H4 & H5 & H6 & H7 & H8).
    { destruct t; [by eapply work_running_ok | by eapply work_posting_ok]. }
    exists log, latest. split_and!; try done. cbn. rewrite !Forall_app. split_and!; [| done |]; eapply Forall_impl; try done;
      intros x; by apply thread_mono.
  - destruct (transaction_ok log latest l _ Hdb Hl) as (log' & latest' & H1 & H2 & H3). exists log', latest'.
    split_and!; [done | by eapply live_ok_mono | by apply H3 |]. cbn. eapply Forall_impl; [exact Ht |]. intros x. apply thread_mono; [done |].
    by apply advanced_same.
  - destruct (live_other_ok log now _ _ Hst Ho) as [H1 H2]. exists log, latest. split_and!; [done | done | by eapply advanced_arrived |]. cbn.
    eapply Forall_impl; [exact Ht |]. intros x. by apply thread_mono.
Qed.
Lemma inv_initial s : initial s → inv s.
Proof.
  intros (Ht & Hs & Hok & H0 & Hq & Hr).
  set (l := map (λ e : jstr * Z, (e, hash_now (s_db s) e.1)) (map_to_list (queue (s_db s)))).
  assert (Hl : ∀ u r h, (list_to_map l : history) !! (u, r) = Some h ↔ queue (s_db s) !! u = Some r ∧ h = hash_now (s_db s) u).
  { intros u r h. rewrite <- elem_of_list_to_map by (unfold l; rewrite <- list_fmap_compose, list_fmap_id; apply NoDup_map_to_list).
    unfold l. rewrite list_elem_of_fmap. split.
    - intros ([v z] & [= -> -> ->] & He%elem_of_map_to_list). done.
    - intros [He ->]. exists (u, r). split; [done | by apply elem_of_map_to_list]. }
  exists (list_to_map l), (queue (s_db s)). split_and!.
  - split; try done.
    + intros u r Hu. destruct (Hq u r Hu). split; [done |]. split; [by apply Hl | done].
    + intros u r h Hu%Hl. exists r. split; [apply Hu | done].
  - split; [done |]. intros u r b. by rewrite Hs, lookup_empty.
  - intros u r. congruence.
  - by rewrite Ht.
Qed.
Lemma reachable_inv s : reachable s → inv s.
Proof. intros (s0 & H0 & H). apply inv_initial in H0. induction H; [done |]. eauto using outbox_step. Qed.

(** *** A worker that runs alone *)

Fixpoint post_changes (now : Z) (done todo : list pending) (st : live_state) : reply * live_state :=
  match todo with
  | [] => (applied_reply done, st)
  | p :: todo =>
    let '(status, _, st) := applyClientSynchronization date_parse now (pending_fields p) st in
    if status =? 200 then post_changes now (done ++ [p]) todo st else (refusal status, st)
  end.
Abbreviation world := (database * live_state)%type.
Definition serve (now : Z) (c : sync_call) (w : world) : result jstr (sync_ans c) * world :=
  match c return result jstr (sync_ans c) * world with
  | ListPending u l => (Ok (listPendingClientSyncs sha256 u l w.1), w)
  | PostChanges l =>
    if (length l =? 0)%nat || (200 <? length l)%nat then (Ok (refusal 400), w)
    else let '(r, st) := post_changes now [] l w.2 in (Ok r, (w.1, st))
  | Acknowledge l => match acknowledgeClientSyncs l w.1 with Some (n, db) => (Ok n, (db, w.2)) | None => (Err "invalid acknowledgement", w) end
  end.
Fixpoint run_alone (now : Z) (p : sync Z) (w : world) : result jstr Z * world :=
  match p with
  | Ret a => (Ok a, w)
  | Throw e => (Err e, w)
  | Act c k => let '(x, w) := serve now c w in run_alone now (k x) w
  | Yield k | Header _ k => run_alone now k w
  | Local _ k => run_alone now (k tt) w
  | Clock k => run_alone now (k now) w
  | Spawn t k => run_alone now k w
  end.
Definition finished (r : result jstr Z) : thread := Running (match r with Ok a => Ret a | Err e => Throw e end).
(** It is one way the system may go. *)
Lemma one_step db st t db' st' t' l :
  work db st t db' st' [t'] →
  sys_step {| s_db := db; s_live := st; s_threads := t :: l |} {| s_db := db'; s_live := st'; s_threads := t' :: l |}.
Proof. intros Hw. by apply (sys_work {| s_db := db; s_live := st; s_threads := t :: l |} db' st' [] t l [t']). Qed.
Lemma post_steps now d t k db st l :
  rtc sys_step {| s_db := db; s_live := st; s_threads := Posting d t k :: l |}
               {| s_db := db; s_live := (post_changes now d t st).2; s_threads := Running (k (Ok (post_changes now d t st).1)) :: l |}.
Proof.
  revert d st. induction t as [|p t IH]; intros d st; cbn [post_changes]; [by apply rtc_once, one_step, work_answer |].
  destruct (applyClientSynchronization _ _ _ _) as [[status b] st'] eqn:E.
  destruct (status =? 200) eqn:Es; [apply Z.eqb_eq in Es as -> | apply Z.eqb_neq in Es].
  - eapply rtc_l; [| apply IH]. by eapply one_step, work_apply.
  - by eapply rtc_once, one_step, work_reject.
Qed.
Lemma quiet_step p q db st l (x : result jstr Z * world) :
  work db st (Running p) db st [Running q] →
  (let '(r, w) := x in
   rtc sys_step {| s_db := db; s_live := st; s_threads := Running q :: l |} {| s_db := w.1; s_live := w.2; s_threads := finished r :: l |}) →
  let '(r, w) := x in
  rtc sys_step {| s_db := db; s_live := st; s_threads := Running p :: l |} {| s_db := w.1; s_live := w.2; s_threads := finished r :: l |}.
Proof. intros Hw. destruct x as [r w]. intros H. eapply rtc_l; [| exact H]. by apply one_step. Qed.
Lemma run_alone_steps now p db st l :
  let '(r, w) := run_alone now p (db, st) in
  rtc sys_step {| s_db := db; s_live := st; s_threads := Running p :: l |} {| s_db := w.1; s_live := w.2; s_threads := finished r :: l |}.
Proof.
  revert db st. induction p as [a|e|c k IH|k IH|u k IH|k IH|h k IH|t k IH]; intros db st; cbn [run_alone]; try done.
  - assert (Hx : rtc sys_step {| s_db := db; s_live := st; s_threads := Running (Act c k) :: l |}
      (let '(x, w) := serve now c (db, st) in {| s_db := w.1; s_live := w.2; s_threads := Running (k x) :: l |})).
    { destruct c as [u n|changes|changes]; cbn [serve].
      - apply rtc_once, one_step, work_list.
      - destruct (_ || _) eqn:E.
        + apply rtc_once, one_step, work_refuse. apply orb_true_iff in E as [->%Nat.eqb_eq%nil_length_inv | ?%Nat.ltb_lt]; auto.
        + apply orb_false_iff in E as [H1%Nat.eqb_neq H2%Nat.ltb_ge]. eapply rtc_l; [apply one_step, work_post; [by intros -> | done] |].
          generalize (post_steps now [] changes k db st l). cbn [fst snd]. by destruct (post_changes now [] changes st).
      - cbn [fst snd]. destruct (acknowledgeClientSyncs changes db) as [[n db']|] eqn:E; apply rtc_once, one_step; [by apply work_ack | apply work_fail]. }
    destruct (serve now c (db, st)) as [x [db' st']]. generalize (IH x db' st'). destruct (run_alone now (k x) (db', st')) as [r w]. intros H. by etrans.
  - eapply quiet_step; [constructor | apply IH].
  - eapply quiet_step; [constructor | apply IH].
  - eapply quiet_step; [constructor | apply IH].
  - eapply quiet_step; [constructor | apply IH].
Qed.

(** *** Retries *)

(** @worker/src/index.ts:953-953 runScheduled (client synchronization) *)
Definition cron_options : sync_options := {| so_uuids := None; so_limit := Some 10; so_drain := false |}.
Definition retry (now : Z) (w : world) : world := (run_alone now (synchronizePendingClientChanges true cron_options) w).2.
(** The live object can read the change: the node has a uuid and, if there is a row,
    credentials. *)
Definition deliverable (db : database) (u : jstr) : bool :=
  nonempty (trim u) && match rows db !! u with Some row => nonempty (trim (row_hash sha256 row)) | None => true end.

Lemma revision_text r : 0 < r < 10 ^ 20 → parse_revision (dec_Z r) = Some r ∧ decimal (dec_Z r) = true.
Proof.
  intros Hr. assert (Hl : (length (dec_nat r) ≤ 20)%nat) by (apply (dec_digits_length _ r 20); [lia |]; change (10 ^ Z.of_nat 20) with (10 ^ 20); lia).
  destruct (dec_nat_spec r) as (Hv & Hd & Hne); [lia |].
  assert (Hh : ∀ d l, dec_nat r = d :: l → d ≠ 48%N).
  { intros d l. apply dec_digits_head. split; [lia |]. rewrite Nat2Z.inj_succ, Z2Nat.id by apply Z.log2_nonneg. apply Z.log2_spec. lia. }
  unfold parse_revision, decimal. rewrite dec_Z_units by lia. destruct (dec_nat r) as [|d l]; [done |]. cbn [forallb length] in *.
  apply andb_true_iff in Hd as [-> ->]. rewrite (proj2 (N.eqb_neq _ _) (Hh d l eq_refl)). cbn [andb negb].
  replace (length l <=? 19)%nat with true by (symmetry; apply Nat.leb_le; lia). by rewrite Hv.
Qed.
(** A change the live object can read. *)
Lemma readable log latest db e :
  db_ok log latest db → sequence db < 10 ^ 20 → queue db !! e.1 = Some e.2 → deliverable db e.1 = true →
  is_Some (read_change (pending_fields
    (let p := pending_entry sha256 db e in {| pd_uuid := pd_uuid p; pd_revision := pd_revision p; pd_client := normalizeClientBooleans (pd_client p) |}))).
Proof.
  destruct e as [v r]. cbn [fst snd pending_entry pd_uuid pd_revision pd_client]. intros Hdb Hseq Hq [Hv Hrow]%andb_true_iff.
  apply (queue_latest _ _ _ Hdb) in Hq. destruct (latest_hash _ _ _ Hdb v r Hq) as (Hr & _ & Htidy).
  destruct (revision_text r) as [Hp _]; [lia |]. unfold read_change. replace (stringField _ "uuid") with v by done.
  replace (stringField _ "revision") with (dec_Z r) by done. rewrite Hp, Hv. cbn [negb orb].
  change (fld _ "client") with (normalizeClientBooleans match rows db !! v with
    Some row => JObj (spread (spread row [("uuid", JStr v)]) [("token", JStr ""); ("token_hash", JStr (row_hash sha256 row))]) | None => JNull end).
  destruct (rows db !! v) as [row|]; [| by eexists]. change (is_null _) with false. cbn [negb andb].
  set (client := normalizeClientBooleans _).
  assert (H1 : stringField (as_object client) "uuid" = v) by (unfold stringField, client; by rewrite (pending_record row v "uuid" (JStr v)) by auto).
  assert (H2 : stringField (as_object client) "token_hash" = row_hash sha256 row).
  { unfold stringField, client. by rewrite (pending_record row v "token_hash" (JStr (row_hash sha256 row))) by auto. }
  unfold normalizeAgentAuthSnapshot. change (is_object client) with true. cbn [negb]. rewrite H1, H2, Hv, Hrow. cbn [negb orb].
  unfold s_uuid, stringField. cbn. rewrite Htidy, jeq_refl. by eexists.
Qed.

Lemma deliver_status now st body : revisions_ok st → is_Some (read_change body) → (applyClientSynchronization date_parse now body st).1.1 = 200.
Proof.
  intros Hok [c Hc]. unfold applyClientSynchronization. rewrite Hc. destruct (superseded c st) eqn:Es; [unfold apply_change; by rewrite Es |].
  by destruct (apply_change_spec date_parse now c st Hok (read_change_ok _ _ Hc) Es) as (st' & -> & _).
Qed.
Lemma post_changes_ok now d t st :
  revisions_ok st → Forall (λ p, is_Some (read_change (pending_fields p))) t → (post_changes now d t st).1 = applied_reply (d ++ t).
Proof.
  intros Hok Ht. revert d st Hok. induction Ht as [|p t Hp Ht IH]; intros d st Hok; cbn [post_changes]; [by rewrite app_nil_r |].
  pose proof (deliver_status now st _ Hok Hp) as Hs. pose proof (step_revisions_ok date_parse now (Deliver (pending_fields p)) st Hok) as Hok'.
  cbn [LiveSync.step] in Hok'. destruct (applyClientSynchronization _ _ _ _) as [[status b] st']. cbn [fst snd] in Hs, Hok'. subst status.
  change (200 =? 200) with true. cbv iota. rewrite IH by done. by rewrite <- (assoc_L (++)).
Qed.
Lemma post_changes_refused now d t st :
  Exists (λ p, read_change (pending_fields p) = None) t → rp_ok (post_changes now d t st).1 = false.
Proof.
  revert d st. induction t as [|p t IH]; intros d st H; [by apply Exists_nil in H |]. cbn [post_changes].
  destruct (applyClientSynchronization _ _ _ _) as [[status b] st'] eqn:E. destruct (status =? 200) eqn:Es.
  - apply Exists_cons in H as [H | H]; [| by apply IH]. unfold applyClientSynchronization in E. rewrite H in E. injection E as <- _ _. done.
  - apply Z.eqb_neq in Es. by eapply apply_status.
Qed.
Lemma some_differ_same l : some_differ (map (λ p, JObj [("uuid", JStr (pd_uuid p)); ("revision", JStr (pd_revision p))]) l) l = Ok false.
Proof.
  induction l as [|p l IH]; [done |]. cbn [map some_differ as_object].
  change (fld _ "uuid") with (JStr (pd_uuid p)). change (fld _ "revision") with (JStr (pd_revision p)). cbn [strict_eq]. by rewrite !jeq_refl.
Qed.
Lemma applied_accepted l : refused_batch (applied_reply l) (default JNull (rp_json (applied_reply l))) l = Ok false.
Proof.
  unfold refused_batch. cbn [rp_json applied_reply default as_object]. change (rp_ok _) with true. change (fld _ "success") with (JBool true).
  change (fld _ "applied") with (JArr (map (λ p, JObj [("uuid", JStr (pd_uuid p)); ("revision", JStr (pd_revision p))]) l)).
  cbn [negb orb is_bool Bool.eqb]. rewrite length_map, Nat.eqb_refl. apply some_differ_same.
Qed.
Lemma acknowledge_listed l n db :
  NoDup (map fst l) → (∀ e, e ∈ l → queue db !! e.1 = Some e.2) →
  ∃ db', fold_left acknowledge (map (λ e : jstr * Z, (e.1, dec_Z e.2)) l) (n, db) = (n + Z.of_nat (length l), db')
    ∧ rows db' = rows db ∧ sequence db' = sequence db ∧ queue db' = filter (λ e, e.1 ∉ map fst l) (queue db).
Proof.
  revert n db. induction l as [|[u r] l IH]; intros n db Hnd Hq; cbn [map fold_left length].
  - exists db. split; [f_equal; cbn; lia |]. split_and!; try done. symmetry. apply map_filter_id. intros u r _. cbn. by apply not_elem_of_nil.
  - cbn [map fst] in Hnd. apply NoDup_cons in Hnd as [Hu Hnd]. cbn [acknowledge fst snd]. pose proof (Hq (u, r) ltac:(left)) as Hr. cbn [fst snd] in Hr. rewrite Hr, jeq_refl.
    destruct (IH (n + 1) {| rows := rows db; queue := delete u (queue db); sequence := sequence db |} Hnd) as (db' & -> & H1 & H2 & H3).
    { intros e He. cbn [queue]. rewrite lookup_delete_ne; [apply Hq; by right |]. intros ->. apply Hu, list_elem_of_fmap. by exists e. }
    exists db'. split; [f_equal; lia |]. split_and!; [done | done |]. rewrite H3. cbn [queue]. apply map_eq. intros v. cbn [fst].
    apply option_eq. intros z. rewrite !map_lookup_filter_Some, lookup_delete_Some. cbn [fst map]. rewrite not_elem_of_cons. naive_solver.
Qed.

Lemma filter_keys_nodup {V} (f : jstr * V → bool) l : NoDup (map fst l) → NoDup (map fst (List.filter f l)).
Proof.
  induction l as [|e l IH]; [done |]. cbn [map List.filter]. intros [He Hl]%NoDup_cons. destruct (f e); [| auto]. cbn [map].
  apply NoDup_cons. split; [| auto]. intros (x & Ex & [Hx _]%list_elem_of_In%filter_In)%list_elem_of_fmap. apply He, list_elem_of_fmap.
  exists x. split; [done | by apply list_elem_of_In].
Qed.
Lemma pending_rows_nodup u l db : NoDup (map fst (pending_rows u l db)).
Proof.
  unfold pending_rows. rewrite <- firstn_map. set (m := map fst (stable_sort _ _)).
  assert (Hm : NoDup m).
  { unfold m. change (map fst) with (fmap (M := list) (fst : jstr * Z → jstr)). rewrite stable_sort_perm. apply filter_keys_nodup, NoDup_fst_map_to_list. }
  rewrite <- (take_drop (Z.to_nat (Z.min (Z.max l 1) 200)) m) in Hm. by apply NoDup_app in Hm as [Hm _].
Qed.
Lemma pending_all l db : length (pending_rows None l db) = Nat.min (Z.to_nat (Z.min (Z.max l 1) 200)) (size (queue db)).
Proof.
  unfold pending_rows. rewrite length_take, (Permutation_length (stable_sort_perm _ _)). f_equal.
  assert (H : ∀ m : list (jstr * Z), List.filter (λ _, true) m = m) by (induction m as [|x m IH]; [done | cbn; by rewrite IH]).
  rewrite H. apply length_map_to_list.
Qed.

Definition listed_of (db : database) (e : jstr * Z) : pending :=
  let p := pending_entry sha256 db e in {| pd_uuid := pd_uuid p; pd_revision := pd_revision p; pd_client := normalizeClientBooleans (pd_client p) |}.
Definition taken (l : list (jstr * Z)) (db : database) : gmap jstr Z := filter (λ e, e.1 ∉ map fst l) (queue db).
Lemma taken_size l db : NoDup (map fst l) → (∀ e, e ∈ l → queue db !! e.1 = Some e.2) → size (taken l db) = (size (queue db) - length l)%nat.
Proof.
  clear date_parse sha256.
  intros Hnd Hq. assert (Hd : dom (taken l db) = dom (queue db) ∖ list_to_set (C := gset jstr) (map fst l)).
  { apply set_eq. intros u. rewrite elem_of_difference, !elem_of_dom, elem_of_list_to_set. unfold taken, is_Some.
    setoid_rewrite map_lookup_filter_Some. cbn [fst]. naive_solver. }
  rewrite <- !(size_dom (D := gset jstr)), Hd, size_difference, size_list_to_set, length_map; [done | done |].
  intros u (e & -> & He)%elem_of_list_to_set%list_elem_of_fmap. apply elem_of_dom. rewrite (Hq e He). by eexists.
Qed.
(** A worker that runs alone applies and acknowledges what it lists. *)
Lemma batch_alone now o n total db st log latest :
  let l := pending_rows (so_uuids o) (sync_limit o) db in
  db_ok log latest db → revisions_ok st → sequence db < 10 ^ 20 → (∀ e, e ∈ l → deliverable db e.1 = true) → l ≠ [] →
  ∃ db' st', run_alone now (sync_batches o (S n) total) (db, st) = run_alone now (sync_batches o n (total + Z.of_nat (length l))) (db', st')
    ∧ rows db' = rows db ∧ sequence db' = sequence db ∧ queue db' = taken l db.
Proof.
  cbv zeta. intros Hdb Hok Hseq Hdel Hne. cbn [sync_batches act bind run_alone serve fst snd].
  set (l := pending_rows (so_uuids o) (sync_limit o) db) in *.
  assert (Hl : listPendingClientSyncs sha256 (so_uuids o) (sync_limit o) db = map (listed_of db) l) by done. rewrite Hl, length_map.
  assert (Hlen : (length l ≤ 200)%nat) by (unfold l, pending_rows; rewrite length_take; lia).
  assert (Hq : ∀ e, e ∈ l → queue db !! e.1 = Some e.2) by (intros e He; by apply pending_rows_queue in He as [He _]).
  destruct (length l =? 0)%nat eqn:E0; [by apply Nat.eqb_eq, nil_length_inv in E0 |]. cbn [act bind run_alone serve fst snd].
  rewrite length_map, E0. replace (200 <? length l)%nat with false by (symmetry; by apply Nat.ltb_ge). cbn [orb].
  pose proof (post_changes_ok now [] (map (listed_of db) l) st Hok) as Hp.
  destruct (post_changes now [] (map (listed_of db) l) st) as [r st1]. cbn [fst snd] in Hp. rewrite Hp; clear Hp r.
  2: { apply Forall_forall. intros p (e & <- & He%list_elem_of_In)%list_elem_of_In%in_map_iff. apply (readable log latest); auto. }
  cbn [Datatypes.app bind run_alone]. rewrite applied_accepted. cbn [act bind run_alone serve fst snd]. rewrite map_map.
  destruct (acknowledge_listed l 0 db (pending_rows_nodup _ _ _) Hq) as (db' & Hf & H1 & H2 & H3).
  assert (Hack : acknowledgeClientSyncs (map (λ e, (pd_uuid (listed_of db e), pd_revision (listed_of db e))) l) db = Some (Z.of_nat (length l), db')).
  { unfold acknowledgeClientSyncs. rewrite length_map. replace (200 <? length l)%nat with false by (symmetry; by apply Nat.ltb_ge).
    cbn [orb]. destruct (existsb _ _) eqn:Ex; [| f_equal; exact Hf]. exfalso. apply existsb_true in Ex as (c & Hc & Hb).
    apply list_elem_of_In, in_map_iff in Hc as ([u z] & <- & He%list_elem_of_In). cbn in Hb. pose proof (Hq _ He) as Hu. cbn [fst snd] in Hu.
    apply (queue_latest _ _ _ Hdb) in Hu. destruct (latest_hash _ _ _ Hdb u z Hu) as (Hz & _ & Ht). specialize (Hdel _ He).
    unfold deliverable in Hdel. cbn [fst] in Hdel. rewrite Ht in Hdel. apply andb_true_iff in Hdel as [Hdel _]. rewrite Hdel in Hb. cbn [negb orb] in Hb.
    destruct (revision_text z) as [_ Hd]; [lia |]. by rewrite Hd in Hb. }
  rewrite Hack. cbn [bind run_alone fst snd]. rewrite Z.eqb_refl. cbn [negb]. exists db', st1. split; [done |]. done.
Qed.

(** What the invariant says of a node that is not queued. *)
Lemma in_step s u hash :
  inv s → queue (s_db s) !! u = None →
  match rows (s_db s) !! u with
  | Some row => isAgentCredentialCurrent u hash (auth (s_live s)) = jeq hash (trim (row_hash sha256 row))
  | None => is_Some (syncs (s_live s) !! u) → isAgentCredentialCurrent u hash (auth (s_live s)) = false
  end.
Proof.
  intros (log & latest & Hdb & [_ Hst] & Ha & _) Hq.
  assert (H : ∀ r, latest !! u = Some r →
            isAgentCredentialCurrent u hash (auth (s_live s)) = match hash_now (s_db s) u with Some h => jeq hash h | None => false end).
  { intros r Hr. destruct (Hst _ _ _ (Ha u r Hr Hq)) as (h & Hh & Hsec). destruct (latest_hash _ _ _ Hdb u r Hr) as (_ & Hl & _).
    rewrite Hl in Hh. injection Hh as <-. by apply secured_current, Hsec. }
  unfold hash_now in H. destruct (rows (s_db s) !! u) as [row|] eqn:Er.
  - destruct (row_latest _ _ _ Hdb u) as [r Hr]; [by rewrite Er |]. by apply (H r).
  - intros [[r b] Hs]. destruct (Hst _ _ _ Hs) as (h & Hh & _). apply (log_latest _ _ _ Hdb) in Hh as (l & Hl & _). by apply (H l).
Qed.

Lemma run_reachable now p s :
  reachable s → (∃ o, p = synchronizePendingClientChanges true o) →
  let w := (run_alone now p (s_db s, s_live s)).2 in ∃ ts, reachable {| s_db := w.1; s_live := w.2; s_threads := ts |}.
Proof.
  intros (s0 & H0 & Hs) [o ->]. cbv zeta. pose proof (run_alone_steps now (synchronizePendingClientChanges true o) (s_db s) (s_live s) (s_threads s)) as H.
  destruct (run_alone now _ (s_db s, s_live s)) as [r w]. eexists. exists s0. split; [done |]. etrans; [exact Hs |].
  eapply rtc_l; [apply (sys_start s o) | exact H].
Qed.
(** A retry takes the oldest ten changes off the queue. *)
Lemma retry_takes now s :
  reachable s → sequence (s_db s) < 10 ^ 20 → (∀ u, is_Some (queue (s_db s) !! u) → deliverable (s_db s) u = true) →
  let w := retry now (s_db s, s_live s) in
  rows w.1 = rows (s_db s) ∧ sequence w.1 = sequence (s_db s) ∧ queue w.1 = taken (pending_rows None 10 (s_db s)) (s_db s).
Proof.
  intros Hr Hseq Hdel. cbv zeta. apply reachable_inv in Hr as (log & latest & Hdb & [Hok _] & _ & _).
  unfold retry, synchronizePendingClientChanges, cron_options. cbn [negb so_drain]. set (o := {| so_uuids := None |}).
  destruct (decide (pending_rows None 10 (s_db s) = [])) as [El | Hne].
  - cbn [sync_batches act bind run_alone serve fst snd]. change (sync_limit o) with 10. cbn [so_uuids o]. unfold listPendingClientSyncs.
    rewrite El. cbn. split_and!; [done | done |]. symmetry. apply map_filter_id. intros u r _. cbn. by apply not_elem_of_nil.
  - destruct (batch_alone now o 0 0 (s_db s) (s_live s) log latest Hdb Hok Hseq) as (db' & st' & -> & H1 & H2 & H3); [| done |].
    { intros e [He _]%pending_rows_queue. apply Hdel. by eexists. }
    cbn [sync_batches]. cbn. done.
Qed.
(** An undeliverable change among them leaves all of them queued. *)
Lemma retry_stuck now db st :
  Exists (λ e, read_change (pending_fields (listed_of db e)) = None) (pending_rows None 10 db) →
  (retry now (db, st)).1 = db ∧ ∃ e, (run_alone now (synchronizePendingClientChanges true cron_options) (db, st)).1 = Err e.
Proof.
  intros Hex. unfold retry, synchronizePendingClientChanges, cron_options. cbn [negb so_drain]. set (o := {| so_uuids := None |}).
  cbn [sync_batches act bind run_alone serve fst snd]. change (sync_limit o) with 10. cbn [so_uuids o]. set (l := pending_rows None 10 db) in *.
  assert (Hl : listPendingClientSyncs sha256 None 10 db = map (listed_of db) l) by done. rewrite Hl, length_map.
  destruct (length l =? 0)%nat eqn:E0.
  { apply Nat.eqb_eq, nil_length_inv in E0. rewrite E0 in Hex. by apply Exists_nil in Hex. }
  cbn [act bind run_alone serve fst snd]. rewrite length_map, E0.
  assert (Hlen : (length l ≤ 200)%nat) by (unfold l, pending_rows; rewrite length_take; lia).
  replace (200 <? length l)%nat with false by (symmetry; by apply Nat.ltb_ge). cbn [orb].
  pose proof (post_changes_refused now [] (map (listed_of db) l) st) as Hp.
  destruct (post_changes now [] (map (listed_of db) l) st) as [r st1]. cbn [fst snd bind run_alone] in *.
  unfold refused_batch. rewrite Hp by (apply Exists_exists in Hex as (e & He & Hr); apply Exists_exists; exists (listed_of db e);
    split; [by apply list_elem_of_fmap_2 | done]). cbn. by eauto.
Qed.
End System.

(** ** Properties *)


(** Two nodes of an older version, queued by the migration. *)
Definition ex_sha256 (l : list Z) : list Z := take 2 l.
Definition ex_row (token hash : jstr) : fields := [("token", JStr token); ("token_hash", JStr hash); ("name", JStr "node")].
Definition ex_db : database :=
  {| rows := <["n1" := ex_row "" "h1"]> {["n2" := ex_row "secret" ""]}; queue := <["n1" := 1]> {["n2" := 2]}; sequence := 2 |}.
Definition ex_start : system := {| s_db := ex_db; s_live := empty_state; s_threads := [] |}.
Lemma ex_start_reachable : reachable ex_sha256 sample_dates ex_start.
Proof.
  exists ex_start. split; [| done]. split_and!; [done | done | | done | |].
  - intros u r. unfold rev_of. cbn [auth empty_state controls s_live ex_start]. by rewrite lookup_empty.
  - intros u r. cbn [s_db ex_start ex_db queue sequence]. intros [[<- <-] | [_ [<- <-]%lookup_singleton_Some]]%lookup_insert_Some; done.
  - intros u. cbn [s_db ex_start ex_db queue rows]. intros [row [[<- _] | [Hne [<- _]%lookup_singleton_Some]]%lookup_insert_Some]; by eexists.
Qed.



(** ** Changes that cannot be delivered *)

Lemma few_all_listed db e : (size (queue db) ≤ 10)%nat → queue db !! e.1 = Some e.2 → e ∈ pending_rows None 10 db.
Proof.
  intros Hs Hq. unfold pending_rows. change (Z.to_nat (Z.min (Z.max 10 1) 200)) with 10%nat.
  rewrite take_ge by (rewrite (Permutation_length (stable_sort_perm _ _)), List.filter_length_le, length_map_to_list; lia).
  rewrite stable_sort_perm. apply list_elem_of_In, filter_In. split; [| done]. apply list_elem_of_In. destruct e. by apply elem_of_map_to_list.
Qed.
Lemma blank_unreadable sha256 db e : nonempty (trim e.1) = false → read_change (pending_fields (listed_of sha256 db e)) = None.
Proof. intros H. unfold read_change. change (stringField _ "uuid") with e.1. rewrite H. by destruct (parse_revision _). Qed.
(** A removal of the node named by a tab is queued, since SQL takes off spaces only, and
    cannot be read by the live object: the retries, which take the oldest changes in one
    batch, then deliver nothing any more. *)
Theorem blank_removal_blocks_retries sha256 date_parse now db st u n :
  queue db = ∅ → u ≠ JS [9%N] →
  let db1 := transaction (cfm_delete_clients [JS [9%N]] ++ [EnqueueRow u]) db in
  rows db !! JS [9%N] = None →
  (Nat.iter n (retry sha256 date_parse now) (db1, st)).1 = db1 ∧ is_Some (queue db1 !! u).
Proof.
  intros Hq Hu. cbv zeta. intros Hr. set (db1 := transaction _ db).
  assert (Hdb : queue db1 = <[u := sequence db + 1 + 1]> {[JS [9%N] := sequence db + 1]}).
  { unfold db1, transaction. cbn. rewrite Hr. cbn. unfold enqueue_client_sync. cbn. rewrite Hq, lookup_empty. cbn.
    by rewrite lookup_insert_ne, lookup_empty by done. }
  split; [| rewrite Hdb, lookup_insert_eq; by eexists]. clearbody db1. revert st. induction n as [|n IH]; intros st; [done |].
  rewrite Nat.iter_succ_r. destruct (retry_stuck sha256 date_parse now db1 st) as [H _].
  - apply Exists_exists. exists (JS [9%N], sequence db + 1). split; [| by apply blank_unreadable]. apply few_all_listed.
    + rewrite Hdb. rewrite map_size_insert_None, map_size_singleton; [lia | by rewrite lookup_singleton_ne].
    + rewrite Hdb, lookup_insert_ne by done. apply lookup_singleton_eq.
  - destruct (retry sha256 date_parse now (db1, st)) as [db2 st2]. cbn [fst] in H. subst db2. apply IH.
Qed.

(** A removal of the node named by [n1] behind a space, which no row has, detaches the
    node [n1] all the same: the live object trims the uuid it reads. *)
Lemma spaced_removal_detaches :
  let w := retry ex_sha256 sample_dates 1 (ex_db, empty_state) in
  let db := transaction (cfm_delete_clients [" n1" : jstr]) w.1 in
  let w' := retry ex_sha256 sample_dates 2 (db, w.2) in
  queue w'.1 = ∅ ∧ rows w'.1 !! ("n1" : jstr) = Some (ex_row "" "h1")
  ∧ isAgentCredentialCurrent "n1" "h1" (auth w.2) = true ∧ isAgentCredentialCurrent "n1" "h1" (auth w'.2) = false.
Proof. vm_compute. split_and!; reflexivity. Qed.
