(* ===== verification/Backup.v ===== *)
(** * Configuration backups: [utils/backup.ts], [utils/backup-snapshot.ts]

    The validation of a backup to restore or to export, which collects every
    error in the order the code reports them, and its encryption under a password.
    Key derivation and AES-GCM are the platform's: a class of parameters. *)

From S2P Require Import Prelude JsStr JsNum JsVal JsBytes JsJson Net PingTask Settings Website.
#[local] Open Scope Z_scope.

(** ** Constants *)

(** @worker/src/utils/backup.ts:15-27 constants *)
Definition BACKUP_SCHEMA_ID : jstr := "cf-monitor.backup".
Definition ENCRYPTED_BACKUP_SCHEMA_ID : jstr := "cf-monitor.encrypted-backup".
Definition BACKUP_VERSION : jstr := "2.0.0".
Definition BACKUP_SCOPE : jstr := "configuration".
(** @worker/src/utils/backup.ts:19-19 BACKUP_SENSITIVE_WARNING *)
Definition BACKUP_SENSITIVE_WARNING : jstr :=
  "This backup may contain client tokens, AutoDiscovery Key, Telegram credentials, and other configuration secrets. Store it securely.".
Definition BACKUP_ENCRYPTION_ALGORITHM : jstr := "AES-GCM".
Definition BACKUP_KDF : jstr := "PBKDF2-SHA256".
Definition BACKUP_KDF_ITERATIONS : Z := 100000.
Definition BACKUP_SALT_BYTES : nat := 16.
Definition BACKUP_IV_BYTES : nat := 12.
Definition MIN_BACKUP_DECRYPT_PASSWORD_BYTES : Z := 6.
Definition MIN_BACKUP_ENCRYPT_PASSWORD_BYTES : Z := 6.
Definition MAX_BACKUP_PASSWORD_BYTES : Z := 1024.
(** @worker/src/utils/backup.ts:28-40 BACKUP_EXCLUDED_MODULES *)
Definition BACKUP_EXCLUDED_MODULES : list jstr :=
  ["users"; "records"; "gpu_records"; "gpu_snapshots"; "ping_records"; "ping_snapshots"; "website_checks"; "website_monitor_health";
   "themes"; "theme_assets"; "audit_logs"].
(** @worker/src/utils/backup.ts:43-46 limits *)
Definition MAX_CLIENTS : nat := 1000.
Definition MAX_PING_TASKS : nat := 1000.
Definition MAX_WEBSITE_MONITORS : nat := 1000.
Definition MAX_NOTIFICATIONS : nat := 5000.

(** ** Collecting errors

    Every validator pushes to one array of errors while it computes a value; [W A]
    is the value and what was pushed, in order. *)

Definition W (A : Type) : Type := A * list jstr.
Definition wret {A} (a : A) : W A := (a, []).
Definition wbind {A B} (m : W A) (f : A → W B) : W B := let '(a, e1) := m in let '(b, e2) := f a in (b, e1 ++ e2).
#[local] Notation "'let+' x ':=' m 'in' k" := (wbind m (λ x, k))
  (at level 10, x name, m at level 200, k at level 200, right associativity).
#[local] Notation "'let+' ( x , y ) ':=' m 'in' k" := (wbind m (λ p, let (x, y) := p in k))
  (at level 10, x name, y name, m at level 200, k at level 200, right associativity).
(** [errors.push(e)], [if (b) errors.push(e)] *)
Definition push (e : jstr) : W unit := (tt, [e]).
Definition push_if (b : bool) (e : jstr) : W unit := if b then push e else wret tt.

Section Loops.
Context {A B C : Type}.
Fixpoint mapW (f : A → W B) (l : list A) : W (list B) :=
  match l with
  | [] => wret []
  | x :: r => let+ y := f x in let+ ys := mapW f r in wret (y :: ys)
  end.
Fixpoint foldW (f : B → A → W B) (l : list A) (acc : B) : W B :=
  match l with
  | [] => wret acc
  | x :: r => let+ acc := f acc x in foldW f r acc
  end.
(** [items.flatMap((item, index) => ...)], with what the closure keeps. *)
Fixpoint flatMapW (f : nat → C → A → W (list B * C)) (i : nat) (st : C) (l : list A) : W (list B) :=
  match l with
  | [] => wret []
  | x :: r => let+ (ys, st) := f i st x in let+ rest := flatMapW f (S i) st r in wret (ys ++ rest)
  end.
End Loops.

(** [`${key}[${index}]`] *)
Definition entry (key : jstr) (index : nat) : jstr := key +++ "[" +++ dec_Z (Z.of_nat index) +++ "]".

(** ** Fields *)

(** @worker/src/utils/backup.ts:116-118 isPlainObject *)
Definition isPlainObject (value : jsval) : bool := is_object value.

(** @worker/src/utils/backup.ts:185-190 toText *)
Definition toText (value : jsval) : option jstr :=
  match value with
  | JStr s => Some s
  | JNum n => if is_finite n then Some (num_str n) else None
  | JBool b => Some (if b then "true" else "false" : jstr)
  | _ => None
  end.

(** @worker/src/utils/backup.ts:192-217 textField *)
Definition textField (value : jsval) (field : jstr) (required : bool) (maxLength : option Z) : W (option jstr) :=
  if is_undef value || is_null value then
    let+ _ := push_if required (field +++ " 必填") in wret None
  else
    match toText value with
    | None => let+ _ := push (field +++ " 必须是字符串") in wret None
    | Some text =>
      if match maxLength with Some m => m <? slen text | None => false end then
        let+ _ := push (field +++ " 超过最大长度 " +++ dec_Z (default 0 maxLength)) in wret None
      else if required && jeq (trim text) "" then
        let+ _ := push (field +++ " 不能为空") in wret None
      else wret (Some text)
    end.

(** @worker/src/utils/backup.ts:219-234 numberField *)
Definition numberField (value : jsval) (field : jstr) (fallback : num) (min max : Z) : W num :=
  if is_blank value then wret fallback
  else
    let numberValue := match value with JNum n => n | _ => str_num (trim (to_str value)) end in
    if negb (is_finite numberValue) || num_lt numberValue min || num_lt max numberValue then
      let+ _ := push (field +++ " 必须在 " +++ dec_Z min +++ " 到 " +++ dec_Z max +++ " 之间") in wret fallback
    else wret numberValue.

(** @worker/src/utils/backup.ts:236-250 integerField *)
Definition integerField (value : jsval) (field : jstr) (fallback : num) (min max : Z) : W num :=
  let+ numberValue := numberField value field fallback min max in
  if negb (is_integer numberValue) then
    let+ _ := push (field +++ " 必须是整数") in wret fallback
  else wret numberValue.

(** @worker/src/utils/backup.ts:252-261 booleanField -- [fallback] is [false] in every call *)
Definition booleanField (value : jsval) : bool :=
  match value with
  | JBool b => b
  | JNum n => negb (num_eqb n (of_Z 0))
  | JStr s =>
    let normalized := lower (trim s) in
    if jeq normalized "true" || jeq normalized "1" then true else false
  | _ => false
  end.

(** [textField(...) || fallback] *)
Definition text_or (t : option jstr) (fallback : jstr) : jstr := match t with Some s => or_str s fallback | None => fallback end.

(** @worker/src/utils/backup.ts:283-286 stringArrayField (items) *)
Definition string_items (source : list jsval) (field : jstr) (maxItems : nat) : W (list jstr) :=
  let+ texts := mapW (λ item, textField item field false (Some 128)) (take maxItems source) in
  wret (omap (λ t, match t with Some s => if nonempty (trim s) then Some s else None | None => None end) texts).
(** @worker/src/utils/backup.ts:263-287 stringArrayField *)
Definition stringArrayField (value : jsval) (field : jstr) (maxItems : nat) : W (list jstr) :=
  match match value with JStr s => json_parse s | _ => Some value end with
  | None => let+ _ := push (field +++ " 必须是字符串数组") in wret []
  | Some (JUndef | JNull) => wret []
  | Some (JArr source) =>
    let+ _ := push_if (maxItems <? length source)%nat (field +++ " 超过最大数量 " +++ dec_Z (Z.of_nat maxItems)) in
    string_items source field maxItems
  | Some _ => let+ _ := push (field +++ " 必须是数组") in wret []
  end.

(** @worker/src/utils/backup.ts:289-292 optionalTimeField -- [null] or a text *)
Definition optionalTimeField (value : jsval) (field : jstr) : W jsval :=
  if is_blank value then wret JNull
  else let+ t := textField value field false (Some 64) in wret (match t with Some s => JStr s | None => JNull end).

(** @worker/src/utils/backup.ts:294-310 requireArray *)
Definition requireArray (body : fields) (key : jstr) (maxItems : nat) : W (option (list jsval)) :=
  match fld body key with
  | JUndef => wret None
  | JArr value =>
    let+ _ := push_if (maxItems <? length value)%nat (key +++ " 超过最大数量 " +++ dec_Z (Z.of_nat maxItems)) in
    wret (Some (take maxItems value))
  | _ => let+ _ := push (key +++ " 必须是数组") in wret None
  end.

(** ** Clients *)

(** @worker/src/utils/backup.ts:318-323 stringFields *)
Definition stringFields : list jstr :=
  ["uuid"; "token"; "token_hash"; "name"; "cpu_name"; "virtualization"; "arch"; "os";
   "kernel_version"; "gpu_name"; "ipv4"; "ipv6"; "region"; "remark";
   "public_remark"; "version"; "currency"; "expired_at"; "group"; "tags";
   "traffic_limit_type"; "token_last_used_at"; "token_last_used_ip"; "token_rotated_at"; "created_at"; "updated_at"].
(** @worker/src/utils/backup.ts:324-327 numberFields *)
Definition numberFields : list jstr :=
  ["cpu_cores"; "mem_total"; "swap_total"; "disk_total"; "price"; "billing_cycle"; "traffic_limit"; "sort_order"].
(** @worker/src/utils/backup.ts:328-328 booleanFields *)
Definition booleanFields : list jstr := ["auto_renewal"; "hidden"].

(** @worker/src/utils/backup.ts:337-343 validateClients (strings) *)
Definition client_text (item : fields) (at_ : jstr) (client : fields) (field : jstr) : W fields :=
  let+ text := textField (fld item field) (at_ +++ "." +++ field) (jeq field "uuid")
                 (Some (if jeq field "token" || jeq field "token_hash" then 256 else 512)) in
  wret (match text with Some t => set_field field (JStr t) client | None => client end).
(** @worker/src/utils/backup.ts:344-347 validateClients (numbers) *)
Definition client_number (item : fields) (at_ : jstr) (client : fields) (field : jstr) : W fields :=
  let min := if jeq field "billing_cycle" || jeq field "price" then -1 else 0 in
  let+ n := numberField (fld item field) (at_ +++ "." +++ field) (of_Z 0) min max_safe in
  wret (set_field field (JNum n) client).
(** @worker/src/utils/backup.ts:348-350 validateClients (booleans) *)
Definition client_boolean (item : fields) (client : fields) (field : jstr) : fields :=
  set_field field (JBool (booleanField (fld item field))) client.
(** @worker/src/utils/backup.ts:336-361 validateClients (one client) *)
Definition client_fields (item : fields) (at_ : jstr) : W fields :=
  let+ client := foldW (client_text item at_) stringFields [] in
  let+ client := foldW (client_number item at_) numberFields client in
  let client := fold_left (client_boolean item) booleanFields client in
  let+ day := numberField (fld item "traffic_reset_day") (at_ +++ ".traffic_reset_day") (of_Z 1) 1 31 in
  wret (set_field "traffic_reset_day" (JNum day) client).

(** What the loop has seen: the identifiers, the tokens and their hashes. *)
Record seen := { s_uuids : list jstr; s_tokens : list jstr; s_hashes : list jstr }.
Definition nothing_seen : seen := {| s_uuids := []; s_tokens := []; s_hashes := [] |}.
(** @worker/src/utils/backup.ts:366-369 validateClients (uniqueness) *)
Definition see (label v : jstr) (s : list jstr) : W (list jstr) :=
  if nonempty v then
    let+ _ := push_if (mem v s) ("clients " +++ label +++ " 重复: " +++ v) in wret (v :: s)
  else wret s.
(** [String(client[key] || '')] *)
Definition text_of (client : fields) (key : jstr) : jstr := to_str (js_or (fld client key) (JStr "")).
(** @worker/src/utils/backup.ts:330-380 validateClients (loop body) *)
Definition validate_client (i : nat) (s : seen) (item : jsval) : W (list jsval * seen) :=
  match item with
  | JObj item =>
    let+ client := client_fields item (entry "clients" i) in
    let+ uuids := see "uuid" (text_of client "uuid") (s_uuids s) in
    let+ tokens := see "token" (text_of client "token") (s_tokens s) in
    let+ hashes := see "token_hash" (text_of client "token_hash") (s_hashes s) in
    wret ([JObj client], {| s_uuids := uuids; s_tokens := tokens; s_hashes := hashes |})
  | _ => let+ _ := push (entry "clients" i +++ " 必须是对象") in wret ([], s)
  end.
(** @worker/src/utils/backup.ts:312-383 validateClients *)
Definition validateClients (items : list jsval) : W (list jsval) := flatMapW validate_client 0 nothing_seen items.

Section Validate.
Context (URL : jstr → option url).

(** ** Ping tasks *)

(** The properties of a validated task, in order. *)
Definition task_fields (t : ping_task) : fields :=
  [("name", JStr (pt_name t)); ("clients", JArr (map JStr (pt_clients t))); ("all_clients", JBool (pt_all_clients t));
   ("type", JStr (pt_type t)); ("target", JStr (pt_target t)); ("interval_sec", JNum (pt_interval_sec t))].
(** @worker/src/utils/backup.ts:392-394 validatePingTasks (id) -- the same for the
    other modules *)
Definition optional_id (item : fields) (field : jstr) : W jsval :=
  if is_undef (fld item "id") then wret JUndef
  else let+ id := integerField (fld item "id") field (of_Z 0) 1 max_safe in wret (JNum id).
(** @worker/src/utils/backup.ts:386-415 validatePingTasks (one task) *)
Definition validate_ping_task (i : nat) (s : unit) (item : jsval) : W (list jsval * unit) :=
  let at_ := entry "ping_tasks" i in
  match item with
  | JObj item =>
    let+ id := optional_id item (at_ +++ ".id") in
    let+ name := textField (fld item "name") (at_ +++ ".name") false (Some 128) in
    let+ clients := stringArrayField (fld item "clients") (at_ +++ ".clients") MAX_CLIENTS in
    let all_clients := booleanField (fld item "all_clients") in
    let+ type := textField (fld item "type") (at_ +++ ".type") false (Some 16) in
    let+ target := textField (fld item "target") (at_ +++ ".target") false (Some 512) in
    let+ interval_sec := integerField (coalesce (fld item "interval_sec") (fld item "interval")) (at_ +++ ".interval_sec") (of_Z 60) 60 86400 in
    let+ sort_order := integerField (fld item "sort_order") (at_ +++ ".sort_order") (of_Z (Z.of_nat i + 1)) 1 max_safe in
    let candidate :=
      [("name", JStr (text_or name "")); ("clients", JArr (map JStr clients)); ("all_clients", JBool all_clients);
       ("type", JStr (text_or type "icmp")); ("target", JStr (text_or target "")); ("interval_sec", JNum interval_sec);
       ("sort_order", JNum sort_order)] in
    match validatePingTaskInput URL (JObj candidate) None with
    | TaskErr errors => (([], s), map (λ error, at_ +++ ": " +++ error) errors)
    | TaskOk task => wret ([JObj ([("id", id)] ++ task_fields task ++ [("sort_order", JNum sort_order)])], s)
    end
  | _ => let+ _ := push (at_ +++ " 必须是对象") in wret ([], s)
  end.
(** @worker/src/utils/backup.ts:385-416 validatePingTasks *)
Definition validatePingTasks (items : list jsval) : W (list jsval) := flatMapW validate_ping_task 0 tt items.

(** ** Website monitors *)

(** @worker/src/utils/backup.ts:418-438 websiteMonitorConfiguration *)
Definition websiteMonitorConfiguration (monitor : fields) : jsval :=
  JObj (map (λ k, (k, fld monitor k))
    ["id"; "name"; "url"; "method"; "expected_status_min"; "expected_status_max"; "interval_sec"; "timeout_sec"; "grace_period_sec";
     "enabled"; "hidden"; "hide_url"; "agent_probe_mode"; "agent_probe_clients"; "agent_probe_limit"; "agent_probe_status_enabled"; "sort_order"]).

Definition method_text (m : method) : jstr := match m with GET => "GET" | HEAD => "HEAD" | TCP => "TCP" end.
Definition mode_text (m : probe_mode) : jstr := match m with Off => "off" | Selected => "selected" | Country_auto => "country_auto" end.
(** The properties of a validated monitor, in order. *)
Definition monitor_fields (v : monitor_input) : fields :=
  [("name", JStr (mi_name v)); ("url", JStr (mi_url v)); ("method", JStr (method_text (mi_method v)));
   ("expected_status_min", JNum (mi_status_min v)); ("expected_status_max", JNum (mi_status_max v));
   ("interval_sec", JNum (mi_interval v)); ("timeout_sec", JNum (mi_timeout v)); ("grace_period_sec", JNum (mi_grace v));
   ("enabled", JBool (mi_enabled v)); ("hidden", JBool (mi_hidden v)); ("hide_url", JBool (mi_hide_url v));
   ("agent_probe_mode", JStr (mode_text (mi_probe_mode v))); ("agent_probe_clients", JArr (map JStr (mi_probe_clients v)));
   ("agent_probe_limit", JNum (mi_probe_limit v)); ("agent_probe_status_enabled", JBool (mi_probe_status v))].

(** [clientIds.has(agent)] *)
Definition has_client (clients : list jsval) (agent : jstr) : bool := existsb (λ c, is_str (fld (as_object c) "uuid") agent) clients.
(** @worker/src/utils/backup.ts:443-473 validateWebsiteMonitors (one monitor) *)
Definition validate_website_monitor (clients : option (list jsval)) (i : nat) (ids : list num) (item : jsval) : W (list jsval * list num) :=
  let field := entry "website_monitors" i in
  match item with
  | JObj item =>
    let+ id := optional_id item (field +++ ".id") in
    let+ ids := match id with
                | JNum id => let+ _ := push_if (existsb (num_eqb id) ids) (field +++ ".id 重复: " +++ num_str id) in wret (id :: ids)
                | _ => wret ids
                end in
    let mode := fld item "agent_probe_mode" in
    let+ _ := push_if (negb (is_undef mode) && negb (mem (to_str mode) ["off"; "selected"; "country_auto"])) (field +++ ".agent_probe_mode 无效") in
    let+ agents := stringArrayField (fld item "agent_probe_clients") (field +++ ".agent_probe_clients") 100 in
    let+ _ := match clients with
              | Some clients =>
                mapW (λ agent, push_if (negb (has_client clients agent)) (field +++ ".agent_probe_clients 引用了不存在的节点: " +++ agent)) agents
              | None => wret []
              end in
    match validateWebsiteMonitorInput URL (set_field "agent_probe_clients" (JArr (map JStr agents)) item) with
    | Err error => let+ _ := push (field +++ ": " +++ error) in wret ([], ids)
    | Ok value =>
      let+ sort_order := integerField (fld item "sort_order") (field +++ ".sort_order") (of_Z (Z.of_nat i + 1)) 0 2147483647 in
      wret ([JObj ((if is_undef id then [] else [("id", id)]) ++ monitor_fields value ++ [("sort_order", JNum sort_order)])], ids)
    end
  | _ => let+ _ := push (field +++ " 必须是对象") in wret ([], ids)
  end.
(** @worker/src/utils/backup.ts:440-474 validateWebsiteMonitors *)
Definition validateWebsiteMonitors (items : list jsval) (clients : option (list jsval)) : W (list jsval) :=
  flatMapW (validate_website_monitor clients) 0 [] items.

(** ** Notification rules *)

(** @worker/src/utils/backup.ts:477-489 validateOfflineNotifications (one rule) *)
Definition validate_offline (i : nat) (s : unit) (item : jsval) : W (list jsval * unit) :=
  let at_ := entry "offline_notifications" i in
  match item with
  | JObj item =>
    let+ client := textField (fld item "client") (at_ +++ ".client") true (Some 128) in
    let enable := booleanField (fld item "enable") in
    let+ grace_period := integerField (fld item "grace_period") (at_ +++ ".grace_period") (of_Z 180) 30 86400 in
    let+ last_notified := optionalTimeField (fld item "last_notified") (at_ +++ ".last_notified") in
    wret ([JObj [("client", JStr (text_or client "")); ("enable", JBool enable); ("grace_period", JNum grace_period); ("last_notified", last_notified)]], s)
  | _ => let+ _ := push (at_ +++ " 必须是对象") in wret ([], s)
  end.
(** @worker/src/utils/backup.ts:476-490 validateOfflineNotifications *)
Definition validateOfflineNotifications (items : list jsval) : W (list jsval) := flatMapW validate_offline 0 tt items.

(** @worker/src/utils/backup.ts:493-505 validateExpiryNotifications (one rule) *)
Definition validate_expiry (i : nat) (s : unit) (item : jsval) : W (list jsval * unit) :=
  let at_ := entry "expiry_notifications" i in
  match item with
  | JObj item =>
    let+ client := textField (fld item "client") (at_ +++ ".client") true (Some 128) in
    let enable := booleanField (fld item "enable") in
    let+ advance_days := integerField (fld item "advance_days") (at_ +++ ".advance_days") (of_Z 7) 1 365 in
    let+ last_notified := optionalTimeField (fld item "last_notified") (at_ +++ ".last_notified") in
    wret ([JObj [("client", JStr (text_or client "")); ("enable", JBool enable); ("advance_days", JNum advance_days); ("last_notified", last_notified)]], s)
  | _ => let+ _ := push (at_ +++ " 必须是对象") in wret ([], s)
  end.
(** @worker/src/utils/backup.ts:492-506 validateExpiryNotifications *)
Definition validateExpiryNotifications (items : list jsval) : W (list jsval) := flatMapW validate_expiry 0 tt items.

Definition metrics : list jstr := ["cpu"; "ram"; "load"; "disk"; "temp"].
(** @worker/src/utils/backup.ts:510-534 validateLoadNotifications (one rule) *)
Definition validate_load (i : nat) (s : unit) (item : jsval) : W (list jsval * unit) :=
  let at_ := entry "load_notifications" i in
  match item with
  | JObj item =>
    let+ metric := textField (fld item "metric") (at_ +++ ".metric") false (Some 16) in
    let metric := text_or metric "cpu" in
    let normalizedMetric := if mem metric metrics then metric else "cpu" in
    let+ _ := push_if (negb (jeq normalizedMetric metric)) (at_ +++ ".metric 无效") in
    let+ id := optional_id item (at_ +++ ".id") in
    let+ name := textField (fld item "name") (at_ +++ ".name") false (Some 128) in
    let+ clients := stringArrayField (fld item "clients") (at_ +++ ".clients") MAX_CLIENTS in
    let+ threshold := numberField (fld item "threshold") (at_ +++ ".threshold") (of_Z 80) 0 100000 in
    let+ ratio := numberField (fld item "ratio") (at_ +++ ".ratio") (f64 (8 # 10)) 0 1 in
    let+ interval_min := integerField (fld item "interval_min") (at_ +++ ".interval_min") (of_Z 15) 1 10080 in
    let+ last_notified := optionalTimeField (fld item "last_notified") (at_ +++ ".last_notified") in
    wret ([JObj [("id", id); ("name", JStr (text_or name "")); ("clients", JArr (map JStr clients)); ("metric", JStr normalizedMetric);
                 ("threshold", JNum threshold); ("ratio", JNum ratio); ("interval_min", JNum interval_min); ("last_notified", last_notified)]], s)
  | _ => let+ _ := push (at_ +++ " 必须是对象") in wret ([], s)
  end.
(** @worker/src/utils/backup.ts:508-535 validateLoadNotifications *)
Definition validateLoadNotifications (items : list jsval) : W (list jsval) := flatMapW validate_load 0 tt items.

(** ** The whole backup *)

(** @worker/src/utils/backup.ts:576-586 validateBackup (settings) -- the settings and
    the warnings *)
Definition validate_settings (input : fields) : W (fields * list jstr) :=
  match fld input "settings" with
  | JUndef => wret ([], [])
  | v =>
    let normalized := sanitizeSettingsForStorage URL v true "" in
    (([("settings", JObj (map (λ p, (p.1, JStr p.2)) (sn_settings normalized)))],
      if bool_decide (sn_ignored normalized = []) then [] else ["已忽略移除的设置: " +++ join ", " (sn_ignored normalized)]),
     if sn_ok normalized then [] else map (λ error, "settings." +++ error) (sn_errors normalized))
  end.
(** @worker/src/utils/backup.ts:588-592 validateBackup (a module) -- the same for the
    six arrays; the property it adds, if any *)
Definition validate_module (input : fields) (key : jstr) (maxItems : nat) (validate : list jsval → W (list jsval)) : W (option (list jsval)) :=
  let+ items := requireArray input key maxItems in
  match items with
  | Some items => let+ out := validate items in wret (Some out)
  | None => wret None
  end.
Definition added (key : jstr) (m : option (list jsval)) : fields := match m with Some l => [(key, JArr l)] | None => [] end.

(** @worker/src/utils/backup.ts:565-573 validateBackup (head of the backup) *)
Definition backup_head (schema version timestamp : option jstr) : fields :=
  [("schema", JStr (text_or schema BACKUP_SCHEMA_ID)); ("version", JStr (text_or version "")); ("scope", JStr BACKUP_SCOPE);
   ("timestamp", match timestamp with Some t => JStr t | None => JUndef end);
   ("excluded", JArr (map JStr BACKUP_EXCLUDED_MODULES)); ("sensitive", JBool true); ("warning", JStr BACKUP_SENSITIVE_WARNING)].
(** @worker/src/utils/backup.ts:541-626 validateBackup (body) -- the backup and the
    warnings *)
Definition validate_body (input : fields) : W (fields * list jstr) :=
  let+ schema := textField (fld input "schema") "schema" false (Some 64) in
  let+ version := textField (fld input "version") "version" true (Some 32) in
  let+ scope := textField (fld input "scope") "scope" false (Some 32) in
  let+ timestamp := textField (fld input "timestamp") "timestamp" false (Some 64) in
  let text o := text_or o "" in
  let+ _ := push_if (nonempty (text schema) && negb (jeq (text schema) BACKUP_SCHEMA_ID)) ("schema 不支持: " +++ text schema) in
  let+ _ := push_if (nonempty (text scope) && negb (jeq (text scope) BACKUP_SCOPE)) ("scope 不支持: " +++ text scope) in
  let w1 := if nonempty (text schema) then [] else ["旧备份缺少 schema 字段，已按 version 兼容校验" : jstr] in
  let w2 := if nonempty (text scope) then [] else ["旧备份缺少 scope 字段，已按配置备份处理" : jstr] in
  let+ _ := push_if (nonempty (text version) && negb (starts_with "1." (text version)) && negb (starts_with "2." (text version)))
              ("version 不支持: " +++ text version) in
  let+ (settings, w3) := validate_settings input in
  let+ clients := validate_module input "clients" MAX_CLIENTS validateClients in
  let+ pingTasks := validate_module input "ping_tasks" MAX_PING_TASKS validatePingTasks in
  let+ offlineNotifications := validate_module input "offline_notifications" MAX_NOTIFICATIONS validateOfflineNotifications in
  let+ expiryNotifications := validate_module input "expiry_notifications" MAX_NOTIFICATIONS validateExpiryNotifications in
  let+ loadNotifications := validate_module input "load_notifications" MAX_NOTIFICATIONS validateLoadNotifications in
  let+ websiteMonitors := validate_module input "website_monitors" MAX_WEBSITE_MONITORS (λ items, validateWebsiteMonitors items clients) in
  let modules :=
    settings ++ added "clients" clients ++ added "ping_tasks" pingTasks ++ added "offline_notifications" offlineNotifications
    ++ added "expiry_notifications" expiryNotifications ++ added "load_notifications" loadNotifications
    ++ added "website_monitors" websiteMonitors in
  let+ _ := push_if (bool_decide (modules = [])) "备份至少需要包含一个可恢复模块" in
  wret (backup_head schema version timestamp ++ modules, w1 ++ w2 ++ w3).
(** @worker/src/utils/backup.ts:537-633 validateBackup *)
Definition validateBackup (input : jsval) : result (list jstr) (jsval * list jstr) :=
  match input with
  | JObj input =>
    let '((backup, warnings), errors) := validate_body input in
    if bool_decide (errors = []) then Ok (JObj backup, warnings) else Err errors
  | _ => Err ["备份内容必须是对象"]
  end.

(** @worker/src/utils/backup-snapshot.ts:13-34 buildBackupSnapshot -- from the
    configuration the database returns, its settings and the time *)
Definition buildBackupSnapshot (snapshot : fields) (settings : list (jstr * jstr)) (now : jstr) : result jstr jsval :=
  let backup :=
    [("schema", JStr BACKUP_SCHEMA_ID); ("version", JStr BACKUP_VERSION); ("scope", JStr BACKUP_SCOPE); ("timestamp", JStr now);
     ("excluded", JArr (map JStr BACKUP_EXCLUDED_MODULES)); ("sensitive", JBool true); ("clients", fld snapshot "clients");
     ("settings", JObj (map (λ p, (p.1, JStr p.2)) (buildAdminSettings URL settings))); ("ping_tasks", fld snapshot "ping_tasks");
     ("offline_notifications", fld snapshot "offline_notifications"); ("expiry_notifications", fld snapshot "expiry_notifications");
     ("load_notifications", fld snapshot "load_notifications");
     ("website_monitors", match fld snapshot "website_monitors" with
                          | JArr l => JArr (map (λ m, websiteMonitorConfiguration (as_object m)) l)
                          | v => v
                          end)] in
  match validateBackup (JObj backup) with
  | Ok (backup, _) => Ok backup
  | Err errors => Err ("备份配置校验失败，请修正配置后重试: " +++ join "；" errors)
  end.
End Validate.

(** ** Encryption *)

(** The platform's key derivation (PBKDF2 with HMAC-SHA-256, to a 256-bit key) and
    AES-GCM. *)
Class BackupCrypto := {
  crypto_key : Type;
  deriveKey : list Z → list Z → Z → crypto_key;
  gcm_encrypt : crypto_key → list Z → list Z → list Z;
  gcm_decrypt : crypto_key → list Z → list Z → option (list Z);
}.
Class BackupCryptoLaws `{BackupCrypto} := {
  gcm_roundtrip k iv m : Forall is_byte m → gcm_decrypt k iv (gcm_encrypt k iv m) = Some m;
  (* the tag is 16 bytes long *)
  gcm_bytes k iv m : Forall is_byte m → Forall is_byte (gcm_encrypt k iv m) ∧ length (gcm_encrypt k iv m) = (length m + 16)%nat;
}.

(** @worker/src/utils/backup.ts:120-127 bytesToBase64 -- the chunks of the binary
    string are concatenated *)
Definition bytesToBase64 (bytes : list Z) : jstr := JS (btoa bytes).
(** @worker/src/utils/backup.ts:129-140 base64ToBytes *)
Definition base64ToBytes (value : jstr) : option (list Z) := atob (units value).

(** @worker/src/utils/backup.ts:142-152 backupPasswordError *)
Definition backupPasswordError (password : jstr) (minBytes : Z) : option jstr :=
  if negb (nonempty password) then Some "备份密码不能为空"
  else if Z.of_nat (length (js_points (units password))) <? minBytes then Some ("备份密码至少需要 " +++ dec_Z minBytes +++ " 位")
  else if MAX_BACKUP_PASSWORD_BYTES <? byte_length password then Some ("备份密码不能超过 " +++ dec_Z MAX_BACKUP_PASSWORD_BYTES +++ " 字节")
  else None.
(** @worker/src/utils/backup.ts:154-158 encryptBackupPasswordError *)
Definition encryptBackupPasswordError (password : jstr) : option jstr := backupPasswordError password MIN_BACKUP_ENCRYPT_PASSWORD_BYTES.

Section Encrypt.
Context (URL : jstr → option url) `{BackupCrypto}.

(** @worker/src/utils/backup.ts:160-183 deriveBackupKey *)
Definition deriveBackupKey (password : jstr) (salt : list Z) : crypto_key := deriveKey (utf8 password) salt BACKUP_KDF_ITERATIONS.

(** @worker/src/utils/backup.ts:635-672 encryptBackup -- from the random [salt] and
    [iv] and the time *)
Definition encryptBackup (backup : jsval) (password : jstr) (salt iv : list Z) (now : jstr) : result jstr jsval :=
  match encryptBackupPasswordError password with
  | Some passwordError => Err passwordError
  | None =>
    match validateBackup URL backup with
    | Err errors => Err ("备份配置校验失败: " +++ join "；" errors)
    | Ok (validated, _) =>
      let key := deriveBackupKey password salt in
      let plaintext := utf8 (json validated) in
      let ciphertext := gcm_encrypt key iv plaintext in
      Ok (JObj
        [("schema", JStr ENCRYPTED_BACKUP_SCHEMA_ID); ("version", JStr BACKUP_VERSION); ("scope", JStr BACKUP_SCOPE);
         ("timestamp", js_or (fld (as_object backup) "timestamp") (JStr now)); ("encrypted", JBool true);
         ("excluded", JArr (map JStr BACKUP_EXCLUDED_MODULES));
         ("encryption", JObj [("algorithm", JStr BACKUP_ENCRYPTION_ALGORITHM); ("kdf", JStr BACKUP_KDF);
                              ("iterations", JNum (of_Z BACKUP_KDF_ITERATIONS));
                              ("salt", JStr (bytesToBase64 salt)); ("iv", JStr (bytesToBase64 iv))]);
         ("ciphertext", JStr (bytesToBase64 ciphertext))])
    end
  end.

(** [typeof value === 'string' ? base64ToBytes(value) : null] *)
Definition decoded (value : jsval) : option (list Z) := match value with JStr s => base64ToBytes s | _ => None end.
(** @worker/src/utils/backup.ts:697-731 decryptBackup (decryption) *)
Definition open_backup (password : jstr) (iterations : Z) (salt iv ciphertext : list Z) : result jstr jsval :=
  let key := deriveKey (utf8 password) salt iterations in
  match gcm_decrypt key iv ciphertext with
  | None => Err "备份密码错误或文件已损坏"
  | Some plaintext =>
    match json_parse (utf8_decode plaintext) with
    | None => Err "备份密码错误或文件已损坏"
    | Some parsed =>
      match validateBackup URL parsed with
      | Err errors => Err ("解密成功但备份校验失败: " +++ join "；" errors)
      | Ok (backup, _) => Ok backup
      end
    end
  end.
(** @worker/src/utils/backup.ts:674-732 decryptBackup *)
Definition decryptBackup (input : jsval) (password : jstr) : result jstr jsval :=
  match backupPasswordError password MIN_BACKUP_DECRYPT_PASSWORD_BYTES with
  | Some passwordError => Err passwordError
  | None =>
    match input with
    | JObj input =>
      if negb (is_str (fld input "schema") ENCRYPTED_BACKUP_SCHEMA_ID) || negb (is_bool (fld input "encrypted") true)
      then Err "不是受支持的加密备份文件"
      else
        match fld input "encryption" with
        | JObj encryption =>
          if negb (is_str (fld encryption "algorithm") BACKUP_ENCRYPTION_ALGORITHM) || negb (is_str (fld encryption "kdf") BACKUP_KDF)
          then Err "加密算法不受支持"
          else
            match num_Z (to_num (fld encryption "iterations")) with
            | None => Err "KDF 参数无效"
            | Some iterations =>
              if (iterations <? 100000) || (1000000 <? iterations) then Err "KDF 参数无效"
              else
                match decoded (fld encryption "salt"), decoded (fld encryption "iv"), decoded (fld input "ciphertext") with
                | Some salt, Some iv, Some ciphertext =>
                  if negb (length salt =? BACKUP_SALT_BYTES)%nat || negb (length iv =? BACKUP_IV_BYTES)%nat || (length ciphertext =? 0)%nat
                  then Err "加密备份编码无效"
                  else open_backup password iterations salt iv ciphertext
                | _, _, _ => Err "加密备份编码无效"
                end
            end
        | _ => Err "加密参数缺失"
        end
    | _ => Err "加密备份内容必须是对象"
    end
  end.
End Encrypt.

(** @worker/src/utils/backup.ts:93-102 BackupSummary *)
Record BackupSummary := {
  bs_settings : bool; bs_settings_count : nat; bs_clients : nat; bs_ping_tasks : nat; bs_offline : nat; bs_expiry : nat; bs_load : nat; bs_websites : nat;
}.
(** [backup[key]?.length || 0] *)
Definition array_length (v : jsval) : nat := match v with JArr l => length l | _ => 0 end.
(** @worker/src/utils/backup.ts:734-745 summarizeBackup *)
Definition summarizeBackup (backup : fields) : BackupSummary :=
  {| bs_settings := negb (is_undef (fld backup "settings"));
     bs_settings_count := match fld backup "settings" with JObj fs => length fs | _ => 0 end;
     bs_clients := array_length (fld backup "clients");
     bs_ping_tasks := array_length (fld backup "ping_tasks");
     bs_offline := array_length (fld backup "offline_notifications");
     bs_expiry := array_length (fld backup "expiry_notifications");
     bs_load := array_length (fld backup "load_notifications");
     bs_websites := array_length (fld backup "website_monitors") |}.
