(* ===== verification/BackupSpec.v ===== *)
(** * Configuration backups: what validation promises

    A run of the validators that reports no error gives values every field of
    which is accepted again, unchanged; hence a backup that was exported, encrypted
    and read back is the one that was validated. *)

From S2P Require Import Prelude JsStr JsNum JsVal JsBytes JsJson Net PingTask Settings Website Backup.
#[local] Open Scope Z_scope.

(** ** Runs without errors *)

(** [m] computes [a] and pushes nothing. *)
Definition clean {A} (m : W A) (a : A) : Prop := m = (a, []).
Lemma clean_ret {A} (a b : A) : clean (wret a) b ↔ a = b.
Proof. unfold clean, wret. split; congruence. Qed.
Lemma clean_bind {A B} (m : W A) (f : A → W B) b : clean (wbind m f) b ↔ ∃ a, clean m a ∧ clean (f a) b.
Proof.
  unfold clean, wbind. destruct m as [a e1]. split.
  - destruct (f a) as [b' e2] eqn:E. intros [= -> He]. apply app_eq_nil in He as [-> ->]. eauto.
  - intros (a' & [= <- ->] & ->). done.
Qed.
Lemma clean_push e a : clean (push e) a ↔ False.
Proof. by unfold clean, push. Qed.
Lemma clean_push_if b e a : clean (push_if b e) a ↔ b = false.
Proof. unfold clean, push_if, push, wret. destruct b, a; split; congruence. Qed.

(** Decompose a run without errors. *)
Ltac clean_in H :=
  lazymatch type of H with
  | clean (wbind _ _) _ =>
    let a := fresh "a" in let H1 := fresh "C" in apply (proj1 (clean_bind _ _ _)) in H as (a & H1 & H); clean_in H1; cbv beta iota in H; clean_in H
  | clean (wret _) _ => apply (proj1 (clean_ret _ _)) in H; try subst
  | clean (push _) _ => destruct (proj1 (clean_push _ _) H)
  | clean (push_if _ _) _ => apply (proj1 (clean_push_if _ _ _)) in H
  | _ => idtac
  end.
(** Recompose one, given what its steps compute. *)
Ltac step H := apply clean_bind; eexists; split; [exact H |]; cbv beta iota.

Section Loops.
Context {A B C : Type}.
Lemma clean_mapW (f : A → W B) l out : clean (mapW f l) out ↔ Forall2 (λ x y, clean (f x) y) l out.
Proof.
  revert out. induction l as [|x l IH]; intros out; cbn [mapW].
  - rewrite clean_ret. split; [intros <-; constructor | by intros ->%Forall2_nil_inv_l].
  - rewrite clean_bind. setoid_rewrite clean_bind. setoid_rewrite clean_ret. setoid_rewrite IH. split.
    + intros (y & Hy & ys & Hys & <-). by constructor.
    + intros (y & ys & Hy & Hys & ->)%Forall2_cons_inv_l. eauto.
Qed.
Lemma clean_foldW_app (f : B → A → W B) l1 l2 acc : foldW f (l1 ++ l2) acc = wbind (foldW f l1 acc) (foldW f l2).
Proof.
  revert acc. induction l1 as [|x l1 IH]; intros acc; cbn [foldW Datatypes.app].
  - unfold wbind, wret. by destruct (foldW f l2 acc).
  - unfold wbind in *. destruct (f acc x) as [b e]. rewrite IH. destruct (foldW f l1 b) as [b' e']. destruct (foldW f l2 b') as [b'' e''].
    by rewrite (assoc_L (++)).
Qed.
End Loops.

(** ** Fields *)

Definition fits (s : jstr) (maxLength : option Z) : Prop := match maxLength with Some m => slen s ≤ m | None => True end.
(** The property a text field becomes. *)
Definition text_value (t : option jstr) : jsval := match t with Some s => JStr s | None => JUndef end.

Lemma textField_clean v f req max t :
  clean (textField v f req max) t →
  match t with Some s => fits s max ∧ (req = true → trim s ≠ "") | None => req = false end.
Proof.
  unfold textField. destruct (is_undef v || is_null v).
  - intros H. clean_in H. done.
  - destruct (toText v) as [s|]; [| by intros H; clean_in H]. destruct (match max with Some m => m <? slen s | None => false end) eqn:Em; [by intros H; clean_in H |].
    destruct (req && jeq (trim s) "") eqn:Er; [by intros H; clean_in H |]. intros H. clean_in H. split.
    + unfold fits. destruct max; [zlia | done].
    + intros ->. by apply jeq_false.
Qed.
Lemma textField_text s f req max : fits s max → (req = true → trim s ≠ "") → clean (textField (JStr s) f req max) (Some s).
Proof.
  intros Hf Hr. unfold textField. cbn [is_undef is_null orb toText].
  assert (E : match max with Some m => m <? slen s | None => false end = false) by (unfold fits in Hf; destruct max; [apply Z.ltb_ge; lia | done]). rewrite E.
  assert (E' : req && jeq (trim s) "" = false) by (destruct req; [cbn [andb]; apply jeq_false; auto | done]). by rewrite E'.
Qed.
Lemma textField_again v f req max t f' : clean (textField v f req max) t → clean (textField (text_value t) f' req max) t.
Proof.
  intros H%textField_clean. destruct t as [s|]; [by apply textField_text; destruct H | by subst].
Qed.

Definition num_in (n : num) (lo hi : Z) : Prop := is_finite n = true ∧ num_lt n lo = false ∧ num_lt hi n = false.
Lemma num_in_Z z lo hi : lo ≤ z ≤ hi → num_in (of_Z z) lo hi.
Proof. intros Hz. split; [done |]. rewrite !num_lt_of_Z_Z. split; apply Z.ltb_ge; lia. Qed.
Lemma numberField_clean v f fb lo hi n : clean (numberField v f fb lo hi) n → n = fb ∨ num_in n lo hi.
Proof.
  unfold numberField. destruct (is_blank v); [intros H; clean_in H; auto |]. cbv zeta. set (m := match v with JNum _ => _ | _ => _ end). clearbody m.
  destruct (negb (is_finite m) || num_lt m lo || num_lt hi m) eqn:E; intros H; clean_in H. right. unfold num_in. des. done.
Qed.
Lemma numberField_again n f fb lo hi : num_in n lo hi → clean (numberField (JNum n) f fb lo hi) n.
Proof. intros (H1 & H2 & H3). unfold numberField. cbn [is_blank is_undef is_null is_str orb]. by rewrite H1, H2, H3. Qed.
Definition int_in (n : num) (lo hi : Z) : Prop := is_integer n = true ∧ num_in n lo hi.
Lemma int_in_Z z lo hi : lo ≤ z ≤ hi → int_in (of_Z z) lo hi.
Proof. intros Hz. split; [apply is_integer_Z; exists z; apply num_Z_of_Z | by apply num_in_Z]. Qed.
Lemma integerField_clean v f z lo hi n : clean (integerField v f (of_Z z) lo hi) n → n = of_Z z ∨ int_in n lo hi.
Proof.
  unfold integerField. intros H. clean_in H. destruct (negb (is_integer a)) eqn:E; clean_in H. apply negb_false_iff in E.
  destruct (numberField_clean _ _ _ _ _ _ C) as [-> | ?]; [by left | right]. done.
Qed.
Lemma integerField_in v f z lo hi n : lo ≤ z ≤ hi → clean (integerField v f (of_Z z) lo hi) n → int_in n lo hi.
Proof. intros Hz [-> | H]%integerField_clean; [by apply int_in_Z | done]. Qed.
Lemma integerField_again n f fb lo hi : int_in n lo hi → clean (integerField (JNum n) f fb lo hi) n.
Proof. intros [Hi Hn]. unfold integerField. step (numberField_again n f fb lo hi Hn). by rewrite Hi. Qed.

(** The elements of an accepted list of texts. *)
Definition item_ok (s : jstr) : Prop := slen s ≤ 128 ∧ nonempty (trim s) = true.
Lemma string_items_clean l f max out : clean (string_items l f max) out → Forall item_ok out ∧ (length out ≤ max)%nat.
Proof.
  unfold string_items. intros H. clean_in H. apply clean_mapW in C. pose proof (length_take_le l max) as Hlen.
  assert (Ht : (length (take max l) ≤ max)%nat) by (rewrite length_take; lia). revert C Ht. clear Hlen. generalize (take max l). clear l.
  intros l C Ht. revert max Ht. induction C as [|x t l a Hx C IH]; intros m Ht; [by split; [constructor | simpl; lia] |].
  cbn [length] in Ht. destruct m as [|m]; [lia |]. destruct (IH m ltac:(lia)) as [IH1 IH2]. cbn [omap list_omap].
  apply textField_clean in Hx. destruct t as [s|]; [| split; [done | lia]]. destruct (nonempty (trim s)) eqn:E; [| split; [done | lia]].
  split; [constructor; [by split; [apply Hx |] | done] | simpl; lia].
Qed.
Lemma stringArrayField_clean v f max out : clean (stringArrayField v f max) out → Forall item_ok out ∧ (length out ≤ max)%nat.
Proof.
  unfold stringArrayField. destruct (match v with JStr s => json_parse s | _ => Some v end) as [[| | | | |l|]|]; intros H; clean_in H; try done;
    try (split; [constructor | simpl; lia]). by apply string_items_clean in H.
Qed.
Lemma stringArrayField_again l f max : Forall item_ok l → (length l ≤ max)%nat → clean (stringArrayField (JArr (map JStr l)) f max) l.
Proof.
  intros Hl Hlen. unfold stringArrayField. rewrite length_map. apply clean_bind. exists tt. split; [apply clean_push_if, Nat.ltb_ge; lia |].
  unfold string_items. rewrite take_ge by (rewrite length_map; lia). apply clean_bind. exists (map Some l). split.
  - apply clean_mapW. induction Hl as [|s l [Hs _] Hl IH]; [constructor |]. constructor; [by apply textField_text | apply IH]. cbn [length] in Hlen. lia.
  - apply clean_ret. induction Hl as [|s l [_ Hs] Hl IH]; [done |]. cbn [map omap list_omap]. rewrite Hs. f_equal. apply IH. cbn [length] in Hlen. lia.
Qed.

Lemma dec_nat_nonempty z : dec_nat z ≠ [].
Proof. unfold dec_nat. cbn [dec_digits]. destruct (z <? 10); [done |]. by destruct (dec_digits _ _). Qed.
Lemma num_str_nonempty n : num_str n ≠ "".
Proof.
  assert (Hp : ∀ a, pos_str a ≠ []).
  { intros a. unfold pos_str. destruct (shortest _ _ _ _) as [s0 k]. destruct (if s0 =? 10 ^ k then _ else _) as [s m]. pose proof (dec_nat_nonempty s) as Hs.
    repeat case_match; try done; intros [? ?]%app_eq_nil; done. }
  unfold num_str, dec_Z. repeat case_match; try done; intros [= E]; try (by apply Hp in E); by apply dec_nat_nonempty in E.
Qed.
Lemma optionalTimeField_clean v f w : clean (optionalTimeField v f) w → w = JNull ∨ ∃ s, w = JStr s ∧ s ≠ "" ∧ slen s ≤ 64.
Proof.
  unfold optionalTimeField. destruct (is_blank v) eqn:Eb; intros H; clean_in H; [by left |].
  assert (Hs : ∀ s, a = Some s → s ≠ "").
  { intros s ->. unfold textField in C. destruct (is_undef v || is_null v) eqn:E; [clean_in C; done |].
    destruct (toText v) as [t|] eqn:Et; [| clean_in C; done]. destruct (64 <? slen t); [clean_in C; done |]. cbn [andb] in C. clean_in C. injection C as ->.
    destruct v as [| |[]|n|u| |]; try done; cbn [toText] in Et; try (injection Et as <-; done).
    - destruct (is_finite n); [| done]. injection Et as <-. apply num_str_nonempty.
    - injection Et as <-. unfold is_blank in Eb. cbn [is_undef is_null is_str orb] in Eb. by apply jeq_false. }
  apply textField_clean in C. destruct a as [s|]; [right | by left]. exists s. split; [done | split; [by apply Hs | apply C]].
Qed.
Lemma optionalTimeField_again v f w f' : clean (optionalTimeField v f) w → clean (optionalTimeField w f') w.
Proof.
  intros [-> | (s & -> & Hs & Hlen)]%optionalTimeField_clean; [done |]. unfold optionalTimeField. unfold is_blank. cbn [is_undef is_null is_str orb].
  rewrite (proj2 (jeq_false _ _) Hs). step (textField_text s f' false (Some 64) Hlen ltac:(done)). done.
Qed.
Lemma booleanField_again b : booleanField (JBool b) = b.
Proof. done. Qed.

Lemma optional_id_clean item f id :
  clean (optional_id item f) id → id = JUndef ∨ ∃ n, id = JNum n ∧ (n = of_Z 0 ∨ int_in n 1 max_safe).
Proof.
  unfold optional_id. destruct (is_undef _); intros H; clean_in H; [by left | right]. apply integerField_clean in C. eauto.
Qed.

(** ** Loops over entries *)

Section Entries.
Context {C : Type} (f : nat → C → jsval → W (list jsval * C)).
(** What one entry becomes, from what the loop has kept; an entry that satisfies
    [R] is accepted again. *)
Context (P : C → jsval → C → Prop) (R : jsval → Prop).
Definition reproduces : Prop :=
  ∀ i st x ys st', (i < MAX_NOTIFICATIONS)%nat → clean (f i st x) (ys, st') →
  ∃ y, ys = [y] ∧ P st y st' ∧ (R y → ∀ j, clean (f j st (strip y)) ([y], st')).
Fixpoint chain (st : C) (l : list jsval) : Prop :=
  match l with
  | [] => True
  | y :: r => ∃ st', P st y st' ∧ chain st' r
  end.
Lemma flatMapW_again i st l out :
  reproduces → (i + length l ≤ MAX_NOTIFICATIONS)%nat → clean (flatMapW f i st l) out →
  length out = length l ∧ chain st out ∧ (Forall R out → ∀ j, clean (flatMapW f j st (map strip out)) out).
Proof.
  intros Hf. revert i st out. induction l as [|x l IH]; intros i st out Hi H; cbn [flatMapW length] in *.
  - apply clean_ret in H as <-. done.
  - apply clean_bind in H as ([ys st'] & H1 & H). apply clean_bind in H as (rest & H2 & H). apply clean_ret in H as <-.
    destruct (Hf i _ _ _ _ ltac:(lia) H1) as (y & -> & HP & Hy). destruct (IH (S i) _ _ ltac:(lia) H2) as (IH1 & IH2 & IH3).
    split; [simpl; lia | split; [cbn; eauto |]]. intros [HR HRs]%Forall_cons j. cbn [Datatypes.app map flatMapW].
    step (Hy HR j). step (IH3 HRs (S j)). done.
Qed.
End Entries.
Lemma chain_impl {C} (P Q : C → jsval → C → Prop) st l : (∀ st y st', P st y st' → Q st y st') → chain P st l → chain Q st l.
Proof. intros H. revert st. induction l as [|y l IH]; intros st; cbn [chain]; [done |]. intros (st' & HP & Hc). eauto. Qed.
Lemma chain_Forall {C} (P : C → jsval → C → Prop) (Q : jsval → Prop) st l : (∀ st y st', P st y st' → Q y) → chain P st l → Forall Q l.
Proof. intros H. revert st. induction l as [|y l IH]; intros st; cbn [chain]; [constructor |]. intros (st' & HP & Hc). constructor; eauto. Qed.

(** ** Clients *)

Definition text_cell (item : fields) (at_ field : jstr) : W (option jsval) :=
  let m := textField (fld item field) (at_ +++ "." +++ field) (jeq field "uuid") (Some (if jeq field "token" || jeq field "token_hash" then 256 else 512)) in
  wbind m (λ t, wret (JStr <$> t)).
Definition number_cell (item : fields) (at_ field : jstr) : W (option jsval) :=
  wbind (numberField (fld item field) (at_ +++ "." +++ field) (of_Z 0) (if jeq field "billing_cycle" || jeq field "price" then -1 else 0) max_safe)
        (λ n, wret (Some (JNum n))).
Definition boolean_cell (item : fields) (field : jstr) : option jsval := Some (JBool (booleanField (fld item field))).
Definition day_cell (item : fields) (at_ : jstr) : W (option jsval) :=
  wbind (numberField (fld item "traffic_reset_day") (at_ +++ ".traffic_reset_day") (of_Z 1) 1 31) (λ n, wret (Some (JNum n))).
Definition put (k : jstr) (v : option jsval) (c : fields) : fields := match v with Some v => set_field k v c | None => c end.

Lemma wbind_map {A B D} (m : W A) (g : A → B) (h : B → W D) : wbind (wbind m (λ a, wret (g a))) h = wbind m (λ a, h (g a)).
Proof. unfold wbind, wret. destruct m as [a e]. rewrite app_nil_r. done. Qed.
Lemma client_text_cell item at_ c k : client_text item at_ c k = wbind (text_cell item at_ k) (λ v, wret (put k v c)).
Proof. unfold text_cell. cbv zeta. rewrite wbind_map. unfold client_text, wbind. by destruct (textField _ _ _ _) as [[s|] e]. Qed.
Lemma client_number_cell item at_ c k : client_number item at_ c k = wbind (number_cell item at_ k) (λ v, wret (put k v c)).
Proof. unfold number_cell. rewrite wbind_map. done. Qed.

Lemma foldW_cells {f : fields → jstr → W fields} {cell : jstr → W (option jsval)} keys acc c :
  (∀ c k, f c k = wbind (cell k) (λ v, wret (put k v c))) →
  clean (foldW f keys acc) c ↔ Forall (λ k, clean (cell k) ((cell k).1)) keys ∧ c = fold_left (λ r k, put k ((cell k).1) r) keys acc.
Proof.
  intros Hf. revert acc. induction keys as [|k keys IH]; intros acc; cbn [foldW fold_left].
  - rewrite clean_ret. split; [intros ->; by split; [constructor |] | by intros [_ ->]].
  - rewrite clean_bind, Forall_cons, Hf. split.
    + intros (c' & H1 & H2). apply clean_bind in H1 as (v & H1 & H3). apply clean_ret in H3 as <-. rewrite H1. cbn [fst].
      apply IH in H2 as [H2 ->]. done.
    + intros [[Hk Hks] ->]. exists (put k (cell k).1 acc). split; [by step Hk | by apply IH].
Qed.

(** The keys of a client, and the values of an accepted one. *)
Definition client_keys : list jstr := stringFields ++ numberFields ++ booleanFields ++ ["traffic_reset_day"].
Definition cells (item : fields) (at_ : jstr) (G : jstr → option jsval) : Prop :=
  Forall (λ k, clean (text_cell item at_ k) (G k)) stringFields ∧ Forall (λ k, clean (number_cell item at_ k) (G k)) numberFields
  ∧ Forall (λ k, boolean_cell item k = G k) booleanFields ∧ clean (day_cell item at_) (G "traffic_reset_day").
Lemma fold_put_ext (F G : jstr → option jsval) keys acc :
  Forall (λ k, F k = G k) keys → fold_left (λ r k, put k (F k) r) keys acc = fold_left (λ r k, put k (G k) r) keys acc.
Proof. intros H. revert acc. induction H as [|k keys Hk H IH]; intros acc; cbn [fold_left]; [done |]. by rewrite Hk, IH. Qed.
Lemma client_fields_cells item at_ c : clean (client_fields item at_) c → ∃ G, cells item at_ G ∧ c = pick G client_keys.
Proof.
  unfold client_fields. intros H. apply clean_bind in H as (c1 & H1 & H). apply clean_bind in H as (c2 & H2 & H). apply clean_bind in H as (d & H3 & H).
  apply clean_ret in H as <-.
  apply (foldW_cells (cell := text_cell item at_)) in H1 as [T1 ->]; [| intros; apply client_text_cell].
  apply (foldW_cells (cell := number_cell item at_)) in H2 as [T2 ->]; [| intros; apply client_number_cell].
  set (G := λ k, if mem k stringFields then (text_cell item at_ k).1 else if mem k numberFields then (number_cell item at_ k).1
                 else if mem k booleanFields then boolean_cell item k else Some (JNum d)).
  assert (G1 : Forall (λ k, G k = (text_cell item at_ k).1) stringFields) by (apply Forall_forall; intros k Hk; unfold G; by rewrite (proj2 (mem_spec _ _) Hk)).
  assert (G2 : Forall (λ k, G k = (number_cell item at_ k).1) numberFields) by (unfold numberFields; repeat constructor).
  assert (G3 : Forall (λ k, G k = boolean_cell item k) booleanFields) by (unfold booleanFields; repeat constructor).
  exists G. split; [split; [| split; [| split]] |].
  - rewrite Forall_forall in *. intros k Hk. rewrite G1 by done. by apply T1.
  - rewrite Forall_forall in *. intros k Hk. rewrite G2 by done. by apply T2.
  - eapply Forall_impl; [exact G3 |]. by intros k ->.
  - change (G "traffic_reset_day") with (Some (JNum d)). by step H3.
  - unfold pick, client_keys. change (fold_left _ (stringFields ++ _) []) with (fold_left (λ r k, put k (G k) r) (stringFields ++ numberFields ++ booleanFields ++ ["traffic_reset_day"]) []).
    rewrite !fold_left_app. rewrite (fold_put_ext _ _ _ _ G1), (fold_put_ext _ _ _ _ G2), (fold_put_ext _ _ _ _ G3). done.
Qed.
Lemma cells_client_fields item at_ G : cells item at_ G → clean (client_fields item at_) (pick G client_keys).
Proof.
  intros (T1 & T2 & T3 & T4). unfold client_fields.
  assert (E : ∀ (cell : jstr → W (option jsval)) keys, Forall (λ k, clean (cell k) (G k)) keys →
    Forall (λ k, clean (cell k) ((cell k).1)) keys ∧ Forall (λ k, (cell k).1 = G k) keys).
  { intros cell keys H. rewrite !Forall_forall in *. split; intros k Hk; rewrite (H k Hk); done. }
  apply E in T1 as [T1 G1], T2 as [T2 G2]. clear E.
  apply clean_bind. eexists. split.
  { apply (foldW_cells (cell := text_cell item at_)); [intros; apply client_text_cell |]. done. }
  apply clean_bind. eexists. split.
  { apply (foldW_cells (cell := number_cell item at_)); [intros; apply client_number_cell |]. done. }
  apply clean_bind in T4 as (d & Hd & T4). apply (proj1 (clean_ret _ _)) in T4. step Hd. unfold clean, wret. f_equal.
  unfold pick, client_keys. change (fold_left _ (stringFields ++ _) []) with (fold_left (λ r k, put k (G k) r) (stringFields ++ numberFields ++ booleanFields ++ ["traffic_reset_day"]) []).
  rewrite !fold_left_app. rewrite <- (fold_put_ext _ _ _ _ G1), <- (fold_put_ext _ _ _ _ G2), <- (fold_put_ext _ _ _ _ T3). cbn [fold_left]. by rewrite <- T4.
Qed.

Lemma fld_pick G k : k ∈ client_keys → fld (pick G client_keys) k = default JUndef (G k).
Proof. intros Hk. unfold fld. by rewrite lookup_pick, decide_True. Qed.
Lemma in_client_keys k : k ∈ client_keys ↔ k ∈ stringFields ∨ k ∈ numberFields ∨ k ∈ booleanFields ∨ k = "traffic_reset_day".
Proof. unfold client_keys. rewrite !elem_of_app, list_elem_of_singleton. done. Qed.
Definition number_min (k : jstr) : Z := if jeq k "billing_cycle" || jeq k "price" then -1 else 0.
Lemma number_cell_value item at_ k v : clean (number_cell item at_ k) v → ∃ n, v = Some (JNum n) ∧ num_in n (number_min k) max_safe.
Proof.
  unfold number_cell. intros H. clean_in H. exists a. split; [done |]. destruct (numberField_clean _ _ _ _ _ _ C) as [-> | ?]; [| done].
  apply num_in_Z. unfold number_min, max_safe. case_match; lia.
Qed.
Lemma day_cell_value item at_ v : clean (day_cell item at_) v → ∃ n, v = Some (JNum n) ∧ num_in n 1 31.
Proof.
  unfold day_cell. intros H. clean_in H. exists a. split; [done |]. destruct (numberField_clean _ _ _ _ _ _ C) as [-> | ?]; [by apply num_in_Z | done].
Qed.
Lemma cells_again item at_ G at' : cells item at_ G → cells (pick G client_keys) at' G.
Proof.
  intros (T1 & T2 & T3 & T4). unfold cells. rewrite !Forall_forall in *. repeat split.
  - intros k Hk. specialize (T1 k Hk). unfold text_cell in *. rewrite fld_pick by (apply in_client_keys; tauto). cbv zeta in *. clean_in T1. rewrite <- T1.
    assert (Ht : default JUndef (JStr <$> a) = text_value a) by (by destruct a). rewrite Ht. by step (textField_again _ _ _ _ _ (at' +++ "." +++ k) C).
  - intros k Hk. destruct (number_cell_value _ _ _ _ (T2 k Hk)) as (n & Hn & Hin). unfold number_cell. rewrite fld_pick by (apply in_client_keys; tauto).
    rewrite Hn. cbn [default from_option]. unfold id. fold (number_min k). by step (numberField_again n (at' +++ "." +++ k) (of_Z 0) _ _ Hin).
  - intros k Hk. specialize (T3 k Hk). unfold boolean_cell in *. rewrite fld_pick by (apply in_client_keys; tauto). by rewrite <- T3.
  - destruct (day_cell_value _ _ _ T4) as (n & Hn & Hin). unfold day_cell. rewrite fld_pick by (apply in_client_keys; tauto). rewrite Hn. cbn [default from_option]. unfold id.
    by step (numberField_again n (at' +++ ".traffic_reset_day") (of_Z 1) _ _ Hin).
Qed.

(** Values that [JSON.stringify] keeps as they are. *)
Definition solid (v : jsval) : Prop := is_undef v = false ∧ strip v = v.
Lemma strip_solid fs : Forall (λ p, solid p.2) fs → strip (JObj fs) = JObj fs.
Proof.
  intros H. cbn [strip]. f_equal. induction H as [|[k v] fs [H1 H2] H IH]; [done |]. cbn [omap list_omap fst snd] in *. rewrite H1, H2. by rewrite IH.
Qed.
Lemma cells_solid item at_ G : cells item at_ G → Forall (λ p, solid p.2) (pick G client_keys).
Proof.
  intros (T1 & T2 & T3 & T4). rewrite !Forall_forall in *. intros p [Hp Hv]%pick_elem. apply in_client_keys in Hp as [Hk | [Hk | [Hk | Hk]]].
  - specialize (T1 _ Hk). unfold text_cell in T1. cbv zeta in T1. clean_in T1. rewrite Hv in T1. destruct a; [by injection T1 as <- | done].
  - destruct (number_cell_value _ _ _ _ (T2 _ Hk)) as (n & Hn & _). rewrite Hv in Hn. by injection Hn as ->.
  - specialize (T3 _ Hk). unfold boolean_cell in T3. rewrite Hv in T3. by injection T3 as <-.
  - rewrite Hk in Hv. destruct (day_cell_value _ _ _ T4) as (n & Hn & _). rewrite Hv in Hn. by injection Hn as ->.
Qed.

(** An accepted client: a text under every text key it has, within its length, an
    identifier among them, numbers and flags in range. *)
Definition text_max (k : jstr) : Z := if jeq k "token" || jeq k "token_hash" then 256 else 512.
Definition client_ok (c : fields) : Prop :=
  (∀ k, k ∈ stringFields → fld c k = JUndef ∨ ∃ s, fld c k = JStr s ∧ slen s ≤ text_max k)
  ∧ (∃ u, fld c "uuid" = JStr u ∧ trim u ≠ "" ∧ slen u ≤ 512)
  ∧ (∀ k, k ∈ numberFields → ∃ n, fld c k = JNum n ∧ num_in n (number_min k) max_safe)
  ∧ (∀ k, k ∈ booleanFields → ∃ b, fld c k = JBool b)
  ∧ ∃ n, fld c "traffic_reset_day" = JNum n ∧ num_in n 1 31.
Lemma cells_ok item at_ G : cells item at_ G → client_ok (pick G client_keys).
Proof.
  intros (T1 & T2 & T3 & T4). unfold client_ok. rewrite !Forall_forall in *.
  assert (HT : ∀ k, k ∈ stringFields → ∃ t, fld (pick G client_keys) k = text_value t
    ∧ match t with Some s => fits s (Some (text_max k)) ∧ (jeq k "uuid" = true → trim s ≠ "") | None => jeq k "uuid" = false end).
  { intros k Hk. specialize (T1 _ Hk). unfold text_cell in T1. cbv zeta in T1. clean_in T1. exists a. rewrite fld_pick by (apply in_client_keys; tauto).
    rewrite <- T1. split; [by destruct a | by apply textField_clean in C]. }
  split; [| split; [| split; [| split]]].
  - intros k Hk. destruct (HT k Hk) as ([s|] & Hf & Hs); [right; exists s; by destruct Hs | by left].
  - destruct (HT "uuid") as ([s|] & Hf & Hs); [unfold stringFields; list_elem | | done]. exists s. destruct Hs as [H1 H2]. split; [done | split; [by apply H2 | done]].
  - intros k Hk. destruct (number_cell_value _ _ _ _ (T2 _ Hk)) as (n & Hn & Hin). exists n. rewrite fld_pick, Hn by (apply in_client_keys; tauto). done.
  - intros k Hk. specialize (T3 _ Hk). rewrite fld_pick by (apply in_client_keys; tauto). rewrite <- T3. by eexists.
  - destruct (day_cell_value _ _ _ T4) as (n & Hn & Hin). exists n. rewrite fld_pick, Hn by (apply in_client_keys; tauto). done.
Qed.

Definition sees (v : jstr) (s s' : list jstr) : Prop := if nonempty v then (v ∉ s) ∧ s' = v :: s else s' = s.
Lemma clean_see label v s s' : clean (see label v s) s' ↔ sees v s s'.
Proof.
  unfold see, sees. destruct (nonempty v).
  - rewrite clean_bind. setoid_rewrite clean_push_if. setoid_rewrite clean_ret. setoid_rewrite mem_false. split; [by intros (_ & ? & <-) | intros [? ->]; by exists tt].
  - rewrite clean_ret. done.
Qed.
Definition client_step (s : seen) (y : jsval) (s' : seen) : Prop :=
  ∃ c, y = JObj c ∧ client_ok c ∧ sees (text_of c "uuid") (s_uuids s) (s_uuids s') ∧ sees (text_of c "token") (s_tokens s) (s_tokens s')
       ∧ sees (text_of c "token_hash") (s_hashes s) (s_hashes s').
Lemma validate_client_reproduces : reproduces validate_client client_step (λ _, True).
Proof.
  intros i s x ys s' _ H. unfold validate_client in H. destruct x as [| | | | | |item]; try (clean_in H; done).
  apply clean_bind in H as (c & H1 & H). apply clean_bind in H as (u & H2 & H). apply clean_bind in H as (t & H3 & H). apply clean_bind in H as (h & H4 & H).
  apply (proj1 (clean_ret _ _)) in H. injection H as <- <-. destruct (client_fields_cells _ _ _ H1) as (G & HG & ->).
  apply (proj1 (clean_see _ _ _ _)) in H2, H3, H4.
  exists (JObj (pick G client_keys)). split; [done | split].
  - exists (pick G client_keys). cbn [s_uuids s_tokens s_hashes].
    split; [reflexivity | split; [exact (cells_ok _ _ _ HG) | split; [exact H2 | split; [exact H3 | exact H4]]]].
  - intros _ j. rewrite (strip_solid _ (cells_solid _ _ _ HG)). unfold validate_client.
    step (cells_client_fields _ _ _ (cells_again _ _ _ (entry "clients" j) HG)).
    step (proj2 (clean_see "uuid" _ _ _) H2). step (proj2 (clean_see "token" _ _ _) H3). by step (proj2 (clean_see "token_hash" _ _ _) H4).
Qed.
(** The non-empty texts a key takes are distinct. *)
Definition distinct (key : jstr) (l : list jsval) : Prop := NoDup (List.filter nonempty (map (λ y, text_of (as_object y) key) l)).
Lemma chain_distinct (key : jstr) (get : seen → list jstr) s l :
  (∀ s y s', client_step s y s' → sees (text_of (as_object y) key) (get s) (get s')) → chain client_step s l →
  distinct key l ∧ ∀ y, y ∈ l → nonempty (text_of (as_object y) key) = true → text_of (as_object y) key ∉ get s.
Proof.
  intros Hg. revert s. induction l as [|y l IH]; intros s; cbn [chain].
  { intros _. split; [constructor | by intros y ?%not_elem_of_nil]. }
  intros (s' & Hs & Hc). destruct (IH _ Hc) as [IH1 IH2]. apply Hg in Hs. unfold distinct, sees in *. cbn [map List.filter].
  destruct (nonempty (text_of (as_object y) key)) eqn:E.
  - destruct Hs as [Hn Hs]. split.
    + apply NoDup_cons. split; [| done]. intros Hin. apply list_elem_of_In, List.filter_In in Hin as [Hin _]. apply in_map_iff in Hin as (z & Hz & Hin).
      apply list_elem_of_In in Hin. apply (IH2 z Hin); [by rewrite Hz | rewrite Hz, Hs; left].
    + intros z [-> | Hz]%elem_of_cons Hne; [done |]. intros Hin. apply (IH2 z Hz Hne). rewrite Hs. by right.
  - rewrite Hs in IH2. split; [done |]. intros z [-> | Hz]%elem_of_cons Hne; [congruence | by apply IH2].
Qed.

(** ** Ping tasks *)

Lemma int_in_num_Z n z lo hi : num_Z n = Some z → lo ≤ z ≤ hi → int_in n lo hi.
Proof.
  intros Hn Hz. split; [by apply is_integer_Z; eauto |]. split; [by eapply num_Z_finite |]. rewrite (num_lt_of_Z _ _ _ Hn), (num_gt_of_Z _ _ _ Hn).
  split; apply Z.ltb_ge; lia.
Qed.
Lemma index_in i hi lo : (i < MAX_NOTIFICATIONS)%nat → lo ≤ 1 → 5000 ≤ hi → lo ≤ Z.of_nat i + 1 ≤ hi.
Proof. unfold MAX_NOTIFICATIONS. lia. Qed.
Lemma strip_texts l : strip (JArr (map JStr l)) = JArr (map JStr l).
Proof. cbn [strip]. f_equal. rewrite map_map. done. Qed.

Lemma solid_texts l : solid (JArr (map JStr l)).
Proof. split; [done | apply strip_texts]. Qed.
(** An object whose only property that may be undefined is its identifier. *)
Lemma strip_with_id id fs :
  (id = JUndef ∨ solid id) → Forall (λ p, solid p.2) fs → strip (JObj (("id", id) :: fs)) = JObj ((if is_undef id then [] else [("id" : jstr, id)]) ++ fs).
Proof.
  intros [-> | Hid] Hfs.
  - exact (strip_solid fs Hfs).
  - destruct Hid as [H1 H2]. rewrite H1. apply strip_solid. constructor; [done | exact Hfs].
Qed.

(** An identifier a later validation accepts: none, or a positive integer; [null]
    and the empty text became 0, which is refused. *)
Definition id_ok (id : jsval) : Prop := id = JUndef ∨ ∃ n, id = JNum n ∧ int_in n 1 max_safe.
Definition id_given (id : jsval) : Prop := id_ok id ∨ id = JNum (of_Z 0).
Definition restorable_id (y : jsval) : Prop := fld (as_object y) "id" ≠ JNum (of_Z 0).
Lemma optional_id_given item f id : clean (optional_id item f) id → id_given id.
Proof. intros [-> | (n & -> & [-> | Hn])]%optional_id_clean; [left; by left | by right | left; right; eauto]. Qed.
Lemma optional_id_again item f id : id_ok id → fld item "id" = id → clean (optional_id item f) id.
Proof.
  unfold optional_id. intros [-> | (n & -> & Hn)] ->; [done |]. cbn [is_undef]. by step (integerField_again n f (of_Z 0) _ _ Hn).
Qed.

Section Modules.
Context (URL : jstr → option url).

Definition task_object (id : jsval) (t : ping_task) (so : num) : jsval := JObj ([("id", id)] ++ task_fields t ++ [("sort_order", JNum so)]).
(** A task the panel accepts, and a position. *)
Definition task_ok (y : jsval) : Prop :=
  ∃ id t so, y = task_object id t so ∧ id_given id ∧ (∃ input, validatePingTaskInput URL input None = TaskOk t)
             ∧ Forall (λ c, slen c ≤ 128) (pt_clients t) ∧ int_in so 1 max_safe.
Lemma ping_task_again item id t so input j :
  holds_task item t → fld item "id" = id → fld item "sort_order" = JNum so → id_ok id → int_in so 1 max_safe →
  validatePingTaskInput URL input None = TaskOk t → Forall (λ c, slen c ≤ 128) (pt_clients t) →
  clean (validate_ping_task URL j tt (JObj item)) ([task_object id t so], tt).
Proof.
  intros Hh Hid Hso Iid Iso Hv Hc. pose proof (validatePingTaskInput_trimmed _ _ _ _ Hv) as (Tn & Tt & _ & Tc).
  destruct (validatePingTaskInput_checks _ _ _ _ Hv) as (Cn & Cl & Cty & Ctg & (z & Hz & Hzr) & Ca1 & _ & (v & Hcl) & _).
  pose proof Hh as (H1 & H2 & H3 & H4 & H5 & H6). unfold validate_ping_task. cbv zeta.
  assert (Hsl : slen (pt_target t) ≤ 512).
  { unfold validateTarget in Ctg. destruct (negb _); [done |]. destruct (MAX_PING_TARGET_LENGTH <? _) eqn:E; [done |]. unfold MAX_PING_TARGET_LENGTH in E. zlia. }
  assert (Hty : slen (pt_type t) ≤ 16) by (unfold PING_TASK_TYPES in Cty; list_cases Cty; rewrite Cty; vm_compute; congruence).
  assert (Hcs : Forall item_ok (pt_clients t) ∧ (length (pt_clients t) ≤ MAX_CLIENTS)%nat).
  { destruct (readStringArray_spec v) as (_ & Hlen & Hne). destruct Hcl as [Hcl | Hcl]; rewrite Hcl in *; [split; [constructor | simpl; lia] |].
    split; [| unfold MAX_CLIENTS, MAX_PING_TASK_CLIENTS in *; lia]. rewrite Forall_forall in *. intros s Hs. split; [auto |].
    assert (Hts : trim s = s).
    { rewrite <- (readStringArray_again v) in Hs. apply readStringArray_elem in Hs as (t' & _ & ->). apply trim_trim. }
    rewrite Hts. auto. }
  rewrite H1, H2, H3, H4, H5, H6, Hso. cbn [coalesce booleanField].
  step (optional_id_again item (entry "ping_tasks" j +++ ".id") id Iid Hid).
  step (textField_text (pt_name t) (entry "ping_tasks" j +++ ".name") false (Some 128) Cl ltac:(done)).
  step (stringArrayField_again (pt_clients t) (entry "ping_tasks" j +++ ".clients") MAX_CLIENTS (proj1 Hcs) (proj2 Hcs)).
  step (textField_text (pt_type t) (entry "ping_tasks" j +++ ".type") false (Some 16) Hty ltac:(done)).
  step (textField_text (pt_target t) (entry "ping_tasks" j +++ ".target") false (Some 512) Hsl ltac:(done)).
  step (integerField_again _ (entry "ping_tasks" j +++ ".interval_sec") (of_Z 60) _ _ (int_in_num_Z _ _ _ _ Hz Hzr)).
  step (integerField_again so (entry "ping_tasks" j +++ ".sort_order") (of_Z (Z.of_nat j + 1)) _ _ Iso).
  assert (Ho : ∀ s d : jstr, (d = "" ∨ s ≠ "") → text_or (Some s) d = s).
  { intros s d Hd. unfold text_or, or_str. destruct (nonempty s) eqn:E; [done |]. apply nonempty_false in E as ->. destruct Hd as [-> | ?]; done. }
  rewrite !Ho by (auto; right; unfold PING_TASK_TYPES in Cty; list_cases Cty; rewrite Cty; done).
  by rewrite (validatePingTaskInput_again _ _ _ _ _ Hv).
Qed.
Lemma validate_ping_task_reproduces : reproduces (validate_ping_task URL) (λ _ y _, task_ok y) restorable_id.
Proof.
  intros i [] x ys [] Hi H. unfold validate_ping_task in H. destruct x as [| | | | | |item]; try (clean_in H; done). cbv zeta in H.
  apply clean_bind in H as (id & H1 & H). apply clean_bind in H as (name & _ & H). apply clean_bind in H as (clients & H2 & H).
  apply clean_bind in H as (ty & _ & H). apply clean_bind in H as (tg & _ & H). apply clean_bind in H as (iv & _ & H). apply clean_bind in H as (so & H3 & H).
  match type of H with context [validatePingTaskInput URL ?c None] => set (cand := c) in H end.
  destruct (validatePingTaskInput URL cand None) as [t|es] eqn:Hv; [| unfold clean in H; injection H as _ H; apply map_eq_nil in H; subst;
    unfold validatePingTaskInput in Hv; cbv zeta in Hv; break_in Hv; congruence].
  apply (proj1 (clean_ret _ _)) in H. injection H as <-. fold (task_object id t so).
  apply integerField_in in H3; [| by apply index_in; unfold max_safe]. apply optional_id_given in H1.
  assert (Hc : Forall (λ c, slen c ≤ 128) (pt_clients t)).
  { rewrite (validatePingTaskInput_clients _ _ _ _ Hv). destruct (pt_all_clients t); [constructor |]. change (fld _ "clients") with (JArr (map JStr clients)).
    apply Forall_forall. intros c (s & Hs & ->)%readStringArray_elem. apply list_elem_of_fmap in Hs as (s' & [= ->] & Hs). apply stringArrayField_clean in H2 as [H2 _].
    rewrite Forall_forall in H2. destruct (H2 _ Hs) as [H4 _]. pose proof (trim_length s'). lia. }
  exists (task_object id t so). split; [done | split; [exists id, t, so; eauto 6 |]]. intros HR j. unfold restorable_id in HR. change (fld _ "id") with id in HR.
  destruct H1 as [H1 | ->]; [| done]. unfold task_object at 1. cbn [Datatypes.app]. rewrite strip_with_id.
  - pose proof H1 as [-> | (n & -> & Hn)]; (eapply ping_task_again; [| reflexivity | reflexivity | done | done | exact Hv | exact Hc]); repeat split.
  - destruct H1 as [-> | (n & -> & _)]; [by left | by right].
  - unfold task_fields. cbn [Datatypes.app]. repeat constructor; apply solid_texts.
Qed.
End Modules.

(** ** Notification rules *)

Lemma text_or_some s d : (d = "" ∨ s ≠ "") → text_or (Some s) d = s.
Proof. intros Hd. unfold text_or, or_str. destruct (nonempty s) eqn:E; [done |]. apply nonempty_false in E as ->. destruct Hd as [-> | ?]; done. Qed.
Lemma required_text v f max t : clean (textField v f true max) t → ∃ s, t = Some s ∧ text_or t "" = s ∧ fits s max ∧ trim s ≠ "".
Proof.
  intros H%textField_clean. destruct t as [s|]; [| done]. exists s. split; [done | split; [by apply text_or_some; left |]]. destruct H as [H1 H2]. auto.
Qed.
(** [null] or a text. *)
Definition time_ok (v : jsval) : Prop := v = JNull ∨ ∃ s, v = JStr s ∧ s ≠ "" ∧ slen s ≤ 64.
Lemma time_solid v : time_ok v → solid v.
Proof. by intros [-> | (s & -> & _)]. Qed.

Definition client_rule (key : jstr) (client : jstr) (enable : bool) (n : num) (last : jsval) : jsval :=
  JObj [("client", JStr client); ("enable", JBool enable); (key, JNum n); ("last_notified", last)].
Definition client_rule_ok (key : jstr) (lo hi : Z) (y : jsval) : Prop :=
  ∃ client enable n last, y = client_rule key client enable n last ∧ trim client ≠ "" ∧ slen client ≤ 128 ∧ int_in n lo hi ∧ time_ok last.
Lemma validate_offline_reproduces : reproduces validate_offline (λ _ y _, client_rule_ok "grace_period" 30 86400 y) (λ _, True).
Proof.
  intros i [] x ys [] _ H. unfold validate_offline in H. destruct x as [| | | | | |item]; try (clean_in H; done). cbv zeta in H.
  apply clean_bind in H as (c & H1 & H). apply clean_bind in H as (n & H2 & H). apply clean_bind in H as (last & H3 & H). apply (proj1 (clean_ret _ _)) in H. injection H as <-.
  destruct (required_text _ _ _ _ H1) as (s & -> & Hs & Hf & Ht). rewrite Hs. apply integerField_in in H2; [| lia].
  pose proof (optionalTimeField_clean _ _ _ H3) as Hl. set (y := JObj _). exists y. split; [done | split; [exists s, (booleanField (fld item "enable")), n, last; done |]]. intros _ j.
  subst y. rewrite strip_solid by (repeat constructor; by apply time_solid). unfold validate_offline. cbv zeta.
  step (textField_text s (entry "offline_notifications" j +++ ".client") true (Some 128) Hf (λ _, Ht)).
  step (integerField_again n (entry "offline_notifications" j +++ ".grace_period") (of_Z 180) _ _ H2).
  step (optionalTimeField_again _ _ _ (entry "offline_notifications" j +++ ".last_notified") H3). by rewrite Hs.
Qed.
Lemma validate_expiry_reproduces : reproduces validate_expiry (λ _ y _, client_rule_ok "advance_days" 1 365 y) (λ _, True).
Proof.
  intros i [] x ys [] _ H. unfold validate_expiry in H. destruct x as [| | | | | |item]; try (clean_in H; done). cbv zeta in H.
  apply clean_bind in H as (c & H1 & H). apply clean_bind in H as (n & H2 & H). apply clean_bind in H as (last & H3 & H). apply (proj1 (clean_ret _ _)) in H. injection H as <-.
  destruct (required_text _ _ _ _ H1) as (s & -> & Hs & Hf & Ht). rewrite Hs. apply integerField_in in H2; [| lia].
  pose proof (optionalTimeField_clean _ _ _ H3) as Hl. set (y := JObj _). exists y. split; [done | split; [exists s, (booleanField (fld item "enable")), n, last; done |]]. intros _ j.
  subst y. rewrite strip_solid by (repeat constructor; by apply time_solid). unfold validate_expiry. cbv zeta.
  step (textField_text s (entry "expiry_notifications" j +++ ".client") true (Some 128) Hf (λ _, Ht)).
  step (integerField_again n (entry "expiry_notifications" j +++ ".advance_days") (of_Z 7) _ _ H2).
  step (optionalTimeField_again _ _ _ (entry "expiry_notifications" j +++ ".last_notified") H3). by rewrite Hs.
Qed.

Definition load_rule (id : jsval) (name : jstr) (clients : list jstr) (metric : jstr) (threshold ratio interval : num) (last : jsval) : jsval :=
  JObj [("id", id); ("name", JStr name); ("clients", JArr (map JStr clients)); ("metric", JStr metric);
        ("threshold", JNum threshold); ("ratio", JNum ratio); ("interval_min", JNum interval); ("last_notified", last)].
Definition load_rule_ok (y : jsval) : Prop :=
  ∃ id name clients metric threshold ratio interval last,
    y = load_rule id name clients metric threshold ratio interval last ∧ id_given id ∧ slen name ≤ 128 ∧ Forall item_ok clients
    ∧ (length clients ≤ MAX_CLIENTS)%nat ∧ metric ∈ metrics ∧ num_in threshold 0 100000 ∧ num_in ratio 0 1 ∧ int_in interval 1 10080 ∧ time_ok last.
Lemma optional_text v f max t : 0 ≤ max → clean (textField v f false (Some max)) t → slen (text_or t "") ≤ max.
Proof.
  intros Hm H%textField_clean. destruct t as [s|]; [rewrite text_or_some by auto; by destruct H | cbn [text_or]; exact Hm].
Qed.
Lemma validate_load_reproduces : reproduces validate_load (λ _ y _, load_rule_ok y) restorable_id.
Proof.
  intros i [] x ys [] _ H. unfold validate_load in H. destruct x as [| | | | | |item]; try (clean_in H; done). cbv zeta in H.
  apply clean_bind in H as (m & _ & H). apply clean_bind in H as (u & Hm & H). apply (proj1 (clean_push_if _ _ _)) in Hm. apply negb_false_iff, jeq_true in Hm. rewrite Hm in H.
  apply clean_bind in H as (id & H1 & H). apply clean_bind in H as (name & H2 & H). apply clean_bind in H as (cl & H3 & H). apply clean_bind in H as (th & H4 & H).
  apply clean_bind in H as (ra & H5 & H). apply clean_bind in H as (iv & H6 & H). apply clean_bind in H as (last & H7 & H). apply (proj1 (clean_ret _ _)) in H. injection H as <-.
  apply optional_id_given in H1. pose proof (optional_text _ _ 128 _ ltac:(lia) H2) as Hn. destruct (stringArrayField_clean _ _ _ _ H3) as [Hc1 Hc2].
  assert (Hth : num_in th 0 100000) by (destruct (numberField_clean _ _ _ _ _ _ H4) as [-> | ?]; [by apply num_in_Z | done]).
  assert (Hra : num_in ra 0 1) by (destruct (numberField_clean _ _ _ _ _ _ H5) as [-> | ?]; [by vm_compute | done]).
  apply integerField_in in H6; [| lia]. pose proof (optionalTimeField_clean _ _ _ H7) as Hl.
  assert (Hmt : text_or m "cpu" ∈ metrics) by (destruct (mem (text_or m "cpu") metrics) eqn:E; [by apply mem_spec | rewrite <- Hm; list_elem]).
  revert Hmt. generalize (text_or m "cpu") as mt. intros mt Hmt. revert Hn. generalize (text_or name "") as nm. intros nm Hn.
  set (y := JObj _). exists y. split; [done | split; [exists id, nm, cl, mt, th, ra, iv, last; done |]]. intros HR j.
  unfold restorable_id in HR. change (fld (as_object y) "id") with id in HR. destruct H1 as [H1 | ->]; [| done]. subst y.
  rewrite strip_with_id by (first [destruct H1 as [-> | (n & -> & _)]; [by left | by right] | repeat constructor; solve [apply solid_texts | by apply time_solid]]).
  set (item' := (if is_undef id then [] else _) ++ _).
  assert (Hid : fld item' "id" = id) by (by destruct H1 as [-> | (n & -> & _)]).
  assert (Hf : ∀ k, k ∈ (["name"; "clients"; "metric"; "threshold"; "ratio"; "interval_min"; "last_notified"] : list jstr) → fld item' k
    = fld [("name", JStr nm); ("clients", JArr (map JStr cl)); ("metric", JStr mt); ("threshold", JNum th); ("ratio", JNum ra); ("interval_min", JNum iv); ("last_notified", last)] k).
  { intros k Hk. subst item'. destruct H1 as [-> | (n & -> & _)]; [done |]. list_cases Hk; done. }
  clearbody item'. unfold validate_load. cbv zeta. rewrite !Hf by list_elem.
  step (textField_text mt (entry "load_notifications" j +++ ".metric") false (Some 16) ltac:(unfold metrics in Hmt; list_cases Hmt; by vm_compute) ltac:(done)).
  rewrite text_or_some by (right; unfold metrics in Hmt; list_cases Hmt; done). rewrite (proj2 (mem_spec _ _) Hmt).
  apply clean_bind. exists tt. split; [apply clean_push_if; by rewrite jeq_refl |].
  step (optional_id_again item' (entry "load_notifications" j +++ ".id") id H1 Hid).
  step (textField_text nm (entry "load_notifications" j +++ ".name") false (Some 128) Hn ltac:(done)).
  step (stringArrayField_again cl (entry "load_notifications" j +++ ".clients") MAX_CLIENTS Hc1 Hc2).
  step (numberField_again th (entry "load_notifications" j +++ ".threshold") (of_Z 80) _ _ Hth).
  step (numberField_again ra (entry "load_notifications" j +++ ".ratio") (f64 (8 # 10)) _ _ Hra).
  step (integerField_again iv (entry "load_notifications" j +++ ".interval_min") (of_Z 15) _ _ H6).
  step (optionalTimeField_again _ _ _ (entry "load_notifications" j +++ ".last_notified") H7). by rewrite text_or_some by auto.
Qed.

(** ** Website monitors *)

(** The two readers of text lists differ in their limit only. *)
Lemma website_read_strings result source : Website.read_strings result source = PingTask.read_strings 100 result source.
Proof.
  revert result. induction source as [|x source IH]; intros result; [done |]. cbn [Website.read_strings PingTask.read_strings]. destruct x; try apply IH.
  destruct (_ || _); [apply IH |]. destruct (_ <=? _)%nat; [done | apply IH].
Qed.
Lemma website_strings l :
  let out := Website.readStringArray (JArr (map JStr l)) in
  (length out ≤ 100)%nat ∧ NoDup out ∧ Forall (λ s, nonempty s = true ∧ trim s = s) out ∧ (∀ s, s ∈ out → ∃ t, t ∈ l ∧ s = trim t)
  ∧ Website.readStringArray (JArr (map JStr out)) = out.
Proof.
  cbn [Website.readStringArray]. rewrite website_read_strings. set (out := PingTask.read_strings 100 [] (map JStr l)).
  destruct (read_strings_spec 100 (map JStr l) []) as (H1 & H2 & H3 & H4); [lia | constructor | simpl; lia | constructor |]. fold out in H1, H2, H3, H4.
  assert (H5 : ∀ s, s ∈ out → ∃ t, t ∈ l ∧ s = trim t).
  { intros s Hs. destruct (H4 s Hs) as [?%not_elem_of_nil | (t & Ht & ->)]; [done |]. apply list_elem_of_fmap in Ht as (t' & [= ->] & Ht). eauto. }
  assert (H6 : Forall (λ s, nonempty s = true ∧ trim s = s) out).
  { rewrite Forall_forall in *. intros s Hs. split; [auto |]. destruct (H5 s Hs) as (t & _ & ->). apply trim_trim. }
  split; [done | split; [done | split; [done | split; [done |]]]]. rewrite website_read_strings, read_strings_again; [done | done | done | exact H2].
Qed.

(** What the platform's URL parser promises: the serialization of a URL with a host
    has no surrounding white space and parses to that URL. *)
Definition url_law (URL : jstr → option url) : Prop := ∀ s u, URL s = Some u → hostname u ≠ "" → URL (trim (href u)) = Some u.

Section Sites.
Context (URL : jstr → option url).
Definition url_accepted (m : method) (u : url) : Prop := match m with TCP => validateTcpUrl u | _ => validateWebsiteUrl u end = None.
Lemma accepted_hostname m u : url_accepted m u → hostname u ≠ "".
Proof.
  intros H. assert (Hs : website_host_safe (hostname u)).
  { destruct m; [apply validateWebsiteUrl_safe in H as [[H _] _] | apply validateWebsiteUrl_safe in H as [[H _] _] | apply validateTcpUrl_safe in H as [H _]]; done. }
  intros E. rewrite E in Hs. by destruct Hs as [[] _].
Qed.
(** What validation establishes of a monitor. *)
Definition site_ok (v : monitor_input) : Prop :=
  trim (mi_name v) = mi_name v ∧ mi_name v ≠ "" ∧ slen (mi_name v) ≤ 120
  ∧ (∃ s u, URL s = Some u ∧ url_accepted (mi_method v) u ∧ mi_url v = href u)
  ∧ (integerInRange (JNum (mi_status_min v)) 100 599 = Some (mi_status_min v) ∧ integerInRange (JNum (mi_status_max v)) 100 599 = Some (mi_status_max v)
     ∧ integerInRange (JNum (mi_interval v)) 60 86400 = Some (mi_interval v) ∧ integerInRange (JNum (mi_timeout v)) 1 30 = Some (mi_timeout v)
     ∧ integerInRange (JNum (mi_grace v)) 30 86400 = Some (mi_grace v) ∧ integerInRange (JNum (mi_probe_limit v)) 1 10 = Some (mi_probe_limit v))
  ∧ num_lt (mi_status_max v) (mi_status_min v) = false ∧ num_lt (mi_interval v) (mi_timeout v) = false.
Lemma integerInRange_self x lo hi n : integerInRange x lo hi = Some n → integerInRange (JNum n) lo hi = Some n.
Proof. unfold integerInRange. cbn [to_num]. destruct (_ && _) eqn:E; [| done]. intros [= <-]. by rewrite E. Qed.
Lemma validate_site_ok input v :
  validateWebsiteMonitorInput URL input = Ok v → site_ok v ∧ mi_probe_clients v = Website.readStringArray (fld input "agent_probe_clients").
Proof.
  unfold validateWebsiteMonitorInput. cbv zeta. destruct (negb _ || _) eqn:E1; [done |]. destruct (URL _) as [u|] eqn:Eu; [| done].
  destruct (read_method _) as [m|]; [| done]. destruct (match m with TCP => _ | _ => _ end) as [e|] eqn:Em; [done |].
  repeat match goal with |- context [match integerInRange ?x ?lo ?hi with _ => _ end] =>
    let E := fresh "I" in destruct (integerInRange x lo hi) eqn:E; [apply integerInRange_self in E | done] end.
  destruct (num_lt _ _ || num_lt _ _) eqn:E2; [done |]. intros [= <-]. apply orb_false_iff in E1 as [E1 E1'], E2 as [E2 E2'].
  unfold site_ok. cbn. split; [| done]. split; [apply trim_trim |]. split; [apply negb_false_iff in E1; by apply nonempty_true |].
  split; [zlia |]. split; [eexists _, u; split; [exact Eu | done] |]. done.
Qed.
Lemma validate_site_again input v agents :
  url_law URL → site_ok v → (∀ k w, (k, w) ∈ monitor_fields v → k ≠ "agent_probe_clients" → fld input k = w) →
  Website.readStringArray (JArr (map JStr agents)) = mi_probe_clients v →
  validateWebsiteMonitorInput URL (set_field "agent_probe_clients" (JArr (map JStr agents)) input) = Ok v.
Proof.
  intros Hlaw (Hn & Hne & Hlen & (s & u & Hu & Ha & Hh) & (I1 & I2 & I3 & I4 & I5 & I6) & Hst & Htm) Hin Hag.
  set (inp := set_field _ _ _).
  assert (Hf : ∀ k w, (k, w) ∈ monitor_fields v → k ≠ "agent_probe_clients" → fld inp k = w).
  { intros k w Hp Hk. subst inp. rewrite fld_set_field, decide_False by done. auto. }
  assert (Hc : fld inp "agent_probe_clients" = JArr (map JStr agents)) by (subst inp; by rewrite fld_set_field, decide_True).
  clearbody inp. clear Hin. unfold validateWebsiteMonitorInput. cbv zeta.
  rewrite (Hf "name" (JStr (mi_name v))), (Hf "url" (JStr (mi_url v))), (Hf "method" (JStr (method_text (mi_method v)))),
    (Hf "expected_status_min" (JNum (mi_status_min v))), (Hf "expected_status_max" (JNum (mi_status_max v))),
    (Hf "interval_sec" (JNum (mi_interval v))), (Hf "timeout_sec" (JNum (mi_timeout v))), (Hf "grace_period_sec" (JNum (mi_grace v))),
    (Hf "enabled" (JBool (mi_enabled v))), (Hf "hidden" (JBool (mi_hidden v))), (Hf "hide_url" (JBool (mi_hide_url v))),
    (Hf "agent_probe_mode" (JStr (mode_text (mi_probe_mode v)))), (Hf "agent_probe_limit" (JNum (mi_probe_limit v))),
    (Hf "agent_probe_status_enabled" (JBool (mi_probe_status v))) by (done || (unfold monitor_fields; list_elem)).
  rewrite Hc. unfold js_or, or_num. cbn [truthy]. rewrite (proj2 (nonempty_true _) Hne). cbn [to_str coalesce bool_or]. rewrite Hn, (proj2 (nonempty_true _) Hne), (proj2 (Z.ltb_ge _ _) Hlen). cbn [negb orb].
  assert (Hup : URL (trim (mi_url v)) = Some u) by (rewrite Hh; eapply Hlaw; [exact Hu | by eapply accepted_hostname]).
  assert (Hu' : URL (trim (to_str (if nonempty (mi_url v) then JStr (mi_url v) else JStr ""))) = Some u).
  { destruct (nonempty (mi_url v)) eqn:E; [exact Hup |]. apply nonempty_false in E. by rewrite E in Hup. }
  rewrite Hu'. assert (Hm : read_method (JStr (method_text (mi_method v))) = Some (mi_method v)) by (by destruct (mi_method v)). rewrite Hm.
  unfold url_accepted in Ha. rewrite Ha, I1, I2, I3, I4, I5, I6, Hst, Htm. cbn [orb]. rewrite Hag, <- Hh. by destruct v as [? ? ? ? ? ? ? ? ? ? ? [] ? ? ?].
Qed.
End Sites.

Definition site_object (id : jsval) (v : monitor_input) (so : num) : jsval :=
  JObj ((if is_undef id then [] else [("id" : jstr, id)]) ++ monitor_fields v ++ [("sort_order", JNum so)]).
(** The identifiers seen: one that is given is new. *)
Definition sees_id (id : jsval) (ids ids' : list num) : Prop :=
  match id with JNum n => existsb (num_eqb n) ids = false ∧ ids' = n :: ids | _ => ids' = ids end.
(** Every chosen agent is, up to white space around it, a client of the backup. *)
Definition agents_known (clients : option (list jsval)) (agents : list jstr) : Prop :=
  ∀ l, clients = Some l → ∀ a, a ∈ agents → ∃ t, has_client l t = true ∧ a = trim t.
Definition site_step (URL : jstr → option url) (clients : option (list jsval)) (ids : list num) (y : jsval) (ids' : list num) : Prop :=
  ∃ id v so, y = site_object id v so ∧ id_given id ∧ sees_id id ids ids' ∧ site_ok URL v ∧ int_in so 0 2147483647
             ∧ agents_known clients (mi_probe_clients v) ∧ NoDup (mi_probe_clients v) ∧ (length (mi_probe_clients v) ≤ 100)%nat.
(** A later validation compares the agents as they were stored. *)
Definition restorable_site (clients : option (list jsval)) (y : jsval) : Prop :=
  restorable_id y
  ∧ match clients, fld (as_object y) "agent_probe_clients" with
    | Some l, JArr agents => Forall (λ a, has_client l (to_str a) = true) agents
    | _, _ => True
    end.

Section SitesLoop.
Context (URL : jstr → option url) (clients : option (list jsval)).

Lemma site_again item id v so ids ids' agents0 j :
  url_law URL → site_ok URL v → id_ok id → int_in so 0 2147483647 → sees_id id ids ids' →
  fld item "id" = id → fld item "sort_order" = JNum so → fld item "agent_probe_clients" = JArr (map JStr (mi_probe_clients v)) →
  (∀ k w, (k, w) ∈ monitor_fields v → k ≠ "agent_probe_clients" → fld item k = w) →
  Forall item_ok (mi_probe_clients v) → mi_probe_clients v = Website.readStringArray (JArr (map JStr agents0)) →
  (∀ l, clients = Some l → ∀ a, a ∈ mi_probe_clients v → has_client l a = true) →
  clean (validate_website_monitor URL clients j ids (JObj item)) ([site_object id v so], ids').
Proof.
  intros Hlaw Hv Hid Hso Hs F1 F2 F3 F4 Hi Hr Hk. destruct (website_strings agents0) as (W1 & _ & _ & _ & W5). rewrite <- Hr in W1, W5.
  unfold validate_website_monitor. cbv zeta. set (at_ := entry "website_monitors" j). rewrite F3, F2, (F4 "agent_probe_mode" (JStr (mode_text (mi_probe_mode v)))) by (done || (unfold monitor_fields; list_elem)).
  step (optional_id_again item (at_ +++ ".id") id Hid F1). apply clean_bind. exists ids'. split.
  { destruct id; try (rewrite Hs; apply clean_ret; done). destruct Hs as [Hs ->]. apply clean_bind. exists tt. split; [by apply clean_push_if | by apply clean_ret]. }
  apply clean_bind. exists tt. split; [apply clean_push_if; by destruct (mi_probe_mode v) |].
  step (stringArrayField_again (mi_probe_clients v) (at_ +++ ".agent_probe_clients") 100 Hi W1).
  apply clean_bind. exists (match clients with Some _ => map (λ _, tt) (mi_probe_clients v) | None => [] end). split.
  { destruct clients as [l|]; [| done]. apply clean_mapW. specialize (Hk l eq_refl). clear -Hk. induction (mi_probe_clients v) as [|a r IH]; [constructor |].
    constructor; [| apply IH; intros b Hb; apply Hk; by right]. apply clean_push_if. by rewrite Hk by left. }
  rewrite (validate_site_again URL item v (mi_probe_clients v) Hlaw Hv F4 W5).
  by step (integerField_again so (at_ +++ ".sort_order") (of_Z (Z.of_nat j + 1)) _ _ Hso).
Qed.
Lemma fld_site_object id v so k : k ≠ "id" → fld ((if is_undef id then [] else [("id" : jstr, id)]) ++ monitor_fields v ++ [("sort_order", JNum so)]) k = fld (monitor_fields v ++ [("sort_order", JNum so)]) k.
Proof. intros Hk. destruct (is_undef id); [done |]. unfold fld. cbn [Datatypes.app lookup_field]. by rewrite decide_False by done. Qed.
Lemma fld_monitor_fields v so k w : (k, w) ∈ monitor_fields v → fld (monitor_fields v ++ [("sort_order", JNum so)]) k = w.
Proof. intros Hk. unfold monitor_fields in Hk. rewrite !elem_of_cons in Hk. decompose_or Hk; try (injection Hk as -> ->; reflexivity). by apply not_elem_of_nil in Hk. Qed.
Lemma site_solid id v so : id_given id → strip (site_object id v so) = site_object id v so.
Proof.
  intros Hid. apply strip_solid. apply Forall_app. split.
  - destruct Hid as [[-> | (n & -> & _)] | ->]; cbn [is_undef]; by repeat constructor.
  - unfold monitor_fields. cbn [Datatypes.app]. repeat constructor; try apply solid_texts.
Qed.
Lemma validate_site_reproduces : reproduces (validate_website_monitor URL clients) (site_step URL clients) (λ y, url_law URL ∧ restorable_site clients y).
Proof.
  intros i ids x ys ids' Hi H. unfold validate_website_monitor in H. destruct x as [| | | | | |item]; try (clean_in H; done). cbv zeta in H.
  apply clean_bind in H as (id & H1 & H). apply clean_bind in H as (ids2 & H2 & H). apply clean_bind in H as (u1 & _ & H).
  apply clean_bind in H as (agents & H3 & H). apply clean_bind in H as (u2 & H4 & H).
  destruct (validateWebsiteMonitorInput URL _) as [v|e] eqn:Hv; [| clean_in H; done]. apply clean_bind in H as (so & H5 & H). apply (proj1 (clean_ret _ _)) in H. injection H as <- <-.
  apply optional_id_given in H1. apply integerField_in in H5; [| by apply index_in]. apply validate_site_ok in Hv as [Hv Hc].
  rewrite fld_set_field, decide_True in Hc by done. destruct (stringArrayField_clean _ _ _ _ H3) as [Hag _].
  destruct (website_strings agents) as (W1 & W2 & W3 & W4 & _). rewrite <- Hc in W1, W2, W3, W4.
  assert (Hs : sees_id id ids ids2).
  { destruct id; cbn [sees_id]; try (by apply (proj1 (clean_ret _ _)) in H2). clean_in H2. done. }
  assert (Hk : ∀ l, clients = Some l → ∀ a, a ∈ agents → has_client l a = true).
  { intros l -> a Ha. apply clean_mapW in H4. apply list_elem_of_lookup_1 in Ha as [n Hn]. destruct (Forall2_lookup_l _ _ _ _ _ H4 Hn) as (y & _ & Hy).
    apply (proj1 (clean_push_if _ _ _)) in Hy. by apply negb_false_iff. }
  fold (site_object id v so). exists (site_object id v so). split; [done | split].
  - exists id, v, so. split; [done | split; [done | split; [done | split; [done | split; [done | split; [| done]]]]]].
    intros l Hl a (t & Ht & ->)%W4. exists t. split; [by apply (Hk l Hl) | done].
  - intros [Hlaw [HR1 HR2]] j. rewrite site_solid by done.
    assert (Fid : fld (as_object (site_object id v so)) "id" = id) by (by destruct H1 as [[-> | (n & -> & _)] | ->]).
    unfold restorable_id in HR1. rewrite Fid in HR1. destruct H1 as [H1 | ->]; [| done].
    assert (Fag : fld (as_object (site_object id v so)) "agent_probe_clients" = JArr (map JStr (mi_probe_clients v))).
    { unfold site_object. cbn [as_object]. rewrite fld_site_object by done. apply fld_monitor_fields. unfold monitor_fields. list_elem. }
    rewrite Fag in HR2. unfold site_object at 1. eapply site_again; [exact Hlaw | exact Hv | exact H1 | exact H5 | exact Hs | exact Fid | by rewrite fld_site_object | exact Fag | | | exact Hc |].
    + intros k w Hkw Hne. rewrite fld_site_object; [by apply fld_monitor_fields |]. intros ->. unfold monitor_fields in Hkw. rewrite !elem_of_cons in Hkw. decompose_or Hkw; try discriminate Hkw. by apply not_elem_of_nil in Hkw.
    + rewrite Forall_forall in *. intros a Ha. destruct (W3 a Ha) as [Ha1 Ha2]. split; [| by rewrite Ha2]. destruct (W4 a Ha) as (t & Ht & ->). destruct (Hag t Ht) as [Hl _]. pose proof (trim_length t). lia.
    + intros l Hl a Ha. rewrite Hl in HR2. rewrite Forall_forall in HR2. specialize (HR2 (JStr a)). rewrite list_elem_of_fmap in HR2. specialize (HR2 (ex_intro _ a (conj eq_refl Ha))). exact HR2.
Qed.
End SitesLoop.

(** ** Settings *)

Definition stored_setting (URL : jstr → option url) (p : jstr * jstr) : Prop :=
  mem p.1 REMOVED_SETTING_KEYS = false ∧ ∃ value, normalizeSettingValue URL p.1 value "" = Ok p.2.
Definition text_fields (settings : list (jstr * jstr)) : fields := map (λ p, (p.1, JStr p.2)) settings.
Section SettingsLoop.
Context (URL : jstr → option url).
Lemma sanitize_loop_stored settings errors ignored entries :
  let out := sanitize_loop URL true "" settings errors ignored entries in
  NoDup (map fst settings) → Forall (stored_setting URL) settings → sn_ok out = bool_decide (sn_errors out = []) ∧ NoDup (map fst (sn_settings out)) ∧ Forall (stored_setting URL) (sn_settings out).
Proof.
  revert settings errors ignored. induction entries as [|[k v] entries IH]; intros settings errors ignored out; subst out; cbn [sanitize_loop]; [done |]. intros Hnd Hs.
  destruct (mem k REMOVED_SETTING_KEYS) eqn:Er; cbn [andb]; [by apply IH |]. destruct (normalizeSettingValue URL k v "") as [w|e] eqn:En; [| by apply IH].
  apply IH.
  - destruct (mem k (map fst settings)) eqn:Em.
    + enough (H : map fst (set_field k w settings) = map fst settings) by (by rewrite H). clear -Em. apply mem_spec in Em. induction settings as [|[k' v'] l IH]; [by apply not_elem_of_nil in Em |].
      cbn [set_field]. destruct (decide (k = k')) as [-> | Hne]; [done |]. cbn [map fst] in *. f_equal. apply IH. apply elem_of_cons in Em as [? | ?]; done.
    + apply mem_false in Em. rewrite set_field_append, map_app by done. apply NoDup_app. split; [done |]. split; [| apply NoDup_singleton]. by intros x Hx ->%list_elem_of_singleton.
  - apply Forall_forall. intros p [-> | Hp]%set_field_elem; [by split; [| exists v] | by apply (proj1 (Forall_forall _ _) Hs)].
Qed.

Lemma validate_settings_clean input s w :
  clean (validate_settings URL input) (s, w) →
  s = [] ∧ fld input "settings" = JUndef
  ∨ ∃ settings, s = [("settings", JObj (text_fields settings))] ∧ NoDup (map fst settings) ∧ Forall (stored_setting URL) settings.
Proof.
  unfold validate_settings. destruct (fld input "settings") as [| | | | | |entries] eqn:E; try (by intros [= <- <-]; left); cbv zeta;
    try (unfold clean; intros [= <- _]; right; exists []; split; [done | split; [constructor | constructor]]).
  unfold clean. intros [= <- _ _]. right. exists (sn_settings (sanitizeSettingsForStorage URL (JObj entries) true "")). split; [done |].
  apply (sanitize_loop_stored [] [] [] entries); constructor.
Qed.
(** The settings read back through the platform's URL parser. *)
Definition settled (s : fields) : Prop :=
  ∀ fs, s = [("settings", JObj fs)] → ∀ k v, (k, JStr v) ∈ fs → k ∈ URL_KEYS → normalizeSettingValue URL k (JStr v) "" = Ok v.
Lemma validate_settings_again input s w input' :
  clean (validate_settings URL input) (s, w) → settled s → fld input' "settings" = fld s "settings" → clean (validate_settings URL input') (s, []).
Proof.
  intros [[-> _] | (settings & -> & Hnd & Hs)]%validate_settings_clean Hset Hin; unfold validate_settings; rewrite Hin; [done |].
  change (fld [("settings", ?v)] "settings") with v. cbv beta iota zeta. unfold sanitizeSettingsForStorage.
  unfold text_fields. rewrite (sanitize_loop_texts URL "" settings []); [done | done |]. rewrite Forall_forall in *. intros [k v] Hp. destruct (Hs _ Hp) as (Hr & value & Hv). split; [done |]. cbn [fst snd] in *.
  destruct (mem k URL_KEYS) eqn:E.
  - apply mem_spec in E. eapply Hset; [reflexivity | | done]. apply list_elem_of_fmap. by exists (k, v).
  - apply mem_false in E. by eapply normalizeSettingValue_idempotent.
Qed.
End SettingsLoop.

(** ** The whole backup *)

(** A module that is absent, or the result of its validator on at most [max] entries. *)
Definition module_of (input : fields) (key : jstr) (max : nat) (validate : list jsval → W (list jsval)) (m : option (list jsval)) : Prop :=
  match m with
  | None => fld input key = JUndef
  | Some out => ∃ items, (length items ≤ max)%nat ∧ clean (validate items) out
  end.
Lemma validate_module_clean input key max validate m : clean (validate_module input key max validate) m → module_of input key max validate m.
Proof.
  unfold validate_module, requireArray. intros H. apply clean_bind in H as (items & H1 & H). destruct (fld input key) as [| | | | |l|] eqn:E; try (clean_in H1; done).
  - clean_in H1. clean_in H. exact E.
  - clean_in H1. apply clean_bind in H as (out & H & H2). apply (proj1 (clean_ret _ _)) in H2 as <-. exists (take max l). split; [rewrite length_take; lia | done].
Qed.
Lemma validate_module_again input key max validate m :
  fld input key = match m with Some l => JArr (map strip l) | None => JUndef end →
  (∀ out, m = Some out → (length out ≤ max)%nat ∧ clean (validate (map strip out)) out) → clean (validate_module input key max validate) m.
Proof.
  intros Hf Hm. unfold validate_module, requireArray. rewrite Hf. destruct m as [out|]; [| done]. destruct (Hm out eq_refl) as [Hlen Hc].
  apply clean_bind. exists (Some (map strip out)). split.
  - apply clean_bind. exists tt. split; [apply clean_push_if; apply Nat.ltb_ge; rewrite length_map; lia |]. apply clean_ret. by rewrite take_ge by (rewrite length_map; lia).
  - by step Hc.
Qed.

(** The modules of a backup. *)
Record modules := {
  b_settings : fields; b_clients : option (list jsval); b_tasks : option (list jsval); b_offline : option (list jsval);
  b_expiry : option (list jsval); b_load : option (list jsval); b_sites : option (list jsval);
}.
Definition module_fields (m : modules) : fields :=
  b_settings m ++ added "clients" (b_clients m) ++ added "ping_tasks" (b_tasks m) ++ added "offline_notifications" (b_offline m)
  ++ added "expiry_notifications" (b_expiry m) ++ added "load_notifications" (b_load m) ++ added "website_monitors" (b_sites m).
Definition backup_of (version : jstr) (timestamp : option jstr) (m : modules) : fields :=
  backup_head (Some BACKUP_SCHEMA_ID) (Some version) timestamp ++ module_fields m.
Definition version_ok (v : jstr) : Prop := slen v ≤ 32 ∧ (starts_with "1." v = true ∨ starts_with "2." v = true).
Section Whole.
Context (URL : jstr → option url).
(** Each module comes from its validator. *)
Record validated (input : fields) (m : modules) : Prop := {
  vd_settings : ∃ w, clean (validate_settings URL input) (b_settings m, w);
  vd_clients : module_of input "clients" MAX_CLIENTS validateClients (b_clients m);
  vd_tasks : module_of input "ping_tasks" MAX_PING_TASKS (validatePingTasks URL) (b_tasks m);
  vd_offline : module_of input "offline_notifications" MAX_NOTIFICATIONS validateOfflineNotifications (b_offline m);
  vd_expiry : module_of input "expiry_notifications" MAX_NOTIFICATIONS validateExpiryNotifications (b_expiry m);
  vd_load : module_of input "load_notifications" MAX_NOTIFICATIONS validateLoadNotifications (b_load m);
  vd_sites : module_of input "website_monitors" MAX_WEBSITE_MONITORS (λ items, validateWebsiteMonitors URL items (b_clients m)) (b_sites m);
  vd_some : module_fields m ≠ [];
}.
Lemma validate_body_clean input b w :
  clean (validate_body URL input) (b, w) →
  ∃ version timestamp m, b = backup_of version timestamp m ∧ version_ok version ∧ trim version ≠ ""
    ∧ match timestamp with Some t => slen t ≤ 64 | None => True end ∧ validated input m.
Proof.
  unfold validate_body. intros H. apply clean_bind in H as (schema & H1 & H). apply clean_bind in H as (version & H2 & H).
  apply clean_bind in H as (scope & _ & H). apply clean_bind in H as (ts & H4 & H). cbv zeta in H.
  apply clean_bind in H as (u1 & Hs & H). apply clean_bind in H as (u2 & _ & H). apply clean_bind in H as (u3 & Hv & H).
  apply clean_bind in H as ([st w3] & S1 & H). cbv beta iota in H. apply clean_bind in H as (cl & S2 & H). apply clean_bind in H as (pt & S3 & H).
  apply clean_bind in H as (off & S4 & H). apply clean_bind in H as (ex & S5 & H). apply clean_bind in H as (ld & S6 & H). apply clean_bind in H as (ws & S7 & H).
  apply clean_bind in H as (u4 & Hm & H). apply (proj1 (clean_ret _ _)) in H. injection H as <- _.
  apply (proj1 (clean_push_if _ _ _)) in Hs, Hv, Hm. apply bool_decide_eq_false in Hm.
  apply validate_module_clean in S2, S3, S4, S5, S6, S7.
  destruct (required_text _ _ _ _ H2) as (v & -> & Hvv & Hfit & Htrim). rewrite Hvv in Hv.
  set (m := {| b_settings := st; b_clients := cl; b_tasks := pt; b_offline := off; b_expiry := ex; b_load := ld; b_sites := ws |}).
  assert (Hsch : text_or schema BACKUP_SCHEMA_ID = BACKUP_SCHEMA_ID).
  { destruct schema as [s|]; [| done]. cbn [text_or] in *. unfold or_str in *. destruct (nonempty s) eqn:E; [| done]. rewrite E in Hs. cbn [andb] in Hs. by apply negb_false_iff, jeq_true in Hs. }
  assert (Hne : v ≠ "") by (intros ->; by apply Htrim).
  exists v, ts, m. split; [| split; [| split; [done | split; [by apply textField_clean in H4; destruct ts; [destruct H4 |] | split; eauto]]]].
  - unfold backup_of, backup_head. by rewrite Hsch.
  - split; [exact Hfit |]. rewrite (proj2 (nonempty_true _) Hne) in Hv. cbn [andb] in Hv. destruct (starts_with "1." v); [by left | right]. by apply negb_false_iff in Hv.
Qed.
End Whole.

(** *** The backup without its undefined parts *)

Definition strip_fields (fs : fields) : fields := omap (λ p, if is_undef p.2 then None else Some (p.1, strip p.2)) fs.
Lemma strip_obj fs : strip (JObj fs) = JObj (strip_fields fs).
Proof. done. Qed.
Lemma strip_fields_app a b : strip_fields (a ++ b) = strip_fields a ++ strip_fields b.
Proof. unfold strip_fields. by rewrite omap_app. Qed.
Lemma strip_added k m : strip_fields (added k m) = added k (map strip <$> m).
Proof. by destruct m. Qed.
Lemma lookup_added k k' m : lookup_field k (added k' m) = if decide (k = k') then JArr <$> m else None.
Proof. destruct m; cbn [added lookup_field]; by case_decide. Qed.
Definition strip_modules (m : modules) : modules :=
  {| b_settings := b_settings m; b_clients := map strip <$> b_clients m; b_tasks := map strip <$> b_tasks m; b_offline := map strip <$> b_offline m;
     b_expiry := map strip <$> b_expiry m; b_load := map strip <$> b_load m; b_sites := map strip <$> b_sites m |}.
Definition settings_shape (s : fields) : Prop := s = [] ∨ ∃ l, s = [("settings", JObj (text_fields l))].
Lemma strip_module_fields m : settings_shape (b_settings m) → strip_fields (module_fields m) = module_fields (strip_modules m).
Proof.
  intros Hs. unfold module_fields. rewrite !strip_fields_app, !strip_added. cbn [strip_modules b_settings b_clients b_tasks b_offline b_expiry b_load b_sites].
  f_equal. destruct Hs as [-> | (l & ->)]; [done |]. unfold strip_fields. cbn [omap list_omap fst snd is_undef]. rewrite strip_solid; [done |].
  apply Forall_forall. intros p Hp. unfold text_fields in Hp. apply list_elem_of_fmap in Hp as (q & -> & _). done.
Qed.
Lemma fld_modules m k :
  settings_shape (b_settings m) →
  fld (module_fields m) k =
    if decide (k = "settings") then fld (b_settings m) "settings"
    else match (if decide (k = "clients") then b_clients m else if decide (k = "ping_tasks") then b_tasks m
         else if decide (k = "offline_notifications") then b_offline m else if decide (k = "expiry_notifications") then b_expiry m
         else if decide (k = "load_notifications") then b_load m else if decide (k = "website_monitors") then b_sites m else None)
    with Some l => JArr l | None => JUndef end.
Proof.
  intros Hs. unfold fld, module_fields. rewrite !lookup_app, !lookup_added.
  assert (Hset : lookup_field k (b_settings m) = if decide (k = "settings") then lookup_field "settings" (b_settings m) else None).
  { destruct Hs as [-> | (l & ->)]; cbn [lookup_field]; by repeat case_decide. }
  rewrite Hset. destruct (decide (k = "settings")) as [-> | Hk].
  { destruct (lookup_field "settings" (b_settings m)); [done |]. by rewrite !decide_False by done. }
  repeat (case_decide; [subst; rewrite ?decide_False by done; match goal with |- context [JArr <$> ?o] => by destruct o end |]). done.
Qed.
Lemma no_timestamp m : settings_shape (b_settings m) → lookup_field "timestamp" (module_fields (strip_modules m)) = None.
Proof.
  intros Hs. unfold module_fields. rewrite !lookup_app, !lookup_added. rewrite !(decide_False (P := @eq jstr "timestamp" _)) by done.
  cbn [strip_modules b_settings]. by destruct Hs as [-> | (l & ->)].
Qed.
Lemma fld_head schema v ts m k :
  k ∉ (["schema"; "version"; "scope"; "timestamp"; "excluded"; "sensitive"; "warning"] : list jstr) → fld (strip_fields (backup_head schema v ts) ++ m) k = fld m k.
Proof.
  intros Hk. unfold fld. rewrite lookup_app. rewrite !not_elem_of_cons in Hk. destruct Hk as (? & ? & ? & ? & ? & ? & ? & _).
  assert (Hn : lookup_field k (strip_fields (backup_head schema v ts)) = None).
  { unfold backup_head, strip_fields. destruct ts; cbn [omap list_omap fst snd is_undef lookup_field]; by rewrite !decide_False by done. }
  by rewrite Hn.
Qed.

Lemma head_known v ts m :
  let inp := strip_fields (backup_head (Some BACKUP_SCHEMA_ID) (Some v) ts) ++ m in
  fld inp "schema" = JStr BACKUP_SCHEMA_ID ∧ fld inp "version" = JStr v ∧ fld inp "scope" = JStr BACKUP_SCOPE
  ∧ (lookup_field "timestamp" m = None → fld inp "timestamp" = text_value ts).
Proof.
  unfold backup_head. rewrite (text_or_some v "") by auto. destruct ts as [t|]; [done |]. split; [done | split; [done | split; [done |]]].
  intros Hm. unfold fld. rewrite lookup_app. by rewrite Hm.
Qed.

Section WholeAgain.
Context (URL : jstr → option url).
(** What a later validation needs beyond what the first one establishes. *)
Record restorable (m : modules) : Prop := {
  rs_settings : settled URL (b_settings m);
  rs_tasks : ∀ l, b_tasks m = Some l → Forall restorable_id l;
  rs_load : ∀ l, b_load m = Some l → Forall restorable_id l;
  rs_sites : ∀ l, b_sites m = Some l → Forall (λ y, url_law URL ∧ restorable_site (b_clients m) y) l;
}.
Lemma module_again {C} (f : nat → C → jsval → W (list jsval * C)) P R st input key max m :
  reproduces f P R → (max ≤ MAX_NOTIFICATIONS)%nat → module_of input key max (flatMapW f 0 st) m →
  (∀ out, m = Some out → Forall R out) → ∀ out, m = Some out → (length out ≤ max)%nat ∧ clean (flatMapW f 0 st (map strip out)) out.
Proof.
  intros Hf Hmax Hm HR out ->. destruct Hm as (items & Hlen & Hc). destruct (flatMapW_again f P R 0 st items out Hf ltac:(lia) Hc) as (H1 & _ & H3).
  split; [lia | by apply H3, HR].
Qed.
#[local] Ltac again_module o G H D R :=
  apply clean_bind; exists o; split;
  [apply validate_module_again; [rewrite G by list_elem; cbn [strip_modules b_clients b_tasks b_offline b_expiry b_load b_sites]; by destruct o |];
   eapply module_again; [by apply H | unfold MAX_CLIENTS, MAX_PING_TASKS, MAX_WEBSITE_MONITORS, MAX_NOTIFICATIONS; lia | exact D | exact R] |].
Lemma validate_body_again version timestamp m :
  version_ok version → trim version ≠ "" → match timestamp with Some t => slen t ≤ 64 | None => True end →
  (∃ input, validated URL input m) → restorable m →
  clean (validate_body URL (strip_fields (backup_of version timestamp m))) (backup_of version timestamp m, []).
Proof.
  intros [Hvl Hvs] Hvt Hts (input & Hd) HR. destruct Hd as [[w0 D1] D2 D3 D4 D5 D6 D7 D8].
  assert (Hshape : settings_shape (b_settings m)) by (destruct (validate_settings_clean _ _ _ _ D1) as [[-> _] | (l & -> & _)]; [by left | right; eauto]).
  unfold backup_of at 1. rewrite strip_fields_app, strip_module_fields by done. set (inp := strip_fields _ ++ _).
  assert (F : ∀ k, k ∉ (["schema"; "version"; "scope"; "timestamp"; "excluded"; "sensitive"; "warning"] : list jstr) → fld inp k = fld (module_fields (strip_modules m)) k) by (intros; by apply fld_head).
  destruct (head_known version timestamp (module_fields (strip_modules m))) as (F1 & F2 & F3 & F4). fold inp in F1, F2, F3, F4. specialize (F4 (no_timestamp _ Hshape)). clearbody inp.
  assert (G : ∀ k, k ∈ (["settings"; "clients"; "ping_tasks"; "offline_notifications"; "expiry_notifications"; "load_notifications"; "website_monitors"] : list jstr) →
    fld inp k = fld (module_fields (strip_modules m)) k).
  { intros k Hk. apply F. intros Hin. list_cases Hk; list_cases Hin; done. }
  clear F. setoid_rewrite fld_modules in G; [| exact Hshape]. unfold validate_body. rewrite F1, F2, F3, F4.
  step (textField_text BACKUP_SCHEMA_ID "schema" false (Some 64) ltac:(by vm_compute) ltac:(done)).
  step (textField_text version "version" true (Some 32) Hvl (λ _, Hvt)). step (textField_text BACKUP_SCOPE "scope" false (Some 32) ltac:(by vm_compute) ltac:(done)).
  apply clean_bind. exists timestamp. split; [destruct timestamp; [by apply textField_text | done] |]. cbv beta zeta.
  rewrite (text_or_some version "") by auto. apply clean_bind. exists tt. split; [done |]. apply clean_bind. exists tt. split; [done |].
  apply clean_bind. exists tt. split.
  { apply clean_push_if. destruct Hvs as [-> | ->]; cbn [negb]; by rewrite ?andb_false_r. }
  apply clean_bind. exists (b_settings m, []). split.
  { eapply validate_settings_again; [exact D1 | by destruct HR |]. rewrite G by list_elem. done. }
  destruct HR as [_ R2 R3 R4]. unfold validateClients, validatePingTasks, validateOfflineNotifications, validateExpiryNotifications, validateLoadNotifications, validateWebsiteMonitors in *.
  assert (Hall : ∀ o out, o = Some out → Forall (λ _ : jsval, True) out) by (intros; by apply Forall_true). cbv iota.
  again_module (b_clients m) G validate_client_reproduces D2 (Hall (b_clients m)). again_module (b_tasks m) G validate_ping_task_reproduces D3 R2.
  again_module (b_offline m) G validate_offline_reproduces D4 (Hall (b_offline m)). again_module (b_expiry m) G validate_expiry_reproduces D5 (Hall (b_expiry m)).
  again_module (b_load m) G validate_load_reproduces D6 R3. again_module (b_sites m) G validate_site_reproduces D7 R4.
  apply clean_bind. exists tt. split; [apply clean_push_if; by apply bool_decide_eq_false |]. apply clean_ret.
  unfold backup_of, backup_head. by rewrite text_or_some by auto.
Qed.
End WholeAgain.

(** ** Properties *)

(** Monitors do not share an identifier. *)
Definition ids_distinct (l : list jsval) : Prop :=
  ForallOrdPairs (λ y z, ∀ n k, fld (as_object y) "id" = JNum n → fld (as_object z) "id" = JNum k → num_eqb k n = false) l.
Lemma site_object_id id v so : id_given id → fld (as_object (site_object id v so)) "id" = id.
Proof. by intros [[-> | (n & -> & _)] | ->]. Qed.
Lemma chain_ids URL clients ids l :
  chain (site_step URL clients) ids l →
  ids_distinct l ∧ Forall (λ y, ∀ k, fld (as_object y) "id" = JNum k → existsb (num_eqb k) ids = false) l.
Proof.
  revert ids. induction l as [|y l IH]; intros ids; cbn [chain]; [split; constructor |]. intros (ids' & (id & v & so & -> & Hid & Hs & _) & Hc).
  destruct (IH _ Hc) as [IH1 IH2]. split.
  - constructor; [| exact IH1]. eapply Forall_impl; [exact IH2 |]. cbn beta. intros z Hz n k Hn Hk. rewrite site_object_id in Hn by done. subst id.
    specialize (Hz k Hk). cbn [sees_id] in Hs. destruct Hs as [_ ->]. cbn [existsb] in Hz. apply orb_false_iff in Hz as [Hz _]. exact Hz.
  - constructor.
    + intros k Hk. rewrite site_object_id in Hk by done. subst id. by destruct Hs.
    + eapply Forall_impl; [exact IH2 |]. cbn beta. intros z Hz k Hk. specialize (Hz k Hk). destruct id; cbn [sees_id] in Hs; try (by rewrite Hs in Hz).
      destruct Hs as [_ ->]. cbn [existsb] in Hz. apply orb_false_iff in Hz as [_ Hz]. exact Hz.
Qed.
Definition site_entry_ok (URL : jstr → option url) (clients : option (list jsval)) (y : jsval) : Prop :=
  ∃ id v so, y = site_object id v so ∧ id_given id ∧ site_ok URL v ∧ int_in so 0 2147483647
             ∧ agents_known clients (mi_probe_clients v) ∧ NoDup (mi_probe_clients v) ∧ (length (mi_probe_clients v) ≤ 100)%nat.
Lemma module_chain {C} (f : nat → C → jsval → W (list jsval * C)) P R st input key max m :
  reproduces f P R → (max ≤ MAX_NOTIFICATIONS)%nat → module_of input key max (flatMapW f 0 st) m →
  ∀ out, m = Some out → (length out ≤ max)%nat ∧ chain P st out.
Proof.
  intros Hf Hmax Hm out ->. destruct Hm as (items & Hlen & Hc). destruct (flatMapW_again f P R 0 st items out Hf ltac:(lia) Hc) as (H1 & H2 & _). split; [lia | done].
Qed.
Lemma chain_all {C} (Q : jsval → Prop) (st : C) l : chain (λ _ y _, Q y) st l → Forall Q l.
Proof. apply chain_Forall. auto. Qed.

Lemma module_limits n : n ∈ [MAX_CLIENTS; MAX_PING_TASKS; MAX_WEBSITE_MONITORS; MAX_NOTIFICATIONS] → (n ≤ MAX_NOTIFICATIONS)%nat.
Proof. intros Hn. list_cases Hn; apply Nat.leb_le; by vm_compute. Qed.
(** What a validated backup holds. *)
Record consistent (URL : jstr → option url) (m : modules) : Prop := {
  cn_settings : b_settings m = [] ∨ ∃ l, b_settings m = [("settings", JObj (text_fields l))] ∧ NoDup (map fst l) ∧ Forall (stored_setting URL) l;
  cn_clients : ∀ l, b_clients m = Some l → (length l ≤ 1000)%nat ∧ Forall (λ y, ∃ c, y = JObj c ∧ client_ok c) l
    ∧ distinct "uuid" l ∧ distinct "token" l ∧ distinct "token_hash" l;
  cn_tasks : ∀ l, b_tasks m = Some l → (length l ≤ 1000)%nat ∧ Forall (task_ok URL) l;
  cn_offline : ∀ l, b_offline m = Some l → (length l ≤ 5000)%nat ∧ Forall (client_rule_ok "grace_period" 30 86400) l;
  cn_expiry : ∀ l, b_expiry m = Some l → (length l ≤ 5000)%nat ∧ Forall (client_rule_ok "advance_days" 1 365) l;
  cn_load : ∀ l, b_load m = Some l → (length l ≤ 5000)%nat ∧ Forall load_rule_ok l;
  cn_sites : ∀ l, b_sites m = Some l → (length l ≤ 1000)%nat ∧ Forall (site_entry_ok URL (b_clients m)) l ∧ ids_distinct l;
}.
Lemma validated_consistent URL input m : validated URL input m → consistent URL m.
Proof.
  intros [[w D1] D2 D3 D4 D5 D6 D7 _].
  unfold validateClients, validatePingTasks, validateOfflineNotifications, validateExpiryNotifications, validateLoadNotifications, validateWebsiteMonitors in *. split.
  - destruct (validate_settings_clean _ _ _ _ D1) as [[-> _] | (l & -> & ?)]; [by left | right; eauto].
  - intros l Hl. destruct (module_chain _ _ _ _ _ _ _ _ validate_client_reproduces (module_limits MAX_CLIENTS ltac:(list_elem)) D2 _ Hl) as [H1 H2]. split; [done |].
    split; [eapply chain_Forall; [| exact H2]; intros s y s' (c & -> & Hc & _); eauto |].
    split; [| split]; [eapply (chain_distinct _ s_uuids) | eapply (chain_distinct _ s_tokens) | eapply (chain_distinct _ s_hashes)]; try exact H2; by intros s y s' (c & -> & _ & ? & ? & ?).
  - intros l Hl. destruct (module_chain _ _ _ _ _ _ _ _ (validate_ping_task_reproduces URL) (module_limits MAX_PING_TASKS ltac:(list_elem)) D3 _ Hl) as [H1 H2]. split; [done | by eapply chain_all].
  - intros l Hl. destruct (module_chain _ _ _ _ _ _ _ _ validate_offline_reproduces (module_limits MAX_NOTIFICATIONS ltac:(list_elem)) D4 _ Hl) as [H1 H2]. split; [done | by eapply chain_all].
  - intros l Hl. destruct (module_chain _ _ _ _ _ _ _ _ validate_expiry_reproduces (module_limits MAX_NOTIFICATIONS ltac:(list_elem)) D5 _ Hl) as [H1 H2]. split; [done | by eapply chain_all].
  - intros l Hl. destruct (module_chain _ _ _ _ _ _ _ _ validate_load_reproduces (module_limits MAX_NOTIFICATIONS ltac:(list_elem)) D6 _ Hl) as [H1 H2]. split; [done | by eapply chain_all].
  - intros l Hl. destruct (module_chain _ _ _ _ _ _ _ _ (validate_site_reproduces URL (b_clients m)) (module_limits MAX_WEBSITE_MONITORS ltac:(list_elem)) D7 _ Hl) as [H1 H2]. split; [done |].
    split; [| by apply chain_ids in H2 as [? _]]. eapply chain_Forall; [| exact H2]. intros ids y ids' (id & v & so & ? & ? & _ & ?). by exists id, v, so.
Qed.


(** What reading a backup again needs: settings that hold URLs normalize to
    themselves, no identifier came from [null], the agents of a monitor are clients
    of the backup as they are stored. *)
Definition arrays (v : jsval) : option (list jsval) := match v with JArr l => Some l | _ => None end.
Record backup_restorable (URL : jstr → option url) (b : fields) : Prop := {
  br_settings : ∀ fs, fld b "settings" = JObj fs → ∀ k v, (k, JStr v) ∈ fs → k ∈ URL_KEYS → normalizeSettingValue URL k (JStr v) "" = Ok v;
  br_tasks : ∀ l, fld b "ping_tasks" = JArr l → Forall restorable_id l;
  br_load : ∀ l, fld b "load_notifications" = JArr l → Forall restorable_id l;
  br_sites : ∀ l, fld b "website_monitors" = JArr l → Forall (restorable_site (arrays (fld b "clients"))) l;
}.
Lemma backup_restorable_modules URL version ts m :
  url_law URL → settings_shape (b_settings m) → backup_restorable URL (backup_of version ts m) → restorable URL m.
Proof.
  intros Hlaw Hshape [R1 R2 R3 R4].
  assert (F : ∀ k, k ∈ (["settings"; "clients"; "ping_tasks"; "load_notifications"; "website_monitors"] : list jstr) → fld (backup_of version ts m) k = fld (module_fields m) k).
  { intros k Hk. unfold backup_of, fld. rewrite lookup_app. by list_cases Hk. }
  rewrite F in R1, R2, R3, R4 by list_elem. rewrite (F "clients") in R4 by list_elem. rewrite fld_modules in R1, R2, R3, R4 by done. rewrite (fld_modules m "clients") in R4 by done. split.
  - intros fs Hfs. apply R1. by rewrite Hfs.
  - intros l Hl. apply R2. cbn. by rewrite Hl.
  - intros l Hl. apply R3. cbn. by rewrite Hl.
  - intros l Hl. eapply Forall_impl; [apply (R4 l); cbn; by rewrite Hl |]. cbn beta. intros y Hy. split; [done |]. replace (b_clients m) with (arrays (match b_clients m with Some l => JArr l | None => JUndef end)) by (by destruct (b_clients m)). exact Hy.
Qed.
(** A validated backup is valid again, without a warning, and is what it was. *)
Lemma validateBackup_again URL input b w :
  url_law URL → validateBackup URL input = Ok (JObj b, w) → backup_restorable URL b → validateBackup URL (strip (JObj b)) = Ok (JObj b, []).
Proof.
  unfold validateBackup at 1. intros Hlaw. destruct input as [| | | | | |input]; try done. destruct (validate_body URL input) as [[backup warnings] errors] eqn:E.
  case_bool_decide as He; [| done]. intros [= <- <-] HR. subst errors. destruct (validate_body_clean _ _ _ _ E) as (version & ts & m & -> & Hv & Hvt & Hts & Hm).
  rewrite strip_obj. unfold validateBackup.
  assert (Hs : settings_shape (b_settings m)).
  { destruct (vd_settings _ _ _ Hm) as [w D]. destruct (validate_settings_clean _ _ _ _ D) as [[-> _] | (l & -> & _)]; [by left | right; eauto]. }
  pose proof (validate_body_again URL version ts m Hv Hvt Hts (ex_intro _ input Hm) (backup_restorable_modules _ _ _ _ Hlaw Hs HR)) as Ha.
  unfold clean in Ha. rewrite Ha. done.
Qed.


(** ** Witnesses *)

Definition ex_site : url :=
  {| protocol := "https:"; username := ""; password := ""; hostname := "status.example"; port := ""; pathname := "/"; search := ""; hash := "";
     href := "https://status.example/"; origin := "https://status.example" |}.
Definition ex_URL (s : jstr) : option url := if mem s ["https://status.example"; "https://status.example/"] then Some ex_site else None.
Definition ex_backup : jsval :=
  JObj [("version", JStr "2.0.0"); ("settings", JObj [("site_title", JStr "My probes"); ("update_mode", JStr "auto")]);
        ("clients", JArr [JObj [("uuid", JStr "node-1"); ("name", JStr "Tokyo"); ("price", JNum (of_Z (-1)))]]);
        ("ping_tasks", JArr [JObj [("id", JNum (of_Z 4)); ("name", JStr " dns "); ("clients", JStr "[]"); ("all_clients", JBool true); ("target", JStr "1.1.1.1")]]);
        ("load_notifications", JArr [JObj [("name", JStr "hot"); ("clients", JArr [JStr "node-1"])]]);
        ("website_monitors", JArr [JObj [("name", JStr "Status"); ("url", JStr "https://status.example"); ("agent_probe_clients", JArr [JStr "node-1"])]])].
Definition ex_valid : fields * list jstr :=
  match validateBackup ex_URL ex_backup with Ok (JObj b, w) => (b, w) | _ => ([], []) end.
Lemma ex_valid_ok : validateBackup ex_URL ex_backup = Ok (JObj ex_valid.1, ex_valid.2).
Proof. vm_compute. reflexivity. Qed.

(** A stand-in for the cipher: the text itself and sixteen zeros. *)
Definition ex_crypto : BackupCrypto :=
  {| crypto_key := unit; deriveKey := λ _ _ _, tt; gcm_encrypt := λ _ _ m, m ++ replicate 16 0; gcm_decrypt := λ _ _ c, Some (take (length c - 16) c) |}.
Lemma ex_crypto_laws : @BackupCryptoLaws ex_crypto.
Proof.
  split; cbn [gcm_encrypt gcm_decrypt ex_crypto].
  - intros _ _ m _. rewrite length_app, length_replicate. f_equal. rewrite take_app_le by lia. apply take_ge. lia.
  - intros _ _ m Hm. rewrite length_app, length_replicate. split; [| done]. apply Forall_app. split; [done |]. by apply Forall_replicate.
Qed.
Definition ex_salt : list Z := replicate 16 7.
Definition ex_iv : list Z := replicate 12 9.
Definition ex_file : jsval :=
  match @encryptBackup ex_URL ex_crypto ex_backup "correct horse" ex_salt ex_iv "2025-01-01T00:00:00.000Z" with Ok e => e | Err _ => JNull end.
Lemma ex_url_law : url_law ex_URL.
Proof. intros s u. unfold ex_URL. destruct (mem s _); [| done]. intros [= <-] _. by vm_compute. Qed.
Definition restorable_siteb (clients : option (list jsval)) (y : jsval) : bool :=
  negb (match fld (as_object y) "id" with JNum n => bool_decide (n = of_Z 0) | _ => false end)
  && match clients, fld (as_object y) "agent_probe_clients" with Some l, JArr agents => forallb (λ a, has_client l (to_str a)) agents | _, _ => true end.
Lemma restorable_siteb_sound clients l : forallb (restorable_siteb clients) l = true → Forall (restorable_site clients) l.
Proof.
  rewrite forallb_true, Forall_forall. intros H y Hy. specialize (H y Hy). unfold restorable_siteb in H. apply andb_true_iff in H as [H1 H2]. split.
  - unfold restorable_id. intros E. rewrite E in H1. by rewrite bool_decide_eq_true_2 in H1.
  - destruct clients as [cl|]; [| done]. destruct (fld (as_object y) "agent_probe_clients"); try done. rewrite forallb_true in H2. by apply Forall_forall.
Qed.
Lemma ex_restorable : backup_restorable ex_URL ex_valid.1.
Proof.
  split.
  - intros fs Hfs k v Hk Hin. assert (fs = match fld ex_valid.1 "settings" with JObj fs => fs | _ => [] end) as -> by (by rewrite Hfs). clear Hfs.
    assert (Hnone : forallb (λ p, negb (mem p.1 URL_KEYS)) (match fld ex_valid.1 "settings" with JObj fs => fs | _ => [] end) = true) by (vm_compute; reflexivity).
    rewrite forallb_true in Hnone. specialize (Hnone _ Hk). cbn [fst] in Hnone. apply negb_true_iff, mem_false in Hnone. done.
  - intros l Hl. assert (l = match fld ex_valid.1 "ping_tasks" with JArr l => l | _ => [] end) as -> by (by rewrite Hl). vm_compute. repeat constructor. done.
  - intros l Hl. assert (l = match fld ex_valid.1 "load_notifications" with JArr l => l | _ => [] end) as -> by (by rewrite Hl). vm_compute. repeat constructor. done.
  - intros l Hl. assert (l = match fld ex_valid.1 "website_monitors" with JArr l => l | _ => [] end) as -> by (by rewrite Hl).
    apply restorable_siteb_sound. vm_compute. reflexivity.
Qed.

(** A task whose identifier is [null] is accepted with the identifier 0, which the
    next validation refuses: the encrypted file does not restore. *)
Definition null_id_backup : jsval :=
  JObj [("version", JStr "2.0.0"); ("ping_tasks", JArr [JObj [("id", JNull); ("name", JStr "dns"); ("all_clients", JBool true); ("target", JStr "1.1.1.1")]])].
Lemma null_id_not_restored :
  match @encryptBackup ex_URL ex_crypto null_id_backup "correct horse" ex_salt ex_iv "2025-01-01T00:00:00.000Z" with
  | Ok e => @decryptBackup ex_URL ex_crypto e "correct horse" = Err "解密成功但备份校验失败: ping_tasks[0].id 必须在 1 到 9007199254740991 之间"
  | Err _ => False
  end.
Proof. vm_compute. reflexivity. Qed.
(** A fractional reset day is accepted, though its column is an integer. *)
Lemma fractional_reset_day :
  match validateBackup ex_URL (JObj [("version", JStr "2.0.0"); ("clients", JArr [JObj [("uuid", JStr "a"); ("traffic_reset_day", JNum (Fin (3 # 2)))]])]) with
  | Ok (JObj b, _) => match fld b "clients" with JArr [JObj c] => fld c "traffic_reset_day" = JNum (Fin (3 # 2)) | _ => False end
  | _ => False
  end.
Proof. vm_compute. reflexivity. Qed.
