(* ===== verification/AdminHttp.v ===== *)
(** * The administrator's routes: what the handlers of [routes/admin.ts] share

    The calls a handler awaits, what the module keeps between requests, the tasks left
    in the background, the reading of a body, the caches and their invalidation, and the
    messages to the live object.  A promise that a handler starts without awaiting it is
    a task; where it is awaited later the handler yields.  The [Server-Timing] header is
    left out. *)

From S2P Require Import Prelude JsStr JsNum JsVal JsList JsBytes Net PingTask Settings Report Client LiveAdmin Effects AgentHttp RequestBody Outbox.
#[local] Open Scope Z_scope.

(** @worker/src/routes/admin.ts:88-95 MAX_ADMIN_USERNAME_BYTES (constants) *)
Definition MAX_ADMIN_USERNAME_BYTES : Z := 64.
Definition CAPACITY_ESTIMATE_CACHE_MS : Z := 30000.
Definition ADMIN_CLIENTS_CACHE_MS : Z := 5000.
Definition ADMIN_PING_TASKS_CACHE_MS : Z := 5000.
Definition ADMIN_PING_TASKS_EDGE_CACHE_SECONDS : Z := 15.
(** @worker/src/routes/admin.ts:96-98 ADMIN_SETTINGS_SCOPE_CACHE_MS (constants) *)
Definition ADMIN_SETTINGS_SCOPE_CACHE_MS : Z := 10000.
Definition HEALTH_CACHE_MS : Z := 30000.
Definition ALLOWED_CLIENT_IDS_CACHE_MS : Z := 30000.
(** @worker/src/routes/admin.ts:209-209 MAX_SITE_LOGO_BYTES *)
Definition MAX_SITE_LOGO_BYTES : Z := 1024 * 1024.

(** ** Calls, state and tasks *)

(** @worker/src/db/types.ts:129-132 DeleteClientsResult *)
Record removal := { rm_removed : num; rm_records : jsval }.
(** The stored procedures the handlers call; a row is its columns, identifiers of rows
    are numbers. *)
Inductive db_call :=
| ListClients
| ListClientIds
| GetClientRow (uuid : jstr)
| GetClientTokenMeta (uuid : jstr)
| GetClientsByIds (uuids : list jstr)
| ClientTokenExists (token : jstr)
| CreateClient (client : new_client)
| UpdateClientAndReturn (uuid : jstr) (data : fields)
| DeleteClient (uuid : jstr)
| DeleteClients (uuids : list jstr)
| RotateClientToken (uuid token : jstr)
| ReorderClients (uuids : list jstr)
| UpdateClientsHidden (uuids : list jstr) (hidden : bool)
| PruneClientReferences (uuid : jstr)
| PruneClientReferencesForClients (uuids : list jstr)
| CleanupOrphanClientData
| ClearClientRecords (uuid : jstr)
| ClearAllRecords
| AuditLog (user action detail level : jstr)
| ListTasks
| CreatePingTask (task : PingTask.ping_task)
| UpdatePingTaskAndReturn (id : num) (task : PingTask.ping_task)
| ReorderPingTasks (ids : list num)
| DeletePingTask (id : num)
| ListWebsiteMonitors
| ListWebsiteChecks (id limit : num)
| GetWebsiteMonitor (id : num)
| CreateWebsiteMonitor (data : jsval)
| UpdateWebsiteMonitorAndReturn (id : num) (data : jsval)
| SetWebsiteMonitorVisibility (id : num) (hidden : bool)
| SetWebsiteMonitorEnabled (id : num) (enabled : bool)
| ReorderWebsiteMonitors (ids : list num)
| DeleteWebsiteMonitor (id : num)
| RecordWebsiteCheck (check : jsval)
| GetAllSettings
| GetSettings (keys : list jstr)
| SetSettings (settings : list (jstr * jstr))
| ListNotifications (kind : jstr)
| SetOfflineNotifications (items : jsval)
| SetExpiryNotifications (items : jsval)
| GetLoadNotification (id : num)
| CreateLoadNotification (data : jsval)
| UpdateLoadNotification (id : num) (data : jsval)
| DeleteLoadNotification (id : num)
| GetBackupConfigurationSnapshot
| RestoreBackupData (backup : jsval).
Definition db_ans (c : db_call) : Type :=
  match c with
  | ListClients | GetClientsByIds _ => list fields
  | ListClientIds => list jstr
  | GetClientRow _ | GetClientTokenMeta _ | UpdateClientAndReturn _ _ | RotateClientToken _ _ => option fields
  | ClientTokenExists _ | SetWebsiteMonitorVisibility _ _ | SetWebsiteMonitorEnabled _ _ | UpdateLoadNotification _ _ => bool
  | CreateClient _ | CreateWebsiteMonitor _ | GetBackupConfigurationSnapshot => fields
  | DeleteClient _ | DeleteClients _ => removal
  | ReorderClients _ | UpdateClientsHidden _ _ | ReorderPingTasks _ | ReorderWebsiteMonitors _
  | SetOfflineNotifications _ | SetExpiryNotifications _ => num
  | PruneClientReferences _ | PruneClientReferencesForClients _ | CleanupOrphanClientData | ClearAllRecords => jsval
  | ListTasks => list PingTaskRow
  | CreatePingTask _ => PingTaskRow
  | UpdatePingTaskAndReturn _ _ | DeletePingTask _ => option PingTaskRow
  | ListWebsiteMonitors | ListWebsiteChecks _ _ | ListNotifications _ => list fields
  | GetWebsiteMonitor _ | UpdateWebsiteMonitorAndReturn _ _ | RecordWebsiteCheck _ | GetLoadNotification _ => option fields
  | GetAllSettings | GetSettings _ => list (jstr * jstr)
  | _ => unit
  end.
(** [Sync] is a call of [synchronizePendingClientChanges]; the edge cache is
    [caches.default]. *)
Inductive admin_call :=
| LiveCall (method path : jstr) (body : jsval)
| Sync (c : sync_call)
| Db (c : db_call)
| EdgeMatch (path : jstr)
| EdgePut (path : jstr) (content : jsval)
| EdgeDelete (path : jstr)
| ProbeWebsite (monitor : fields).
Definition admin_ans (c : admin_call) : Type :=
  match c with
  | LiveCall _ _ _ => reply
  | Sync c => sync_ans c
  | Db c => db_ans c
  | EdgeMatch _ => option jsval
  | EdgePut _ _ => unit
  | EdgeDelete _ => bool
  | ProbeWebsite _ => jsval
  end.
(** @worker/src/routes/admin.ts:244-248 allowedClientIdsCache (module state) -- with the
    estimates of lines 1078-1079, and the state of the modules it invalidates *)
Record admin_state := {
  agentState : agent_state;
  allowedClientIdsCache : option (list jstr * Z);
  adminClientsCache : option (list fields * Z);
  adminPingTasksCache : option (list PingTaskRow * Z);
  adminSettingsScopeCache : list (jstr * (fields * Z));
  capacityRowCountCache : option (jsval * Z);
  capacityEstimateCache : option (fields * Z);
}.
Definition with_agent v st := {| agentState := v; allowedClientIdsCache := allowedClientIdsCache st; adminClientsCache := adminClientsCache st;
  adminPingTasksCache := adminPingTasksCache st; adminSettingsScopeCache := adminSettingsScopeCache st;
  capacityRowCountCache := capacityRowCountCache st; capacityEstimateCache := capacityEstimateCache st |}.
Definition with_allowed v st := {| agentState := agentState st; allowedClientIdsCache := v; adminClientsCache := adminClientsCache st;
  adminPingTasksCache := adminPingTasksCache st; adminSettingsScopeCache := adminSettingsScopeCache st;
  capacityRowCountCache := capacityRowCountCache st; capacityEstimateCache := capacityEstimateCache st |}.
Definition with_clients v st := {| agentState := agentState st; allowedClientIdsCache := allowedClientIdsCache st; adminClientsCache := v;
  adminPingTasksCache := adminPingTasksCache st; adminSettingsScopeCache := adminSettingsScopeCache st;
  capacityRowCountCache := capacityRowCountCache st; capacityEstimateCache := capacityEstimateCache st |}.
Definition with_ping_tasks v st := {| agentState := agentState st; allowedClientIdsCache := allowedClientIdsCache st;
  adminClientsCache := adminClientsCache st; adminPingTasksCache := v; adminSettingsScopeCache := adminSettingsScopeCache st;
  capacityRowCountCache := capacityRowCountCache st; capacityEstimateCache := capacityEstimateCache st |}.
Definition with_settings v st := {| agentState := agentState st; allowedClientIdsCache := allowedClientIdsCache st;
  adminClientsCache := adminClientsCache st; adminPingTasksCache := adminPingTasksCache st; adminSettingsScopeCache := v;
  capacityRowCountCache := capacityRowCountCache st; capacityEstimateCache := capacityEstimateCache st |}.
Definition with_capacity rows estimate st := {| agentState := agentState st; allowedClientIdsCache := allowedClientIdsCache st;
  adminClientsCache := adminClientsCache st; adminPingTasksCache := adminPingTasksCache st;
  adminSettingsScopeCache := adminSettingsScopeCache st; capacityRowCountCache := rows; capacityEstimateCache := estimate |}.

Inductive admin_task :=
| PurgePublicMetadata
| PurgeClients
| PurgePings
| PutPings (tasks : list PingTaskRow)
| RepairSnapshot (clients : list fields) (expectedVersion : jsval) (confirmedRemoved : list jstr)
| AfterRemoval (uuid : jstr) (result : removal)
| RefreshPingTasks
| RefreshAgentPolicy
| RefreshRecordSettings
| Broadcast (detail : fields)
| Audit (user action detail level : jstr).
Abbreviation admin := (prog admin_call admin_ans admin_state admin_task).
Definition call_db (c : db_call) : admin (db_ans c) := act (Db c : admin_call).
Definition on_agent (u : agent_state → agent_state) : admin unit := Local (λ st, with_agent (u (agentState st)) st) (λ _, Ret tt).
Definition updated (u : admin_state → admin_state) : admin unit := Local u (λ _, Ret tt).

(** The bindings, with [typeof caches !== 'undefined'], and a request: its query, the
    administrator the gate let in, and the headers beside those of [AgentHttp]. *)
Record admin_env := { ae_bindings : bindings; ae_caches : bool }.
Record admin_request := {
  aq_base : request; aq_query : list (jstr * jstr); aq_userId : jstr; aq_username : jstr; aq_hostname : jstr; aq_backup_password : option jstr;
}.

Section Shared.
Context (env : admin_env) (aq : admin_request).

Definition need_database : admin unit := match db_error (ae_bindings env) with Some e => Throw e | None => Ret tt end.
Definition live_call (method path : jstr) (body : jsval) : admin reply :=
  if LIVE_DATA (ae_bindings env) then act (LiveCall method path body : admin_call) else Throw missing_binding.
Definition reply_json (r : reply) : admin jsval := Yield (Ret (default JNull (rp_json r))).
Definition error_details (code : Z) (error : jstr) (details : list jstr) : response :=
  {| status := code; content := JObj [("error", JStr error); ("details", texts details)] |}.
(** [c.req.query(key)], and whether it is '1' or 'true' *)
Definition query (key : jstr) : option jstr := lookup_field key (aq_query aq).
(** @worker/src/routes/admin.ts:676-678 isQueryFlagEnabled *)
Definition isQueryFlagEnabled (value : option jstr) : bool := match value with Some v => jeq v "1" || jeq v "true" | None => false end.
Definition audit (action detail : jstr) : admin unit := call_db (AuditLog (aq_username aq) action detail "info").
Definition audit_later (action detail : jstr) : admin unit := spawn (Audit (aq_username aq) action detail "info").

(** ** Reading a body *)

(** @worker/src/routes/admin.ts:299-301 isJsonObjectArrayBody *)
Definition isJsonObjectArrayBody (value : jsval) : option (list fields) :=
  match value with JArr l => mapM isJsonObjectBody l | _ => None end.
(** @worker/src/routes/admin.ts:323-330 readAdminJsonObject *)
Definition readAdminJsonObject : admin (result response fields) :=
  readAdminJsonBody (aq_base aq) "请求 JSON 格式错误" "请求内容必须是 JSON 对象" isJsonObjectBody MAX_ADMIN_JSON_BYTES.
(** @worker/src/routes/admin.ts:332-340 readAdminJsonObjectOrArray -- an object is read as
    the array of it, as every caller does *)
Definition readAdminJsonObjectOrArray : admin (result response (list fields)) :=
  readAdminJsonBody (aq_base aq) "请求 JSON 格式错误" "请求内容必须是 JSON 对象或对象数组"
    (λ body, match isJsonObjectBody body with Some fs => Some [fs] | None => isJsonObjectArrayBody body end) MAX_ADMIN_JSON_BYTES.
(** [const parsed = await read(c); if (!parsed.ok) return parsed.response;] *)
Definition with_body {A} (read : admin (result response A)) (k : A → admin response) : admin response :=
  let! parsed := read in match parsed with Err r => Ret r | Ok body => k body end.

(** ** Caches *)

(** @worker/src/routes/admin.ts:352-354 invalidateAllowedClientIdsCache *)
Definition invalidateAllowedClientIdsCache : admin unit := updated (with_allowed None).
(** @worker/src/routes/admin.ts:364-366 invalidateAdminClientsCache *)
Definition invalidateAdminClientsCache : admin unit := updated (with_clients None).
(** @worker/src/routes/admin.ts:368-370 invalidateAdminPingTasksCache *)
Definition invalidateAdminPingTasksCache : admin unit := updated (with_ping_tasks None).
(** @worker/src/routes/admin.ts:372-374 invalidateAdminSettingsCache *)
Definition invalidateAdminSettingsCache : admin unit := updated (with_settings []).
(** @worker/src/routes/admin.ts:1081-1084 invalidateCapacityEstimateCache *)
Definition invalidateCapacityEstimateCache : admin unit := updated (with_capacity None None).
(** @worker/src/routes/admin.ts:356-358 adminClientsEdgeCacheRequest *)
Definition admin_clients_edge : jstr := "https://cf-monitor.internal/cache/admin/clients/v2".
(** @worker/src/routes/admin.ts:360-362 adminPingTasksEdgeCacheRequest *)
Definition admin_pings_edge : jstr := "https://cf-monitor.internal/cache/admin/ping/v2".
(** @worker/src/routes/public.ts:243-250 purgePublicMetadataEdgeCache (paths) *)
Definition public_metadata_paths : list jstr :=
  ["/api/public/bootstrap"; "/api/clients"; "/api/nodes"; "/api/public"; "/api/task/ping"; "/api/websites"].
(** [caches.default.delete(...).catch(() => false)] *)
Definition edge_delete (path : jstr) : admin bool := catch (act (EdgeDelete path : admin_call)) (λ _, Ret false).
(** @worker/src/routes/public.ts:241-255 purgePublicMetadataEdgeCache -- once started *)
Definition purgePublicMetadataEdgeCache : admin unit :=
  if ae_caches env then foldr (λ path rest, let! _ := edge_delete path in rest) (Ret tt) public_metadata_paths else Ret tt.
(** @worker/src/routes/admin.ts:376-379 invalidateAdminPublicMetadata *)
Definition invalidateAdminPublicMetadata : admin unit := do! on_agent invalidatePublicMetadataCache in spawn PurgePublicMetadata.
(** @worker/src/routes/admin.ts:381-386 purgeAdminClientsEdgeCache *)
Definition purgeAdminClientsEdgeCache : admin bool := if ae_caches env then edge_delete admin_clients_edge else Yield (Ret false).
(** @worker/src/routes/admin.ts:388-393 purgeAdminPingTasksEdgeCache *)
Definition purgeAdminPingTasksEdgeCache : admin unit := spawn PurgePings.
(** @worker/src/routes/admin.ts:395-411 getAdminPingTasksEdgeCache -- the stored body *)
Definition getAdminPingTasksEdgeCache : admin (option jsval) :=
  if negb (ae_caches env) then Yield (Ret None)
  else catch
    (let! cached := act (EdgeMatch admin_pings_edge : admin_call) in
     match cached with
     | None => Ret None
     | Some body =>
       do! header "Cache-Control" "no-store" in do! header "X-CF-VPS-Monitor-Admin-Ping-Cache" "edge-hit" in Ret (Some body)
     end)
    (λ _, Ret None).
(** @worker/src/routes/admin.ts:413-424 putAdminPingTasksEdgeCache -- once started *)
Definition putAdminPingTasksEdgeCache (tasks : list PingTaskRow) : admin unit :=
  if ae_caches env then catch (act (EdgePut admin_pings_edge (JArr (map task_json tasks)) : admin_call)) (λ _, Ret tt) else Ret tt.
(** [cache && cache.expiresAt > Date.now()] *)
Definition fresh {A} (cache : option (A * Z)) (now : Z) : option A :=
  match cache with Some (value, expiresAt) => if now <? expiresAt then Some value else None | None => None end.
(** @worker/src/routes/admin.ts:487-499 listAdminClientsCached *)
Definition listAdminClientsCached (force : bool) : admin (list fields) :=
  let! now := clock in
  let! st := get in
  match (if force then None else fresh (adminClientsCache st) now) with
  | Some clients => Ret clients
  | None =>
    let! clients := call_db ListClients in
    let! later := clock in
    do! updated (with_clients (Some (clients, later + ADMIN_CLIENTS_CACHE_MS))) in
    Ret clients
  end.
(** @worker/src/routes/admin.ts:501-512 listAdminPingTasksCached *)
Definition listAdminPingTasksCached (force : bool) : admin (list PingTaskRow) :=
  let! now := clock in
  let! st := get in
  match (if force then None else fresh (adminPingTasksCache st) now) with
  | Some tasks => Ret tasks
  | None =>
    let! tasks := call_db ListTasks in
    let! later := clock in
    do! updated (with_ping_tasks (Some (tasks, later + ADMIN_PING_TASKS_CACHE_MS))) in
    Ret tasks
  end.
(** @worker/src/routes/admin.ts:718-731 getAllowedClientIds *)
Definition getAllowedClientIds : admin (list jstr) :=
  let! now := clock in
  let! st := get in
  match fresh (allowedClientIdsCache st) now with
  | Some ids => Ret ids
  | None =>
    let! ids := call_db ListClientIds in
    do! updated (with_allowed (Some (ids, now + ALLOWED_CLIENT_IDS_CACHE_MS))) in
    Ret ids
  end.

(** ** Messages to the live object *)

Definition try_live (path : jstr) (body : jsval) : admin unit := catch (let! _ := live_call "POST" path body in Ret tt) (λ _, Ret tt).
(** @worker/src/routes/admin.ts:571-579 refreshLivePingTasks *)
Definition refreshLivePingTasks : admin unit := try_live "ping-tasks-refresh" JUndef.
(** @worker/src/routes/admin.ts:581-589 refreshLiveAgentPolicy *)
Definition refreshLiveAgentPolicy : admin unit := try_live "policy-refresh" JUndef.
(** @worker/src/routes/admin.ts:591-603 broadcastLiveMetadataChanged *)
Definition broadcastLiveMetadataChanged (detail : fields) : admin unit := try_live "metadata-refresh" (JObj detail).
(** @worker/src/routes/admin.ts:529-532 requireLiveSynchronization *)
Definition requireLiveSynchronization (r : reply) : admin unit :=
  let! body := reply_json r in
  if negb (rp_ok r) || negb (is_bool (fld (as_object body) "success") true) then Throw "Durable client synchronization was not acknowledged"
  else Ret tt.
(** @worker/src/routes/admin.ts:514-527 syncLiveClientMeta *)
Definition syncLiveClientMeta (client : fields) : admin unit :=
  let hidden := JBool (truthy (fld client "hidden")) in
  let! r := live_call "POST" "client-meta"
    (JObj [("client", JObj (set_field "hidden" hidden client)); ("uuid", fld client "uuid"); ("name", fld client "name"); ("hidden", hidden)]) in
  requireLiveSynchronization r.

(** The worker of [Outbox], called from a handler. *)
Fixpoint within_handler {A} (p : prog sync_call sync_ans unit Empty_set A) : admin A :=
  match p with
  | Ret a => Ret a
  | Throw e => Throw e
  | Act c k => Act (Sync c : admin_call) (λ x, within_handler (k x))
  | Yield k => Yield (within_handler k)
  | Local _ k => within_handler (k tt)
  | Clock k => Clock (λ t, within_handler (k t))
  | Header h k => Header h (within_handler k)
  | Spawn t _ => match t with end
  end.
Definition synchronize (o : sync_options) : admin Z := within_handler (synchronizePendingClientChanges (LIVE_DATA (ae_bindings env)) o).
Definition committed_unsynchronized : response :=
  {| status := 503;
     content := JObj [("error", JStr "更改已保存，但实时状态同步尚未完成，后台将自动重试。请稍后刷新确认。"); ("committed", JBool true);
                      ("synchronized", JBool false)] |}.
(** @worker/src/routes/admin.ts:534-543 synchronizeClientWrite *)
Definition synchronizeClientWrite (uuids : list jstr) : admin (option response) :=
  catch (do! need_database in
         let! _ := synchronize {| so_uuids := Some uuids; so_limit := None; so_drain := false |} in
         Ret None)
        (λ _, do! header "Retry-After" "2" in Ret (Some committed_unsynchronized)).
(** [const syncFailure = await synchronizeClientWrite(c, uuids); if (syncFailure) return syncFailure;] *)
Definition synchronized (uuids : list jstr) (k : admin response) : admin response :=
  let! failure := synchronizeClientWrite uuids in match failure with Some r => Ret r | None => k end.
End Shared.
