(* ===== verification/AdminNodes.v ===== *)
(** * Nodes in the panel: the node and record routes of [routes/admin.ts]

    The list of nodes, merged from the database and the live object's snapshot; creating,
    editing, removing, reordering and hiding nodes, their tokens, and the clearing of
    records.  Every write of a node is followed by the delivery of its queued change
    ([Outbox]); the random identifier and the random tokens are parameters, as is
    [Date.parse]. *)

From S2P Require Import Prelude JsStr JsNum JsVal JsList JsBytes Net PingTask Settings Report Client LiveAdmin Effects AgentHttp RequestBody Outbox AdminHttp.
#[local] Open Scope Z_scope.

(** [SameValueZero] of keys: not on two [NaN]s, which no identifier is. *)
Definition map_get {V} (k : jsval) (m : list (jsval * V)) : option V :=
  option_map snd (List.find (λ p, strict_eq p.1 k) m).
Definition map_del {V} (k : jsval) (m : list (jsval * V)) : list (jsval * V) := List.filter (λ p, negb (strict_eq p.1 k)) m.
(** [map.set(k, v)]: a present key keeps its place. *)
Fixpoint map_set {V} (k : jsval) (v : V) (m : list (jsval * V)) : list (jsval * V) :=
  match m with
  | [] => [(k, v)]
  | p :: m => if strict_eq p.1 k then (p.1, v) :: m else p :: map_set k v m
  end.
(** [item && typeof item === 'object'], with the properties a spread copies *)
Definition own_fields (item : jsval) : option fields :=
  match item with
  | JObj fs => Some fs
  | JArr l => Some (imap (λ i x, (dec_Z (Z.of_nat i), x)) l)
  | _ => None
  end.

(** ** The snapshot of the live object *)

(** @worker/src/routes/admin.ts:212-217 AdminClientsSnapshot *)
Record AdminClientsSnapshot := { sn_clients : list fields; sn_removed : list jstr; sn_updatedAt : num; sn_complete : bool }.
(** @worker/src/routes/admin.ts:438-449 readAdminClientsSnapshot (the body) *)
Definition admin_clients_snapshot (body : jsval) : option AdminClientsSnapshot :=
  let body := as_object body in
  match fld body "clients" with
  | JArr items =>
    match mapM own_fields items with
    | Some clients =>
      Some {| sn_clients := clients;
              sn_removed := match fld body "removed" with
                            | JArr l => omap (λ x, match x with JStr s => if nonempty (trim s) then Some s else None | _ => None end) l
                            | _ => []
                            end;
              sn_updatedAt := to_num (js_or (fld body "updatedAt") (JNum (of_Z 0)));
              sn_complete := negb (is_bool (fld body "complete") false) |}
    | None => None
    end
  | _ => None
  end.

(** @worker/src/routes/admin.ts:426-429 hideAdminClientToken *)
Definition hideAdminClientToken (client : fields) : fields := del_field "token_hash" (del_field "token" client).

Section Merge.
Context (date_parse : jstr → option Z).
(** [Date.parse(value || '') || 0] *)
Definition time_of (value : jsval) : Z := default 0 (date_parse (to_str (js_or value (JStr "")))).
Definition clients_map (clients : list fields) : list (jsval * fields) := fold_left (λ m c, map_set (fld c "uuid") c m) clients [].
(** Whether a node that SQL does not know was first seen after the query started. *)
Definition newly_seen (snapshot : AdminClientsSnapshot) (beforeRead : option AdminClientsSnapshot) (uuid : jsval) : bool :=
  num_lt (match beforeRead with Some b => sn_updatedAt b | None => of_Z 0 end) (sn_updatedAt snapshot)
  && negb (match beforeRead with Some b => existsb (λ previous, strict_eq (fld previous "uuid") uuid) (sn_clients b) | None => false end).
(** @worker/src/routes/admin.ts:475-482 applyAdminClientsSnapshot (a client) *)
Definition merge_client (snapshot : AdminClientsSnapshot) (beforeRead : option AdminClientsSnapshot) (byUuid : list (jsval * fields)) (client : fields)
    : list (jsval * fields) :=
  let uuid := fld client "uuid" in
  let existing := map_get uuid byUuid in
  if match existing with None => negb (newly_seen snapshot beforeRead uuid) | Some _ => false end then byUuid
  else if match existing with Some e => time_of (fld client "updated_at") <? time_of (fld e "updated_at") | None => false end then byUuid
  else if match uuid with JStr u => mem u (sn_removed snapshot) | _ => false end then byUuid
  else map_set uuid (spread (default [] existing) client) byUuid.
(** @worker/src/routes/admin.ts:466-485 applyAdminClientsSnapshot -- its third argument
    is always given *)
Definition applyAdminClientsSnapshot (clients : list fields) (snapshot beforeRead : option AdminClientsSnapshot) : list fields :=
  match snapshot with
  | None => clients
  | Some s =>
    let byUuid := fold_left (λ m uuid, map_del (JStr uuid) m) (sn_removed s) (clients_map clients) in
    map snd (fold_left (merge_client s beforeRead) (sn_clients s) byUuid)
  end.
End Merge.

(** ** Lists of identifiers *)

Fixpoint unique (l : list jstr) : list jstr :=
  match l with [] => [] | x :: r => x :: List.filter (λ y, negb (jeq x y)) (unique r) end.
(** [value.map(item => String(item || '').trim()).filter(Boolean)] *)
Definition trimmed_texts (l : list jsval) : list jstr :=
  List.filter nonempty (map (λ item, trim (to_str (js_or item (JStr "")))) l).
(** @worker/src/routes/admin.ts:1006-1022 parseUniqueStringList *)
Definition parseUniqueStringList (value : jsval) (maxItems : nat) : result jstr (list jstr) :=
  match value with
  | JArr l =>
    let values := unique (trimmed_texts l) in
    if (length values =? 0)%nat then Err "客户端列表不能为空"
    else if (maxItems <? length values)%nat then Err ("一次最多处理 " +++ dec_Z (Z.of_nat maxItems) +++ " 个客户端")
    else Ok values
  | _ => Err "客户端列表不能为空"
  end.
Definition row_uuid (c : fields) : jstr := text_of (fld c "uuid").
Definition known_uuids (clients : list fields) (uuids : list jstr) : list jstr := List.filter (λ u, mem u (map row_uuid clients)) uuids.
Definition missing_uuids (clients : list fields) (uuids : list jstr) : list jstr := List.filter (λ u, negb (mem u (map row_uuid clients))) uuids.

(** [/needle/i.test(text)] of an ASCII needle in lower case *)
Definition includes_fold (needle text : jstr) : bool := includes needle (JS (map (λ u, if is_upper u then (u + 32)%N else u) (units text))).
(** @worker/src/routes/admin.ts:549-551 isClientUniqueConflict *)
Definition isClientUniqueConflict (error : jstr) : bool :=
  existsb (λ needle, includes_fold needle error) ["23505"; "duplicate key"; "unique constraint"; "clients_pkey"; "clients_token"].

Section Nodes.
Context (env : admin_env) (aq : admin_request) (date_parse : jstr → option Z) (random_uuid : jstr) (random_token : nat → jstr).

Abbreviation body_of := (with_body (readAdminJsonObject aq)).
Abbreviation audit := (AdminHttp.audit aq).
Abbreviation audit_later := (AdminHttp.audit_later aq).

(** @worker/src/routes/admin.ts:435-450 readAdminClientsSnapshot *)
Definition readAdminClientsSnapshot : admin (option AdminClientsSnapshot) :=
  let! r := live_call env "GET" "admin-clients-snapshot" JUndef in
  if negb (rp_ok r) then Ret None else let! body := reply_json r in Ret (admin_clients_snapshot body).
Definition opt_texts (l : option (list jstr)) : jsval := match l with Some l => texts l | None => JUndef end.
(** @worker/src/routes/admin.ts:452-464 writeAdminClientsSnapshot *)
Definition writeAdminClientsSnapshot (clients : list fields) (expectedVersion : jsval) (confirmedRemoved : option (list jstr)) (mode : jsval)
    : admin bool :=
  let! r := live_call env "PUT" "admin-clients-snapshot"
    (JObj [("clients", JArr (map JObj clients)); ("expected_version", expectedVersion); ("confirmed_removed", opt_texts confirmedRemoved);
           ("mode", mode)]) in
  Ret (rp_ok r).
(** The two purges a handler awaits together; the first was started before. *)
Definition purges_done : admin unit := let! _ := purgeAdminClientsEdgeCache env in Yield (Ret tt).
(** [invalidateAgentClientAuthCache({ uuid })] *)
Definition forget_agent (uuid : jsval) : admin unit := on_agent (AgentHttp.invalidateAgentClientAuthCache (Some uuid)).

(** @worker/src/routes/admin.ts:1464-1499 GET /clients *)
Definition list_clients : admin response :=
  let refresh := isQueryFlagEnabled (query aq "refresh") in
  let! snapshot := readAdminClientsSnapshot in
  let beforeRead := snapshot in
  let baseVersion := match snapshot with Some s => JNum (sn_updatedAt s) | None => JNull end in
  let settled s := sn_complete s && (length (sn_removed s) =? 0)%nat in
  match (if refresh then None else match snapshot with Some s => if settled s then Some s else None | None => None end) with
  | Some s =>
    do! header "X-CF-VPS-Monitor-Admin-Clients-Cache" "do-hit" in
    do! header "Cache-Control" "no-store" in
    Ret (json_ok (JArr (map JObj (sn_clients s))))
  | None =>
    let repair o := match o with Some s => negb (settled s) | None => false end in
    let! now := clock in
    let! st := get in
    let cacheHit := negb refresh && negb (repair snapshot) && match fresh (adminClientsCache st) now with Some _ => true | None => false end in
    do! need_database env in
    let! clients := listAdminClientsCached (refresh || repair snapshot) in
    let! snapshot := readAdminClientsSnapshot in
    let safeClients := applyAdminClientsSnapshot date_parse (map hideAdminClientToken clients) snapshot beforeRead in
    do! (if refresh || match snapshot with None => true | Some _ => repair snapshot end
         then spawn (RepairSnapshot safeClients baseVersion
                       (List.filter (λ u, negb (mem u (map row_uuid clients))) (match snapshot with Some s => sn_removed s | None => [] end)))
         else Ret tt) in
    do! header "X-CF-VPS-Monitor-Admin-Clients-Cache" (if refresh then "refresh" else if repair snapshot then "repair" else if cacheHit then "hit" else "miss") in
    do! header "Cache-Control" "no-store" in
    Ret (json_ok (JArr (map JObj safeClients)))
  end.
(** @worker/src/routes/admin.ts:1502-1510 GET /clients/:uuid *)
Definition get_client (uuid : jstr) : admin response :=
  do! need_database env in
  let! client := call_db (GetClientRow uuid) in
  Ret (match client with None => json_error 404 "客户端不存在" | Some client => json_ok (JObj (hideAdminClientToken client)) end).
(** @worker/src/routes/admin.ts:1526-1536 POST /clients/add (the insertion) -- [None] on a
    conflict *)
Definition create_client (client : new_client) : admin (option fields) :=
  catch (let! row := call_db (CreateClient client) in Ret (Some row))
        (λ error, if isClientUniqueConflict error then Ret None else Throw error).
(** @worker/src/routes/admin.ts:1513-1559 POST /clients/add *)
Definition add_client : admin response :=
  catch
    (body_of (λ body,
       match validateClientCreateInput random_uuid (random_token 0) (JObj body) with
       | Err errors => Ret (error_details 400 "客户端校验失败" errors)
       | Ok client =>
         do! need_database env in
         let! created := create_client client in
         match created with
         | None => Ret (json_error 409 "客户端 UUID 或 Token 已存在")
         | Some row =>
           do! invalidateAdminClientsCache in
           do! invalidateAdminPublicMetadata in
           do! forget_agent (JStr (nc_uuid client)) in
           do! invalidateAllowedClientIdsCache in
           do! invalidateCapacityEstimateCache in
           synchronized env [nc_uuid client]
             (do! purges_done in
              do! audit_later "client_add" ("添加客户端: " +++ nc_name client) in
              Ret (json_ok (JObj [("success", JBool true); ("uuid", JStr (nc_uuid client)); ("token", JStr (nc_token client));
                                  ("client", JObj (hideAdminClientToken row))])))
         end
       end))
    (λ _, Ret (json_error 500 "创建失败")).
(** @worker/src/routes/admin.ts:1562-1601 POST /clients/:uuid/edit *)
Definition edit_client (uuid : jstr) : admin response :=
  catch
    (body_of (λ body,
       do! need_database env in
       match validateClientUpdateInput (JObj body) with
       | Err errors => Ret (error_details 400 "客户端校验失败" errors)
       | Ok [] => Ret (json_ok (JObj [("success", JBool true); ("noop", JBool true); ("changed", JNum (of_Z 0))]))
       | Ok client =>
         let! row := call_db (UpdateClientAndReturn uuid client) in
         match row with
         | None => Ret (json_error 404 "客户端不存在")
         | Some row =>
           do! invalidateAdminClientsCache in
           do! invalidateAdminPublicMetadata in
           do! forget_agent (JStr uuid) in
           do! invalidateCapacityEstimateCache in
           synchronized env [uuid]
             (do! purges_done in
              do! audit_later "client_edit" ("编辑客户端: " +++ uuid) in
              Ret (json_ok (JObj [("success", JBool true); ("changed", JNum (of_Z 1)); ("client", JObj (hideAdminClientToken row))])))
         end
       end))
    (λ _, Ret (json_error 500 "编辑失败")).
(** @worker/src/routes/admin.ts:1604-1637 POST /clients/:uuid/remove *)
Definition remove_client (uuid : jstr) : admin response :=
  body_of (λ _,
    do! need_database env in
    let! result := call_db (DeleteClient uuid) in
    synchronized env [uuid]
      (if num_eqb (rm_removed result) (of_Z 0) then
         let! _ := purgeAdminClientsEdgeCache env in
         Ret {| status := 404; content := JObj [("error", JStr "客户端不存在"); ("removed", JNum (of_Z 0))] |}
       else
         do! invalidateAdminClientsCache in
         do! invalidateAdminPublicMetadata in
         do! forget_agent (JStr uuid) in
         do! on_agent invalidateAgentPingTaskCache in
         do! invalidateAllowedClientIdsCache in
         do! invalidateCapacityEstimateCache in
         do! purges_done in
         do! spawn (AfterRemoval uuid result) in
         Ret (json_ok (JObj [("success", JBool true); ("removed", JNum (rm_removed result)); ("deleted_records", rm_records result)])))).
(** @worker/src/routes/admin.ts:565-569 getInstallToken *)
Definition getInstallToken (uuid : jstr) : admin (option jstr) :=
  let! client := call_db (GetClientTokenMeta uuid) in
  Ret (option_map (λ c, text_of (fld c "token")) client).
(** @worker/src/routes/admin.ts:1646-1653 POST /clients/:uuid/token (the answer) *)
Definition install_token_answer (found : option jstr) (more : fields) : response :=
  match found with
  | None => json_error 404 "客户端不存在"
  | Some token =>
    if negb (nonempty token) then json_error 409 "Token 明文不存在，请手动重置 Token 后再复制安装命令"
    else json_ok (JObj ([("token", JStr token)] ++ more))
  end.
(** @worker/src/routes/admin.ts:1640-1654 POST /clients/:uuid/token *)
Definition client_token (uuid : jstr) : admin response :=
  body_of (λ _, do! need_database env in let! found := getInstallToken uuid in Ret (install_token_answer found [])).
(** @worker/src/routes/admin.ts:1656-1668 POST /clients/:uuid/token/install *)
Definition client_install_token (uuid : jstr) : admin response :=
  do! need_database env in let! found := getInstallToken uuid in Ret (install_token_answer found [("rotated", JBool false)]).
(** @worker/src/routes/admin.ts:557-560 generateUniqueClientToken (loop) *)
Fixpoint unused_token (attempts n : nat) : admin nat :=
  match attempts with
  | O => Ret n
  | S attempts => let! taken := call_db (ClientTokenExists (random_token n)) in if taken then unused_token attempts (S n) else Ret n
  end.
(** @worker/src/routes/admin.ts:553-563 generateUniqueClientToken *)
Definition generateUniqueClientToken : admin (option jstr) :=
  let! n := unused_token 5 0 in
  let! taken := call_db (ClientTokenExists (random_token n)) in
  Ret (if taken then None else Some (random_token n)).
(** @worker/src/routes/admin.ts:1670-1696 POST /clients/:uuid/token/rotate *)
Definition rotate_client_token (uuid : jstr) : admin response :=
  body_of (λ _,
    do! need_database env in
    let! client := call_db (GetClientTokenMeta uuid) in
    match client with
    | None => Ret (json_error 404 "客户端不存在")
    | Some client =>
      let! token := generateUniqueClientToken in
      match token with
      | None => Ret (json_error 500 "生成新 Token 失败，请重试")
      | Some token =>
        let! row := call_db (RotateClientToken uuid token) in
        match row with
        | None => Ret (json_error 404 "客户端不存在")
        | Some _ =>
          do! invalidateAdminClientsCache in
          do! invalidateAdminPublicMetadata in
          do! forget_agent (fld client "uuid") in
          do! forget_agent (JStr uuid) in
          synchronized env [uuid]
            (let! _ := purgeAdminClientsEdgeCache env in
             do! audit "client_token_rotate" ("重置客户端 Token: " +++ or_str (text_of (fld client "name")) uuid) in
             Ret (json_ok (JObj [("success", JBool true); ("token", JStr token)])))
        end
      end
    end).
(** @worker/src/routes/admin.ts:1721-1730 POST /clients/reorder (after the update) *)
Definition after_reorder (existingUuids : list jstr) : admin unit :=
  let! clients := listAdminClientsCached true in
  let! _ := writeAdminClientsSnapshot (map hideAdminClientToken clients) JUndef None (JStr "reorder") in
  let! _ := purgeAdminClientsEdgeCache env in
  broadcastLiveMetadataChanged env
    [("clients", JObj [("upsert", JArr (imap (λ i u, JObj [("uuid", JStr u); ("sort_order", JNum (of_Z (Z.of_nat i + 1)))]) existingUuids))])].
(** @worker/src/routes/admin.ts:1698-1739 POST /clients/reorder *)
Definition reorder_clients : admin response :=
  catch
    (body_of (λ body,
       let uuids := match fld body "uuids" with JArr l => trimmed_texts l | _ => [] end in
       if (length uuids =? 0)%nat then Ret (json_error 400 "客户端排序列表不能为空")
       else if negb (length (unique uuids) =? length uuids)%nat then Ret (json_error 400 "客户端排序列表不能包含重复 UUID")
       else
         do! need_database env in
         let! clients := call_db (GetClientsByIds uuids) in
         let existingUuids := known_uuids clients uuids in
         let missing := missing_uuids clients uuids in
         let! updated := (if (0 <? length existingUuids)%nat then call_db (ReorderClients existingUuids) else Ret (of_Z 0)) in
         do! (if num_lt (of_Z 0) updated then after_reorder existingUuids else Ret tt) in
         do! invalidateAdminPublicMetadata in
         do! invalidateCapacityEstimateCache in
         do! audit "client_reorder" ("调整客户端排序: " +++ join "," existingUuids +++ "; missing=" +++ join "," missing) in
         Ret (json_ok (JObj [("success", JBool true); ("updated", JNum updated); ("missing", texts missing)]))))
    (λ _, Ret (json_error 400 "排序失败")).
(** @worker/src/routes/admin.ts:1741-1774 POST /clients/batch-hide *)
Definition batch_hide : admin response :=
  catch
    (body_of (λ body,
       match parseUniqueStringList (fld body "uuids") 100 with
       | Err error => Ret (json_error 400 error)
       | Ok uuids =>
         do! need_database env in
         let! clients := call_db (GetClientsByIds uuids) in
         let missing := missing_uuids clients uuids in
         let visible := List.filter (λ c, negb (truthy (fld c "hidden"))) clients in
         let! changed := call_db (UpdateClientsHidden (map row_uuid visible) true) in
         synchronized env uuids
           (do! foldr (λ c rest, do! forget_agent (fld c "uuid") in rest) (Ret tt) clients in
            let updated := length clients in
            do! (if (0 <? updated)%nat then
                   do! invalidateAdminClientsCache in
                   let! _ := purgeAdminClientsEdgeCache env in
                   do! invalidateAdminPublicMetadata in
                   invalidateCapacityEstimateCache
                 else Ret tt) in
            do! audit "client_batch_hide" ("批量隐藏客户端: " +++ join "," uuids +++ "; updated=" +++ dec_Z (Z.of_nat updated)
                                           +++ "; missing=" +++ join "," missing) in
            Ret (json_ok (JObj [("success", JBool true); ("updated", JNum (of_Z (Z.of_nat updated))); ("changed", JNum changed);
                                ("missing", texts missing)])))
       end))
    (λ _, Ret (json_error 500 "批量隐藏失败")).
(** @worker/src/routes/admin.ts:1776-1812 POST /clients/batch-remove *)
Definition batch_remove : admin response :=
  catch
    (body_of (λ body,
       match parseUniqueStringList (fld body "uuids") 100 with
       | Err error => Ret (json_error 400 error)
       | Ok uuids =>
         do! need_database env in
         let! clients := call_db (GetClientsByIds uuids) in
         let existingUuids := map row_uuid clients in
         let missing := missing_uuids clients uuids in
         let! result := call_db (DeleteClients existingUuids) in
         synchronized env uuids
           (let! cleanup := call_db (PruneClientReferencesForClients existingUuids) in
            do! (if num_lt (of_Z 0) (rm_removed result) then
                   do! invalidateAdminClientsCache in
                   let! _ := purgeAdminClientsEdgeCache env in
                   do! invalidateAdminPublicMetadata in
                   do! on_agent (AgentHttp.invalidateAgentClientAuthCache None) in
                   do! on_agent invalidateAgentPingTaskCache in
                   do! invalidateAllowedClientIdsCache in
                   do! invalidateCapacityEstimateCache in
                   refreshLivePingTasks env
                 else Ret tt) in
            do! audit "client_batch_remove" ("批量删除客户端: " +++ join "," uuids +++ "; removed=" +++ num_str (rm_removed result)
                                             +++ "; missing=" +++ join "," missing +++ "; 清理引用: " +++ json cleanup) in
            Ret (json_ok (JObj [("success", JBool true); ("removed", JNum (rm_removed result)); ("missing", texts missing);
                                ("deleted_records", rm_records result); ("cleanup", cleanup)])))
       end))
    (λ _, Ret (json_error 500 "批量删除失败")).

(** ** Records *)

(** @worker/src/routes/admin.ts:1817-1833 POST /record/clear *)
Definition clear_records : admin response :=
  catch
    (body_of (λ body,
       let uuid := match fld body "uuid" with JStr s => trim s | _ => "" end in
       do! need_database env in
       do! (if nonempty uuid then do! call_db (ClearClientRecords uuid) in invalidateCapacityEstimateCache else Ret tt) in
       do! audit "record_clear" ("清除记录: " +++ uuid) in
       Ret (json_ok (JObj [("success", JBool true)]))))
    (λ _, Ret (json_error 500 "清除失败")).
(** @worker/src/routes/admin.ts:1836-1856 POST /record/clear/all *)
Definition clear_all_records : admin response :=
  body_of (λ _,
    do! need_database env in
    let! result := call_db ClearAllRecords in
    let result_fields := as_object result in
    let has_more := truthy (fld result_fields "has_more") in
    do! invalidateCapacityEstimateCache in
    do! call_db (AuditLog (aq_username aq) "record_clear_all" ("清除所有记录: " +++ json result) (if has_more then "warning" else "info")) in
    Ret (json_ok (JObj [("success", JBool true); ("complete", JBool (negb has_more)); ("has_more", fld result_fields "has_more");
                        ("deleted", fld result_fields "deleted"); ("remaining", fld result_fields "remaining")]))).

(** ** Tasks and routes *)

(** What the tasks the routes leave do. *)
Definition run_admin_task (t : admin_task) : admin unit :=
  catch
    (match t with
     | PurgePublicMetadata => purgePublicMetadataEdgeCache env
     | PurgeClients => let! _ := purgeAdminClientsEdgeCache env in Ret tt
     | PurgePings => if ae_caches env then let! _ := edge_delete admin_pings_edge in Ret tt else Ret tt
     | PutPings tasks => putAdminPingTasksEdgeCache env tasks
     | RepairSnapshot clients expectedVersion confirmedRemoved =>
       let! saved := writeAdminClientsSnapshot clients expectedVersion (Some confirmedRemoved) JUndef in
       if saved then broadcastLiveMetadataChanged env [("clients", JObj [("upsert", JArr (map JObj clients))])] else Ret tt
     | AfterRemoval uuid result =>
       let! cleanup := call_db (PruneClientReferences uuid) in
       do! refreshLivePingTasks env in
       audit "client_remove" ("删除客户端: " +++ uuid +++ "; removed=" +++ num_str (rm_removed result) +++ "; deleted_records="
                              +++ json (rm_records result) +++ "; 清理引用: " +++ json cleanup)
     | RefreshPingTasks => refreshLivePingTasks env
     | RefreshAgentPolicy => refreshLiveAgentPolicy env
     | RefreshRecordSettings => let! _ := live_call env "POST" "record-settings-refresh" JUndef in Ret tt
     | Broadcast detail => broadcastLiveMetadataChanged env detail
     | Audit user action detail level => call_db (AuditLog user action detail level)
     end)
    (λ _, Ret tt).

Inductive node_route :=
| Clients | ClientRow (uuid : jstr) | AddClient | EditClient (uuid : jstr) | RemoveClient (uuid : jstr)
| Token (uuid : jstr) | InstallToken (uuid : jstr) | RotateToken (uuid : jstr) | Reorder | BatchHide | BatchRemove
| ClearRecords | ClearEverything.
Definition node_handle (r : node_route) : admin response :=
  match r with
  | Clients => list_clients | ClientRow u => get_client u | AddClient => add_client | EditClient u => edit_client u
  | RemoveClient u => remove_client u | Token u => client_token u | InstallToken u => client_install_token u
  | RotateToken u => rotate_client_token u | Reorder => reorder_clients | BatchHide => batch_hide | BatchRemove => batch_remove
  | ClearRecords => clear_records | ClearEverything => clear_all_records
  end.
End Nodes.
