(* ===== verification/AdminConfig.v ===== *)
(** * Configuration in the panel: [routes/admin.ts]

    The routes of ping tasks, website monitors and notification rules, with what they
    broadcast to viewers.  The URL parser is a parameter; the probe of a site that the
    administrator asks for is a call ([Website.checkWebsiteMonitorHttp] models it). *)

From S2P Require Import Prelude JsStr JsNum JsVal JsList JsBytes Net PingTask Settings Report Client LiveAdmin Effects AgentHttp RequestBody Outbox AdminHttp AdminNodes.
From S2P Require Notify Website Backup.
#[local] Open Scope Z_scope.

(** [Number.isInteger(id) && id > 0] *)
Definition positive_integer (id : num) : bool := is_integer id && num_lt (of_Z 0) id.
(** [new Set(ids).size] of finite numbers, and [ids.join(',')] *)
Fixpoint unique_ids (l : list num) : list num :=
  match l with [] => [] | x :: r => x :: List.filter (λ y, negb (num_eqb x y)) (unique_ids r) end.
Definition joined_ids (ids : list num) : jstr := join "," (map num_str ids).
(** [body.ids.map(Number).filter(positive integer)], or [[]] *)
Definition body_ids (body : fields) : list num :=
  match fld body "ids" with JArr l => List.filter positive_integer (map to_num l) | _ => [] end.
(** [parseInt(s)] *)
Definition parse_int (s : jstr) : num :=
  let l := drop_while is_space (units s) in
  let '(neg, l) := match l with 45%N :: r => (true, r) | 43%N :: r => (false, r) | _ => (false, l) end in
  let value base val ds := let n := f64 (inject_Z (digits_val base val ds)) in if neg : bool then num_neg n else n in
  match l with
  | 48%N :: 120%N :: r | 48%N :: 88%N :: r => match take_while is_hex r with [] => NaN | ds => value 16 hex_val ds end
  | _ => match take_while is_digit l with [] => NaN | ds => value 10 digit_val ds end
  end.

(** ** References to nodes *)

(** @worker/src/routes/admin.ts:733-741 readAdminBoolean *)
Definition readAdminBoolean (value : jsval) : bool :=
  match value with
  | JBool b => b
  | JNum n => negb (num_eqb n (of_Z 0))
  | JStr s => let normalized := lower (trim s) in jeq normalized "true" || jeq normalized "1"
  | _ => false
  end.
(** @worker/src/routes/admin.ts:743-754 hasNonEmptyStringList *)
Definition hasNonEmptyStringList (value : jsval) : bool :=
  match (match value with JStr s => json_parse s | _ => Some value end) with
  | Some (JArr source) => existsb (λ item, match item with JStr s => nonempty (trim s) | _ => false end) source
  | _ => false
  end.
(** @worker/src/routes/admin.ts:756-760 pingTaskReferencesSpecificClients *)
Definition pingTaskReferencesSpecificClients (input : jsval) : bool :=
  match input with JObj body => negb (readAdminBoolean (fld body "all_clients")) && hasNonEmptyStringList (fld body "clients") | _ => false end.
(** @worker/src/routes/admin.ts:762-767 loadNotificationReferencesSpecificClients *)
Definition loadNotificationReferencesSpecificClients (input : jsval) : bool :=
  match input with JObj body => hasNonEmptyStringList (fld body "clients") | _ => false end.
(** @worker/src/routes/admin.ts:769-776 getAllowedClientIdsForPingTask *)
Definition getAllowedClientIdsForPingTask (input : jsval) : admin (option (list jstr)) :=
  if pingTaskReferencesSpecificClients input then let! ids := getAllowedClientIds in Ret (Some ids) else Ret None.
(** @worker/src/routes/admin.ts:778-785 getAllowedClientIdsForLoadNotification *)
Definition getAllowedClientIdsForLoadNotification (input : jsval) : admin (list jstr) :=
  if loadNotificationReferencesSpecificClients input then getAllowedClientIds else Ret [].

(** ** What viewers are told of websites *)

(** @worker/src/routes/admin.ts:605-609 WebsiteMonitorMetadataDetail *)
Inductive website_detail :=
| Everything
| Detail (upsert : option (list jsval)) (remove reorder : option (list num)).
Definition opt_field (k : jstr) (v : option jsval) : fields := [(k, default JUndef v)].
Definition numbers (l : list num) : jsval := JArr (map JNum l).
Definition detail_json (d : website_detail) : jsval :=
  match d with
  | Everything => JBool true
  | Detail upsert remove reorder =>
    JObj (opt_field "upsert" (option_map JArr upsert) ++ opt_field "remove" (option_map numbers remove) ++ opt_field "reorder" (option_map numbers reorder))
  end.
Definition flagged (k : jstr) (item : jsval) : bool := match item with JObj v => is_bool (fld v k) true | _ => false end.
(** @worker/src/routes/admin.ts:619-628 publicWebsiteMetadataDetail *)
Definition publicWebsiteMetadataDetail (detail : website_detail) : website_detail :=
  match detail with
  | Everything => Everything
  | Detail None remove reorder => detail
  | Detail (Some upsert) remove reorder =>
    let shown := List.filter (λ item, negb (flagged "hidden" item)) upsert in
    Detail (Some (map (λ item, if flagged "hide_url" item then JObj (set_field "url" JNull (as_object item)) else item) shown)) remove reorder
  end.
(** @worker/src/routes/admin.ts:642-651 invalidateWebsiteMonitorPublicState *)
Definition invalidateWebsiteMonitorPublicState (websites : website_detail) : admin unit :=
  do! invalidateAdminPublicMetadata in
  do! spawn (AdminHttp.Broadcast [("websites", detail_json websites); ("audience", JStr "admin")]) in
  do! spawn (AdminHttp.Broadcast [("websites", detail_json (publicWebsiteMetadataDetail websites)); ("audience", JStr "public")]) in
  spawn RefreshAgentPolicy.
(** @worker/src/routes/admin.ts:629-640 WEBSITE_MONITOR_REQUIRED_EDIT_FIELDS *)
Definition WEBSITE_MONITOR_REQUIRED_EDIT_FIELDS : list jstr :=
  ["name"; "url"; "method"; "expected_status_min"; "expected_status_max"; "interval_sec"; "timeout_sec"; "grace_period_sec"; "enabled"; "hidden"].

(** ** Audit of ping tasks *)

(** @worker/src/routes/admin.ts:655-664 pingTaskAuditSnapshot *)
Definition pingTaskAuditSnapshot (task : PingTaskRow) : fields :=
  let scope := if AgentHttp.pt_all_clients task then "all_clients" else "clients=" +++ dec_Z (Z.of_nat (length (AgentHttp.pt_clients task))) in
  [("name", JStr (AgentHttp.pt_name task)); ("type", JStr (AgentHttp.pt_type task)); ("target", JStr (AgentHttp.pt_target task));
   ("interval_sec", JNum (AgentHttp.pt_interval_sec task)); ("scope", JStr scope)].
(** @worker/src/routes/admin.ts:666-674 pingTaskAuditDetail -- no caller gives a previous task *)
Definition pingTaskAuditDetail (event : jstr) (task : PingTaskRow) : jstr :=
  let current := pingTaskAuditSnapshot task in
  json (JObj [("event", JStr event);
              ("summary", JStr (event +++ ": " +++ to_str (fld current "name") +++ "; type=" +++ to_str (fld current "type") +++ "; target="
                                +++ to_str (fld current "target") +++ "; interval=" +++ to_str (fld current "interval_sec") +++ "s; scope="
                                +++ to_str (fld current "scope")));
              ("task", JObj current)]).

Section Config.
Context (URL : jstr → option url) (env : admin_env) (aq : admin_request).
Abbreviation body_of := (with_body (readAdminJsonObject aq)).
Abbreviation items_of := (with_body (readAdminJsonObjectOrArray aq)).
Abbreviation audit_later := (AdminHttp.audit_later aq).
Definition guarded (code : Z) (error : jstr) (p : admin response) : admin response := catch p (λ _, Ret (json_error code error)).
Definition done_with (more : fields) : admin response := Ret (json_ok (JObj ([("success", JBool true)] ++ more))).

(** ** Ping tasks *)

(** @worker/src/routes/admin.ts:1861-1878 GET /ping *)
Definition list_pings : admin response :=
  let refresh := isQueryFlagEnabled (query aq "refresh") in
  let! cached := (if refresh then Ret None else getAdminPingTasksEdgeCache env) in
  match cached with
  | Some body => Ret (json_ok body)
  | None =>
    do! need_database env in
    let! now := clock in
    let! st := get in
    let cacheHit := negb refresh && match fresh (adminPingTasksCache st) now with Some _ => true | None => false end in
    let! tasks := listAdminPingTasksCached refresh in
    do! (if refresh then Ret tt else spawn (PutPings tasks)) in
    do! header "X-CF-VPS-Monitor-Admin-Ping-Cache" (if refresh then "refresh" else if cacheHit then "hit" else "miss") in
    Ret (json_ok (JArr (map task_json tasks)))
  end.
(** @worker/src/routes/admin.ts:1887-1891 POST /ping/add (candidate) -- as in the edit *)
Definition ping_candidate (body : fields) : fields := spread body [("interval", JNum (of_Z 60)); ("interval_sec", JNum (of_Z 60))].
(** @worker/src/routes/admin.ts:1893-1897 POST /ping/add (validation) -- as in the edit *)
Definition validated_ping (body : fields) (k : PingTask.ping_task → admin response) : admin response :=
  let candidate := ping_candidate body in
  let! allowed := (if truthy (fld candidate "all_clients") then Ret None else getAllowedClientIdsForPingTask (JObj candidate)) in
  match validatePingTaskInput URL (JObj candidate) allowed with
  | TaskErr errors => Ret (error_details 400 "Ping 任务校验失败" errors)
  | TaskOk task => k task
  end.
(** @worker/src/routes/admin.ts:1900-1906 POST /ping/add (caches) -- as in the other writes *)
Definition ping_written (action detail : jstr) : admin unit :=
  do! invalidateAdminPingTasksCache in
  do! purgeAdminPingTasksEdgeCache in
  do! invalidateAdminPublicMetadata in
  do! on_agent invalidateAgentPingTaskCache in
  do! invalidateCapacityEstimateCache in
  do! spawn RefreshPingTasks in
  audit_later action detail.
(** @worker/src/routes/admin.ts:1881-1912 POST /ping/add *)
Definition add_ping : admin response :=
  guarded 500 "添加失败" (body_of (λ body,
    do! need_database env in
    validated_ping body (λ input,
      let! task := call_db (CreatePingTask input) in
      do! ping_written "ping_add" (pingTaskAuditDetail "添加 Ping 任务" task) in
      done_with [("task", task_json task)]))).
(** @worker/src/routes/admin.ts:1915-1957 POST /ping/edit *)
Definition edit_ping : admin response :=
  guarded 500 "编辑失败" (body_of (λ body,
    let id := to_num (fld body "id") in
    if negb (positive_integer id) then Ret (json_error 400 "Ping 任务 ID 无效")
    else
      do! need_database env in
      validated_ping body (λ input,
        let! task := call_db (UpdatePingTaskAndReturn id input) in
        match task with
        | None => Ret (json_error 404 "Ping 任务不存在")
        | Some task =>
          do! ping_written "ping_edit" (pingTaskAuditDetail ("编辑 Ping 任务 " +++ num_str id) task) in
          done_with [("changed", JNum (of_Z 1)); ("task", task_json task)]
        end))).
(** @worker/src/routes/admin.ts:1959-1991 POST /ping/reorder *)
Definition reorder_pings : admin response :=
  guarded 400 "排序失败" (body_of (λ body,
    let ids := body_ids body in
    if (length ids =? 0)%nat then Ret (json_error 400 "Ping 任务排序列表不能为空")
    else if negb (length (unique_ids ids) =? length ids)%nat then Ret (json_error 400 "Ping 任务排序列表不能包含重复 ID")
    else
      do! need_database env in
      let! updated := call_db (ReorderPingTasks ids) in
      do! ping_written "ping_reorder" ("调整 Ping 任务排序: " +++ joined_ids ids) in
      done_with [("updated", JNum updated)])).
(** @worker/src/routes/admin.ts:1994-2019 POST /ping/delete *)
Definition delete_ping : admin response :=
  guarded 500 "删除失败" (body_of (λ body,
    do! need_database env in
    let id := to_num (fld body "id") in
    if negb (positive_integer id) then Ret (json_error 400 "Ping 任务 ID 无效")
    else
      let! deleted := call_db (DeletePingTask id) in
      match deleted with
      | None => Ret (json_error 404 "Ping 任务不存在")
      | Some deleted =>
        do! ping_written "ping_delete" (pingTaskAuditDetail ("删除 Ping 任务 " +++ num_str id) deleted) in
        done_with [("id", JNum id)]
      end)).

(** ** Website monitors *)

(** @worker/src/routes/admin.ts:2023-2026 GET /websites *)
Definition list_websites : admin response :=
  do! need_database env in let! monitors := call_db ListWebsiteMonitors in Ret (json_ok (JArr (map JObj monitors))).
(** @worker/src/routes/admin.ts:2028-2036 GET /websites/:id/checks *)
Definition website_checks (param : jstr) : admin response :=
  let id := str_num param in
  if negb (positive_integer id) then Ret (json_error 400 "网站监控 ID 无效")
  else
    let limit := match query aq "limit" with Some s => if nonempty s then str_num s else of_Z 120 | None => of_Z 120 end in
    do! need_database env in
    let! checks := call_db (ListWebsiteChecks id (num_min (of_Z 500) (num_max (of_Z 1) limit))) in
    Ret (json_ok (JArr (map JObj checks))).
Definition failed_website (error : jstr) : response :=
  {| status := 400; content := JObj [("error", JStr "网站监控校验失败"); ("code", JStr error)] |}.
Definition text_field (row : fields) (k : jstr) : jstr := to_str (fld row k).
(** @worker/src/routes/admin.ts:2038-2055 POST /websites/add *)
Definition add_website : admin response :=
  guarded 500 "添加失败" (body_of (λ body,
    match Website.validateWebsiteMonitorInput URL body with
    | Err error => Ret (failed_website error)
    | Ok value =>
      do! need_database env in
      let! monitor := call_db (CreateWebsiteMonitor (JObj (Backup.monitor_fields value))) in
      do! invalidateWebsiteMonitorPublicState (Detail (Some [JObj monitor]) None None) in
      do! audit_later "website_add" ("添加网站监控: " +++ text_field monitor "name" +++ " " +++ text_field monitor "url") in
      done_with [("monitor", JObj monitor)]
    end)).
(** @worker/src/routes/admin.ts:2057-2085 POST /websites/edit *)
Definition edit_website : admin response :=
  guarded 500 "编辑失败" (body_of (λ body,
    let id := to_num (fld body "id") in
    if negb (positive_integer id) then Ret (json_error 400 "网站监控 ID 无效")
    else
      do! need_database env in
      let hasFullPayload := forallb (has_own body) WEBSITE_MONITOR_REQUIRED_EDIT_FIELDS in
      let! existing := (if hasFullPayload then Ret None else call_db (GetWebsiteMonitor id)) in
      if negb hasFullPayload && match existing with None => true | Some _ => false end then Ret (json_error 404 "网站监控不存在")
      else
        let candidate := if hasFullPayload then body else spread (default [] existing) body in
        match Website.validateWebsiteMonitorInput URL candidate with
        | Err error => Ret (failed_website error)
        | Ok value =>
          let! monitor := call_db (UpdateWebsiteMonitorAndReturn id (JObj (Backup.monitor_fields value))) in
          match monitor with
          | None => Ret (json_error 404 "网站监控不存在")
          | Some monitor =>
            do! invalidateWebsiteMonitorPublicState (Detail (Some [JObj monitor]) None None) in
            do! audit_later "website_edit" ("编辑网站监控: " +++ to_str (js_or (fldo existing "name") (JNum id)) +++ " -> " +++ text_field monitor "name") in
            done_with [("changed", JNum (of_Z 1)); ("monitor", JObj monitor)]
          end
        end)).
(** @worker/src/routes/admin.ts:2099-2105 POST /websites/visibility (the end) -- as in
    [/websites/enabled] *)
Definition website_flag_set (id : num) (removed : option (list num)) (changed : bool) (action word : jstr) : admin response :=
  let! monitor := call_db (GetWebsiteMonitor id) in
  do! invalidateWebsiteMonitorPublicState (match monitor with Some m => Detail (Some [JObj m]) removed None | None => Everything end) in
  do! audit_later action ("网站监控 " +++ num_str id +++ " " +++ word) in
  done_with [("changed", JNum (of_Z (if changed then 1 else 0)))].
(** @worker/src/routes/admin.ts:2087-2110 POST /websites/visibility *)
Definition website_visibility : admin response :=
  guarded 500 "设置失败" (body_of (λ body,
    let id := to_num (fld body "id") in
    match fld body "hidden" with
    | JBool hidden =>
      if negb (positive_integer id) then Ret (json_error 400 "网站监控显隐参数无效")
      else
        do! need_database env in
        let! changed := call_db (SetWebsiteMonitorVisibility id hidden) in
        website_flag_set id (if hidden then Some [id] else None) changed "website_visibility" (if hidden then "隐藏" else "显示")
    | _ => Ret (json_error 400 "网站监控显隐参数无效")
    end)).
(** @worker/src/routes/admin.ts:2112-2132 POST /websites/enabled *)
Definition website_enabled : admin response :=
  guarded 500 "设置失败" (body_of (λ body,
    let id := to_num (fld body "id") in
    match fld body "enabled" with
    | JBool enabled =>
      if negb (positive_integer id) then Ret (json_error 400 "网站监控启停参数无效")
      else
        do! need_database env in
        let! changed := call_db (SetWebsiteMonitorEnabled id enabled) in
        website_flag_set id None changed "website_enabled" (if enabled then "启用" else "停用")
    | _ => Ret (json_error 400 "网站监控启停参数无效")
    end)).
(** @worker/src/routes/admin.ts:2134-2154 POST /websites/reorder *)
Definition reorder_websites : admin response :=
  guarded 400 "排序失败" (body_of (λ body,
    let ids := body_ids body in
    if (length ids =? 0)%nat then Ret (json_error 400 "网站监控排序列表不能为空")
    else if negb (length (unique_ids ids) =? length ids)%nat then Ret (json_error 400 "网站监控排序列表不能包含重复 ID")
    else
      do! need_database env in
      let! updated := call_db (ReorderWebsiteMonitors ids) in
      do! invalidateWebsiteMonitorPublicState (Detail None None (Some ids)) in
      do! audit_later "website_reorder" ("调整网站监控排序: " +++ joined_ids ids) in
      done_with [("updated", JNum updated)])).
(** @worker/src/routes/admin.ts:2156-2176 POST /websites/delete *)
Definition delete_website : admin response :=
  guarded 500 "删除失败" (body_of (λ body,
    do! need_database env in
    let id := to_num (fld body "id") in
    if negb (positive_integer id) then Ret (json_error 400 "网站监控 ID 无效")
    else
      let! existing := call_db (GetWebsiteMonitor id) in
      match existing with
      | None => Ret (json_error 404 "网站监控不存在")
      | Some existing =>
        do! call_db (DeleteWebsiteMonitor id) in
        do! invalidateWebsiteMonitorPublicState (Detail None (Some [id]) None) in
        do! audit_later "website_delete" ("删除网站监控: " +++ text_field existing "name" +++ " " +++ text_field existing "url") in
        done_with []
      end)).
(** @worker/src/routes/admin.ts:2178-2198 POST /websites/:id/check *)
Definition check_website (param : jstr) : admin response :=
  guarded 500 "检测失败" (body_of (λ _,
    let id := str_num param in
    if negb (positive_integer id) then Ret (json_error 400 "网站监控 ID 无效")
    else
      do! need_database env in
      let! monitor := call_db (GetWebsiteMonitor id) in
      match monitor with
      | None => Ret (json_error 404 "网站监控不存在")
      | Some monitor =>
        let! check := act (ProbeWebsite monitor : admin_call) in
        let! updated := call_db (RecordWebsiteCheck check) in
        do! invalidateWebsiteMonitorPublicState (match updated with Some m => Detail (Some [JObj m]) None None | None => Everything end) in
        do! audit_later "website_check" ("手动检测网站监控: " +++ text_field monitor "name") in
        done_with [("monitor", match updated with Some m => JObj m | None => JNull end); ("check", check)]
      end)).

(** ** Notification rules *)

(** @worker/src/utils/load-notification-window.ts:4-7 LOAD_NOTIFICATION_POLICY_SETTING_KEYS *)
Definition LOAD_NOTIFICATION_POLICY_SETTING_KEYS : list jstr :=
  ["record_enabled"; "record_persist_interval_sec"; "live_poll_active_interval_sec"; "live_poll_idle_interval_sec"].
Definition offline_json (r : Notify.offline_rule) : jsval :=
  JObj [("client", JStr (Notify.or_client r)); ("enable", JBool (Notify.or_enable r)); ("grace_period", JNum (Notify.or_grace_period r))].
Definition expiry_json (r : Notify.expiry_rule) : jsval :=
  JObj [("client", JStr (Notify.er_client r)); ("enable", JBool (Notify.er_enable r)); ("advance_days", JNum (Notify.er_advance_days r))].
Definition load_json (r : Notify.load_rule) : jsval :=
  JObj [("name", JStr (Notify.lr_name r)); ("clients", texts (Notify.lr_clients r)); ("metric", JStr (Notify.lr_metric r));
        ("threshold", JNum (Notify.lr_threshold r)); ("ratio", JNum (Notify.lr_ratio r)); ("interval_min", JNum (Notify.lr_interval_min r))].
(** @worker/src/routes/admin.ts:2421-2425 GET /notification/offline -- and [expiry] *)
Definition list_rules (kind : jstr) : admin response :=
  do! need_database env in let! rules := call_db (ListNotifications kind) in Ret (json_ok (JArr (map JObj rules))).
(** @worker/src/routes/admin.ts:2437-2446 POST /notification/offline/edit (the items) -- as
    for [expiry]: the rules that pass, and the errors of the others with their index *)
Fixpoint validated_items {A} (validate : jsval → result (list jstr) A) (index : nat) (items : list fields) : list A * list jstr :=
  match items with
  | [] => ([], [])
  | item :: items =>
    let '(normalized, errors) := validated_items validate (S index) items in
    match validate (JObj item) with
    | Ok rule => (rule :: normalized, errors)
    | Err e => (normalized, map (λ error, dec_Z (Z.of_nat index) +++ ": " +++ error) e ++ errors)
    end
  end.
Definition rules_saved (updated : nat) (changed : num) : admin response :=
  done_with [("updated", JNum (of_Z (Z.of_nat updated))); ("changed", JNum changed); ("noop", JBool (num_eqb changed (of_Z 0)))].
(** @worker/src/routes/admin.ts:2428-2455 POST /notification/offline/edit *)
Definition edit_offline : admin response :=
  guarded 500 "保存失败" (items_of (λ items,
    do! need_database env in
    let! allowed := getAllowedClientIds in
    match validated_items (λ item, Notify.validateOfflineNotificationInput item allowed) 0 items with
    | (normalized, []) =>
      let! changed := call_db (SetOfflineNotifications (JArr (map offline_json normalized))) in
      rules_saved (length normalized) changed
    | (_, errors) => Ret (error_details 400 "离线通知校验失败" errors)
    end)).
(** @worker/src/routes/admin.ts:2465-2491 POST /notification/expiry/edit *)
Definition edit_expiry : admin response :=
  guarded 500 "保存失败" (items_of (λ items,
    do! need_database env in
    let! allowed := getAllowedClientIds in
    match validated_items (λ item, Notify.validateExpiryNotificationInput item allowed) 0 items with
    | (normalized, []) =>
      let! changed := call_db (SetExpiryNotifications (JArr (map expiry_json normalized))) in
      rules_saved (length normalized) changed
    | (_, errors) => Ret (error_details 400 "到期通知校验失败" errors)
    end)).
Definition load_policy : admin Notify.LoadNotificationPolicy :=
  let! settings := call_db (GetSettings LOAD_NOTIFICATION_POLICY_SETTING_KEYS) in Ret (Notify.buildLoadNotificationPolicy URL settings).
(** @worker/src/routes/admin.ts:2494-2497 GET /notification/load/policy *)
Definition show_load_policy : admin response :=
  do! need_database env in
  let! policy := load_policy in
  Ret (json_ok (JObj [("minimum_interval_min", JNum (Notify.minimum_interval_min policy));
                      ("sample_interval_sec", JNum (Notify.sample_interval_sec policy)); ("history_enabled", JBool (Notify.history_enabled policy))])).
(** @worker/src/routes/admin.ts:2499-2504 GET /notification/load *)
Definition list_load_rules : admin response :=
  do! need_database env in
  let! rules := call_db (ListNotifications "load") in
  let! policy := load_policy in
  Ret (json_ok (JArr (map (λ rule, JObj (set_field "effective_interval_min"
    (JNum (Notify.effectiveLoadNotificationIntervalMin (to_num (fld rule "interval_min")) policy)) rule)) rules))).
(** @worker/src/routes/admin.ts:2513-2517 POST /notification/load/add (validation) -- as in
    the edits, which demand an identifier *)
Definition validated_load (body input : fields) (requireId : bool) (k : Notify.load_rule → admin response) : admin response :=
  do! need_database env in
  let! policy := load_policy in
  let! allowed := getAllowedClientIdsForLoadNotification (JObj body) in
  match Notify.validateLoadNotificationInput (JObj input) allowed requireId (Notify.minimum_interval_min policy) with
  | Err errors => Ret (error_details 400 "负载通知校验失败" errors)
  | Ok rule => k rule
  end.
(** @worker/src/routes/admin.ts:2507-2523 POST /notification/load/add *)
Definition add_load : admin response :=
  guarded 500 "添加失败" (body_of (λ body,
    validated_load body body false (λ rule, do! call_db (CreateLoadNotification (load_json rule)) in done_with []))).
(** @worker/src/routes/admin.ts:2538-2541 POST /notification/load/edit (the update) -- as
    with the identifier in the path *)
Definition update_load (id : num) (rule : Notify.load_rule) : admin response :=
  let! existing := call_db (GetLoadNotification id) in
  match existing with
  | None => Ret (json_error 404 "负载通知不存在")
  | Some _ =>
    let! changed := call_db (UpdateLoadNotification id (load_json rule)) in
    done_with [("changed", JNum (of_Z (if changed then 1 else 0))); ("noop", JBool (negb changed))]
  end.
(** @worker/src/routes/admin.ts:2526-2545 POST /notification/load/edit *)
Definition edit_load : admin response :=
  guarded 500 "编辑失败" (body_of (λ body,
    validated_load body body true (λ rule, update_load (default NaN (Notify.lr_id rule)) rule))).
(** @worker/src/routes/admin.ts:2577-2601 POST /notification/load/:id *)
Definition edit_load_at (param : jstr) : admin response :=
  guarded 500 "编辑失败" (
    let id := parse_int param in
    body_of (λ body, validated_load body (set_field "id" (JNum id) body) true (λ rule, update_load id rule))).
(** @worker/src/routes/admin.ts:2548-2556 DELETE /notification/load/:id *)
Definition delete_load_at (param : jstr) : admin response :=
  let id := parse_int param in
  if negb (positive_integer id) then Ret (json_error 400 "负载通知 ID 无效")
  else do! need_database env in do! call_db (DeleteLoadNotification id) in done_with [].
(** @worker/src/routes/admin.ts:2559-2574 POST /notification/load/delete *)
Definition delete_load : admin response :=
  guarded 500 "删除失败" (body_of (λ body,
    let id := to_num (fld body "id") in
    if negb (positive_integer id) then Ret (json_error 400 "负载通知 ID 无效")
    else do! need_database env in do! call_db (DeleteLoadNotification id) in done_with [])).
End Config.
