(* ===== verification/AdminBackup.v ===== *)
(** * Backups in the panel: the backup routes of [routes/admin.ts]

    The download of the encrypted configuration and its restoration: the confirmation, the
    decryption and validation, the write of the database, and the synchronization of the
    live object's nodes with what the database holds then.  The random salt and vector are
    parameters. *)

From S2P Require Import Prelude JsStr JsNum JsVal JsList JsBytes JsDate Net Report LiveReport LiveAdmin Effects AgentHttp RequestBody Outbox Backup AdminHttp AdminNodes AdminConfig.
#[local] Open Scope Z_scope.

(** @worker/src/utils/backup.ts:41-41 MAX_BACKUP_BYTES *)
Definition MAX_BACKUP_BYTES : Z := 5 * 1024 * 1024.
Definition RESTORE_ATTEMPTS : nat := 3.
Definition sync_failed : jstr := "Restored client state synchronization failed".
Definition sync_changed : jstr := "Restored client snapshot changed repeatedly".
(** @worker/src/utils/backup.ts:93-102 BackupSummary (its properties) *)
Definition summary_json (s : BackupSummary) : jsval :=
  let n k (v : nat) := (k, JNum (of_Z (Z.of_nat v))) in
  JObj [("settings", JBool (bs_settings s)); n "settings_count" (bs_settings_count s); n "clients" (bs_clients s); n "ping_tasks" (bs_ping_tasks s);
        n "offline_notifications" (bs_offline s); n "expiry_notifications" (bs_expiry s); n "load_notifications" (bs_load s);
        n "website_monitors" (bs_websites s)].
(** @worker/src/routes/admin.ts:680-682 isBodyFlagEnabled *)
Definition isBodyFlagEnabled (body : fields) (key : jstr) : bool := is_bool (fld body key) true.
(** @worker/src/routes/admin.ts:707-709 jsonSizeBytes *)
Definition jsonSizeBytes (value : jsval) : Z := byte_length (json value).
(** @worker/src/routes/admin.ts:711-716 isEncryptedBackupEnvelope -- an array has neither
    property *)
Definition isEncryptedBackupEnvelope (value : jsval) : bool :=
  match value with JObj v => is_str (fld v "schema") ENCRYPTED_BACKUP_SCHEMA_ID || is_bool (fld v "encrypted") true | _ => false end.
(** @worker/src/utils/restore-client-snapshot.ts:22-29 measureRestoredClientSnapshot (sizes)
    -- the estimate and the maximum *)
Definition measured (clients : list fields) : Z * Z :=
  let metadata := map restoredClientMetadata clients in
  let snapshot := JObj [("clients", JArr (map JObj metadata)); ("updatedAt", JNum (of_Z max_safe)); ("removed", JArr []); ("complete", JBool true)] in
  (byte_length (SNAPSHOT_KEY +++ json snapshot) + Z.of_nat (length metadata) * DATABASE_DEFAULTS_BYTES_PER_CLIENT,
   SQLITE_VALUE_LIMIT_BYTES - SERIALIZATION_MARGIN_BYTES).
Definition backup_clients (backup : fields) : option (list fields) :=
  match fld backup "clients" with JUndef => None | JArr l => Some (map as_object l) | _ => Some [] end.
(** The settings of the configuration: a record of texts. *)
Definition setting_texts (v : jsval) : list (jstr * jstr) := omap (λ p : jstr * jsval, match p.2 with JStr s => Some (p.1, s) | _ => None end) (as_object v).

Section AdminBackup.
Context (URL : jstr → option url) `{BackupCrypto}.
Context (env : admin_env) (aq : admin_request) (salt iv : list Z).

Abbreviation audit := (AdminHttp.audit aq).
Abbreviation need_database := (AdminHttp.need_database env).
Abbreviation flag key := (isQueryFlagEnabled (query aq key)).

(** @worker/src/routes/admin.ts:342-350 readAdminBackupJsonObject *)
Definition readAdminBackupJsonObject : admin (result response fields) :=
  readAdminJsonBody (aq_base aq) "备份 JSON 格式错误" "备份内容无效" isJsonObjectBody MAX_BACKUP_BYTES.
(** @worker/src/routes/admin.ts:688-705 getRestoreConfirmationState -- the two flags *)
Definition getRestoreConfirmationState (body : fields) : bool * bool :=
  (flag "confirm_restore" || isBodyFlagEnabled body "confirm_restore", flag "acknowledge_overwrite" || isBodyFlagEnabled body "acknowledge_overwrite").
Definition confirmed (body : fields) : bool := (getRestoreConfirmationState body).1 && (getRestoreConfirmationState body).2.

(** ** The download *)

(** @worker/src/routes/admin.ts:3003-3032 /download/backup (the backup) *)
Definition encrypted_download (backupPassword : jstr) : admin response :=
  do! need_database in
  let! snapshot := call_db GetBackupConfigurationSnapshot in
  let! now := clock in
  match buildBackupSnapshot URL snapshot (setting_texts (fld snapshot "settings")) (iso_string now) with
  | Err e => Throw e
  | Ok backup =>
    match encryptBackup URL backup backupPassword salt iv (iso_string now) with
    | Err e => Ret (json_error 400 e)
    | Ok encrypted =>
      let summary := summarizeBackup (as_object backup) in
      do! audit "backup_download" ("下载加密完整备份: " +++ json (JObj (as_object (summary_json summary) ++
            [("encrypted", JBool true); ("contains_sensitive_fields_after_decrypt", JBool true); ("encryption", JStr BACKUP_ENCRYPTION_ALGORITHM)]))) in
      let! later := clock in
      do! header "Content-Type" "application/json" in
      do! header "Cache-Control" "no-store" in
      do! header "Content-Disposition" ("attachment; filename=" +++ JS [34%N] +++ "cf-monitor-encrypted-backup-" +++ slice_to 10 (iso_string later) +++ ".json" +++ JS [34%N]) in
      do! header "X-CF-VPS-Monitor-Backup-Schema" ENCRYPTED_BACKUP_SCHEMA_ID in
      do! header "X-CF-VPS-Monitor-Backup-Scope" BACKUP_SCOPE in
      do! header "X-CF-VPS-Monitor-Backup-Encrypted" "true" in
      Ret (json_ok encrypted)
    end
  end.
(** @worker/src/routes/admin.ts:2997-3037 /download/backup *)
Definition download_backup : admin response :=
  catch (with_body (readAdminJsonObject aq) (λ body, encrypted_download (AgentHttp.text_of (fld body "backup_password"))))
        (λ _, Ret (json_error 500 "备份失败")).

(** ** The restoration *)

(** @worker/src/routes/admin.ts:3072-3080 /upload/backup (the encrypted backup) *)
Definition uploaded (body : fields) : option (jsval * jstr) :=
  let wrappedBackup := fld body "backup" in
  let encryptedBackup := if isEncryptedBackupEnvelope wrappedBackup then wrappedBackup else JObj body in
  if negb (isEncryptedBackupEnvelope encryptedBackup) then None
  else Some (encryptedBackup, match fld body "backup_password" with JStr p => p | _ => default "" (aq_backup_password aq) end).
(** @worker/src/routes/admin.ts:3072-3102 /upload/backup (the backup, or the refusal) *)
Definition accepted_backup (body : fields) : response + (fields * list jstr) :=
  match uploaded body with
  | None => inl (json_error 400 "只支持导入加密完整备份，不支持明文备份文件")
  | Some (encryptedBackup, backupPassword) =>
    match decryptBackup URL encryptedBackup backupPassword with
    | Err e => inl (json_error 400 e)
    | Ok decrypted =>
      match validateBackup URL decrypted with
      | Err errors => inl (error_details 400 "备份校验失败" errors)
      | Ok (backup, warnings) =>
        let backup := as_object backup in
        match backup_clients backup with
        | Some clients =>
          if (measured clients).1 <=? (measured clients).2 then inr (backup, warnings)
          else inl {| status := 413;
                      content := JObj [("error", JStr "节点配置过大，无法安全恢复实时节点列表；请缩短备注、硬件描述或减少节点后重试。数据库未修改。");
                                       ("database_restored", JBool false); ("estimated_snapshot_bytes", JNum (of_Z (measured clients).1));
                                       ("maximum_snapshot_bytes", JNum (of_Z (measured clients).2))] |}
        | None => inr (backup, warnings)
        end
      end
    end
  end.
(** @worker/src/routes/admin.ts:3117-3126 /upload/backup (the caches) *)
Definition forget_everything : admin unit :=
  do! invalidateAdminClientsCache in
  do! invalidateAdminPingTasksCache in
  do! purgeAdminPingTasksEdgeCache in
  do! spawn PurgeClients in
  do! invalidateAdminPublicMetadata in
  do! on_agent (AgentHttp.invalidateAgentClientAuthCache None) in
  do! on_agent AgentHttp.invalidateAgentPingTaskCache in
  do! invalidateAllowedClientIdsCache in
  do! invalidateCapacityEstimateCache in
  invalidateWebsiteMonitorPublicState Everything.
(** @worker/src/routes/admin.ts:3128-3145 /upload/backup (an attempt) -- the answer of the
    live object to the nodes the database holds now *)
Fixpoint restore_live (attempts : nat) : admin unit :=
  match attempts with
  | O => Throw sync_changed
  | S attempts =>
    let! beforeRead := readAdminClientsSnapshot env in
    let! authoritativeClients := call_db ListClients in
    let! r := live_call env "POST" "clients-restore"
      (JObj [("clients", JArr (map (λ c, JObj (hideAdminClientToken c)) authoritativeClients));
             ("expected_version", match beforeRead with Some s => JNum (sn_updatedAt s) | None => JNum (of_Z 0) end)]) in
    let! result := reply_json r in
    if (rp_status r =? 409) && is_str (fld (as_object result) "code") "CLIENT_SNAPSHOT_CHANGED" then restore_live attempts
    else if negb (rp_ok r) || negb (is_bool (fld (as_object result) "success") true) then Throw sync_failed
    else Ret tt
  end.
(** @worker/src/routes/admin.ts:3127-3149 /upload/backup (the live state) *)
Definition synchronize_restored (backup : fields) : admin unit :=
  do! (match backup_clients backup with
       | Some _ =>
         do! restore_live RESTORE_ATTEMPTS in
         let! _ := synchronize env {| so_uuids := None; so_limit := None; so_drain := true |} in Ret tt
       | None => Ret tt
       end) in
  refreshLivePingTasks env.
Definition restored_partly (error : jstr) (realtime : bool) : response :=
  {| status := 500;
     content := JObj [("error", JStr error); ("database_restored", JBool true); ("realtime_synchronized", JBool realtime); ("retryable", JBool true)] |}.
Definition unfinished_live : response := restored_partly "数据库配置已恢复，但实时状态与 Agent 认证同步未完成。请重试恢复以完成同步。" false.
Definition unfinished_audit : response := restored_partly "数据库配置与实时状态已恢复，但后续清理或审计未完成。请重试确认。" true.
(** @worker/src/routes/admin.ts:3151-3177 /upload/backup (the end) *)
Definition restored_answer (body backup : fields) (warnings : list jstr) (before : fields) : admin response :=
  let restored := summary_json (summarizeBackup backup) in
  let! cleanup := call_db CleanupOrphanClientData in
  do! audit "backup_restore" ("恢复备份: " +++ json (JObj
        [("restored", restored); ("previous", summary_json (summarizeBackup before)); ("cleanup", cleanup);
         ("warnings", JNum (of_Z (Z.of_nat (length warnings)))); ("operator_ip", JStr (getCloudflareClientIp (rq_ip (aq_base aq)) "unknown"));
         ("backup_size_bytes", JNum (of_Z (jsonSizeBytes (JObj backup)))); ("encrypted", JBool true); ("plaintext_backup_supported", JBool false);
         ("confirmed", JObj [("confirm_restore", JBool (getRestoreConfirmationState body).1); ("acknowledge_overwrite", JBool (getRestoreConfirmationState body).2)])])) in
  Ret (json_ok (JObj [("success", JBool true); ("restored", restored); ("cleanup", cleanup); ("warnings", texts warnings)])).
(** @worker/src/routes/admin.ts:3113-3190 /upload/backup (the restoration) -- the failures
    after the write of the database are answered with how far it came *)
Definition restore (body backup : fields) (warnings : list jstr) : admin response :=
  do! need_database in
  let! beforeRestore := call_db GetBackupConfigurationSnapshot in
  do! call_db (RestoreBackupData (JObj backup)) in
  catch
    (do! forget_everything in
     do! synchronize_restored backup in
     catch (restored_answer body backup warnings beforeRestore) (λ _, Ret unfinished_audit))
    (λ _, Ret unfinished_live).
Definition unconfirmed_restore (body : fields) : response :=
  {| status := 400;
     content := JObj [("error", JStr "恢复备份需要同时确认 confirm_restore=true 和 acknowledge_overwrite=true");
                      ("required", JObj [("confirm_restore", JBool true); ("acknowledge_overwrite", JBool true)]);
                      ("received", JObj [("confirm_restore", JBool (getRestoreConfirmationState body).1);
                                         ("acknowledge_overwrite", JBool (getRestoreConfirmationState body).2)])] |}.
(** @worker/src/routes/admin.ts:3053-3111 /upload/backup (the decision) *)
Definition restore_body (body : fields) : admin response :=
  if MAX_BACKUP_BYTES <? jsonSizeBytes (JObj body) then Ret (json_error 413 ("备份文件不能超过 " +++ dec_Z MAX_BACKUP_BYTES +++ " 字节"))
  else if negb (flag "dry_run") && negb (confirmed body) then Ret (unconfirmed_restore body)
  else match accepted_backup body with
       | inl r => Ret r
       | inr (backup, warnings) =>
         if flag "dry_run" then
           Ret (json_ok (JObj [("success", JBool true); ("dry_run", JBool true); ("restored", summary_json (summarizeBackup backup)); ("warnings", texts warnings)]))
         else restore body backup warnings
       end.
(** @worker/src/routes/admin.ts:3040-3191 /upload/backup *)
Definition upload_backup : admin response :=
  catch
    (let contentLength := str_num (or_str (default "" (rq_length (aq_base aq))) "0") in
     if is_finite contentLength && num_lt (of_Z MAX_BACKUP_BYTES) contentLength
     then Ret (json_error 413 ("备份文件不能超过 " +++ dec_Z MAX_BACKUP_BYTES +++ " 字节"))
     else with_body readAdminBackupJsonObject restore_body)
    (λ _, Ret (json_error 500 "恢复失败")).
End AdminBackup.
