(* ===== verification/RestoreSpec.v ===== *)
(** * What restoring a backup promises

    The answer to an uploaded backup says how far its restoration came: whether the database
    was written, whether the live object holds what the database holds, and whether the rest
    was done. *)

From S2P Require Import Prelude JsStr JsNum JsVal JsList JsBytes JsDate Net Report LiveReport LiveAdmin Effects AgentHttp RequestBody AgentSpec Outbox Backup BackupSpec AdminHttp AdminNodes AdminConfig AdminBackup.
#[local] Open Scope Z_scope.

Abbreviation admin_event := (event admin_call admin_ans).
Definition called_db (c : db_call) (x : result jstr (db_ans c)) : admin_event := existT (Db c : admin_call) x.
Definition called_live (method path : jstr) (body : jsval) (x : result jstr reply) : admin_event := existT (LiveCall method path body : admin_call) x.
Definition called_sync (c : sync_call) (x : result jstr (sync_ans c)) : admin_event := existT (Sync c : admin_call) x.
Definition is_restore (c : admin_call) : bool := match c with Db (RestoreBackupData _) => true | _ => false end.
Definition no_restore (ev : admin_event) : Prop := is_restore (projT1 ev) = false.
Definition sync_event (ev : admin_event) : Prop := match projT1 ev with Sync _ => True | _ => False end.
Abbreviation whatever := (λ _, True).
Abbreviation wp_admin := (wp (call:=admin_call) (ans:=admin_ans) (state:=admin_state) (task:=admin_task) whatever).
Abbreviation writes_nothing := (obeys (call:=admin_call) (ans:=admin_ans) (state:=admin_state) (task:=admin_task) whatever (λ c, is_restore c = false) whatever).

(** The live object accepted the nodes the database held, and every queued change was
    delivered after that. *)
Definition accepted_by_live (r : reply) : Prop := rp_ok r = true ∧ is_bool (fld (as_object (default JNull (rp_json r))) "success") true = true.
Definition live_synchronized (l : list admin_event) : Prop :=
  ∃ l1 clients expected r l2 limit,
    l = l1 ++ [called_db ListClients (Ok clients);
               called_live "POST" "clients-restore" (JObj [("clients", JArr (map (λ c, JObj (hideAdminClientToken c)) clients)); ("expected_version", expected)]) (Ok r)]
        ++ l2 ++ [called_sync (ListPending None limit) (Ok [])]
    ∧ accepted_by_live r ∧ Forall sync_event l2.

Lemma db_wp {B} c (f : db_ans c → admin B) h b (Q : post admin_call admin_ans admin_task B) :
  (∀ a, wp_admin (f a) (h ++ [called_db c (Ok a)]) b Q) → (∀ e, Q (h ++ [called_db c (Err e)]) b (Err e)) → wp_admin (bind (call_db c) f) h b Q.
Proof. intros H1 H2. apply wp_bind. exact (wp_act admin_call admin_ans admin_state admin_task whatever (Db c) h b _ H1 H2). Qed.
Lemma nothing_wp {A} (p : admin A) h b (Q : post admin_call admin_ans admin_task A) :
  writes_nothing p → (∀ l t r, Forall no_restore l → Q (h ++ l) (b ++ t) r) → wp_admin p h b Q.
Proof. intros Hp HQ. eapply obeys_wp; [exact Hp |]. intros l t r Hl _. by apply HQ. Qed.

Section Spec.
Context (URL : jstr → option url) `{BackupCrypto} (env : admin_env) (aq : admin_request).

Lemma snapshot_writes : writes_nothing (readAdminClientsSnapshot env).
Proof.
  unfold readAdminClientsSnapshot, live_call. apply obeys_bind; [destruct (LIVE_DATA _); [by apply obeys_act | exact I] |]. intros r. destruct (negb _); [exact I |].
  apply obeys_bind; intros; exact I.
Qed.
(** The attempts at the live object. *)
Lemma restore_live_wp n h b (Q : post admin_call admin_ans admin_task unit) :
  (∀ l t clients expected r, Forall no_restore l → accepted_by_live r →
     Q (h ++ l ++ [called_db ListClients (Ok clients);
               called_live "POST" "clients-restore" (JObj [("clients", JArr (map (λ c, JObj (hideAdminClientToken c)) clients)); ("expected_version", expected)]) (Ok r)]) (b ++ t) (Ok tt)) →
  (∀ l t e, Forall no_restore l → Q (h ++ l) (b ++ t) (Err e)) → wp_admin (restore_live env n) h b Q.
Proof.
  revert h b. induction n as [|n IH]; intros h b H1 H2; cbn [restore_live].
  - generalize (H2 [] [] sync_changed (Forall_nil_2 _)). by rewrite !app_nil_r.
  - apply wp_bind, nothing_wp; [apply snapshot_writes |]. intros l t [before|e] Hl; [| by apply H2].
    apply db_wp; [intros clients | intros e; rewrite <- (assoc_L (++)); apply H2, Forall_app; split; [done | by apply Forall_singleton]].
    apply wp_bind. unfold live_call. destruct (LIVE_DATA _); [| cbn [wp]; rewrite <- (assoc_L (++)); apply H2, Forall_app; split; [done | by apply Forall_singleton]].
    apply wp_act; [intros r | intros e; rewrite <- !(assoc_L (++)); apply H2; rewrite !Forall_app; split_and!; [done | by apply Forall_singleton | by apply Forall_singleton]].
    cbn [bind reply_json wp]. destruct (_ && _) eqn:E1; [| destruct (_ || _) eqn:E2; cbn [wp]].
    + apply IH.
      * intros l' t' clients' expected r' Hl' Hr'. rewrite <- !(assoc_L (++)). rewrite (assoc_L (++) l), (assoc_L (++) (l ++ _)), (assoc_L (++) ((l ++ _) ++ _)).
        apply H1; [| done]. rewrite !Forall_app. split_and!; [done | by apply Forall_singleton | by apply Forall_singleton | done].
      * intros l' t' e Hl'. rewrite <- !(assoc_L (++)). apply H2. rewrite !Forall_app. split_and!; [done | by apply Forall_singleton | by apply Forall_singleton | done].
    + rewrite <- !(assoc_L (++)). apply H2. rewrite !Forall_app. split_and!; [done | by apply Forall_singleton | by apply Forall_singleton].
    + apply orb_false_iff in E2 as [E2%negb_false_iff E3%negb_false_iff]. rewrite <- !(assoc_L (++)). apply H1; [done | by split].
Qed.
(** The delivery of everything queued. *)
Lemma drain_wp n k h b (Q : post admin_call admin_ans admin_task Z) :
  (∀ l limit m, Forall sync_event l → Q (h ++ l ++ [called_sync (ListPending None limit) (Ok [])]) b (Ok m)) →
  (∀ l e, Forall sync_event l → Q (h ++ l) b (Err e)) →
  wp_admin (within_handler (sync_batches {| so_uuids := None; so_limit := None; so_drain := true |} n k)) h b Q.
Proof.
  revert k h. induction n as [|n IH]; intros k h H1 H2; cbn [sync_batches so_uuids so_drain]; cbn [act bind within_handler wp].
  - intros [[|p l]|e]; cbn [bind within_handler wp length Nat.ltb Nat.leb].
    + by apply (H1 []).
    + apply H2. by apply Forall_singleton.
    + apply H2. by apply Forall_singleton.
  - intros [[|p changes]|e]; cbn [bind within_handler wp length Nat.eqb]; [by apply (H1 []) | | apply H2; by apply Forall_singleton].
    intros [response|e]; cbn [bind within_handler wp]; [| rewrite <- (assoc_L (++)); apply H2; by repeat apply Forall_cons_2].
    destruct (refused_batch _ _ _) as [[|]|e]; cbn [bind within_handler wp]; try (rewrite <- (assoc_L (++)); apply H2; by repeat apply Forall_cons_2).
    intros [acknowledged|e]; cbn [bind within_handler wp]; [| rewrite <- !(assoc_L (++)); apply H2; by repeat apply Forall_cons_2].
    destruct (negb _); cbn [within_handler wp]; [rewrite <- !(assoc_L (++)); apply H2; by repeat apply Forall_cons_2 |].
    apply IH.
    + intros l limit m Hl. rewrite <- !(assoc_L (++)). rewrite (assoc_L (++) [_]), (assoc_L (++) ([_] ++ _)), (assoc_L (++) (([_] ++ _) ++ _)).
      apply H1. by repeat apply Forall_cons_2.
    + intros l e Hl. rewrite <- !(assoc_L (++)). apply H2. by repeat apply Forall_cons_2.
Qed.

(** ** What the answer says *)

Definition dry_run : bool := isQueryFlagEnabled (query aq "dry_run").
(** A backup that may be written: sent, confirmed twice, decrypted, valid and fitting. *)
Definition authorized (body backup : fields) (warnings : list jstr) : Prop :=
  sent_fields (aq_base aq) = Some body ∧ dry_run = false ∧ confirmed aq body = true ∧ accepted_backup URL aq body = inr (backup, warnings).
(** The database was written with the backup. *)
Definition written (before backup : fields) : list admin_event :=
  [called_db GetBackupConfigurationSnapshot (Ok before); called_db (RestoreBackupData (JObj backup)) (Ok tt)].
(** The live object was synchronized when the backup has nodes, and told of the tasks. *)
Definition live_done (backup : fields) (l : list admin_event) : Prop :=
  ∃ l0 l1 l2, l = l0 ++ l1 ++ l2 ∧ Forall no_restore l0 ∧ Forall no_restore l2 ∧ match backup_clients backup with Some _ => live_synchronized l1 | None => l1 = [] end.
Inductive restore_outcome : list admin_event → response → Prop :=
| refused resp : status resp ≠ 200 → fld (as_object (content resp)) "database_restored" ≠ JBool true → restore_outcome [] resp
| previewed body backup warnings :
    sent_fields (aq_base aq) = Some body → dry_run = true → accepted_backup URL aq body = inr (backup, warnings) →
    restore_outcome [] (json_ok (JObj [("success", JBool true); ("dry_run", JBool true); ("restored", summary_json (summarizeBackup backup)); ("warnings", texts warnings)]))
| unread body backup warnings e :
    authorized body backup warnings → restore_outcome [called_db GetBackupConfigurationSnapshot (Err e)] (json_error 500 "恢复失败")
| unwritten body backup warnings before e :
    authorized body backup warnings →
    restore_outcome [called_db GetBackupConfigurationSnapshot (Ok before); called_db (RestoreBackupData (JObj backup)) (Err e)] (json_error 500 "恢复失败")
| live_unfinished body backup warnings before l :
    authorized body backup warnings → Forall no_restore l → restore_outcome (written before backup ++ l) unfinished_live
| audit_unfinished body backup warnings before l l' :
    authorized body backup warnings → live_done backup l → Forall no_restore l' → restore_outcome (written before backup ++ l ++ l') unfinished_audit
| restored_all body backup warnings before l cleanup detail :
    authorized body backup warnings → live_done backup l →
    restore_outcome (written before backup ++ l ++ [called_db CleanupOrphanClientData (Ok cleanup); called_db (AuditLog (aq_username aq) "backup_restore" detail "info") (Ok tt)])
      (json_ok (JObj [("success", JBool true); ("restored", summary_json (summarizeBackup backup)); ("cleanup", cleanup); ("warnings", texts warnings)])).
Definition answered (h : list admin_event) (_ : list admin_task) (r : result jstr response) : Prop := ∃ resp, r = Ok resp ∧ restore_outcome h resp.

Lemma sync_no_restore l : Forall sync_event l → Forall no_restore l.
Proof. intros H0. eapply Forall_impl; [exact H0 |]. by intros [[] ?]. Qed.
Lemma forget_writes : writes_nothing forget_everything.
Proof. unfold forget_everything. repeat (apply obeys_bind; [by intros | intros _]). by repeat split. Qed.
Lemma synchronize_restored_wp backup h b (Q : post admin_call admin_ans admin_task unit) :
  (∀ l t, live_done backup l → Q (h ++ l) (b ++ t) (Ok tt)) → (∀ l t e, Forall no_restore l → Q (h ++ l) (b ++ t) (Err e)) →
  wp_admin (synchronize_restored env backup) h b Q.
Proof.
  intros H1 H2. unfold synchronize_restored. apply wp_bind.
  assert (Hend : ∀ l t, match backup_clients backup with Some _ => live_synchronized l | None => l = [] end →
    wp_admin (refreshLivePingTasks env) (h ++ l) (b ++ t) Q).
  { intros l t Hl. unfold refreshLivePingTasks, try_live. apply wp_catch. apply wp_bind. unfold live_call.
    destruct (LIVE_DATA _); [apply wp_act; intros x |]; cbn [bind wp]; rewrite <- ?(assoc_L (++)).
    - apply H1. exists [], l, [called_live "POST" "ping-tasks-refresh" JUndef (Ok x)]. by repeat split; try constructor.
    - apply H1. exists [], l, [called_live "POST" "ping-tasks-refresh" JUndef (Err x)]. by repeat split; try constructor.
    - apply H1. exists [], l, []. rewrite app_nil_r. by repeat split; try constructor. }
  destruct (backup_clients backup) as [clients|].
  - apply wp_bind, restore_live_wp.
    + intros l t cs expected r Hl Hr. cbn [wp]. apply wp_bind. unfold synchronize, synchronizePendingClientChanges.
      destruct (LIVE_DATA _).
      * cbn [negb so_drain]. apply drain_wp.
        -- intros l' limit m Hl'. cbn [wp]. rewrite <- !(assoc_L (++)). apply (Hend _ t). exists l, cs, expected, r, l', limit. by rewrite <- ?(assoc_L (++)).
        -- intros l' e Hl'. rewrite <- !(assoc_L (++)). apply H2. rewrite !Forall_app. split_and!; [done | by repeat apply Forall_cons_2 | by apply sync_no_restore].
      * cbn [negb within_handler wp]. rewrite <- ?(assoc_L (++)). apply H2. rewrite !Forall_app. split_and!; [done | by repeat apply Forall_cons_2].
    + intros l t e Hl. by apply H2.
  - cbn [wp]. generalize (Hend [] [] eq_refl). by rewrite !app_nil_r.
Qed.
(** What is thrown is answered 500. *)
Definition settled (h : list admin_event) (b : list admin_task) (r : result jstr response) : Prop :=
  answered h b (Ok (match r with Ok resp => resp | Err _ => json_error 500 "恢复失败" end)).
Lemma refusal_settled b resp : status resp ≠ 200 → fld (as_object (content resp)) "database_restored" ≠ JBool true → settled [] b (Ok resp).
Proof. intros H1 H2. exists resp. by split; [| apply refused]. Qed.
Lemma finish_wp body backup warnings before l b (Ha : authorized body backup warnings) (Hl : live_done backup l) :
  wp_admin (catch (restored_answer aq body backup warnings before) (λ _, Ret unfinished_audit)) (written before backup ++ l) b answered.
Proof.
  assert (Haudit : ∀ b l', Forall no_restore l' → answered (written before backup ++ l ++ l') b (Ok unfinished_audit)).
  { intros b' l' Hl'. eexists. split; [reflexivity |]. by eapply audit_unfinished. }
  apply wp_catch. unfold restored_answer. cbv zeta.
  apply db_wp; [intros cleanup | intros e; cbn [wp]; rewrite <- (assoc_L (++)); apply Haudit; by repeat constructor].
  apply db_wp; [intros [] | intros e; cbn [wp]; rewrite <- !(assoc_L (++)); apply Haudit; by repeat constructor].
  cbn [wp]. rewrite <- !(assoc_L (++)). eexists. split; [reflexivity |]. by eapply restored_all.
Qed.
Lemma restore_wp body backup warnings b : authorized body backup warnings → wp_admin (restore env aq body backup warnings) [] b settled.
Proof.
  intros Ha. unfold restore. apply wp_bind. unfold need_database. destruct (db_error _); cbn [wp]; [by apply (refusal_settled b (json_error 500 "恢复失败")) |].
  apply db_wp; [intros before | intros e; eexists; split; [reflexivity |]; by eapply unread].
  apply db_wp; [intros [] | intros e; eexists; split; [reflexivity |]; by eapply unwritten].
  assert (Hlive : ∀ b l, Forall no_restore l → settled (written before backup ++ l) b (Ok unfinished_live)).
  { intros b' l Hl. eexists. split; [reflexivity |]. by eapply live_unfinished. }
  apply wp_catch, wp_bind, nothing_wp; [apply forget_writes |]. intros l0 t0 [[]|e] Hl0; [| by apply Hlive].
  apply wp_bind, synchronize_restored_wp.
  - intros l t (l1 & l2 & l3 & -> & H1 & H2 & H3). rewrite <- (assoc_L (++)).
    eapply wp_mono; [| apply (finish_wp _ _ _ before (l0 ++ l1 ++ l2 ++ l3) _ Ha)].
    + intros h' b' [r'|e] Hr; [exact Hr |]. by destruct Hr as (resp & Hr & _).
    + exists (l0 ++ l1), l2, l3. rewrite (assoc_L (++)). split_and!; [done | by apply Forall_app | done | done].
  - intros l t e Hl. cbn [wp]. rewrite <- (assoc_L (++)). by apply Hlive, Forall_app.
Qed.
Lemma accepted_refusal body r : accepted_backup URL aq body = inl r → status r ≠ 200 ∧ fld (as_object (content r)) "database_restored" ≠ JBool true.
Proof.
  unfold accepted_backup. destruct (uploaded _ _) as [[v p]|]; [| by intros [= <-]].
  destruct (decryptBackup _ _ _); [| by intros [= <-]]. destruct (validateBackup _ _) as [[v' w]|]; [| by intros [= <-]].
  cbv zeta. destruct (backup_clients _); [| done]. destruct (_ <=? _); [done | by intros [= <-]].
Qed.
Lemma restore_body_wp body b : sent_fields (aq_base aq) = Some body → wp_admin (restore_body URL env aq body) [] b settled.
Proof.
  intros Hs. unfold restore_body. destruct (_ <? _); [by apply (refusal_settled b (json_error _ _)) |].
  destruct (isQueryFlagEnabled _) eqn:Ed; cbn [negb andb].
  - destruct (accepted_backup _ _ _) as [r|[backup warnings]] eqn:Eb.
    + destruct (accepted_refusal _ _ Eb). by apply (refusal_settled b r).
    + eexists. split; [reflexivity |]. by eapply previewed.
  - destruct (confirmed _ _) eqn:Ec; [| by apply (refusal_settled b (unconfirmed_restore _ _))]. cbn [negb].
    destruct (accepted_backup _ _ _) as [r|[backup warnings]] eqn:Eb.
    + destruct (accepted_refusal _ _ Eb). by apply (refusal_settled b r).
    + by apply restore_wp.
Qed.
Lemma upload_wp : wp_admin (upload_backup URL env aq) [] [] answered.
Proof.
  apply wp_catch. eapply wp_mono; [| cut (wp_admin (if is_finite (str_num (or_str (default "" (rq_length (aq_base aq))) "0")) && num_lt (of_Z MAX_BACKUP_BYTES) (str_num (or_str (default "" (rq_length (aq_base aq))) "0"))
     then Ret (json_error 413 ("备份文件不能超过 " +++ dec_Z MAX_BACKUP_BYTES +++ " 字节"))
     else with_body (readAdminBackupJsonObject aq) (restore_body URL env aq)) [] [] settled); [intros Hw; exact Hw |]].
  - intros h b [resp|e]; intros Hr; exact Hr.
  - destruct (_ && _); [by apply (refusal_settled [] (json_error _ _)) |]. unfold with_body, readAdminBackupJsonObject, readAdminJsonBody.
    apply wp_bind, wp_bind, read_json_wp; cbn [wp]; try by intros; apply (refusal_settled _ (json_error _ _)).
    2: by intros e; apply (refusal_settled [] (json_error 500 "恢复失败")).
    intros v Hv. destruct (isJsonObjectBody v) as [body|] eqn:Eb; [| by apply (refusal_settled _ (json_error _ _))].
    apply restore_body_wp. unfold sent_fields. rewrite Hv. exact Eb.
Qed.

End Spec.

(** *** A restoration *)

Definition sample_upload : admin_request :=
  {| aq_base := {| rq_authorization := None; rq_ip := Some "8.8.8.8"; rq_length := None; rq_ip_country := None; rq_cf := None;
                   rq_body := Some ([Some (utf8 (json (JObj [("backup", ex_file); ("backup_password", JStr "correct horse");
                     ("confirm_restore", JBool true); ("acknowledge_overwrite", JBool true)])))], None); rq_format := None |};
     aq_query := []; aq_userId := "admin"; aq_username := "admin"; aq_hostname := "panel.example"; aq_backup_password := None |}.
Definition restore_bindings : admin_env := {| ae_bindings := {| LIVE_DATA := true; RATE_LIMIT := false; db_error := None |}; ae_caches := false |}.
(** The live object accepts what it is sent; the database fails [broken]. *)
Definition restore_answer (broken : db_call → bool) (c : admin_call) : result jstr (admin_ans c) :=
  match c with
  | Db d =>
    if broken d then Err "refused"
    else match d return result jstr (db_ans d) with
         | GetBackupConfigurationSnapshot => Ok []
         | RestoreBackupData _ => Ok tt
         | ListClients => Ok [[("uuid", JStr "node-1")]]
         | CleanupOrphanClientData => Ok (JObj [])
         | AuditLog _ _ _ _ => Ok tt
         | _ => Err "unused"
         end
  | LiveCall _ path _ =>
    Ok {| rp_status := 200; rp_json := Some (JObj [("success", JBool true); ("clients", JArr []); ("updatedAt", JNum (of_Z 7)); ("complete", JBool true)]) |}
  | Sync (ListPending _ _) => Ok []
  | _ => Err "unused"
  end.
Definition sample_restore (broken : db_call → bool) :=
  @exec admin_call admin_ans admin_state admin_task response
    {| e_answer := λ _ c, restore_answer broken c; e_others := λ _ s, s; e_clock := λ _, 1735689600000 |} 0
    {| agentState := fresh_state; allowedClientIdsCache := None; adminClientsCache := None; adminPingTasksCache := None;
       adminSettingsScopeCache := []; capacityRowCountCache := None; capacityEstimateCache := None |}
    (@upload_backup ex_URL ex_crypto restore_bindings sample_upload).
Definition answer_of (broken : db_call → bool) : Z * jsval :=
  match r_value (sample_restore broken) with Ok r => (status r, fld (as_object (content r)) "realtime_synchronized") | Err _ => (0, JNull) end.
Lemma sample_restores :
  answer_of (λ _, false) = (200, JUndef)
  ∧ answer_of (λ c, match c with CleanupOrphanClientData => true | _ => false end) = (500, JBool true)
  ∧ answer_of (λ c, match c with ListClients => true | _ => false end) = (500, JBool false)
  ∧ length (r_log (sample_restore (λ _, false))) = 9%nat.
Proof. vm_compute. by repeat split. Qed.
