(* ===== verification/AdminSettings.v ===== *)
(** * Settings in the panel: the settings routes of [routes/admin.ts]

    What the panel is shown of the settings, with secrets masked, and how a form that comes
    back is merged with what is stored.  The URL parser is a parameter. *)

From S2P Require Import Prelude JsStr JsNum JsVal JsList JsBytes Net PingTask Settings Report Client LiveAdmin Effects AgentHttp RequestBody Outbox AdminHttp.
From S2P Require Import Notify.
#[local] Open Scope Z_scope.

(** ** Scopes *)

(** @worker/src/routes/admin.ts:103-107 LIVE_POLICY_SETTING_KEYS *)
Definition LIVE_POLICY_SETTING_KEYS : list jstr :=
  ["live_poll_active_interval_sec"; "live_poll_idle_interval_sec"; "live_poll_active_max_duration_sec"].
(** @worker/src/routes/admin.ts:108-114 RECORD_PERSISTENCE_SETTING_KEYS *)
Definition RECORD_PERSISTENCE_SETTING_KEYS : list jstr :=
  ["record_enabled"; "record_persist_interval_sec"; "ping_record_persist_interval_sec"; "record_high_watermark_rows"; "record_high_watermark_bytes"].
(** @worker/src/routes/admin.ts:115-130 CAPACITY_ESTIMATE_SETTING_KEYS *)
Definition CAPACITY_ESTIMATE_SETTING_KEYS : list jstr :=
  ["record_enabled"; "record_preserve_time"; "ping_record_preserve_time"; "live_poll_active_interval_sec"; "live_poll_idle_interval_sec";
   "record_persist_interval_sec"; "ping_record_persist_interval_sec"; "record_high_watermark_rows"; "record_high_watermark_bytes";
   "audit_log_preserve_time"; "database_storage_budget_bytes"; "theme_storage_quota_bytes"; "capacity_daily_view_minutes"].
(** @worker/src/routes/admin.ts:131-185 SETTINGS_SCOPE_KEYS *)
Definition SETTINGS_SCOPE_KEYS : list (jstr * list jstr) :=
  [("site" : jstr, ["site_title" : jstr; "site_subtitle"; "site_description"; "language"; "script_domain"; "site_logo_url"]);
   ("general" : jstr, ["record_enabled" : jstr; "record_preserve_time"; "ping_record_preserve_time"; "live_poll_active_interval_sec";
     "live_poll_idle_interval_sec"; "live_poll_active_max_duration_sec"; "record_persist_interval_sec"; "ping_record_persist_interval_sec";
     "record_high_watermark_rows"; "record_high_watermark_bytes"; "database_storage_budget_bytes"; "theme_storage_quota_bytes";
     "capacity_daily_view_minutes"; "offline_confirm_rounds"]);
   ("notification" : jstr, ["notification_method" : jstr; "telegram_bot_token"; "telegram_chat_id"; "email_smtp_host"; "email_smtp_port";
     "email_smtp_security"; "email_smtp_username"; "email_smtp_password"; "email_smtp_from_address"; "email_smtp_from_name";
     "email_smtp_recipients"; "email_smtp_auth_method"; "webhook_url"; "webhook_format"; "webhook_secret"; "webhook_method";
     "webhook_content_type"; "webhook_headers_json"; "webhook_body_template"; "webhook_username"; "webhook_password"; "webhook_retry_count";
     "enable_ip_change_notification"; "offline_notify_never_reported"]);
   ("update" : jstr, ["update_repository_url" : jstr])].
(** @worker/src/routes/admin.ts:2285-2291 GET /settings (deletions) *)
Definition hidden_notification_keys : list jstr :=
  ["telegram_bot_token"; "telegram_chat_id"; "email_smtp_password"; "webhook_url"; "webhook_secret"; "webhook_headers_json"; "webhook_password"].
(** The settings shown as a preview of their value. *)
Definition previewed_keys : list jstr := ["telegram_bot_token"; "telegram_chat_id"; "email_smtp_password"; "webhook_secret"; "webhook_password"].
Definition without (keys : list jstr) {V} (fs : list (jstr * V)) : list (jstr * V) := fold_left (λ fs k, del_field k fs) keys fs.

(** ** The form *)

(** The members of the answer that describe a secret: none of them is a setting. *)
Definition described_keys : list jstr :=
  ["email_smtp_password_set"; "webhook_url_set"; "webhook_secret_set"; "webhook_headers_set"; "webhook_password_set"; "webhook_url_host";
   "telegram_bot_token_set"; "telegram_chat_id_set"; "telegram_bot_token_preview"; "telegram_chat_id_preview"; "email_smtp_password_preview";
   "webhook_secret_preview"; "webhook_password_preview"].
Definition clear_keys : list jstr := ["webhook_url_clear"; "webhook_secret_clear"; "telegram_bot_token_clear"; "telegram_chat_id_clear"].
(** [body[key] === true || body[key] === 'true'] *)
Definition clear_asked (body : fields) (key : jstr) : bool := is_bool (fld body key) true || is_str (fld body key) "true".
Definition drop_if (b : bool) (key : jstr) (body : fields) : fields := if b then del_field key body else body.
Definition drop_blank (key : jstr) (body : fields) : fields := drop_if (is_str (fld body key) "") key body.
(** [if (clear) body[key] = ''; else if (body[key] === '') delete body[key];] *)
Definition clear_or_keep (clear : bool) (key : jstr) (body : fields) : fields :=
  if clear then set_field key (JStr "") body else drop_blank key body.
(** @worker/src/routes/admin.ts:2308-2348 POST /settings (the form) *)
Definition submitted_settings (body : fields) : fields :=
  let settingsBody := without described_keys body in
  let clear key := clear_asked settingsBody key in
  let s := without clear_keys settingsBody in
  let s := fold_left (λ s key, drop_if (isMaskedSecretPreview (fld s key)) key s) previewed_keys s in
  let s := drop_blank "email_smtp_password" s in
  let s := clear_or_keep (clear "telegram_bot_token_clear") "telegram_bot_token" s in
  let s := clear_or_keep (clear "telegram_chat_id_clear") "telegram_chat_id" s in
  let s := clear_or_keep (clear "webhook_url_clear") "webhook_url" s in
  let s := clear_or_keep (clear "webhook_secret_clear") "webhook_secret" s in
  drop_blank "webhook_password" (drop_blank "webhook_headers_json" s).
(** [settings[key]] *)
Definition setting (settings : list (jstr * jstr)) (key : jstr) : jstr := default "" (lookup_field key settings).
(** @worker/src/routes/admin.ts:2361-2364 POST /settings (the changes) *)
Definition changed_settings (current normalized : list (jstr * jstr)) : list (jstr * jstr) :=
  List.filter (λ p, negb (match lookup_field p.1 current with Some v => jeq v p.2 | None => false end)) normalized.

Section Settings.
Context (URL : jstr → option url) (env : admin_env) (aq : admin_request).

(** @worker/src/routes/admin.ts:280-286 webhookUrlHost *)
Definition webhookUrlHost (value : jstr) : jstr :=
  if nonempty value then match URL value with Some u => lower (hostname u) | None => "" end else "".
(** @worker/src/routes/admin.ts:2267-2292 GET /settings (a notification form) *)
Definition notification_form (settings scoped : list (jstr * jstr)) : list (jstr * jstr) :=
  let given key := if nonempty (setting settings key) then "true" else "false" in
  let preview key := maskSecretPreview (Some (setting settings key)) in
  without hidden_notification_keys
    (spread scoped
      [("email_smtp_password_set" : jstr, given "email_smtp_password"); ("webhook_url_set" : jstr, given "webhook_url");
       ("webhook_secret_set" : jstr, given "webhook_secret"); ("webhook_headers_set" : jstr, given "webhook_headers_json");
       ("webhook_password_set" : jstr, given "webhook_password"); ("telegram_bot_token_set" : jstr, given "telegram_bot_token");
       ("telegram_chat_id_set" : jstr, given "telegram_chat_id"); ("webhook_url_host" : jstr, webhookUrlHost (setting settings "webhook_url"));
       ("telegram_bot_token_preview" : jstr, preview "telegram_bot_token"); ("telegram_chat_id_preview" : jstr, preview "telegram_chat_id");
       ("email_smtp_password_preview" : jstr, preview "email_smtp_password"); ("webhook_secret_preview" : jstr, preview "webhook_secret");
       ("webhook_password_preview" : jstr, preview "webhook_password")]).
Definition text_fields (l : list (jstr * jstr)) : fields := map (λ p, (p.1, JStr p.2)) l.
(** @worker/src/routes/admin.ts:2265-2292 GET /settings (the settings of a scope) *)
Definition scoped_settings (scope : jstr) (keys : list jstr) (stored : list (jstr * jstr)) : list (jstr * jstr) :=
  let settings := buildAdminSettings URL stored in
  let scoped := map (λ key, (key, setting settings key)) keys in
  if jeq scope "notification" then notification_form settings scoped else scoped.
(** @worker/src/routes/admin.ts:2252-2299 GET /settings *)
Definition get_settings : admin response :=
  do! need_database env in
  match query aq "scope" with
  | Some scope =>
    if negb (nonempty scope) then
      let! settings := call_db GetAllSettings in Ret (json_ok (JObj (text_fields (buildAdminSettings URL settings))))
    else
      match lookup_field scope SETTINGS_SCOPE_KEYS with
      | None => Ret (json_error 400 "未知设置范围")
      | Some keys =>
        let fresh := jeq scope "notification" || isQueryFlagEnabled (query aq "refresh") in
        let! cached := (if fresh then Ret None
                        else let! st := get in
                             match lookup_field scope (adminSettingsScopeCache st) with
                             | Some (value, expiresAt) => let! now := clock in Ret (if now <? expiresAt then Some value else None)
                             | None => Ret None
                             end) in
        match cached with
        | Some value => Ret (json_ok (JObj value))
        | None =>
          let! stored := call_db (GetSettings keys) in
          let scoped := text_fields (scoped_settings scope keys stored) in
          do! (if fresh then Ret tt
               else let! now := clock in
                    updated (λ st, with_settings (set_field scope (scoped, now + ADMIN_SETTINGS_SCOPE_CACHE_MS) (adminSettingsScopeCache st)) st)) in
          Ret (json_ok (JObj scoped))
        end
      end
  | None => let! settings := call_db GetAllSettings in Ret (json_ok (JObj (text_fields (buildAdminSettings URL settings))))
  end.

(** @worker/src/routes/admin.ts:2378-2410 POST /settings (after the write) *)
Definition settings_written (changedKeys : list jstr) : admin unit :=
  let among keys := existsb (λ key, mem key keys) changedKeys in
  do! (if among CAPACITY_ESTIMATE_SETTING_KEYS then invalidateCapacityEstimateCache else Ret tt) in
  do! (if among PUBLIC_SETTING_KEYS then invalidateAdminPublicMetadata else Ret tt) in
  do! (if mem "ping_record_persist_interval_sec" changedKeys then on_agent invalidateAgentPingTaskCache else Ret tt) in
  let livePolicySettingsChanged := among LIVE_POLICY_SETTING_KEYS in
  let recordPersistenceSettingsChanged := among RECORD_PERSISTENCE_SETTING_KEYS in
  do! (if (livePolicySettingsChanged || recordPersistenceSettingsChanged) && negb (LIVE_DATA (ae_bindings env)) then Throw missing_binding
       else
         do! (if livePolicySettingsChanged then spawn RefreshAgentPolicy else Ret tt) in
         if recordPersistenceSettingsChanged then spawn RefreshRecordSettings else Ret tt) in
  audit_later aq "settings_edit" ("修改系统设置: " +++ join "," changedKeys).
Definition settings_answer (ignored : list jstr) (changed : nat) (noop : bool) : response :=
  json_ok (JObj [("success", JBool true); ("ignored", texts ignored); ("changed", JNum (of_Z (Z.of_nat changed))); ("noop", JBool noop)]).
(** @worker/src/routes/admin.ts:2302-2416 POST /settings *)
Definition save_settings : admin response :=
  catch
    (with_body (readAdminJsonObject aq) (λ body,
       do! need_database env in
       let normalized := sanitizeSettingsForStorage URL (JObj (submitted_settings body)) true (aq_hostname aq) in
       if negb (sn_ok normalized) then Ret (error_details 400 "设置校验失败" (sn_errors normalized))
       else
         let! stored := call_db (GetSettings (map fst (sn_settings normalized))) in
         let changedSettings := changed_settings (buildAdminSettings URL stored) (sn_settings normalized) in
         if (length changedSettings =? 0)%nat then Ret (settings_answer (sn_ignored normalized) 0 true)
         else
           do! call_db (SetSettings changedSettings) in
           do! invalidateAdminSettingsCache in
           do! settings_written (map fst changedSettings) in
           Ret (settings_answer (sn_ignored normalized) (length changedSettings) false)))
    (λ _, Ret (json_error 500 "保存失败")).

(** ** The logo of the site *)

(** @worker/src/routes/admin.ts:288-297 detectSiteLogoType *)
Definition detectSiteLogoType (bytes : list Z) : option jstr :=
  let at_ i b := match bytes !! i with Some x => x =? b | None => false end in
  if at_ 0%nat 137 && at_ 1%nat 80 && at_ 2%nat 78 && at_ 3%nat 71 then Some "image/png"
  else if at_ 0%nat 255 && at_ 1%nat 216 && at_ 2%nat 255 then Some "image/jpeg"
  else if at_ 0%nat 82 && at_ 1%nat 73 && at_ 2%nat 70 && at_ 3%nat 70 && at_ 8%nat 87 && at_ 9%nat 69 && at_ 10%nat 66 && at_ 11%nat 80
  then Some "image/webp" else None.
(** @worker/src/routes/admin.ts:2238-2249 POST /site-logo/reset *)
Definition reset_site_logo : admin response :=
  do! need_database env in
  do! call_db (SetSettings [("site_logo_data", ""); ("site_logo_type", ""); ("site_logo_url", "")]) in
  do! invalidateAdminSettingsCache in
  do! invalidateAdminPublicMetadata in
  do! Yield (Ret tt) in
  do! audit aq "settings_save" "恢复默认站点 Logo" in
  Ret (json_ok (JObj [("success", JBool true); ("site_logo_url", JStr "")])).
(** @worker/src/routes/admin.ts:2219-2236 POST /site-logo (the picture) -- once the form
    holds one *)
Definition save_site_logo (bytes : list Z) : admin response :=
  if MAX_SITE_LOGO_BYTES <? Z.of_nat (length bytes) then Ret (json_error 413 ("Logo 不能超过 " +++ dec_Z MAX_SITE_LOGO_BYTES +++ " 字节"))
  else match detectSiteLogoType bytes with
  | None => Ret (json_error 400 "Logo 只支持 PNG、JPG、WebP")
  | Some contentType =>
    do! need_database env in
    let! now := clock in
    let siteLogoUrl := "/api/site-logo?v=" +++ dec_Z now in
    do! call_db (SetSettings [("site_logo_data", JS (btoa bytes)); ("site_logo_type", contentType); ("site_logo_url", siteLogoUrl)]) in
    do! invalidateAdminSettingsCache in
    do! invalidateAdminPublicMetadata in
    do! Yield (Ret tt) in
    do! audit aq "settings_save" "上传站点 Logo" in
    Ret (json_ok (JObj [("success", JBool true); ("site_logo_url", JStr siteLogoUrl)]))
  end.
(** @worker/src/routes/admin.ts:2203-2218 POST /site-logo (the upload) -- [parse_form] reads the bytes of
    the form's [file]: [Err] when it is no form, [Ok None] when there is none *)
Definition upload_site_logo (parse_form : list Z → result jstr (option (list Z))) : admin response :=
  let! body := readRequestBytesWithLimit (aq_base aq) (MAX_SITE_LOGO_BYTES + 4096) in
  match body with
  | None => Ret (json_error 413 ("Logo 不能超过 " +++ dec_Z MAX_SITE_LOGO_BYTES +++ " 字节"))
  | Some bytes =>
    Yield (match parse_form bytes with
           | Err _ => Ret (json_error 400 "Logo 表单格式错误")
           | Ok None => Ret (json_error 400 "请上传 Logo 图片")
           | Ok (Some file) => Yield (save_site_logo file)
           end)
  end.
End Settings.
