(* ===== verification/AdminSpec.v ===== *)
(** * What the administrator's routes promise

    Properties of [AdminNodes] for every run in every environment: what an answer says of
    the changes it was asked for, and who owns the list of nodes. *)

From S2P Require Import Prelude JsStr JsNum JsVal JsList JsBytes Net PingTask Settings Report Client LiveAuth LiveAdmin LiveSync Effects AgentHttp.
From S2P Require Import RequestBody AgentSpec Outbox AdminHttp AdminNodes.
#[local] Open Scope Z_scope.

(** ** Writes of nodes, and their delivery *)

Abbreviation admin_event := (Effects.event admin_call admin_ans).
(** The nodes a call changed, if it was answered and changed any. *)
Definition saves (ev : admin_event) : option (list jstr) :=
  match ev with
  | existT c x =>
    match c as c return result jstr (admin_ans c) → option (list jstr) with
    | Db (CreateClient client) => λ x, match x with Ok _ => Some [nc_uuid client] | Err _ => None end
    | Db (UpdateClientAndReturn u _) => λ x, match x with Ok (Some _) => Some [u] | _ => None end
    | Db (RotateClientToken u _) => λ x, match x with Ok (Some _) => Some [u] | _ => None end
    | Db (DeleteClient u) => λ x, match x with Ok _ => Some [u] | Err _ => None end
    | Db (DeleteClients us) => λ x, match x with Ok _ => Some us | Err _ => None end
    | Db (UpdateClientsHidden us _) => λ x, match x with Ok _ => Some us | Err _ => None end
    | _ => λ _, None
    end x
  end.
(** The nodes for which the queue was read and held nothing. *)
Definition nothing_queued (ev : admin_event) : option (list jstr) :=
  match ev with
  | existT c x =>
    match c as c return result jstr (admin_ans c) → option (list jstr) with
    | Sync (ListPending (Some us) _) => λ x, match x with Ok [] => Some us | _ => None end
    | _ => λ _, None
    end x
  end.
(** The nodes changed and not seen delivered since. *)
Definition observe (open : list jstr) (ev : admin_event) : list jstr :=
  match nothing_queued ev with
  | Some us => List.filter (λ u, negb (mem u us)) open
  | None => default [] (saves ev) ++ open
  end.
Definition undelivered (h : list admin_event) : list jstr := fold_left observe h [].
Definition saved (h : list admin_event) : bool := existsb (λ ev, match saves ev with Some _ => true | None => false end) h.
(** [GetClientsByIds] answers rows of the nodes it was asked for. *)
Definition asked_rows (ev : admin_event) : Prop :=
  match ev with
  | existT c x =>
    match c as c return result jstr (admin_ans c) → Prop with
    | Db (GetClientsByIds us) => λ x, match x with Ok l => Forall (λ row, row_uuid row ∈ us) l | Err _ => True end
    | _ => λ _, True
    end x
  end.

Lemma undelivered_app h l : undelivered (h ++ l) = fold_left observe l (undelivered h).
Proof. apply fold_left_app. Qed.
Lemma saved_app h l : saved (h ++ l) = saved h || saved l.
Proof. apply existsb_app. Qed.
Lemma observe_delivered l open u :
  u ∈ open → u ∉ fold_left observe l open → ∃ before ev after us, l = before ++ ev :: after ∧ nothing_queued ev = Some us ∧ u ∈ us.
Proof.
  revert open. induction l as [|ev l IH]; intros open Hu Hn; cbn [fold_left] in Hn; [done |].
  destruct (nothing_queued ev) as [us|] eqn:E; [destruct (decide (u ∈ us)) as [Hin|Hin]; [by exists [], ev, l, us |] |].
  - destruct (IH (observe open ev)) as (b & ev' & a & us' & -> & H1 & H2); [| done | by exists (ev :: b), ev', a, us'].
    unfold observe. rewrite E. apply list_elem_of_In, filter_In. split; [by apply list_elem_of_In |]. by apply negb_true_iff, mem_false.
  - destruct (IH (observe open ev)) as (b & ev' & a & us' & -> & H1 & H2); [| done | by exists (ev :: b), ev', a, us'].
    unfold observe. rewrite E. apply elem_of_app. by right.
Qed.
(** Once nothing is undelivered, every write was followed by a look at its queue. *)
Lemma delivered_after h before ev after us u :
  undelivered h = [] → h = before ++ ev :: after → saves ev = Some us → u ∈ us →
  ∃ mid ev' after' us', after = mid ++ ev' :: after' ∧ nothing_queued ev' = Some us' ∧ u ∈ us'.
Proof.
  intros H -> Hs Hu. rewrite undelivered_app in H. cbn [fold_left] in H. apply (observe_delivered after (observe (undelivered before) ev)).
  - unfold observe. rewrite Hs. destruct (nothing_queued ev) eqn:E; [| apply elem_of_app; by left].
    destruct ev as [c x]. by destruct c as [| |[]| | | |]; try done; destruct x as [[]|].
  - rewrite H. apply not_elem_of_nil.
Qed.
Lemma filter_all (l us : list jstr) : (∀ u, u ∈ l → u ∈ us) → List.filter (λ u, negb (mem u us)) l = [].
Proof.
  induction l as [|u l IH]; intros H; [done |]. cbn [List.filter]. rewrite (proj2 (mem_spec u us)) by (apply H; list_elem).
  apply IH. intros v Hv. apply H. by right.
Qed.

(** ** Steps that change no node *)

Definition quiet (c : admin_call) : Prop :=
  match c with
  | Db (CreateClient _) | Db (UpdateClientAndReturn _ _) | Db (RotateClientToken _ _) | Db (DeleteClient _) | Db (DeleteClients _)
  | Db (UpdateClientsHidden _ _) | Sync _ => False
  | _ => True
  end.
Abbreviation whatever := (λ _, True).
Abbreviation wp_admin := (wp (call:=admin_call) (ans:=admin_ans) (state:=admin_state) (task:=admin_task) whatever).
Abbreviation at_rest := (obeys (call:=admin_call) (ans:=admin_ans) (state:=admin_state) (task:=admin_task) whatever quiet whatever).
Lemma quiet_event c x : quiet c → saves (existT c x) = None ∧ nothing_queued (existT c x) = None.
Proof. by destruct c as [| |[]| | | |]. Qed.
Lemma quiet_log l : Forall (λ ev, quiet (projT1 ev)) l → ∀ h, undelivered (h ++ l) = undelivered h ∧ saved (h ++ l) = saved h.
Proof.
  induction 1 as [|[c x] l Hq _ IH]; intros h; [by rewrite app_nil_r |]. rewrite undelivered_app, saved_app. cbn [fold_left saved existsb].
  destruct (quiet_event c x Hq) as [H1 H2]. unfold observe at 2. rewrite H1, H2. cbn [default Datatypes.app orb].
  rewrite <- undelivered_app. fold (saved l). rewrite <- saved_app. apply IH.
Qed.
Lemma rest_wp {A} (p : admin A) h b (Q : post admin_call admin_ans admin_task A) :
  at_rest p → (∀ l t r, undelivered (h ++ l) = undelivered h → saved (h ++ l) = saved h → Q (h ++ l) (b ++ t) r) → wp_admin p h b Q.
Proof. intros Hp HQ. eapply obeys_wp; [exact Hp |]. intros l t r Hl _. destruct (quiet_log l Hl h). by apply HQ. Qed.

Section Rest.
Context (env : admin_env) (aq : admin_request).
Lemma act_rest c : quiet c → at_rest (act c).
Proof. apply obeys_act. Qed.
Lemma db_rest c : quiet (Db c) → at_rest (call_db c).
Proof. apply obeys_act. Qed.
Lemma updated_rest u : at_rest (updated u).
Proof. by intros s _. Qed.
Lemma agent_rest u : at_rest (on_agent u).
Proof. by intros s _. Qed.
Lemma spawn_rest t : at_rest (spawn t).
Proof. by split. Qed.
Lemma database_rest : at_rest (need_database env).
Proof. unfold need_database. by destruct (db_error _). Qed.
Lemma live_rest m p body : at_rest (live_call env m p body).
Proof. unfold live_call. destruct (LIVE_DATA _); [by apply act_rest | exact I]. Qed.
Lemma delete_rest path : at_rest (edge_delete path).
Proof. apply obeys_catch; [by apply act_rest | intros; exact I]. Qed.
Lemma purge_rest : at_rest (purgeAdminClientsEdgeCache env).
Proof. unfold purgeAdminClientsEdgeCache. destruct (ae_caches env); [apply delete_rest | exact I]. Qed.
Lemma try_live_rest path body : at_rest (try_live env path body).
Proof. apply obeys_catch; [apply obeys_bind; [apply live_rest |] |]; intros; exact I. Qed.
Lemma audit_rest action detail : at_rest (audit aq action detail).
Proof. by apply db_rest. Qed.
End Rest.
Create HintDb at_rest.
#[export] Hint Resolve updated_rest agent_rest spawn_rest database_rest live_rest delete_rest purge_rest try_live_rest audit_rest : at_rest.
#[export] Hint Extern 1 (at_rest (call_db _)) => apply db_rest; exact I : at_rest.
#[export] Hint Extern 1 (at_rest (act _)) => apply act_rest; exact I : at_rest.
(** Every step of the program is at rest. *)
Ltac resting :=
  repeat first
    [ exact I | progress (intros) | solve [eauto 1 with at_rest]
    | match goal with
      | |- obeys _ _ _ (bind _ _) => apply obeys_bind
      | |- obeys _ _ _ (catch _ _) => apply obeys_catch
      | |- obeys _ _ _ (match ?x with _ => _ end) => destruct x
      | |- obeys _ _ _ (Ret _) => exact I
      | |- obeys _ _ _ (Throw _) => exact I
      | |- obeys _ _ _ (Yield _) => cbn [obeys]
      | |- obeys _ _ _ clock => intros ?; exact I
      | |- obeys _ _ _ get => intros ? _; split; exact I
      | |- obeys _ _ _ (header _ _) => exact I
      end ].

(** ** Truthful answers *)

Definition succeeded (r : response) : bool := (status r =? 200) && is_bool (fld (as_object (content r)) "success") true.
Definition without_change (r : response) : bool := is_bool (fld (as_object (content r)) "noop") true.
(** A success saved the change, and it was delivered; a refusal changed nothing; what is
    called committed was. *)
Definition truthful : post admin_call admin_ans admin_task response :=
  λ h _ r, Forall asked_rows h →
  match r with
  | Ok r =>
    (succeeded r = true → undelivered h = [] ∧ (saved h = true ∨ without_change r = true))
    ∧ (status r ∈ [400; 409; 413] → saved h = false)
    ∧ (status r = 503 → saved h = true)
  | Err _ => True
  end.
Lemma truthful_failure h b code error : code ∉ [200; 400; 409; 413; 503] → truthful h b (Ok (json_error code error)).
Proof.
  intros Hc _. unfold succeeded. cbn [status content json_error]. split_and!.
  - intros H. apply andb_true_iff in H as [->%Z.eqb_eq _]. exfalso. apply Hc. list_elem.
  - intros H. exfalso. apply Hc. revert H. rewrite !elem_of_cons. tauto.
  - intros ->. exfalso. apply Hc. list_elem.
Qed.
Lemma truthful_refusal h b r : status r ∈ [400; 404; 409; 413] → succeeded r = false → saved h = false → truthful h b (Ok r).
Proof.
  intros Hc Hs Hn _. split_and!; [by rewrite Hs | done |]. intros E. rewrite E in Hc. revert Hc. rewrite !elem_of_cons, elem_of_nil. lia.
Qed.
Lemma truthful_success h b r :
  status r = 200 → saved h = true ∨ without_change r = true → (Forall asked_rows h → undelivered h = []) → truthful h b (Ok r).
Proof. intros Hc Hs Hu Ha. rewrite Hc. split_and!; [by auto | rewrite !elem_of_cons, elem_of_nil; lia | lia]. Qed.

Section Routes.
Context (env : admin_env) (aq : admin_request).

Definition refusing {A} (r : result response A) : Prop :=
  match r with Err r => (status r = 400 ∨ status r = 413) ∧ succeeded r = false | Ok _ => True end.
(** A body is read, or the request is refused. *)
Lemma with_body_wp {A} invalidJson invalidShape (accepts : jsval → option A) maxBytes k h b Q :
  (∀ h' b' r, undelivered h' = undelivered h → saved h' = saved h → status r = 400 ∨ status r = 413 → succeeded r = false → Q h' b' (Ok r)) →
  (∀ h' b' e, Q h' b' (Err e)) →
  (∀ h' b' a, h `prefix_of` h' → undelivered h' = undelivered h → saved h' = saved h → wp_admin (k a) h' b' Q) →
  wp_admin (with_body (readAdminJsonBody (aq_base aq) invalidJson invalidShape accepts maxBytes) k) h b Q.
Proof.
  intros Hr He Hk. apply wp_bind. unfold readAdminJsonBody. apply wp_bind, rest_wp.
  { apply read_json_obeys. }
  intros l t [parsed|e] Hu Hs; [| by apply He]. cbn [wp]. destruct parsed as [body| |].
  - destruct (accepts body); [apply Hk; auto using prefix_app_r | apply Hr; auto].
  - apply Hr; auto.
  - apply Hr; auto.
Qed.
Lemma catch_wp p code error h b :
  code ∉ [200; 400; 409; 413; 503] → wp_admin p h b truthful → wp_admin (catch p (λ _, Ret (json_error code error))) h b truthful.
Proof.
  intros Hc Hp. apply wp_catch. eapply wp_mono; [| exact Hp]. intros h' b' [r|e] H; [done |]. by apply truthful_failure.
Qed.
(** A first step at rest. *)
Lemma step_wp {A B} (p : admin A) (f : A → admin B) h b Q :
  at_rest p → (∀ h' b' e, Q h' b' (Err e)) →
  (∀ h' b' a, h `prefix_of` h' → undelivered h' = undelivered h → saved h' = saved h → wp_admin (f a) h' b' Q) → wp_admin (bind p f) h b Q.
Proof. intros Hp He Hf. apply wp_bind, rest_wp; [done |]. intros l t [a|e] Hu Hs; [by apply Hf; [apply prefix_app_r | |] | apply He]. Qed.
(** The delivery of the changes of [us], as a handler awaits it. *)
Lemma synchronize_wp us h b (Q : post admin_call admin_ans admin_task (option response)) :
  (∀ h' b', h `prefix_of` h' → undelivered h' = List.filter (λ u, negb (mem u us)) (undelivered h) → saved h' = saved h → Q h' b' (Ok None)) →
  (∀ h' b', h `prefix_of` h' → saved h' = saved h → Q h' b' (Ok (Some committed_unsynchronized))) →
  wp_admin (synchronizeClientWrite env us) h b Q.
Proof.
  intros H1 H2. unfold synchronizeClientWrite. apply wp_catch. apply wp_bind. unfold need_database.
  assert (Hsync : ∀ h', h `prefix_of` h' → saved h' = saved h → wp_admin (do! header "Retry-After" "2" in Ret (Some committed_unsynchronized)) h' b Q)
    by (intros; cbn; by apply H2).
  destruct (db_error _); [by apply Hsync |]. cbn [wp]. apply wp_bind. unfold synchronize, synchronizePendingClientChanges.
  destruct (LIVE_DATA _); [| by apply Hsync]. cbn [negb so_drain so_uuids sync_batches]. set (limit := sync_limit _). cbn [act bind within_handler wp].
  assert (Hquiet : ∀ h' c x, h `prefix_of` h' → saved h' = saved h → h `prefix_of` h' ++ [existT (Sync c) x] ∧ saved (h' ++ [existT (Sync c) x]) = saved h).
  { intros h' c x Hp Hs. split; [by apply prefix_app_r |]. by rewrite saved_app, Hs, orb_false_r. }
  assert (Hlast : ∀ h' l, h `prefix_of` h' → saved h' = saved h → undelivered h' = undelivered h →
            Q (h' ++ [existT (Sync (ListPending (Some us) l)) (Ok [])]) b (Ok None)).
  { intros h' l Hp Hs Hu. destruct (Hquiet h' (ListPending (Some us) l) (Ok []) Hp Hs) as [H3 H4]. apply H1; [done | | done].
    rewrite undelivered_app. cbn [fold_left]. unfold observe. cbn [nothing_queued]. by rewrite Hu. }
  intros [pending|e]; [| by apply Hsync; apply Hquiet]. cbn [bind within_handler].
  destruct pending as [|p0 pending]; [cbn; by apply Hlast |]. cbn [length Nat.eqb within_handler wp bind].
  set (h1 := h ++ _). assert (Hh1 : h `prefix_of` h1 ∧ saved h1 = saved h) by (by apply Hquiet).
  assert (Hu1 : undelivered h1 = undelivered h) by (unfold h1; rewrite undelivered_app; reflexivity). clearbody h1. destruct Hh1 as [Hp1 Hs1].
  intros [response|e]; [| by apply Hsync; apply Hquiet]. cbn [bind within_handler wp].
  set (h2 := h1 ++ _). assert (Hh2 : h `prefix_of` h2 ∧ saved h2 = saved h) by (by apply Hquiet).
  assert (Hu2 : undelivered h2 = undelivered h) by (unfold h2; rewrite undelivered_app; exact Hu1). clearbody h2. destruct Hh2 as [Hp2 Hs2].
  destruct (refused_batch _ _ _) as [[|]|e]; [by apply Hsync | | by apply Hsync]. cbn [bind within_handler wp].
  intros [acknowledged|e]; [| by apply Hsync; apply Hquiet]. cbn [bind within_handler wp].
  set (h3 := h2 ++ _). assert (Hh3 : h `prefix_of` h3 ∧ saved h3 = saved h) by (by apply Hquiet).
  assert (Hu3 : undelivered h3 = undelivered h) by (unfold h3; rewrite undelivered_app; exact Hu2). clearbody h3. destruct Hh3 as [Hp3 Hs3].
  destruct (negb _); [by apply Hsync |]. cbn [bind within_handler wp].
  intros [[|p1 left]|e]; cbn [bind within_handler wp length Z.of_nat]; [by apply Hlast | by apply Hsync; apply Hquiet | by apply Hsync; apply Hquiet].
Qed.
Lemma truthful_unsynchronized h b : saved h = true → truthful h b (Ok committed_unsynchronized).
Proof. intros Hs _. split_and!; [done | | done]. cbn. rewrite !elem_of_cons, elem_of_nil. lia. Qed.
Lemma synchronized_wp us k h b :
  saved h = true →
  (∀ h' b', h `prefix_of` h' → undelivered h' = List.filter (λ u, negb (mem u us)) (undelivered h) → saved h' = true → wp_admin k h' b' truthful) →
  wp_admin (synchronized env us k) h b truthful.
Proof.
  intros Hs Hk. apply wp_bind, synchronize_wp.
  - intros h' b' Hp Hu Hs'. apply Hk; [done | done | congruence].
  - intros h' b' Hp Hs'. cbn [wp]. apply truthful_unsynchronized. congruence.
Qed.
(** What is left once the change of one node is delivered. *)
Lemma one_delivered u : List.filter (λ v, negb (mem v [u])) [u] = [].
Proof. apply filter_all. by intros v. Qed.
Lemma synchronized_one_wp u k h b :
  saved h = true → undelivered h = [u] → (∀ h' b', undelivered h' = [] → saved h' = true → wp_admin k h' b' truthful) → wp_admin (synchronized env [u] k) h b truthful.
Proof. intros Hs Hu Hk. apply synchronized_wp; [done |]. intros h' b' _ Hd Hs'. apply Hk; [| done]. by rewrite Hd, Hu, one_delivered. Qed.

Lemma purges_rest : at_rest (purges_done env).
Proof. unfold purges_done. resting. Qed.
#[local] Hint Resolve purges_rest : at_rest.
Lemma metadata_rest : at_rest invalidateAdminPublicMetadata.
Proof. unfold invalidateAdminPublicMetadata. resting. Qed.
#[local] Hint Resolve metadata_rest : at_rest.
Ltac stepping :=
  apply step_wp; [solve [resting] | intros ? ? ? ?; exact I | let Hp := fresh "Hp" in let Hu := fresh "Hu" in let Hs := fresh "Hs" in intros ? ? ? Hp Hu Hs].
Ltac reading := apply with_body_wp; [intros ? ? ? ? ? [?|?] ?; (apply truthful_refusal; [rewrite ?elem_of_cons; lia | done | etrans; [eassumption | done]]) | intros ? ? ? ?; exact I |].

(** A call of the database, and what it adds to the log. *)
Lemma call_wp {A} c (f : db_ans c → admin A) (h : list admin_event) b Q :
  (∀ e (h' : list admin_event), h' = h ++ [existT (Db c : admin_call) (Err e)] → Q h' b (Err e)) →
  (∀ a (h' : list admin_event), h' = h ++ [existT (Db c : admin_call) (Ok a)] → wp_admin (f a) h' b Q) → wp_admin (bind (call_db c) f) h b Q.
Proof. intros He Hf. apply wp_bind, wp_act; [intros a; by apply Hf | intros e; by apply He]. Qed.
Lemma log_event h h' ev : h' = h ++ [ev] → undelivered h' = observe (undelivered h) ev ∧ saved h' = saved h || saved [ev].
Proof. intros ->. by rewrite undelivered_app, saved_app. Qed.
(** What a call adds to both views of the log. *)
Ltac logged H :=
  let Hu := fresh "Hu" in let Hs := fresh "Hs" in
  destruct (log_event _ _ _ H) as [Hu Hs]; unfold observe in Hu;
  cbn [saves nothing_queued saved existsb default id Datatypes.app] in Hu, Hs; rewrite ?orb_false_r, ?orb_true_r in Hs.
(** After the delivery of the only node there was: the rest is at rest, and succeeds. *)
Ltac chase := repeat match goal with H : _ ?h = _ |- context [?h] => is_var h; rewrite H end; done.
Ltac finish := repeat stepping; cbn [wp]; (apply truthful_success; [done | left; chase | intros _; chase]).

Lemma add_wp random_uuid random_token : wp_admin (add_client env aq random_uuid random_token) [] [] truthful.
Proof.
  apply catch_wp; [by rewrite !elem_of_cons, elem_of_nil; lia |]. reading. intros h b body _ Hu Hs. cbn [undelivered saved fold_left existsb] in Hu, Hs.
  destruct (validateClientCreateInput _ _ _) as [client|errors]; [| by apply truthful_refusal; [list_elem | | ]].
  stepping. unfold create_client. apply wp_bind, wp_catch, call_wp.
  - intros e h2 Hh2. destruct (isClientUniqueConflict e); [| by intros _]. cbn [wp]. apply truthful_refusal; [list_elem | done |].
    logged Hh2. chase.
  - intros row h2 Hh2. cbn [wp]. logged Hh2. do 5 stepping. apply synchronized_one_wp; [chase | chase |]. intros h3 b3 Hd Hs9. finish.
Qed.
Lemma edit_wp uuid : wp_admin (edit_client env aq uuid) [] [] truthful.
Proof.
  apply catch_wp; [by rewrite !elem_of_cons, elem_of_nil; lia |]. reading. intros h b body _ Hu Hs. cbn [undelivered saved fold_left existsb] in Hu, Hs.
  stepping. destruct (validateClientUpdateInput _) as [[|p client]|errors].
  - cbn [wp]. apply truthful_success; [done | by right | intros _; chase].
  - apply call_wp; [by intros |]. intros [row|] h2 Hh2; logged Hh2; [| apply truthful_refusal; [list_elem | done | chase]].
    do 4 stepping. apply synchronized_one_wp; [chase | chase |]. intros h3 b3 Hd Hs9. finish.
  - apply truthful_refusal; [list_elem | done | chase].
Qed.
Lemma remove_wp uuid : wp_admin (remove_client env aq uuid) [] [] truthful.
Proof.
  reading. intros h b body _ Hu Hs. cbn [undelivered saved fold_left existsb] in Hu, Hs. stepping.
  apply call_wp; [by intros |]. intros result h2 Hh2. logged Hh2.
  apply synchronized_one_wp; [chase | chase |]. intros h3 b3 Hd Hs9.
  destruct (num_eqb _ _); [stepping; cbn [wp] | finish].
  intros _. split_and!; [done | | done]. cbn. rewrite !elem_of_cons, elem_of_nil. lia.
Qed.
(** A log from which every change was delivered, and what follows at rest. *)
Definition closed (h : list admin_event) : Prop := saved h = true ∧ (Forall asked_rows h → undelivered h = []).
Lemma prefix_asked h h' : h `prefix_of` h' → Forall asked_rows h' → Forall asked_rows h.
Proof. intros [l ->] [H _]%Forall_app. done. Qed.
Lemma closing_wp {A} (p : admin A) (f : A → admin response) h b :
  at_rest p → closed h → (∀ h' b' a, closed h' → wp_admin (f a) h' b' truthful) → wp_admin (bind p f) h b truthful.
Proof.
  intros Hp Hc Hf. apply step_wp; [done | by intros |]. intros h' b' a Hpre Hu Hs. destruct Hc as [Hc1 Hc2]. apply Hf. split; [congruence |].
  intros Ha. rewrite Hu. apply Hc2. by apply (prefix_asked h h').
Qed.
Lemma asked_clients h us l u :
  Forall asked_rows h → (∃ h0 : list admin_event, h = h0 ++ [existT (Db (GetClientsByIds us) : admin_call) (Ok l)]) → u ∈ l → row_uuid u ∈ us.
Proof. intros Ha [h0 ->]. apply Forall_app in Ha as [_ Ha]. apply Forall_cons in Ha as [Ha _]. cbn in Ha. apply (proj1 (Forall_forall _ l) Ha). Qed.
Ltac finish_closed :=
  repeat (apply closing_wp; [solve [resting] | done | let Hc := fresh "Hc" in intros ? ? ? Hc]); cbn [wp]; match goal with H : closed _ |- _ => destruct H; apply truthful_success; [done | by left | done] end.

Lemma unused_rest random_token attempts n : at_rest (unused_token random_token attempts n).
Proof. revert n. induction attempts as [|attempts IH]; intros n; cbn [unused_token]; resting. Qed.
#[local] Hint Resolve unused_rest : at_rest.
Lemma rotate_wp random_token uuid : wp_admin (rotate_client_token env aq random_token uuid) [] [] truthful.
Proof.
  reading. intros h b body _ Hu Hs. cbn [undelivered saved fold_left existsb] in Hu, Hs. do 2 stepping.
  match goal with |- wp _ (match ?x with _ => _ end) _ _ _ => destruct x end; [| by apply truthful_refusal; [list_elem | | chase]].
  apply step_wp; [unfold generateUniqueClientToken; resting | by intros |]. intros h3 b3 [token|] _ Hu3 Hs3; [| apply truthful_failure; rewrite !elem_of_cons, elem_of_nil; lia].
  apply call_wp; [by intros |]. intros [row|] h4 Hh4; logged Hh4; [| by apply truthful_refusal; [list_elem | | chase]].
  do 4 stepping. apply synchronized_one_wp; [chase | chase |]. intros h5 b5 Hd Hs9. finish.
Qed.
Lemma forget_rest (l : list fields) : at_rest (foldr (λ c rest, do! forget_agent (fld c "uuid") in rest) (Ret tt) l).
Proof. induction l; cbn [foldr]; resting. Qed.
#[local] Hint Resolve forget_rest : at_rest.
Lemma batch_hide_wp : wp_admin (batch_hide env aq) [] [] truthful.
Proof.
  apply catch_wp; [by rewrite !elem_of_cons, elem_of_nil; lia |]. reading. intros h b body _ Hu Hs. cbn [undelivered saved fold_left existsb] in Hu, Hs.
  destruct (parseUniqueStringList _ _) as [uuids|error]; [| by apply truthful_refusal; [list_elem | | chase]]. stepping.
  apply call_wp; [by intros |]. intros clients h1 Hh1. logged Hh1. cbv zeta. apply call_wp; [by intros |]. intros changed h2 Hh2. logged Hh2.
  apply synchronized_wp; [chase |]. intros h3 b3 Hp3 Hd Hs9.
  assert (Hc : closed h3); [| clear - Hc; finish_closed].
  split; [done |]. intros Ha. rewrite Hd, Hu2, Hu1, Hu0, Hu, app_nil_r. apply filter_all. intros u (row & -> & Hr)%list_elem_of_fmap.
  apply (asked_clients h1 uuids clients); [by apply (prefix_asked h1 h3); [etrans; [by eexists | exact Hp3] |] | by eexists |].
  apply list_elem_of_In, filter_In in Hr as [Hr _]. by apply list_elem_of_In.
Qed.
Lemma batch_remove_wp : wp_admin (batch_remove env aq) [] [] truthful.
Proof.
  apply catch_wp; [by rewrite !elem_of_cons, elem_of_nil; lia |]. reading. intros h b body _ Hu Hs. cbn [undelivered saved fold_left existsb] in Hu, Hs.
  destruct (parseUniqueStringList _ _) as [uuids|error]; [| by apply truthful_refusal; [list_elem | | chase]]. stepping.
  apply call_wp; [by intros |]. intros clients h1 Hh1. logged Hh1. cbv zeta. apply call_wp; [by intros |]. intros result h2 Hh2. logged Hh2.
  apply synchronized_wp; [chase |]. intros h3 b3 Hp3 Hd Hs9.
  assert (Hc : closed h3); [| clear - Hc; finish_closed].
  split; [done |]. intros Ha. rewrite Hd, Hu2, Hu1, Hu0, Hu, app_nil_r. apply filter_all. intros u (row & -> & Hr)%list_elem_of_fmap.
  apply (asked_clients h1 uuids clients); [by apply (prefix_asked h1 h3); [etrans; [by eexists | exact Hp3] |] | by eexists | done].
Qed.
End Routes.

(** ** The database and the live object behind the calls *)

(** The live object accepts exactly the credentials of the node's row, and none once the
    row is gone. *)
Definition in_step_with_row (sha256 : list Z → list Z) (s : system) (u : jstr) : Prop :=
  ∀ hash, match rows (s_db s) !! u with
          | Some row => isAgentCredentialCurrent u hash (auth (s_live s)) = jeq hash (trim (row_hash sha256 row))
          | None => is_Some (syncs (s_live s) !! u) → isAgentCredentialCurrent u hash (auth (s_live s)) = false
          end.
(** At each step the system of [Outbox] is in some state it can reach, and the queue is
    listed from it. *)
Record outbox_world sha256 date_parse (e : Effects.env admin_call admin_ans admin_state) (sys : nat → system) : Prop := {
  world_reachable i : reachable sha256 date_parse (sys i);
  world_lists i u l r : e_answer e i (Sync (ListPending u l)) = Ok r → r = listPendingClientSyncs sha256 u l (s_db (sys i));
  world_rows i us l : e_answer e i (Db (GetClientsByIds us)) = Ok l → Forall (λ row, row_uuid row ∈ us) l;
}.
Lemma nothing_listed sha256 us l db u : listPendingClientSyncs sha256 (Some us) l db = [] → u ∈ us → queue db !! u = None.
Proof.
  intros H Hu. destruct (queue db !! u) as [r|] eqn:E; [exfalso | done]. apply map_eq_nil in H. unfold pending_rows in H.
  set (sorted := stable_sort _ _) in H. assert (Hin : (u, r) ∈ sorted).
  { unfold sorted. rewrite stable_sort_perm. apply list_elem_of_In, filter_In. split; [by apply list_elem_of_In, elem_of_map_to_list |]. by apply mem_spec. }
  assert (Hz : (0 < Z.to_nat (Z.min (Z.max l 1) 200))%nat) by lia. destruct (Z.to_nat _); [lia |]. destruct sorted; [by apply elem_of_nil in Hin | done].
Qed.
Lemma world_delivered sha256 date_parse e sys i us l u :
  outbox_world sha256 date_parse e sys → e_answer e i (Sync (ListPending (Some us) l)) = Ok [] → u ∈ us → in_step_with_row sha256 (sys i) u.
Proof.
  intros Hw He Hu hash. apply in_step; [by eapply reachable_inv, world_reachable |]. eapply nothing_listed; [| exact Hu].
  symmetry. by apply (world_lists _ _ _ _ Hw).
Qed.
Lemma world_asked {A} sha256 date_parse e sys n s (p : admin A) :
  outbox_world sha256 date_parse e sys → Forall asked_rows (r_log (exec e n s p)).
Proof.
  intros Hw. destruct (exec_log_steps _ _ _ _ e n s p) as (l & -> & _). apply Forall_map, Forall_true. intros [i c]. cbn [compose fst snd asked_rows].
  destruct c as [| |c| | | |]; try done. destruct c; try done. destruct (e_answer _ _ _) eqn:E; [| done]. by eapply world_rows.
Qed.
Lemma nothing_queued_inv ev us : nothing_queued ev = Some us → ∃ l, ev = existT (Sync (ListPending (Some us) l)) (Ok []).
Proof.
  destruct ev as [c x]. destruct c as [|c| | | | |]; try done. destruct c as [[us'|] l| |]; try done. destruct x as [[|]|]; try done.
  cbn. intros [= ->]. by exists l.
Qed.

Definition node_write (r : node_route) : bool :=
  match r with AddClient | EditClient _ | RemoveClient _ | RotateToken _ | BatchHide | BatchRemove => true | _ => false end.
Lemma node_write_wp env aq date_parse random_uuid random_token r :
  node_write r = true → wp_admin (node_handle env aq date_parse random_uuid random_token r) [] [] truthful.
Proof. destruct r; try done; intros _; cbn [node_handle]; auto using add_wp, edit_wp, remove_wp, rotate_wp, batch_hide_wp, batch_remove_wp. Qed.

(** *** Examples *)

Definition sample_env : admin_env := {| ae_bindings := {| LIVE_DATA := true; RATE_LIMIT := false; db_error := None |}; ae_caches := false |}.
Definition sample_admin (body : jsval) : admin_request :=
  {| aq_base := {| rq_authorization := None; rq_ip := Some "8.8.8.8"; rq_length := None; rq_ip_country := None; rq_cf := None;
                   rq_body := Some ([Some (utf8 (json body))], None); rq_format := None |};
     aq_query := []; aq_userId := "admin"; aq_username := "admin"; aq_hostname := "panel.example"; aq_backup_password := None |}.
Definition fresh_admin : admin_state :=
  {| agentState := fresh_state; allowedClientIdsCache := None; adminClientsCache := None; adminPingTasksCache := None;
     adminSettingsScopeCache := []; capacityRowCountCache := None; capacityEstimateCache := None |}.
Definition sample_reply : reply := {| rp_status := 200; rp_json := Some (JObj [("success", JBool true); ("clients", JArr [])]) |}.
(** The database of [Outbox], which answers an edit of [n2]. *)
Definition sample_db_answer (c : db_call) : result jstr (db_ans c) :=
  match c with UpdateClientAndReturn _ _ => Ok (Some (ex_row "secret" "")) | _ => Err "unused" end.
Definition sample_answers (db : database) (n : nat) (c : admin_call) : result jstr (admin_ans c) :=
  match c with
  | Sync (ListPending u l) => Ok (listPendingClientSyncs ex_sha256 u l db)
  | LiveCall _ _ _ => Ok sample_reply
  | Db c => sample_db_answer c
  | EdgeDelete _ => Ok true
  | _ => Err "unused"
  end.
Definition sample_admin_world (db : database) : Effects.env admin_call admin_ans admin_state :=
  Effects.Build_env admin_call admin_ans admin_state (sample_answers db) (λ n, 1700000000000 + Z.of_nat n) (λ _ st, st).
Definition settled_db : database := (retry ex_sha256 sample_dates 1 (ex_db, empty_state)).1.
Definition edit_run := exec (sample_admin_world settled_db) 0 fresh_admin
  (node_handle sample_env (sample_admin (JObj [("name", JStr "renamed")])) sample_dates "" (λ _, "") (EditClient "n2")).

(** C4: what the panel answers to a change of nodes is true.  A success means that the
    change was saved (or that there was none), and that afterwards, while the handler ran,
    there was a moment at which the live object accepted exactly the credentials of every
    node it changed; a refusal (400, 409, 413) means that nothing was saved, and the answer
    that speaks of a committed change (503) that it was. *)
Theorem node_changes_acknowledged sha256 date_parse env aq random_uuid random_token r e n s sys :
  node_write r = true → outbox_world sha256 date_parse e sys →
  let run := exec e n s (node_handle env aq date_parse random_uuid random_token r) in
  match r_value run with
  | Ok answer =>
    (succeeded answer = true →
      (saved (r_log run) = true ∨ without_change answer = true)
      ∧ ∀ before ev after us u, r_log run = before ++ ev :: after → saves ev = Some us → u ∈ us →
        ∃ i j, (i < j)%nat ∧ projT2 ev = e_answer e i (projT1 ev) ∧ in_step_with_row sha256 (sys j) u)
    ∧ (status answer ∈ [400; 409; 413] → saved (r_log run) = false)
    ∧ (status answer = 503 → saved (r_log run) = true)
  | Err _ => True
  end.
Proof.
  intros Hr Hw. cbv zeta. destruct (wp_sound _ _ _ _ _ _ [] [] _ e n s I (λ _ _ _, I) (node_write_wp env aq date_parse random_uuid random_token r Hr)) as [H _].
  set (run := exec e n s _) in *. specialize (H (world_asked _ _ _ _ _ _ _ Hw)). cbn [Datatypes.app] in H. destruct (r_value run) as [answer|]; [| done].
  destruct H as (H1 & H2 & H3). split; [| done]. intros Hs. destruct (H1 Hs) as [Hu Hd]. split; [done |].
  intros before ev after us u Hlog Hev Hin. destruct (delivered_after _ _ _ _ _ _ Hu Hlog Hev Hin) as (mid & ev' & after' & us' & -> & Hq & Hin').
  destruct (exec_log_order _ _ _ _ e n s _ _ _ _ _ _ Hlog) as (i & j & Hij & Hi & Hj). exists i, j. split_and!; [done | done |].
  apply nothing_queued_inv in Hq as (l & ->). by eapply (world_delivered _ _ e sys).
Qed.
Definition edit_answer : response :=
  json_ok (JObj [("success", JBool true); ("changed", JNum (of_Z 1)); ("client", JObj [("name", JStr "node")])]).
Lemma edit_run_answer : r_value edit_run = Ok edit_answer.
Proof. vm_compute. reflexivity. Qed.
Lemma edit_run_log : ∃ ev after, r_log edit_run = ev :: after ∧ saves ev = Some ["n2" : jstr].
Proof.
  assert (H : option_map saves (head (r_log edit_run)) = Some (Some ["n2" : jstr])) by (vm_compute; reflexivity).
  destruct (r_log edit_run) as [|ev after]; [discriminate H |]. exists ev, after. split; [done |]. by injection H.
Qed.
Lemma node_changes_acknowledged_witness :
  ∃ sys, outbox_world ex_sha256 sample_dates (sample_admin_world settled_db) sys
    ∧ r_value edit_run = Ok edit_answer ∧ saved (r_log edit_run) = true ∧ ∃ j, in_step_with_row ex_sha256 (sys j) "n2".
Proof.
  destruct (run_reachable ex_sha256 sample_dates 1 _ ex_start ex_start_reachable (ex_intro _ cron_options eq_refl)) as [ts Hr].
  set (s := {| s_db := _ |}) in Hr. exists (λ _, s).
  assert (Hw : outbox_world ex_sha256 sample_dates (sample_admin_world settled_db) (λ _, s)).
  { split; [done | |].
    - intros i u l r. cbn [e_answer sample_admin_world sample_answers]. intros [= <-]. reflexivity.
    - intros i us l. cbn. discriminate. }
  split; [exact Hw |]. split; [exact edit_run_answer |].
  generalize (node_changes_acknowledged ex_sha256 sample_dates sample_env (sample_admin (JObj [("name", JStr "renamed")])) "" (λ _, "")
    (EditClient "n2") (sample_admin_world settled_db) 0 fresh_admin (λ _, s) eq_refl Hw). cbv zeta. fold edit_run.
  rewrite edit_run_answer. intros [H _]. destruct (H eq_refl) as [[Hs | Hn] Hd]; [| discriminate Hn]. split; [exact Hs |].
  destruct edit_run_log as (ev & after & Hl & He). destruct (Hd [] ev after _ "n2" Hl He) as (i & j & _ & _ & Hj); [list_elem |]. by exists j.
Defined.
