(* ===== verification/ConfigSpec.v ===== *)
(** * What the panel's configuration routes promise

    The settings form: what it shows of secrets, what a form that comes back stores, and
    that it comes back unchanged.  What viewers are told of websites.  Two observations
    on ping tasks and unscoped settings. *)

From S2P Require Import Prelude JsStr JsNum JsVal JsList JsBytes JsJson Net PingTask Settings Report Client LiveAdmin Effects AgentHttp RequestBody AgentSpec.
From S2P Require Import Outbox AdminHttp AdminNodes AdminConfig AdminSettings AdminSpec.
From S2P Require Notify Website Backup.
#[local] Open Scope Z_scope.

(** ** The form of the settings *)

(** What a submitted form means for a setting: nothing, or the value to validate.  A secret
    is kept when the form leaves it blank or sends its preview back, and is emptied when the
    form asks for it. *)
Definition form_value (body : fields) (key : jstr) : option jsval :=
  if mem key (described_keys ++ clear_keys) then None
  else if mem key hidden_notification_keys then
    if mem (key +++ "_clear") clear_keys && clear_asked body (key +++ "_clear") then Some (JStr "")
    else if is_str (fld body key) "" || mem key previewed_keys && Notify.isMaskedSecretPreview (fld body key) then None
    else lookup_field key body
  else lookup_field key body.

Lemma lookup_without {V} keys (fs : list (jstr * V)) k :
  lookup_field k (without keys fs) = if mem k keys then None else lookup_field k fs.
Proof.
  unfold without. revert fs. induction keys as [|key keys IH]; intros fs; cbn [fold_left]; [done |]. rewrite IH, lookup_del_field.
  destruct (mem k (key :: keys)) eqn:E; [apply mem_spec, elem_of_cons in E | apply mem_false in E; rewrite not_elem_of_cons in E].
  - destruct (mem k keys) eqn:E'; [done |]. apply mem_false in E'. destruct E as [-> | E]; [by rewrite decide_True | done].
  - destruct E as [E1 E2]. rewrite decide_False by done. by rewrite (proj2 (mem_false k keys)).
Qed.
(** Steps that look at one member of the form only. *)
Lemma lookup_drop_if (g : jsval → bool) key s k :
  lookup_field k (drop_if (g (fld s key)) key s)
  = if decide (k = key) then if g (default JUndef (lookup_field key s)) then None else lookup_field key s else lookup_field k s.
Proof. unfold drop_if, fld. destruct (g _) eqn:E; [rewrite lookup_del_field |]; case_decide; subst; congruence. Qed.
Lemma lookup_drop_blank key s k :
  lookup_field k (drop_blank key s)
  = if decide (k = key) then if is_str (default JUndef (lookup_field key s)) "" then None else lookup_field key s else lookup_field k s.
Proof. apply (lookup_drop_if (λ v, is_str v "")). Qed.
Lemma drop_blank_here key s : lookup_field key (drop_blank key s) = if is_str (default JUndef (lookup_field key s)) "" then None else lookup_field key s.
Proof. by rewrite lookup_drop_blank, decide_True. Qed.
Lemma drop_blank_other key s k : k ≠ key → lookup_field k (drop_blank key s) = lookup_field k s.
Proof. intros. by rewrite lookup_drop_blank, decide_False. Qed.
Lemma clear_or_keep_here (clear : bool) key s :
  lookup_field key (clear_or_keep clear key s)
  = if clear then Some (JStr "") else if is_str (default JUndef (lookup_field key s)) "" then None else lookup_field key s.
Proof. unfold clear_or_keep. destruct clear; [by rewrite lookup_set_field, decide_True | apply drop_blank_here]. Qed.
Lemma clear_or_keep_other (clear : bool) key s k : k ≠ key → lookup_field k (clear_or_keep clear key s) = lookup_field k s.
Proof. intros. unfold clear_or_keep. destruct clear; [by rewrite lookup_set_field, decide_False | by apply drop_blank_other]. Qed.

Definition masked_dropped (s : fields) : fields :=
  fold_left (λ s key, drop_if (Notify.isMaskedSecretPreview (fld s key)) key s) previewed_keys s.
Lemma lookup_masked_dropped s k :
  lookup_field k (masked_dropped s)
  = if mem k previewed_keys && Notify.isMaskedSecretPreview (fld s k) then None else lookup_field k s.
Proof.
  unfold masked_dropped. assert (H : NoDup previewed_keys) by (apply (bool_decide_eq_true_1 _); vm_compute; reflexivity).
  revert s H. generalize previewed_keys as l. induction l as [|key l IH]; intros s; cbn [fold_left]; [done |].
  intros [Hn Hl]%NoDup_cons. rewrite IH by done.
  pose proof (lookup_drop_if Notify.isMaskedSecretPreview key s) as Hd. set (s' := drop_if _ _ _) in *. clearbody s'. unfold fld. rewrite !Hd.
  destruct (decide (k = key)) as [-> | Hne].
  - rewrite (proj2 (mem_false key l)) by done. rewrite (proj2 (mem_spec key (key :: l))) by list_elem. done.
  - assert (Hm : mem k (key :: l) = mem k l) by (apply bool_decide_ext; rewrite elem_of_cons; naive_solver). by rewrite Hm.
Qed.
(** Evaluate the memberships of literal keys. *)
Ltac eval_mem := repeat match goal with |- context [mem ?a ?l] => let b := eval vm_compute in (mem a l) in change (mem a l) with b end.
Lemma submitted_form body key : lookup_field key (submitted_settings body) = form_value body key.
Proof.
  unfold submitted_settings. cbv zeta. set (s1 := without clear_keys _).
  assert (Hs1 : ∀ k, lookup_field k s1 = if mem k (described_keys ++ clear_keys) then None else lookup_field k body).
  { intros k. unfold s1. rewrite !lookup_without. unfold mem.
    destruct (bool_decide_reflect (k ∈ clear_keys)), (bool_decide_reflect (k ∈ described_keys)), (bool_decide_reflect (k ∈ described_keys ++ clear_keys));
      rewrite elem_of_app in *; naive_solver. }
  assert (Hc : ∀ k, k ∈ clear_keys → clear_asked (without described_keys body) k = clear_asked body k).
  { intros k Hk. unfold clear_asked, fld. rewrite !lookup_without.
    assert (Hm : mem k described_keys = false) by (apply mem_false; intros Hd; unfold clear_keys in Hk; list_cases Hk; revert Hd; apply mem_false; vm_compute; reflexivity).
    by rewrite Hm. }
  clearbody s1. rewrite !Hc by (unfold clear_keys; list_elem). clear Hc.
  fold (masked_dropped s1). set (s2 := masked_dropped s1).
  assert (Hs2 : ∀ k, lookup_field k s2 = if mem k previewed_keys && Notify.isMaskedSecretPreview (fld s1 k) then None else lookup_field k s1)
    by (intros k; apply lookup_masked_dropped).
  clearbody s2.
  destruct (mem key hidden_notification_keys) eqn:Em.
  - apply mem_spec in Em. unfold hidden_notification_keys in Em. list_cases Em.
    all: repeat first [rewrite drop_blank_other by done | rewrite clear_or_keep_other by done];
      rewrite ?drop_blank_here, ?clear_or_keep_here; repeat first [rewrite drop_blank_other by done | rewrite clear_or_keep_other by done].
    all: rewrite Hs2, Hs1; unfold fld; rewrite ?Hs1; unfold form_value, fld; eval_mem; cbn [andb orb].
    all: repeat match goal with |- context [(?a +++ "_clear")] => let b := eval vm_compute in (a +++ "_clear") in change (a +++ "_clear") with b end.
    all: try destruct (clear_asked _ _); try done.
    all: repeat match goal with |- context [lookup_field ?k ?b] => generalize (lookup_field k b); intros o end.
    all: destruct o as [v|]; cbv [from_option id]; rewrite ?orb_false_r; try done; destruct (Notify.isMaskedSecretPreview v); by rewrite ?orb_true_r, ?orb_false_r.
  - assert (Hne : ∀ k, k ∈ hidden_notification_keys → key ≠ k) by (intros k Hk ->; apply mem_false in Em; done).
    repeat first [rewrite drop_blank_other by (apply Hne; unfold hidden_notification_keys; list_elem)
                 | rewrite clear_or_keep_other by (apply Hne; unfold hidden_notification_keys; list_elem)].
    rewrite Hs2, Hs1. unfold form_value. rewrite Em. assert (Hp : mem key previewed_keys = false); [| by rewrite Hp].
    apply mem_false. intros Hk. unfold previewed_keys in Hk. list_cases Hk; eapply Hne; try reflexivity; unfold hidden_notification_keys; list_elem.
Qed.
Lemma submitted_nodup body : NoDup (map fst body) → NoDup (map fst (submitted_settings body)).
Proof.
  assert (Hdel : ∀ k (fs : fields), NoDup (map fst fs) → NoDup (map fst (del_field k fs))).
  { intros k fs H. unfold del_field. induction fs as [|[k' v] fs IH]; [done |]. apply NoDup_cons in H as [H1 H2]. rewrite filter_cons. case_decide; [| by apply IH].
    apply NoDup_cons. split; [| by apply IH]. contradict H1. apply list_elem_of_fmap in H1 as (p & -> & Hp). apply list_elem_of_filter in Hp as [_ Hp].
    apply list_elem_of_fmap. by exists p. }
  assert (Hdrop : ∀ b k (fs : fields), NoDup (map fst fs) → NoDup (map fst (drop_if b k fs))) by (intros []; unfold drop_if; auto).
  assert (Hclear : ∀ b k (fs : fields), NoDup (map fst fs) → NoDup (map fst (clear_or_keep b k fs)))
    by (intros []; unfold clear_or_keep, drop_blank; auto using set_field_nodup).
  assert (Hw : ∀ keys (fs : fields), NoDup (map fst fs) → NoDup (map fst (without keys fs))).
  { intros keys. unfold without. induction keys as [|k keys IH]; intros fs H; cbn [fold_left]; auto. }
  intros H. unfold submitted_settings, drop_blank. cbv zeta. repeat first [apply Hdrop | apply Hclear]. unfold previewed_keys. cbn [fold_left]. auto 20.
Qed.

(** ** Reading the form *)

(** The object a request carries. *)
Definition sent_object (aq : admin_request) : option fields := sent_fields (aq_base aq).
Lemma sent_object_nodup aq body : sent_object aq = Some body → NoDup (map fst body).
Proof. apply sent_fields_nodup. Qed.

Section Reading.
Context (aq : admin_request).
(** A handler that reads an object answers an error, throws, or goes on with the object the
    request carries; no call was made. *)
Lemma reading_object_wp k h b (Q : post admin_call admin_ans admin_task response) :
  (∀ r, status r = 400 ∨ status r = 413 → succeeded r = false → Q h b (Ok r)) → (∀ e, Q h b (Err e)) →
  (∀ body, sent_object aq = Some body → wp_admin (k body) h b Q) → wp_admin (with_body (readAdminJsonObject aq) k) h b Q.
Proof.
  intros Hr He Hk. unfold with_body, readAdminJsonObject, readAdminJsonBody.
  apply wp_bind, wp_bind, read_json_wp; cbn [wp]; [| apply Hr; auto | apply Hr; auto | done].
  intros v Hv. unfold isJsonObjectBody, isRecord. destruct v; cbn [wp]; try (apply Hr; auto). apply Hk. unfold sent_object, sent_fields. by rewrite Hv.
Qed.
End Reading.

(** Steps that call nothing. *)
Abbreviation silent := (obeys (call:=admin_call) (ans:=admin_ans) (state:=admin_state) (task:=admin_task) whatever (λ _, False) whatever).
Lemma silent_wp {A} (p : admin A) h b (Q : post admin_call admin_ans admin_task A) : silent p → (∀ b r, Q h b r) → wp_admin p h b Q.
Proof. intros Hp HQ. eapply obeys_wp; [exact Hp |]. intros l t r Hl _. destruct l; [by rewrite app_nil_r |]. by inversion Hl. Qed.

(** ** What a form stores *)

Definition stores (ev : admin_event) : option (list (jstr * jstr)) := match ev with existT (Db (SetSettings l)) _ => Some l | _ => None end.
Definition was_stored (ev : admin_event) : bool :=
  match ev with
  | existT c x => match c as c return result jstr (admin_ans c) → bool with
                  | Db (SetSettings _) => λ x, match x with Ok _ => true | Err _ => false end
                  | _ => λ _, false
                  end x
  end.
(** The stored settings a call read. *)
Definition settings_read (ev : admin_event) : option (list (jstr * jstr)) :=
  match ev with
  | existT c x => match c as c return result jstr (admin_ans c) → option (list (jstr * jstr)) with
                  | Db (GetSettings _) => λ x, match x with Ok stored => Some stored | Err _ => None end
                  | _ => λ _, None
                  end x
  end.

Section Form.
Context (URL : jstr → option url) (env : admin_env) (aq : admin_request).
Definition accepted (body : fields) (k v : jstr) : Prop :=
  (k ∉ REMOVED_SETTING_KEYS) ∧ ∃ raw, form_value body k = Some raw ∧ normalizeSettingValue URL k raw (aq_hostname aq) = Ok v.
Definition form_valid (body : fields) : Prop :=
  ∀ k raw, form_value body k = Some raw → k ∈ REMOVED_SETTING_KEYS ∨ ∃ v, normalizeSettingValue URL k raw (aq_hostname aq) = Ok v.
(** The settings a form changes, given what is stored. *)
Definition changes (body : fields) (stored : list (jstr * jstr)) (k v : jstr) : Prop :=
  accepted body k v ∧ lookup_field k (buildAdminSettings URL stored) ≠ Some v.
Definition form_outcome : post admin_call admin_ans admin_task response := λ h _ r,
  (∀ ev l, ev ∈ h → stores ev = Some l →
     ∃ body stored, sent_object aq = Some body ∧ form_valid body ∧ (∃ ev', ev' ∈ h ∧ settings_read ev' = Some stored)
       ∧ l ≠ [] ∧ ∀ k v, (k, v) ∈ l ↔ changes body stored k v)
  ∧ ∃ answer, r = Ok answer
    ∧ (succeeded answer = true →
       ∃ body stored, sent_object aq = Some body ∧ form_valid body ∧ (∃ ev, ev ∈ h ∧ settings_read ev = Some stored)
         ∧ ((without_change answer = false ∧ ∃ ev, ev ∈ h ∧ was_stored ev = true)
            ∨ (without_change answer = true ∧ (∀ ev, ev ∈ h → stores ev = None) ∧ ∀ k v, ¬ changes body stored k v)))
    ∧ (status answer ∈ [400; 413] → ∀ ev, ev ∈ h → stores ev = None).

Lemma elem_of_lookup {V} (l : list (jstr * V)) k v : NoDup (map fst l) → ((k, v) ∈ l ↔ lookup_field k l = Some v).
Proof. intros H. split; [by apply lookup_field_NoDup | apply lookup_field_elem]. Qed.
Lemma sanitized_form body :
  sent_object aq = Some body →
  let out := sanitizeSettingsForStorage URL (JObj (submitted_settings body)) true (aq_hostname aq) in
  (∀ k v, (k, v) ∈ sn_settings out ↔ accepted body k v) ∧ (sn_ok out = true ↔ form_valid body).
Proof.
  intros Hb. pose proof (submitted_nodup body (sent_object_nodup _ _ Hb)) as Hnd. cbv zeta.
  destruct (sanitizeSettingsForStorage_spec URL (submitted_settings body) (aq_hostname aq) Hnd) as (H1 & _ & _ & H4). split.
  - intros k v. rewrite elem_of_lookup by (apply sanitize_loop_nodup; constructor). rewrite H1. unfold accepted.
    setoid_rewrite (elem_of_lookup _ _ _ Hnd). by setoid_rewrite submitted_form.
  - rewrite H4. unfold form_valid. setoid_rewrite (elem_of_lookup _ _ _ Hnd). by setoid_rewrite submitted_form.
Qed.
Lemma changed_settings_spec current normalized k v :
  (k, v) ∈ changed_settings current normalized ↔ (k, v) ∈ normalized ∧ lookup_field k current ≠ Some v.
Proof.
  unfold changed_settings. rewrite !list_elem_of_In, filter_In. cbn [fst snd].
  assert (H : negb (match lookup_field k current with Some w => jeq w v | None => false end) = true ↔ lookup_field k current ≠ Some v).
  { rewrite negb_true_iff. destruct (lookup_field k current) as [w|]; [| done]. rewrite jeq_false. split; [by intros ? [= ->] | by intros ? ->]. }
  by rewrite H.
Qed.
Lemma written_silent keys : silent (settings_written env aq keys).
Proof.
  unfold settings_written, invalidateCapacityEstimateCache, invalidateAdminPublicMetadata, updated, on_agent, spawn, audit_later.
  cbv zeta. repeat first [exact I | progress intros | apply obeys_bind | match goal with |- obeys _ _ _ (if ?b then _ else _) => destruct b end | by split].
Qed.
(** An answer that says nothing was done, when nothing was. *)
Lemma form_refused h b r : (∀ ev, ev ∈ h → stores ev = None) → succeeded r = false → form_outcome h b (Ok r).
Proof.
  intros Hn Hs. split; [intros ev l Hev; by rewrite Hn |]. exists r. split_and!; [done | by rewrite Hs | done].
Qed.
Lemma form_failed h b : (∀ ev, ev ∈ h → stores ev = None) → form_outcome h b (Ok (json_error 500 "保存失败")).
Proof. intros Hn. by apply form_refused. Qed.
Lemma save_settings_wp : wp_admin (save_settings URL env aq) [] [] form_outcome.
Proof.
  unfold save_settings. apply wp_catch, reading_object_wp; [intros r _ Hr; by apply form_refused; [intros ev ?%elem_of_nil |] | intros e; apply form_failed; by intros ev ?%elem_of_nil |].
  intros body Hb. destruct (sanitized_form body Hb) as [Hacc Hok]. unfold need_database. apply wp_bind.
  destruct (db_error _); [apply form_failed; by intros ev ?%elem_of_nil |]. cbn [wp]. set (out := sanitizeSettingsForStorage _ _ _ _) in *.
  destruct (sn_ok out); [| apply form_refused; [by intros ev ?%elem_of_nil | done]]. destruct Hok as [Hok _]. specialize (Hok eq_refl). cbn [negb].
  apply wp_bind, wp_act; [| intros e; apply form_failed; by intros ev ->%list_elem_of_singleton].
  intros stored. cbn [wp Datatypes.app]. set (l := changed_settings _ _).
  assert (Hl : ∀ k v, (k, v) ∈ l ↔ changes body stored k v) by (intros k v; unfold l; by rewrite changed_settings_spec, Hacc).
  clearbody l. set (ev1 := existT _ _ : admin_event).
  assert (Hread : ∀ h : list admin_event, ev1 ∈ h → ∃ ev, ev ∈ h ∧ settings_read ev = Some stored) by (intros h Hh; by exists ev1).
  destruct (length l =? 0)%nat eqn:El.
  - apply Nat.eqb_eq, nil_length_inv in El as ->. split; [by intros ev l ->%list_elem_of_singleton |]. eexists. split; [done |].
    split; [| intros _ ev ->%list_elem_of_singleton; done].
    intros _. exists body, stored. split_and!; [done | done | apply Hread; list_elem |]. right. split_and!; [done | by intros ev ->%list_elem_of_singleton |].
    intros k v Hc%Hl. by apply not_elem_of_nil in Hc.
  - assert (Hne : l ≠ []) by (by intros ->). apply wp_bind.
    assert (Hstores : ∀ x ev l', ev ∈ ([ev1; existT (Db (SetSettings l) : admin_call) x] : list admin_event) → stores ev = Some l' →
      ∃ body stored, sent_object aq = Some body ∧ form_valid body
        ∧ (∃ ev', ev' ∈ ([ev1; existT (Db (SetSettings l) : admin_call) x] : list admin_event) ∧ settings_read ev' = Some stored)
        ∧ l' ≠ [] ∧ ∀ k v, (k, v) ∈ l' ↔ changes body stored k v).
    { intros x ev l' Hev Hs. exists body, stored. list_cases Hev; [discriminate Hs | injection Hs as <-].
      split; [done |]. split; [done |]. split; [apply Hread; list_elem |]. by split. }
    assert (Hfail : ∀ x b, form_outcome [ev1; existT (Db (SetSettings l) : admin_call) x] b (Ok (json_error 500 "保存失败"))).
    { intros x b. split; [apply Hstores |]. eexists. split; [done |]. split; [done |]. cbn. rewrite !elem_of_cons, elem_of_nil. lia. }
    apply wp_act; cbn [wp Datatypes.app]; [intros [] | intros e; apply Hfail].
    apply wp_bind, silent_wp; [by intros s _ | intros b' [_|e]; [| apply Hfail]].
    apply wp_bind, silent_wp; [apply written_silent | intros b'' [_|e]; [| apply Hfail]]. cbn [wp].
    split; [apply Hstores |]. eexists. split; [done |]. split; [| cbn; rewrite !elem_of_cons, elem_of_nil; lia].
    intros _. exists body, stored. split_and!; [done | done | apply Hread; list_elem |]. left. split; [done |].
    exists (existT (Db (SetSettings l) : admin_call) (Ok tt)). split; [list_elem | done].
Qed.
End Form.

(** ** A form that comes back as it was shown *)

Lemma lookup_text_fields k l : lookup_field k (text_fields l) = JStr <$> lookup_field k l.
Proof. induction l as [|[k' v] l IH]; [done |]. cbn [text_fields map lookup_field fst snd]. by case_decide. Qed.
Lemma lookup_keyed {V} (f : jstr → V) k keys : lookup_field k (map (λ key, (key, f key)) keys) = if mem k keys then Some (f k) else None.
Proof.
  induction keys as [|key keys IH]; [done |]. cbn [map lookup_field]. destruct (decide (k = key)) as [-> | Hne].
  - by rewrite (proj2 (mem_spec key (key :: keys))) by list_elem.
  - rewrite IH. assert (Hm : mem k (key :: keys) = mem k keys); [| by rewrite Hm]. apply bool_decide_ext. rewrite elem_of_cons. naive_solver.
Qed.
(** What the table of scopes promises: its keys are settings that are not removed, and no
    member that describes or clears a secret. *)
Definition scope_ok (p : jstr * list jstr) : bool :=
  forallb (λ k, isKnownSettingKey k && negb (mem k REMOVED_SETTING_KEYS) && negb (mem k (described_keys ++ clear_keys))) p.2.
Lemma SETTINGS_SCOPE_ok : forallb scope_ok SETTINGS_SCOPE_KEYS = true.
Proof. vm_compute. reflexivity. Qed.
Lemma scope_key scope keys k :
  (scope, keys) ∈ SETTINGS_SCOPE_KEYS → k ∈ keys →
  (∃ d, lookup_field k SETTING_SCHEMA = Some d) ∧ mem k REMOVED_SETTING_KEYS = false ∧ mem k (described_keys ++ clear_keys) = false.
Proof.
  intros Hs Hk. pose proof SETTINGS_SCOPE_ok as H. rewrite forallb_true in H. specialize (H _ Hs). unfold scope_ok in H. rewrite forallb_true in H.
  specialize (H k Hk). cbv beta in H. apply andb_true_iff in H as [[H1 H2]%andb_true_iff H3]. apply negb_true_iff in H2, H3. split_and!; [| done | done].
  unfold isKnownSettingKey in H1. apply mem_spec in H1. apply list_elem_of_fmap in H1 as ([k' d] & -> & Hd). exists d.
  apply lookup_field_NoDup; [apply SETTING_KEYS_NoDup | done].
Qed.
Lemma scope_hides scope keys k : (scope, keys) ∈ SETTINGS_SCOPE_KEYS → k ∈ keys → jeq scope "notification" = false → k ∉ hidden_notification_keys.
Proof.
  assert (H : forallb (λ p, jeq p.1 "notification" || forallb (λ k, negb (mem k hidden_notification_keys)) p.2) SETTINGS_SCOPE_KEYS = true) by (vm_compute; reflexivity).
  intros Hs Hk He. rewrite forallb_true in H. specialize (H _ Hs). cbn [fst snd] in H. rewrite He in H. cbn [orb] in H. rewrite forallb_true in H. apply mem_false.
  apply negb_true_iff, (H k Hk).
Qed.
Definition described (settings : list (jstr * jstr)) (URL : jstr → option url) : list (jstr * jstr) :=
  let given key := if nonempty (setting settings key) then "true" else "false" in
  let preview key := Notify.maskSecretPreview (Some (setting settings key)) in
  [("email_smtp_password_set" : jstr, given "email_smtp_password"); ("webhook_url_set" : jstr, given "webhook_url");
   ("webhook_secret_set" : jstr, given "webhook_secret"); ("webhook_headers_set" : jstr, given "webhook_headers_json");
   ("webhook_password_set" : jstr, given "webhook_password"); ("telegram_bot_token_set" : jstr, given "telegram_bot_token");
   ("telegram_chat_id_set" : jstr, given "telegram_chat_id"); ("webhook_url_host" : jstr, webhookUrlHost URL (setting settings "webhook_url"));
   ("telegram_bot_token_preview" : jstr, preview "telegram_bot_token"); ("telegram_chat_id_preview" : jstr, preview "telegram_chat_id");
   ("email_smtp_password_preview" : jstr, preview "email_smtp_password"); ("webhook_secret_preview" : jstr, preview "webhook_secret");
   ("webhook_password_preview" : jstr, preview "webhook_password")].

Section Shown.
Context (URL : jstr → option url).
Lemma described_names settings k : mem k described_keys = false → lookup_field k (described settings URL) = None.
Proof.
  intros Hk. destruct (lookup_field k _) as [v|] eqn:E; [| done]. apply lookup_field_elem in E.
  assert (H : map fst (described settings URL) ⊆ described_keys); [| apply mem_false in Hk; exfalso; apply Hk, H; apply list_elem_of_fmap; by exists (k, v)].
  assert (H : Forall (λ x, x ∈ described_keys) (map fst (described settings URL)));
    [change (Forall (λ x, x ∈ described_keys) (["email_smtp_password_set"; "webhook_url_set"; "webhook_secret_set"; "webhook_headers_set";
       "webhook_password_set"; "telegram_bot_token_set"; "telegram_chat_id_set"; "webhook_url_host"; "telegram_bot_token_preview";
       "telegram_chat_id_preview"; "email_smtp_password_preview"; "webhook_secret_preview"; "webhook_password_preview"] : list jstr));
     apply (bool_decide_eq_true_1 _); vm_compute; reflexivity |].
  intros x Hx. by apply (proj1 (Forall_forall _ _) H).
Qed.
(** The member of a form with the name [k]. *)
Lemma lookup_scoped scope keys stored k :
  mem k described_keys = false →
  lookup_field k (scoped_settings URL scope keys stored)
  = if jeq scope "notification" && mem k hidden_notification_keys then None
    else if mem k keys then Some (setting (buildAdminSettings URL stored) k) else None.
Proof.
  intros Hd. unfold scoped_settings. cbv zeta. set (settings := buildAdminSettings URL stored). destruct (jeq scope "notification"); cbn [andb].
  - unfold notification_form. cbv zeta. fold (described settings URL). rewrite lookup_without. destruct (mem k hidden_notification_keys); [done |].
    rewrite lookup_spread by (apply (bool_decide_eq_true_1 _); vm_compute; reflexivity). rewrite (described_names settings k Hd). apply lookup_keyed.
  - apply lookup_keyed.
Qed.

Context (self : jstr).
(** A default text is accepted as it is. *)
Lemma defaults_reread :
  forallb (λ p, mem p.1 URL_KEYS || match normalizeSettingValue URL p.1 (JStr (defaultValue p.2)) self with Ok v => jeq v (defaultValue p.2) | Err _ => false end)
    SETTING_SCHEMA = true.
Proof. vm_compute. reflexivity. Qed.
Lemma admin_value_reread stored k d :
  lookup_field k SETTING_SCHEMA = Some d → k ∉ URL_KEYS →
  normalizeSettingValue URL k (JStr (admin_value URL stored k d)) self = Ok (admin_value URL stored k d).
Proof.
  intros Hd Hk. unfold admin_value. destruct (normalizeSettingValue URL k _ "") as [v|e] eqn:E; [by eapply normalizeSettingValue_idempotent |].
  pose proof defaults_reread as H. rewrite forallb_true in H. specialize (H (k, d) (lookup_field_elem _ _ _ Hd)).
  cbn [fst snd] in H. rewrite (proj2 (mem_false k URL_KEYS)) in H by done. cbn [orb] in H.
  destruct (normalizeSettingValue URL k (JStr (defaultValue d)) self) as [v|e']; [| done]. apply jeq_true in H. by rewrite H.
Qed.
Lemma admin_lookup stored k d : lookup_field k SETTING_SCHEMA = Some d → lookup_field k (buildAdminSettings URL stored) = Some (admin_value URL stored k d).
Proof. intros Hd. unfold buildAdminSettings. by rewrite (lookup_field_map (admin_value URL stored)), Hd. Qed.
(** The settings of a scope, as the parser of URLs reads those it sees again. *)
Definition urls_reread (keys : list jstr) (stored : list (jstr * jstr)) : Prop :=
  ∀ k, k ∈ keys → k ∈ URL_KEYS → (k ∉ hidden_notification_keys) →
  let v := setting (buildAdminSettings URL stored) k in normalizeSettingValue URL k (JStr v) self = Ok v.
Lemma form_shown scope keys stored k raw :
  (scope, keys) ∈ SETTINGS_SCOPE_KEYS → form_value (text_fields (scoped_settings URL scope keys stored)) k = Some raw →
  k ∈ keys ∧ raw = JStr (setting (buildAdminSettings URL stored) k) ∧ (jeq scope "notification" = true → k ∉ hidden_notification_keys).
Proof.
  intros Hs. unfold form_value. destruct (mem k (described_keys ++ clear_keys)) eqn:Em; [done |].
  assert (Hd : ∀ k, mem k (described_keys ++ clear_keys) = false → mem k described_keys = false).
  { intros k' H. apply mem_false in H. apply mem_false. intros Hin. apply H, elem_of_app. by left. }
  assert (Hclear : mem (k +++ "_clear") clear_keys = true → clear_asked (text_fields (scoped_settings URL scope keys stored)) (k +++ "_clear") = false).
  { intros Hc%mem_spec. unfold clear_asked, fld. rewrite lookup_text_fields, lookup_scoped.
    - assert (Hk : mem (k +++ "_clear") keys = false).
      { apply mem_false. intros Hk. destruct (scope_key _ _ _ Hs Hk) as (_ & _ & H). apply mem_false in H. apply H, elem_of_app. by right. }
      rewrite Hk. by destruct (_ && _).
    - revert Hc. generalize (k +++ "_clear"). intros c Hc. unfold clear_keys in Hc. list_cases Hc; vm_compute; reflexivity. }
  rewrite lookup_text_fields, lookup_scoped by auto. intros H.
  assert (Hend : JStr <$> (if jeq scope "notification" && mem k hidden_notification_keys then None
                           else if mem k keys then Some (setting (buildAdminSettings URL stored) k) else None) = Some raw →
    k ∈ keys ∧ raw = JStr (setting (buildAdminSettings URL stored) k) ∧ (jeq scope "notification" = true → k ∉ hidden_notification_keys)).
  { destruct (jeq scope "notification"), (mem k hidden_notification_keys) eqn:Eh, (mem k keys) eqn:Ek; cbn [andb]; try done; intros [= <-];
      apply mem_spec in Ek; try apply mem_false in Eh; done. }
  destruct (mem k hidden_notification_keys) eqn:Eh; [| by apply Hend].
  destruct (mem (k +++ "_clear") clear_keys) eqn:Ec; [rewrite Hclear in H by done |]; cbn [andb] in H;
    (destruct (_ || _) in H; [done | by apply Hend]).
Qed.
End Shown.

(** ** Properties of the form *)

(** C18: what a settings form stores.  In every run, a call that stores settings stores
    exactly the changes of the form that was sent: the settings whose member the form means
    (a preview, a blank secret or a description is none), with their normalized value, where
    it differs from what was stored, and never an empty list; all members were valid.  An
    answer of success means that all of them were valid and that the changes were stored, or
    that there were none; a refusal (400, 413) means nothing was stored.  The handler always
    answers. *)
Theorem settings_form_stored URL env aq e n s :
  let run := exec e n s (save_settings URL env aq) in
  (∀ ev l, ev ∈ r_log run → stores ev = Some l →
     ∃ body stored, sent_object aq = Some body ∧ form_valid URL aq body ∧ (∃ ev', ev' ∈ r_log run ∧ settings_read ev' = Some stored)
       ∧ l ≠ [] ∧ ∀ k v, (k, v) ∈ l ↔ changes URL aq body stored k v)
  ∧ ∃ answer, r_value run = Ok answer
    ∧ (succeeded answer = true →
       ∃ body stored, sent_object aq = Some body ∧ form_valid URL aq body ∧ (∃ ev, ev ∈ r_log run ∧ settings_read ev = Some stored)
         ∧ ((without_change answer = false ∧ ∃ ev, ev ∈ r_log run ∧ was_stored ev = true)
            ∨ (without_change answer = true ∧ (∀ ev, ev ∈ r_log run → stores ev = None) ∧ ∀ k v, ¬ changes URL aq body stored k v)))
    ∧ (status answer ∈ [400; 413] → ∀ ev, ev ∈ r_log run → stores ev = None).
Proof.
  cbv zeta. destruct (wp_sound _ _ _ _ _ _ [] [] _ e n s I (λ _ _ _, I) (save_settings_wp URL env aq)) as [H _]. exact H.
Qed.

(** C32: a form that comes back as it was shown changes nothing.  Whatever is stored, the
    settings of a scope that the panel was shown, sent back as they are, are valid and store
    nothing, secrets included, as long as those settings are still stored; an answer of
    success then says that nothing changed.  The settings that are URLs or host names, the
    webhook's excepted, are assumed to be read by the parser as they were shown. *)
Theorem settings_form_round_trip URL env aq scope keys stored e n s :
  (scope, keys) ∈ SETTINGS_SCOPE_KEYS → urls_reread URL (aq_hostname aq) keys stored →
  sent_object aq = Some (text_fields (scoped_settings URL scope keys stored)) →
  let run := exec e n s (save_settings URL env aq) in
  (∀ ev stored', ev ∈ r_log run → settings_read ev = Some stored' → ∀ k, k ∈ keys → lookup_field k stored' = lookup_field k stored) →
  form_valid URL aq (text_fields (scoped_settings URL scope keys stored))
  ∧ (∀ ev, ev ∈ r_log run → stores ev = None)
  ∧ ∃ answer, r_value run = Ok answer ∧ (succeeded answer = true → without_change answer = true).
Proof.
  intros Hs Hurl Hb. cbv zeta. set (body := text_fields _) in *. intros Hsame.
  assert (Hshown : ∀ k raw, form_value body k = Some raw → ∃ d, lookup_field k SETTING_SCHEMA = Some d ∧ k ∈ keys ∧ mem k REMOVED_SETTING_KEYS = false
    ∧ raw = JStr (admin_value URL stored k d) ∧ normalizeSettingValue URL k raw (aq_hostname aq) = Ok (admin_value URL stored k d)).
  { intros k raw (Hk & -> & Hn)%form_shown; [| done]. destruct (scope_key _ _ _ Hs Hk) as ((d & Hd) & Hr & _). exists d.
    assert (He : setting (buildAdminSettings URL stored) k = admin_value URL stored k d) by (unfold setting; by rewrite (admin_lookup URL stored k d Hd)).
    split_and!; [done | done | done | by rewrite He |]. destruct (decide (k ∈ URL_KEYS)) as [Hu | Hu].
    - rewrite <- He. apply Hurl; [done | done |]. destruct (jeq scope "notification") eqn:E; [by apply Hn | by eapply scope_hides].
    - rewrite He. by apply admin_value_reread. }
  assert (Hnone : ∀ stored', (∀ k, k ∈ keys → lookup_field k stored' = lookup_field k stored) → ∀ k v, ¬ changes URL aq body stored' k v).
  { intros stored' Hst k v [(_ & raw & Hf & Hv) Hne]. destruct (Hshown k raw Hf) as (d & Hd & Hk & _ & _ & Hn). rewrite Hn in Hv. injection Hv as <-.
    apply Hne. rewrite (admin_lookup URL stored' k d Hd). unfold admin_value. by rewrite Hst. }
  destruct (wp_sound _ _ _ _ _ _ [] [] _ e n s I (λ _ _ _, I) (save_settings_wp URL env aq)) as [(Hall & answer & Ha & Hok & _) _].
  cbn [Datatypes.app] in Hall, Ha, Hok. set (run := exec e n s _) in *. split_and!.
  - intros k raw Hf. destruct (Hshown k raw Hf) as (d & _ & _ & _ & _ & Hn). right. by exists (admin_value URL stored k d).
  - intros ev Hev. destruct (stores ev) as [l|] eqn:El; [exfalso | done]. destruct (Hall ev l Hev El) as (body' & stored' & Hb' & _ & (ev' & Hev' & Hr) & Hl & Hc).
    rewrite Hb in Hb'. injection Hb' as <-. destruct l as [|[k v] l]; [done |]. apply (Hnone stored' (Hsame _ _ Hev' Hr) k v), Hc. left.
  - exists answer. split; [done |]. intros Hsuc. destruct (Hok Hsuc) as (body' & stored' & Hb' & _ & _ & [[_ (ev & Hev & Hw)] | [H _]]); [exfalso | done].
    assert (El : ∃ l, stores ev = Some l) by (destruct ev as [c x]; destruct c as [| |[]| | | |]; try done; by eexists).
    destruct El as [l El]. destruct (Hall ev l Hev El) as (body2 & stored2 & Hb2 & _ & (ev' & Hev' & Hr) & Hl & Hc).
    rewrite Hb in Hb2. injection Hb2 as <-. destruct l as [|[k v] l]; [done |]. apply (Hnone stored2 (Hsame _ _ Hev' Hr) k v), Hc. left.
Qed.

(** ** What a form shows of the secrets *)

Lemma del_set_field {V} k k' (v : V) fs :
  del_field k' (set_field k v fs) = if decide (k = k') then del_field k' fs else set_field k v (del_field k' fs).
Proof.
  unfold del_field. induction fs as [|[k0 v0] fs IH]; cbn [set_field].
  - rewrite filter_cons. cbn [fst]. repeat case_decide; subst; try done; naive_solver.
  - destruct (decide (k = k0)) as [<- | Hne]; rewrite !filter_cons; cbn [fst].
    + destruct (decide (k = k')) as [<- | Hk]; [by rewrite !decide_False by naive_solver |].
      rewrite !(decide_True (P := k ≠ k')) by done. cbn [set_field]. by rewrite decide_True.
    + rewrite IH. destruct (decide (k0 ≠ k')) as [H0 | H0]; destruct (decide (k = k')) as [-> | Hk]; try done.
      cbn [set_field]. by rewrite decide_False.
Qed.
Lemma without_set_field {V} keys k (v : V) fs :
  without keys (set_field k v fs) = if mem k keys then without keys fs else set_field k v (without keys fs).
Proof.
  unfold without. revert fs. induction keys as [|key keys IH]; intros fs; [done |]. cbn [fold_left]. rewrite del_set_field.
  destruct (decide (k = key)) as [-> | Hne].
  - by rewrite (proj2 (mem_spec key (key :: keys))) by list_elem.
  - rewrite IH. assert (Hm : mem k (key :: keys) = mem k keys) by (apply bool_decide_ext; rewrite elem_of_cons; naive_solver). by rewrite Hm.
Qed.
Lemma without_spread {V} keys (a a' b : list (jstr * V)) : without keys a = without keys a' → without keys (spread a b) = without keys (spread a' b).
Proof.
  unfold spread. revert a a'. induction b as [|[k v] b IH]; intros a a' H; [done |]. cbn [fold_left fst snd]. apply IH.
  rewrite !without_set_field. destruct (mem k keys); [done | by rewrite H].
Qed.
Lemma without_keyed {V} (f g : jstr → V) hidden keys :
  (∀ k, k ∉ hidden → f k = g k) → without hidden (map (λ k, (k, f k)) keys) = without hidden (map (λ k, (k, g k)) keys).
Proof.
  intros Hfg. assert (H : ∀ l : list (jstr * V), without hidden l = List.filter (λ p, negb (mem p.1 hidden)) l).
  { unfold without. clear Hfg. induction hidden as [|h hidden IH]; intros l; cbn [fold_left].
    - induction l as [|p l IHl]; [done |]. cbn [List.filter]. rewrite <- IHl. done.
    - rewrite IH. unfold del_field. induction l as [|p l IHl]; [done |]. rewrite filter_cons. cbn [List.filter].
      assert (Hm : mem p.1 (h :: hidden) = if decide (p.1 ≠ h) then mem p.1 hidden else true).
      { unfold mem. destruct (decide (p.1 ≠ h)) as [Hne | He]; [apply bool_decide_ext; rewrite elem_of_cons; naive_solver |].
        apply bool_decide_eq_true_2, elem_of_cons. left. by apply dec_stable. }
      rewrite Hm. destruct (decide (p.1 ≠ h)); cbn [negb List.filter]; by rewrite IHl. }
  rewrite !H. induction keys as [|k keys IH]; [done |]. cbn [map List.filter fst]. rewrite IH.
  destruct (mem k hidden) eqn:E; [done |]. apply mem_false in E. cbn [negb]. by rewrite Hfg.
Qed.
(** Settings that differ in their secrets only, and not in what is shown of them: whether
    there is one, its preview, the host of the webhook. *)
Record alike (URL : jstr → option url) (s1 s2 : list (jstr * jstr)) : Prop := {
  alike_shown k : k ∉ hidden_notification_keys → setting s1 k = setting s2 k;
  alike_given k : k ∈ hidden_notification_keys → nonempty (setting s1 k) = nonempty (setting s2 k);
  alike_preview k : k ∈ previewed_keys → Notify.maskSecretPreview (Some (setting s1 k)) = Notify.maskSecretPreview (Some (setting s2 k));
  alike_host : webhookUrlHost URL (setting s1 "webhook_url") = webhookUrlHost URL (setting s2 "webhook_url");
}.
Lemma form_alike URL keys stored1 stored2 :
  alike URL (buildAdminSettings URL stored1) (buildAdminSettings URL stored2) →
  scoped_settings URL "notification" keys stored1 = scoped_settings URL "notification" keys stored2.
Proof.
  intros [H1 H2 H3 H4]. unfold scoped_settings. rewrite jeq_refl. unfold notification_form. cbv zeta.
  rewrite !H2 by (unfold hidden_notification_keys; list_elem). rewrite !H3 by (unfold previewed_keys; list_elem). rewrite H4.
  apply without_spread, without_keyed, H1.
Qed.

(** What the notification form shows of the secrets.  The answer to a request for it is
    the same for any two databases whose settings agree on everything but the tokens,
    passwords, addresses and headers of the channels, and for these on whether they are set,
    on the preview (at most the first and the last four characters) and on the webhook's
    host; and no member of it has the name of one of them. *)
Theorem notification_form_conceals URL env aq e1 e2 n s1 s2 keys :
  query aq "scope" = Some ("notification" : jstr) → ("notification" : jstr, keys) ∈ SETTINGS_SCOPE_KEYS →
  match e_answer e1 n (Db (GetSettings keys) : admin_call), e_answer e2 n (Db (GetSettings keys) : admin_call) with
  | Ok stored1, Ok stored2 => alike URL (buildAdminSettings URL stored1) (buildAdminSettings URL stored2)
  | Err x, Err y => x = y
  | _, _ => False
  end →
  let run1 := exec e1 n s1 (get_settings URL env aq) in
  r_value run1 = r_value (exec e2 n s2 (get_settings URL env aq))
  ∧ match r_value run1 with
    | Ok answer => ∀ k, k ∈ hidden_notification_keys → fld (as_object (content answer)) k = JUndef
    | Err _ => True
    end.
Proof.
  intros Hq Hk. assert (Hl : lookup_field ("notification" : jstr) SETTINGS_SCOPE_KEYS = Some keys).
  { apply lookup_field_NoDup; [| done]. apply (bool_decide_eq_true_1 _). vm_compute. reflexivity. }
  intros Ha. cbv zeta. unfold get_settings, need_database. destruct (db_error _); [done |]. rewrite Hq, Hl.
  cbn [bind exec call_db act]. change (nonempty "notification") with true. change (jeq "notification" "notification") with true.
  cbn [negb orb bind exec].
  destruct (e_answer e1 n _) as [stored1|x1], (e_answer e2 n _) as [stored2|x2]; try done; cbn [exec bind r_value add_event stop]; [| by subst].
  rewrite (form_alike _ _ _ _ Ha). split; [done |]. intros k Hin. cbn [content json_ok as_object]. unfold fld.
  rewrite lookup_text_fields, lookup_scoped.
  - rewrite jeq_refl. by rewrite (proj2 (mem_spec k hidden_notification_keys)).
  - unfold hidden_notification_keys in Hin. list_cases Hin; vm_compute; reflexivity.
Qed.

(** ** What viewers are told of websites *)

Inductive website_route :=
| AddWebsite | EditWebsite | WebsiteVisibility | WebsiteEnabled | ReorderWebsites | DeleteWebsite | CheckWebsite (id : jstr).
Definition website_handle (URL : jstr → option url) (env : admin_env) (aq : admin_request) (r : website_route) : admin response :=
  match r with
  | AddWebsite => add_website URL env aq | EditWebsite => edit_website URL env aq | WebsiteVisibility => website_visibility env aq
  | WebsiteEnabled => website_enabled env aq | ReorderWebsites => reorder_websites env aq | DeleteWebsite => delete_website env aq
  | CheckWebsite id => check_website env aq id
  end.
(** A call that changed website monitors. *)
Definition website_saved (ev : admin_event) : bool :=
  match ev with
  | existT c x =>
    match c as c return result jstr (admin_ans c) → bool with
    | Db (CreateWebsiteMonitor _) => λ x, match x with Ok _ => true | _ => false end
    | Db (UpdateWebsiteMonitorAndReturn _ _) => λ x, match x with Ok (Some _) => true | _ => false end
    | Db (SetWebsiteMonitorVisibility _ _) => λ x, match x with Ok _ => true | _ => false end
    | Db (SetWebsiteMonitorEnabled _ _) => λ x, match x with Ok _ => true | _ => false end
    | Db (ReorderWebsiteMonitors _) => λ x, match x with Ok _ => true | _ => false end
    | Db (DeleteWebsiteMonitor _) => λ x, match x with Ok _ => true | _ => false end
    | Db (RecordWebsiteCheck _) => λ x, match x with Ok _ => true | _ => false end
    | _ => λ _, false
    end x
  end.
(** The monitor a call answered. *)
Definition website_row (ev : admin_event) : option fields :=
  match ev with
  | existT c x =>
    match c as c return result jstr (admin_ans c) → option fields with
    | Db (CreateWebsiteMonitor _) => λ x, match x with Ok row => Some row | _ => None end
    | Db (UpdateWebsiteMonitorAndReturn _ _) => λ x, match x with Ok row => row | _ => None end
    | Db (GetWebsiteMonitor _) => λ x, match x with Ok row => row | _ => None end
    | Db (RecordWebsiteCheck _) => λ x, match x with Ok row => row | _ => None end
    | _ => λ _, None
    end x
  end.
Definition upserted (d : website_detail) : list jsval := match d with Detail (Some l) _ _ => l | _ => [] end.
(** The tasks that announce a change. *)
Definition announcements (user action text : jstr) (d : website_detail) : list admin_task :=
  [PurgePublicMetadata; AdminHttp.Broadcast [("websites", detail_json d); ("audience", JStr "admin")];
   AdminHttp.Broadcast [("websites", detail_json (publicWebsiteMetadataDetail d)); ("audience", JStr "public")]; RefreshAgentPolicy;
   Audit user action text "info"].
(** What the public may see of a monitor. *)
Definition public_monitor (m : jsval) : Prop := flagged "hidden" m = false ∧ (flagged "hide_url" m = true → fld (as_object m) "url" = JNull).
Lemma public_detail_safe d : Forall public_monitor (upserted (publicWebsiteMetadataDetail d)).
Proof.
  destruct d as [|[l|] remove reorder]; cbn [publicWebsiteMetadataDetail upserted]; try constructor. apply Forall_forall. intros m Hm.
  apply list_elem_of_In, in_map_iff in Hm as (item & <- & Hi). apply filter_In in Hi as [_ Hh]. apply negb_true_iff in Hh.
  destruct (flagged "hide_url" item) eqn:Eu; [| by split; [| rewrite Eu]]. destruct item as [| | | | | |fs]; try discriminate Eu. cbn [as_object flagged] in *. split.
  - cbn [flagged]. by rewrite fld_set_field, decide_False.
  - intros _. cbn [as_object]. by rewrite fld_set_field, decide_True.
Qed.

Section Websites.
Context (URL : jstr → option url) (env : admin_env) (aq : admin_request).
Definition announced : post admin_call admin_ans admin_task response := λ h b r,
  ∃ answer, r = Ok answer
  ∧ if succeeded answer
    then (∃ ev, ev ∈ h ∧ website_saved ev = true)
         ∧ ∃ action text d, b = announcements (aq_username aq) action text d
             ∧ Forall (λ m, ∃ ev row, ev ∈ h ∧ website_row ev = Some row ∧ m = JObj row) (upserted d)
    else b = [].
Lemma announced_error h r : succeeded r = false → announced h [] (Ok r).
Proof. intros H. exists r. by rewrite H. Qed.
Lemma guarded_wp code error p h :
  wp_admin p h [] (λ h b r, match r with Ok a => announced h b (Ok a) | Err _ => b = [] end) → wp_admin (guarded code error p) h [] announced.
Proof.
  intros Hp. apply wp_catch. eapply wp_mono; [| exact Hp]. intros h' b [a|e]; [done |]. intros ->. apply announced_error.
  unfold succeeded, json_error. cbn [status content]. by rewrite andb_comm.
Qed.
Abbreviation telling := (λ h b (r : result jstr response), match r with Ok a => announced h b (Ok a) | Err _ => b = [] end).
Lemma object_wp k h : (∀ body, wp_admin (k body) h [] telling) → wp_admin (with_body (readAdminJsonObject aq) k) h [] telling.
Proof. intros Hk. apply reading_object_wp; [intros r _ Hr; by apply announced_error | done | by intros]. Qed.
Lemma database_wp (k : admin response) h : wp_admin k h [] telling → wp_admin (do! need_database env in k) h [] telling.
Proof. intros Hk. unfold need_database. by destruct (db_error _). Qed.
Lemma db_call_wp c (f : db_ans c → admin response) h :
  (∀ a, wp_admin (f a) (h ++ [existT (Db c : admin_call) (Ok a)]) [] telling) → wp_admin (let! x := call_db c in f x) h [] telling.
Proof. intros Hf. apply wp_bind, wp_act; [exact Hf | done]. Qed.
Lemma refused_wp r h : succeeded r = false → wp_admin (Ret r) h [] telling.
Proof. apply announced_error. Qed.
(** The end of every change: the caches, the viewers, the agents and the audit log. *)
Lemma telling_wp d action text more (h : list admin_event) :
  (∃ ev, ev ∈ h ∧ website_saved ev = true) → Forall (λ m, ∃ ev row, ev ∈ h ∧ website_row ev = Some row ∧ m = JObj row) (upserted d) →
  wp_admin (do! invalidateWebsiteMonitorPublicState d in do! AdminHttp.audit_later aq action text in done_with more) h [] telling.
Proof.
  intros Hs Hr. unfold invalidateWebsiteMonitorPublicState, invalidateAdminPublicMetadata, on_agent, spawn, AdminHttp.audit_later, done_with. cbn [bind wp spawn].
  intros s _. split; [done |]. cbn [Datatypes.app]. eexists. split; [done |]. cbn [succeeded status content json_ok as_object].
  change (succeeded _) with true. cbv iota. split; [done |]. by exists action, text, d.
Qed.
(** The change was the last call but [k]. *)
Ltac pick_event := (apply list_elem_of_here) + (apply list_elem_of_further; pick_event).
Ltac saved_here := cbn [Datatypes.app]; unshelve (once (eexists; split; [pick_event | reflexivity])).
Ltac rows_here := cbn [upserted]; first [apply Forall_nil_2 | apply Forall_singleton; cbn [Datatypes.app]; once (eexists; eexists; split; [pick_event | split; reflexivity])].
Ltac telling := apply telling_wp; [saved_here | rows_here].
Lemma website_handle_wp r : wp_admin (website_handle URL env aq r) [] [] announced.
Proof.
  destruct r; cbn [website_handle]; [unfold add_website | unfold edit_website | unfold website_visibility | unfold website_enabled | unfold reorder_websites
    | unfold delete_website | unfold check_website]; apply guarded_wp, object_wp; intros body.
  - destruct (Website.validateWebsiteMonitorInput _ _) as [value|error]; [| by apply refused_wp].
    apply database_wp, db_call_wp. intros monitor. telling.
  - cbv zeta. destruct (negb (positive_integer _)); [by apply refused_wp |]. apply database_wp.
    set (full := forallb (has_own body) WEBSITE_MONITOR_REQUIRED_EDIT_FIELDS). set (candidate := λ existing : option fields, if full then body else spread (default [] existing) body).
    assert (Hupdate : ∀ (existing : option fields) (h : list admin_event),
      wp_admin (match Website.validateWebsiteMonitorInput URL (candidate existing) with
                | Err error => Ret (failed_website error)
                | Ok value =>
                  let! monitor := call_db (UpdateWebsiteMonitorAndReturn (to_num (fld body "id")) (JObj (Backup.monitor_fields value))) in
                  match monitor with
                  | None => Ret (json_error 404 "网站监控不存在")
                  | Some monitor =>
                    do! invalidateWebsiteMonitorPublicState (Detail (Some [JObj monitor]) None None) in
                    do! AdminHttp.audit_later aq "website_edit"
                      ("编辑网站监控: " +++ to_str (js_or (fldo existing "name") (JNum (to_num (fld body "id")))) +++ " -> " +++ text_field monitor "name") in
                    done_with [("changed", JNum (of_Z 1)); ("monitor", JObj monitor)]
                  end
                end) h [] telling).
    { intros existing h. destruct (Website.validateWebsiteMonitorInput _ _) as [value|error]; [| by apply refused_wp].
      apply db_call_wp. intros [monitor|]; [| by apply refused_wp]. apply telling_wp.
      - eexists. split; [apply elem_of_app; right; list_elem | reflexivity].
      - apply Forall_singleton. do 2 eexists. split; [apply elem_of_app; right; list_elem | by split]. }
    subst candidate. destruct full; cbn [negb andb bind]; [exact (Hupdate None _) |]. apply db_call_wp.
    intros [existing|]; [exact (Hupdate (Some existing) _) | by apply refused_wp].
  - cbv zeta. destruct (fld body "hidden") as [| |hidden| | | |]; try by apply refused_wp. destruct (negb _); [by apply refused_wp |].
    apply database_wp, db_call_wp. intros changed. unfold website_flag_set. apply db_call_wp. intros [m|]; telling.
  - cbv zeta. destruct (fld body "enabled") as [| |enabled| | | |]; try by apply refused_wp. destruct (negb _); [by apply refused_wp |].
    apply database_wp, db_call_wp. intros changed. unfold website_flag_set. apply db_call_wp. intros [m|]; telling.
  - cbv zeta. destruct (_ =? 0)%nat; [by apply refused_wp |]. destruct (negb _); [by apply refused_wp |].
    apply database_wp, db_call_wp. intros updated. telling.
  - apply database_wp. cbv zeta. destruct (negb _); [by apply refused_wp |]. apply db_call_wp. intros [existing|]; [| by apply refused_wp].
    apply db_call_wp. intros []. telling.
  - cbv zeta. destruct (negb _); [by apply refused_wp |]. apply database_wp, db_call_wp. intros [monitor|]; [| by apply refused_wp].
    apply wp_bind, wp_act; [intros check | done]. apply db_call_wp. intros [updated|]; telling.
Qed.
End Websites.


(** ** Examples *)

Definition stored_sample : list (jstr * jstr) :=
  [("notification_method", "telegram"); ("telegram_bot_token", "123456:abcdefghijkl"); ("telegram_chat_id", "42"); ("webhook_retry_count", "2")].
Definition notification_keys : list jstr := default [] (lookup_field ("notification" : jstr) SETTINGS_SCOPE_KEYS).
Definition settings_answers (stored : list (jstr * jstr)) (n : nat) (c : admin_call) : result jstr (admin_ans c) :=
  match c with
  | Db c => match c as c return result jstr (db_ans c) with
            | GetSettings _ | GetAllSettings => Ok stored
            | SetSettings _ => Ok tt
            | CreatePingTask task =>
              Ok {| AgentHttp.pt_id := Some (of_Z 7); AgentHttp.pt_name := PingTask.pt_name task; AgentHttp.pt_clients := PingTask.pt_clients task;
                    AgentHttp.pt_all_clients := PingTask.pt_all_clients task; AgentHttp.pt_type := PingTask.pt_type task;
                    AgentHttp.pt_target := PingTask.pt_target task; AgentHttp.pt_interval_sec := PingTask.pt_interval_sec task;
                    AgentHttp.pt_sort_order := Some (of_Z 1) |}
            | _ => Err "unused"
            end
  | _ => Err "unused"
  end.
Definition settings_world (stored : list (jstr * jstr)) : Effects.env admin_call admin_ans admin_state :=
  Effects.Build_env admin_call admin_ans admin_state (settings_answers stored) (λ n, 1700000000000 + Z.of_nat n) (λ _ st, st).
Definition form_sample : fields := text_fields (scoped_settings no_url "notification" notification_keys stored_sample).
Definition round_trip_run := exec (settings_world stored_sample) 0 fresh_admin (save_settings no_url sample_env (sample_admin (JObj form_sample))).
Lemma form_sample_sent : sent_object (sample_admin (JObj form_sample)) = Some form_sample.
Proof. vm_compute. reflexivity. Qed.
Lemma round_trip_answer : r_value round_trip_run = Ok (settings_answer [] 0 true).
Proof. vm_compute. reflexivity. Qed.
Lemma round_trip_log : r_log round_trip_run = [existT (Db (GetSettings (map fst (sn_settings (sanitizeSettingsForStorage no_url (JObj (submitted_settings form_sample)) true "panel.example")))) : admin_call) (Ok stored_sample)].
Proof. vm_compute. reflexivity. Qed.
Lemma settings_form_round_trip_witness :
  lookup_field "telegram_bot_token_preview" form_sample = Some (JStr "1234********ijkl")
  ∧ r_value round_trip_run = Ok (settings_answer [] 0 true) ∧ (∀ ev, ev ∈ r_log round_trip_run → stores ev = None).
Proof.
  split; [vm_compute; reflexivity |]. split; [exact round_trip_answer |].
  assert (Hk : (("notification" : jstr), notification_keys) ∈ SETTINGS_SCOPE_KEYS) by (unfold SETTINGS_SCOPE_KEYS, notification_keys; cbn [lookup_field]; vm_compute; list_elem).
  assert (Hu : urls_reread no_url (aq_hostname (sample_admin (JObj form_sample))) notification_keys stored_sample).
  { intros k _ Hu Hh. unfold URL_KEYS in Hu. list_cases Hu; vm_compute; reflexivity. }
  apply (settings_form_round_trip no_url sample_env (sample_admin (JObj form_sample)) "notification" notification_keys stored_sample
    (settings_world stored_sample) 0 fresh_admin Hk Hu form_sample_sent).
  fold round_trip_run. rewrite round_trip_log. intros ev stored' ->%list_elem_of_singleton. cbn [settings_read]. by intros [= <-].
Defined.
Definition other_sample : list (jstr * jstr) :=
  [("notification_method", "telegram"); ("telegram_bot_token", "1234-another-one-ijkl"); ("telegram_chat_id", "77"); ("webhook_retry_count", "2")].
Definition shown_admin : admin_request :=
  {| aq_base := aq_base (sample_admin JNull); aq_query := [("scope", "notification")]; aq_userId := "admin"; aq_username := "admin";
     aq_hostname := "panel.example"; aq_backup_password := None |}.
Lemma samples_alike : alike no_url (buildAdminSettings no_url stored_sample) (buildAdminSettings no_url other_sample).
Proof.
  split.
  - intros k Hk. assert (Hne : ∀ key : jstr, key ∈ hidden_notification_keys → k ≠ key) by (intros key Hkey ->; done).
    assert (Hl : lookup_field k stored_sample = lookup_field k other_sample).
    { assert (Hskip : ∀ (key v w : jstr) l l', (key ∈ hidden_notification_keys ∨ v = w) → lookup_field k l = lookup_field k l' →
        lookup_field k ((key, v) :: l) = lookup_field k ((key, w) :: l')).
      { intros key v w l l' H Hl. cbn [lookup_field]. destruct (decide (k = key)) as [-> | ?]; [| done]. destruct H as [H | ->]; [by destruct (Hne key H) | done]. }
      apply Hskip; [right; reflexivity |]. apply Hskip; [left; apply mem_spec; vm_compute; reflexivity |].
      apply Hskip; [left; apply mem_spec; vm_compute; reflexivity |]. reflexivity. }
    unfold setting, buildAdminSettings. rewrite !(lookup_field_map (admin_value no_url _)). destruct (lookup_field k SETTING_SCHEMA); [| done].
    cbn. unfold admin_value. by rewrite Hl.
  - apply Forall_forall, (bool_decide_eq_true_1 _). vm_compute. reflexivity.
  - apply Forall_forall, (bool_decide_eq_true_1 _). vm_compute. reflexivity.
  - vm_compute. reflexivity.
Qed.
Lemma notification_form_conceals_witness :
  r_value (exec (settings_world stored_sample) 0 fresh_admin (get_settings no_url sample_env shown_admin))
  = r_value (exec (settings_world other_sample) 0 fresh_admin (get_settings no_url sample_env shown_admin)).
Proof.
  apply (notification_form_conceals no_url sample_env shown_admin (settings_world stored_sample) (settings_world other_sample) 0 fresh_admin fresh_admin notification_keys).
  - reflexivity.
  - unfold SETTINGS_SCOPE_KEYS, notification_keys; vm_compute; list_elem.
  - exact samples_alike.
Defined.

(** ** Observations *)

(** Without a scope, the settings are answered with every secret in clear. *)
Lemma unscoped_settings_show_secrets :
  match r_value (exec (settings_world stored_sample) 0 fresh_admin (get_settings no_url sample_env (sample_admin JNull))) with
  | Ok answer => fld (as_object (content answer)) "telegram_bot_token" = JStr "123456:abcdefghijkl"
  | Err _ => False
  end.
Proof. vm_compute. reflexivity. Qed.
(** The text "false" for [all_clients] is truthy, so the nodes are not looked up; the
    validator reads it as false, and the task is created for a node nobody has. *)
Definition ghost_task : fields :=
  [("name", JStr "probe"); ("type", JStr "icmp"); ("target", JStr "8.8.8.8"); ("all_clients", JStr "false"); ("clients", JArr [JStr "ghost"])].
Lemma ping_clients_unchecked :
  match r_log (exec (settings_world []) 0 fresh_admin (add_ping no_url sample_env (sample_admin (JObj ghost_task)))) with
  | [existT (Db (CreatePingTask task)) _] => PingTask.pt_clients task = ["ghost" : jstr] ∧ PingTask.pt_all_clients task = false
  | _ => False
  end.
Proof. vm_compute. done. Qed.
