(* ===== verification/LiveHttp.v ===== *)
(** * Live connections: [worker/src/routes/websocket.ts]

    The routes that open a WebSocket of an agent or of a viewer, issue viewer tokens and
    answer the live snapshot over HTTP, with their rate limits.  They share the state,
    the calls and the token lookup of [AgentHttp]; HMAC, the random nonce and the random
    identifier of a viewer are parameters. *)

From S2P Require Import Prelude JsStr JsNum JsVal JsList JsBytes Net PingTask Settings Report Client LivePersist Viewer Effects AgentHttp AgentSpec.
#[local] Open Scope Z_scope.

(** @worker/src/routes/websocket.ts:24-36 VIEWER_TOKEN_RATE_LIMIT_WINDOW_MS (constants) *)
Definition VIEWER_TOKEN_RATE_LIMIT_WINDOW_MS : Z := 60000.
Definition VIEWER_TOKEN_RATE_LIMIT_MAX : Z := 20.
Definition LIVE_CLIENTS_RATE_LIMIT_WINDOW_MS : Z := 60000.
Definition LIVE_CLIENTS_RATE_LIMIT_MAX : Z := 180.
Definition LIVE_CLIENTS_CACHE_SECONDS : Z := 2.
Definition VIEWER_TOKEN_TTL_MS : Z := 60000.
Definition LIVE_VIEWER_WS_PROTOCOL : jstr := "cf-monitor-viewer".
Definition LOCAL_WS_RATE_LIMIT_SWEEP_EVERY : Z := 256.

(** What a request carries besides the parts [AgentHttp.request] names. *)
Record ws_request := {
  wq_base : request; wq_url : jstr; wq_origin : option jstr; wq_upgrade : option jstr; wq_protocol : option jstr;
  wq_token : option jstr; wq_include_hidden : option jstr;
}.
Definition header_text (h : option jstr) : jstr := default "" h.

(** @worker/src/routes/websocket.ts:87-89 isUnknownRegion *)
Definition isUnknownRegion (region : jstr) : bool := unknown_region (trim region).
(** @worker/src/routes/websocket.ts:95-98 isDetailedRegion *)
Definition isDetailedRegion (region : jstr) : bool :=
  let text := trim region in nonempty text && negb (isUnknownRegion text) && negb (isCountryCodeRegion text).
(** @worker/src/routes/websocket.ts:122-128 cleanupLocalWsRateLimitBuckets *)
Definition cleanupLocalWsRateLimitBuckets (nowMs : Z) (buckets : list (jstr * (Z * Z * Z))) : list (jstr * (Z * Z * Z)) :=
  List.filter (λ e, let '(_, resetAt, lastSeenAt) := e.2 in
    negb ((resetAt <=? nowMs) || (VIEWER_TOKEN_RATE_LIMIT_WINDOW_MS * 5 <? nowMs - lastSeenAt))) buckets.
(** @worker/src/routes/websocket.ts:150-162 localWsRateLimit (sweep and count) -- the
    bucket after the request, and the state *)
Definition hit_ws (nowMs : Z) (key : jstr) (windowMs : Z) (st : Z * list (jstr * (Z * Z * Z))) : (Z * Z) * (Z * list (jstr * (Z * Z * Z))) :=
  let counter := st.1 + 1 in
  let buckets := if counter mod LOCAL_WS_RATE_LIMIT_SWEEP_EVERY =? 0 then cleanupLocalWsRateLimitBuckets nowMs st.2 else st.2 in
  let '(count, resetAt) := match lookup_field key buckets with
                           | Some (count, resetAt, _) => if resetAt <=? nowMs then (0, nowMs + windowMs) else (count, resetAt)
                           | None => (0, nowMs + windowMs)
                           end in
  ((count + 1, resetAt), (counter, set_field key (count + 1, resetAt, nowMs) buckets)).
(** The members [readLiveSnapshot] sets, in its order. *)
Definition snapshot_json (s : LiveSnapshot) : jsval :=
  let member k (v : option jsval) := match v with Some v => [(k, v)] | None => [] end in
  JObj ([("online", texts (ls_online s)); ("count", JNum (ls_count s))]
        ++ member "clients" (option_map (λ l, JArr (map JObj l)) (ls_clients s)) ++ member "data" (option_map JObj (ls_data s))
        ++ member "last_known" (option_map JObj (ls_last_known s)) ++ member "timestamp" (option_map JNum (ls_timestamp s))
        ++ member "metadata_version" (option_map JStr (ls_metadata_version s))).
(** A response of the live object, passed on. *)
Definition passed_on (r : reply) : response := {| status := rp_status r; content := default JNull (rp_json r) |}.

Section Routes.
Context (sha256 : list Z → list Z) (hmac : list Z → list Z → list Z) (URL : jstr → option url) (env : bindings) (JWT_SECRET : option jstr).
Context (ws : ws_request) (nonce : list Z) (randomUUID : jstr).
Abbreviation req := (wq_base ws).

(** @worker/src/routes/websocket.ts:45-48 bearerToken *)
Definition bearerToken : jstr :=
  let authHeader := header_text (rq_authorization req) in
  if starts_with "Bearer " authHeader then trim (slice_from 7 authHeader) else "".
Definition host (u : url) : jstr := if nonempty (port u) then hostname u +++ ":" +++ port u else hostname u.
(** @worker/src/routes/websocket.ts:50-61 requestHasValidOrigin *)
Definition requestHasValidOrigin : bool :=
  if negb (nonempty (header_text (wq_origin ws))) then true
  else match URL (wq_url ws), URL (header_text (wq_origin ws)) with
       | Some requestUrl, Some originUrl => jeq (protocol originUrl) (protocol requestUrl) && jeq (host originUrl) (host requestUrl)
       | _, _ => false
       end.
(** @worker/src/routes/websocket.ts:63-65 isWebSocketUpgrade *)
Definition isWebSocketUpgrade : bool := jeq (lower (header_text (wq_upgrade ws))) "websocket".
(** @worker/src/routes/websocket.ts:72-73 viewerTokenFromProtocol (the text after the marker) *)
Fixpoint after_marker (protocols : list jstr) : jstr :=
  match protocols with
  | [] => ""
  | p :: rest => if jeq p LIVE_VIEWER_WS_PROTOCOL then match rest with t :: _ => t | [] => "" end else after_marker rest
  end.
(** @worker/src/routes/websocket.ts:67-74 viewerTokenFromProtocol *)
Definition viewerTokenFromProtocol : jstr :=
  after_marker (List.filter nonempty (map trim (split_on (chr 44) (header_text (wq_protocol ws))))).
(** @worker/src/routes/websocket.ts:76-78 requestIp *)
Definition requestIp : jstr := getCloudflareClientIp (rq_ip req) "unknown".
(** @worker/src/routes/websocket.ts:237-239 jwtSecret *)
Definition jwtSecret : jstr := trim (header_text JWT_SECRET).

(** @worker/src/routes/websocket.ts:100-120 syncAgentNetworkMetadata *)
Definition syncAgentNetworkMetadata (client patch : fields) : agent unit :=
  let uuid := fld client "uuid" in
  let flag field key p := match fld patch field with JStr s => set_field key (JBool (nonempty (trim s))) p | _ => p end in
  let safePatch := flag "ipv6" "has_ipv6" (flag "ipv4" "has_ipv4" (spread [("uuid", uuid)] patch)) in
  if negb (LIVE_DATA env) then Throw missing_binding
  else
    catch
      (let! _r := await (LiveFetch "client-meta" (JObj [
         ("source", JStr "agent"); ("uuid", uuid); ("name", js_or (fld client "name") uuid); ("hidden", fld client "hidden");
         ("client", JObj safePatch)])) in Ret tt)
      (λ _, Ret tt).

(** ** Rate limits *)

(** @worker/src/routes/websocket.ts:130-139 wsRateLimitResponse *)
Definition wsRateLimitResponse (error : jstr) (retryAfter limit remaining : num) (noStore : bool) : agent response :=
  do! header "Content-Type" "application/json" in
  do! header "Retry-After" (num_str retryAfter) in
  do! header "X-RateLimit-Limit" (num_str limit) in
  do! header "X-RateLimit-Remaining" (num_str (num_max (of_Z 0) remaining)) in
  do! (if noStore then header "Cache-Control" "no-store" else Ret tt) in
  Ret (json_error 429 error).
(** @worker/src/routes/websocket.ts:141-171 localWsRateLimit *)
Definition localWsRateLimit (bucket ip : jstr) (max windowMs : Z) (error : jstr) (noStore : bool) : agent (option response) :=
  let! nowMs := clock in
  let key := "ws:" +++ bucket +++ ":" +++ or_str ip "unknown" in
  let! st := Local (λ st, with_ws (hit_ws nowMs key windowMs (localWsRateLimit st)).2 st) Ret in
  let '(count, resetAt) := (hit_ws nowMs key windowMs (localWsRateLimit st)).1 in
  let retryAfter := Z.max 1 (- ((nowMs - resetAt) / 1000)) in
  let remaining := Z.max 0 (max - count) in
  do! header "X-RateLimit-Limit" (dec_Z max) in
  do! header "X-RateLimit-Remaining" (dec_Z remaining) in
  if count <=? max then Ret None
  else let! r := wsRateLimitResponse error (of_Z retryAfter) (of_Z max) (of_Z remaining) noStore in Ret (Some r).
(** @worker/src/routes/websocket.ts:173-209 enforceWsRateLimit *)
Definition enforceWsRateLimit (doName bucket ip : jstr) (max windowMs : Z) (error : jstr) (noStore : bool) : agent (option response) :=
  let local := localWsRateLimit bucket ip max windowMs error noStore in
  if negb (RATE_LIMIT env) then local
  else catch
    (let! r := await (RateFetch doName (JObj [("bucket", JStr bucket); ("ip", JStr ip); ("max", JNum (of_Z max)); ("windowMs", JNum (of_Z windowMs))])) in
     if negb (rp_ok r) then Throw ("DO rate limit HTTP " +++ dec_Z (rp_status r))
     else
       let! result := readRateLimitResult r (of_Z max) (of_Z max) in
       match result with
       | None => Throw "DO rate limit returned an invalid response"
       | Some result =>
         do! header "X-RateLimit-Limit" (num_str (rl_limit result)) in
         do! header "X-RateLimit-Remaining" (num_str (rl_remaining result)) in
         if rl_allowed result then Ret None
         else let! r := wsRateLimitResponse error (rl_retryAfter result) (rl_limit result) (rl_remaining result) noStore in Ret (Some r)
       end)
    (λ _, local).
(** @worker/src/routes/websocket.ts:211-222 enforceViewerTokenRateLimit *)
Definition enforceViewerTokenRateLimit (ip : jstr) : agent (option response) :=
  enforceWsRateLimit "viewer-token" "viewer-token" ip VIEWER_TOKEN_RATE_LIMIT_MAX VIEWER_TOKEN_RATE_LIMIT_WINDOW_MS
    "Too many live viewer token requests" true.
(** @worker/src/routes/websocket.ts:224-235 enforceLiveClientsRateLimit *)
Definition enforceLiveClientsRateLimit (ip : jstr) : agent (option response) :=
  enforceWsRateLimit "live-clients" "live-clients" ip LIVE_CLIENTS_RATE_LIMIT_MAX LIVE_CLIENTS_RATE_LIMIT_WINDOW_MS
    "Too many live clients requests" true.

(** ** The routes *)

(** [stub.fetch(new Request(url, c.req.raw))] with the parameters of [url] *)
Definition upgrade (params : list (jstr * jstr)) : agent response :=
  if negb (LIVE_DATA env) then Throw missing_binding else let! r := await (LiveUpgrade params) in Ret (passed_on r).
(** @worker/src/routes/websocket.ts:258-263 /clients/report (refusals) *)
Definition refuse_agent (token error : jstr) : agent response :=
  let! failureLimited := enforceAgentAuthFailureLimit sha256 env req token in
  match failureLimited with Some r => Ret r | None => Ret (json_error 401 error) end.
(** @worker/src/routes/websocket.ts:269-280 /clients/report (the patch of the region) *)
Definition region_patch (region : jstr) (storedClient : fields) : fields :=
  let stored := text_of (fld storedClient "region") in
  if negb (nonempty stored) || isUnknownRegion stored || (isCountryCodeRegion stored && isDetailedRegion region)
  then [("region", JStr region)] else [].
(** @worker/src/routes/websocket.ts:267-287 /clients/report (the stored region) *)
Definition store_region (region : jstr) (client : fields) : agent unit :=
  if negb (nonempty region) then Ret tt
  else
    let! storedClient := await (GetClient (fld client "uuid")) in
    match storedClient with
    | None => Ret tt
    | Some storedClient =>
      let patch := region_patch region storedClient in
      if (0 <? length patch)%nat then
        let! _updated := await (UpdateClient (fld client "uuid") patch) in
        do! syncAgentNetworkMetadata client patch in
        let! _st := modify invalidatePublicMetadataCache in Ret tt
      else Ret tt
    end.
(** @worker/src/routes/websocket.ts:289-303 /clients/report (the parameters of the object) *)
Definition agent_params (client : fields) (auth_hash region sourceIp : jstr) : list (jstr * jstr) :=
  [("id", to_str (fld client "uuid")); ("name", to_str (fld client "name")); ("hidden", if truthy (fld client "hidden") then "1" else "0");
   ("role", "agent"); ("auth_hash", auth_hash)]
  ++ (if isPublicIpAddress sourceIp then [("source_ip", sourceIp)] else []) ++ (if nonempty region then [("region", region)] else []).
(** @worker/src/routes/websocket.ts:241-304 /clients/report *)
Definition clients_report : agent response :=
  let token := or_str bearerToken (trim (header_text (wq_token ws))) in
  let! attemptLimited := enforceAgentAuthAttemptLimit sha256 req token in
  match attemptLimited with
  | Some r => Ret r
  | None =>
    if negb (nonempty token) || negb (isAgentTokenShape token) then refuse_agent token (if nonempty token then "Invalid token" else "Missing token")
    else if negb isWebSocketUpgrade then Ret (json_error 400 "WebSocket upgrade required")
    else if negb requestHasValidOrigin then Ret (json_error 403 "Invalid WebSocket Origin")
    else
      do! need_database env in
      let! found := getAgentClientIdentityByToken sha256 env false token (requestClientIp req) in
      match found.2 with
      | None => refuse_agent token "Invalid token"
      | Some client =>
        let region := requestRegion req in
        do! store_region region client in
        if negb (LIVE_DATA env) then Throw missing_binding
        else
          let! auth_hash := agentTokenLookupHash sha256 token in
          upgrade (agent_params client auth_hash region (requestClientIp req))
      end
  end.
(** @worker/src/routes/websocket.ts:306-322 /ws/live-token *)
Definition live_token : agent response :=
  if byte_length jwtSecret <? 32 then Ret (json_error 500 "Server authentication is not configured")
  else
    let! limited := enforceViewerTokenRateLimit requestIp in
    match limited with
    | Some r => Ret r
    | None =>
      do! header "Cache-Control" "no-store" in
      let! now := clock in
      let! made := Yield (Ret (createViewerToken hmac requestIp jwtSecret (Some (of_Z VIEWER_TOKEN_TTL_MS)) now nonce)) in
      Ret (json_ok (JObj [("token", JStr made.1); ("expires_at", JNum made.2)]))
    end.
(** @worker/src/routes/websocket.ts:364-364 liveClientsResponse (include_hidden) *)
Definition includeHidden : agent bool :=
  if match wq_include_hidden ws with Some h => jeq h "1" | None => false end then await HasAdminSession else Ret false.
Definition public_cache : jstr := "public, max-age=2, s-maxage=2, stale-while-revalidate=4".
(** @worker/src/routes/websocket.ts:361-373 liveClientsResponse *)
Definition liveClientsResponse : agent response :=
  let! limited := enforceLiveClientsRateLimit requestIp in
  match limited with
  | Some r => Ret r
  | None =>
    let! hidden := includeHidden in
    if negb (LIVE_DATA env) then Throw missing_binding
    else
      let! r := await (LiveSnapshotRead hidden) in
      let! snapshot := readLiveSnapshot r in
      do! header "Cache-Control" (if hidden then "no-store" else public_cache) in
      Ret (json_ok (match snapshot with Some s => snapshot_json s | None => JObj [("online", JArr []); ("count", JNum (of_Z 0))] end))
  end.
(** @worker/src/routes/websocket.ts:352-356 /ws/live (the parameters of the object) *)
Definition viewer_params (hidden : bool) : list (jstr * jstr) :=
  [("id", "frontend-" +++ randomUUID); ("role", "viewer"); ("viewer_ip", requestIp)] ++ (if hidden then [("include_hidden", "1")] else []).
(** @worker/src/routes/websocket.ts:324-359 /ws/live *)
Definition ws_live : agent response :=
  if negb isWebSocketUpgrade then liveClientsResponse
  else if negb requestHasValidOrigin then Ret (json_error 403 "Invalid WebSocket Origin")
  else
    let viewerToken := viewerTokenFromProtocol in
    if negb (nonempty viewerToken) then Ret (json_error 401 "Missing viewer token")
    else if byte_length jwtSecret <? 32 then Ret (json_error 500 "Server authentication is not configured")
    else
      let! now := clock in
      let! verified := Yield (match verifyViewerToken hmac viewerToken requestIp jwtSecret now with
                              | Some b => Ret b
                              | None => Throw "Cannot read properties of null (reading 'exp')"
                              end) in
      if negb verified then Ret (json_error 403 "Invalid viewer token")
      else if negb (LIVE_DATA env) then Throw missing_binding
      else
        let! hidden := includeHidden in
        upgrade (viewer_params hidden).

Inductive ws_route := ClientsReport | LiveToken | WsLive | LiveClients.
(** @worker/src/routes/websocket.ts:241-375 wsRoutes (the table) *)
Definition ws_handle (r : ws_route) : agent response :=
  match r with
  | ClientsReport => clients_report
  | LiveToken => live_token
  | WsLive => ws_live
  | LiveClients => liveClientsResponse
  end.
End Routes.

(** ** What reaches the live object *)

Section Guards.
Context (sha256 : list Z → list Z) (hmac : list Z → list Z → list Z) (URL : jstr → option url) (env : bindings) (JWT_SECRET : option jstr).
Context (ws : ws_request) (nonce : list Z) (randomUUID : jstr).
Abbreviation token := (or_str (bearerToken ws) (trim (header_text (wq_token ws)))).

(** The administrator's session was verified earlier in the request. *)
Definition administrator (h : list (event call ans)) : Prop := existT HasAdminSession (Ok true) ∈ h.
(** The request, handled at [now], may open a viewer's connection. *)
Definition viewer_admitted (now : Z) : Prop :=
  isWebSocketUpgrade ws = true ∧ requestHasValidOrigin URL ws = true ∧ (32 <= byte_length (jwtSecret JWT_SECRET))%Z
  ∧ verifyViewerToken hmac (viewerTokenFromProtocol ws) (requestIp ws) (jwtSecret JWT_SECRET) now = Some true.
(** What a viewer's request may call. *)
Definition viewer_call (now : Z) (h : list (event call ans)) (c : call) : Prop :=
  match c with
  | RateFetch _ _ | HasAdminSession => True
  | LiveSnapshotRead hidden => hidden = true → administrator h
  | LiveUpgrade params =>
    viewer_admitted now ∧ lookup_field "role" params = Some ("viewer" : jstr) ∧ lookup_field "viewer_ip" params = Some (requestIp ws)
    ∧ (lookup_field "include_hidden" params ≠ None → administrator h)
  | _ => False
  end.
Section At.
Context (now : Z).
Definition guarded (h : list (event call ans)) : Prop := ∀ l1 ev l2, h = l1 ++ ev :: l2 → viewer_call now l1 (projT1 ev).
Lemma guarded_nil : guarded [].
Proof. by intros []. Qed.
Lemma guarded_snoc h ev : guarded h → viewer_call now h (projT1 ev) → guarded (h ++ [ev]).
Proof.
  intros Hh Hev l1 ev' l2 E. destruct (app_eq_inv _ _ _ _ E) as [(k & -> & E2)|(k & -> & E2)].
  - destruct k as [|x k]; cbn in E2; [injection E2 as -> ->; by rewrite app_nil_r in Hev |]. injection E2 as -> ->. by apply (Hh l1 x k).
  - destruct k as [|x k]; cbn in E2; simplify_eq; [by rewrite app_nil_r | by destruct k].
Qed.
Definition rate_call (c : call) : Prop := match c with RateFetch _ _ => True | _ => False end.
Lemma guarded_rate h l : guarded h → Forall (λ ev, rate_call (projT1 ev)) l → guarded (h ++ l).
Proof.
  revert h. induction l as [|ev l IH]; intros h Hh Hl; [by rewrite app_nil_r |]. apply Forall_cons in Hl as [Hev Hl].
  change (ev :: l) with ([ev] ++ l). rewrite (assoc_L (++)). apply IH; [| done]. apply guarded_snoc; [done |].
  destruct ev as [[] x]; cbn in Hev |- *; done.
Qed.

End At.
Lemma limit_obeys (Inv : agent_state → Prop) (P : call → Prop) (T : task → Prop) doName bucket ip max windowMs error noStore :
  kept Inv → (∀ object body, P (RateFetch object body)) →
  obeys Inv P T (enforceWsRateLimit env doName bucket ip max windowMs error noStore).
Proof.
  intros K HR.
  assert (Hl : obeys Inv P T (localWsRateLimit bucket ip max windowMs error noStore)).
  { unfold localWsRateLimit. apply obeys_bind; [intros ?; exact I | intros now]. cbv zeta. apply obeys_bind.
    - intros s Hs. split; [by apply (kept_ws _ K) | exact I].
    - intros st. destruct (hit_ws _ _ _ _).1 as [count resetAt]. unfold wsRateLimitResponse. obey. }
  unfold enforceWsRateLimit. destruct (negb _); [exact Hl |]. apply obeys_catch; [| intros _; exact Hl].
  unfold readRateLimitResult, readJsonObject, json_or_null, wsRateLimitResponse. obey. apply HR.
Qed.
Abbreviation wpt := (wp (λ _ : agent_state, True)).
Section Viewers.
Context (now : Z).
Abbreviation guarded := (guarded now).
Abbreviation safe := (λ (h : list (event call ans)) (b : list task) (r : result jstr response), guarded h).
Lemma limit_wp doName bucket ip max windowMs error noStore h b (Q : post call ans task (option response)) :
  guarded h → (∀ h r, guarded h → Q h b r) → wpt (enforceWsRateLimit env doName bucket ip max windowMs error noStore) h b Q.
Proof.
  intros Hh HQ. eapply (obeys_wp _ _ _ _ _ rate_call (λ _, False)); [by apply limit_obeys; [apply kept_true |] |].
  intros l t r Hl Ht. destruct t as [|x t]; [| by apply Forall_cons in Ht as [[] _]]. rewrite app_nil_r. apply HQ. by apply guarded_rate.
Qed.
Lemma hidden_wp h b (Q : post call ans task bool) :
  guarded h → (∀ h r, guarded h → (r = Ok true → administrator h) → Q h b r) → wpt (includeHidden ws) h b Q.
Proof.
  intros Hh HQ. unfold includeHidden. destruct (match wq_include_hidden ws with Some h => _ | None => _ end); [| by apply HQ].
  intros x. assert (Hg : guarded (h ++ [existT HasAdminSession x])) by (by apply guarded_snoc).
  destruct x as [[|]|e]; cbn [wp]; (apply HQ; [done |]); try done. intros _. apply elem_of_app. right. by apply list_elem_of_singleton.
Qed.
Lemma live_clients_wp h b : guarded h → wpt (liveClientsResponse env ws) h b safe.
Proof.
  intros Hh. unfold liveClientsResponse. apply wp_bind, limit_wp; [done |]. intros h1 [[r|]|e] H1; [done | | done].
  apply wp_bind, hidden_wp; [done |]. intros h2 [hidden|e] H2 Hadm; [| done]. destruct (negb (LIVE_DATA env)); [done |].
  intros x. assert (Hg : guarded (h2 ++ [existT (LiveSnapshotRead hidden) x])) by (apply guarded_snoc; [done | by intros ->; apply Hadm]).
  by destruct x as [r|e].
Qed.
Lemma live_token_wp : wpt (live_token hmac env JWT_SECRET ws nonce) [] [] safe.
Proof.
  unfold live_token. destruct (_ <? 32); [apply guarded_nil |]. apply wp_bind, limit_wp; [apply guarded_nil |].
  intros h1 [[r|]|e] H1; [done | | done]. cbn [wp bind header clock]. done.
Qed.
End Viewers.
Lemma ws_live_guarded e n s : guarded (e_clock e n) (r_log (exec e n s (ws_live hmac URL env JWT_SECRET ws randomUUID))).
Proof.
  pose proof (guarded_nil (e_clock e n)) as H0. unfold ws_live.
  destruct (isWebSocketUpgrade ws) eqn:Eu; cbn [negb].
  2: { destruct (wp_sound _ _ _ _ _ _ [] [] _ e n s I (λ _ _ _, I) (live_clients_wp (e_clock e n) [] [] H0)) as [H _]. exact H. }
  destruct (requestHasValidOrigin URL ws) eqn:Eo; cbn [negb]; [| exact H0]. cbv zeta.
  destruct (negb (nonempty _)); [exact H0 |]. destruct (byte_length (jwtSecret JWT_SECRET) <? 32) eqn:Es; [exact H0 |].
  cbn [bind clock exec r_log]. destruct (verifyViewerToken _ _ _ _ (e_clock e n)) as [[|]|] eqn:Ev; cbn [bind exec negb]; try exact H0.
  destruct (negb (LIVE_DATA env)) eqn:El; [exact H0 |].
  assert (Hw : wpt (let! hidden := includeHidden ws in upgrade env (viewer_params ws randomUUID hidden)) [] [] (λ h _ _, guarded (e_clock e n) h)).
  { apply wp_bind, (hidden_wp (e_clock e n)); [exact H0 |].
    intros h [hidden|x] Hh Hadm; [| done]. unfold upgrade. rewrite El. intros x.
    assert (Hg : guarded (e_clock e n) (h ++ [existT (LiveUpgrade (viewer_params ws randomUUID hidden)) x])).
    { apply guarded_snoc; [done |]. split; [split; [done | split; [done | split; [by apply Z.ltb_ge | done]]] |].
      split; [done | split; [done |]]. destruct hidden; [intros _; by apply Hadm | done]. }
    by destruct x as [r|x]. }
  destruct (wp_sound _ _ _ _ _ _ [] [] _ e (S (S n)) (e_others e (S n) s) I (λ _ _ _, I) Hw) as [H _]. exact H.
Qed.

(** *** Agents *)

Lemma store_region_obeys Inv (K : kept Inv) T region client u :
  fld client "uuid" = u → obeys Inv (permitted u) T (store_region env region client).
Proof.
  intros Hu. unfold store_region. destruct (negb _); [exact I |]. apply obeys_bind; [by apply obeys_act | intros [stored|]; [| exact I]].
  cbv zeta. destruct (0 <? _)%nat; [| exact I]. apply obeys_bind; [apply obeys_act; split; [done |] | intros updated].
  - unfold region_patch. cbv zeta. destruct (_ || _); [| apply Forall_nil_2]. apply Forall_singleton. by apply column_plain; [list_elem |
      apply (bool_decide_eq_true _); vm_compute; reflexivity].
  - apply obeys_bind; [| intros _; apply obeys_bind; [apply modify_obeys; apply (kept_public _ K) | intros; exact I]].
    unfold syncAgentNetworkMetadata. cbv zeta. destruct (negb _); [exact I |]. apply obeys_catch; [| intros; exact I].
    apply obeys_bind; [| intros; exact I]. apply obeys_act. rewrite <- Hu. reflexivity.
Qed.
Lemma clients_report_wp :
  wpt (clients_report sha256 URL env ws) [] [] (λ h b _, accounted sha256 env token h b).
Proof.
  set (acc := accounted sha256 env token).
  assert (Hp : ∀ A (p : agent A) h b (Q : post call ans task A), obeys (λ _, True) (presented sha256 token) (λ _, False) p → acc h b →
    (∀ h r, acc h b → Q h b r) → wpt p h b Q).
  { intros A p h b Q Hob Ha HQ. eapply obeys_wp; [exact Hob |]. intros l t r Hl Ht.
    destruct t as [|x t]; [| by apply Forall_cons in Ht as [[] _]]. rewrite app_nil_r. apply HQ. by apply accounted_presented. }
  assert (Hrefuse : ∀ h b error, acc h b → wpt (refuse_agent sha256 env ws token error) h b (λ h b _, acc h b)).
  { intros h b error Ha. apply Hp; [| done | done]. apply (refuse_obeys sha256 env (wq_base ws) _ kept_true). done. }
  unfold clients_report. cbv zeta. apply wp_bind, Hp; [by apply attempt_obeys, kept_true | apply accounted_nil |].
  intros h1 [[r|]|e] H1; [done | | done].
  destruct (isAgentTokenShape token) eqn:Hs; [| rewrite orb_true_r; by apply Hrefuse]. destruct (negb (nonempty token)); cbn [negb orb]; [by apply Hrefuse |].
  destruct (negb (isWebSocketUpgrade ws)); [done |]. destruct (negb (requestHasValidOrigin URL ws)); [done |].
  apply wp_bind, Hp; [unfold need_database; obey | done |]. intros h2 [[]|e] H2; [| done].
  apply wp_bind. eapply wp_mono; [| apply by_token_wp; [apply kept_true | exact Hs | done | done | | exact H2]].
  2: { intros h b Q HQ x. destruct x as [r|x]; cbn [wp]; apply HQ; try done; intros row [= ->]; by right. }
  intros h3 b3 [[src [client|]]|e] [H3 Hrow]; [| cbn [snd]; by apply Hrefuse | done].
  destruct (Hrow src client eq_refl) as (row & -> & Hb). cbn [snd].
  eapply (obeys_wp _ _ _ _ _ (permitted (fld row "uuid")) (task_of (fld row "uuid"))).
  - apply obeys_bind; [apply store_region_obeys; [apply kept_true | apply strip_uuid] | intros _].
    destruct (negb (LIVE_DATA env)); [exact I |]. apply obeys_bind; [exact I | intros auth_hash].
    unfold upgrade. destruct (negb (LIVE_DATA env)); [exact I |]. apply obeys_bind; [apply obeys_act | intros; exact I].
    split; [| done]. rewrite <- (strip_uuid row). reflexivity.
  - intros l t r Hl Ht. by apply (accounted_permitted _ _ _ row).
Qed.

(** *** What may be cached *)

Definition uncached (h : jstr * jstr) : Prop := h.1 = "Cache-Control" → h.2 = "no-store".
Lemma limit_uncached doName bucket ip max windowMs error :
  announces uncached (enforceWsRateLimit env doName bucket ip max windowMs error true).
Proof.
  assert (Hk : ∀ k v, k ≠ "Cache-Control" → announces uncached (header k v : agent unit))
    by (intros k v Hk; split; [by intros ?%Hk | exact I]).
  assert (Hr : ∀ a b c, announces uncached (wsRateLimitResponse error a b c true)).
  { intros. unfold wsRateLimitResponse. do 4 (apply announces_bind; [by refine (Hk _ _ _) | intros _]).
    apply announces_bind; [by split | intros; exact I]. }
  assert (Hl : announces uncached (localWsRateLimit bucket ip max windowMs error true)).
  { unfold localWsRateLimit. apply announces_bind; [intros ?; exact I | intros now]. cbv zeta. apply announces_bind; [intros ?; exact I | intros st].
    destruct (hit_ws _ _ _ _).1 as [count resetAt]. do 2 (apply announces_bind; [by refine (Hk _ _ _) | intros _]).
    destruct (count <=? max); [exact I |]. apply announces_bind; [apply Hr | intros; exact I]. }
  unfold enforceWsRateLimit. destruct (negb _); [exact Hl |]. apply announces_catch; [| intros _; exact Hl].
  apply announces_bind; [intros []; exact I | intros r]. destruct (negb (rp_ok r)); [exact I |].
  apply announces_bind.
  - unfold readRateLimitResult. apply announces_bind; [exact I | intros [v|]; [| exact I]]. destruct (fld v "allowed"); try exact I. intros ?; exact I.
  - intros [result|]; [| exact I]. do 2 (apply announces_bind; [by refine (Hk _ _ _) | intros _]).
    destruct (rl_allowed result); [exact I |]. apply announces_bind; [apply Hr | intros; exact I].
Qed.
Lemma limit_log e n s doName bucket ip max windowMs error noStore :
  Forall (λ ev, rate_call (projT1 ev)) (r_log (exec e n s (enforceWsRateLimit env doName bucket ip max windowMs error noStore))).
Proof.
  destruct (wp_sound _ _ _ _ (λ _, True) (enforceWsRateLimit env doName bucket ip max windowMs error noStore) [] []
    (λ h _ _, Forall (λ ev, rate_call (projT1 ev)) h) e n s I (λ _ _ _, I)) as [H _]; [| exact H].
  eapply (obeys_wp _ _ _ _ _ rate_call (λ _, True)); [by apply limit_obeys; [apply kept_true |] |]. done.
Qed.
Lemma hidden_log e n s :
  r_headers (exec e n s (includeHidden ws)) = []
  ∧ Forall (λ ev, projT1 ev = HasAdminSession) (r_log (exec e n s (includeHidden ws))).
Proof.
  unfold includeHidden. destruct (match wq_include_hidden ws with Some h => _ | None => _ end); [| by split].
  cbn. destruct (e_answer e n HasAdminSession); (split; [done |]); by apply Forall_singleton.
Qed.
Lemma live_clients_uncached e n s x :
  let run := exec e n s (liveClientsResponse env ws) in
  existT (LiveSnapshotRead true) x ∈ r_log run → Forall uncached (r_headers run).
Proof.
  cbv zeta. unfold liveClientsResponse. rewrite exec_bind_log, exec_bind_headers.
  set (limit := exec e n s (enforceLiveClientsRateLimit env (requestIp ws))).
  pose proof (limit_log e n s "live-clients" "live-clients" (requestIp ws) LIVE_CLIENTS_RATE_LIMIT_MAX LIVE_CLIENTS_RATE_LIMIT_WINDOW_MS
    "Too many live clients requests" true) as Hl. fold (enforceLiveClientsRateLimit env (requestIp ws)) in Hl. fold limit in Hl.
  assert (Hh : Forall uncached (r_headers limit)) by (apply announces_exec, limit_uncached).
  intros [Hx|Hx]%elem_of_app; [rewrite Forall_forall in Hl; by apply Hl in Hx |].
  apply Forall_app. split; [exact Hh |]. destruct (r_value limit) as [[r|]|er]; [by apply Forall_nil_2 | | by apply Forall_nil_2].
  revert Hx. rewrite exec_bind_log, exec_bind_headers. destruct (hidden_log e (r_steps limit) (r_state limit)) as [-> Hlog].
  intros [Hx|Hx]%elem_of_app; [rewrite Forall_forall in Hlog; by apply Hlog in Hx |]. cbn [Datatypes.app]. revert Hx.
  destruct (r_value (exec e (r_steps limit) (r_state limit) (includeHidden ws))) as [[|]|er]; [| | by intros ?%elem_of_nil].
  - intros _. apply announces_exec. destruct (negb (LIVE_DATA env)); [exact I |]. apply announces_bind; [intros []; exact I | intros r].
    apply announces_bind; [exact I | intros snapshot]. by split.
  - destruct (negb (LIVE_DATA env)); [by intros ?%elem_of_nil |]. intros Hx. exfalso. revert Hx. rewrite exec_bind_log. cbn.
    destruct (e_answer _ _ _); cbn; rewrite ?elem_of_cons; intros [H|H%elem_of_nil]; by inversion H.
Qed.
End Guards.

Lemma ws_upgrade_uncached hmac URL env secret ws uuid :
  isWebSocketUpgrade ws = true → announces uncached (ws_live hmac URL env secret ws uuid).
Proof.
  intros Hu. unfold ws_live. rewrite Hu. cbn [negb]. destruct (negb (requestHasValidOrigin URL ws)); [exact I |]. cbv zeta.
  destruct (negb (nonempty _)); [exact I |]. destruct (_ <? 32); [exact I |].
  apply announces_bind; [intros ?; exact I | intros now]. apply announces_bind; [cbn [announces]; by destruct (verifyViewerToken _ _ _ _ _) |].
  intros verified. destruct (negb verified); [exact I |]. destruct (negb (LIVE_DATA env)) eqn:El; [exact I |].
  apply announces_bind; [unfold includeHidden; destruct (match wq_include_hidden ws with Some h => _ | None => _ end); [intros []; exact I | exact I] |].
  intros hidden. unfold upgrade. rewrite El. apply announces_bind; [intros []; exact I | intros; exact I].
Qed.
Lemma live_token_uncached hmac env secret ws nonce : announces uncached (live_token hmac env secret ws nonce).
Proof.
  unfold live_token. destruct (_ <? 32); [exact I |]. apply announces_bind; [apply limit_uncached | intros [r|]; [exact I |]].
  apply announces_bind; [by split | intros _]. apply announces_bind; [intros ?; exact I | intros now]. by apply announces_bind.
Qed.


(** ** Examples *)

Definition sample_hmac (key message : list Z) : list Z := take 32 (map (λ x, x mod 256) (message ++ key) ++ replicate 32 0).
Definition sample_secret : jstr := repeat_str 4 "01234567".
Definition sample_viewer : jstr :=
  (createViewerToken sample_hmac "8.8.8.8" sample_secret (Some (of_Z 60000)) 1700000000000 (replicate 16 7)).1.
Definition sample_site : url :=
  {| protocol := "https:"; username := ""; password := ""; hostname := "panel.example"; port := ""; pathname := "/"; search := ""; hash := "";
     href := "https://panel.example/"; origin := "https://panel.example" |}.
Definition sample_urls (s : jstr) : option url := if starts_with "https://panel.example" s then Some sample_site else None.
Definition sample_socket : ws_request :=
  {| wq_base := sample_request; wq_url := "https://panel.example/api/ws/live"; wq_origin := Some "https://panel.example"; wq_upgrade := Some "WebSocket";
     wq_protocol := Some ("cf-monitor-viewer, " +++ sample_viewer); wq_token := None; wq_include_hidden := Some "1" |}.
Definition sample_connection :=
  exec sample_world 0 fresh_state
    (ws_handle sample_sha sample_hmac sample_urls sample_bindings (Some sample_secret) sample_socket [] "u1" WsLive).
Definition opens (c : call) : bool :=
  match c with LiveUpgrade params => match lookup_field "include_hidden" params with Some _ => true | None => false end | _ => false end.

